(* ===== verification/_CoqProject ===== *)
-Q . S2P
Prelude.v
Riscv.v
PhysMem.v
Kalloc.v
PageTable.v
PtTree.v
PtMap.v
PtUser.v
PtFree.v
PtCopy.v
Memstat.v
Proc.v
FsIface.v
Swap.v
SwapProofs.v
VmFault.v
Evict.v
UserCopy.v
Trap.v
TrapProofs.v
TrapExec.v
Demo.v
DemoPaging.v
Spinlock.v
Sleeplock.v
Pipe.v
Bytes.v
Bio.v
BlockIface.v
Log.v
LogCrash.v
LogTx.v
Fs.v
FsData.v
FsBlocks.v
FsContent.v
FsGrow.v
FsWritten.v
FsWrite.v
FsWritei.v
FsDir.v
FsPath.v
File.v
FileProofs.v
ProcTable.v
ProcInv.v
ProcLife.v
ProcRefine.v
ProcSched.v
DemoFs.v
DemoProc.v
UserGrep.v
Syscall.v
Exec.v
SysFile.v
SysProc.v
SysProcProofs.v
Ledger.v
LedgerVm.v
LedgerSys.v
LedgerExec.v
Monitor.v
DemoSys.v
Printf.v
Console.v
ConsoleProofs.v
DemoDev.v
UserSh.v
UserShProofs.v
UserShRun.v
Umalloc.v
UmallocProofs.v
UserLib.v
Virtio.v
VirtioProofs.v
VirtioSpec.v
VirtioInit.v
DemoVirtio.v
Mkfs.v
MkfsProofs.v
