(* ===== verification/Prelude.v ===== *)
(** * Verification of the xv6-riscv kernel with demand paging and swapping

    The program is the RISC-V kernel xv6 (src/DemandPaging&Swapping/kernel)
    changed so that a process's memory is given to it page by page, on the first
    access, and is taken away again when physical memory runs out: a replacement
    policy picks a victim, dirty victims go to a swap file of the process, and a
    later fault brings them back.  This library models that machinery, the rest of
    the kernel around it, the larger user programs (src/.../user) and the program
    that makes the disk image (src/.../mkfs), and proves what they promise.  File
    names below are of kernel/ unless they begin with user/ or mkfs/.

    ** Parts and files

    Foundations.
    - [Prelude]: outcomes of kernel code ([Ret], [Panic], [Block], [Diverge]), the
      state monad [M] they are written in, loops over arrays, shared lemmas.
    - [Riscv]: machine integers with their wrap-around, the Sv39 macros of riscv.h
      and the constants of memlayout.h and param.h.  The addresses the linker
      chooses are the class [Layout].
    - [PhysMem]: byte-addressed memory; string.c (module [CString]).  [Bytes]:
      integers in byte arrays, as structures on disk have them.

    Memory.
    - [Kalloc]: kalloc.c.  The free list is threaded through the free pages, as in
      the code; [kmem_inv] relates it to a list of pages.
    - [PageTable]: the page-table code of vm.c and of proc.c, reading and writing
      64-bit entries in physical memory.  [PtTree], [PtMap], [PtUser], [PtFree],
      [PtCopy]: the table as a tree, the invariants [pt_inv] and [as_inv], and what
      mapping, growing, freeing and copying an address space do.
    - [Memstat]: memstat.h, the table functions and victim policies of vm.c and
      vm_bonus.c.  [Proc]: struct proc, and the state [kst] of a process in the
      kernel.  [FsIface]: the file-system calls of the paging code as the class
      [FsOps], and what it relies on as [FsLaws].
    - [Swap], [SwapProofs]: swap.c.  [VmFault]: try_kalloc_or_replace, vmfault,
      copyout, copyin, copyinstr of vm.c; the policy is the class [Policy], with
      [fifo] for vm.c and [cleanfifo] for vm_bonus.c.  [Evict]: allocation with
      replacement; [pg_inv] ties page table, memstat table and swap table together.
      [UserCopy]: copies between kernel and user memory.
    - [Trap], [TrapProofs], [TrapExec]: the page-fault branch of usertrap, trap.c.

    Concurrency.
    - [Spinlock], [Sleeplock]: spinlock.c and sleeplock.c as step relations, any
      number of CPUs or processes; that a CPU or process is inside is recorded by
      its place in the code, apart from the lock.  [Pipe]: pipe.c.

    File system.
    - [Bio]: bio.c, the buffer cache.  [Virtio], [VirtioProofs], [VirtioSpec],
      [VirtioInit]: virtio_disk.c, the driver below it, with any device that keeps
      to the virtio specification ([BlockDevice]) and that may answer a request
      with an error, which the interrupt handler turns into a panic.
    - [Log], [LogCrash], [LogTx]: log.c over the cache; [BlockIface] is what the log
      promises to fs.c, as classes that [LogTx] implements.
    - [Fs], [FsData]: fs.c over that interface; [FsBlocks], [FsContent], [FsGrow],
      [FsWritten], [FsWrite], [FsWritei], [FsDir], [FsPath]: its theorems.
    - [File], [FileProofs]: file.c over the interface [FileEnv]; [FileLaws] is what
      filewrite needs of fs.c, where a short writei may leave changed bytes.

    Processes and system calls.
    - [ProcTable]: proc.c for one CPU; [ProcInv], [ProcLife], [ProcRefine],
      [ProcSched]: what each event does to the table and returns as a
      specification ([tspec]), the invariant ([tab_inv]), and the theorems.
    - [Syscall], [Exec], [SysFile], [SysProc]: syscall.c, exec.c, sysfile.c,
      sysproc.c and the trap handlers of trap.c around the page-fault branch.
      [SysProcProofs]: sys_pause, sys_sbrk.  [Ledger], [LedgerVm], [LedgerSys],
      [LedgerExec], [Monitor]: the discipline of transactions, inode locks and
      references, which every call keeps, exec with two exceptions.

    Devices and user programs.
    - [Printf]: printf.c, user/printf.c, atoi of user/ulib.c.  [Console],
      [ConsoleProofs]: console.c and uart.c.
    - [UserGrep]: user/grep.c.  [UserSh], [UserShProofs], [UserShRun]: the parser,
      runcmd as the tree of its system calls with the history of a run ([launch]),
      and the line handling of user/sh.c.  [Umalloc], [UmallocProofs]:
      user/umalloc.c.  [UserLib]: the string and input routines of user/ulib.c and
      the programs user/wc.c, user/cat.c, user/ls.c as far as they compute.
    - [Mkfs], [MkfsProofs]: mkfs/mkfs.c, on an image file of the host.

    The files [Demo...] hold the concrete machines, processes, file systems and
    devices on which the theorems are applied.

    ** What the theorems show

    Memory: pages are never handed out twice; [mappages], [uvmalloc], [uvmfree],
    [uvmcopy] do what they are asked, undo everything when they fail and fail only
    when memory is short; both victim policies return the page they claim to; a
    page comes back from the swap file with its bytes; what allocation with
    replacement returns is free of any other use, and dirty victims are saved.
    Faults bring heap, stack, swap and executable pages in with the right contents
    and permissions, and record them unless the table is full; one access is shown
    to stop the kernel.  Copies move exactly the bytes user code sees.

    Concurrency: at most one CPU or process is between acquire and release of
    either kind of lock, no lost wakeup of sleep locks and of the disk driver;
    pipes deliver bytes in order.

    File system: the cache implements an abstract one; the driver's calls take
    effect one at a time, until the device reports an error; a commit is atomic
    under crashes at any disk write, also in recovery; reading, writing, growing
    and linking files change what they should and nothing else.  On the image mkfs
    makes, the kernel finds the layout, the free map, the root directory and the
    files with their contents.

    Processes: the invariant of the table, what each event does to it and returns,
    fairness of one pass of the scheduler; sys_pause waits for the ticks it is asked
    for; the discipline of locks, references and transactions on every path of
    every file call, and the two places where exec breaks it.

    User level: printed numbers read back, the two formatters agree, the console is
    a line discipline, the shell's parser ends on every line and reads every command
    back, its programs get the descriptors the notation promises, and it closes the
    pipes and waits for its children; malloc and free keep the blocks apart; grep's
    matcher decides the language of the pattern.

    ** Bounds and fuel

    Loops whose recursion is not structural take fuel computed from their
    arguments or the state: one step per page of a range and up to three more, per
    byte, per buffer, per block of the heap, per token.  The theorems prove that
    [Diverge] is never the result.  [freewalk] recurses three levels, the depth of
    an Sv39 table.  [strlen] takes its fuel from the caller.

    ** Modelling choices

    A call that sleeps is cut there: [Block] where nothing else of the state is
    needed, and otherwise the part that follows starts from the state it then
    finds.  Between two cuts the code under a lock is one step; that the locks
    allow this is what [Spinlock] and [Sleeplock] show.  Pointers to structures are
    indices.  The C standard is followed at the width of every integer that can
    wrap around; a signed overflow ([printint] of -2^63) wraps as on the machine.
    Counts of inode references are not bounded.  The theorems about processes are
    for pids below 2^31 - 1.  Where the code would overrun an array, as [read_head]
    with a header on the disk of more than LOGBLOCKS blocks, the model stops.  A
    disk request reaches the device in the step that advances avail->idx; what is
    written before it is not visible to the device ([fill_unseen]).

    ** Not modelled

    Boot code (start.c, main.c, entry.S, kernelvec.S, trampoline.S), [kvminithart]
    and other writes to control registers, plic.c, forkret, uartinit, consoleinit:
    they set hardware registers or call the initialisations in a row.  The user
    programs that only call the system (init, mkdir, rm, ln, kill, echo and the
    tests).  Of mkfs, what it prints about its progress. *)

From stdpp Require Export base tactics numbers list strings sets gmap.
From Stdlib Require Export ZArith Lia.
#[export] Set Default Goal Selector "!".
#[export] Set Warnings "-clear-no-such-hyp".
Open Scope Z_scope.

(** Hint databases of the development: memory frames, PTE algebra, invariants. *)
Create HintDb agree.
Create HintDb inv.
Create Rewrite HintDb pte.

(** ** Outcomes of kernel code

    A kernel function run in a state [s] returns a value and a new state,
    stops the machine in [panic], or puts the calling process to sleep on a
    channel that only another process can signal.  [Diverge] is the value of
    a loop whose fuel ran out; the termination theorems show that it is not
    produced. *)
Inductive outcome (S A : Type) : Type :=
  | Ret (a : A) (s : S)
  | Panic (msg : string)
  | Block (chan : string) (s : S)
  | Diverge.
Arguments Ret {S A} a s.
Arguments Panic {S A} msg.
Arguments Block {S A} chan s.
Arguments Diverge {S A}.

Definition M (S A : Type) : Type := S -> outcome S A.

#[export] Instance M_ret S : MRet (M S) := fun A a s => Ret a s.
#[export] Instance M_bind S : MBind (M S) := fun A B k m s =>
  match m s with
  | Ret a s' => k a s'
  | Panic e => Panic e
  | Block c s' => Block c s'
  | Diverge => Diverge
  end.

Definition getS {S} : M S S := fun s => Ret s s.
Definition putS {S} (s : S) : M S unit := fun _ => Ret tt s.
Definition modS {S} (f : S -> S) : M S unit := fun s => Ret tt (f s).
Definition gets {S A} (f : S -> A) : M S A := fun s => Ret (f s) s.
Definition panic {S A} (msg : string) : M S A := fun _ => Panic msg.
Definition block {S A} (chan : string) : M S A := fun s => Block chan s.
Definition diverge {S A} : M S A := fun _ => Diverge.

(** Run a computation on a part of the state. *)
Definition zoom {S T A} (get : S -> T) (set : T -> S -> S) (m : M T A) : M S A :=
  fun s => match m (get s) with
           | Ret a t => Ret a (set t s)
           | Panic e => Panic e
           | Block c t => Block c (set t s)
           | Diverge => Diverge
           end.

(** ** Rules for running programs *)
Section run_rules.
  Context {S : Type}.

Lemma bind_Ret {A B} (m : M S A) (k : A -> M S B) s a s' :
    m s = Ret a s' -> (m ≫= k) s = k a s'.
  Proof. intros H. unfold mbind, M_bind. by rewrite H. Qed.

Lemma bind_mret {A B} (a : A) (k : A -> M S B) s : (mret a ≫= k) s = k a s.
  Proof. done. Qed.

Lemma bind_Panic {A B} (m : M S A) (k : A -> M S B) s e :
    m s = Panic e -> (m ≫= k) s = Panic e.
  Proof. intros H. unfold mbind, M_bind. by rewrite H. Qed.

Lemma bind_Block {A B} (m : M S A) (k : A -> M S B) s c s' :
    m s = Block c s' -> (m ≫= k) s = Block c s'.
  Proof. intros H. unfold mbind, M_bind. by rewrite H. Qed.

Lemma bind_inv {A B} (m : M S A) (k : A -> M S B) s b s2 :
    (m ≫= k) s = Ret b s2 -> exists a s1, m s = Ret a s1 /\ k a s1 = Ret b s2.
  Proof. unfold mbind, M_bind. destruct (m s) eqn:?; naive_solver. Qed.

Lemma bind_assoc {A B C} (m : M S A) (k : A -> M S B) (h : B -> M S C) s :
    ((m ≫= k) ≫= h) s = (m ≫= (fun a => k a ≫= h)) s.
  Proof. unfold mbind, M_bind. by destruct (m s). Qed.

Lemma zoom_Ret {T A} (get : S -> T) (set : T -> S -> S) (m : M T A) s a t :
    m (get s) = Ret a t -> zoom get set m s = Ret a (set t s).
  Proof. intros H. unfold zoom. by rewrite H. Qed.

Lemma zoom_inv {T A} (get : S -> T) (set : T -> S -> S) (m : M T A) s a s' :
    zoom get set m s = Ret a s' -> exists t, m (get s) = Ret a t /\ s' = set t s.
  Proof. unfold zoom. destruct (m (get s)) eqn:?; naive_solver. Qed.
End run_rules.

(** [run] unfolds the primitive actions at the head of a program. *)
Ltac run :=
  repeat first
    [ progress unfold getS, putS, modS, gets, panic, block, diverge, mret, M_ret in *
    | progress cbn [mbind M_bind] in *
    | progress unfold mbind, M_bind in * ]; cbn beta iota in *.

(** Split boolean tests of the source into arithmetic facts. *)
Ltac zbool :=
  repeat match goal with
  | H : context [?a =? ?b] |- _ => destruct (Z.eqb_spec a b)
  | H : context [?a <? ?b] |- _ => destruct (Z.ltb_spec a b)
  | H : context [?a <=? ?b] |- _ => destruct (Z.leb_spec a b)
  | |- context [?a =? ?b] => destruct (Z.eqb_spec a b)
  | |- context [?a <? ?b] => destruct (Z.ltb_spec a b)
  | |- context [?a <=? ?b] => destruct (Z.leb_spec a b)
  end; simpl in *.

(** ** Finite iteration: [for (i = a; i < a + n; i += step)] loops *)
Definition zseq (a : Z) (n : nat) (step : Z) : list Z :=
  (fun k => a + step * Z.of_nat k) <$> seq 0 n.

Lemma zseq_S a n step : zseq a (S n) step = a :: zseq (a + step) n step.
Proof.
  unfold zseq. cbn [seq fmap list_fmap]. f_equal; [rewrite Z.mul_0_r; lia|].
  rewrite <- seq_shift, <- list_fmap_compose.
  apply list_fmap_ext; intros; unfold compose; rewrite Nat2Z.inj_succ; ring.
Qed.

Lemma elem_of_zseq a n step x :
  x ∈ zseq a n step <-> exists k, 0 <= k < Z.of_nat n /\ x = a + step * k.
Proof.
  unfold zseq. rewrite list_elem_of_fmap. split.
  - intros (k & -> & Hk). apply elem_of_seq in Hk. exists (Z.of_nat k). split; [lia|done].
  - intros (k & Hk & ->). exists (Z.to_nat k). rewrite elem_of_seq, Z2Nat.id by lia. split; [done|lia].
Qed.

Lemma length_zseq a n step : length (zseq a n step) = n.
Proof. unfold zseq. by rewrite length_fmap, length_seq. Qed.

Lemma NoDup_zseq a n step : step <> 0 -> NoDup (zseq a n step).
Proof.
  intros Hs. unfold zseq. apply NoDup_fmap_2_strong; [|apply NoDup_seq].
  intros; nia.
Qed.

Lemma list_bind_ext_in {A B} (f g : A -> list B) (l : list A) :
  (forall x, x ∈ l -> f x = g x) -> l ≫= f = l ≫= g.
Proof.
  induction l as [|x l IH]; intros Hf; [done|]. cbn [mbind list_bind].
  rewrite Hf by set_solver. f_equal. apply IH. intros. apply Hf. set_solver.
Qed.

(** ** Array scans
    [for(i = 0; i < n; i++) if(f(a[i])) break;] : the first index, if any. *)
Fixpoint first_index {A} (f : A -> bool) (l : list A) : option nat :=
  match l with
  | [] => None
  | x :: l => if f x then Some O else S <$> first_index f l
  end.

Lemma first_index_Some {A} (f : A -> bool) l i :
  first_index f l = Some i <->
  (exists x, l !! i = Some x /\ f x = true) /\
  (forall j x, (j < i)%nat -> l !! j = Some x -> f x = false).
Proof.
  revert i. induction l as [|y l IH]; intros i; simpl.
  { split; [done|]. intros [(x & Hx & _) _]. done. }
  destruct (f y) eqn:Ey.
  - split.
    + intros [= <-]. split; [by exists y|]. intros j x Hj. lia.
    + intros [_ Hb]. destruct i as [|i]; [done|]. specialize (Hb O y ltac:(lia) eq_refl). congruence.
  - destruct i as [|i].
    + split; [by destruct (first_index f l)|]. intros [(x & [= <-] & ?) _]. congruence.
    + split.
      * intros E. destruct (first_index f l) as [k|] eqn:Ek; simplify_eq/=.
        destruct (proj1 (IH i) eq_refl) as [Hx Hb]. split; [done|].
        intros [|j] x Hj; simpl; [by intros [= <-]|]. apply Hb. lia.
      * intros [Hx Hb]. rewrite (proj2 (IH i)); [done|]. split; [done|].
        intros j x Hj. apply (Hb (S j)). lia.
Qed.

Lemma first_index_None {A} (f : A -> bool) l :
  first_index f l = None <-> forall i x, l !! i = Some x -> f x = false.
Proof.
  induction l as [|y l IH]; simpl; [split; [by intros _ [] ?|done]|].
  destruct (f y) eqn:Ey.
  - split; [done|]. intros H. specialize (H O y eq_refl). congruence.
  - rewrite fmap_None, IH. split.
    + intros H [|i] x; simpl; [by intros [= <-]|apply H].
    + intros H i x. apply (H (S i)).
Qed.

Lemma first_index_lt {A} (f : A -> bool) l i : first_index f l = Some i -> (i < length l)%nat.
Proof. intros [(x & Hx & _) _]%first_index_Some. by eapply lookup_lt_Some. Qed.

Lemma first_index_insert {A} (f : A -> bool) l i x y :
  l !! i = Some x -> f x = false -> f y = false -> first_index f (<[i := y]> l) = first_index f l.
Proof.
  revert i. induction l as [|z l IH]; intros [|i] Hi Hx Hy; simplify_eq/=; [by rewrite Hx, Hy|].
  destruct (f z); [done|]. by rewrite IH.
Qed.

Lemma zseq_app a n m step : zseq a (n + m) step = zseq a n step ++ zseq (a + step * Z.of_nat n) m step.
Proof.
  revert a. induction n as [|n IH]; intros a.
  - simpl. by replace (a + step * Z.of_nat 0) with a by lia.
  - cbn [Nat.add]. rewrite !zseq_S, IH. cbn [app]. do 2 f_equal.
    replace (a + step + step * Z.of_nat n) with (a + step * Z.of_nat (S n)) by lia. done.
Qed.
