(* ===== verification/Riscv.v ===== *)
(** Machine integers and the Sv39 macros of kernel/riscv.h, with the
    constants of kernel/param.h, kernel/memlayout.h, kernel/memstat.h and
    kernel/swap.h that the other files use.

    A w-bit unsigned integer is a [Z] and its wrap-around is written out:
    [u64 x] is the value of [x] stored in a [uint64], [u32 x] in a [uint] and
    [i32 x] in an [int]. *)
From S2P Require Import Prelude.

Definition u8 (x : Z) : Z := x mod 2 ^ 8.
Definition u16 (x : Z) : Z := x mod 2 ^ 16.
Definition u32 (x : Z) : Z := x mod 2 ^ 32.
Definition u64 (x : Z) : Z := x mod 2 ^ 64.
Definition i32 (x : Z) : Z := (x + 2 ^ 31) mod 2 ^ 32 - 2 ^ 31.

(** ** kernel/riscv.h: page geometry and page-table entries *)
Definition PGSIZE : Z := 4096.
Definition PGSHIFT : Z := 12.
Definition PGROUNDUP (sz : Z) : Z := Z.land (u64 (sz + PGSIZE - 1)) (Z.lnot (PGSIZE - 1)).
Definition PGROUNDDOWN (a : Z) : Z := Z.land a (Z.lnot (PGSIZE - 1)).

Definition PTE_V : Z := Z.shiftl 1 0.
Definition PTE_R : Z := Z.shiftl 1 1.
Definition PTE_W : Z := Z.shiftl 1 2.
Definition PTE_X : Z := Z.shiftl 1 3.
Definition PTE_U : Z := Z.shiftl 1 4.

Definition PA2PTE (pa : Z) : Z := u64 (Z.shiftl (Z.shiftr (u64 pa) 12) 10).
Definition PTE2PA (pte : Z) : Z := u64 (Z.shiftl (Z.shiftr pte 10) 12).
Definition PTE_FLAGS (pte : Z) : Z := Z.land pte 0x3FF.

Definition PXMASK : Z := 0x1FF.
Definition PXSHIFT (level : Z) : Z := PGSHIFT + 9 * level.
Definition PX (level va : Z) : Z := Z.land (Z.shiftr (u64 va) (PXSHIFT level)) PXMASK.
Definition MAXVA : Z := Z.shiftl 1 (9 + 9 + 9 + 12 - 1).

(** The test [x & f] of the source, as a condition. *)
Definition has (x f : Z) : bool := negb (Z.land x f =? 0).

(** ** kernel/memlayout.h and kernel/param.h *)
Definition KERNBASE : Z := 0x80000000.
Definition PHYSTOP : Z := KERNBASE + 128 * 1024 * 1024.
Definition TRAMPOLINE : Z := MAXVA - PGSIZE.
Definition KSTACK (p : Z) : Z := TRAMPOLINE - (p + 1) * 2 * PGSIZE.
Definition TRAPFRAME : Z := TRAMPOLINE - PGSIZE.
Definition UART0 : Z := 0x10000000.
Definition VIRTIO0 : Z := 0x10001000.
Definition PLIC : Z := 0x0c000000.
Definition NPROC : Z := 64.
Definition USERSTACK : Z := 1.
Definition MAXARG : Z := 32.

(** The symbols that kernel/kernel.ld gives the linked kernel: the first
    address after the kernel, the end of its text and its trampoline page. *)
Class Layout : Type := { kend : Z; etext : Z; trampoline : Z }.

Class LayoutOk `{Layout} : Prop := {
  kend_range : KERNBASE < kend <= PHYSTOP
}.

(** ** Arithmetic of the macros *)
Lemma lor_range n a b : 0 <= n -> 0 <= a < 2 ^ n -> 0 <= b < 2 ^ n -> 0 <= Z.lor a b < 2 ^ n.
Proof.
  intros Hn Ha Hb. assert (Z.lor a b = Z.lor a b mod 2 ^ n) as ->; [|apply Z.mod_pos_bound; lia].
  rewrite <- Z.land_ones, Z.land_lor_distr_l, !Z.land_ones, !Z.mod_small by done. done.
Qed.

Lemma u64_small x : 0 <= x < 2 ^ 64 -> u64 x = x.
Proof. apply Z.mod_small. Qed.

Lemma u64_range x : 0 <= u64 x < 2 ^ 64.
Proof. apply Z.mod_pos_bound. lia. Qed.

Lemma u32_small x : 0 <= x < 2 ^ 32 -> u32 x = x.
Proof. apply Z.mod_small. Qed.

Lemma u32_range x : 0 <= u32 x < 2 ^ 32.
Proof. apply Z.mod_pos_bound. lia. Qed.

Lemma i32_range x : - 2 ^ 31 <= i32 x < 2 ^ 31.
Proof. unfold i32. pose proof (Z.mod_pos_bound (x + 2 ^ 31) (2 ^ 32)). lia. Qed.

Lemma i32_small x : - 2 ^ 31 <= x < 2 ^ 31 -> i32 x = x.
Proof. unfold i32. intros. rewrite Z.mod_small; lia. Qed.

Lemma PGROUNDDOWN_div a : PGROUNDDOWN a = PGSIZE * (a / PGSIZE).
Proof.
  unfold PGROUNDDOWN. change (Z.lnot (PGSIZE - 1)) with (Z.lnot (Z.ones 12)).
  rewrite <- Z.ldiff_land, Z.ldiff_ones_r by lia.
  rewrite Z.shiftl_mul_pow2, Z.shiftr_div_pow2 by lia.
  change (2 ^ 12) with PGSIZE. lia.
Qed.

Lemma PGROUNDUP_div sz :
  0 <= sz <= 2 ^ 64 - PGSIZE -> PGROUNDUP sz = PGSIZE * ((sz + PGSIZE - 1) / PGSIZE).
Proof.
  intros. unfold PGROUNDUP. rewrite u64_small by (unfold PGSIZE in *; lia).
  apply (PGROUNDDOWN_div (sz + PGSIZE - 1)).
Qed.

Lemma PGROUNDDOWN_aligned a : a mod PGSIZE = 0 -> PGROUNDDOWN a = a.
Proof. rewrite PGROUNDDOWN_div. unfold PGSIZE. intros. Z.to_euclidean_division_equations. lia. Qed.

Lemma PGROUNDDOWN_mod a : PGROUNDDOWN a mod PGSIZE = 0.
Proof. rewrite PGROUNDDOWN_div, Z.mul_comm. apply Z.mod_mul. unfold PGSIZE. lia. Qed.

Lemma PGROUNDDOWN_bounds a : PGROUNDDOWN a <= a < PGROUNDDOWN a + PGSIZE.
Proof. rewrite PGROUNDDOWN_div. unfold PGSIZE. Z.to_euclidean_division_equations. lia. Qed.

Lemma PGROUNDDOWN_nonneg a : 0 <= a -> 0 <= PGROUNDDOWN a.
Proof. rewrite PGROUNDDOWN_div. unfold PGSIZE. intros. Z.to_euclidean_division_equations. lia. Qed.

Lemma PGROUNDUP_bounds sz :
  0 <= sz <= 2 ^ 64 - PGSIZE -> sz <= PGROUNDUP sz < sz + PGSIZE.
Proof.
  intros. rewrite PGROUNDUP_div by done.
  unfold PGSIZE in *. Z.to_euclidean_division_equations. lia.
Qed.

Lemma PGROUNDUP_mod sz : PGROUNDUP sz mod PGSIZE = 0.
Proof. apply (PGROUNDDOWN_mod (u64 (sz + PGSIZE - 1))). Qed.

Lemma PGROUNDUP_aligned sz :
  0 <= sz <= 2 ^ 64 - PGSIZE -> sz mod PGSIZE = 0 -> PGROUNDUP sz = sz.
Proof.
  intros. rewrite PGROUNDUP_div by done.
  unfold PGSIZE in *. Z.to_euclidean_division_equations. lia.
Qed.

(** A flag word below bit 10 does not meet the page number of a PTE. *)
Lemma land_shiftl_flags x f : 0 <= f < 2 ^ 10 -> Z.land (Z.shiftl x 10) f = 0.
Proof.
  intros Hf. apply Z.bits_inj'. intros n Hn.
  rewrite Z.land_spec, Z.bits_0, Z.shiftl_spec by done.
  destruct (Z.ltb_spec n 10).
  - rewrite Z.testbit_neg_r by lia. done.
  - rewrite (Z.bits_above_log2 f n); [apply andb_false_r|lia|].
    destruct (Z.eq_dec f 0) as [->|]; [simpl; lia|].
    apply Z.log2_lt_pow2; [lia|].
    apply Z.lt_le_trans with (2 ^ 10); [lia|]. apply Z.pow_le_mono_r; lia.
Qed.

Lemma PA2PTE_shiftl pa :
  0 <= pa < 2 ^ 56 -> PA2PTE pa = Z.shiftl (Z.shiftr pa 12) 10.
Proof.
  intros. unfold PA2PTE. rewrite (u64_small pa) by lia. apply u64_small.
  rewrite Z.shiftl_mul_pow2, Z.shiftr_div_pow2 by lia.
  Z.to_euclidean_division_equations. lia.
Qed.

Lemma shiftr_flags f : 0 <= f < 2 ^ 10 -> Z.shiftr f 10 = 0.
Proof. intros. rewrite Z.shiftr_div_pow2 by lia. by apply Z.div_small. Qed.

(** The physical address of a freshly built PTE is the one it was built from. *)
Lemma PTE2PA_mk pa f :
  0 <= pa < 2 ^ 56 -> pa mod PGSIZE = 0 -> 0 <= f < 2 ^ 10 ->
  PTE2PA (Z.lor (PA2PTE pa) f) = pa.
Proof.
  intros Hpa Hal Hf. unfold PTE2PA.
  rewrite Z.shiftr_lor, (shiftr_flags f), Z.lor_0_r, PA2PTE_shiftl by done.
  rewrite Z.shiftr_shiftl_l by lia. simpl.
  change (Z.shiftl (Z.shiftr pa 12) (10 - 10)) with (Z.shiftl (Z.shiftr pa 12) 0).
  rewrite Z.shiftl_0_r, Z.shiftl_mul_pow2, Z.shiftr_div_pow2 by lia.
  change (2 ^ 12) with PGSIZE. unfold PGSIZE in *.
  rewrite u64_small; Z.to_euclidean_division_equations; lia.
Qed.

Lemma PTE_FLAGS_mk pa f :
  0 <= pa < 2 ^ 56 -> 0 <= f < 2 ^ 10 -> PTE_FLAGS (Z.lor (PA2PTE pa) f) = f.
Proof.
  intros Hpa Hf. unfold PTE_FLAGS.
  rewrite Z.land_lor_distr_l, PA2PTE_shiftl by done. rewrite land_shiftl_flags by lia.
  change 0x3FF with (Z.ones 10). rewrite Z.land_ones by lia. rewrite Z.mod_small; done.
Qed.

(** Testing a flag of a freshly built PTE is testing the flags it was built from. *)
Lemma has_mk pa f g :
  0 <= pa < 2 ^ 56 -> 0 <= g < 2 ^ 10 -> has (Z.lor (PA2PTE pa) f) g = has f g.
Proof.
  intros. unfold has.
  by rewrite Z.land_lor_distr_l, PA2PTE_shiftl, land_shiftl_flags by done.
Qed.

Lemma mk_pte_range pa f :
  0 <= pa < 2 ^ 56 -> 0 <= f < 2 ^ 10 -> 0 <= Z.lor (PA2PTE pa) f < 2 ^ 64.
Proof.
  intros. rewrite <- Z.add_nocarry_lor.
  - rewrite PA2PTE_shiftl, Z.shiftl_mul_pow2, Z.shiftr_div_pow2 by lia.
    Z.to_euclidean_division_equations. lia.
  - rewrite PA2PTE_shiftl by done. by apply land_shiftl_flags.
Qed.

(** The nine-bit indices as quotients. *)
Lemma PX_div level va :
  0 <= level -> 0 <= va < 2 ^ 64 -> PX level va = va / 2 ^ (12 + 9 * level) mod 512.
Proof.
  intros. unfold PX, PXSHIFT, PGSHIFT. rewrite u64_small by lia.
  rewrite Z.shiftr_div_pow2 by lia. change PXMASK with (Z.ones 9).
  by rewrite Z.land_ones by lia.
Qed.

Lemma PX_range level va : 0 <= PX level va < 512.
Proof.
  unfold PX. change PXMASK with (Z.ones 9). rewrite Z.land_ones by lia.
  apply Z.mod_pos_bound. lia.
Qed.

(** Below [MAXVA] the three indices and the page offset determine the address. *)
Lemma PX_split va :
  0 <= va < MAXVA ->
  va = PX 2 va * 2 ^ 30 + PX 1 va * 2 ^ 21 + PX 0 va * 2 ^ 12 + va mod PGSIZE.
Proof.
  change MAXVA with 274877906944. unfold PGSIZE. intros.
  rewrite !PX_div by lia. simpl Z.add. simpl Z.mul.
  change (2 ^ 30) with 1073741824. change (2 ^ 21) with 2097152. change (2 ^ 12) with 4096.
  Z.to_euclidean_division_equations. lia.
Qed.

(** Two addresses below [MAXVA] with the same indices lie in the same page. *)
Lemma PX_inj va vb :
  0 <= va < MAXVA -> 0 <= vb < MAXVA ->
  PX 2 va = PX 2 vb -> PX 1 va = PX 1 vb -> PX 0 va = PX 0 vb ->
  PGROUNDDOWN va = PGROUNDDOWN vb.
Proof.
  intros Ha Hb E2 E1 E0. pose proof (PX_split va Ha). pose proof (PX_split vb Hb).
  rewrite E2, E1, E0 in *. rewrite !PGROUNDDOWN_div.
  unfold PGSIZE in *. Z.to_euclidean_division_equations. lia.
Qed.

Lemma PX_same_page va vb level :
  0 <= level -> 0 <= va < 2 ^ 64 -> 0 <= vb < 2 ^ 64 ->
  PGROUNDDOWN va = PGROUNDDOWN vb -> PX level va = PX level vb.
Proof.
  intros Hl Ha Hb. rewrite !PGROUNDDOWN_div, !PX_div by lia. intros E.
  assert (Hd : va / PGSIZE = vb / PGSIZE) by (unfold PGSIZE in *; lia).
  replace (2 ^ (12 + 9 * level)) with (PGSIZE * 2 ^ (9 * level)).
  - by rewrite <- !Z.div_div, Hd by (unfold PGSIZE; lia).
  - rewrite Z.pow_add_r by lia. done.
Qed.

#[export] Hint Rewrite PTE2PA_mk PTE_FLAGS_mk has_mk using (done || lia) : pte.
