(* ===== verification/PhysMem.v ===== *)
(** Byte-addressed memory and the routines of kernel/string.c.

    Physical memory is a function from addresses to bytes; multi-byte values
    are little-endian, as on RISC-V.  [fill] and [copy] are the reference
    definitions of what [memset] and [memmove] promise; the loops of
    kernel/string.c are in module [CString] with the proofs that they compute
    the reference definitions, which the rest of the development uses. *)
From S2P Require Import Prelude Riscv.

Definition mem : Type := Z -> Z.

Definition rd8 (m : mem) (a : Z) : Z := m a mod 256.
Definition wr8 (m : mem) (a v : Z) : mem := fun x => if x =? a then v mod 256 else m x.

Fixpoint ld (n : nat) (m : mem) (a : Z) : Z :=
  match n with
  | O => 0
  | S n => rd8 m a + 256 * ld n m (a + 1)
  end.

Definition inr (a n x : Z) : bool := (a <=? x) && (x <? a + n).

Definition st (n : nat) (m : mem) (a v : Z) : mem :=
  fun x => if inr a (Z.of_nat n) x then (v / 256 ^ (x - a)) mod 256 else m x.

Abbreviation load64 := (ld 8).
Abbreviation store64 := (st 8).

Definition fill (m : mem) (a c n : Z) : mem :=
  fun x => if inr a n x then c mod 256 else m x.

Definition copy (m : mem) (dst src n : Z) : mem :=
  fun x => if inr dst n x then m (src + (x - dst)) else m x.

Definition load_bytes (m : mem) (a : Z) (n : nat) : list Z := rd8 m <$> zseq a n 1.

Definition store_bytes (m : mem) (a : Z) (l : list Z) : mem :=
  fun x => if inr a (Z.of_nat (length l)) x then default 0 (l !! Z.to_nat (x - a)) mod 256 else m x.

(** Two memories agree on the [n] bytes from [a]. *)
Definition agree (a n : Z) (m m' : mem) : Prop := forall x, a <= x < a + n -> m x = m' x.

(** ** Loads and stores *)
Lemma inr_spec a n x : inr a n x = true <-> a <= x < a + n.
Proof. unfold inr. rewrite andb_true_iff, Z.leb_le, Z.ltb_lt. done. Qed.

Lemma inr_true a n x : a <= x < a + n -> inr a n x = true.
Proof. apply inr_spec. Qed.

Lemma inr_false a n x : x < a \/ a + n <= x -> inr a n x = false.
Proof. intros. apply not_true_is_false. rewrite inr_spec. lia. Qed.

Ltac inr_tac :=
  repeat match goal with
  | |- context [inr ?a ?n ?x] =>
      first [ rewrite (inr_true a n x) by lia | rewrite (inr_false a n x) by lia
            | destruct (inr a n x) eqn:?; rewrite ?inr_spec in * ]
  | H : inr _ _ _ = true |- _ => rewrite inr_spec in H
  | H : inr _ _ _ = false |- _ => rewrite <- not_true_iff_false, inr_spec in H
  end.

Lemma ld_ext n m m' a : agree a (Z.of_nat n) m m' -> ld n m a = ld n m' a.
Proof.
  revert a. induction n as [|n IH]; intros a H; [done|]. simpl. f_equal.
  - unfold rd8. rewrite H by lia. done.
  - rewrite (IH (a + 1)); [done|]. intros x ?. apply H. lia.
Qed.

Lemma ld_range n m a : 0 <= ld n m a < 256 ^ Z.of_nat n.
Proof.
  revert a. induction n as [|n IH]; intros a; [simpl; lia|].
  cbn [ld]. rewrite Nat2Z.inj_succ, Z.pow_succ_r by lia.
  specialize (IH (a + 1)). unfold rd8. pose proof (Z.mod_pos_bound (m a) 256). lia.
Qed.

Lemma load64_range m a : 0 <= load64 m a < 2 ^ 64.
Proof. exact (ld_range 8 m a). Qed.

Lemma ld_st_shift k n m a v j :
  0 <= j -> j + Z.of_nat k <= Z.of_nat n ->
  ld k (st n m a v) (a + j) = (v / 256 ^ j) mod 256 ^ Z.of_nat k.
Proof.
  revert j. induction k as [|k IH]; intros j Hj Hk; [simpl; by rewrite Z.mod_1_r|].
  cbn [ld]. replace (a + j + 1) with (a + (j + 1)) by lia. rewrite IH by lia.
  rewrite Nat2Z.inj_succ, (Z.pow_succ_r 256 (Z.of_nat k)) by lia.
  unfold rd8, st. rewrite inr_true by lia. replace (a + j - a) with j by lia.
  rewrite Z.mod_mod by lia. rewrite Z.pow_add_r, Z.pow_1_r by lia.
  rewrite <- Z.div_div by lia. rewrite Z.rem_mul_r by lia. done.
Qed.

Lemma ld_st_same n m a v : ld n (st n m a v) a = v mod 256 ^ Z.of_nat n.
Proof.
  pose proof (ld_st_shift n n m a v 0) as H. rewrite Z.add_0_r, Z.pow_0_r, Z.div_1_r in H.
  apply H; lia.
Qed.

Lemma load64_store64 m a v : 0 <= v < 2 ^ 64 -> load64 (store64 m a v) a = v.
Proof. intros. rewrite ld_st_same. by apply Z.mod_small. Qed.

Lemma agree_refl a n m : agree a n m m.
Proof. done. Qed.

Lemma agree_sym a n m m' : agree a n m m' -> agree a n m' m.
Proof. intros H x ?. by rewrite H. Qed.

Lemma agree_trans a n m1 m2 m3 : agree a n m1 m2 -> agree a n m2 m3 -> agree a n m1 m3.
Proof. intros H1 H2 x ?. by rewrite H1, H2. Qed.

Lemma agree_sub a n b k m m' : agree a n m m' -> a <= b -> b + k <= a + n -> agree b k m m'.
Proof. intros H ?? x ?. apply H. lia. Qed.

Lemma agree_st a n m b k v : b + Z.of_nat k <= a \/ a + n <= b -> agree a n (st k m b v) m.
Proof. intros ? x ?. unfold st. by inr_tac. Qed.

Lemma agree_fill a n m b c k : 0 <= k -> b + k <= a \/ a + n <= b -> agree a n (fill m b c k) m.
Proof. intros ?? x ?. unfold fill. by inr_tac. Qed.

Lemma agree_copy a n m d s k : 0 <= k -> d + k <= a \/ a + n <= d -> agree a n (copy m d s k) m.
Proof. intros ?? x ?. unfold copy. by inr_tac. Qed.

Lemma agree_store_bytes a n m b l :
  b + Z.of_nat (length l) <= a \/ a + n <= b -> agree a n (store_bytes m b l) m.
Proof. intros ? x ?. unfold store_bytes. by inr_tac. Qed.

Lemma load64_fill0 m a n b :
  a <= b -> b + 8 <= a + n -> load64 (fill m a 0 n) b = 0.
Proof.
  intros. cbn [ld]. unfold rd8, fill. rewrite !inr_true by lia. done.
Qed.

(** What [load_bytes] reads back of [store_bytes] and of [copy]. *)
Lemma load_bytes_ext m m' a n :
  agree a (Z.of_nat n) m m' -> load_bytes m a n = load_bytes m' a n.
Proof.
  intros H. apply list_fmap_ext. intros i x Hx.
  assert (x ∈ zseq a n 1) as Hin by (apply list_elem_of_lookup; eauto).
  apply elem_of_zseq in Hin as (k & ? & ->). unfold rd8. rewrite H by lia. done.
Qed.

Lemma lookup_load_bytes m a n i :
  (i < n)%nat -> load_bytes m a n !! i = Some (rd8 m (a + Z.of_nat i)).
Proof.
  intros. unfold load_bytes, zseq. rewrite !list_lookup_fmap.
  rewrite lookup_seq_lt by done. simpl. do 2 f_equal. lia.
Qed.

Lemma length_load_bytes m a n : length (load_bytes m a n) = n.
Proof. unfold load_bytes. by rewrite length_fmap, length_zseq. Qed.

Definition is_bytes (l : list Z) : Prop := Forall (fun b => 0 <= b < 256) l.

Lemma load_bytes_is_bytes m a n : is_bytes (load_bytes m a n).
Proof.
  apply Forall_fmap, Forall_forall. intros x _. apply Z.mod_pos_bound. lia.
Qed.

Lemma load_store_bytes m a l : is_bytes l -> load_bytes (store_bytes m a l) a (length l) = l.
Proof.
  intros Hl. apply list_eq. intros i. destruct (decide (i < length l)%nat) as [Hi|Hi].
  - rewrite lookup_load_bytes by done. destruct (lookup_lt_is_Some_2 l i Hi) as [b Hb].
    unfold rd8, store_bytes. rewrite inr_true by lia.
    replace (Z.to_nat (a + Z.of_nat i - a)) with i by lia. rewrite Hb. simpl.
    pose proof (Forall_lookup_1 _ _ _ _ Hl Hb). simpl in *.
    by rewrite Z.mod_mod, Z.mod_small by lia.
  - rewrite !lookup_ge_None_2; [done|lia|rewrite length_load_bytes; lia].
Qed.

#[export] Hint Resolve agree_refl agree_sym agree_st agree_fill agree_copy : agree.

(** ** kernel/string.c *)
Module CString.

(** [for(i = 0; i < n; i++) cdst[i] = c;] *)
Fixpoint memset_loop (k : nat) (m : mem) (cdst c i : Z) : mem :=
  match k with
  | O => m
  | S k => memset_loop k (wr8 m (cdst + i) c) cdst c (i + 1)
  end.

Definition memset (m : mem) (dst c n : Z) : mem :=
  memset_loop (Z.to_nat (u32 n)) m dst c 0.

(** [while(n-- > 0){ if( *s1 != *s2 ) return *s1 - *s2; s1++, s2++; } return 0;] *)
Fixpoint memcmp_loop (k : nat) (m : mem) (s1 s2 : Z) : Z :=
  match k with
  | O => 0
  | S k => if negb (rd8 m s1 =? rd8 m s2) then rd8 m s1 - rd8 m s2
           else memcmp_loop k m (s1 + 1) (s2 + 1)
  end.

Definition memcmp (m : mem) (v1 v2 n : Z) : Z := memcmp_loop (Z.to_nat (u32 n)) m v1 v2.

(** [while(n-- > 0) *d++ = *s++;] *)
Fixpoint move_up (k : nat) (m : mem) (d s : Z) : mem :=
  match k with
  | O => m
  | S k => move_up k (wr8 m d (rd8 m s)) (d + 1) (s + 1)
  end.

(** [while(n-- > 0) *--d = *--s;] *)
Fixpoint move_down (k : nat) (m : mem) (d s : Z) : mem :=
  match k with
  | O => m
  | S k => move_down k (wr8 m (d - 1) (rd8 m (s - 1))) (d - 1) (s - 1)
  end.

Definition memmove (m : mem) (dst src n : Z) : mem :=
  let n := u32 n in
  if n =? 0 then m
  else if (src <? dst) && (dst <? src + n)
       then move_down (Z.to_nat n) m (dst + n) (src + n)
       else move_up (Z.to_nat n) m dst src.

Definition memcpy (m : mem) (dst src n : Z) : mem := memmove m dst src n.

(** [while(n > 0 && *p && *p == *q) n--, p++, q++;] and the two returns. *)
Fixpoint strncmp_loop (k : nat) (m : mem) (p q : Z) : Z :=
  match k with
  | O => 0
  | S k => if negb (rd8 m p =? 0) && (rd8 m p =? rd8 m q)
           then strncmp_loop k m (p + 1) (q + 1)
           else rd8 m p - rd8 m q
  end.

Definition strncmp (m : mem) (p q n : Z) : Z := strncmp_loop (Z.to_nat (u32 n)) m p q.

(** [while(n-- > 0 && ( *s++ = *t++ ) != 0) ;] then [while(n-- > 0) *s++ = 0;] *)
Fixpoint strncpy_loop (k : nat) (m : mem) (s t : Z) : mem :=
  match k with
  | O => m
  | S k => let m' := wr8 m s (rd8 m t) in
           if negb (rd8 m t =? 0) then strncpy_loop k m' (s + 1) (t + 1)
           else memset_loop k m' (s + 1) 0 0
  end.

Definition strncpy (m : mem) (s t n : Z) : mem := strncpy_loop (Z.to_nat n) m s t.

(** [if(n <= 0) return os; while(--n > 0 && ( *s++ = *t++ ) != 0) ; *s = 0;] *)
Fixpoint safestrcpy_loop (k : nat) (m : mem) (s t : Z) : mem :=
  match k with
  | O => wr8 m s 0
  | S k => let m' := wr8 m s (rd8 m t) in
           if negb (rd8 m t =? 0) then safestrcpy_loop k m' (s + 1) (t + 1)
           else wr8 m' (s + 1) 0
  end.

Definition safestrcpy (m : mem) (s t n : Z) : mem :=
  if n <=? 0 then m else safestrcpy_loop (Z.to_nat (n - 1)) m s t.

(** [for(n = 0; s[n]; n++) ; return n;], with fuel for the unbounded scan. *)
Fixpoint strlen_loop (fuel : nat) (m : mem) (s n : Z) : option Z :=
  match fuel with
  | O => None
  | S fuel => if rd8 m (s + n) =? 0 then Some n else strlen_loop fuel m s (n + 1)
  end.

Definition strlen (fuel : nat) (m : mem) (s : Z) : option Z := strlen_loop fuel m s 0.

(** *** The loops compute the reference definitions *)
Lemma memset_loop_spec k m d c i x :
  memset_loop k m d c i x = fill m (d + i) c (Z.of_nat k) x.
Proof.
  revert m i. induction k as [|k IH]; intros m i; cbn [memset_loop].
  - unfold fill. by inr_tac.
  - rewrite IH. unfold fill, wr8. destruct (Z.eqb_spec x (d + i)); by inr_tac; lia.
Qed.

Lemma move_up_spec k m d s x :
  d <= s \/ s + Z.of_nat k <= d ->
  rd8 (move_up k m d s) x = rd8 (copy m d s (Z.of_nat k)) x.
Proof.
  revert m d s. induction k as [|k IH]; intros m d s Hd; cbn [move_up].
  - unfold rd8, copy. rewrite inr_false by lia. done.
  - rewrite IH by lia. unfold rd8, copy, wr8.
    destruct (Z.eqb_spec x d) as [->|].
    + inr_tac. replace (s + (d - d)) with s by lia. unfold rd8. by rewrite !Z.mod_mod by lia.
    + destruct (decide (d + 1 <= x < d + 1 + Z.of_nat k)) as [Hx|Hx].
      * rewrite !inr_true by lia.
        destruct (Z.eqb_spec (s + 1 + (x - (d + 1))) d); [lia|]. do 2 f_equal. lia.
      * rewrite !inr_false by lia. done.
Qed.

Lemma move_down_spec k m d s x :
  s <= d ->
  rd8 (move_down k m d s) x = rd8 (copy m (d - Z.of_nat k) (s - Z.of_nat k) (Z.of_nat k)) x.
Proof.
  revert m d s. induction k as [|k IH]; intros m d s Hd; cbn [move_down].
  - unfold rd8, copy. rewrite inr_false by lia. done.
  - rewrite IH by lia. unfold rd8, copy, wr8.
    destruct (Z.eqb_spec x (d - 1)) as [->|].
    + inr_tac; try lia. replace (s - Z.of_nat (S k) + _) with (s - 1) by lia.
      unfold rd8. by rewrite !Z.mod_mod by lia.
    + destruct (decide (d - Z.of_nat (S k) <= x < d - 1)) as [Hx|Hx].
      * rewrite !inr_true by lia.
        destruct (Z.eqb_spec (s - 1 - Z.of_nat k + (x - (d - 1 - Z.of_nat k))) (d - 1)); [lia|].
        do 2 f_equal. lia.
      * rewrite !inr_false by lia. done.
Qed.

Lemma memset_correct m dst c n x :
  0 <= n < 2 ^ 32 -> memset m dst c n x = fill m dst c n x.
Proof.
  intros. unfold memset. rewrite u32_small, memset_loop_spec, Z.add_0_r, Z2Nat.id by lia. done.
Qed.

(** [memmove] copies the [n] source bytes as they were before the
    call, whatever the overlap of the two ranges, and changes no other byte. *)
Theorem memmove_correct m dst src n x :
  0 <= n < 2 ^ 32 -> rd8 (memmove m dst src n) x = rd8 (copy m dst src n) x.
Proof.
  intros Hn. unfold memmove. rewrite u32_small by done.
  destruct (Z.eqb_spec n 0) as [->|]; [unfold rd8, copy; by rewrite inr_false by lia|].
  destruct (Z.ltb_spec src dst), (Z.ltb_spec dst (src + n)); simpl;
    first [ rewrite move_up_spec by lia; by rewrite Z2Nat.id by lia | idtac ].
  rewrite move_down_spec by lia. rewrite Z2Nat.id by lia. do 2 f_equal; lia.
Qed.

(** The C string of at most [k] bytes at [p]. *)
Fixpoint cstr (k : nat) (m : mem) (p : Z) : list Z :=
  match k with
  | O => []
  | S k => if rd8 m p =? 0 then [] else rd8 m p :: cstr k m (p + 1)
  end.

Lemma memcmp_loop_zero k m s1 s2 :
  memcmp_loop k m s1 s2 = 0 <-> load_bytes m s1 k = load_bytes m s2 k.
Proof.
  revert s1 s2. induction k as [|k IH]; intros s1 s2; [done|].
  unfold load_bytes. rewrite !zseq_S. cbn [memcmp_loop fmap list_fmap].
  destruct (Z.eqb_spec (rd8 m s1) (rd8 m s2)) as [E|E]; simpl.
  - rewrite IH, E. unfold load_bytes. split; [by intros ->|by intros [=]].
  - split; [lia|]. by intros [=].
Qed.

(** [strncmp] (and with it [namecmp]) is zero exactly on equal names. *)
Theorem strncmp_zero m p q n :
  0 <= n < 2 ^ 32 ->
  strncmp m p q n = 0 <-> cstr (Z.to_nat n) m p = cstr (Z.to_nat n) m q.
Proof.
  intros Hn. unfold strncmp. rewrite u32_small by done. clear Hn.
  generalize (Z.to_nat n) as k. intros k. revert p q.
  induction k as [|k IH]; intros p q; [done|]. cbn [strncmp_loop cstr].
  destruct (Z.eqb_spec (rd8 m p) 0) as [E|E], (Z.eqb_spec (rd8 m q) 0) as [F|F]; simpl.
  - by rewrite E, F.
  - split; [lia|done].
  - destruct (Z.eqb_spec (rd8 m p) (rd8 m q)); [lia|]. split; [lia|done].
  - destruct (Z.eqb_spec (rd8 m p) (rd8 m q)) as [G|G].
    + rewrite IH, G. split; [by intros ->|by intros [=]].
    + split; [lia|by intros [=]].
Qed.

Lemma safestrcpy_loop_frame k m s t x :
  x < s \/ s + Z.of_nat k < x -> safestrcpy_loop k m s t x = m x.
Proof.
  revert m s t. induction k as [|k IH]; intros m s t Hx; cbn [safestrcpy_loop].
  - unfold wr8. zbool; [lia|done].
  - destruct (negb _); [rewrite IH by lia|]; unfold wr8; zbool; (lia || done).
Qed.

Lemma rd8_wr8_eq m a v : rd8 (wr8 m a v) a = v mod 256.
Proof. unfold rd8, wr8. by rewrite Z.eqb_refl, Z.mod_mod by lia. Qed.

Lemma rd8_wr8_ne m a b v : a <> b -> rd8 (wr8 m a v) b = rd8 m b.
Proof. intros. unfold rd8, wr8. by destruct (Z.eqb_spec b a); [lia|]. Qed.

Lemma rd8_rd8 m a : rd8 m a mod 256 = rd8 m a.
Proof. unfold rd8. by rewrite Z.mod_mod by lia. Qed.

Lemma cstr_ext k m m' p p' :
  (forall i, 0 <= i < Z.of_nat k -> rd8 m (p + i) = rd8 m' (p' + i)) ->
  cstr k m p = cstr k m' p'.
Proof.
  revert p p'. induction k as [|k IH]; intros p p' H; [done|]. cbn [cstr].
  pose proof (H 0 ltac:(lia)) as H0. rewrite !Z.add_0_r in H0. rewrite H0.
  case_match; [done|]. f_equal. apply IH. intros i ?.
  replace (p + 1 + i) with (p + (i + 1)) by lia.
  replace (p' + 1 + i) with (p' + (i + 1)) by lia. apply H. lia.
Qed.

Lemma safestrcpy_loop_str k m s t :
  s + Z.of_nat k < t \/ t + Z.of_nat k <= s ->
  cstr (S k) (safestrcpy_loop k m s t) s = cstr k m t.
Proof.
  revert m s t. induction k as [|k IH]; intros m s t Hst; cbn [safestrcpy_loop].
  - cbn [cstr]. by rewrite rd8_wr8_eq.
  - change (cstr (S k) m t) with (if rd8 m t =? 0 then [] else rd8 m t :: cstr k m (t + 1)).
    destruct (Z.eqb_spec (rd8 m t) 0) as [E|E]; simpl negb; cbn iota.
    + cbn [cstr]. rewrite rd8_wr8_ne, rd8_wr8_eq, E by lia. done.
    + set (m' := wr8 m s (rd8 m t)). remember (S k) as k'. cbn [cstr]. subst k'.
      rewrite IH by lia.
      assert (Hs : rd8 (safestrcpy_loop k m' (s + 1) (t + 1)) s = rd8 m t).
      { unfold rd8 at 1. rewrite safestrcpy_loop_frame by lia.
        change (rd8 m' s = rd8 m t). unfold m'. by rewrite rd8_wr8_eq, rd8_rd8. }
      rewrite Hs. destruct (Z.eqb_spec (rd8 m t) 0); [done|]. f_equal.
      apply cstr_ext. intros i ?. unfold m'. rewrite rd8_wr8_ne by lia. done.
Qed.

(** for [0 < n] and a source that does not overlap the
    destination, [safestrcpy] leaves in the destination the NUL-terminated prefix
    of the source of at most [n-1] bytes, and writes only the [n] bytes there. *)
Theorem safestrcpy_correct m s t n :
  0 < n -> s + n <= t \/ t + n <= s ->
  cstr (Z.to_nat n) (safestrcpy m s t n) s = cstr (Z.to_nat (n - 1)) m t /\
  (forall x, x < s \/ s + n <= x -> safestrcpy m s t n x = m x).
Proof.
  intros Hn Hst. unfold safestrcpy. destruct (Z.leb_spec n 0); [lia|]. split.
  - replace (Z.to_nat n) with (S (Z.to_nat (n - 1))) by lia.
    apply safestrcpy_loop_str. lia.
  - intros x Hx. apply safestrcpy_loop_frame. lia.
Qed.

(** the scan stops at the first NUL, with any fuel that reaches it. *)
Theorem strlen_correct fuel m s k :
  0 <= k -> (Z.to_nat k < fuel)%nat -> rd8 m (s + k) = 0 ->
  (forall i, 0 <= i < k -> rd8 m (s + i) <> 0) -> strlen fuel m s = Some k.
Proof.
  intros Hk Hf Hz Hnz. unfold strlen.
  assert (forall n, 0 <= n <= k -> (Z.to_nat (k - n) < fuel)%nat ->
    strlen_loop fuel m s n = Some k) as H; [|apply H; lia].
  clear Hf. induction fuel as [|fuel IH]; intros n Hn Hf; [lia|]. cbn [strlen_loop].
  destruct (Z.eqb_spec (rd8 m (s + n)) 0).
  - destruct (decide (n = k)) as [->|]; [done|]. exfalso. apply (Hnz n); [lia|done].
  - assert (n <> k) by congruence. apply IH; lia.
Qed.

Lemma strncpy_loop_frame k m s t x :
  x < s \/ s + Z.of_nat k <= x -> strncpy_loop k m s t x = m x.
Proof.
  revert m s t. induction k as [|k IH]; intros m s t Hx; cbn [strncpy_loop]; [done|].
  destruct (negb _); [rewrite IH by lia|rewrite memset_loop_spec; unfold fill; inr_tac];
    unfold wr8; zbool; (lia || done).
Qed.

(** [strncpy] into a directory entry: the entry's name is the source's first
    [n] bytes, zero-padded. *)
Lemma strncpy_str k m s t :
  s + Z.of_nat k <= t \/ t + Z.of_nat k <= s ->
  cstr k (strncpy_loop k m s t) s = cstr k m t.
Proof.
  revert m s t. induction k as [|k IH]; intros m s t Hst; cbn [strncpy_loop]; [done|].
  cbn [cstr]. destruct (Z.eqb_spec (rd8 m t) 0) as [E|E]; simpl negb; cbn iota.
  - unfold rd8 at 1. rewrite memset_loop_spec. unfold fill. rewrite inr_false by lia.
    unfold wr8. rewrite Z.eqb_refl, E. done.
  - set (m' := wr8 m s (rd8 m t)). rewrite IH by lia.
    assert (Hs : rd8 (strncpy_loop k m' (s + 1) (t + 1)) s = rd8 m t).
    { unfold rd8 at 1. rewrite strncpy_loop_frame by lia.
      change (rd8 m' s = rd8 m t). unfold m'. by rewrite rd8_wr8_eq, rd8_rd8. }
    rewrite Hs. destruct (Z.eqb_spec (rd8 m t) 0); [done|]. f_equal.
    apply cstr_ext. intros i ?. unfold m'. rewrite rd8_wr8_ne by lia. done.
Qed.
End CString.

#[global] Arguments ld : simpl never.
#[global] Arguments st : simpl never.
#[global] Arguments fill : simpl never.
#[global] Arguments copy : simpl never.
