(* ===== verification/Kalloc.v ===== *)
(** The physical page allocator, kernel/kalloc.c.

    The allocator's state is the physical memory and the head of the free
    list; the list itself is threaded through the first eight bytes of the
    free pages, as in the code.  [free_list] reads it back as the list of
    pages, which is the abstract state the allocator refines. *)
From S2P Require Import Prelude Riscv PhysMem.

Record pmem : Type := mkPmem { pm_mem : mem; freelist : Z }.

Section kalloc.
Context `{HL : Layout}.

(** [kfree]: page alignment and range checks, junk fill, push on the list. *)
Definition kfree (pa : Z) : M pmem unit :=
  if negb (pa mod PGSIZE =? 0) || (pa <? kend) || (PHYSTOP <=? pa) then panic "kfree"
  else modS (fun s =>
    let m := fill (pm_mem s) pa 1 PGSIZE in
    mkPmem (store64 m pa (freelist s)) pa).

(** [kalloc]: pop the list, fill the page with junk; 0 when the list is empty. *)
Definition kalloc : M pmem Z :=
  s ← getS;
  let r := freelist s in
  _ ← (if negb (r =? 0) then putS (mkPmem (pm_mem s) (load64 (pm_mem s) r)) else mret tt);
  _ ← (if negb (r =? 0)
       then modS (fun s => mkPmem (fill (pm_mem s) r 5 PGSIZE) (freelist s)) else mret tt);
  mret r.

(** [for(; p + PGSIZE <= pa_end; p += PGSIZE) kfree(p);] *)
Fixpoint freerange_loop (fuel : nat) (p pa_end : Z) : M pmem unit :=
  match fuel with
  | O => diverge
  | S fuel => if p + PGSIZE <=? pa_end
              then _ ← kfree p; freerange_loop fuel (p + PGSIZE) pa_end
              else mret tt
  end.

Definition freerange (pa_start pa_end : Z) : M pmem unit :=
  freerange_loop (S (Z.to_nat ((pa_end - pa_start) / PGSIZE))) (PGROUNDUP pa_start) pa_end.

Definition kinit : M pmem unit := freerange kend PHYSTOP.

(** ** Representation of the free list *)
Definition page_ok (pa : Z) : Prop := pa mod PGSIZE = 0 /\ kend <= pa < PHYSTOP.

#[global] Instance page_ok_dec pa : Decision (page_ok pa).
Proof. unfold page_ok. apply _. Defined.

Fixpoint free_list (m : mem) (h : Z) (l : list Z) : Prop :=
  match l with
  | [] => h = 0
  | p :: l => h = p /\ free_list m (load64 m p) l
  end.

Record kmem_inv (s : pmem) (l : list Z) : Prop := {
  ki_list : free_list (pm_mem s) (freelist s) l;
  ki_nodup : NoDup l;
  ki_pages : Forall page_ok l
}.

(** The memory of two states agrees outside the pages of [ps]. *)
Definition same_except (ps : list Z) (m m' : mem) : Prop :=
  forall p, p mod PGSIZE = 0 -> p ∉ ps -> agree p PGSIZE m m'.

Context `{!LayoutOk}.

Lemma page_ok_range p : page_ok p -> 0 < p < 2 ^ 56 /\ p mod PGSIZE = 0 /\ p + PGSIZE <= 2 ^ 56.
Proof.
  intros [? ?]. pose proof kend_range. unfold PHYSTOP, KERNBASE, PGSIZE in *. lia.
Qed.

Lemma pages_apart p q :
  p mod PGSIZE = 0 -> q mod PGSIZE = 0 -> p <> q -> p + PGSIZE <= q \/ q + PGSIZE <= p.
Proof. unfold PGSIZE. intros. Z.to_euclidean_division_equations. lia. Qed.

Lemma same_except_refl ps m : same_except ps m m.
Proof. intros p _ _. apply agree_refl. Qed.

Lemma same_except_trans ps qs rs m1 m2 m3 :
  same_except ps m1 m2 -> same_except qs m2 m3 -> ps ⊆ rs -> qs ⊆ rs -> same_except rs m1 m3.
Proof.
  intros H1 H2 ?? p ? Hp. eapply agree_trans; [apply H1|apply H2]; try done; set_solver.
Qed.

Lemma same_except_mono ps qs m m' : same_except ps m m' -> ps ⊆ qs -> same_except qs m m'.
Proof. intros H1 ? p ??. apply H1; set_solver. Qed.

Lemma same_except_fill p c m : p mod PGSIZE = 0 -> same_except [p] m (fill m p c PGSIZE).
Proof.
  intros Hp q Hq Hne. apply agree_sym, agree_fill; [done|].
  apply pages_apart; [done..|]. set_solver.
Qed.

Lemma same_except_store p i v m :
  p mod PGSIZE = 0 -> 0 <= i -> i + 8 <= PGSIZE -> same_except [p] m (store64 m (p + i) v).
Proof.
  intros Hp ?? q Hq Hne. apply agree_sym, agree_st.
  destruct (pages_apart p q) as [?|?]; try done; [set_solver|lia|lia].
Qed.

Lemma same_except_store0 p v m : p mod PGSIZE = 0 -> same_except [p] m (store64 m p v).
Proof. intros. rewrite <- (Z.add_0_r p) at 2. by apply same_except_store. Qed.

Lemma same_except_load ps m m' p i :
  same_except ps m m' -> p mod PGSIZE = 0 -> p ∉ ps -> 0 <= i -> i + 8 <= PGSIZE ->
  load64 m' (p + i) = load64 m (p + i).
Proof.
  intros H1 ?? ??. apply ld_ext, agree_sym. eapply agree_sub; [by apply H1|lia|lia].
Qed.

Lemma free_list_frame ps m m' h l :
  same_except ps m m' -> Forall page_ok l -> (forall p, p ∈ l -> p ∉ ps) ->
  free_list m h l -> free_list m' h l.
Proof.
  intros Hs. revert h. induction l as [|p l IH]; intros h Hok Hd; [done|].
  intros [-> Hl]. split; [done|]. apply Forall_cons in Hok as [Hp Hok].
  assert (load64 m' p = load64 m p) as ->.
  { pose proof (same_except_load ps m m' p 0) as E. rewrite Z.add_0_r in E.
    apply E; try (done || lia); [apply Hp|apply Hd; set_solver]. }
  apply IH; [done|set_solver|done].
Qed.

Lemma kmem_inv_frame s l ps m' :
  kmem_inv s l -> same_except ps (pm_mem s) m' -> (forall p, p ∈ l -> p ∉ ps) ->
  kmem_inv (mkPmem m' (freelist s)) l.
Proof. intros [? ? ?] Hs Hd. split; [|done..]. by eapply free_list_frame. Qed.

(** ** Behaviour of the operations *)
Lemma kalloc_empty s : kmem_inv s [] -> kalloc s = Ret 0 s.
Proof. intros [Hl _ _]. simpl in Hl. unfold kalloc. run. by rewrite Hl. Qed.

Lemma kalloc_run s p l :
  kmem_inv s (p :: l) ->
  exists m', kalloc s = Ret p (mkPmem m' (load64 (pm_mem s) p)) /\
    m' = fill (pm_mem s) p 5 PGSIZE /\ kmem_inv (mkPmem m' (load64 (pm_mem s) p)) l.
Proof.
  intros [[Hh Hl] Hnd Hok]. apply Forall_cons in Hok as [Hp Hok].
  apply NoDup_cons in Hnd as [Hnp Hnd]. pose proof (page_ok_range p Hp) as (?&?&?).
  eexists; split; [|split; [done|]].
  - unfold kalloc. run. rewrite Hh. destruct (Z.eqb_spec p 0); [lia|]. done.
  - constructor; [|done..]. simpl.
    eapply free_list_frame; [by apply (same_except_fill p 5)|done| |done].
    intros q Hq ->%list_elem_of_singleton. done.
Qed.

Lemma kfree_run s pa l :
  kmem_inv s l -> page_ok pa -> pa ∉ l ->
  exists s', kfree pa s = Ret tt s' /\ kmem_inv s' (pa :: l) /\
    same_except [pa] (pm_mem s) (pm_mem s') /\ freelist s' = pa.
Proof.
  intros [Hl Hnd Hok] Hp Hn. pose proof (page_ok_range pa Hp) as (?&?&?).
  assert (Hse : same_except [pa] (pm_mem s)
    (store64 (fill (pm_mem s) pa 1 PGSIZE) pa (freelist s))).
  { eapply same_except_trans; [by apply (same_except_fill pa 1)| |done|done].
    by apply same_except_store0. }
  exists (mkPmem (store64 (fill (pm_mem s) pa 1 PGSIZE) pa (freelist s)) pa).
  split; [|split; [|split; [exact Hse|done]]].
  - unfold kfree. destruct Hp as [-> ?].
    destruct (Z.ltb_spec pa kend), (Z.leb_spec PHYSTOP pa); simpl; try lia. done.
  - constructor; simpl; [split; [done|]|by constructor|by constructor].
    rewrite load64_store64.
    + eapply free_list_frame; [exact Hse|done| |done].
      intros q Hq ->%list_elem_of_singleton. done.
    + destruct l as [|q l]; simpl in Hl; [lia|]. destruct Hl as [-> _].
      apply Forall_cons in Hok as [Hq _]. pose proof (page_ok_range q Hq). lia.
Qed.

Lemma kfree_panics pa s : ~ page_ok pa -> kfree pa s = Panic "kfree".
Proof.
  intros Hn. unfold kfree, page_ok in *.
  destruct (Z.eqb_spec (pa mod PGSIZE) 0), (Z.ltb_spec pa kend), (Z.leb_spec PHYSTOP pa);
    simpl; try done. exfalso. apply Hn. lia.
Qed.

Lemma freerange_loop_run fuel s p pa_end n l :
  kmem_inv s l -> (n < fuel)%nat -> p mod PGSIZE = 0 -> kend <= p -> pa_end <= PHYSTOP ->
  p + PGSIZE * Z.of_nat n <= pa_end < p + PGSIZE * (Z.of_nat n + 1) ->
  (forall q, q ∈ l -> q < p) ->
  exists s', freerange_loop fuel p pa_end s = Ret tt s' /\
    kmem_inv s' (rev (zseq p n PGSIZE) ++ l).
Proof.
  revert s p n l. induction fuel as [|fuel IH]; intros s p n l Hi Hf Hp Hk He Hn Hl; [lia|].
  cbn [freerange_loop]. unfold PGSIZE in Hn. destruct n as [|n].
  - destruct (Z.leb_spec (p + PGSIZE) pa_end); [unfold PGSIZE in *; lia|]. by eexists.
  - destruct (Z.leb_spec (p + PGSIZE) pa_end) as [Hle|]; [|unfold PGSIZE in *; lia].
    assert (page_ok p) by (unfold page_ok, PGSIZE in *; lia).
    destruct (kfree_run s p l) as (s1 & R1 & I1 & _ & _); [done|done| |].
    { intros ?%Hl. lia. }
    destruct (IH s1 (p + PGSIZE) n (p :: l)) as (s2 & R2 & I2); try done; try lia.
    + rewrite Zplus_mod, Hp. done.
    + unfold PGSIZE in *. lia.
    + unfold PGSIZE. lia.
    + intros q [->|Hq%Hl]%elem_of_cons; unfold PGSIZE; lia.
    + exists s2. rewrite (bind_Ret _ _ _ _ _ R1). split; [done|].
      rewrite zseq_S. simpl. by rewrite <- app_assoc.
Qed.

(** The pages [kinit] puts on the free list, in the order it leaves them. *)
Definition boot_pages : list Z :=
  rev (zseq (PGROUNDUP kend) (Z.to_nat ((PHYSTOP - PGROUNDUP kend) / PGSIZE)) PGSIZE).

Lemma boot_pages_ok p : p ∈ boot_pages <-> page_ok p.
Proof.
  pose proof kend_range. pose proof (PGROUNDUP_bounds kend) as Hb.
  pose proof (PGROUNDUP_mod kend) as Hm. unfold boot_pages, page_ok.
  rewrite list_elem_of_In, <- in_rev, <- list_elem_of_In, elem_of_zseq.
  unfold PHYSTOP, KERNBASE, PGSIZE in *. specialize (Hb ltac:(lia)). split.
  - intros (k & Hk & ->). Z.to_euclidean_division_equations. lia.
  - intros [Hp ?]. exists ((p - PGROUNDUP kend) / 4096).
    Z.to_euclidean_division_equations. lia.
Qed.

Lemma kinit_run s :
  freelist s = 0 ->
  exists s', kinit s = Ret tt s' /\ kmem_inv s' boot_pages /\
    (forall p, p ∈ boot_pages <-> page_ok p).
Proof.
  intros Hs. pose proof kend_range. pose proof (PGROUNDUP_bounds kend) as Hb.
  pose proof (PGROUNDUP_mod kend) as Hm.
  assert (HP : PHYSTOP = 2281701376) by done. unfold KERNBASE in *.
  specialize (Hb ltac:(unfold PGSIZE; lia)).
  destruct (freerange_loop_run (S (Z.to_nat ((PHYSTOP - kend) / PGSIZE))) s (PGROUNDUP kend)
    PHYSTOP (Z.to_nat ((PHYSTOP - PGROUNDUP kend) / PGSIZE)) []) as (s' & R & I);
    try done; try (unfold PGSIZE in *; Z.to_euclidean_division_equations; lia).
  - by constructor; [simpl|constructor|constructor].
  - set_solver.
  - exists s'. rewrite app_nil_r in I. split; [done|]. split; [done|]. apply boot_pages_ok.
Qed.

(** from an empty list [kinit] terminates without panic and leaves
    on the free list, once each, exactly the aligned pages of
    [[end, PHYSTOP)]. *)
Theorem kinit_correct s :
  freelist s = 0 ->
  exists s', kinit s = Ret tt s' /\ kmem_inv s' boot_pages /\
    (forall p, p ∈ boot_pages <-> page_ok p).
Proof. apply kinit_run. Qed.

(** [kalloc] returns the head of the free list, removes it and
    fills it with junk, touching no other page; with no free page it returns 0
    and changes nothing. *)
Theorem kalloc_correct s l :
  kmem_inv s l ->
  match l with
  | [] => kalloc s = Ret 0 s
  | p :: l' => exists s', kalloc s = Ret p s' /\ kmem_inv s' l' /\ page_ok p /\
      same_except [p] (pm_mem s) (pm_mem s') /\
      (forall x, p <= x < p + PGSIZE -> rd8 (pm_mem s') x = 5)
  end.
Proof.
  intros Hi. destruct l as [|p l']; [by apply kalloc_empty|].
  destruct (kalloc_run s p l' Hi) as (m' & R & -> & I). pose proof (ki_pages _ _ Hi) as Hp.
  apply Forall_cons in Hp as [Hp _]. eexists; split; [exact R|].
  split_and!; try done; [apply same_except_fill, Hp|].
  intros x Hx. simpl. unfold rd8, fill. by rewrite inr_true by lia.
Qed.

(** freeing a page of RAM that is not free puts it at the head of the
    list, so that the next [kalloc] returns it; freeing anything that is not a
    page of [[end, PHYSTOP)] panics. *)
Theorem kfree_kalloc s pa l :
  kmem_inv s l -> pa ∉ l ->
  if decide (page_ok pa)
  then exists s1 s2, kfree pa s = Ret tt s1 /\ kmem_inv s1 (pa :: l) /\
         kalloc s1 = Ret pa s2 /\ kmem_inv s2 l /\ same_except [pa] (pm_mem s) (pm_mem s2)
  else kfree pa s = Panic "kfree".
Proof.
  intros Hi Hn. case_decide as Hp; [|by apply kfree_panics].
  destruct (kfree_run s pa l Hi Hp Hn) as (s1 & R1 & I1 & E1 & _).
  destruct (kalloc_run s1 pa l I1) as (m2 & R2 & -> & I2).
  do 2 eexists. split_and!; [exact R1|exact I1|exact R2|exact I2|].
  eapply same_except_trans; [exact E1|apply same_except_fill, Hp|done|done].
Qed.

(** ** Abstract specification: a stack of free pages and a set of live ones *)
Inductive op : Type := OpAlloc | OpFree (pa : Z).

Record apool : Type := mkPool { a_free : list Z; a_live : list Z }.

Definition a_exec (o : op) (a : apool) : option (Z * apool) :=
  match o with
  | OpAlloc => match a_free a with
               | [] => Some (0, a)
               | p :: l => Some (p, mkPool l (p :: a_live a))
               end
  | OpFree pa => if decide (pa ∈ a_live a)
                 then Some (0, mkPool (pa :: a_free a) (filter (.≠ pa) (a_live a)))
                 else None
  end.

Fixpoint a_run (os : list op) (a : apool) : option (list Z * apool) :=
  match os with
  | [] => Some ([], a)
  | o :: os => '(r, a1) ← a_exec o a; '(rs, a2) ← a_run os a1; Some (r :: rs, a2)
  end.

Definition c_exec (o : op) : M pmem Z :=
  match o with
  | OpAlloc => kalloc
  | OpFree pa => _ ← kfree pa; mret 0
  end.

Fixpoint c_run (os : list op) : M pmem (list Z) :=
  match os with
  | [] => mret []
  | o :: os => r ← c_exec o; rs ← c_run os; mret (r :: rs)
  end.

Record pool_rel (a : apool) (s : pmem) : Prop := {
  pr_inv : kmem_inv s (a_free a);
  pr_live : Forall page_ok (a_live a);
  pr_nodup : NoDup (a_free a ++ a_live a)
}.

Lemma exec_sim o a s r a' :
  pool_rel a s -> a_exec o a = Some (r, a') ->
  exists s', c_exec o s = Ret r s' /\ pool_rel a' s'.
Proof.
  intros [Hi Hl Hn] E. destruct o as [|pa]; simpl in *.
  - destruct a as [[|p l] live]; simpl in *; simplify_eq; [exists s; by rewrite kalloc_empty|].
    destruct (kalloc_run s _ l Hi) as (m' & R & _ & I). eexists; split; [exact R|].
    assert (page_ok r) by (eapply Forall_inv, ki_pages, Hi).
    constructor; simpl; [done|by constructor|].
    apply NoDup_cons in Hn as [Hp1 Hn]. apply NoDup_app in Hn as (?&?&?).
    apply NoDup_app. split_and!; [done| |by apply NoDup_cons; set_solver].
    intros x ? [->|]%elem_of_cons; set_solver.
  - case_decide as Hin; simplify_eq. apply NoDup_app in Hn as (Hn1 & Hn2 & Hn3).
    assert (page_ok pa) by (by eapply list.Forall_forall in Hl).
    destruct (kfree_run s pa (a_free a)) as (s' & R & I & _ & _); [done|done|set_solver|].
    exists s'. split; [by rewrite (bind_Ret _ _ _ _ _ R)|].
    constructor; simpl; [done| |].
    + apply list.Forall_forall. intros x [? Hx]%list_elem_of_filter. by eapply list.Forall_forall in Hl.
    + apply (NoDup_app (pa :: a_free a)). split_and!; [apply NoDup_cons; set_solver| |by apply NoDup_filter].
      intros x ? [??]%list_elem_of_filter. set_solver.
Qed.

(** C38: every sequence of allocations and of frees of live pages
    that the abstract pool accepts runs on [kalloc]/[kfree] with the same
    results, and the pages handed out are never free or handed out again while
    they are live. *)
Theorem kalloc_refines_pool os a s rs a' :
  pool_rel a s -> a_run os a = Some (rs, a') ->
  exists s', c_run os s = Ret rs s' /\ pool_rel a' s'.
Proof.
  revert a s rs. induction os as [|o os IH]; intros a s rs Hr E; simpl in *.
  - simplify_eq. by exists s.
  - destruct (a_exec o a) as [[r a1]|] eqn:E1; simplify_eq/=.
    destruct (a_run os a1) as [[rs' a2]|] eqn:E2; simplify_eq/=.
    destruct (exec_sim o a s r a1 Hr E1) as (s1 & R1 & Hr1).
    destruct (IH a1 s1 rs' Hr1 E2) as (s2 & R2 & Hr2).
    exists s2. split; [|done]. rewrite (bind_Ret _ _ _ _ _ R1).
    by rewrite (bind_Ret _ _ _ _ _ R2).
Qed.
End kalloc.
