(* ===== verification/PageTable.v ===== *)
(** Sv39 page tables, kernel/vm.c: [walk], [mappages], [uvmunmap] and the
    user address-space operations built on them.

    A page table is a tree of pages in physical memory; every function reads
    and writes the 64-bit entries in place, and takes and returns pages through
    [kalloc] and [kfree].  [int] results are [Z] with -1 for failure, pointers
    are addresses with 0 for null. *)
From S2P Require Import Prelude Riscv PhysMem Kalloc.

Definition mem_load (a : Z) : M pmem Z := gets (fun s => load64 (pm_mem s) a).
Definition mem_store (a v : Z) : M pmem unit :=
  modS (fun s => mkPmem (store64 (pm_mem s) a v) (freelist s)).
Definition mem_fill (a c n : Z) : M pmem unit :=
  modS (fun s => mkPmem (fill (pm_mem s) a c n) (freelist s)).
Definition mem_move (dst src n : Z) : M pmem unit :=
  modS (fun s => mkPmem (copy (pm_mem s) dst src n) (freelist s)).

Lemma bind_load {A} a (k : Z -> M pmem A) s : (mem_load a ≫= k) s = k (load64 (pm_mem s) a) s.
Proof. done. Qed.

Lemma bind_store {A} a v (k : unit -> M pmem A) s :
  (mem_store a v ≫= k) s = k tt (mkPmem (store64 (pm_mem s) a v) (freelist s)).
Proof. done. Qed.

Lemma bind_fill {A} a c n (k : unit -> M pmem A) s :
  (mem_fill a c n ≫= k) s = k tt (mkPmem (fill (pm_mem s) a c n) (freelist s)).
Proof. done. Qed.

Lemma bind_move {A} dst src n (k : unit -> M pmem A) s :
  (mem_move dst src n ≫= k) s = k tt (mkPmem (copy (pm_mem s) dst src n) (freelist s)).
Proof. done. Qed.

Section vm.
Context `{HL : Layout}.

(** The loop of [walk] from level [level] down to the leaf table. *)
Fixpoint walk_levels (level : nat) (pagetable va : Z) (alloc : bool) : M pmem Z :=
  match level with
  | O => mret (pagetable + 8 * PX 0 va)
  | S l =>
      let pte := pagetable + 8 * PX (Z.of_nat level) va in
      v ← mem_load pte;
      if has v PTE_V then walk_levels l (PTE2PA v) va alloc
      else if negb alloc then mret 0
      else p ← kalloc;
           if p =? 0 then mret 0
           else _ ← mem_fill p 0 PGSIZE;
                _ ← mem_store pte (Z.lor (PA2PTE p) PTE_V);
                walk_levels l p va alloc
  end.

Definition walk (pagetable va : Z) (alloc : bool) : M pmem Z :=
  if MAXVA <=? va then panic "walk" else walk_levels 2 pagetable va alloc.

Definition walkaddr (pagetable va : Z) : M pmem Z :=
  if MAXVA <=? va then mret 0
  else pte ← walk pagetable va false;
       if pte =? 0 then mret 0
       else v ← mem_load pte;
            if negb (has v PTE_V) then mret 0
            else if negb (has v PTE_U) then mret 0
            else mret (PTE2PA v).

Definition ismapped (pagetable va : Z) : M pmem Z :=
  pte ← walk pagetable va false;
  if pte =? 0 then mret 0
  else v ← mem_load pte; if has v PTE_V then mret 1 else mret 0.

Fixpoint mappages_loop (fuel : nat) (pagetable a last pa perm : Z) : M pmem Z :=
  match fuel with
  | O => diverge
  | S fuel =>
      pte ← walk pagetable a true;
      if pte =? 0 then mret (-1)
      else v ← mem_load pte;
           if has v PTE_V then panic "mappages: remap"
           else _ ← mem_store pte (Z.lor (Z.lor (PA2PTE pa) perm) PTE_V);
                if a =? last then mret 0
                else mappages_loop fuel pagetable (u64 (a + PGSIZE)) last (u64 (pa + PGSIZE)) perm
  end.

Definition mappages (pagetable va size pa perm : Z) : M pmem Z :=
  if negb (va mod PGSIZE =? 0) then panic "mappages: va not aligned"
  else if negb (size mod PGSIZE =? 0) then panic "mappages: size not aligned"
  else if size =? 0 then panic "mappages: size"
  else mappages_loop (Z.to_nat (size / PGSIZE)) pagetable va (u64 (va + size - PGSIZE)) pa perm.

Definition kvmmap (kpgtbl va pa sz perm : Z) : M pmem unit :=
  r ← mappages kpgtbl va sz pa perm;
  if negb (r =? 0) then panic "kvmmap" else mret tt.

(** proc.c: a kernel stack page for each process, above its guard page. *)
Fixpoint proc_mapstacks_loop (n : nat) (kpgtbl p : Z) : M pmem unit :=
  match n with
  | O => mret tt
  | S n => pa ← kalloc;
           if pa =? 0 then panic "kalloc"
           else _ ← kvmmap kpgtbl (KSTACK p) pa PGSIZE (Z.lor PTE_R PTE_W);
                proc_mapstacks_loop n kpgtbl (p + 1)
  end.

Definition proc_mapstacks (kpgtbl : Z) : M pmem unit :=
  proc_mapstacks_loop (Z.to_nat NPROC) kpgtbl 0.

Definition kvmmake : M pmem Z :=
  kpgtbl ← kalloc;
  _ ← mem_fill kpgtbl 0 PGSIZE;
  _ ← kvmmap kpgtbl UART0 UART0 PGSIZE (Z.lor PTE_R PTE_W);
  _ ← kvmmap kpgtbl VIRTIO0 VIRTIO0 PGSIZE (Z.lor PTE_R PTE_W);
  _ ← kvmmap kpgtbl PLIC PLIC 0x4000000 (Z.lor PTE_R PTE_W);
  _ ← kvmmap kpgtbl KERNBASE KERNBASE (u64 (etext - KERNBASE)) (Z.lor PTE_R PTE_X);
  _ ← kvmmap kpgtbl etext etext (u64 (PHYSTOP - etext)) (Z.lor PTE_R PTE_W);
  _ ← kvmmap kpgtbl TRAMPOLINE trampoline PGSIZE (Z.lor PTE_R PTE_X);
  _ ← proc_mapstacks kpgtbl;
  mret kpgtbl.

Definition uvmcreate : M pmem Z :=
  pagetable ← kalloc;
  if pagetable =? 0 then mret 0
  else _ ← mem_fill pagetable 0 PGSIZE; mret pagetable.

Fixpoint uvmunmap_loop (fuel : nat) (pagetable a bound : Z) (do_free : bool) : M pmem unit :=
  match fuel with
  | O => diverge
  | S fuel =>
      if a <? bound then
        pte ← walk pagetable a false;
        _ ← (if pte =? 0 then mret tt
             else v ← mem_load pte;
                  if negb (has v PTE_V) then mret tt
                  else _ ← (if do_free then kfree (PTE2PA v) else mret tt);
                       mem_store pte 0);
        uvmunmap_loop fuel pagetable (u64 (a + PGSIZE)) bound do_free
      else mret tt
  end.

Definition uvmunmap (pagetable va npages : Z) (do_free : bool) : M pmem unit :=
  if negb (va mod PGSIZE =? 0) then panic "uvmunmap: not aligned"
  else uvmunmap_loop (S (Z.to_nat npages)) pagetable va (u64 (va + npages * PGSIZE)) do_free.

Definition uvmdealloc (pagetable oldsz newsz : Z) : M pmem Z :=
  if oldsz <=? newsz then mret oldsz
  else if PGROUNDUP newsz <? PGROUNDUP oldsz then
    let npages := i32 ((PGROUNDUP oldsz - PGROUNDUP newsz) / PGSIZE) in
    _ ← uvmunmap pagetable (PGROUNDUP newsz) (u64 npages) true;
    mret newsz
  else mret newsz.

Fixpoint uvmalloc_loop (fuel : nat) (pagetable a oldsz newsz xperm : Z) : M pmem Z :=
  match fuel with
  | O => diverge
  | S fuel =>
      if a <? newsz then
        mem ← kalloc;
        if mem =? 0 then _ ← uvmdealloc pagetable a oldsz; mret 0
        else _ ← mem_fill mem 0 PGSIZE;
             r ← mappages pagetable a PGSIZE mem (Z.lor (Z.lor PTE_R PTE_U) xperm);
             if negb (r =? 0) then
               _ ← kfree mem; _ ← uvmdealloc pagetable a oldsz; mret 0
             else uvmalloc_loop fuel pagetable (u64 (a + PGSIZE)) oldsz newsz xperm
      else mret newsz
  end.

Definition uvmalloc (pagetable oldsz newsz xperm : Z) : M pmem Z :=
  if newsz <? oldsz then mret oldsz
  else let oldsz' := PGROUNDUP oldsz in
       uvmalloc_loop (S (S (Z.to_nat ((newsz - oldsz) / PGSIZE)))) pagetable oldsz' oldsz' newsz xperm.

(** The loop of [freewalk] over the 512 entries, [rec] being the recursive call. *)
Fixpoint freewalk_entries (rec : Z -> M pmem unit) (n : nat) (pagetable i : Z) : M pmem unit :=
  match n with
  | O => mret tt
  | S n =>
      pte ← mem_load (pagetable + 8 * i);
      _ ← (if has pte PTE_V && (Z.land pte (Z.lor (Z.lor PTE_R PTE_W) PTE_X) =? 0) then
             _ ← rec (PTE2PA pte); mem_store (pagetable + 8 * i) 0
           else if has pte PTE_V then panic "freewalk: leaf" else mret tt);
      freewalk_entries rec n pagetable (i + 1)
  end.

Fixpoint freewalk (depth : nat) (pagetable : Z) : M pmem unit :=
  match depth with
  | O => diverge
  | S d => _ ← freewalk_entries (freewalk d) 512 pagetable 0; kfree pagetable
  end.

Definition uvmfree (pagetable sz : Z) : M pmem unit :=
  _ ← (if 0 <? sz then uvmunmap pagetable 0 (PGROUNDUP sz / PGSIZE) true else mret tt);
  freewalk 3 pagetable.

Fixpoint uvmcopy_loop (fuel : nat) (old new i sz : Z) : M pmem Z :=
  match fuel with
  | O => diverge
  | S fuel =>
      if i <? sz then
        pte ← walk old i false;
        if pte =? 0 then uvmcopy_loop fuel old new (u64 (i + PGSIZE)) sz
        else v ← mem_load pte;
          if negb (has v PTE_V) then uvmcopy_loop fuel old new (u64 (i + PGSIZE)) sz
          else
            mem ← kalloc;
            if mem =? 0 then _ ← uvmunmap new 0 (i / PGSIZE) true; mret (-1)
            else
              _ ← mem_move mem (PTE2PA v) PGSIZE;
              r ← mappages new i PGSIZE mem (PTE_FLAGS v);
              if negb (r =? 0) then
                _ ← kfree mem; _ ← uvmunmap new 0 (i / PGSIZE) true; mret (-1)
              else uvmcopy_loop fuel old new (u64 (i + PGSIZE)) sz
      else mret 0
  end.

Definition uvmcopy (old new sz : Z) : M pmem Z :=
  uvmcopy_loop (S (S (Z.to_nat (sz / PGSIZE)))) old new 0 sz.

Definition uvmclear (pagetable va : Z) : M pmem unit :=
  pte ← walk pagetable va false;
  if pte =? 0 then panic "uvmclear"
  else v ← mem_load pte; mem_store pte (Z.land v (Z.lnot PTE_U)).

(** proc.c: an empty user page table with the trampoline and trapframe pages. *)
Definition proc_pagetable (trapframe : Z) : M pmem Z :=
  pagetable ← uvmcreate;
  if pagetable =? 0 then mret 0
  else
    r ← mappages pagetable TRAMPOLINE PGSIZE trampoline (Z.lor PTE_R PTE_X);
    if r <? 0 then _ ← uvmfree pagetable 0; mret 0
    else
      r ← mappages pagetable TRAPFRAME PGSIZE trapframe (Z.lor PTE_R PTE_W);
      if r <? 0 then
        _ ← uvmunmap pagetable TRAMPOLINE 1 false; _ ← uvmfree pagetable 0; mret 0
      else mret pagetable.

Definition proc_freepagetable (pagetable sz : Z) : M pmem unit :=
  _ ← uvmunmap pagetable TRAMPOLINE 1 false;
  _ ← uvmunmap pagetable TRAPFRAME 1 false;
  uvmfree pagetable sz.
End vm.
