(* ===== verification/PtTree.v ===== *)
(** The tree of pages behind a page table, and what it means for one to be
    well formed.

    A path is the list of indices followed from the root; [node] is the page a
    path leads to.  [pt_wf] says that different paths lead to different pages
    of RAM, and [pte_of] is the table's abstract meaning: the leaf entry of
    each virtual address.  The lemmas say what a store to a leaf entry, the
    linking of a new page and a store outside the tree do to both. *)
From S2P Require Import Prelude Riscv PhysMem Kalloc PageTable.

Definition child (m : mem) (pt i : Z) : option Z :=
  let e := load64 m (pt + 8 * i) in if has e PTE_V then Some (PTE2PA e) else None.

Fixpoint node (m : mem) (pt : Z) (p : list Z) : option Z :=
  match p with
  | [] => Some pt
  | i :: p => c ← child m pt i; node m c p
  end.

Definition okidx (i : Z) : Prop := 0 <= i < 512.
Definition okpath (p : list Z) : Prop := (length p <= 2)%nat /\ Forall okidx p.

Definition leaf_path (va : Z) : list Z := [PX 2 va; PX 1 va].

(** The address of the leaf entry of [va], 0 if its table is missing, and its value. *)
Definition pte_addr (m : mem) (root va : Z) : Z :=
  match node m root (leaf_path va) with Some t => t + 8 * PX 0 va | None => 0 end.

Definition pte_of (m : mem) (root va : Z) : Z :=
  match node m root (leaf_path va) with Some t => load64 m (t + 8 * PX 0 va) | None => 0 end.

(** The permission bits that make an entry a leaf. *)
Definition RWX : Z := Z.lor (Z.lor PTE_R PTE_W) PTE_X.

Definition tree_page (m : mem) (root a : Z) : Prop := exists p, okpath p /\ node m root p = Some a.

Section tree.
Context `{HL : Layout} `{!LayoutOk}.

Record pt_wf (m : mem) (root : Z) : Prop := {
  wf_page : forall p a, okpath p -> node m root p = Some a -> page_ok a;
  wf_inj : forall p q a, okpath p -> okpath q ->
    node m root p = Some a -> node m root q = Some a -> p = q;
  wf_inner : forall p t i, okpath p -> (length p <= 1)%nat -> okidx i ->
    node m root p = Some t -> has (load64 m (t + 8 * i)) PTE_V = true ->
    Z.land (load64 m (t + 8 * i)) RWX = 0 /\ (p = [] -> i < 256)
}.

(** The inner pages of the tree have the same contents. *)
Definition inner_agree (m m' : mem) (root : Z) : Prop :=
  forall p a, okpath p -> (length p <= 1)%nat -> node m root p = Some a -> agree a PGSIZE m m'.

Lemma okpath_nil : okpath [].
Proof. split; [simpl; lia|constructor]. Qed.

Lemma okpath_snoc p i : okpath (p ++ [i]) <-> okpath p /\ (length p <= 1)%nat /\ okidx i.
Proof.
  unfold okpath. rewrite length_app, Forall_app, Forall_singleton. simpl. naive_solver lia.
Qed.

Lemma okpath_leaf va : okpath (leaf_path va).
Proof. split; [simpl; lia|]. repeat constructor; apply PX_range. Qed.

Lemma node_snoc m pt p i : node m pt (p ++ [i]) = t ← node m pt p; child m t i.
Proof.
  revert pt. induction p as [|j p IH]; intros pt; simpl.
  - by destruct (child m pt i).
  - destruct (child m pt j); simpl; [apply IH|done].
Qed.

Lemma entry_ext m m' t i :
  okidx i -> agree t PGSIZE m m' -> load64 m' (t + 8 * i) = load64 m (t + 8 * i).
Proof.
  intros [??] Ha. apply ld_ext, agree_sym. eapply agree_sub; [exact Ha| |]; unfold PGSIZE; lia.
Qed.

Lemma child_ext m m' t i :
  okidx i -> agree t PGSIZE m m' -> child m' t i = child m t i.
Proof.
  intros Hi Ha. unfold child. by rewrite (entry_ext m m' t i Hi Ha).
Qed.

(** Memory that agrees on the inner pages of the tree has the same tree. *)
Lemma node_frame m m' root :
  inner_agree m m' root -> forall p, okpath p -> node m' root p = node m root p.
Proof.
  intros Ha p. induction p as [|i p IH] using rev_ind; intros Hp; [done|].
  apply okpath_snoc in Hp as (Hp & Hl & Hi). rewrite !node_snoc, IH by done.
  destruct (node m root p) as [t|] eqn:E; simpl; [|done].
  apply child_ext; [done|]. by eapply Ha.
Qed.

Lemma tree_frame m m' root :
  (forall a, tree_page m root a -> agree a PGSIZE m m') ->
  (forall p, okpath p -> node m' root p = node m root p) /\
  (forall va, pte_of m' root va = pte_of m root va).
Proof.
  intros Ha. assert (Hn : forall p, okpath p -> node m' root p = node m root p).
  { apply node_frame. intros p a ???. apply Ha. by exists p. }
  split; [done|]. intros va. unfold pte_of. rewrite Hn by apply okpath_leaf.
  destruct (node m root (leaf_path va)) as [t|] eqn:E; [|done].
  apply ld_ext, agree_sym. eapply agree_sub; [apply Ha; by exists (leaf_path va); split; [apply okpath_leaf|]| |];
    pose proof (PX_range 0 va); unfold PGSIZE; lia.
Qed.

Lemma pt_wf_ext m m' root : inner_agree m m' root -> pt_wf m root -> pt_wf m' root.
Proof.
  intros Ha [H1 H2 H3]. pose proof (node_frame m m' root Ha) as Hn. split.
  - intros p a Hp. rewrite Hn by done. by apply H1.
  - intros p q a Hp Hq. rewrite !Hn by done. by apply H2.
  - intros p t i Hp Hl Hi. rewrite Hn by done. intros Ht.
    rewrite (entry_ext m m' t i Hi (Ha p t Hp Hl Ht)). by apply H3.
Qed.

Lemma tree_page_ext m m' root a :
  (forall p, okpath p -> node m' root p = node m root p) ->
  tree_page m' root a <-> tree_page m root a.
Proof. intros Hn. unfold tree_page. split; intros (p & Hp & E); exists p; by rewrite Hn in * by done. Qed.

(** ** A store to a leaf entry *)
Lemma store_leaf m root va v t :
  pt_wf m root -> node m root (leaf_path va) = Some t -> 0 <= v < 2 ^ 64 ->
  let m' := store64 m (t + 8 * PX 0 va) v in
  inner_agree m m' root /\
  pte_of m' root va = v /\
  (forall vb, 0 <= va < MAXVA -> 0 <= vb < MAXVA -> PGROUNDDOWN vb <> PGROUNDDOWN va ->
     pte_of m' root vb = pte_of m root vb) /\
  same_except [t] m m'.
Proof.
  intros Hwf Ht Hv m'. pose proof (PX_range 0 va) as HX.
  assert (Hok : page_ok t) by (eapply wf_page; eauto; apply okpath_leaf).
  pose proof (page_ok_range t Hok) as (Hr & Hal & _).
  assert (Hse : same_except [t] m m').
  { apply same_except_store; [done|lia|unfold PGSIZE; lia]. }
  assert (Hia : inner_agree m m' root).
  { intros p a Hp Hl Hpa. apply Hse; [by apply (wf_page m root Hwf p)|].
    intros ->%list_elem_of_singleton.
    assert (p = leaf_path va) as -> by (eapply wf_inj; eauto; apply okpath_leaf).
    simpl in Hl. lia. }
  pose proof (node_frame m m' root Hia) as Hn.
  split_and!; [done| | |done].
  - unfold pte_of. rewrite Hn by apply okpath_leaf. rewrite Ht. by apply load64_store64.
  - intros vb Ha Hb Hne. unfold pte_of. rewrite Hn by apply okpath_leaf.
    destruct (node m root (leaf_path vb)) as [t'|] eqn:E; [|done].
    pose proof (PX_range 0 vb) as HX'. apply ld_ext, agree_st.
    destruct (decide (t' = t)) as [->|Hneq].
    + assert (leaf_path vb = leaf_path va) as [=] by (eapply wf_inj; eauto; apply okpath_leaf).
      assert (PX 0 vb <> PX 0 va). { intros ?. apply Hne. by apply PX_inj. }
      lia.
    + assert (Hok' : page_ok t') by (eapply wf_page; eauto; apply okpath_leaf).
      destruct (pages_apart t' t); [apply Hok'|done|done| |]; unfold PGSIZE in *; lia.
Qed.

(** ** Linking a zeroed page into an empty inner entry *)
Section link.
  Context (m m' : mem) (root t c i : Z) (p : list Z).
  Hypothesis Hwf : pt_wf m root.
  Hypothesis Hp : okpath p.
  Hypothesis Hlen : (length p <= 1)%nat.
  Hypothesis Hi : okidx i.
  Hypothesis Hlow : p = [] -> i < 256.
  Hypothesis Ht : node m root p = Some t.
  Hypothesis Hempty : child m t i = None.
  Hypothesis Hc : page_ok c.
  Hypothesis Hfresh : ~ tree_page m root c.
  Hypothesis Hm' : exists m1, same_except [c] m m1 /\
    m' = store64 (fill m1 c 0 PGSIZE) (t + 8 * i) (Z.lor (PA2PTE c) PTE_V).

Lemma link_t_ok : page_ok t.
  Proof using All. by eapply wf_page. Qed.

Lemma link_ne : c <> t.
  Proof using All. intros ->. apply Hfresh. by exists p. Qed.

Lemma link_same : same_except [c; t] m m'.
  Proof using All.
    pose proof link_t_ok as [? _]. destruct Hc as [Hca _]. destruct Hi.
    destruct Hm' as (m1 & Hs & ->).
    eapply same_except_trans; [exact Hs| |set_solver|].
    - eapply same_except_trans; [by apply (same_except_fill c 0)| | |].
      + apply (same_except_store t (8 * i)); [done|lia|unfold PGSIZE; lia].
      + instantiate (1 := [c; t]). set_solver.
      + set_solver.
    - set_solver.
  Qed.

Lemma link_zero j : okidx j -> load64 m' (c + 8 * j) = 0.
  Proof using All.
    intros [??]. pose proof link_ne. pose proof link_t_ok as [? _].
    destruct Hm' as (m1 & _ & ->). destruct Hc as [? _]. destruct Hi.
    rewrite (ld_ext 8 _ (fill m1 c 0 PGSIZE)).
    - apply load64_fill0; unfold PGSIZE; lia.
    - apply agree_st. destruct (pages_apart c t); [done..| |]; unfold PGSIZE in *; lia.
  Qed.

Lemma link_entry : load64 m' (t + 8 * i) = Z.lor (PA2PTE c) PTE_V.
  Proof using All.
    pose proof (page_ok_range c Hc) as (?&?&?). destruct Hm' as (m1 & _ & ->).
    apply load64_store64, mk_pte_range; [lia|done].
  Qed.

Lemma link_child : child m' t i = Some c.
  Proof using All.
    pose proof (page_ok_range c Hc) as (?&?&?). unfold child. rewrite link_entry.
    assert (0 <= PTE_V < 2 ^ 10) by done. rewrite has_mk, PTE2PA_mk by (done || lia). done.
  Qed.

Lemma link_other_entry j :
    okidx j -> j <> i -> load64 m' (t + 8 * j) = load64 m (t + 8 * j).
  Proof using All.
    intros [??] ?. pose proof link_ne. pose proof link_t_ok as [Hta _].
    destruct Hc as [Hca _]. destruct Hi.
    destruct Hm' as (m1 & Hs & ->). apply ld_ext. eapply agree_trans; [apply agree_st; lia|].
    eapply agree_trans; [apply agree_fill; [done|]|].
    - destruct (pages_apart c t); [done..| |]; unfold PGSIZE in *; lia.
    - apply agree_sym. eapply agree_sub; [apply (Hs t)|lia|unfold PGSIZE; lia]; [done|].
      intros ->%list_elem_of_singleton. done.
  Qed.

Lemma link_node q :
    okpath q -> node m' root q = if decide (q = p ++ [i]) then Some c else node m root q.
  Proof using All.
    induction q as [|j q IH] using rev_ind; intros Hq.
    { rewrite decide_False; [done|]. intros E. by destruct p. }
    apply okpath_snoc in Hq as (Hq & Hql & Hj). rewrite !node_snoc, IH by done.
    case_decide as Eq; simpl.
    - subst q. unfold child. rewrite link_zero by done. simpl.
      rewrite decide_False.
      + by rewrite node_snoc, Ht; simpl; rewrite Hempty.
      + intros [E _]%app_inj_tail. apply (f_equal length) in E. rewrite length_app in E. simpl in E. lia.
    - destruct (node m root q) as [t'|] eqn:Et; simpl.
      + destruct (decide (t' = t)) as [->|Hne].
        * assert (q = p) as -> by (eapply wf_inj; eauto).
          destruct (decide (j = i)) as [->|].
          -- rewrite decide_True by done. apply link_child.
          -- rewrite decide_False by (intros [_ ?]%app_inj_tail; done).
             unfold child. by rewrite link_other_entry.
        * rewrite decide_False by (intros [-> _]%app_inj_tail; congruence).
          apply child_ext; [done|]. apply link_same; [by apply (wf_page m root Hwf q)|].
          intros [->| ->%list_elem_of_singleton]%elem_of_cons; [|done].
          apply Hfresh. by exists q.
      + rewrite decide_False; [done|]. intros [-> _]%app_inj_tail. congruence.
  Qed.

Lemma link_wf : pt_wf m' root.
  Proof using All.
    split.
    - intros q a Hq. rewrite link_node by done. case_decide; [by intros [= <-]|].
      by apply wf_page.
    - intros q1 q2 a Hq1 Hq2. rewrite !link_node by done.
      do 2 case_decide; intros E1 E2; simplify_eq; try done.
      + exfalso. apply Hfresh. by exists q2.
      + exfalso. apply Hfresh. by exists q1.
      + by eapply wf_inj.
    - intros q t' j Hq Hql Hj. rewrite link_node by done. case_decide as Eq.
      { intros [= <-]. by rewrite link_zero. }
      intros Et. destruct (decide (t' = t)) as [->|Hne]; [destruct (decide (j = i)) as [->|]|].
      + intros _. assert (q = p) as -> by (eapply wf_inj; eauto). split; [|done].
        rewrite link_entry, Z.land_lor_distr_l.
        pose proof (page_ok_range c Hc) as (?&?&?). rewrite PA2PTE_shiftl by lia.
        by rewrite land_shiftl_flags.
      + rewrite link_other_entry by done. by apply (wf_inner m root Hwf q).
      + assert (agree t' PGSIZE m m') as Ha.
        { apply link_same; [by apply (wf_page m root Hwf q)|].
          intros [->| ->%list_elem_of_singleton]%elem_of_cons; [|done]. apply Hfresh. by exists q. }
        rewrite (entry_ext m m' t' j Hj Ha). by apply (wf_inner m root Hwf q).
  Qed.

Lemma link_tree a : tree_page m' root a <-> tree_page m root a \/ a = c.
  Proof using All.
    assert (Hpi : okpath (p ++ [i])) by (by apply okpath_snoc). unfold tree_page. split.
    - intros (q & Hq & E). rewrite link_node in E by done. case_decide; [right; congruence|left; eauto].
    - intros [(q & Hq & E)| ->].
      + exists q. split; [done|]. rewrite link_node by done. rewrite decide_False; [done|].
        intros ->. rewrite node_snoc, Ht in E. simpl in E. congruence.
      + exists (p ++ [i]). split; [done|]. rewrite link_node by done. by rewrite decide_True.
  Qed.

Lemma link_pte va : pte_of m' root va = pte_of m root va.
  Proof using All.
    unfold pte_of. rewrite link_node by apply okpath_leaf. case_decide as E.
    - rewrite E, node_snoc, Ht. simpl. rewrite Hempty. apply link_zero, PX_range.
    - destruct (node m root (leaf_path va)) as [t'|] eqn:Et; [|done].
      assert (page_ok t') as [Hal _] by (apply (wf_page m root Hwf (leaf_path va)); [apply okpath_leaf|done]).
      pose proof (PX_range 0 va).
      apply (same_except_load [c; t]); [apply link_same|done| |lia|unfold PGSIZE; lia].
      intros [->| ->%list_elem_of_singleton]%elem_of_cons.
      + apply Hfresh. exists (leaf_path va). split; [apply okpath_leaf|done].
      + assert (leaf_path va = p) as <- by (eapply wf_inj; eauto; apply okpath_leaf).
        simpl in Hlen. lia.
  Qed.
End link.
End tree.
