(* ===== verification/PtMap.v ===== *)
(** Correctness of [walk], [mappages], [uvmunmap] and the translations built
    on them: a well-formed page table is a finite map from pages to leaf
    entries, and these functions look it up, extend it and cut it, taking
    page-table pages from the free list and nothing else. *)
From S2P Require Import Prelude Riscv PhysMem Kalloc PageTable PtTree.

Section map.
Context `{HL : Layout} `{!LayoutOk}.

Record pt_inv (s : pmem) (root : Z) (F : list Z) : Prop := {
  pi_free : kmem_inv s F;
  pi_wf : pt_wf (pm_mem s) root;
  pi_disj : forall a, tree_page (pm_mem s) root a -> a ∉ F
}.

(** The page table at [root] grew: the pages that left the free list are the
    pages that joined the tree, and nothing else changed outside the tree. *)
Record evolves (root : Z) (s : pmem) (F : list Z) (s' : pmem) (F' : list Z) : Prop := {
  ev_inv : pt_inv s' root F';
  ev_suffix : F' `suffix_of` F;
  ev_frame : forall p, p mod PGSIZE = 0 -> p ∉ F -> ~ tree_page (pm_mem s) root p ->
    agree p PGSIZE (pm_mem s) (pm_mem s');
  ev_tree : forall p, tree_page (pm_mem s') root p <->
    tree_page (pm_mem s) root p \/ (p ∈ F /\ p ∉ F')
}.

Definition same_ptes (root : Z) (s s' : pmem) : Prop :=
  forall va, pte_of (pm_mem s') root va = pte_of (pm_mem s) root va.

Lemma suffix_elem {A} (l k : list A) x : l `suffix_of` k -> x ∈ l -> x ∈ k.
Proof. intros [j ->] ?. apply elem_of_app. by right. Qed.

Lemma evolves_refl root s F : pt_inv s root F -> evolves root s F s F.
Proof.
  intros Hi. split; [done|done| |].
  - intros. apply agree_refl.
  - intros p. split; [by left|]. intros [?|[??]]; done.
Qed.

Lemma evolves_trans root s1 F1 s2 F2 s3 F3 :
  evolves root s1 F1 s2 F2 -> evolves root s2 F2 s3 F3 -> evolves root s1 F1 s3 F3.
Proof.
  intros [I1 S1 A1 T1] [I2 S2 A2 T2]. split; [done|by etrans| |].
  - intros p Hp HF HT. eapply agree_trans; [by apply A1|]. apply A2; [done| |].
    + intros ?. by apply HF, (suffix_elem F2).
    + rewrite T1. naive_solver.
  - intros p. rewrite T2, T1. split.
    + intros [[?|[??]]|[??]]; [by left|right|right]; split; try done.
      * intros ?%(suffix_elem F3 F2); done.
      * by apply (suffix_elem F2).
    + intros [?|[??]]; [by left; left|]. destruct (decide (p ∈ F2)); [by right|by left; right].
Qed.

(** ** [walk] *)
Definition level_path (l : nat) (va : Z) : list Z :=
  match l with O => leaf_path va | 1%nat => [PX 2 va] | _ => [] end.

Lemma level_path_ok l va : okpath (level_path l va).
Proof.
  destruct l as [|[|l]]; simpl; [apply okpath_leaf| |apply okpath_nil].
  split; [simpl; lia|]. repeat constructor; apply PX_range.
Qed.

Lemma level_path_S l va :
  (l <= 1)%nat -> level_path l va = level_path (S l) va ++ [PX (Z.of_nat (S l)) va].
Proof. destruct l as [|[|l]]; [done|done|lia]. Qed.

Lemma level_path_len l va : (length (level_path (S l) va) <= 1)%nat.
Proof. destruct l as [|l]; simpl; lia. Qed.

Lemma PX2_low va : 0 <= va < MAXVA -> PX 2 va < 256.
Proof.
  change MAXVA with 274877906944. intros. rewrite PX_div by lia. simpl Z.add. simpl Z.mul.
  change (2 ^ 30) with 1073741824. Z.to_euclidean_division_equations. lia.
Qed.

(** One new page linked at [t[i]]. *)
Lemma link_evolves s root p t i c F :
  pt_inv s root (c :: F) -> okpath p -> (length p <= 1)%nat -> okidx i -> (p = [] -> i < 256) ->
  node (pm_mem s) root p = Some t -> child (pm_mem s) t i = None ->
  exists s1, kalloc s = Ret c s1 /\
  let s' := mkPmem (store64 (fill (pm_mem s1) c 0 PGSIZE) (t + 8 * i) (Z.lor (PA2PTE c) PTE_V))
              (freelist s1) in
  evolves root s (c :: F) s' F /\ same_ptes root s s' /\
  node (pm_mem s') root (p ++ [i]) = Some c.
Proof.
  intros [Hk Hwf Hd] Hp Hl Hi Hlow Ht He.
  destruct (kalloc_run s c F Hk) as (m1 & R & Em1 & Hk1).
  assert (Hc : page_ok c) by (eapply Forall_inv, ki_pages, Hk).
  assert (Hfr : ~ tree_page (pm_mem s) root c) by (intros ?%Hd; set_solver).
  eexists; split; [exact R|]. cbn [pm_mem freelist].
  set (m' := store64 _ _ _). set (s' := mkPmem m' _).
  assert (Hm' : exists m1, same_except [c] (pm_mem s) m1 /\
    m' = store64 (fill m1 c 0 PGSIZE) (t + 8 * i) (Z.lor (PA2PTE c) PTE_V)).
  { exists m1. split; [rewrite Em1; apply same_except_fill, Hc|done]. }
  pose proof (link_same (pm_mem s) m' root t c i p Hwf Hp Hl Hi Hlow Ht He Hc Hfr Hm') as Hse.
  pose proof (link_tree (pm_mem s) m' root t c i p Hwf Hp Hl Hi Hlow Ht He Hc Hfr Hm') as Htr.
  pose proof (ki_nodup _ _ Hk) as [HcF HnF]%NoDup_cons.
  pose proof (ki_pages _ _ Hk) as [_ HpF]%Forall_cons.
  assert (Htt : tree_page (pm_mem s) root t) by (by exists p).
  split; [|split].
  - split; [split| | |].
    + constructor; [|done..]. cbn [pm_mem freelist s'].
      pose proof (ki_list _ _ Hk) as [_ HFl].
      eapply free_list_frame; [exact Hse|done| |exact HFl].
      intros q Hq [->| ->%list_elem_of_singleton]%elem_of_cons; [done|].
      apply Hd in Htt. set_solver.
    + by eapply link_wf.
    + intros a [Ha| ->]%Htr; [apply Hd in Ha; set_solver|done].
    + by exists [c].
    + intros q Hq HqF HqT. apply Hse; [done|].
      intros [->| ->%list_elem_of_singleton]%elem_of_cons; [set_solver|done].
    + intros q. unfold s'. cbn [pm_mem]. rewrite Htr. split.
      * intros [?| ->]; [by left|right; split; [set_solver|done]].
      * intros [?|[[->|?]%elem_of_cons ?]]; [by left|by right|done].
  - intros va. by eapply link_pte.
  - unfold s'. cbn [pm_mem].
    rewrite (link_node (pm_mem s) m' root t c i p); try done; [by rewrite decide_True|].
    by apply okpath_snoc.
Qed.

Lemma walk_levels_alloc l s root F t va :
  (l <= 2)%nat -> 0 <= va < MAXVA -> pt_inv s root F ->
  node (pm_mem s) root (level_path l va) = Some t ->
  exists r s' F', walk_levels l t va true s = Ret r s' /\
    evolves root s F s' F' /\ same_ptes root s s' /\
    (r = 0 /\ F' = [] /\ (length F < l)%nat \/
     exists t', node (pm_mem s') root (leaf_path va) = Some t' /\ r = t' + 8 * PX 0 va /\
       (length F <= length F' + l)%nat).
Proof.
  revert s F t. induction l as [|l IH]; intros s F t Hl Hva Hi Ht; cbn [walk_levels].
  { do 3 eexists. split; [done|]. split; [by apply evolves_refl|]. split; [done|]. right. exists t. split_and!; [done|done|lia]. }
  pose proof (level_path_S l va ltac:(lia)) as EP.
  unfold mem_load. run. set (i := PX (Z.of_nat (S l)) va) in *.
  destruct (has (load64 (pm_mem s) (t + 8 * i)) PTE_V) eqn:EV.
  - destruct (IH s F (PTE2PA (load64 (pm_mem s) (t + 8 * i)))) as (r & s' & F' & R' & Hev' & Hsp' & Hr); [lia|done|done| |].
    { rewrite EP, node_snoc, Ht. simpl. unfold child. by rewrite EV. }
    exists r, s', F'. split_and!; [done..|]. destruct Hr as [(?&?&?)|(t' & ? & ? & ?)]; [left|right; exists t'];
      split_and!; (done || lia).
  - cbn [negb]. assert (Hc : child (pm_mem s) t i = None) by (unfold child; by rewrite EV).
    destruct F as [|c F].
    { rewrite kalloc_empty by apply Hi. simpl. do 3 eexists. split; [done|].
      split; [by apply evolves_refl|]. split; [done|left; split_and!; (done || simpl; lia)]. }
    destruct (link_evolves s root (level_path (S l) va) t i c F) as (s1 & R & Hev & Hsp & Hnd);
      try done; [apply level_path_ok|apply level_path_len|apply PX_range| |].
    { intros E. assert (l = 1)%nat as -> by (destruct l as [|[|l]]; [done|done|lia]).
      by apply PX2_low. }
    rewrite R. assert (page_ok c) as Hok by (eapply Forall_inv, ki_pages, Hi).
    pose proof (page_ok_range c Hok). destruct (Z.eqb_spec c 0); [lia|].
    unfold mem_fill, mem_store. run. cbn [pm_mem freelist].
    rewrite <- EP in Hnd.
    destruct (IH _ F c ltac:(lia) Hva (ev_inv _ _ _ _ _ Hev) Hnd) as (r & s' & F' & R' & Hev' & Hsp' & Hr).
    exists r, s', F'. split; [exact R'|]. split; [by eapply evolves_trans|].
    split; [intros vb; by rewrite Hsp', Hsp|].
    destruct Hr as [(?&?&?)|(t' & ? & ? & ?)]; [left|right; exists t']; split_and!; (done || simpl; lia).
Qed.

Lemma walk_alloc s root F va :
  pt_inv s root F -> 0 <= va < MAXVA ->
  exists r s' F', walk root va true s = Ret r s' /\
    evolves root s F s' F' /\ same_ptes root s s' /\
    (r = 0 /\ F' = [] /\ (length F < 2)%nat \/
     exists t', node (pm_mem s') root (leaf_path va) = Some t' /\ r = t' + 8 * PX 0 va /\
       (length F <= length F' + 2)%nat).
Proof.
  intros Hi Hva. unfold walk. destruct (Z.leb_spec MAXVA va); [lia|].
  by apply walk_levels_alloc; [lia|..].
Qed.

(** [walk] without allocation reads the tree and changes nothing. *)
Lemma walk_noalloc s root va :
  0 <= va < MAXVA -> walk root va false s = Ret (pte_addr (pm_mem s) root va) s.
Proof.
  intros Hva. unfold walk. destruct (Z.leb_spec MAXVA va); [lia|].
  unfold pte_addr, leaf_path, child, mem_load. cbn [walk_levels node].
  unfold mem_load. run. unfold child. change (Z.of_nat 2) with 2. change (Z.of_nat 1) with 1.
  case_match; [|done]. cbn [mbind option_bind]. by case_match.
Qed.

(** With the leaf table present [walk] allocates nothing, whatever [alloc]. *)
Lemma walk_existing s root va t alloc :
  0 <= va < MAXVA -> node (pm_mem s) root (leaf_path va) = Some t ->
  walk root va alloc s = Ret (t + 8 * PX 0 va) s.
Proof.
  intros Hva. unfold walk. destruct (Z.leb_spec MAXVA va); [lia|].
  unfold leaf_path, child. cbn [node mbind option_bind walk_levels].
  unfold mem_load. run. unfold child. change (Z.of_nat 2) with 2. change (Z.of_nat 1) with 1.
  case_match; [|done]. cbn [mbind option_bind]. case_match; [|done]. by intros [= ->].
Qed.

(** ** Reading a translation *)
Definition mapped (m : mem) (root va : Z) : Prop := has (pte_of m root va) PTE_V = true.

#[global] Instance mapped_dec m root va : Decision (mapped m root va).
Proof. unfold mapped. apply _. Defined.

Lemma pte_addr_load m root va :
  pt_wf m root ->
  (pte_addr m root va = 0 /\ node m root (leaf_path va) = None /\ pte_of m root va = 0) \/
  (0 < pte_addr m root va /\ load64 m (pte_addr m root va) = pte_of m root va).
Proof.
  intros Hwf. unfold pte_addr, pte_of.
  destruct (node m root (leaf_path va)) as [t|] eqn:E; [right|by left].
  assert (page_ok t) as Hok by (eapply wf_page; eauto; apply okpath_leaf).
  pose proof (page_ok_range t Hok). pose proof (PX_range 0 va). split; [lia|done].
Qed.

Lemma pte_of_page m root va vb :
  0 <= va < MAXVA -> 0 <= vb < MAXVA -> PGROUNDDOWN va = PGROUNDDOWN vb ->
  pte_of m root va = pte_of m root vb.
Proof.
  assert (MAXVA < 2 ^ 64) by done. intros ?? E. unfold pte_of, leaf_path.
  by rewrite !(PX_same_page va vb) by (done || lia).
Qed.

Lemma pte_of_range m root va : 0 <= pte_of m root va < 2 ^ 64.
Proof. unfold pte_of. case_match; [apply load64_range|lia]. Qed.

Lemma walkaddr_run s root va :
  pt_wf (pm_mem s) root -> 0 <= va ->
  let e := pte_of (pm_mem s) root va in
  walkaddr root va s =
    Ret (if (va <? MAXVA) && has e PTE_V && has e PTE_U then PTE2PA e else 0) s.
Proof.
  intros Hwf Hva e. unfold walkaddr. destruct (Z.leb_spec MAXVA va), (Z.ltb_spec va MAXVA); try lia; [done|].
  rewrite (bind_Ret _ _ _ _ _ (walk_noalloc s root va ltac:(lia))).
  destruct (pte_addr_load (pm_mem s) root va Hwf) as [(-> & _ & E)|[? E]].
  - simpl. unfold e. by rewrite E.
  - destruct (Z.eqb_spec (pte_addr (pm_mem s) root va) 0); [lia|].
    unfold mem_load. run. rewrite E. fold e. simpl.
    by destruct (has e PTE_V); simpl; [destruct (has e PTE_U)|].
Qed.

Lemma ismapped_run s root va :
  pt_wf (pm_mem s) root -> 0 <= va < MAXVA ->
  ismapped root va s = Ret (if has (pte_of (pm_mem s) root va) PTE_V then 1 else 0) s.
Proof.
  intros Hwf Hva. unfold ismapped.
  rewrite (bind_Ret _ _ _ _ _ (walk_noalloc s root va ltac:(lia))).
  destruct (pte_addr_load (pm_mem s) root va Hwf) as [(-> & _ & E)|[? E]].
  - simpl. by rewrite E.
  - destruct (Z.eqb_spec (pte_addr (pm_mem s) root va) 0); [lia|].
    unfold mem_load. run. rewrite E. by case_match.
Qed.

(** ** Storing a leaf entry *)
Definition mkpte (pa perm : Z) : Z := Z.lor (Z.lor (PA2PTE pa) perm) PTE_V.

Lemma mkpte_alt pa perm : mkpte pa perm = Z.lor (PA2PTE pa) (Z.lor perm PTE_V).
Proof. unfold mkpte. by rewrite Z.lor_assoc. Qed.

Lemma perm_V_range perm : 0 <= perm < 2 ^ 10 -> 0 <= Z.lor perm PTE_V < 2 ^ 10.
Proof.
  intros. by apply lor_range.
Qed.

Lemma mkpte_range pa perm :
  0 <= pa < 2 ^ 56 -> 0 <= perm < 2 ^ 10 -> 0 <= mkpte pa perm < 2 ^ 64.
Proof. intros. rewrite mkpte_alt. by apply mk_pte_range; [|apply perm_V_range]. Qed.

Lemma mkpte_V pa perm : 0 <= pa < 2 ^ 56 -> has (mkpte pa perm) PTE_V = true.
Proof.
  intros. rewrite mkpte_alt, has_mk by (done || lia). unfold has.
  rewrite Z.land_lor_distr_l. apply negb_true_iff, Z.eqb_neq.
  intros [_ E]%Z.lor_eq_0_iff. done.
Qed.

Lemma mkpte_pa pa perm :
  0 <= pa < 2 ^ 56 -> pa mod PGSIZE = 0 -> 0 <= perm < 2 ^ 10 -> PTE2PA (mkpte pa perm) = pa.
Proof. intros. rewrite mkpte_alt. by apply PTE2PA_mk; [| |apply perm_V_range]. Qed.

Lemma mkpte_flags pa perm :
  0 <= pa < 2 ^ 56 -> 0 <= perm < 2 ^ 10 -> PTE_FLAGS (mkpte pa perm) = Z.lor perm PTE_V.
Proof. intros. rewrite mkpte_alt. by apply PTE_FLAGS_mk; [|apply perm_V_range]. Qed.

Lemma store_leaf_evolves s root F va t v :
  pt_inv s root F -> 0 <= va < MAXVA -> 0 <= v < 2 ^ 64 ->
  node (pm_mem s) root (leaf_path va) = Some t ->
  let s' := mkPmem (store64 (pm_mem s) (t + 8 * PX 0 va) v) (freelist s) in
  evolves root s F s' F /\
  (forall vb, 0 <= vb < MAXVA -> pte_of (pm_mem s') root vb =
     if decide (PGROUNDDOWN vb = PGROUNDDOWN va) then v else pte_of (pm_mem s) root vb).
Proof.
  intros [Hk Hwf Hd] Hva Hv Ht s'.
  destruct (store_leaf (pm_mem s) root va v t Hwf Ht Hv) as (Hia & Hv1 & Hv2 & Hse).
  pose proof (node_frame _ _ _ Hia) as Hn.
  assert (Htt : tree_page (pm_mem s) root t) by (exists (leaf_path va); split; [apply okpath_leaf|done]).
  split.
  - split; [split| | |].
    + destruct Hk as [Hl Hnd Hok]. constructor; [|done..].
      eapply free_list_frame; [exact Hse|done| |exact Hl].
      intros q Hq ->%list_elem_of_singleton. by apply (Hd t).
    + by eapply pt_wf_ext.
    + intros a Ha. apply Hd. by rewrite <- tree_page_ext by exact Hn.
    + done.
    + intros p Hp HF HT. apply Hse; [done|]. intros ->%list_elem_of_singleton. done.
    + intros p. unfold s'. cbn [pm_mem]. rewrite tree_page_ext by exact Hn.
      split; [by left|]. by intros [?|[??]].
  - intros vb Hvb. case_decide as E; [|by apply Hv2].
    rewrite (pte_of_page _ _ vb va) by done. done.
Qed.

Lemma pgdown_step a vb :
  a mod PGSIZE = 0 -> (PGROUNDDOWN vb = PGROUNDDOWN a <-> a <= vb < a + PGSIZE).
Proof.
  intros Ha. rewrite (PGROUNDDOWN_aligned a) by done. rewrite PGROUNDDOWN_div.
  unfold PGSIZE in *. Z.to_euclidean_division_equations. lia.
Qed.

(** ** [mappages] *)
Definition ptes_after_map (root va k pa perm : Z) (s s' : pmem) : Prop :=
  forall vb, 0 <= vb < MAXVA -> pte_of (pm_mem s') root vb =
    if inr va (k * PGSIZE) vb then mkpte (pa + (PGROUNDDOWN vb - va)) perm
    else pte_of (pm_mem s) root vb.

Lemma MAXVA_eq : MAXVA = 274877906944.
Proof. done. Qed.

Lemma mappages_loop_run n s root F a pa perm :
  pt_inv s root F -> (0 < n)%nat -> a mod PGSIZE = 0 -> 0 <= a ->
  a + PGSIZE * Z.of_nat n <= MAXVA -> 0 <= pa -> pa + PGSIZE * Z.of_nat n <= 2 ^ 56 ->
  0 <= perm < 2 ^ 10 ->
  (forall vb, a <= vb < a + PGSIZE * Z.of_nat n -> ~ mapped (pm_mem s) root vb) ->
  exists r s' F' k, mappages_loop n root a (a + PGSIZE * (Z.of_nat n - 1)) pa perm s = Ret r s' /\
    evolves root s F s' F' /\ 0 <= k /\ ptes_after_map root a k pa perm s s' /\
    (r = 0 /\ k = Z.of_nat n /\ (length F <= length F' + 2 * n)%nat \/
     r = -1 /\ k < Z.of_nat n /\ F' = [] /\ (length F < 2 * n)%nat).
Proof.
  revert s F a pa. induction n as [|n IH];
    intros s F a pa Hi Hn Ha Ha0 Hmax Hpa0 Hpa Hperm Hun; [lia|].
  cbn [mappages_loop]. rewrite MAXVA_eq in *. unfold PGSIZE in Hmax, Hpa.
  destruct (walk_alloc s root F a Hi ltac:(rewrite MAXVA_eq; lia))
    as (r & s1 & F1 & R1 & Ev1 & Sp1 & Hr).
  rewrite (bind_Ret _ _ _ _ _ R1). destruct Hr as [(-> & -> & Hlen)|(t & Ht & -> & Hlen)].
  { simpl. exists (-1), s1, [], 0. split_and!; [done|done|lia| |right; split_and!; (done || lia)].
    intros vb Hvb. rewrite inr_false by lia. apply Sp1. }
  pose proof (ev_inv _ _ _ _ _ Ev1) as Hi1.
  assert (page_ok t) as Hok.
  { eapply (wf_page _ _ (pi_wf _ _ _ Hi1)); [apply okpath_leaf|exact Ht]. }
  pose proof (page_ok_range t Hok). pose proof (PX_range 0 a).
  destruct (Z.eqb_spec (t + 8 * PX 0 a) 0); [lia|]. unfold mem_load, mem_store. run.
  assert (Hua : has (load64 (pm_mem s1) (t + 8 * PX 0 a)) PTE_V = false).
  { pose proof (Hun a ltac:(unfold PGSIZE; lia)) as Hu. apply not_true_is_false. intros E. apply Hu.
    unfold mapped. rewrite <- Sp1. unfold pte_of. by rewrite Ht. }
  rewrite Hua. change (Z.lor (Z.lor (PA2PTE pa) perm) PTE_V) with (mkpte pa perm).
  destruct (store_leaf_evolves s1 root F1 a t (mkpte pa perm)) as [Ev2 Hp2];
    [done|rewrite MAXVA_eq; lia|apply mkpte_range; [lia|done]|done|].
  set (s2 := mkPmem _ _) in *. pose proof (evolves_trans _ _ _ _ _ _ _ Ev1 Ev2) as Ev12.
  assert (Hone : ptes_after_map root a 1 pa perm s s2).
  { intros vb Hvb. rewrite Hp2 by done. rewrite Z.mul_1_l. case_decide as E.
    - rewrite E, (PGROUNDDOWN_aligned a) by done. apply pgdown_step in E; [|done].
      rewrite inr_true by done. f_equal. lia.
    - rewrite pgdown_step in E by done. rewrite inr_false by lia. apply Sp1. }
  destruct (Z.eqb_spec a (a + PGSIZE * (Z.of_nat (S n) - 1))) as [El|El].
  { assert (n = 0)%nat as -> by (unfold PGSIZE in *; lia).
    exists 0, s2, F1, 1. split_and!; [done|done|lia|exact Hone|left; split_and!; lia]. }
  rewrite !u64_small by (unfold PGSIZE; lia).
  destruct (IH s2 F1 (a + PGSIZE) (pa + PGSIZE)) as (r & s3 & F3 & k & R3 & Ev3 & Hk0 & Hk & Hr);
    [apply Ev2|unfold PGSIZE in *; lia| |unfold PGSIZE in *; lia..| | |].
  { rewrite Zplus_mod, Ha. done. }
  { done. }
  { intros vb Hvb. unfold mapped. rewrite Hone by (rewrite MAXVA_eq; unfold PGSIZE in *; lia).
    rewrite inr_false by (unfold PGSIZE in *; lia). apply Hun. unfold PGSIZE in *; lia. }
  exists r, s3, F3, (k + 1). split_and!; [|by eapply evolves_trans|lia| |destruct Hr as [(?&?&?)|(?&?&?&?)]; [left|right]; split_and!; (done || lia)].
  - rewrite <- R3. f_equal. lia.
  - intros vb Hvb. rewrite Hk, Hone by done. rewrite Z.mul_1_l.
    destruct (decide (a + PGSIZE <= vb < a + PGSIZE + k * PGSIZE)) as [Hin|Hin].
    + rewrite !inr_true by (unfold PGSIZE in *; lia). f_equal. lia.
    + rewrite (inr_false (a + PGSIZE)) by lia.
      destruct (decide (a <= vb < a + PGSIZE)).
      * by rewrite !inr_true by (unfold PGSIZE in *; lia).
      * by rewrite !inr_false by (unfold PGSIZE in *; lia).
Qed.

Lemma mappages_run s root F va size pa perm :
  pt_inv s root F -> va mod PGSIZE = 0 -> size mod PGSIZE = 0 -> 0 < size ->
  0 <= va -> va + size <= MAXVA -> 0 <= pa -> pa + size <= 2 ^ 56 -> 0 <= perm < 2 ^ 10 ->
  (forall vb, va <= vb < va + size -> ~ mapped (pm_mem s) root vb) ->
  exists r s' F' k, mappages root va size pa perm s = Ret r s' /\
    evolves root s F s' F' /\ 0 <= k /\ ptes_after_map root va k pa perm s s' /\
    (r = 0 /\ k = size / PGSIZE /\ Z.of_nat (length F) <= Z.of_nat (length F') + 2 * (size / PGSIZE) \/
     r = -1 /\ k < size / PGSIZE /\ F' = [] /\ Z.of_nat (length F) < 2 * (size / PGSIZE)).
Proof.
  intros Hi Hva Hsz Hpos ???? ? Hun. rewrite MAXVA_eq in *. unfold mappages.
  rewrite Hva, Hsz. simpl. destruct (Z.eqb_spec size 0); [lia|].
  assert (size = PGSIZE * (size / PGSIZE)) as Es
    by (unfold PGSIZE in *; Z.to_euclidean_division_equations; lia).
  assert (0 < size / PGSIZE) by (unfold PGSIZE in *; lia).
  destruct (mappages_loop_run (Z.to_nat (size / PGSIZE)) s root F va pa perm)
    as (r & s' & F' & k & R & Ev & Hk0 & Hk & Hr);
    try done; rewrite ?Z2Nat.id, <- ?Es, ?MAXVA_eq by lia; try (done || lia).
  exists r, s', F', k. rewrite Z2Nat.id in Hr by lia. split_and!; try done.
  2:{ destruct Hr as [(?&?&?)|(?&?&?&?)]; [left|right]; split_and!; (done || lia). }
  rewrite <- R. rewrite Z2Nat.id by lia. f_equal.
  rewrite u64_small by (unfold PGSIZE in *; lia). unfold PGSIZE in *. lia.
Qed.

Lemma has_mkpte pa perm f :
  0 <= pa < 2 ^ 56 -> 0 <= perm < 2 ^ 10 -> 0 <= f < 2 ^ 10 -> Z.land PTE_V f = 0 ->
  has (mkpte pa perm) f = has perm f.
Proof.
  intros. rewrite mkpte_alt, has_mk by done. unfold has.
  rewrite Z.land_lor_distr_l, H3, Z.lor_0_r. done.
Qed.

(** The physical page an address translates to, 0 if it has no user mapping. *)
Definition translate (m : mem) (root va : Z) : Z :=
  let e := pte_of m root va in
  if (va <? MAXVA) && has e PTE_V && has e PTE_U then PTE2PA e else 0.

(** mapping an unmapped, aligned range terminates.  On success (0)
    [walkaddr] gives every address of the range its page of [[pa, pa+size)] if the
    permissions let the user in (and 0 if not), the entries carry exactly the
    permissions asked for, and every other address translates as before; it
    fails (-1) only by exhausting the free list, which had fewer than two pages
    for each page mapped.  Either way the page-table pages that joined the tree
    are exactly those that left the free list. *)
Theorem mappages_correct s root F va size pa perm :
  pt_inv s root F -> va mod PGSIZE = 0 -> size mod PGSIZE = 0 -> 0 < size ->
  0 <= va -> va + size <= MAXVA -> 0 <= pa -> pa mod PGSIZE = 0 -> pa + size <= 2 ^ 56 ->
  0 <= perm < 2 ^ 10 ->
  (forall vb, va <= vb < va + size -> ~ mapped (pm_mem s) root vb) ->
  exists r s' F', mappages root va size pa perm s = Ret r s' /\ evolves root s F s' F' /\
    (r = 0 /\ (forall vb, 0 <= vb -> walkaddr root vb s' =
       Ret (if inr va size vb
            then (if has perm PTE_U then pa + (PGROUNDDOWN vb - va) else 0)
            else translate (pm_mem s) root vb) s') /\
       (forall vb, va <= vb < va + size -> PTE_FLAGS (pte_of (pm_mem s') root vb) = Z.lor perm PTE_V)
     \/ r = -1 /\ F' = [] /\ Z.of_nat (length F) < 2 * (size / PGSIZE)).
Proof.
  intros Hi Hva Hsz Hpos Hva0 Hmax Hpa0 Hpam Hpa Hperm Hun.
  destruct (mappages_run s root F va size pa perm) as (r & s' & F' & k & R & Ev & Hk0 & Hk & Hr); try done.
  exists r, s', F'. split; [done|]. split; [done|].
  destruct Hr as [(-> & -> & _)|(-> & _ & -> & ?)]; [left|by right]. split; [done|]. rewrite MAXVA_eq in *.
  assert (size / PGSIZE * PGSIZE = size) as Es
    by (unfold PGSIZE in *; Z.to_euclidean_division_equations; lia).
  split.
  2:{ intros vb Hvb. rewrite Hk by (rewrite MAXVA_eq; lia). rewrite inr_true by (rewrite Es; lia).
      pose proof (PGROUNDDOWN_bounds vb). pose proof (PGROUNDDOWN_mod vb). apply mkpte_flags; [|done].
      unfold PGSIZE in *. Z.to_euclidean_division_equations. lia. }
  intros vb Hvb. rewrite walkaddr_run by (done || apply (pi_wf _ _ _ (ev_inv _ _ _ _ _ Ev))).
  unfold translate. f_equal. rewrite ?MAXVA_eq.
  destruct (Z.ltb_spec vb 274877906944); simpl; [|by rewrite inr_false by lia].
  rewrite Hk by (rewrite MAXVA_eq; lia). rewrite Es. destruct (inr va size vb) eqn:Ei; [|done].
  rewrite inr_spec in Ei. pose proof (PGROUNDDOWN_bounds vb). pose proof (PGROUNDDOWN_mod vb).
  assert (va <= PGROUNDDOWN vb).
  { unfold PGSIZE in *. Z.to_euclidean_division_equations. lia. }
  rewrite mkpte_V, has_mkpte, mkpte_pa by
    (try done; unfold PGSIZE in *; Z.to_euclidean_division_equations; lia).
  done.
Qed.

(** mapping over a valid entry panics. *)
Theorem mappages_remap s root F va size pa perm :
  pt_inv s root F -> va mod PGSIZE = 0 -> size mod PGSIZE = 0 -> 0 < size ->
  0 <= va -> va + size <= MAXVA -> mapped (pm_mem s) root va ->
  mappages root va size pa perm s = Panic "mappages: remap".
Proof.
  intros Hi Hva Hsz ??? Hm. rewrite MAXVA_eq in *. unfold mappages. rewrite Hva, Hsz. simpl.
  destruct (Z.eqb_spec size 0) as [|_]; [lia|].
  destruct (Z.to_nat (size / PGSIZE)) as [|n] eqn:En.
  { unfold PGSIZE in *. Z.to_euclidean_division_equations. lia. }
  cbn [mappages_loop]. unfold mapped in Hm.
  destruct (node (pm_mem s) root (leaf_path va)) as [t|] eqn:Et; [|unfold pte_of in Hm; by rewrite Et in Hm].
  rewrite (bind_Ret _ _ _ _ _ (walk_existing s root va t true ltac:(rewrite MAXVA_eq; lia) Et)).
  destruct (pte_addr_load (pm_mem s) root va (pi_wf _ _ _ Hi)) as [(_ & ? & _)|[? E]]; [congruence|].
  unfold pte_addr in *. rewrite Et in *. destruct (Z.eqb_spec (t + 8 * PX 0 va) 0); [lia|].
  unfold mem_load. run. by rewrite E, Hm.
Qed.

(** ** [uvmunmap] *)

(** Every user page below [lim] has a frame of its own: a page of RAM that is
    neither free nor part of the page table, shared with no other user page. *)
Record as_inv (s : pmem) (root : Z) (F : list Z) (lim : Z) : Prop := {
  as_pt : pt_inv s root F;
  as_lim : lim <= MAXVA;
  as_frame : forall va, 0 <= va < lim -> mapped (pm_mem s) root va ->
    let pa := PTE2PA (pte_of (pm_mem s) root va) in
    page_ok pa /\ (pa ∉ F) /\ ~ tree_page (pm_mem s) root pa;
  as_own : forall va vb, 0 <= va < lim -> 0 <= vb < lim ->
    mapped (pm_mem s) root va -> mapped (pm_mem s) root vb ->
    PTE2PA (pte_of (pm_mem s) root va) = PTE2PA (pte_of (pm_mem s) root vb) ->
    PGROUNDDOWN va = PGROUNDDOWN vb
}.

(** The frames mapped in [[lo, hi)]. *)
Definition frame_in (m : mem) (root lo hi p : Z) : Prop :=
  exists va, lo <= va < hi /\ mapped m root va /\ PTE2PA (pte_of m root va) = p.

(** The effect of unmapping [[lo, hi)], freeing the frames or not. *)
Record cut (root lo hi : Z) (do_free : bool) (s : pmem) (F : list Z) (s' : pmem) (F' : list Z) : Prop := {
  cut_node : forall p, okpath p -> node (pm_mem s') root p = node (pm_mem s) root p;
  cut_pte : forall vb, 0 <= vb < MAXVA -> pte_of (pm_mem s') root vb =
    if inr lo (hi - lo) vb && has (pte_of (pm_mem s) root vb) PTE_V then 0
    else pte_of (pm_mem s) root vb;
  cut_free : forall p, p ∈ F' <-> p ∈ F \/ (do_free = true /\ frame_in (pm_mem s) root lo hi p);
  cut_frame : forall p, p mod PGSIZE = 0 -> ~ tree_page (pm_mem s) root p ->
    ~ frame_in (pm_mem s) root lo hi p -> agree p PGSIZE (pm_mem s) (pm_mem s')
}.

(** Changing one frame leaves the tree alone. *)
Lemma off_tree_store s root F ps m' :
  pt_inv s root F -> same_except ps (pm_mem s) m' ->
  (forall p, p ∈ ps -> ~ tree_page (pm_mem s) root p) ->
  pt_wf m' root /\
  (forall p, okpath p -> node m' root p = node (pm_mem s) root p) /\
  (forall va, pte_of m' root va = pte_of (pm_mem s) root va).
Proof.
  intros Hi Hse Hps.
  assert (Ha : forall a, tree_page (pm_mem s) root a -> agree a PGSIZE (pm_mem s) m').
  { intros a Ha. apply Hse; [|intros Hin; by apply (Hps a)].
    destruct Ha as (p & Hp & E). by apply (wf_page _ _ (pi_wf _ _ _ Hi) p). }
  split; [|by apply tree_frame]. eapply pt_wf_ext; [|apply Hi].
  intros p a Hp _ E. apply Ha. by exists p.
Qed.

Lemma free_step s root F pa (do_free : bool) :
  pt_inv s root F ->
  (do_free = true -> page_ok pa /\ (pa ∉ F) /\ ~ tree_page (pm_mem s) root pa) ->
  exists s1, (if do_free then kfree pa else mret tt) s = Ret tt s1 /\
    pt_inv s1 root (if do_free then pa :: F else F) /\
    same_except (if do_free then [pa] else []) (pm_mem s) (pm_mem s1) /\
    (forall p, okpath p -> node (pm_mem s1) root p = node (pm_mem s) root p) /\
    (forall va, pte_of (pm_mem s1) root va = pte_of (pm_mem s) root va).
Proof.
  intros Hpt Hpa. destruct do_free.
  - destruct (Hpa eq_refl) as (Hok & HF & HT).
    destruct (kfree_run s pa F) as (s1 & R & Hk & Hse & _); [apply Hpt|done|done|].
    destruct (off_tree_store s root F _ (pm_mem s1) Hpt Hse) as (Hwf' & Hn & Hp).
    { by intros p ->%list_elem_of_singleton. }
    exists s1. split_and!; try done. split; [done|done|].
    intros b Hb. rewrite tree_page_ext in Hb by exact Hn. pose proof (pi_disj _ _ _ Hpt b Hb).
    intros [->|?]%elem_of_cons; done.
  - by exists s.
Qed.

Lemma page_bounds lo hi va vb :
  lo mod PGSIZE = 0 -> hi mod PGSIZE = 0 -> PGROUNDDOWN va = PGROUNDDOWN vb ->
  lo <= va < hi -> lo <= vb < hi.
Proof.
  rewrite !PGROUNDDOWN_div. unfold PGSIZE. intros. Z.to_euclidean_division_equations. lia.
Qed.

Lemma cut_kept root lo hi b s F s' F' vb :
  cut root lo hi b s F s' F' -> 0 <= vb < MAXVA -> mapped (pm_mem s') root vb ->
  ~ (lo <= vb < hi) /\ mapped (pm_mem s) root vb /\
  pte_of (pm_mem s') root vb = pte_of (pm_mem s) root vb.
Proof.
  intros Hc Hvb Hm. unfold mapped in *. rewrite (cut_pte _ _ _ _ _ _ _ _ Hc) in * by done.
  destruct (inr lo (hi - lo) vb) eqn:Ei; simpl in *.
  - destruct (has (pte_of (pm_mem s) root vb) PTE_V) eqn:Ev; [done|]. by rewrite Ev in Hm.
  - split; [|done]. intros ?. by rewrite inr_true in Ei by lia.
Qed.

Lemma cut_as_inv root lo hi b s F s' F' lim :
  as_inv s root F lim -> cut root lo hi b s F s' F' -> pt_inv s' root F' ->
  lo mod PGSIZE = 0 -> hi mod PGSIZE = 0 -> 0 <= lo -> (b = true -> hi <= lim) ->
  as_inv s' root F' lim.
Proof.
  intros [Hpt Hlm Hfr Hown] Hc Hpt' Hlo Hhi Hlo0 Hlim. split; [done|done| |].
  - intros vb Hvb Hm. destruct (cut_kept _ _ _ _ _ _ _ _ vb Hc ltac:(lia) Hm) as (Hn & Hms & E).
    cbv zeta. rewrite E. destruct (Hfr vb Hvb Hms) as (? & HF & HT). split_and!; [done| |].
    + rewrite (cut_free _ _ _ _ _ _ _ _ Hc). intros [?|[Hb (va & Hva & Hma & Ep)]]; [done|].
      specialize (Hlim Hb). apply Hn. apply (page_bounds lo hi va vb); try done.
      apply Hown; try done; lia.
    + rewrite tree_page_ext by apply Hc. done.
  - intros va vb Hva Hvb Hma Hmb.
    destruct (cut_kept _ _ _ _ _ _ _ _ va Hc ltac:(lia) Hma) as (_ & ? & ->).
    destruct (cut_kept _ _ _ _ _ _ _ _ vb Hc ltac:(lia) Hmb) as (_ & ? & ->).
    by apply Hown.
Qed.

Lemma cut_nil root lo b s F : cut root lo lo b s F s F.
Proof.
  split; [done| | |].
  - intros vb ?. by rewrite inr_false by lia.
  - intros p. split; [by left|]. intros [?|[_ (va & ? & _)]]; [done|lia].
  - intros. apply agree_refl.
Qed.

Lemma cut_trans root lo mid hi b s F s1 F1 s2 F2 :
  cut root lo mid b s F s1 F1 -> cut root mid hi b s1 F1 s2 F2 ->
  0 <= lo -> lo <= mid <= hi -> hi <= MAXVA -> cut root lo hi b s F s2 F2.
Proof.
  intros C1 C2 ???.
  assert (Hfi : forall p, frame_in (pm_mem s1) root mid hi p <-> frame_in (pm_mem s) root mid hi p).
  { intros p. unfold frame_in, mapped. split; intros (va & Hva & Hm & E); exists va;
      rewrite (cut_pte _ _ _ _ _ _ _ _ C1), inr_false in * by lia; done. }
  assert (Hsp : forall p, frame_in (pm_mem s) root lo hi p <->
    frame_in (pm_mem s) root lo mid p \/ frame_in (pm_mem s) root mid hi p).
  { intros p. split; [intros (va & Hva & Hr)|intros [(va & Hva & Hr)|(va & Hva & Hr)]; exists va; split; [lia|done|lia|done]].
    destruct (decide (va < mid)); [left|right]; exists va; split; [lia|done|lia|done]. }
  split.
  - intros p Hp. by rewrite (cut_node _ _ _ _ _ _ _ _ C2), (cut_node _ _ _ _ _ _ _ _ C1).
  - intros vb Hvb. rewrite (cut_pte _ _ _ _ _ _ _ _ C2), !(cut_pte _ _ _ _ _ _ _ _ C1) by done.
    destruct (decide (lo <= vb < mid)); [|destruct (decide (mid <= vb < hi))].
    + rewrite (inr_true lo), (inr_false mid), (inr_true lo (hi - lo)) by lia. by case_match.
    + by rewrite (inr_false lo (mid - lo)), (inr_true mid), (inr_true lo) by lia.
    + by rewrite !inr_false by lia.
  - intros p. rewrite (cut_free _ _ _ _ _ _ _ _ C2), (cut_free _ _ _ _ _ _ _ _ C1), Hfi, Hsp. naive_solver.
  - intros p Hp HT Hnf. rewrite Hsp in Hnf.
    eapply agree_trans; [apply (cut_frame _ _ _ _ _ _ _ _ C1)|apply (cut_frame _ _ _ _ _ _ _ _ C2)]; try done.
    + naive_solver.
    + by rewrite tree_page_ext by apply C1.
    + rewrite Hfi. naive_solver.
Qed.

Lemma unmap_one s root F lim a (do_free : bool) :
  as_inv s root F lim -> a mod PGSIZE = 0 -> 0 <= a -> a + PGSIZE <= MAXVA ->
  (do_free = true -> a + PGSIZE <= lim) -> mapped (pm_mem s) root a ->
  exists s1 s' F',
    (if do_free then kfree (PTE2PA (pte_of (pm_mem s) root a)) else mret tt) s = Ret tt s1 /\
    mem_store (pte_addr (pm_mem s) root a) 0 s1 = Ret tt s' /\
    pt_inv s' root F' /\ cut root a (a + PGSIZE) do_free s F s' F'.
Proof.
  intros Has Ha Ha0 Hmax Hlim Hm. pose proof (as_pt _ _ _ _ Has) as Hpt.
  assert (HP : PGSIZE = 4096) by done. set (pa := PTE2PA (pte_of (pm_mem s) root a)).
  destruct (node (pm_mem s) root (leaf_path a)) as [t|] eqn:Et;
    [|unfold mapped, pte_of in Hm; by rewrite Et in Hm].
  assert (Hone : forall vb, a <= vb < a + PGSIZE -> pte_of (pm_mem s) root vb = pte_of (pm_mem s) root a).
  { intros vb ?. apply pte_of_page; [lia|lia|by apply pgdown_step]. }
  assert (Hfi : forall p, frame_in (pm_mem s) root a (a + PGSIZE) p <-> p = pa).
  { intros p. split; [intros (vb & Hvb & _ & <-); unfold pa; by rewrite Hone|].
    intros ->. exists a. split_and!; [lia|lia|done|done]. }
  destruct (free_step s root F pa do_free Hpt) as (s1 & R1 & Hi1 & Hse1 & Hn1 & Hp1).
  { intros Hb. specialize (Hlim Hb). apply (as_frame _ _ _ _ Has); [lia|done]. }
  assert (Et1 : node (pm_mem s1) root (leaf_path a) = Some t) by (by rewrite Hn1 by apply okpath_leaf).
  destruct (store_leaf_evolves s1 root _ a t 0 Hi1 ltac:(lia) ltac:(lia) Et1) as [Ev Hp2].
  destruct (store_leaf (pm_mem s1) root a 0 t (pi_wf _ _ _ Hi1) Et1 ltac:(lia)) as (Hia2 & _ & _ & Hse2).
  pose proof (node_frame _ _ _ Hia2) as Hn2.
  do 3 eexists. split; [exact R1|]. split; [unfold mem_store, pte_addr; by rewrite Et|].
  split; [apply Ev|]. split; cbn [pm_mem].
  - intros p Hp. rewrite Hn2 by done. by apply Hn1.
  - intros vb Hvb. rewrite Hp2 by done. rewrite Hp1. replace (a + PGSIZE - a) with PGSIZE by lia.
    case_decide as E; rewrite pgdown_step in E by done.
    + rewrite inr_true by lia. rewrite Hone by done. by rewrite Hm.
    + by rewrite inr_false by lia.
  - intros p. rewrite Hfi. destruct do_free; [rewrite elem_of_cons|]; naive_solver.
  - intros p Hp HT Hnf. rewrite Hfi in Hnf.
    eapply agree_trans; [apply Hse1; [done|]|apply Hse2; [done|]].
    + destruct do_free; set_solver.
    + intros ->%list_elem_of_singleton. apply HT. exists (leaf_path a). split; [apply okpath_leaf|done].
Qed.

Lemma unmap_body s root F lim a (do_free : bool) :
  as_inv s root F lim -> a mod PGSIZE = 0 -> 0 <= a -> a + PGSIZE <= MAXVA ->
  (do_free = true -> a + PGSIZE <= lim) ->
  exists s' F',
    (forall k : M pmem unit,
      (pte ← walk root a false;
       _ ← (if pte =? 0 then mret tt
            else v ← mem_load pte;
                 if negb (has v PTE_V) then mret tt
                 else _ ← (if do_free then kfree (PTE2PA v) else mret tt); mem_store pte 0);
       k) s = k s') /\
    pt_inv s' root F' /\ cut root a (a + PGSIZE) do_free s F s' F'.
Proof.
  intros Has Ha Ha0 Hmax Hlim. pose proof (as_pt _ _ _ _ Has) as Hpt. assert (HP : PGSIZE = 4096) by done.
  pose proof (walk_noalloc s root a ltac:(lia)) as Hw.
  assert (Hstay : ~ mapped (pm_mem s) root a -> cut root a (a + PGSIZE) do_free s F s F).
  { intros Hm. assert (Hone : forall vb, a <= vb < a + PGSIZE -> pte_of (pm_mem s) root vb = pte_of (pm_mem s) root a).
    { intros vb ?. apply pte_of_page; [lia|lia|by apply pgdown_step]. }
    assert (Hfi : forall p, ~ frame_in (pm_mem s) root a (a + PGSIZE) p).
    { intros p (vb & Hvb & Hmv & _). unfold mapped in *. by rewrite Hone in Hmv. }
    split; [done| | |intros; apply agree_refl].
    - intros vb Hvb. destruct (inr a (a + PGSIZE - a) vb) eqn:Ei; [|done].
      rewrite inr_spec in Ei. rewrite Hone by lia. unfold mapped in Hm. by destruct (has _ PTE_V).
    - intros p. naive_solver. }
  destruct (pte_addr_load (pm_mem s) root a (pi_wf _ _ _ Hpt)) as [(Ea & _ & E)|[? E]].
  - exists s, F. split; [intros k; by rewrite (bind_Ret _ _ _ _ _ Hw), Ea|]. split; [done|].
    apply Hstay. unfold mapped. by rewrite E.
  - destruct (has (pte_of (pm_mem s) root a) PTE_V) eqn:Ev.
    + destruct (unmap_one s root F lim a do_free) as (s1 & s' & F' & R1 & R2 & Hi & Hc); try done.
      exists s', F'. split; [|done]. intros k. rewrite (bind_Ret _ _ _ _ _ Hw).
      destruct (Z.eqb_spec (pte_addr (pm_mem s) root a) 0); [lia|].
      rewrite bind_assoc, bind_load, E, Ev. cbn [negb]. rewrite bind_assoc, (bind_Ret _ _ _ _ _ R1).
      by rewrite (bind_Ret _ _ _ _ _ R2).
    + exists s, F. split; [|split; [done|apply Hstay; unfold mapped; by rewrite Ev]].
      intros k. rewrite (bind_Ret _ _ _ _ _ Hw).
      destruct (Z.eqb_spec (pte_addr (pm_mem s) root a) 0); [lia|].
      by rewrite bind_assoc, bind_load, E, Ev.
Qed.

Lemma uvmunmap_loop_run n fuel s root F lim a (do_free : bool) :
  (n < fuel)%nat -> as_inv s root F lim -> a mod PGSIZE = 0 -> 0 <= a ->
  a + PGSIZE * Z.of_nat n <= MAXVA -> (do_free = true -> a + PGSIZE * Z.of_nat n <= lim) ->
  exists s' F', uvmunmap_loop fuel root a (a + PGSIZE * Z.of_nat n) do_free s = Ret tt s' /\
    as_inv s' root F' lim /\ cut root a (a + PGSIZE * Z.of_nat n) do_free s F s' F'.
Proof.
  revert fuel s F a. induction n as [|n IH]; intros fuel s F a Hf Has Ha Ha0 Hmax Hlim;
    (destruct fuel as [|fuel]; [lia|]); cbn [uvmunmap_loop]; assert (HP : PGSIZE = 4096) by done.
  { rewrite Z.mul_0_r, Z.add_0_r. rewrite Z.ltb_irrefl. exists s, F. split_and!; [done|done|apply cut_nil]. }
  destruct (Z.ltb_spec a (a + PGSIZE * Z.of_nat (S n))); [|lia].
  destruct (unmap_body s root F lim a do_free) as (s1 & F1 & R1 & Hi1 & Hc1);
    [done..|lia|intros Hb; specialize (Hlim Hb); lia|].
  rewrite R1.
  assert (Hm1 : (a + PGSIZE) mod PGSIZE = 0) by (rewrite Zplus_mod, Ha; done).
  assert (Has1 : as_inv s1 root F1 lim).
  { eapply cut_as_inv; eauto. intros Hb; specialize (Hlim Hb); lia. }
  rewrite MAXVA_eq in *. rewrite u64_small by lia.
  destruct (IH fuel s1 F1 (a + PGSIZE)) as (s2 & F2 & R2 & Has2 & Hc2);
    [lia|done|done|lia|lia|intros Hb; specialize (Hlim Hb); lia|].
  replace (a + PGSIZE + PGSIZE * Z.of_nat n) with (a + PGSIZE * Z.of_nat (S n)) in * by lia.
  exists s2, F2. split_and!; [done|done|]. eapply cut_trans; eauto; rewrite ?MAXVA_eq; lia.
Qed.

Lemma uvmunmap_run s root F lim va npages (do_free : bool) :
  as_inv s root F lim -> va mod PGSIZE = 0 -> 0 <= va -> 0 <= npages ->
  va + npages * PGSIZE <= MAXVA -> (do_free = true -> va + npages * PGSIZE <= lim) ->
  exists s' F', uvmunmap root va npages do_free s = Ret tt s' /\
    as_inv s' root F' lim /\ cut root va (va + npages * PGSIZE) do_free s F s' F'.
Proof.
  intros Has Hva Hva0 Hn Hmax Hlim. rewrite MAXVA_eq in *. assert (HP : PGSIZE = 4096) by done.
  unfold uvmunmap. rewrite Hva. cbn [Z.eqb negb]. rewrite u64_small by lia.
  destruct (uvmunmap_loop_run (Z.to_nat npages) (S (Z.to_nat npages)) s root F lim va do_free)
    as (s' & F' & R & ? & Hc); [lia|done..| | |];
    [rewrite MAXVA_eq; lia|intros Hb; specialize (Hlim Hb); lia|].
  replace (PGSIZE * Z.of_nat (Z.to_nat npages)) with (npages * PGSIZE) in * by lia. eauto.
Qed.

(** unmapping a range of user pages with [do_free] terminates
    without panic, clears exactly the valid entries of the range, puts exactly
    their frames on the free list, and keeps every other page's frame private. *)
Theorem uvmunmap_correct s root F lim va npages :
  as_inv s root F lim -> va mod PGSIZE = 0 -> 0 <= va -> 0 <= npages ->
  va + npages * PGSIZE <= lim ->
  exists s' F', uvmunmap root va npages true s = Ret tt s' /\ as_inv s' root F' lim /\
    (forall vb, 0 <= vb < MAXVA ->
       (mapped (pm_mem s') root vb <->
        mapped (pm_mem s) root vb /\ ~ (va <= vb < va + npages * PGSIZE)) /\
       (mapped (pm_mem s') root vb -> pte_of (pm_mem s') root vb = pte_of (pm_mem s) root vb)) /\
    (forall p, p ∈ F' <-> p ∈ F \/ frame_in (pm_mem s) root va (va + npages * PGSIZE) p).
Proof.
  intros Has Hva Hva0 Hn Hlim. pose proof (as_lim _ _ _ _ Has).
  destruct (uvmunmap_run s root F lim va npages true) as (s' & F' & R & Has' & Hc); try done; [lia|].
  exists s', F'. split_and!; [done|done| |].
  - intros vb Hvb. split; [split|].
    + intros Hm. destruct (cut_kept _ _ _ _ _ _ _ _ vb Hc Hvb Hm) as (?&?&?). done.
    + intros [Hm Hout]. unfold mapped. rewrite (cut_pte _ _ _ _ _ _ _ _ Hc), inr_false by lia. done.
    + intros Hm. by destruct (cut_kept _ _ _ _ _ _ _ _ vb Hc Hvb Hm) as (?&?&?).
  - intros p. rewrite (cut_free _ _ _ _ _ _ _ _ Hc). naive_solver.
Qed.
End map.
