(* ===== verification/PtUser.v ===== *)
(** User address spaces: [uvmcreate], [uvmalloc], [uvmdealloc].  Growing a
    process maps fresh zeroed frames or, when memory runs out, leaves the
    address space as it was and every frame back on the free list. *)
From S2P Require Import Prelude Riscv PhysMem Kalloc PageTable PtTree PtMap.

Section user.
Context `{HL : Layout} `{!LayoutOk}.

(** The page at [p] holds the bytes [f]. *)
Definition page_is (m : mem) (p : Z) (f : Z -> Z) : Prop := forall x, 0 <= x < PGSIZE -> rd8 m (p + x) = f x.

Definition zeros : Z -> Z := fun _ => 0.

Lemma page_is_fill m p : page_is (fill m p 0 PGSIZE) p zeros.
Proof. intros x Hx. unfold rd8, fill. by rewrite inr_true by lia. Qed.

Lemma page_is_agree m m' p f : agree p PGSIZE m m' -> page_is m p f -> page_is m' p f.
Proof. intros Ha Hz x Hx. unfold rd8. rewrite <- Ha by lia. by apply Hz. Qed.

(** A page taken from the free list may be written before it is mapped. *)
Lemma alloc_frame s root c F lim :
  as_inv s root (c :: F) lim ->
  exists s1, kalloc s = Ret c s1 /\ same_except [c] (pm_mem s) (pm_mem s1) /\
    page_ok c /\ (c ∉ F) /\ ~ tree_page (pm_mem s) root c /\
    (forall vb, 0 <= vb < lim -> mapped (pm_mem s) root vb ->
       PTE2PA (pte_of (pm_mem s) root vb) <> c) /\
    (forall m2, same_except [c] (pm_mem s) m2 ->
       as_inv (mkPmem m2 (freelist s1)) root F lim /\
       (forall p, okpath p -> node m2 root p = node (pm_mem s) root p) /\
       (forall va, pte_of m2 root va = pte_of (pm_mem s) root va)).
Proof.
  intros Has. pose proof (as_pt _ _ _ _ Has) as Hpt. pose proof (pi_free _ _ _ Hpt) as Hk.
  destruct (kalloc_run s c F Hk) as (m1 & R & -> & Hk1).
  assert (Hc : page_ok c) by (eapply Forall_inv, ki_pages, Hk).
  pose proof (ki_nodup _ _ Hk) as [HcF HnF]%NoDup_cons.
  pose proof (ki_pages _ _ Hk) as [_ HpF]%Forall_cons.
  assert (HcT : ~ tree_page (pm_mem s) root c) by (intros ?%(pi_disj _ _ _ Hpt); set_solver).
  eexists; split; [exact R|]. split; [apply same_except_fill, Hc|]. split_and!; try done.
  - intros vb Hvb Hm E. destruct (as_frame _ _ _ _ Has vb Hvb Hm) as (_ & HF & _).
    rewrite E in HF. set_solver.
  - intros m2 Hse. cbn [freelist].
    destruct (off_tree_store s root (c :: F) [c] m2 Hpt Hse) as (Hwf2 & Hn & Hp).
    { by intros p ->%list_elem_of_singleton. }
    split; [|done]. split; cbn [pm_mem].
    + split; cbn [pm_mem]; [|done|].
      * constructor; [|done..]. pose proof (ki_list _ _ Hk) as [_ HFl].
        eapply free_list_frame; [exact Hse|done| |exact HFl].
        by intros q Hq ->%list_elem_of_singleton.
      * intros a Ha. rewrite tree_page_ext in Ha by exact Hn.
        apply (pi_disj _ _ _ Hpt) in Ha. set_solver.
    + apply Has.
    + intros vb Hvb. unfold mapped. rewrite Hp. intros Hm.
      destruct (as_frame _ _ _ _ Has vb Hvb Hm) as (? & HF & HT). split_and!; [done|set_solver|].
      rewrite tree_page_ext by exact Hn. done.
    + intros va vb Hva Hvb. unfold mapped. rewrite !Hp. by apply Has.
Qed.

Lemma size_one : PGSIZE / PGSIZE = 1.
Proof. done. Qed.

(** Mapping a private frame at an unmapped page. *)
Lemma map_frame s root F lim a c perm :
  as_inv s root F lim -> page_ok c -> (c ∉ F) -> ~ tree_page (pm_mem s) root c ->
  (forall vb, 0 <= vb < lim -> mapped (pm_mem s) root vb ->
     PTE2PA (pte_of (pm_mem s) root vb) <> c) ->
  a mod PGSIZE = 0 -> 0 <= a -> a + PGSIZE <= lim -> 0 <= perm < 2 ^ 10 ->
  ~ mapped (pm_mem s) root a ->
  exists r s' F', mappages root a PGSIZE c perm s = Ret r s' /\
    evolves root s F s' F' /\ as_inv s' root F' lim /\
    (r = 0 /\ (forall vb, 0 <= vb < MAXVA -> pte_of (pm_mem s') root vb =
       if inr a PGSIZE vb then mkpte c perm else pte_of (pm_mem s) root vb) /\
       (length F <= length F' + 2)%nat \/
     r = -1 /\ F' = [] /\ (length F < 2)%nat /\
       (forall vb, 0 <= vb < MAXVA -> pte_of (pm_mem s') root vb = pte_of (pm_mem s) root vb)).
Proof.
  intros Has Hc HcF HcT Hcm Ha Ha0 Hlim Hperm Hun. pose proof (as_pt _ _ _ _ Has) as Hpt.
  pose proof (as_lim _ _ _ _ Has). pose proof (page_ok_range c Hc) as (?&?&?).
  assert (HP : PGSIZE = 4096) by done.
  destruct (mappages_run s root F a PGSIZE c perm) as (r & s' & F' & k & R & Ev & Hk0 & Hk & Hr);
    try done; try lia.
  { intros vb Hvb Hm. apply Hun. unfold mapped in *.
    rewrite (pte_of_page _ _ a vb); [done|lia..|]. symmetry. by apply pgdown_step. }
  rewrite size_one in Hr. pose proof (ev_suffix _ _ _ _ _ Ev) as Hsuf.
  assert (HT : forall p, p ∉ F -> ~ tree_page (pm_mem s) root p -> ~ tree_page (pm_mem s') root p).
  { intros p ??. rewrite (ev_tree _ _ _ _ _ Ev). naive_solver. }
  assert (HF : forall p, p ∉ F -> p ∉ F') by (intros p Hp Hp'; by apply Hp, (suffix_elem F')).
  destruct Hr as [(-> & -> & ?)|(-> & ? & -> & ?)].
  - assert (Hpte : forall vb, 0 <= vb < MAXVA -> pte_of (pm_mem s') root vb =
      if inr a PGSIZE vb then mkpte c perm else pte_of (pm_mem s) root vb).
    { intros vb Hvb. rewrite Hk by done. rewrite Z.mul_1_l. destruct (inr a PGSIZE vb) eqn:Ei; [|done].
      rewrite inr_spec in Ei. apply pgdown_step in Ei; [|done].
      rewrite Ei, PGROUNDDOWN_aligned by done. f_equal. lia. }
    exists 0, s', F'. split; [done|]. split; [done|]. split; [|left; split_and!; (done || lia)].
    split; [apply Ev|done| |].
    + intros vb Hvb. unfold mapped. rewrite Hpte by lia. destruct (inr a PGSIZE vb) eqn:Ei.
      * intros _. cbv zeta. rewrite mkpte_pa by (done || lia). naive_solver.
      * intros Hm. destruct (as_frame _ _ _ _ Has vb Hvb Hm) as (?&?&?). naive_solver.
    + intros va vb Hva Hvb. unfold mapped. rewrite !Hpte by lia.
      destruct (inr a PGSIZE va) eqn:Ea, (inr a PGSIZE vb) eqn:Eb; rewrite ?mkpte_pa by (done || lia).
      * intros _ _ _. rewrite inr_spec in *. apply pgdown_step in Ea, Eb; [|done..]. congruence.
      * intros _ Hm E. exfalso. by apply (Hcm vb).
      * intros Hm _ E. exfalso. by apply (Hcm va).
      * by apply Has.
  - assert (k = 0) as -> by lia.
    assert (Hsame : forall vb, 0 <= vb < MAXVA -> pte_of (pm_mem s') root vb = pte_of (pm_mem s) root vb).
    { intros vb Hvb. rewrite Hk by done. by rewrite inr_false by lia. }
    exists (-1), s', []. split; [done|]. split; [done|]. split.
    + split; [apply Ev|done| |].
      * intros vb Hvb. unfold mapped. rewrite Hsame by lia. intros Hm.
        destruct (as_frame _ _ _ _ Has vb Hvb Hm) as (?&?&?). naive_solver.
      * intros va vb Hva Hvb. unfold mapped. rewrite !Hsame by lia. by apply Has.
    + right. split_and!; (done || lia).
Qed.

(** ** Growing
    A plan gives each page that is to be filled its permissions and contents. *)
Definition plan := Z -> option (Z * (Z -> Z)).

Definition plan_ok (P : plan) : Prop := forall v perm f, P v = Some (perm, f) -> 0 <= perm < 2 ^ 10.

Definition planned (P : plan) (lo a vb : Z) : Prop := lo <= vb < a /\ is_Some (P (PGROUNDDOWN vb)).

(** The pages of [[lo, a)] that the plan names are mapped to fresh frames. *)
Record grown (root lo a : Z) (P : plan) (lim : Z) (s : pmem) (F : list Z) (s' : pmem) (F' : list Z) : Prop := {
  gr_as : as_inv s' root F' lim;
  gr_new : forall vb perm f, lo <= vb < a -> P (PGROUNDDOWN vb) = Some (perm, f) ->
    exists p, p ∈ F /\ page_ok p /\ pte_of (pm_mem s') root vb = mkpte p perm /\
      page_is (pm_mem s') p f;
  gr_old : forall vb, 0 <= vb < MAXVA -> ~ planned P lo a vb ->
    pte_of (pm_mem s') root vb = pte_of (pm_mem s) root vb;
  gr_frame : forall p, p mod PGSIZE = 0 -> p ∉ F -> ~ tree_page (pm_mem s) root p ->
    agree p PGSIZE (pm_mem s) (pm_mem s');
  gr_sub : forall p, p ∈ F' -> p ∈ F;
  gr_tree : forall p, tree_page (pm_mem s') root p -> tree_page (pm_mem s) root p \/ p ∈ F;
  gr_leak : forall p, p ∈ F ->
    p ∈ F' \/ tree_page (pm_mem s') root p \/ frame_in (pm_mem s') root lo a p
}.

Lemma grown_nil root lo P lim s F : as_inv s root F lim -> grown root lo lo P lim s F s F.
Proof. intros. split; try done; [lia|by left|by left]. Qed.

(** A page the plan leaves out. *)
Lemma grown_skip root lo a P lim s F s' F' :
  grown root lo a P lim s F s' F' -> a mod PGSIZE = 0 -> P a = None ->
  grown root lo (a + PGSIZE) P lim s F s' F'.
Proof.
  intros [] Ha HP.
  assert (Hskip : forall vb, lo <= vb < a + PGSIZE -> is_Some (P (PGROUNDDOWN vb)) -> lo <= vb < a).
  { intros vb Hvb [x Hx]. destruct (Z.lt_ge_cases vb a); [lia|]. exfalso.
    rewrite (proj2 (pgdown_step a vb Ha)), PGROUNDDOWN_aligned in Hx by (done || lia). congruence. }
  split; try done.
  - intros vb perm f Hvb E. eapply gr_new0; [apply Hskip|]; eauto.
  - intros vb Hvb Hn. apply gr_old0; [done|]. intros [Hin Hs]. apply Hn. split; [unfold PGSIZE; lia|done].
  - intros p Hp. destruct (gr_leak0 p Hp) as [|[|(vb & ? & ?)]]; auto. right; right. exists vb.
    split; [unfold PGSIZE; lia|done].
Qed.

Lemma as_inv_step s root F lim s' F' :
  as_inv s root F lim -> pt_inv s' root F' ->
  (forall vb, 0 <= vb < MAXVA -> pte_of (pm_mem s') root vb = pte_of (pm_mem s) root vb) ->
  (forall vb, 0 <= vb < lim -> mapped (pm_mem s) root vb ->
     let pa := PTE2PA (pte_of (pm_mem s) root vb) in
     (pa ∉ F') /\ ~ tree_page (pm_mem s') root pa) ->
  as_inv s' root F' lim.
Proof.
  intros Has Hpt Hsame Hnew. pose proof (as_lim _ _ _ _ Has). split; [done|done| |].
  - intros vb Hvb. unfold mapped. rewrite Hsame by lia. intros Hm.
    destruct (as_frame _ _ _ _ Has vb Hvb Hm) as (?&?&?). by destruct (Hnew vb Hvb Hm).
  - intros va vb Hva Hvb. unfold mapped. rewrite !Hsame by lia. by apply Has.
Qed.

(** Pages that are neither free nor in the tree keep their contents in one step. *)
Lemma step_agree root s F s2 F2 s' F' c p :
  same_except [c] (pm_mem s) (pm_mem s2) -> F = c :: F2 ->
  (forall q, okpath q -> node (pm_mem s2) root q = node (pm_mem s) root q) ->
  evolves root s2 F2 s' F' -> p mod PGSIZE = 0 -> p ∉ F -> ~ tree_page (pm_mem s) root p ->
  agree p PGSIZE (pm_mem s) (pm_mem s').
Proof.
  intros Hse -> Hn Ev Hp HF HT.
  eapply agree_trans; [apply Hse; [done|set_solver]|].
  apply (ev_frame _ _ _ _ _ Ev); [done|set_solver|]. by rewrite tree_page_ext by exact Hn.
Qed.

Definition user_perm (xperm : Z) : Z := Z.lor (Z.lor PTE_R PTE_U) xperm.

(** One iteration of [uvmalloc] after a successful [kalloc] of [c]: [s] is the
    state of the loop head, [s2] has [c] off the list and zeroed, and [s3] is
    what [mappages] leaves. *)
Section grow.
  Context (root lo a lim perm : Z) (P : plan) (f : Z -> Z) (s0 : pmem) (F0 : list Z) (s s2 s3 : pmem) (c : Z) (F F3 : list Z).
  Hypothesis G : grown root lo a P lim s0 F0 s (c :: F).
  Hypothesis HPok : plan_ok P.
  Hypothesis HPa : P a = Some (perm, f).
  Hypothesis Hlom : lo mod PGSIZE = 0.
  Hypothesis Ha : a mod PGSIZE = 0.
  Hypothesis Hlo : 0 <= lo <= a.
  Hypothesis Hlim : a + PGSIZE <= lim.
  Hypothesis Hc : page_ok c.
  Hypothesis HcF : c ∉ F.
  Hypothesis HcT : ~ tree_page (pm_mem s) root c.
  Hypothesis Hcm : forall vb, 0 <= vb < lim -> mapped (pm_mem s) root vb ->
    PTE2PA (pte_of (pm_mem s) root vb) <> c.
  Hypothesis Hse2 : same_except [c] (pm_mem s) (pm_mem s2).
  Hypothesis Hz2 : page_is (pm_mem s2) c f.
  Hypothesis Hn2 : forall p, okpath p -> node (pm_mem s2) root p = node (pm_mem s) root p.
  Hypothesis Hp2 : forall va, pte_of (pm_mem s2) root va = pte_of (pm_mem s) root va.
  Hypothesis Ev : evolves root s2 F s3 F3.

Lemma grow_lim :
    lim <= MAXVA /\ PGSIZE = 4096 /\ 0 < c < 2 ^ 56 /\ c mod PGSIZE = 0 /\ 0 <= perm < 2 ^ 10.
  Proof using All.
    pose proof (page_ok_range c Hc). pose proof (HPok _ _ _ HPa).
    split_and!; try done; try lia. apply (gr_as _ _ _ _ _ _ _ _ _ G).
  Qed.

Lemma grow_agree p :
    p mod PGSIZE = 0 -> p ∉ c :: F -> ~ tree_page (pm_mem s) root p ->
    agree p PGSIZE (pm_mem s) (pm_mem s3).
  Proof using All. intros. by eapply (step_agree root s (c :: F) s2 F). Qed.

Lemma grow_tree p :
    tree_page (pm_mem s3) root p <-> tree_page (pm_mem s) root p \/ (p ∈ F /\ p ∉ F3).
  Proof using All. rewrite (ev_tree _ _ _ _ _ Ev). by rewrite tree_page_ext by exact Hn2. Qed.

  (** A frame mapped earlier by the loop is still private and keeps its contents. *)
Lemma grow_earlier vb perm' f' :
    lo <= vb < a -> P (PGROUNDDOWN vb) = Some (perm', f') ->
    exists p, p ∈ F0 /\ page_ok p /\ pte_of (pm_mem s) root vb = mkpte p perm' /\
      page_is (pm_mem s3) p f' /\ p <> c.
  Proof using All.
    intros Hin HPv. destruct (gr_new _ _ _ _ _ _ _ _ _ G vb perm' f' Hin HPv) as (p & HpF & Hpo & Epte & Hz).
    pose proof (page_ok_range p Hpo) as (?&?&?). assert (HP : PGSIZE = 4096) by done.
    pose proof (HPok _ _ _ HPv).
    assert (Hm : mapped (pm_mem s) root vb) by (unfold mapped; rewrite Epte; apply mkpte_V; lia).
    pose proof (Hcm vb ltac:(lia) Hm) as Hne.
    destruct (as_frame _ _ _ _ (gr_as _ _ _ _ _ _ _ _ _ G) vb ltac:(lia) Hm) as (_ & ? & ?).
    rewrite Epte, mkpte_pa in * by (done || lia). exists p. split_and!; try done.
    eapply page_is_agree; [|exact Hz]. by apply grow_agree.
  Qed.

Lemma grow_page vb : a <= vb < a + PGSIZE -> PGROUNDDOWN vb = a.
  Proof using Ha. intros Hvb. rewrite (proj2 (pgdown_step a vb Ha)) by done. by apply PGROUNDDOWN_aligned. Qed.

Lemma grow_ok :
    as_inv s3 root F3 lim ->
    (forall vb, 0 <= vb < MAXVA -> pte_of (pm_mem s3) root vb =
       if inr a PGSIZE vb then mkpte c perm else pte_of (pm_mem s2) root vb) ->
    grown root lo (a + PGSIZE) P lim s0 F0 s3 F3.
  Proof using All.
    intros Has3 Hp3. destruct grow_lim as (Hlm & HP & ? & ? & Hperm).
    split; [done|..].
    + intros vb perm' f' Hin HPv. rewrite Hp3 by lia. destruct (decide (a <= vb < a + PGSIZE)).
      * rewrite inr_true by lia. rewrite grow_page, HPa in HPv by done. injection HPv as [= <- <-].
        exists c. split_and!; [apply (gr_sub _ _ _ _ _ _ _ _ _ G); set_solver|done|done|].
        eapply page_is_agree; [|exact Hz2].
        apply (ev_frame _ _ _ _ _ Ev); [done|done|]. by rewrite tree_page_ext by exact Hn2.
      * rewrite inr_false by lia. rewrite Hp2.
        destruct (grow_earlier vb perm' f' ltac:(lia) HPv) as (p & ? & ? & ? & ? & _). by exists p.
    + intros vb Hvb Hout. rewrite Hp3 by done. destruct (inr a PGSIZE vb) eqn:Ei.
      * rewrite inr_spec in Ei. exfalso. apply Hout. split; [lia|]. by rewrite grow_page, HPa.
      * rewrite Hp2. apply (gr_old _ _ _ _ _ _ _ _ _ G); [done|]. intros [? ?]. apply Hout. split; [lia|done].
    + intros p Hp HF0 HT0. eapply agree_trans; [by apply (gr_frame _ _ _ _ _ _ _ _ _ G)|].
      apply grow_agree; [done|by intros ?%(gr_sub _ _ _ _ _ _ _ _ _ G)|].
      intros ?%(gr_tree _ _ _ _ _ _ _ _ _ G). naive_solver.
    + intros p Hp. apply (gr_sub _ _ _ _ _ _ _ _ _ G).
      apply (suffix_elem F3 F) in Hp; [set_solver|apply Ev].
    + intros p [Hp|[Hp _]]%grow_tree; [by apply (gr_tree _ _ _ _ _ _ _ _ _ G)|].
      right. apply (gr_sub _ _ _ _ _ _ _ _ _ G). set_solver.
    + intros p Hp. destruct (gr_leak _ _ _ _ _ _ _ _ _ G p Hp) as [[->|HpF]%elem_of_cons|[Hp'|Hp']].
      * right; right. exists a. unfold mapped. rewrite Hp3, inr_true by lia.
        rewrite mkpte_V, mkpte_pa by (done || lia). split_and!; [lia|lia|done|done].
      * destruct (decide (p ∈ F3)); [by left|right; left]. apply grow_tree. by right.
      * right; left. apply grow_tree. by left.
      * right; right. destruct Hp' as (vb & Hvb & Hm & E). exists vb. unfold mapped in *.
        rewrite Hp3, inr_false by lia. rewrite Hp2. split_and!; (done || lia).
  Qed.

Lemma grow_undo :
    F3 = [] ->
    (forall vb, 0 <= vb < MAXVA -> pte_of (pm_mem s3) root vb = pte_of (pm_mem s2) root vb) ->
    exists s4, kfree c s3 = Ret tt s4 /\ grown root lo a P lim s0 F0 s4 [c].
  Proof using All.
    intros HF3 Hp3. destruct grow_lim as (Hlm & HP & ? & ? & Hperm).
    pose proof (gr_as _ _ _ _ _ _ _ _ _ G) as Has.
    destruct (free_step s3 root [] c true) as (s4 & R4 & Hi4 & Hse4 & Hn4 & Hp4).
    { rewrite <- HF3. apply Ev. }
    { intros _. split_and!; [done|set_solver|]. rewrite grow_tree. naive_solver. }
    exists s4. split; [done|].
    assert (Hsame : forall vb, 0 <= vb < MAXVA -> pte_of (pm_mem s4) root vb = pte_of (pm_mem s) root vb).
    { intros vb Hvb. rewrite Hp4, Hp3 by done. apply Hp2. }
    assert (HT4 : forall p, tree_page (pm_mem s4) root p <-> tree_page (pm_mem s) root p \/ p ∈ F).
    { intros p. rewrite tree_page_ext by exact Hn4. rewrite grow_tree. set_solver. }
    split.
    + eapply as_inv_step; [exact Has|done|done|]. intros vb Hvb Hm.
      destruct (as_frame _ _ _ _ Has vb Hvb Hm) as (_ & HF & HT). cbv zeta. rewrite HT4.
      pose proof (Hcm vb Hvb Hm). set_solver.
    + intros vb perm' f' Hin HPv. rewrite Hsame by lia.
      destruct (grow_earlier vb perm' f' Hin HPv) as (p & ? & Hpo & ? & ? & ?). exists p. split_and!; try done.
      eapply page_is_agree; [|eassumption]. apply Hse4; [apply Hpo|set_solver].
    + intros vb Hvb Hout. rewrite Hsame by done. by apply (gr_old _ _ _ _ _ _ _ _ _ G).
    + intros p Hp HF0 HT0. assert (p ∉ c :: F) by (by intros ?%(gr_sub _ _ _ _ _ _ _ _ _ G)).
      eapply agree_trans; [by apply (gr_frame _ _ _ _ _ _ _ _ _ G)|].
      eapply agree_trans; [apply grow_agree; [done|done|]|].
      * intros ?%(gr_tree _ _ _ _ _ _ _ _ _ G). naive_solver.
      * apply Hse4; [done|]. set_solver.
    + intros p ->%list_elem_of_singleton. apply (gr_sub _ _ _ _ _ _ _ _ _ G). set_solver.
    + intros p [Hp|Hp]%HT4; [by apply (gr_tree _ _ _ _ _ _ _ _ _ G)|].
      right. apply (gr_sub _ _ _ _ _ _ _ _ _ G). set_solver.
    + intros p Hp. rewrite HT4.
      destruct (gr_leak _ _ _ _ _ _ _ _ _ G p Hp) as [[->|HpF]%elem_of_cons|[Hp'|Hp']];
        [left; set_solver|by right; left; right|by right; left; left|right; right].
      destruct Hp' as (vb & Hvb & Hm & E). exists vb. unfold mapped in *.
      rewrite Hsame by lia. split_and!; (done || lia).
  Qed.
End grow.

(** Growing from [lo] to [a] took at most three pages of the free list for each
    page of memory: the frame and two levels of tables. *)
Definition spent (lo a : Z) (F F' : list Z) : Prop :=
  PGSIZE * Z.of_nat (length F) <= PGSIZE * Z.of_nat (length F') + 3 * (a - lo).

(** The free list was too short to grow from [lo] to [a] for sure. *)
Definition short (lo a : Z) (F : list Z) : Prop := PGSIZE * Z.of_nat (length F) < 3 * (a - lo).

(** [c] leaves the free list, is filled ([fl]) with what the plan says and is
    mapped; when the tables run out of pages it goes back. *)
Lemma grow_step root lo a lim perm P f s0 F0 s c F (fl : mem -> mem) :
  grown root lo a P lim s0 F0 s (c :: F) -> spent lo a F0 (c :: F) -> plan_ok P -> P a = Some (perm, f) ->
  lo mod PGSIZE = 0 -> a mod PGSIZE = 0 -> 0 <= lo <= a -> a + PGSIZE <= lim ->
  ~ mapped (pm_mem s0) root a ->
  (forall m, same_except [c] m (fl m)) ->
  (forall m, same_except [c] (pm_mem s) m -> page_is (fl m) c f) ->
  exists s1 r s3 F3, kalloc s = Ret c s1 /\ c <> 0 /\
    mappages root a PGSIZE c perm (mkPmem (fl (pm_mem s1)) (freelist s1)) = Ret r s3 /\
    (r = 0 /\ grown root lo (a + PGSIZE) P lim s0 F0 s3 F3 /\ spent lo (a + PGSIZE) F0 F3 \/
     r = -1 /\ short lo (a + PGSIZE) F0 /\ exists s4, kfree c s3 = Ret tt s4 /\ grown root lo a P lim s0 F0 s4 [c]).
Proof.
  intros G Hspent HPok HPa Hlom Ha Hlo Hlim Hun Hfl Hfc. pose proof (gr_as _ _ _ _ _ _ _ _ _ G) as Has.
  pose proof (as_lim _ _ _ _ Has) as Hlm. assert (HP : PGSIZE = 4096) by done.
  destruct (alloc_frame s root c F lim Has) as (s1 & R1 & Hse1 & Hc & HcF & HcT & Hcm & Hw).
  pose proof (page_ok_range c Hc) as (?&?&?).
  assert (Hse2 : same_except [c] (pm_mem s) (fl (pm_mem s1))).
  { eapply same_except_trans; [exact Hse1|apply Hfl|done|done]. }
  destruct (Hw _ Hse2) as (Has2 & Hn2 & Hp2). pose proof (HPok _ _ _ HPa).
  destruct (map_frame (mkPmem (fl (pm_mem s1)) (freelist s1)) root F lim a c perm)
    as (r & s3 & F3 & R3 & Ev & Has3 & Hr); try (done || lia).
  { cbn [pm_mem]. by rewrite tree_page_ext by exact Hn2. }
  { intros vb Hvb. unfold mapped. cbn [pm_mem]. rewrite Hp2. by apply Hcm. }
  { unfold mapped. cbn [pm_mem]. rewrite Hp2, (gr_old _ _ _ _ _ _ _ _ _ G); [done|lia|].
    intros [? _]. lia. }
  specialize (Hfc _ Hse1).
  set (s2 := mkPmem (fl (pm_mem s1)) (freelist s1)) in *. exists s1, r, s3, F3. split_and!; [done|lia|done|].
  unfold spent, short in *. cbn [length] in Hspent.
  destruct Hr as [(-> & Hp3 & ?)|(-> & -> & ? & Hp3)]; [left|right]; (split; [done|]); (split; [|lia]) || (split; [lia|]).
  - eapply (grow_ok root lo a lim perm P f s0 F0 s s2 s3 c F F3); try eassumption; done.
  - eapply (grow_undo root lo a lim perm P f s0 F0 s s2 s3 c F []); try eassumption; done.
Qed.

Lemma PGROUNDUP_user sz :
  0 <= sz <= MAXVA -> sz <= PGROUNDUP sz < sz + 4096 /\ PGROUNDUP sz mod PGSIZE = 0.
Proof.
  rewrite MAXVA_eq. intros. split; [|apply PGROUNDUP_mod].
  apply PGROUNDUP_bounds. unfold PGSIZE. lia.
Qed.

Lemma pages_between lo hi :
  lo mod PGSIZE = 0 -> hi mod PGSIZE = 0 -> hi = lo + (hi - lo) / PGSIZE * PGSIZE.
Proof. unfold PGSIZE. intros. Z.to_euclidean_division_equations. lia. Qed.

Lemma uvmdealloc_run s root F lim oldsz newsz :
  as_inv s root F lim -> 0 <= newsz <= oldsz -> oldsz <= MAXVA -> PGROUNDUP oldsz <= lim ->
  exists s' F', uvmdealloc root oldsz newsz s = Ret newsz s' /\ as_inv s' root F' lim /\
    cut root (PGROUNDUP newsz) (PGROUNDUP oldsz) true s F s' F'.
Proof.
  intros Has Hsz Hmx Hlim. pose proof (as_lim _ _ _ _ Has) as Hlm.
  destruct (PGROUNDUP_user newsz) as [? Hlo]; [lia|]. destruct (PGROUNDUP_user oldsz) as [? Hhi]; [lia|].
  pose proof (pages_between _ _ Hlo Hhi) as HD. assert (HP : PGSIZE = 4096) by done.
  rewrite MAXVA_eq in *. unfold uvmdealloc. destruct (Z.leb_spec oldsz newsz).
  { assert (newsz = oldsz) as -> by lia. exists s, F. split_and!; [done|done|apply cut_nil]. }
  destruct (Z.ltb_spec (PGROUNDUP newsz) (PGROUNDUP oldsz)).
  - set (n := (PGROUNDUP oldsz - PGROUNDUP newsz) / PGSIZE) in *. clearbody n.
    rewrite i32_small, u64_small by (unfold PGSIZE in *; lia).
    destruct (uvmunmap_run s root F lim (PGROUNDUP newsz) n true)
      as (s' & F' & R & Has' & Hc); try done;
      try (rewrite ?MAXVA_eq; unfold PGSIZE in *; lia).
    exists s', F'. rewrite (bind_Ret _ _ _ _ _ R), HD. by split_and!.
  - exists s, F. split_and!; [done|done|]. assert (PGROUNDUP newsz = PGROUNDUP oldsz) as ->; [|apply cut_nil].
    unfold PGSIZE in *. Z.to_euclidean_division_equations. lia.
Qed.

(** What growing leaves when it has to be undone: no page is mapped that was
    not, and the pages that left the free list are in the page table. *)
Record undone (root lim : Z) (s : pmem) (F : list Z) (s' : pmem) (F' : list Z) : Prop := {
  un_as : as_inv s' root F' lim;
  un_mapped : forall vb, 0 <= vb < MAXVA ->
    (mapped (pm_mem s') root vb <-> mapped (pm_mem s) root vb) /\
    (mapped (pm_mem s) root vb -> pte_of (pm_mem s') root vb = pte_of (pm_mem s) root vb);
  un_frame : forall p, p mod PGSIZE = 0 -> p ∉ F -> ~ tree_page (pm_mem s) root p ->
    agree p PGSIZE (pm_mem s) (pm_mem s');
  un_leak : forall p, p ∈ F <-> p ∈ F' \/ (tree_page (pm_mem s') root p /\ ~ tree_page (pm_mem s) root p)
}.

Lemma grown_frame_in root lo a P lim s F s' F' p :
  grown root lo a P lim s F s' F' -> 0 <= lo -> a <= lim -> plan_ok P ->
  (forall vb, lo <= vb < a -> ~ mapped (pm_mem s) root vb) ->
  frame_in (pm_mem s') root lo a p -> p ∈ F.
Proof.
  intros G ?? HP Hun (vb & Hvb & Hm & E). pose proof (as_lim _ _ _ _ (gr_as _ _ _ _ _ _ _ _ _ G)).
  destruct (P (PGROUNDDOWN vb)) as [[perm f]|] eqn:EP.
  - destruct (gr_new _ _ _ _ _ _ _ _ _ G vb perm f Hvb EP) as (q & Hq & Hok & Epte & _).
    pose proof (page_ok_range q Hok) as (?&?&?). pose proof (HP _ _ _ EP).
    rewrite Epte, mkpte_pa in E by (done || lia). by subst.
  - exfalso. apply (Hun vb Hvb). unfold mapped in *. rewrite (gr_old _ _ _ _ _ _ _ _ _ G) in Hm; [done|lia|].
    intros [_ Hs]. rewrite EP in Hs. by destruct Hs.
Qed.

Lemma grown_cut root lo a P lim s F s1 F1 s2 F2 :
  as_inv s root F lim ->
  grown root lo a P lim s F s1 F1 -> cut root lo a true s1 F1 s2 F2 -> as_inv s2 root F2 lim ->
  0 <= lo -> a <= lim -> plan_ok P ->
  (forall vb, lo <= vb < a -> ~ mapped (pm_mem s) root vb) ->
  undone root lim s F s2 F2.
Proof.
  intros Has0 G C Has ?? Hperm Hun. pose proof (as_lim _ _ _ _ Has).
  assert (Hfi : forall p, frame_in (pm_mem s1) root lo a p -> p ∈ F) by (intros; by eapply grown_frame_in).
  split; [done|..].
  - intros vb Hvb. unfold mapped. rewrite (cut_pte _ _ _ _ _ _ _ _ C) by done.
    destruct (decide (lo <= vb < a)) as [Hin|Hout].
    + rewrite inr_true by lia. cbn [andb]. specialize (Hun vb Hin). unfold mapped in Hun.
      destruct (has (pte_of (pm_mem s1) root vb) PTE_V) eqn:E1;
        destruct (has (pte_of (pm_mem s) root vb) PTE_V); rewrite ?E1; by split.
    + rewrite inr_false by lia. cbn [andb]. rewrite (gr_old _ _ _ _ _ _ _ _ _ G); [done..|].
      by intros [? _].
  - intros p Hp HF HT. assert (~ tree_page (pm_mem s1) root p).
    { intros ?%(gr_tree _ _ _ _ _ _ _ _ _ G). naive_solver. }
    eapply agree_trans; [by apply (gr_frame _ _ _ _ _ _ _ _ _ G)|].
    apply (cut_frame _ _ _ _ _ _ _ _ C); naive_solver.
  - intros p. rewrite (cut_free _ _ _ _ _ _ _ _ C), (tree_page_ext (pm_mem s1)) by apply C. split.
    + intros HF. assert (~ tree_page (pm_mem s) root p) by (intros ?%(pi_disj _ _ _ (as_pt _ _ _ _ Has0)); done).
      destruct (gr_leak _ _ _ _ _ _ _ _ _ G p HF) as [?|[?|?]]; auto.
    + intros [[?|[_ ?]]|[Ht Hn]]; [by apply (gr_sub _ _ _ _ _ _ _ _ _ G)|by apply Hfi|].
      by destruct (gr_tree _ _ _ _ _ _ _ _ _ G p Ht).
Qed.

Lemma dealloc_undo root lo a P lim s F s1 F1 :
  as_inv s root F lim -> grown root lo a P lim s F s1 F1 ->
  lo mod PGSIZE = 0 -> a mod PGSIZE = 0 -> 0 <= lo <= a -> a <= lim -> plan_ok P ->
  (forall vb, lo <= vb < a -> ~ mapped (pm_mem s) root vb) ->
  exists s' F' r, uvmdealloc root a lo s1 = Ret r s' /\ undone root lim s F s' F'.
Proof.
  intros Has G Hlo Ha ????. pose proof (as_lim _ _ _ _ Has) as Hlm. pose proof MAXVA_eq.
  assert (HP : PGSIZE = 4096) by done.
  destruct (uvmdealloc_run s1 root F1 lim a lo) as (s' & F' & R & Has' & C);
    [apply G|lia|lia|rewrite PGROUNDUP_aligned by lia; lia|].
  rewrite !PGROUNDUP_aligned in C by lia. eexists s', F', _. split; [done|]. eapply grown_cut; try done; lia.
Qed.

Lemma user_perm_range xperm : 0 <= xperm < 2 ^ 10 -> 0 <= user_perm xperm < 2 ^ 10.
Proof. intros. unfold user_perm. by apply lor_range. Qed.

(** [uvmalloc]'s plan: every page, readable by the user, zeroed. *)
Definition zero_plan (xperm : Z) : plan := fun _ => Some (user_perm xperm, zeros).

Lemma zero_plan_ok xperm : 0 <= xperm < 2 ^ 10 -> plan_ok (zero_plan xperm).
Proof. intros ? v perm f [= <- <-]. by apply user_perm_range. Qed.

Lemma uvmalloc_loop_run fuel root lo a newsz xperm lim s0 F0 s F :
  as_inv s0 root F0 lim -> grown root lo a (zero_plan xperm) lim s0 F0 s F -> spent lo a F0 F ->
  lo mod PGSIZE = 0 -> a mod PGSIZE = 0 -> 0 <= lo <= a -> PGROUNDUP newsz <= lim ->
  a <= lim -> 0 <= newsz <= MAXVA ->
  0 <= xperm < 2 ^ 10 -> newsz - a <= PGSIZE * (Z.of_nat fuel - 1) -> (0 < fuel)%nat ->
  (forall vb, lo <= vb < PGROUNDUP newsz -> ~ mapped (pm_mem s0) root vb) ->
  (lo < a -> a < newsz + PGSIZE) ->
  exists r s' F', uvmalloc_loop fuel root a lo newsz xperm s = Ret r s' /\
    (r = newsz /\ (exists b, grown root lo b (zero_plan xperm) lim s0 F0 s' F' /\
       b mod PGSIZE = 0 /\ newsz <= b /\ (lo < b -> b < newsz + PGSIZE)) \/
     r = 0 /\ undone root lim s0 F0 s' F' /\ short lo (PGROUNDUP newsz) F0).
Proof.
  intros Has0. revert a s F. induction fuel as [|fuel IH];
    intros a s F G Hspent Hlo Ha Hloa Hlim Hal Hnew Hperm Hfuel Hf0 Hun Hb; [lia|].
  cbn [uvmalloc_loop]. assert (HP : PGSIZE = 4096) by done. pose proof MAXVA_eq as HM.
  destruct (Z.ltb_spec a newsz) as [Hlt|Hge].
  2:{ exists newsz, s, F. split; [done|]. left. split; [done|]. by exists a. }
  destruct (PGROUNDUP_user newsz) as [Hup Hupm]; [lia|].
  assert (Hstep : a + PGSIZE <= PGROUNDUP newsz).
  { unfold PGSIZE in *. Z.to_euclidean_division_equations. lia. }
  assert (Hund : forall s1 F1, grown root lo a (zero_plan xperm) lim s0 F0 s1 F1 ->
    exists s' F' r, uvmdealloc root a lo s1 = Ret r s' /\ undone root lim s0 F0 s' F').
  { intros s1 F1 G1. eapply dealloc_undo; try done; [by apply zero_plan_ok|]. intros vb ?. apply Hun. lia. }
  destruct F as [|c F].
  - rewrite (bind_Ret _ _ _ _ _ (kalloc_empty s ltac:(apply G))). cbn [Z.eqb].
    destruct (Hund _ _ G) as (s' & F' & r & R & U). rewrite (bind_Ret _ _ _ _ _ R). exists 0, s', F'.
    split; [done|]. right. split_and!; [done|done|]. unfold spent, short in *. cbn [length] in Hspent. lia.
  - destruct (grow_step root lo a lim (user_perm xperm) (zero_plan xperm) zeros s0 F0 s c F
      (fun m => fill m c 0 PGSIZE) G Hspent) as (s1 & r & s3 & F3 & R1 & Hc0 & R3 & Hr); try done; try lia.
    { by apply zero_plan_ok. } { apply Hun. lia. }
    { intros m. apply same_except_fill. eapply (Forall_inv (P := page_ok)), ki_pages, pi_free, as_pt, G. }
    { intros m _. apply page_is_fill. }
    rewrite (bind_Ret _ _ _ _ _ R1). destruct (Z.eqb_spec c 0); [done|].
    rewrite bind_fill. unfold user_perm in *. rewrite (bind_Ret _ _ _ _ _ R3).
    destruct Hr as [(-> & G3 & ?)|(-> & Hsh & s4 & R4 & G4)]; cbn [Z.eqb negb].
    + rewrite u64_small by lia. apply (IH (a + PGSIZE) s3 F3); try done; try lia.
      * rewrite Zplus_mod, Ha. done.
    + rewrite (bind_Ret _ _ _ _ _ R4). destruct (Hund _ _ G4) as (s' & F' & r & R & U).
      rewrite (bind_Ret _ _ _ _ _ R). exists 0, s', F'. split; [done|]. right.
      split_and!; [done|done|]. unfold short in *. lia.
Qed.

Lemma uvmalloc_run s root F lim oldsz newsz xperm :
  as_inv s root F lim -> 0 <= oldsz <= newsz -> newsz <= MAXVA -> PGROUNDUP newsz <= lim ->
  0 <= xperm < 2 ^ 10 ->
  (forall vb, PGROUNDUP oldsz <= vb < PGROUNDUP newsz -> ~ mapped (pm_mem s) root vb) ->
  exists r s' F', uvmalloc root oldsz newsz xperm s = Ret r s' /\
    (r = newsz /\
       grown root (PGROUNDUP oldsz) (PGROUNDUP newsz) (zero_plan xperm) lim s F s' F' \/
     r = 0 /\ undone root lim s F s' F' /\ short (PGROUNDUP oldsz) (PGROUNDUP newsz) F).
Proof.
  intros Has Ho Hmx Hlim Hx Hun. pose proof (as_lim _ _ _ _ Has). pose proof MAXVA_eq.
  destruct (PGROUNDUP_user oldsz) as [Hob Hom]; [lia|]. destruct (PGROUNDUP_user newsz) as [Hnb Hnm]; [lia|].
  assert (HP : PGSIZE = 4096) by done. unfold uvmalloc. destruct (Z.ltb_spec newsz oldsz); [lia|].
  assert (Hle : PGROUNDUP oldsz <= PGROUNDUP newsz).
  { clear Hun. unfold PGSIZE in *. Z.to_euclidean_division_equations. lia. }
  destruct (uvmalloc_loop_run (S (S (Z.to_nat ((newsz - oldsz) / PGSIZE)))) root (PGROUNDUP oldsz)
    (PGROUNDUP oldsz) newsz xperm lim s F s F) as (r & s' & F' & R & Hr); try done; try lia.
  { by apply grown_nil. } { unfold spent. lia. }
  { pose proof (Z.div_mod (newsz - oldsz) PGSIZE). pose proof (Z.mod_pos_bound (newsz - oldsz) PGSIZE).
    pose proof (Z.div_pos (newsz - oldsz) PGSIZE). unfold PGSIZE in *. lia. }
  exists r, s', F'. split; [done|]. destruct Hr as [(-> & b & G & Hb & Hnb' & Hbb)|(-> & U & ?)]; [left|by right].
  split; [done|]. assert (b = PGROUNDUP newsz) as <-; [|done].
  destruct (Z.lt_ge_cases (PGROUNDUP oldsz) b);
    [assert (b < newsz + PGSIZE) by auto|]; unfold PGSIZE in *; clear G Hun R; Z.to_euclidean_division_equations; lia.
Qed.

(** growing a process from [oldsz] to [newsz] terminates without
    panic.  Either it returns [newsz], every page between the rounded sizes is
    mapped with R, U and the requested permissions to a zeroed frame of its own
    taken from the free list, and every other entry is unchanged; or it returns
    0, which takes a free list with fewer than three pages for each new page,
    exactly the pages that were mapped are mapped, to the frames they had, and every page taken from the free list is back on it
    or a table page of the address space.  Contents of all other memory and the
    address-space invariant are kept. *)
Theorem uvmalloc_correct s root F lim oldsz newsz xperm :
  as_inv s root F lim -> 0 <= oldsz <= newsz -> newsz <= MAXVA -> PGROUNDUP newsz <= lim ->
  0 <= xperm < 2 ^ 10 ->
  (forall vb, PGROUNDUP oldsz <= vb < PGROUNDUP newsz -> ~ mapped (pm_mem s) root vb) ->
  exists r s' F', uvmalloc root oldsz newsz xperm s = Ret r s' /\
    (r = newsz /\
       grown root (PGROUNDUP oldsz) (PGROUNDUP newsz) (zero_plan xperm) lim s F s' F' \/
     r = 0 /\ undone root lim s F s' F' /\ short (PGROUNDUP oldsz) (PGROUNDUP newsz) F).
Proof. apply uvmalloc_run. Qed.
End user.
