(* ===== verification/PtFree.v ===== *)
(** Tearing an address space down: [freewalk] and [uvmfree].

    [pages_of] lists the pages of a (sub)tree in the order [freewalk] frees
    them.  [freewalk] on a tree without leaf mappings returns exactly those
    pages to the free list; with [uvmunmap] first, [uvmfree] gives back every
    frame and every table page.  Three levels of recursion are enough. *)
From S2P Require Import Prelude Riscv PhysMem Kalloc PageTable PtTree PtMap PtUser.

Fixpoint pages_of (m : mem) (d : nat) (t : Z) : list Z :=
  match d with
  | O => []
  | S d => (zseq 0 512 1 ≫= fun i =>
              match child m t i with Some c => pages_of m d c | None => [] end) ++ [t]
  end.

(** A tree of depth [d] whose valid entries all lead to further tables. *)
Fixpoint empty_tree (m : mem) (d : nat) (t : Z) : Prop :=
  match d with
  | O => False
  | S d => forall i, okidx i -> has (load64 m (t + 8 * i)) PTE_V = true ->
             Z.land (load64 m (t + 8 * i)) RWX = 0 /\ empty_tree m d (PTE2PA (load64 m (t + 8 * i)))
  end.

Definition sub_pages (m : mem) (d : nat) (t i : Z) : list Z :=
  match child m t i with Some c => pages_of m d c | None => [] end.

Lemma idx_zseq i : i ∈ zseq 0 512 1 <-> okidx i.
Proof.
  rewrite elem_of_zseq. unfold okidx. split; [intros (k & ? & ->); lia|].
  intros. exists i. lia.
Qed.

Lemma elem_sub_pages m d t i a :
  okidx i -> a ∈ sub_pages m d t i -> a ∈ pages_of m (S d) t.
Proof.
  intros Hi Ha. cbn [pages_of]. apply elem_of_app. left. apply list_elem_of_bind.
  exists i. by rewrite idx_zseq.
Qed.

Section free.
Context `{HL : Layout} `{!LayoutOk}.

Lemma pages_of_root m d t : t ∈ pages_of m (S d) t.
Proof. cbn [pages_of]. apply elem_of_app. right. set_solver. Qed.

Lemma pages_of_ext m m' d t :
  (forall a, a ∈ pages_of m d t -> agree a PGSIZE m m') -> pages_of m' d t = pages_of m d t.
Proof.
  revert t. induction d as [|d IH]; intros t Ha; [done|]. cbn [pages_of]. f_equal.
  apply list_bind_ext_in. intros i Hi%idx_zseq.
  rewrite (child_ext m m') by (done || apply Ha, pages_of_root).
  destruct (child m t i) as [c|] eqn:E; [|done]. apply IH. intros a Hac. apply Ha.
  apply (elem_sub_pages m d t i a Hi). unfold sub_pages. by rewrite E.
Qed.

Lemma empty_tree_ext m m' d t :
  (forall a, a ∈ pages_of m d t -> agree a PGSIZE m m') -> empty_tree m d t -> empty_tree m' d t.
Proof.
  revert t. induction d as [|d IH]; intros t Ha; [done|]. cbn [empty_tree]. intros He i Hi.
  rewrite (entry_ext m m' t i Hi) by apply Ha, pages_of_root. intros Hv.
  destruct (He i Hi Hv) as [? He']. split; [done|]. apply IH; [|done]. intros a Hac. apply Ha.
  apply (elem_sub_pages m d t i a Hi). unfold sub_pages, child. by rewrite Hv.
Qed.

(** What [freewalk] does to a tree of depth [d]. *)
Definition frees (d : nat) : Prop := forall t s G,
  kmem_inv s G -> empty_tree (pm_mem s) d t -> NoDup (pages_of (pm_mem s) d t) ->
  Forall page_ok (pages_of (pm_mem s) d t) -> (forall a, a ∈ pages_of (pm_mem s) d t -> a ∉ G) ->
  exists s', freewalk d t s = Ret tt s' /\ kmem_inv s' (reverse (pages_of (pm_mem s) d t) ++ G) /\
    same_except (pages_of (pm_mem s) d t) (pm_mem s) (pm_mem s').

Definition rest_pages (m : mem) (d : nat) (t i : Z) (n : nat) : list Z :=
  zseq i n 1 ≫= sub_pages m d t.

Lemma rest_pages_S m d t i n : rest_pages m d t i (S n) = sub_pages m d t i ++ rest_pages m d t (i + 1) n.
Proof. unfold rest_pages. by rewrite zseq_S. Qed.

Lemma elem_rest_pages m d t i n a :
  a ∈ rest_pages m d t i n <-> exists j, i <= j < i + Z.of_nat n /\ a ∈ sub_pages m d t j.
Proof.
  unfold rest_pages. rewrite list_elem_of_bind. split.
  - intros (j & Ha & Hj). apply elem_of_zseq in Hj as (k & ? & ->). exists (i + 1 * k). split; [lia|done].
  - intros (j & Hj & Ha). exists j. split; [done|]. apply elem_of_zseq. exists (j - i). lia.
Qed.

(** One entry of the loop. *)
Lemma entry_step d t i s G :
  frees d -> kmem_inv s G -> okidx i -> page_ok t -> t ∉ G ->
  (has (load64 (pm_mem s) (t + 8 * i)) PTE_V = true ->
     Z.land (load64 (pm_mem s) (t + 8 * i)) RWX = 0 /\
     empty_tree (pm_mem s) d (PTE2PA (load64 (pm_mem s) (t + 8 * i)))) ->
  NoDup (sub_pages (pm_mem s) d t i) -> Forall page_ok (sub_pages (pm_mem s) d t i) ->
  (forall a, a ∈ sub_pages (pm_mem s) d t i -> (a ∉ G) /\ a <> t) ->
  exists s1,
    (forall k : M pmem unit, (pte ← mem_load (t + 8 * i);
     _ ← (if has pte PTE_V && (Z.land pte (Z.lor (Z.lor PTE_R PTE_W) PTE_X) =? 0) then
             _ ← freewalk d (PTE2PA pte); mem_store (t + 8 * i) 0
           else if has pte PTE_V then panic "freewalk: leaf" else mret tt);
     k) s = k s1) /\
    kmem_inv s1 (reverse (sub_pages (pm_mem s) d t i) ++ G) /\
    same_except (t :: sub_pages (pm_mem s) d t i) (pm_mem s) (pm_mem s1) /\
    (forall j, okidx j -> j <> i -> load64 (pm_mem s1) (t + 8 * j) = load64 (pm_mem s) (t + 8 * j)).
Proof.
  intros HF Hk Hi Ht HtG He Hnd Hok Hdis. unfold sub_pages, child in *.
  destruct (has (load64 (pm_mem s) (t + 8 * i)) PTE_V) eqn:Ev.
  - destruct (He eq_refl) as [Hz Hem]. set (c := PTE2PA (load64 (pm_mem s) (t + 8 * i))) in *.
    destruct (HF c s G) as (s1 & R1 & Hk1 & Hse1); [done..|set_solver|].
    assert (HtP : t ∉ pages_of (pm_mem s) d c) by (intros ?%Hdis; naive_solver).
    assert (Hst : same_except [t] (pm_mem s1) (store64 (pm_mem s1) (t + 8 * i) 0)).
    { destruct Hi. apply same_except_store; [apply Ht|lia|unfold PGSIZE; lia]. }
    exists (mkPmem (store64 (pm_mem s1) (t + 8 * i) 0) (freelist s1)). split_and!.
    + intros k. rewrite bind_load. rewrite Ev. fold RWX. rewrite Hz. cbn [Z.eqb andb]. fold c.
      rewrite bind_assoc. rewrite (bind_Ret _ _ _ _ _ R1). done.
    + eapply kmem_inv_frame; [done|done|]. intros p Hp ->%list_elem_of_singleton.
      apply elem_of_app in Hp as [Hp|]; [|done]. rewrite elem_of_reverse in Hp. set_solver.
    + cbn [pm_mem]. eapply same_except_trans; [exact Hse1|exact Hst|set_solver|set_solver].
    + intros j Hj Hne. cbn [pm_mem]. transitivity (load64 (pm_mem s1) (t + 8 * j)).
      * apply ld_ext, agree_st. lia.
      * destruct Hj. eapply same_except_load; [exact Hse1|apply Ht|done|lia|unfold PGSIZE; lia].
  - exists s. split_and!; [|done|apply same_except_refl|done].
    intros k. rewrite bind_load. rewrite Ev. done.
Qed.

(** The rest of the loop sees the entries and subtrees it saw at the start. *)
Lemma rest_pages_step m m1 d t i n :
  0 <= i -> i + Z.of_nat n < 512 -> t mod PGSIZE = 0 -> Forall page_ok (rest_pages m d t (i + 1) n) ->
  same_except (t :: sub_pages m d t i) m m1 ->
  (forall j, okidx j -> j <> i -> load64 m1 (t + 8 * j) = load64 m (t + 8 * j)) ->
  NoDup (sub_pages m d t i ++ rest_pages m d t (i + 1) n ++ [t]) ->
  (forall j, i < j < i + 1 + Z.of_nat n -> child m1 t j = child m t j /\
     forall c, child m t j = Some c -> forall a, a ∈ pages_of m d c -> agree a PGSIZE m m1) /\
  rest_pages m1 d t (i + 1) n = rest_pages m d t (i + 1) n.
Proof.
  intros Hi Hn Ht Hok Hse Hent Hnd.
  apply NoDup_app in Hnd as (_ & Hdis & (_ & Hdt & _)%NoDup_app).
  assert (Hj : forall j, i < j < i + 1 + Z.of_nat n -> child m1 t j = child m t j /\
     forall c, child m t j = Some c -> forall a, a ∈ pages_of m d c -> agree a PGSIZE m m1).
  { intros j Hj. split; [unfold child; by rewrite Hent by (unfold okidx; lia)|].
    intros c Hc a Ha. assert (Har : a ∈ rest_pages m d t (i + 1) n).
    { apply elem_rest_pages. exists j. split; [lia|]. unfold sub_pages. by rewrite Hc. }
    apply Hse; [by apply (proj1 (list.Forall_forall _ _) Hok a Har)|].
    intros [->|Hs]%elem_of_cons; [apply (Hdt t Har), list_elem_of_singleton; done|].
    apply (Hdis a Hs), elem_of_app. by left. }
  split; [done|]. apply list_bind_ext_in. intros j (k & ? & ->)%elem_of_zseq.
  destruct (Hj (i + 1 + 1 * k)) as [Ec Hp]; [lia|]. unfold sub_pages. rewrite Ec.
  destruct (child m t (i + 1 + 1 * k)) as [c|] eqn:E; [|done]. by apply pages_of_ext, Hp.
Qed.

Lemma entries_run d n i t s G :
  frees d -> kmem_inv s G -> 0 <= i -> i + Z.of_nat n <= 512 -> page_ok t -> t ∉ G ->
  (forall j, i <= j < i + Z.of_nat n -> has (load64 (pm_mem s) (t + 8 * j)) PTE_V = true ->
     Z.land (load64 (pm_mem s) (t + 8 * j)) RWX = 0 /\
     empty_tree (pm_mem s) d (PTE2PA (load64 (pm_mem s) (t + 8 * j)))) ->
  NoDup (rest_pages (pm_mem s) d t i n ++ [t]) -> Forall page_ok (rest_pages (pm_mem s) d t i n) ->
  (forall a, a ∈ rest_pages (pm_mem s) d t i n -> a ∉ G) ->
  exists s', freewalk_entries (freewalk d) n t i s = Ret tt s' /\
    kmem_inv s' (reverse (rest_pages (pm_mem s) d t i n) ++ G) /\
    same_except (t :: rest_pages (pm_mem s) d t i n) (pm_mem s) (pm_mem s').
Proof.
  intros HF. revert i s G. induction n as [|n IH]; intros i s G Hk Hi Hn Ht HtG He Hnd Hok Hdis.
  { exists s. split_and!; [done|done|apply same_except_refl]. }
  rewrite rest_pages_S in *. rewrite <- app_assoc in Hnd.
  pose proof Hnd as (Hnd1 & Hd1 & Hnd2)%NoDup_app. apply Forall_app in Hok as [Hok1 Hok2].
  destruct (entry_step d t i s G) as (s1 & R1 & Hk1 & Hse1 & Hent1); try done.
  { unfold okidx. lia. } { apply He. lia. }
  { intros a Ha. split; [apply Hdis, elem_of_app; by left|]. intros ->.
    apply (Hd1 t Ha), elem_of_app. right. by apply list_elem_of_singleton. }
  destruct (rest_pages_step (pm_mem s) (pm_mem s1) d t i n) as [Hch Hrp]; try done; [lia|apply Ht|].
  assert (HtR : t ∉ rest_pages (pm_mem s) d t (i + 1) n).
  { apply NoDup_app in Hnd2 as (_ & Hd2 & _). intros Ha. by apply (Hd2 t Ha), list_elem_of_singleton. }
  assert (HtS : t ∉ sub_pages (pm_mem s) d t i) by
    (intros Ha; apply (Hd1 t Ha), elem_of_app; right; by apply list_elem_of_singleton).
  destruct (IH (i + 1) s1 (reverse (sub_pages (pm_mem s) d t i) ++ G)) as (s2 & R2 & Hk2 & Hse2);
    rewrite ?Hrp; try done; try lia.
  - rewrite elem_of_app, elem_of_reverse. naive_solver.
  - intros j Hj. rewrite Hent1 by (unfold okidx; lia). intros Hv.
    destruct (He j ltac:(lia) Hv) as [? Hem]. split; [done|].
    destruct (Hch j) as [_ Hp]; [lia|]. eapply empty_tree_ext; [|exact Hem]. apply Hp.
    unfold child. by rewrite Hv.
  - intros a Ha. rewrite elem_of_app, elem_of_reverse. intros [Ha'|Ha'].
    + apply (Hd1 a Ha'), elem_of_app. by left.
    + apply (Hdis a); [|done]. apply elem_of_app. by right.
  - rewrite Hrp in *. exists s2. split_and!.
    + cbn [freewalk_entries]. rewrite R1. done.
    + by rewrite reverse_app, <- app_assoc.
    + eapply same_except_trans; [exact Hse1|exact Hse2| |]; clear; set_solver.
Qed.

Lemma frees_all d : frees d.
Proof.
  induction d as [|d IH]; intros t s G Hk He Hnd Hok Hdis; [by destruct He|].
  change (pages_of (pm_mem s) (S d) t) with (rest_pages (pm_mem s) d t 0 512 ++ [t]) in *.
  apply Forall_app in Hok as [Hok [Ht _]%Forall_cons].
  pose proof Hnd as (_ & Hd & _)%NoDup_app.
  assert (HtG : t ∉ G) by (apply Hdis, elem_of_app; right; by apply list_elem_of_singleton).
  assert (HtR : t ∉ rest_pages (pm_mem s) d t 0 512) by
    (intros Ha; by apply (Hd t Ha), list_elem_of_singleton).
  destruct (entries_run d 512 0 t s G) as (s1 & R1 & Hk1 & Hse1); try (done || lia).
  { intros a Ha. apply Hdis, elem_of_app. by left. }
  set (R := rest_pages (pm_mem s) d t 0 512) in *. clearbody R.
  destruct (kfree_run s1 t _ Hk1 Ht) as (s2 & R2 & Hk2 & Hse2 & _).
  { rewrite elem_of_app, elem_of_reverse. by intros [?|?]. }
  exists s2. split_and!.
  - cbn [freewalk]. by rewrite (bind_Ret _ _ _ _ _ R1).
  - by rewrite reverse_app.
  - eapply same_except_trans; [exact Hse1|exact Hse2| |]; clear; set_solver.
Qed.

Lemma elem_pages_of m d t a :
  a ∈ pages_of m d t <-> exists p, (length p < d)%nat /\ Forall okidx p /\ node m t p = Some a.
Proof.
  revert t. induction d as [|d IH]; intros t.
  { split; [by intros ?%not_elem_of_nil|intros (p & ? & _); lia]. }
  cbn [pages_of]. rewrite elem_of_app, list_elem_of_bind, list_elem_of_singleton. split.
  - intros [(i & Ha & Hi%idx_zseq)| ->]; [|exists []; split_and!; [simpl; lia|constructor|done]].
    destruct (child m t i) as [c|] eqn:Ec; [|by apply not_elem_of_nil in Ha].
    apply IH in Ha as (p & ? & ? & ?). exists (i :: p).
    split_and!; [simpl; lia|by constructor|]. simpl. by rewrite Ec.
  - intros ([|i p] & Hl & Hp & Hn); [right; by injection Hn|left].
    simpl in *. apply Forall_cons in Hp as [Hi Hp].
    destruct (child m t i) as [c|] eqn:Ec; [|done]. exists i.
    rewrite Ec, idx_zseq. split; [|done]. apply IH. exists p. split_and!; [lia|done|done].
Qed.

Lemma NoDup_pages_of m d t :
  (forall p q a, (length p < d)%nat -> (length q < d)%nat -> Forall okidx p -> Forall okidx q ->
     node m t p = Some a -> node m t q = Some a -> p = q) ->
  NoDup (pages_of m d t).
Proof.
  revert t. induction d as [|d IH]; intros t Hinj; [constructor|].
  assert (Hsub : forall i a, a ∈ sub_pages m d t i -> exists p,
    (length p < d)%nat /\ Forall okidx p /\ node m t (i :: p) = Some a).
  { intros i a. unfold sub_pages. simpl. destruct (child m t i) as [c|]; [|by intros ?%not_elem_of_nil].
    by intros ?%elem_pages_of. }
  change (pages_of m (S d) t) with ((zseq 0 512 1 ≫= sub_pages m d t) ++ [t]).
  apply NoDup_app. split_and!; [apply NoDup_bind| |apply NoDup_singleton].
  - intros i j a Hi%idx_zseq Hj%idx_zseq (p & ? & ? & ?)%Hsub (q & ? & ? & ?)%Hsub.
    assert (i :: p = j :: q) as [=]; [|done].
    apply (Hinj (i :: p) (j :: q) a); (done || (by constructor) || (simpl; lia)).
  - intros i Hi%idx_zseq. unfold sub_pages. destruct (child m t i) as [c|] eqn:Ec; [|constructor].
    apply IH. intros p q a ?????? . assert (i :: p = i :: q) as [=]; [|done].
    apply (Hinj (i :: p) (i :: q) a); simpl; rewrite ?Ec; (done || (by constructor) || lia).
  - apply NoDup_zseq. done.
  - intros a (i & (p & ? & ? & ?)%Hsub & Hi%idx_zseq)%list_elem_of_bind ->%list_elem_of_singleton.
    assert ([] = i :: p); [|done]. apply (Hinj [] (i :: p) t); (done || (by constructor) || (simpl; lia)).
Qed.

Lemma tree_pages m root a : tree_page m root a <-> a ∈ pages_of m 3 root.
Proof.
  rewrite elem_pages_of. unfold tree_page, okpath.
  split; intros (p & H1 & H2); exists p; [destruct H1|destruct H2]; split_and!; (done || lia).
Qed.

Lemma PX_make i j k :
  0 <= i < 256 -> okidx j -> okidx k ->
  let va := i * 2 ^ 30 + j * 2 ^ 21 + k * 2 ^ 12 in
  0 <= va < MAXVA /\ leaf_path va = [i; j] /\ PX 0 va = k.
Proof.
  intros Hi [??] [??] va. rewrite MAXVA_eq. assert (Hva : 0 <= va < 274877906944) by (unfold va; lia).
  split; [done|]. unfold leaf_path. rewrite !PX_div by lia. simpl Z.add. simpl Z.mul. subst va.
  change (2 ^ 30) with 1073741824. change (2 ^ 21) with 2097152. change (2 ^ 12) with 4096.
  split; [f_equal; [|f_equal]|]; Z.to_euclidean_division_equations; lia.
Qed.

Lemma unmapped_empty m root :
  pt_wf m root -> (forall va, 0 <= va < MAXVA -> ~ mapped m root va) -> empty_tree m 3 root.
Proof.
  intros Hwf Hun. cbn [empty_tree]. intros i Hi Hv. destruct (wf_inner m root Hwf [] root i) as [Hz Hlt]; try done; [apply okpath_nil|simpl; lia|].
  split; [done|]. intros j Hj Hv'. set (t1 := PTE2PA (load64 m (root + 8 * i))) in *.
  assert (Hn1 : node m root [i] = Some t1) by (simpl; unfold child; by rewrite Hv).
  destruct (wf_inner m root Hwf [i] t1 j) as [Hz' _]; try done.
  { split; [simpl; lia|by apply Forall_singleton]. }
  split; [done|]. intros k Hk Hv''. exfalso. set (t2 := PTE2PA (load64 m (t1 + 8 * j))) in *.
  assert (Hn2 : node m root [i; j] = Some t2).
  { change [i; j] with ([i] ++ [j]). rewrite node_snoc, Hn1. simpl. unfold child. by rewrite Hv'. }
  destruct (PX_make i j k) as (Hva & Hl & H0); [destruct Hi; auto|done|done|].
  apply (Hun _ Hva). unfold mapped, pte_of. by rewrite Hl, Hn2, H0.
Qed.

Lemma freewalk_run s root F :
  pt_inv s root F -> (forall va, 0 <= va < MAXVA -> ~ mapped (pm_mem s) root va) ->
  exists s' F', freewalk 3 root s = Ret tt s' /\ kmem_inv s' F' /\
    (forall p, p ∈ F' <-> p ∈ F \/ tree_page (pm_mem s) root p) /\
    (forall p, p mod PGSIZE = 0 -> ~ tree_page (pm_mem s) root p -> agree p PGSIZE (pm_mem s) (pm_mem s')).
Proof.
  intros [Hk Hwf Hdis] Hun.
  destruct (frees_all 3 root s F) as (s' & R & Hk' & Hse); [done|by apply unmapped_empty|..].
  - apply NoDup_pages_of. intros p q a ????. apply (wf_inj _ _ Hwf); split; (done || lia).
  - apply list.Forall_forall. intros a (p & ? & ? & Hn)%elem_pages_of.
    apply (wf_page _ _ Hwf p); [split; (done || lia)|done].
  - intros a Ha. apply Hdis. by apply tree_pages.
  - eexists s', _. split_and!; [exact R|exact Hk'| |].
    + intros p. rewrite elem_of_app, elem_of_reverse, tree_pages. tauto.
    + intros p Hp Ht. apply Hse; [done|]. by rewrite <- tree_pages.
Qed.

Lemma uvmfree_run s root F lim sz :
  as_inv s root F lim -> 0 <= sz <= MAXVA -> PGROUNDUP sz <= lim ->
  (forall va, PGROUNDUP sz <= va < MAXVA -> ~ mapped (pm_mem s) root va) ->
  exists s' F', uvmfree root sz s = Ret tt s' /\ kmem_inv s' F' /\
    (forall p, p ∈ F' <-> p ∈ F \/ tree_page (pm_mem s) root p \/
                          frame_in (pm_mem s) root 0 (PGROUNDUP sz) p) /\
    (forall p, p mod PGSIZE = 0 -> ~ tree_page (pm_mem s) root p ->
       ~ frame_in (pm_mem s) root 0 (PGROUNDUP sz) p -> agree p PGSIZE (pm_mem s) (pm_mem s')).
Proof.
  intros Has Hsz Hlim Hhi. pose proof (as_lim _ _ _ _ Has). pose proof MAXVA_eq.
  destruct (PGROUNDUP_user sz Hsz) as [Hb Hm]. pose proof (pages_between 0 _ eq_refl Hm) as HD.
  rewrite Z.sub_0_r, Z.add_0_l in HD. assert (HP : PGSIZE = 4096) by done.
  assert (exists s1 F1, (if 0 <? sz then uvmunmap root 0 (PGROUNDUP sz / PGSIZE) true else mret tt) s = Ret tt s1 /\
    pt_inv s1 root F1 /\ cut root 0 (PGROUNDUP sz) true s F s1 F1) as (s1 & F1 & R1 & Hi1 & C).
  { destruct (Z.ltb_spec 0 sz) as [Hpos|].
    - destruct (uvmunmap_run s root F lim 0 (PGROUNDUP sz / PGSIZE) true) as (s1 & F1 & R & Has1 & C); try done; try lia.
      rewrite Z.add_0_l, <- HD in C. exists s1, F1. split_and!; [done|apply Has1|done].
    - assert (sz = 0) as -> by lia. exists s, F. split_and!; [done|apply Has|apply cut_nil]. }
  destruct (freewalk_run s1 root F1 Hi1) as (s2 & F2 & R2 & Hk2 & HF2 & Hag2).
  { intros va Hva Hma. destruct (cut_kept _ _ _ _ _ _ _ _ va C Hva Hma) as (Hn & Hms & _).
    apply (Hhi va); [lia|done]. }
  assert (Ht : forall p, tree_page (pm_mem s1) root p <-> tree_page (pm_mem s) root p).
  { intros p. apply tree_page_ext, C. }
  exists s2, F2. split_and!; [|done| |].
  - unfold uvmfree. by rewrite (bind_Ret _ _ _ _ _ R1).
  - intros p. rewrite HF2, (cut_free _ _ _ _ _ _ _ _ C), Ht. tauto.
  - intros p Hp Hnt Hnf. eapply agree_trans; [by apply (cut_frame _ _ _ _ _ _ _ _ C)|].
    apply Hag2; [done|]. by rewrite Ht.
Qed.

(** C36: freeing an address space whose mappings all lie below [sz]
    terminates without panic (three levels of recursion suffice) and leaves on
    the free list exactly the pages that were there, the pages of the table and
    the frames it mapped; no other page is touched. *)
Theorem uvmfree_correct s root F lim sz :
  as_inv s root F lim -> 0 <= sz <= MAXVA -> PGROUNDUP sz <= lim ->
  (forall va, PGROUNDUP sz <= va < MAXVA -> ~ mapped (pm_mem s) root va) ->
  exists s' F', uvmfree root sz s = Ret tt s' /\ kmem_inv s' F' /\
    (forall p, p ∈ F' <-> p ∈ F \/ tree_page (pm_mem s) root p \/
                          frame_in (pm_mem s) root 0 (PGROUNDUP sz) p) /\
    (forall p, p mod PGSIZE = 0 -> ~ tree_page (pm_mem s) root p ->
       ~ frame_in (pm_mem s) root 0 (PGROUNDUP sz) p -> agree p PGSIZE (pm_mem s) (pm_mem s')).
Proof. apply uvmfree_run. Qed.

(** ** Creating an address space *)
Lemma zero_node m c p :
  (forall i, okidx i -> load64 m (c + 8 * i) = 0) -> okpath p ->
  node m c p = match p with [] => Some c | _ => None end.
Proof.
  intros Hz [_ Hp]. destruct p as [|i p]; [done|]. apply Forall_cons in Hp as [Hi _].
  simpl. unfold child. by rewrite Hz.
Qed.

Lemma zero_wf m c :
  page_ok c -> (forall i, okidx i -> load64 m (c + 8 * i) = 0) ->
  pt_wf m c /\ (forall a, tree_page m c a <-> a = c) /\ (forall va, pte_of m c va = 0).
Proof.
  intros Hc Hz. pose proof (fun p => zero_node m c p Hz) as Hn. split_and!; [split| |].
  - intros p a Hp. rewrite Hn by done. destruct p; naive_solver.
  - intros p q a Hp Hq. rewrite !Hn by done. by destruct p, q.
  - intros p t i Hp _ Hi. rewrite Hn by done. destruct p; [|done]. intros [= <-]. by rewrite Hz.
  - intros a. split.
    + intros (p & Hp & E). rewrite Hn in E by done. destruct p; naive_solver.
    + intros ->. exists []. split; [apply okpath_nil|done].
  - intros va. unfold pte_of. rewrite Hn by apply okpath_leaf. done.
Qed.

Lemma uvmcreate_run s c F :
  kmem_inv s (c :: F) ->
  exists s', uvmcreate s = Ret c s' /\ c <> 0 /\ as_inv s' c F MAXVA /\
    (forall va, pte_of (pm_mem s') c va = 0) /\ (forall a, tree_page (pm_mem s') c a <-> a = c) /\
    same_except [c] (pm_mem s) (pm_mem s').
Proof.
  intros Hk. destruct (kalloc_run s c F Hk) as (m1 & R & -> & Hk1).
  assert (Hc : page_ok c) by (eapply Forall_inv, ki_pages, Hk). pose proof (page_ok_range c Hc) as (?&?&?).
  pose proof (ki_nodup _ _ Hk) as [HcF _]%NoDup_cons.
  set (m2 := fill (fill (pm_mem s) c 5 PGSIZE) c 0 PGSIZE).
  assert (Hz : forall i, okidx i -> load64 m2 (c + 8 * i) = 0).
  { intros i [??]. apply load64_fill0; unfold PGSIZE; lia. }
  destruct (zero_wf m2 c Hc Hz) as (Hwf & Ht & Hp).
  exists (mkPmem m2 (load64 (pm_mem s) c)). split_and!; [|lia| |done|done|].
  - unfold uvmcreate. rewrite (bind_Ret _ _ _ _ _ R). destruct (Z.eqb_spec c 0); [lia|]. done.
  - split; [split|done|..]; cbn [pm_mem].
    + eapply kmem_inv_frame in Hk1; [exact Hk1|by apply (same_except_fill c 0)|].
      by intros p ? ->%list_elem_of_singleton.
    + done.
    + by intros a ->%Ht.
    + intros va _. unfold mapped. by rewrite Hp.
    + intros va vb _ _. unfold mapped. by rewrite Hp.
  - eapply same_except_trans; [by apply (same_except_fill c 5)|by apply (same_except_fill c 0)|done|done].
Qed.
End free.
