(* ===== verification/PtCopy.v ===== *)
(** Copying an address space for [fork]: [uvmcopy].

    Two page tables live in the same physical memory; the child's is built
    from free pages only, so the parent's tables, frames and their contents
    are those it had. *)
From S2P Require Import Prelude Riscv PhysMem Kalloc PageTable PtTree PtMap PtUser.

Section copy.
Context `{HL : Layout} `{!LayoutOk}.

(** No page of the address space at [old] belongs to the table at [new]. *)
Definition apart (m : mem) (old new lim : Z) : Prop :=
  (forall p, tree_page m old p -> ~ tree_page m new p) /\
  (forall va, 0 <= va < lim -> mapped m old va -> ~ tree_page m new (PTE2PA (pte_of m old va))).

(** Every frame of [old] holds the same bytes in [m] and [m']. *)
Definition same_frames (m m' : mem) (old lim : Z) : Prop :=
  forall va, 0 <= va < lim -> mapped m old va -> agree (PTE2PA (pte_of m old va)) PGSIZE m m'.

(** What building the table at [new] does to the address space at [old]. *)
Lemma other_kept s old new F lim s' F' :
  as_inv s old F lim -> apart (pm_mem s) old new lim -> kmem_inv s' F' ->
  (forall p, p ∈ F' -> p ∈ F) ->
  (forall p, p mod PGSIZE = 0 -> p ∉ F -> ~ tree_page (pm_mem s) new p ->
     agree p PGSIZE (pm_mem s) (pm_mem s')) ->
  as_inv s' old F' lim /\ (forall va, pte_of (pm_mem s') old va = pte_of (pm_mem s) old va) /\
  (forall p, okpath p -> node (pm_mem s') old p = node (pm_mem s) old p) /\
  same_frames (pm_mem s) (pm_mem s') old lim.
Proof.
  intros [[Hk Hwf Hd] Hlm Hfr Hown] [Ht Hf] Hk' Hsub Hag.
  assert (Hta : forall a, tree_page (pm_mem s) old a -> agree a PGSIZE (pm_mem s) (pm_mem s')).
  { intros a Ha. apply Hag; [|by apply Hd|by apply Ht]. destruct Ha as (p & Hp & E).
    by apply (wf_page _ _ Hwf p). }
  destruct (tree_frame _ _ _ Hta) as [Hn Hp]. split_and!; [|done|done|].
  - split; [split; [done| |]|done|..].
    + eapply pt_wf_ext; [|exact Hwf]. intros p a Hp' _ E. apply Hta. by exists p.
    + intros a. rewrite tree_page_ext by exact Hn. intros Ha Hin. by apply (Hd a Ha), Hsub.
    + intros va Hva. unfold mapped. rewrite Hp. intros Hm. destruct (Hfr va Hva Hm) as (? & HF & ?).
      split_and!; [done|by intros ?%Hsub|]. by rewrite tree_page_ext by exact Hn.
    + intros va vb ??. unfold mapped. rewrite !Hp. by apply Hown.
  - intros va Hva Hm. destruct (Hfr va Hva Hm) as ([? _] & ? & ?). apply Hag; [done|done|by apply Hf].
Qed.

(** [fork]'s plan: the pages the parent has in memory, their flags and bytes. *)
Definition copy_plan (m : mem) (old : Z) : plan := fun v =>
  let e := pte_of m old v in
  if has e PTE_V then Some (PTE_FLAGS e, fun x => rd8 m (PTE2PA e + x)) else None.

Lemma copy_plan_ok m old : plan_ok (copy_plan m old).
Proof.
  intros v perm f. unfold copy_plan. case_match; [|done]. intros [= <- <-].
  unfold PTE_FLAGS. change 0x3FF with (Z.ones 10). rewrite Z.land_ones by lia.
  by apply Z.mod_pos_bound.
Qed.

Lemma page_is_copy m c pa : page_is (copy m c pa PGSIZE) c (fun x => rd8 m (pa + x)).
Proof.
  intros x Hx. unfold rd8, copy. rewrite inr_true by lia. by replace (c + x - c) with x by lia.
Qed.

Lemma unmap_undo root a P lim s F s1 F1 :
  as_inv s root F lim -> grown root 0 a P lim s F s1 F1 ->
  a mod PGSIZE = 0 -> 0 <= a -> a <= lim -> plan_ok P ->
  (forall vb, 0 <= vb < a -> ~ mapped (pm_mem s) root vb) ->
  exists s' F', uvmunmap root 0 (a / PGSIZE) true s1 = Ret tt s' /\ undone root lim s F s' F'.
Proof.
  intros Has G Ha ????. pose proof (as_lim _ _ _ _ Has) as Hlm. pose proof MAXVA_eq.
  pose proof (pages_between 0 a eq_refl Ha) as HD. rewrite Z.sub_0_r, Z.add_0_l in HD.
  assert (HP : PGSIZE = 4096) by done.
  destruct (uvmunmap_run s1 root F1 lim 0 (a / PGSIZE) true) as (s' & F' & R & Has' & C); try done; try lia.
  { apply G. }
  rewrite Z.add_0_l, <- HD in C. exists s', F'. split; [done|]. eapply grown_cut; try done; lia.
Qed.

Section loop.
  Context (old new lim sz : Z) (s0 : pmem) (F0 : list Z).
  Hypothesis Hold : as_inv s0 old F0 lim.
  Hypothesis Hnew : as_inv s0 new F0 lim.
  Hypothesis Hap : apart (pm_mem s0) old new lim.
  Hypothesis Hsz : 0 <= sz <= MAXVA.
  Hypothesis Hlim : PGROUNDUP sz <= lim.
  Hypothesis Hun : forall vb, 0 <= vb < PGROUNDUP sz -> ~ mapped (pm_mem s0) new vb.

Let P := copy_plan (pm_mem s0) old.

Lemma copy_old s F i :
    grown new 0 i P lim s0 F0 s F ->
    as_inv s old F lim /\ (forall va, pte_of (pm_mem s) old va = pte_of (pm_mem s0) old va) /\
    same_frames (pm_mem s0) (pm_mem s) old lim.
  Proof using All.
    intros G. destruct (other_kept s0 old new F0 lim s F) as (?&?&?&?); try done; apply G.
  Qed.

Lemma copy_undo s F i :
    grown new 0 i P lim s0 F0 s F -> i mod PGSIZE = 0 -> 0 <= i -> i < sz ->
    exists s' F', uvmunmap new 0 (i / PGSIZE) true s = Ret tt s' /\ undone new lim s0 F0 s' F'.
  Proof using All.
    intros G Hi ??. destruct (PGROUNDUP_user sz Hsz) as [? _].
    eapply unmap_undo; try done; [lia|apply copy_plan_ok|]. intros vb ?. apply Hun. lia.
  Qed.

  (** The parent's page at [i] is copied to a fresh frame of the child. *)
Lemma copy_page s c F i :
    grown new 0 i P lim s0 F0 s (c :: F) -> spent 0 i F0 (c :: F) -> i mod PGSIZE = 0 -> 0 <= i -> i < sz ->
    let v := pte_of (pm_mem s0) old i in has v PTE_V = true ->
    exists s1 r s3 F3, kalloc s = Ret c s1 /\ c <> 0 /\
      mappages new i PGSIZE c (PTE_FLAGS v) (mkPmem (copy (pm_mem s1) c (PTE2PA v) PGSIZE) (freelist s1)) = Ret r s3 /\
      (r = 0 /\ grown new 0 (i + PGSIZE) P lim s0 F0 s3 F3 /\ spent 0 (i + PGSIZE) F0 F3 \/
       r = -1 /\ short 0 (i + PGSIZE) F0 /\ exists s4, kfree c s3 = Ret tt s4 /\ grown new 0 i P lim s0 F0 s4 [c]).
  Proof using All.
    intros G Hsp Hi Hi0 Hisz v Hv. destruct (PGROUNDUP_user sz Hsz) as [Hb Hbm].
    assert (Hstep : i + PGSIZE <= PGROUNDUP sz).
    { unfold PGSIZE in *. clear -Hi Hisz Hb Hbm. Z.to_euclidean_division_equations. lia. }
    destruct (copy_old s (c :: F) i G) as (HaO & HpO & HfO). pose proof (as_lim _ _ _ _ Hold).
    destruct (as_frame _ _ _ _ HaO i) as (Hpa & HpF & _); [lia|unfold mapped; by rewrite HpO|].
    rewrite HpO in Hpa, HpF. fold v in Hpa, HpF.
    apply (grow_step new 0 i lim (PTE_FLAGS v) P (fun x => rd8 (pm_mem s0) (PTE2PA v + x)) s0 F0 s c F
      (fun m => copy m c (PTE2PA v) PGSIZE) G Hsp); try done; try lia.
    - apply copy_plan_ok.
    - unfold P, copy_plan. fold v. by rewrite Hv.
    - apply Hun. lia.
    - intros m q Hq Hne. apply agree_sym, agree_copy; [done|].
      assert (page_ok c) as [Hc _] by (eapply (Forall_inv (P := page_ok)), ki_pages, pi_free, as_pt, G).
      apply pages_apart; [done..|]. set_solver.
    - intros m Hse. assert (Ha : agree (PTE2PA v) PGSIZE (pm_mem s0) m).
      { eapply agree_trans; [apply HfO; [lia|done]|]. apply Hse; [apply Hpa|set_solver]. }
      intros x Hx. rewrite page_is_copy by done. unfold rd8. by rewrite Ha by lia.
  Qed.

Lemma copy_skip s F i :
    grown new 0 i P lim s0 F0 s F -> i mod PGSIZE = 0 ->
    has (pte_of (pm_mem s0) old i) PTE_V = false -> grown new 0 (i + PGSIZE) P lim s0 F0 s F.
  Proof using All. intros G Hi Hv. apply grown_skip; [done|done|]. unfold P, copy_plan. by rewrite Hv. Qed.

Lemma uvmcopy_loop_run fuel i s F :
    grown new 0 i P lim s0 F0 s F -> spent 0 i F0 F -> i mod PGSIZE = 0 -> 0 <= i < sz + PGSIZE ->
    sz - i <= PGSIZE * (Z.of_nat fuel - 1) -> (0 < fuel)%nat ->
    exists r s' F', uvmcopy_loop fuel old new i sz s = Ret r s' /\
      (r = 0 /\ grown new 0 (PGROUNDUP sz) P lim s0 F0 s' F' \/ r = -1 /\ undone new lim s0 F0 s' F' /\ short 0 (PGROUNDUP sz) F0).
  Proof using All.
    revert i s F. induction fuel as [|fuel IH]; intros i s F G Hsp Hi Hi0 Hfuel Hf0; [lia|].
    destruct (PGROUNDUP_user sz Hsz) as [Hb Hbm]. pose proof MAXVA_eq as HM.
    assert (HP : PGSIZE = 4096) by done. cbn [uvmcopy_loop]. destruct (Z.ltb_spec i sz) as [Hlt|Hge].
    2:{ exists 0, s, F. split; [done|]. left. split; [done|]. assert (PGROUNDUP sz = i) as ->; [|done].
        clear -Hb Hbm Hi Hi0 Hge. unfold PGSIZE in *. Z.to_euclidean_division_equations. lia. }
    destruct (copy_old s F i G) as (HaO & HpO & _).
    assert (Hstep : i + PGSIZE <= PGROUNDUP sz).
    { unfold PGSIZE in *. clear -Hi Hlt Hb Hbm. Z.to_euclidean_division_equations. lia. }
    assert (Hnext : forall s' F', grown new 0 (i + PGSIZE) P lim s0 F0 s' F' -> spent 0 (i + PGSIZE) F0 F' ->
      exists r s2 F2, uvmcopy_loop fuel old new (u64 (i + PGSIZE)) sz s' = Ret r s2 /\
      (r = 0 /\ grown new 0 (PGROUNDUP sz) P lim s0 F0 s2 F2 \/ r = -1 /\ undone new lim s0 F0 s2 F2 /\ short 0 (PGROUNDUP sz) F0)).
    { intros s' F' G' Hsp'. rewrite u64_small by lia. apply (IH (i + PGSIZE) s' F'); try done; try lia.
      rewrite Zplus_mod, Hi. done. }
    assert (Hsp2 : spent 0 (i + PGSIZE) F0 F) by (unfold spent in *; lia).
    rewrite (bind_Ret _ _ _ _ _ (walk_noalloc s old i ltac:(lia))).
    destruct (pte_addr_load (pm_mem s) old i ltac:(apply HaO)) as [(-> & _ & E)|[? E]]; rewrite HpO in E.
    { cbn [Z.eqb]. apply Hnext with F; [|done]. apply copy_skip; [done|done|]. by rewrite E. }
    destruct (Z.eqb_spec (pte_addr (pm_mem s) old i) 0); [lia|]. rewrite bind_load, E.
    destruct (has (pte_of (pm_mem s0) old i) PTE_V) eqn:Hv; cbn [negb];
      [|by apply Hnext with F; [apply copy_skip|]].
    destruct F as [|c F].
    - rewrite (bind_Ret _ _ _ _ _ (kalloc_empty s ltac:(apply G))). cbn [Z.eqb].
      destruct (copy_undo s [] i G) as (s' & F' & R & U); [done|lia|lia|].
      rewrite (bind_Ret _ _ _ _ _ R). exists (-1), s', F'. split; [done|]. right.
      split_and!; [done|done|]. unfold spent, short in *. cbn [length] in Hsp. lia.
    - destruct (copy_page s c F i G Hsp Hi ltac:(lia) Hlt Hv) as (s1 & r & s3 & F3 & R1 & Hc0 & R3 & Hr).
      rewrite (bind_Ret _ _ _ _ _ R1). destruct (Z.eqb_spec c 0); [done|].
      rewrite bind_move, (bind_Ret _ _ _ _ _ R3).
      destruct Hr as [(-> & G3 & ?)|(-> & Hsh & s4 & R4 & G4)]; cbn [Z.eqb negb]; [by apply Hnext with F3|].
      rewrite (bind_Ret _ _ _ _ _ R4).
      destruct (copy_undo s4 [c] i G4) as (s' & F' & R & U); [done|lia|lia|].
      rewrite (bind_Ret _ _ _ _ _ R). exists (-1), s', F'. split; [done|]. right.
      split_and!; [done|done|]. unfold short in *. lia.
  Qed.

Lemma uvmcopy_run : exists r s' F', uvmcopy old new sz s0 = Ret r s' /\
      (r = 0 /\ grown new 0 (PGROUNDUP sz) P lim s0 F0 s' F' \/ r = -1 /\ undone new lim s0 F0 s' F' /\ short 0 (PGROUNDUP sz) F0).
  Proof using All.
    assert (HP : PGSIZE = 4096) by done. unfold uvmcopy. eapply uvmcopy_loop_run; try done; try lia.
    - by apply grown_nil.
    - unfold spent. lia.
    - pose proof (Z.div_mod sz PGSIZE). pose proof (Z.mod_pos_bound sz PGSIZE).
      pose proof (Z.div_pos sz PGSIZE). lia.
  Qed.
End loop.

(** C37: copying a parent's memory into an empty child terminates
    without panic.  On success (0) every page of the child below [sz] that the
    parent has in memory is mapped with the parent's flags to a frame of its own
    that holds the parent's bytes, and no other page is mapped; on failure (-1),
    which takes a free list with fewer than three pages per page of [sz], the
    child is empty again and every page taken is back on the free list or a
    table page of the child.  Either way the parent's page table, its frames and
    their contents are unchanged. *)
Theorem uvmcopy_correct old new lim sz s F :
  as_inv s old F lim -> as_inv s new F lim -> apart (pm_mem s) old new lim ->
  0 <= sz <= MAXVA -> PGROUNDUP sz <= lim ->
  (forall vb, 0 <= vb < PGROUNDUP sz -> ~ mapped (pm_mem s) new vb) ->
  exists r s' F', uvmcopy old new sz s = Ret r s' /\
    as_inv s' old F' lim /\ (forall va, pte_of (pm_mem s') old va = pte_of (pm_mem s) old va) /\
    same_frames (pm_mem s) (pm_mem s') old lim /\
    (r = 0 /\ grown new 0 (PGROUNDUP sz) (copy_plan (pm_mem s) old) lim s F s' F' \/
     r = -1 /\ undone new lim s F s' F' /\ short 0 (PGROUNDUP sz) F).
Proof.
  intros Hold Hnew Hap Hsz Hlim Hun.
  destruct (uvmcopy_run old new lim sz s F Hold Hnew Hap Hsz Hlim Hun) as (r & s' & F' & R & Hr).
  exists r, s', F'. split; [done|].
  assert (kmem_inv s' F' /\ (forall p, p ∈ F' -> p ∈ F) /\
    (forall p, p mod PGSIZE = 0 -> p ∉ F -> ~ tree_page (pm_mem s) new p ->
       agree p PGSIZE (pm_mem s) (pm_mem s'))) as (?&?&?).
  { destruct Hr as [[_ G]|(_ & U & _)]; split_and!; try apply G; try apply U.
    all: intros p Hp; apply (un_leak _ _ _ _ _ _ U); by left. }
  destruct (other_kept s old new F lim s' F') as (?&?&?&?); try done.
Qed.
End copy.
