(* ===== verification/Memstat.v ===== *)
(** Per-process page bookkeeping, kernel/memstat.h and the memstat and victim
    functions of kernel/vm.c and kernel/vm_bonus.c.

    The table has a fixed number of entries; an entry is reused once it is
    UNMAPPED, and keeps its stale address until then.  Several scans in the
    kernel look only at the address, so the invariant [tbl_ok] says that no
    entry before a live one has its address.  [fifo_rel] relates the table to
    the queue of resident pages in order of arrival. *)
From S2P Require Import Prelude Riscv.

Definition MAX_PAGES_INFO : nat := 128.
Definition UNMAPPED : Z := 0.
Definition RESIDENT : Z := 1.
Definition SWAPPED : Z := 2.

Record page_stat : Type := mkPageStat {
  ps_va : Z; ps_state : Z; ps_dirty : Z; ps_seq : Z; ps_slot : Z }.

Record proc_mem_stat : Type := mkMemStat {
  ms_pid : Z; num_pages_total : Z; num_resident_pages : Z; ms_num_swapped : Z;
  next_fifo_seq : Z; pages : list page_stat }.

#[global] Instance page_stat_eq_dec : EqDecision page_stat.
Proof. solve_decision. Defined.

#[global] Instance page_stat_inhabited : Inhabited page_stat := populate (mkPageStat 0 0 0 0 0).

Definition set_pages (ms : proc_mem_stat) (l : list page_stat) : proc_mem_stat :=
  mkMemStat (ms_pid ms) (num_pages_total ms) (num_resident_pages ms) (ms_num_swapped ms) (next_fifo_seq ms) l.
Definition set_resident (ms : proc_mem_stat) (n : Z) : proc_mem_stat :=
  mkMemStat (ms_pid ms) (num_pages_total ms) n (ms_num_swapped ms) (next_fifo_seq ms) (pages ms).
Definition set_next_seq (ms : proc_mem_stat) (n : Z) : proc_mem_stat :=
  mkMemStat (ms_pid ms) (num_pages_total ms) (num_resident_pages ms) (ms_num_swapped ms) n (pages ms).

(** [p->memstat.pages[i]] and an assignment to it. *)
Definition page_at (ms : proc_mem_stat) (i : nat) : page_stat := pages ms !!! i.
Definition set_page (ms : proc_mem_stat) (i : nat) (x : page_stat) : proc_mem_stat :=
  set_pages ms (<[i := x]> (pages ms)).

Definition is_live (x : page_stat) : bool := negb (ps_state x =? UNMAPPED).
Definition is_resident (x : page_stat) : bool := ps_state x =? RESIDENT.

(** [None] is the index -1. *)
Definition memstat_find_index (ms : proc_mem_stat) (va : Z) : option nat * proc_mem_stat :=
  match first_index (fun x => is_live x && (ps_va x =? u32 va)) (pages ms) with
  | Some i => (Some i, ms)
  | None =>
      match first_index (fun x => ps_state x =? UNMAPPED) (pages ms) with
      | Some i => let x := page_at ms i in
                  (Some i, set_page ms i (mkPageStat (u32 va) (ps_state x) (ps_dirty x) (ps_seq x) (ps_slot x)))
      | None => (None, ms)
      end
  end.

Definition memstat_mark_resident (ms : proc_mem_stat) (va seq : Z) : proc_mem_stat :=
  match memstat_find_index ms va with
  | (Some idx, ms) =>
      let x := page_at ms idx in
      let ms := if negb (ps_state x =? RESIDENT) then set_resident ms (i32 (num_resident_pages ms + 1)) else ms in
      set_page ms idx (mkPageStat (ps_va x) RESIDENT 0 seq (-1))
  | (None, ms) => ms
  end.

Definition drop_resident (ms : proc_mem_stat) (x : page_stat) : proc_mem_stat :=
  if (ps_state x =? RESIDENT) && (0 <? num_resident_pages ms)
  then set_resident ms (num_resident_pages ms - 1) else ms.

Definition memstat_mark_unmapped (ms : proc_mem_stat) (va : Z) : proc_mem_stat :=
  match memstat_find_index ms va with
  | (Some idx, ms) =>
      let x := page_at ms idx in
      set_page (drop_resident ms x) idx (mkPageStat (ps_va x) UNMAPPED (ps_dirty x) (ps_seq x) (-1))
  | (None, ms) => ms
  end.

Definition memstat_mark_swapped (ms : proc_mem_stat) (va slot : Z) : proc_mem_stat :=
  match memstat_find_index ms va with
  | (Some idx, ms) =>
      let x := page_at ms idx in
      set_page (drop_resident ms x) idx (mkPageStat (ps_va x) SWAPPED (ps_dirty x) (ps_seq x) slot)
  | (None, ms) => ms
  end.

(** ** Victim selection *)
(** The loop's comparison with the victim so far, -1 being none. *)
Definition better (seq va victim victim_seq victim_va : Z) : bool :=
  (victim =? -1) || (u32 seq <? u32 victim_seq) ||
  ((u32 seq =? u32 victim_seq) && (va <? victim_va)).

Fixpoint fifo_loop (l : list page_stat) (i victim victim_seq victim_va : Z) : Z :=
  match l with
  | [] => victim
  | x :: l =>
      if is_resident x && better (ps_seq x) (ps_va x) victim victim_seq victim_va
      then fifo_loop l (i + 1) i (ps_seq x) (ps_va x)
      else fifo_loop l (i + 1) victim victim_seq victim_va
  end.

Definition select_victim_fifo_index (ms : proc_mem_stat) : Z := fifo_loop (pages ms) 0 (-1) 0 0.

(** vm_bonus.c: the oldest clean page, or the oldest page if none is clean. *)
Fixpoint cleanfifo_loop (l : list page_stat) (i vc vc_seq vc_va vf vf_seq vf_va : Z) : Z * Z :=
  match l with
  | [] => (vc, vf)
  | x :: l =>
      if is_resident x then
        let '(vc, vc_seq, vc_va) :=
          if (ps_dirty x =? 0) && better (ps_seq x) (ps_va x) vc vc_seq vc_va
          then (i, ps_seq x, ps_va x) else (vc, vc_seq, vc_va) in
        let '(vf, vf_seq, vf_va) :=
          if better (ps_seq x) (ps_va x) vf vf_seq vf_va
          then (i, ps_seq x, ps_va x) else (vf, vf_seq, vf_va) in
        cleanfifo_loop l (i + 1) vc vc_seq vc_va vf vf_seq vf_va
      else cleanfifo_loop l (i + 1) vc vc_seq vc_va vf vf_seq vf_va
  end.

(** The index, and whether a clean page was chosen. *)
Definition select_victim_cleanfifo_index (ms : proc_mem_stat) : Z * bool :=
  let '(vc, vf) := cleanfifo_loop (pages ms) 0 (-1) 0 0 (-1) 0 0 in
  if 0 <=? vc then (vc, true) else (vf, false).

(** What the policies choose from: the order of arrival, ties by address. *)
Definition key_lt (x y : page_stat) : Prop :=
  u32 (ps_seq x) < u32 (ps_seq y) \/ (u32 (ps_seq x) = u32 (ps_seq y) /\ ps_va x < ps_va y).

(** [i] is the first least entry among those [f] allows. *)
Definition least (f : page_stat -> bool) (l : list page_stat) (i : nat) (x : page_stat) : Prop :=
  l !! i = Some x /\ f x = true /\
  (forall j y, l !! j = Some y -> f y = true -> ~ key_lt y x) /\
  (forall j y, (j < i)%nat -> l !! j = Some y -> f y = true -> key_lt x y).

(** The table invariant. *)
Record tbl_ok (ms : proc_mem_stat) : Prop := {
  tb_len : length (pages ms) = MAX_PAGES_INFO;
  tb_first : forall i j x y, (i < j)%nat -> pages ms !! i = Some x -> pages ms !! j = Some y ->
    is_live y = true -> ps_va x <> ps_va y
}.

(** ** Correctness of the selections *)
Fixpoint sel_loop (f : page_stat -> bool) (l : list page_stat) (i v vs va : Z) : Z :=
  match l with
  | [] => v
  | x :: l => if f x && better (ps_seq x) (ps_va x) v vs va
              then sel_loop f l (i + 1) i (ps_seq x) (ps_va x)
              else sel_loop f l (i + 1) v vs va
  end.

Definition clean (x : page_stat) : bool := is_resident x && (ps_dirty x =? 0).

Lemma fifo_loop_sel l i v vs va : fifo_loop l i v vs va = sel_loop is_resident l i v vs va.
Proof. revert i v vs va. induction l as [|x l IH]; intros; [done|]. simpl. by rewrite !IH. Qed.

Lemma cleanfifo_loop_sel l i vc cs ca vf fs fa :
  cleanfifo_loop l i vc cs ca vf fs fa = (sel_loop clean l i vc cs ca, sel_loop is_resident l i vf fs fa).
Proof.
  revert i vc cs ca vf fs fa. induction l as [|x l IH]; intros; [done|]. simpl. unfold clean.
  destruct (is_resident x); simpl; [|apply IH].
  destruct ((ps_dirty x =? 0) && better (ps_seq x) (ps_va x) vc cs ca) eqn:E1;
    destruct (better (ps_seq x) (ps_va x) vf fs fa) eqn:E2; apply IH.
Qed.

(** The loop's state after the entries [pre]. *)
Definition sel_state (f : page_stat -> bool) (pre : list page_stat) (v vs va : Z) : Prop :=
  (v = -1 /\ forall j y, pre !! j = Some y -> f y = false) \/
  (exists k x, v = Z.of_nat k /\ vs = ps_seq x /\ va = ps_va x /\ least f pre k x).

Lemma better_spec x v vs va y :
  v <> -1 -> vs = ps_seq y -> va = ps_va y ->
  better (ps_seq x) (ps_va x) v vs va = true <-> key_lt x y.
Proof.
  intros Hv -> ->. unfold better, key_lt. destruct (Z.eqb_spec v (-1)); [done|]. simpl.
  rewrite orb_true_iff, andb_true_iff, Z.ltb_lt, Z.eqb_eq, Z.ltb_lt. done.
Qed.

Lemma least_snoc_keep f pre k x y :
  least f pre k x -> (f y = true -> ~ key_lt y x) -> least f (pre ++ [y]) k x.
Proof.
  intros (Hk & Hf & Hmin & Hfst) Hy. pose proof (lookup_lt_Some _ _ _ Hk). split_and!; [|done|..].
  - by rewrite lookup_app_l.
  - intros j z [Hz|[Hj Hz]]%lookup_app_Some; [by eapply Hmin|].
    apply list_lookup_singleton_Some in Hz as [_ <-]. done.
  - intros j z Hj Hz. rewrite lookup_app_l in Hz by lia. by eapply Hfst.
Qed.

Lemma sel_snoc f pre v vs va x :
  sel_state f pre v vs va ->
  if f x && better (ps_seq x) (ps_va x) v vs va
  then sel_state f (pre ++ [x]) (Z.of_nat (length pre)) (ps_seq x) (ps_va x)
  else sel_state f (pre ++ [x]) v vs va.
Proof.
  intros Hst. destruct (f x) eqn:Ef; cbn [andb].
  2:{ destruct Hst as [[-> Hn]|(k & y & -> & -> & -> & Hl)].
      - left. split; [done|]. intros j z [Hz|[_ Hz]]%lookup_app_Some; [by eapply Hn|].
        apply list_lookup_singleton_Some in Hz as [_ <-]. done.
      - right. exists k, y. split_and!; try done. apply least_snoc_keep; [done|congruence]. }
  destruct Hst as [[-> Hn]|(k & y & -> & -> & -> & Hl)].
  - cbn [better Z.eqb orb]. right. exists (length pre), x. split_and!; try done; split_and!; try done.
    + by rewrite list_lookup_middle.
    + intros j z [Hz|[_ Hz]]%lookup_app_Some Hfz; [by rewrite (Hn j z Hz) in Hfz|].
      apply list_lookup_singleton_Some in Hz as [_ <-]. unfold key_lt. lia.
    + intros j z Hj Hz. rewrite lookup_app_l in Hz by done. by rewrite (Hn j z Hz).
  - destruct (better (ps_seq x) (ps_va x) (Z.of_nat k) (ps_seq y) (ps_va y)) eqn:Eb.
    + apply (better_spec x (Z.of_nat k) _ _ y) in Eb; [|lia|done|done].
      destruct Hl as (Hk & Hf & Hmin & Hfst). right. exists (length pre), x.
      assert (Hall : forall j z, pre !! j = Some z -> f z = true -> key_lt x z).
      { intros j z Hz Hfz. specialize (Hmin j z Hz Hfz). unfold key_lt in *. lia. }
      split_and!; try done; split_and!; try done.
      * by rewrite list_lookup_middle.
      * intros j z [Hz|[_ Hz]]%lookup_app_Some Hfz; [specialize (Hall j z Hz Hfz); unfold key_lt in *; lia|].
        apply list_lookup_singleton_Some in Hz as [_ <-]. unfold key_lt. lia.
      * intros j z Hj Hz. rewrite lookup_app_l in Hz by done. by apply (Hall j).
    + right. exists k, y. split_and!; try done. apply least_snoc_keep; [done|].
      intros _ Hlt. apply (better_spec x (Z.of_nat k) (ps_seq y) (ps_va y) y) in Hlt; [congruence|lia|done|done].
Qed.

Lemma sel_loop_spec f pre l v vs va :
  sel_state f pre v vs va -> exists vs' va', sel_state f (pre ++ l) (sel_loop f l (Z.of_nat (length pre)) v vs va) vs' va'.
Proof.
  revert pre v vs va. induction l as [|x l IH]; intros pre v vs va Hst; cbn [sel_loop].
  { rewrite app_nil_r. by exists vs, va. }
  pose proof (sel_snoc f pre v vs va x Hst) as Hs.
  replace (Z.of_nat (length pre) + 1) with (Z.of_nat (length (pre ++ [x]))) by (rewrite length_app; simpl; lia).
  rewrite (assoc_L (++) pre [x] l : pre ++ x :: l = _). destruct (f x && _); by apply IH.
Qed.

Lemma sel_spec f l :
  (sel_loop f l 0 (-1) 0 0 = -1 /\ forall j y, l !! j = Some y -> f y = false) \/
  (exists k x, sel_loop f l 0 (-1) 0 0 = Z.of_nat k /\ least f l k x).
Proof.
  destruct (sel_loop_spec f [] l (-1) 0 0) as (vs & va & [H|(k & x & H & _ & _ & Hl)]).
  - left. split; [done|]. intros j y Hj. by rewrite lookup_nil in Hj.
  - by left.
  - right. by exists k, x.
Qed.

(** the FIFO policy returns -1 exactly when no page is
    resident, and otherwise the resident page that arrived first (least
    sequence number as an unsigned int, ties broken by address, then index). *)
Theorem select_victim_fifo_correct ms :
  (select_victim_fifo_index ms = -1 /\ forall j y, pages ms !! j = Some y -> is_resident y = false) \/
  (exists k x, select_victim_fifo_index ms = Z.of_nat k /\ least is_resident (pages ms) k x).
Proof. unfold select_victim_fifo_index. rewrite fifo_loop_sel. apply sel_spec. Qed.

(** the clean-first policy returns the resident clean page
    that arrived first when there is one, else the page the FIFO policy returns. *)
Theorem select_victim_cleanfifo_correct ms :
  let '(i, b) := select_victim_cleanfifo_index ms in
  (b = true /\ exists k x, i = Z.of_nat k /\ least clean (pages ms) k x) \/
  (b = false /\ (forall j y, pages ms !! j = Some y -> clean y = false) /\
   i = select_victim_fifo_index ms).
Proof.
  unfold select_victim_cleanfifo_index, select_victim_fifo_index.
  rewrite cleanfifo_loop_sel, fifo_loop_sel.
  destruct (sel_spec clean (pages ms)) as [[-> Hn]|(k & x & -> & Hl)].
  - destruct (Z.leb_spec 0 (-1)); [lia|]. by right.
  - destruct (Z.leb_spec 0 (Z.of_nat k)); [|lia]. left. split; [done|]. by exists k, x.
Qed.

(** ** The table invariant *)
Definition slot_for (ms : proc_mem_stat) (va : Z) : option nat := fst (memstat_find_index ms va).

Definition with_va (va : Z) (x : page_stat) : page_stat :=
  mkPageStat va (ps_state x) (ps_dirty x) (ps_seq x) (ps_slot x).

Definition live_at (ms : proc_mem_stat) (va : Z) (i : nat) (x : page_stat) : Prop :=
  pages ms !! i = Some x /\ is_live x = true /\ ps_va x = va.

Lemma page_at_lookup ms i x : pages ms !! i = Some x -> page_at ms i = x.
Proof. apply list_lookup_total_correct. Qed.

(** Where [memstat_find_index] lands. *)
Lemma slot_for_spec ms va i :
  slot_for ms va = Some i ->
  exists x, pages ms !! i = Some x /\
    (live_at ms (u32 va) i x \/
     (ps_state x = UNMAPPED /\ (forall j y, ~ live_at ms (u32 va) j y) /\
      forall j y, (j < i)%nat -> pages ms !! j = Some y -> is_live y = true)).
Proof.
  unfold slot_for, memstat_find_index.
  destruct (first_index _ (pages ms)) as [k|] eqn:E1; simpl.
  - intros [= <-]. apply first_index_Some in E1 as [(x & Hx & [Hl Hv%Z.eqb_eq]%andb_true_iff) _].
    exists x. split; [done|]. by left.
  - destruct (first_index (fun x => ps_state x =? UNMAPPED) (pages ms)) as [k|] eqn:E2; simpl; [|done]. intros [= <-].
    apply first_index_Some in E2 as [(x & Hx & Hu%Z.eqb_eq) Hb].
    exists x. split; [done|]. right. split_and!; [done| |].
    + intros j y (Hy & Hl & Hv). rewrite first_index_None in E1. specialize (E1 j y Hy).
      rewrite Hl, Hv, Z.eqb_refl in E1. done.
    + intros j y Hj Hy. specialize (Hb j y Hj Hy). cbv beta in Hb. unfold is_live. by rewrite Hb.
Qed.

Lemma find_index_slot ms va :
  memstat_find_index ms va =
  match slot_for ms va with
  | Some i => (Some i, set_page ms i (with_va (u32 va) (page_at ms i)))
  | None => (None, ms)
  end.
Proof.
  unfold slot_for, memstat_find_index.
  destruct (first_index _ (pages ms)) as [k|] eqn:E1; simpl.
  - f_equal. apply first_index_Some in E1 as [(x & Hx & [_ Hv%Z.eqb_eq]%andb_true_iff) _].
    rewrite (page_at_lookup _ _ _ Hx). unfold with_va. rewrite <- Hv.
    unfold set_page, set_pages. destruct x, ms; simpl in *. by rewrite list_insert_id.
  - by destruct (first_index (fun x => ps_state x =? UNMAPPED) (pages ms)) as [k|] eqn:E2.
Qed.

Lemma put_ok ms i y :
  tbl_ok ms ->
  (forall j z, pages ms !! j = Some z -> ((i < j)%nat -> is_live z = true -> ps_va z <> ps_va y) /\
     ((j < i)%nat -> is_live y = true -> ps_va z <> ps_va y)) ->
  tbl_ok (set_page ms i y).
Proof.
  intros [Hlen Hf] Hy. split; simpl; [by rewrite length_insert|].
  intros j k a b Hjk [(-> & <- & _)|[Hj Ha]]%list_lookup_insert_Some [(-> & <- & _)|[Hk Hb]]%list_lookup_insert_Some Hl.
  - lia.
  - intros E. by apply (proj1 (Hy k b Hb) Hjk Hl).
  - by apply (proj2 (Hy j a Ha) Hjk Hl).
  - by eapply Hf.
Qed.

Lemma slot_put_ok ms va i y :
  tbl_ok ms -> slot_for ms va = Some i -> ps_va y = u32 va -> tbl_ok (set_page ms i y).
Proof.
  intros Hok Hs Hv. apply put_ok; [done|]. intros j z Hz. rewrite Hv.
  destruct (slot_for_spec ms va i Hs) as (x & Hx & [(_ & Hl & E)|(Hu & Hnone & Hbef)]).
  - rewrite <- E. split; [|intros Hj _; by eapply (tb_first _ Hok j i)].
    intros Hj Hlz. apply not_eq_sym. by eapply (tb_first _ Hok i j).
  - split; [intros Hj Hlz E; by apply (Hnone j z)|].
    intros Hj _ E. apply (Hnone j z). split_and!; [done|by eapply Hbef|done].
Qed.

Lemma set_page_twice ms i x y : set_page (set_page ms i x) i y = set_page ms i y.
Proof. unfold set_page, set_pages. simpl. by rewrite list_insert_insert_eq. Qed.

Lemma tbl_ok_pages ms ms' : pages ms' = pages ms -> tbl_ok ms -> tbl_ok ms'.
Proof. intros E [? ?]. split; by rewrite E. Qed.

(** Entry [i] replaced; what each operation writes. *)
Definition marked (ms : proc_mem_stat) (va : Z) (f : page_stat -> page_stat) : list page_stat :=
  match slot_for ms va with Some i => <[i := f (page_at ms i)]> (pages ms) | None => pages ms end.

Lemma slot_lt ms va i : slot_for ms va = Some i -> (i < length (pages ms))%nat.
Proof. intros (x & Hx & _)%slot_for_spec. by eapply lookup_lt_Some. Qed.

Lemma find_page_at ms va i :
  slot_for ms va = Some i ->
  page_at (set_page ms i (with_va (u32 va) (page_at ms i))) i = with_va (u32 va) (page_at ms i).
Proof. intros Hs%slot_lt. apply page_at_lookup. by apply list_lookup_insert_eq. Qed.

Lemma mark_resident_pages ms va seq :
  pages (memstat_mark_resident ms va seq) = marked ms va (fun _ => mkPageStat (u32 va) RESIDENT 0 seq (-1)).
Proof.
  unfold memstat_mark_resident, marked. rewrite find_index_slot.
  destruct (slot_for ms va) as [i|] eqn:Hs; [|done]. rewrite find_page_at by done.
  case_match; simpl; by rewrite list_insert_insert_eq.
Qed.

Lemma drop_resident_pages ms x : pages (drop_resident ms x) = pages ms.
Proof. unfold drop_resident. by case_match. Qed.

Lemma mark_unmapped_pages ms va :
  pages (memstat_mark_unmapped ms va) =
  marked ms va (fun x => mkPageStat (u32 va) UNMAPPED (ps_dirty x) (ps_seq x) (-1)).
Proof.
  unfold memstat_mark_unmapped, marked. rewrite find_index_slot.
  destruct (slot_for ms va) as [i|] eqn:Hs; [|done]. rewrite find_page_at by done.
  simpl. rewrite drop_resident_pages. simpl. by rewrite list_insert_insert_eq.
Qed.

Lemma mark_swapped_pages ms va slot :
  pages (memstat_mark_swapped ms va slot) =
  marked ms va (fun x => mkPageStat (u32 va) SWAPPED (ps_dirty x) (ps_seq x) slot).
Proof.
  unfold memstat_mark_swapped, marked. rewrite find_index_slot.
  destruct (slot_for ms va) as [i|] eqn:Hs; [|done]. rewrite find_page_at by done.
  simpl. rewrite drop_resident_pages. simpl. by rewrite list_insert_insert_eq.
Qed.

Lemma marked_ok ms ms' va f :
  tbl_ok ms -> (forall x, ps_va (f x) = u32 va) -> pages ms' = marked ms va f -> tbl_ok ms'.
Proof.
  intros Hok Hf E. unfold marked in E. destruct (slot_for ms va) as [i|] eqn:Hs; [|by eapply tbl_ok_pages].
  eapply tbl_ok_pages; [|by apply (slot_put_ok ms va i (f (page_at ms i)))]. by rewrite E.
Qed.

(** The residents are counted by [num_resident_pages]. *)
Definition residents (l : list page_stat) : nat := length (filter is_resident l).

Definition counted (ms : proc_mem_stat) : Prop := num_resident_pages ms = Z.of_nat (residents (pages ms)).

Lemma residents_insert l i x y :
  l !! i = Some x ->
  (residents (<[i := y]> l) + (if is_resident x then 1 else 0) = residents l + (if is_resident y then 1 else 0))%nat.
Proof.
  intros Hi. rewrite (insert_take_drop _ _ _ (lookup_lt_Some _ _ _ Hi)).
  rewrite <- (take_drop_middle l i x Hi) at 3. unfold residents.
  rewrite !filter_app, !length_app, !filter_cons.
  destruct (is_resident x), (is_resident y); repeat case_decide; simpl; try done; lia.
Qed.

Lemma residents_le l : (residents l <= length l)%nat.
Proof. unfold residents. apply length_filter. Qed.

Lemma slot_page ms va i : slot_for ms va = Some i -> pages ms !! i = Some (page_at ms i).
Proof. intros (x & Hx & _)%slot_for_spec. by rewrite (page_at_lookup _ _ _ Hx). Qed.

Lemma counted_drop ms x y i :
  counted ms -> pages ms !! i = Some x -> is_resident y = false ->
  num_resident_pages (drop_resident ms x) = Z.of_nat (residents (<[i := y]> (pages ms))).
Proof.
  intros Hc Hx Hy. pose proof (residents_insert (pages ms) i x y Hx) as Hr. rewrite Hy in Hr.
  unfold counted in Hc. unfold drop_resident. fold (is_resident x).
  destruct (is_resident x) eqn:Ex; simpl; [|lia]. destruct (Z.ltb_spec 0 (num_resident_pages ms)); simpl; lia.
Qed.

(** the three bookkeeping operations keep the table invariant
    (so that an address scan finds the live entry) and keep
    [num_resident_pages] equal to the number of resident entries. *)
Theorem memstat_ops_inv ms va seq slot :
  tbl_ok ms -> counted ms ->
  (tbl_ok (memstat_mark_resident ms va seq) /\ counted (memstat_mark_resident ms va seq)) /\
  (tbl_ok (memstat_mark_unmapped ms va) /\ counted (memstat_mark_unmapped ms va)) /\
  (tbl_ok (memstat_mark_swapped ms va slot) /\ counted (memstat_mark_swapped ms va slot)).
Proof.
  intros Hok Hc. split_and!.
  - eapply marked_ok; [done| |apply mark_resident_pages]. done.
  - pose proof (residents_le (pages ms)) as Hle. rewrite (tb_len _ Hok) in Hle. unfold MAX_PAGES_INFO in Hle.
    unfold counted. rewrite mark_resident_pages. unfold marked, memstat_mark_resident.
    rewrite find_index_slot. destruct (slot_for ms va) as [i|] eqn:Hs; [|done].
    rewrite find_page_at by done. pose proof (slot_page _ _ _ Hs) as Hx.
    pose proof (residents_insert (pages ms) i _ (mkPageStat (u32 va) RESIDENT 0 seq (-1)) Hx) as Hr.
    unfold counted in Hc. simpl in Hr |- *. fold (is_resident (page_at ms i)).
    destruct (is_resident (page_at ms i)); simpl; [lia|]. rewrite i32_small; lia.
  - eapply marked_ok; [done| |apply mark_unmapped_pages]. done.
  - unfold counted. rewrite mark_unmapped_pages. unfold marked, memstat_mark_unmapped. rewrite find_index_slot.
    destruct (slot_for ms va) as [i|] eqn:Hs; [|done]. rewrite find_page_at by done.
    rewrite <- (counted_drop ms (page_at ms i)) by (done || by apply slot_page with va).
    unfold drop_resident. simpl. by case_match.
  - eapply marked_ok; [done| |apply mark_swapped_pages]. done.
  - unfold counted. rewrite mark_swapped_pages. unfold marked, memstat_mark_swapped. rewrite find_index_slot.
    destruct (slot_for ms va) as [i|] eqn:Hs; [|done]. rewrite find_page_at by done.
    rewrite <- (counted_drop ms (page_at ms i)) by (done || by apply slot_page with va).
    unfold drop_resident. simpl. by case_match.
Qed.

(** The address scans of trap.c and swap.c. *)
Lemma scan_live ms a i x :
  tbl_ok ms -> live_at ms a i x -> first_index (fun y => ps_va y =? a) (pages ms) = Some i.
Proof.
  intros Hok (Hx & Hl & Hv). apply first_index_Some. split.
  - exists x. by rewrite Hv, Z.eqb_refl.
  - intros j y Hj Hy. apply Z.eqb_neq. rewrite <- Hv. by eapply (tb_first _ Hok j i).
Qed.

(** A live address is found where it is. *)
Lemma slot_for_live ms va i x :
  tbl_ok ms -> live_at ms (u32 va) i x -> slot_for ms va = Some i.
Proof.
  intros Hok (Hx & Hl & Hv). unfold slot_for, memstat_find_index.
  assert (first_index (fun y => is_live y && (ps_va y =? u32 va)) (pages ms) = Some i) as ->; [|done].
  apply first_index_Some. split; [exists x; by rewrite Hl, Hv, Z.eqb_refl|].
  intros j y Hj Hy. apply andb_false_iff. right. apply Z.eqb_neq. rewrite <- Hv.
  by eapply (tb_first _ Hok j i).
Qed.

(** ** The FIFO queue
    [q] lists the addresses of the resident pages in order of arrival. *)
Record fifo_rel (ms : proc_mem_stat) (q : list Z) : Prop := {
  fr_nodup : NoDup q;
  fr_in : forall a, a ∈ q <-> exists i x, pages ms !! i = Some x /\ is_resident x = true /\ ps_va x = a;
  fr_order : forall k l i j x y, (k < l)%nat -> q !! k = Some (ps_va x) -> q !! l = Some (ps_va y) ->
    pages ms !! i = Some x -> is_resident x = true -> pages ms !! j = Some y -> is_resident y = true ->
    u32 (ps_seq x) < u32 (ps_seq y);
  fr_next : forall i x, pages ms !! i = Some x -> is_resident x = true ->
    u32 (ps_seq x) < u32 (next_fifo_seq ms)
}.

Lemma resident_live x : is_resident x = true -> is_live x = true.
Proof. unfold is_resident, is_live. intros ->%Z.eqb_eq. done. Qed.

Lemma live_unique ms i j x y :
  tbl_ok ms -> pages ms !! i = Some x -> pages ms !! j = Some y ->
  is_live x = true -> is_live y = true -> ps_va x = ps_va y -> i = j /\ x = y.
Proof.
  intros Hok Hx Hy Hlx Hly E. destruct (Nat.lt_trichotomy i j) as [H|[->|H]].
  - by destruct (tb_first _ Hok i j x y).
  - split; congruence.
  - by destruct (tb_first _ Hok j i y x).
Qed.

(** Under the relation the policy picks the head of the queue. *)
Lemma select_head ms a q :
  fifo_rel ms (a :: q) ->
  exists i x, select_victim_fifo_index ms = Z.of_nat i /\ pages ms !! i = Some x /\
    is_resident x = true /\ ps_va x = a.
Proof.
  intros R. unfold select_victim_fifo_index. rewrite fifo_loop_sel.
  destruct (proj1 (fr_in _ _ R a)) as (ia & xa & Hxa & Hra & Ea); [by left|].
  destruct (sel_spec is_resident (pages ms)) as [[_ Hn]|(k & x & -> & Hl)].
  { by rewrite (Hn ia xa Hxa) in Hra. }
  destruct Hl as (Hk & Hf & Hmin & _). exists k, x. split_and!; try done.
  assert (Hq : ps_va x ∈ a :: q) by (apply (fr_in _ _ R); by exists k, x).
  apply elem_of_cons in Hq as [?|Hq]; [done|]. exfalso. apply list_elem_of_lookup in Hq as [n Hn].
  apply (Hmin ia xa Hxa Hra). left.
  eapply (fr_order _ _ R 0 (S n)); try done; [lia|simpl; congruence].
Qed.

(** Replacing the entry of the head by one that is not resident pops the queue. *)
Lemma fifo_pop ms ms' a q i x y :
  tbl_ok ms -> fifo_rel ms (a :: q) -> pages ms !! i = Some x -> is_resident x = true -> ps_va x = a ->
  pages ms' = <[i := y]> (pages ms) -> is_resident y = false -> next_fifo_seq ms' = next_fifo_seq ms ->
  fifo_rel ms' q.
Proof.
  intros Hok R Hx Hr Ea Ep Hy En. pose proof (fr_nodup _ _ R) as [Ha Hnd]%NoDup_cons.
  assert (Hin : forall j z, pages ms' !! j = Some z -> is_resident z = true ->
    j <> i /\ pages ms !! j = Some z).
  { intros j z Hz Hrz. rewrite Ep in Hz. apply list_lookup_insert_Some in Hz as [(_ & <- & _)|[? ?]]; [congruence|]. split; [congruence|done]. }
  split; [done|..].
  - intros b. split.
    + intros Hb. destruct (proj1 (fr_in _ _ R b)) as (j & z & Hz & Hrz & Eb); [by right|].
      exists j, z. split_and!; try done. rewrite Ep, list_lookup_insert_ne; [done|].
      intros <-. assert (z = x) by congruence. subst. congruence.
    + intros (j & z & Hz & Hrz & Eb). destruct (Hin j z Hz Hrz) as [Hne Hz'].
      assert (Hb : b ∈ a :: q) by (apply (fr_in _ _ R); by exists j, z).
      apply elem_of_cons in Hb as [->|?]; [|done]. exfalso. apply Hne.
      destruct (live_unique ms j i z x Hok) as [? _]; try done; [by apply resident_live..|congruence].
  - intros k l j j' z z' Hkl Hk Hl Hz Hrz Hz' Hrz'.
    destruct (Hin j z) as [_ ?], (Hin j' z') as [_ ?]; try done.
    by eapply (fr_order _ _ R (S k) (S l)); try done; lia.
  - intros j z Hz Hrz. destruct (Hin j z Hz Hrz) as [_ ?]. rewrite En. by eapply (fr_next _ _ R).
Qed.

Lemma marked_next ms va seq slot :
  next_fifo_seq (memstat_mark_resident ms va seq) = next_fifo_seq ms /\
  next_fifo_seq (memstat_mark_unmapped ms va) = next_fifo_seq ms /\
  next_fifo_seq (memstat_mark_swapped ms va slot) = next_fifo_seq ms.
Proof.
  unfold memstat_mark_resident, memstat_mark_unmapped, memstat_mark_swapped. rewrite find_index_slot.
  destruct (slot_for ms va); [|done]. unfold drop_resident. split_and!; by repeat case_match.
Qed.

(** The head is evicted by [memstat_mark_unmapped] (clean) or [memstat_mark_swapped]. *)
Lemma fifo_evict ms a q slot :
  tbl_ok ms -> fifo_rel ms (a :: q) -> 0 <= a < 2 ^ 32 ->
  fifo_rel (memstat_mark_unmapped ms a) q /\ fifo_rel (memstat_mark_swapped ms a slot) q.
Proof.
  intros Hok R Ha. destruct (proj1 (fr_in _ _ R a)) as (i & x & Hx & Hr & Ea); [by left|].
  assert (Hs : slot_for ms a = Some i).
  { apply (slot_for_live ms a i x Hok). rewrite u32_small by done.
    split_and!; [done|by apply resident_live|done]. }
  destruct (marked_next ms a 0 slot) as (_ & N1 & N2).
  split; (eapply (fifo_pop ms _ a q i x); try done; [rewrite ?mark_unmapped_pages, ?mark_swapped_pages|]);
    unfold marked; rewrite ?Hs; done.
Qed.

Lemma u32_next n : u32 n + 1 < 2 ^ 32 -> u32 (i32 (n + 1)) = u32 n + 1.
Proof. unfold u32, i32. intros. Z.to_euclidean_division_equations. lia. Qed.

Lemma slot_for_pages ms ms' va : pages ms = pages ms' -> slot_for ms va = slot_for ms' va.
Proof. unfold slot_for, memstat_find_index. intros ->. by repeat case_match. Qed.

(** A page becoming resident with the next sequence number joins the back. *)
Lemma fifo_arrive ms q va i :
  tbl_ok ms -> fifo_rel ms q -> u32 va ∉ q -> slot_for ms va = Some i ->
  u32 (next_fifo_seq ms) + 1 < 2 ^ 32 ->
  fifo_rel (memstat_mark_resident (set_next_seq ms (i32 (next_fifo_seq ms + 1))) va (next_fifo_seq ms))
    (q ++ [u32 va]).
Proof.
  intros Hok R Hnq Hs Hseq. set (ms1 := set_next_seq ms _).
  set (y := mkPageStat (u32 va) RESIDENT 0 (next_fifo_seq ms) (-1)).
  assert (Ep : pages (memstat_mark_resident ms1 va (next_fifo_seq ms)) = <[i := y]> (pages ms)).
  { rewrite mark_resident_pages. unfold marked. by rewrite (slot_for_pages ms1 ms), Hs. }
  assert (Hold : is_resident (page_at ms i) = false).
  { destruct (slot_for_spec ms va i Hs) as (x & Hx & Hcase). rewrite (page_at_lookup _ _ _ Hx).
    destruct (is_resident x) eqn:Hr; [|done]. exfalso. destruct Hcase as [(_ & _ & Ev)|(Hu & _)].
    - apply Hnq. apply (fr_in _ _ R). by exists i, x.
    - apply Z.eqb_eq in Hr. rewrite Hu in Hr. done. }
  assert (Hcases : forall j z, pages (memstat_mark_resident ms1 va (next_fifo_seq ms)) !! j = Some z ->
    is_resident z = true -> z = y \/ (j <> i /\ pages ms !! j = Some z /\ ps_va z ∈ q)).
  { intros j z Hz Hrz. rewrite Ep in Hz. apply list_lookup_insert_Some in Hz as [(-> & <- & _)|[? Hz]]; [by left|].
    right. split_and!; try done. apply (fr_in _ _ R). by exists j, z. }
  assert (Hlt : forall j z, pages ms !! j = Some z -> is_resident z = true ->
    u32 (ps_seq z) < u32 (next_fifo_seq ms)) by apply R.
  split.
  - apply NoDup_app. split_and!; [apply R| |apply NoDup_singleton].
    intros b Hb ->%list_elem_of_singleton. done.
  - intros b. rewrite elem_of_app, list_elem_of_singleton. split.
    + intros [Hb| ->].
      * apply (fr_in _ _ R) in Hb as (j & z & Hz & Hrz & Eb). exists j, z. split_and!; try done.
        rewrite Ep, list_lookup_insert_ne; [done|]. intros <-.
        rewrite (page_at_lookup _ _ _ Hz) in Hold. congruence.
      * exists i, y. split_and!; try done. rewrite Ep. apply list_lookup_insert_eq. by eapply slot_lt.
    + intros (j & z & Hz & Hrz & <-). destruct (Hcases j z Hz Hrz) as [->|(_ & _ & ?)]; [by right|by left].
  - intros k l j j' z z' Hkl Hk Hl Hz Hrz Hz' Hrz'.
    destruct (Hcases j z Hz Hrz) as [->|(_ & Hz0 & Hqz)].
    { exfalso. pose proof (lookup_lt_Some _ _ _ Hl) as Hlen. rewrite length_app in Hlen. simpl in Hlen.
      rewrite lookup_app_l in Hk by lia. by apply Hnq, (list_elem_of_lookup_2 _ k). }
    destruct (Hcases j' z' Hz' Hrz') as [->|(_ & Hz0' & Hqz')]; [by apply (Hlt j)|].
    pose proof (lookup_lt_Some _ _ _ Hl) as Hlen. rewrite length_app in Hlen. simpl in Hlen.
    assert (Hll : (l < length q)%nat).
    { destruct (decide (l = length q)) as [->|]; [|lia]. exfalso.
      rewrite list_lookup_middle in Hl by done. injection Hl as Hl. by rewrite Hl in Hnq. }
    rewrite lookup_app_l in Hk, Hl by lia. by eapply (fr_order _ _ R k l).
  - intros j z Hz Hrz. destruct (marked_next ms1 va (next_fifo_seq ms) 0) as (-> & _). simpl.
    rewrite u32_next by done. destruct (Hcases j z Hz Hrz) as [->|(_ & ? & _)]; [simpl; lia|].
    pose proof (Hlt j z). naive_solver lia.
Qed.

(** ** Refinement of the replacement queue
    The kernel's use of the table: a page arrives with the next sequence
    number, and the policy's choice leaves, to swap or for good. *)
Inductive page_op : Type :=
  | Arrive (va : Z)
  | Evict (to_swap : option Z).

Definition t_step (ms : proc_mem_stat) (o : page_op) : proc_mem_stat * option Z :=
  match o with
  | Arrive va =>
      (memstat_mark_resident (set_next_seq ms (i32 (next_fifo_seq ms + 1))) va (next_fifo_seq ms), None)
  | Evict sw =>
      let i := select_victim_fifo_index ms in
      if i <? 0 then (ms, None)
      else let va := ps_va (page_at ms (Z.to_nat i)) in
           (match sw with
            | Some slot => memstat_mark_swapped ms va slot
            | None => memstat_mark_unmapped ms va
            end, Some va)
  end.

Fixpoint t_run (ms : proc_mem_stat) (ops : list page_op) : proc_mem_stat * list (option Z) :=
  match ops with
  | [] => (ms, [])
  | o :: ops => let '(ms, r) := t_step ms o in let '(ms, rs) := t_run ms ops in (ms, r :: rs)
  end.

Definition q_step (q : list Z) (o : page_op) : list Z * option Z :=
  match o, q with
  | Arrive va, _ => (q ++ [u32 va], None)
  | Evict _, [] => ([], None)
  | Evict _, a :: q => (q, Some a)
  end.

Fixpoint q_run (q : list Z) (ops : list page_op) : list Z * list (option Z) :=
  match ops with
  | [] => (q, [])
  | o :: ops => let '(q, r) := q_step q o in let '(q, rs) := q_run q ops in (q, r :: rs)
  end.

(** Arrivals are of pages that are not resident, while the table has room and
    the sequence numbers have not wrapped around. *)
Fixpoint admissible (ms : proc_mem_stat) (ops : list page_op) : bool :=
  match ops with
  | [] => true
  | o :: ops =>
      match o with
      | Arrive va => negb (existsb (fun x => is_resident x && (ps_va x =? u32 va)) (pages ms)) &&
                     bool_decide (is_Some (slot_for ms va)) && (u32 (next_fifo_seq ms) + 1 <? 2 ^ 32)
      | Evict _ => true
      end && admissible (fst (t_step ms o)) ops
  end.

Definition queue_rel (ms : proc_mem_stat) (q : list Z) : Prop :=
  tbl_ok ms /\ fifo_rel ms q /\ Forall (fun a => 0 <= a < 2 ^ 32) q.

Lemma arrive_sim ms q va :
  queue_rel ms q -> admissible ms [Arrive va] = true ->
  queue_rel (fst (t_step ms (Arrive va))) (q ++ [u32 va]).
Proof.
  intros (Hok & R & Hq). cbn [admissible]. rewrite !andb_true_iff, negb_true_iff, Z.ltb_lt.
  intros [[[He Hs] Hn] _]. apply bool_decide_eq_true in Hs as [i Es].
  assert (Hnq : u32 va ∉ q).
  { intros (j & x & Hx & Hr & Ev)%(fr_in _ _ R). rewrite <- not_true_iff_false in He. apply He.
    apply existsb_exists. exists x. rewrite Hr, Ev, Z.eqb_refl. split; [|done].
    apply list_elem_of_In. by eapply list_elem_of_lookup_2. }
  split_and!.
  - eapply marked_ok; [|  |apply mark_resident_pages]; [by apply (tbl_ok_pages ms)|done].
  - by eapply fifo_arrive.
  - apply Forall_app. split; [done|]. apply Forall_singleton. unfold u32. by apply Z.mod_pos_bound.
Qed.

Lemma evict_sim ms q sw :
  queue_rel ms q ->
  snd (t_step ms (Evict sw)) = snd (q_step q (Evict sw)) /\
  queue_rel (fst (t_step ms (Evict sw))) (fst (q_step q (Evict sw))).
Proof.
  intros (Hok & R & Hq). destruct q as [|a q]; cbn [t_step q_step].
  - unfold select_victim_fifo_index. rewrite fifo_loop_sel.
    destruct (sel_spec is_resident (pages ms)) as [[-> _]|(k & x & _ & Hx & Hr & _)]; [done|].
    exfalso. assert (Ha : ps_va x ∈ @nil Z) by (apply (fr_in _ _ R); by exists k, x). by apply not_elem_of_nil in Ha.
  - destruct (select_head ms a q R) as (i & x & -> & Hx & Hr & Ea). apply Forall_cons in Hq as [Ha Hq].
    destruct (Z.ltb_spec (Z.of_nat i) 0); [lia|]. rewrite Nat2Z.id, (page_at_lookup _ _ _ Hx), Ea.
    split; [done|]. split_and!; [| |done]; destruct sw as [slot|].
    + eapply marked_ok; [done| |apply mark_swapped_pages]. done.
    + eapply marked_ok; [done| |apply mark_unmapped_pages]. done.
    + by apply (fifo_evict ms a q slot).
    + by apply (fifo_evict ms a q 0).
Qed.

(** C35: over any admissible sequence of arrivals and evictions
    the table behaves as a first-in-first-out queue of pages: the pages the
    policy evicts, in order, are the ones the queue would give, and the table
    still represents the queue afterwards. *)
Theorem fifo_refines_queue ops ms q :
  queue_rel ms q -> admissible ms ops = true ->
  snd (t_run ms ops) = snd (q_run q ops) /\ queue_rel (fst (t_run ms ops)) (fst (q_run q ops)).
Proof.
  revert ms q. induction ops as [|o ops IH]; intros ms q HR; [done|]. cbn [admissible t_run q_run].
  intros [Ho Hops]%andb_true_iff.
  assert (Hstep : snd (t_step ms o) = snd (q_step q o) /\ queue_rel (fst (t_step ms o)) (fst (q_step q o))).
  { destruct o as [va|sw]; [|by apply evict_sim]. split; [done|]. apply arrive_sim; [done|].
    cbn [admissible]. by rewrite Ho. }
  destruct (t_step ms o) as [ms1 r1], (q_step q o) as [q1 r2]. cbn [fst snd] in *.
  destruct Hstep as [-> HR1]. destruct (IH ms1 q1 HR1 Hops) as [IH1 IH2].
  destruct (t_run ms1 ops) as [ms2 rs], (q_run q1 ops) as [q2 rs']. cbn [fst snd] in *. by rewrite IH1.
Qed.
