(* ===== verification/Proc.v ===== *)
(** The process structure, kernel/proc.h, and the state the paging code runs in.

    [struct proc] is grouped into sub-records (scheduling, memory, files,
    executable, swap, counters), field names as in the source; pointers are
    numbers with 0 for null.  [kst] is what a process in the kernel sees:
    physical memory with its allocator, its own [struct proc], the file system
    and the console lines printed so far.  The fields [lock] and [context] of
    [struct proc] serve the scheduler, not the paging code, and are left out. *)
From S2P Require Import Prelude Riscv PhysMem Kalloc Memstat.

Inductive procstate := UNUSED | USED | SLEEPING | RUNNABLE | RUNNING | ZOMBIE.

#[global] Instance procstate_eq_dec : EqDecision procstate.
Proof. solve_decision. Defined.

Definition MAX_SWAP_PAGES : nat := 1024.
Definition NOFILE : nat := 16.

Record sched : Type := mkSched {
  p_state : procstate; p_chan : Z; p_killed : Z; p_xstate : Z; p_pid : Z; p_parent : Z }.

Record pspace : Type := mkSpace {
  p_kstack : Z; p_sz : Z; p_pagetable : Z; p_trapframe : Z }.

Record pfiles : Type := mkFiles { p_ofile : list Z; p_cwd : Z; p_name : list Z }.

Record swap_ent : Type := mkSwapEnt { se_va : Z; se_slot : Z; se_used : Z }.

#[global] Instance swap_ent_inhabited : Inhabited swap_ent := populate (mkSwapEnt 0 0 0).

Record pswap : Type := mkSwap { swapfile : Z; swap_table : list swap_ent; num_swapped_pages : Z }.

(** Recorded at exec for lazy mapping. *)
Record pexec : Type := mkExec {
  text_start : Z; text_end : Z; data_start : Z; data_end : Z; heap_start : Z; stack_top : Z;
  exec_ip : Z;
  text_off : Z; text_filesz : Z; text_memsz : Z; text_flags : Z;
  data_off : Z; data_filesz : Z; data_memsz : Z; data_flags : Z }.

Record pcount : Type := mkCount {
  pagefault_count : Z; resident_pages : Z; swapped_pages : Z; swapin_count : Z; swapout_count : Z; vmtrace : Z }.

Record proc : Type := mkProc {
  p_sched : sched; p_space : pspace; p_files : pfiles; p_swap : pswap;
  p_memstat : proc_mem_stat; p_exec : pexec; p_count : pcount }.

Definition set_sched (x : sched) (p : proc) : proc :=
  mkProc x (p_space p) (p_files p) (p_swap p) (p_memstat p) (p_exec p) (p_count p).
Definition set_space (x : pspace) (p : proc) : proc :=
  mkProc (p_sched p) x (p_files p) (p_swap p) (p_memstat p) (p_exec p) (p_count p).
Definition set_files (x : pfiles) (p : proc) : proc :=
  mkProc (p_sched p) (p_space p) x (p_swap p) (p_memstat p) (p_exec p) (p_count p).
Definition set_swap (x : pswap) (p : proc) : proc :=
  mkProc (p_sched p) (p_space p) (p_files p) x (p_memstat p) (p_exec p) (p_count p).
Definition set_memstat (x : proc_mem_stat) (p : proc) : proc :=
  mkProc (p_sched p) (p_space p) (p_files p) (p_swap p) x (p_exec p) (p_count p).
Definition set_count (x : pcount) (p : proc) : proc :=
  mkProc (p_sched p) (p_space p) (p_files p) (p_swap p) (p_memstat p) (p_exec p) x.

Definition pid (p : proc) : Z := p_pid (p_sched p).
Definition pagetable (p : proc) : Z := p_pagetable (p_space p).
Definition sz (p : proc) : Z := p_sz (p_space p).

Definition set_killed_flag (p : proc) : proc :=
  let s := p_sched p in
  set_sched (mkSched (p_state s) (p_chan s) 1 (p_xstate s) (p_pid s) (p_parent s)) p.

(** ** Console lines of the paging code *)
Inductive access := Awrite | Aread | Aexec.
Inductive cause := Cguard | Cswap | Cexec | Cstack | Cheap.

#[global] Instance access_eq_dec : EqDecision access.
Proof. solve_decision. Defined.
#[global] Instance cause_eq_dec : EqDecision cause.
Proof. solve_decision. Defined.

Inductive vm_event : Type :=
  | EvMemfull
  | EvKillSwapExhausted
  | EvVictim (va seq : Z) (algo : string)
  | EvEvict (va : Z) (dirty : bool)
  | EvSwapfull
  | EvSwapout (va slot : Z)
  | EvDiscard (va : Z)
  | EvSwapin (va slot : Z)
  | EvPagefault (va : Z) (acc : access) (c : option cause)
  | EvKillInvalid (va : Z) (acc : access)
  | EvKillGuard (va : Z)
  | EvKillWriteText (va : Z)
  | EvAlloc (va : Z)
  | EvResident (va seq : Z)
  | EvLoadexec (va : Z)
  | EvSwapcleanup (freed_slots : Z)
  | EvLazymap (ts te ds de heap stack : Z)
  | EvSwapfile (created : bool)
  | EvUnknownSyscall (name : list Z) (num : Z)
  | EvMemstat (name : list Z) (resident swapped seq faults swapins swapouts : Z)
  | EvUnexpectedTrap (scause sepc stval : Z)
  | EvUnexpectedIrq (irq : Z).

(** ** The state of a process in the kernel *)
Record kst (F : Type) : Type := mkK {
  k_pm : pmem; k_p : proc; k_fs : F; k_out : list (Z * vm_event) }.
Arguments mkK {F}.
Arguments k_pm {F}.
Arguments k_p {F}.
Arguments k_fs {F}.
Arguments k_out {F}.

Section state.
  Context {F : Type}.

Definition set_pm (x : pmem) (k : kst F) : kst F := mkK x (k_p k) (k_fs k) (k_out k).
Definition set_p (x : proc) (k : kst F) : kst F := mkK (k_pm k) x (k_fs k) (k_out k).
Definition set_fs (x : F) (k : kst F) : kst F := mkK (k_pm k) (k_p k) x (k_out k).

  (** Allocator and page-table code, and file-system code, on their part. *)
Definition vm {A} (m : M pmem A) : M (kst F) A := zoom k_pm set_pm m.
Definition fs {A} (m : M F A) : M (kst F) A := zoom k_fs set_fs m.

Definition myproc : M (kst F) proc := gets k_p.
Definition modp (f : proc -> proc) : M (kst F) unit := modS (fun k => set_p (f (k_p k)) k).
Definition modswap (f : pswap -> pswap) : M (kst F) unit := modp (fun p => set_swap (f (p_swap p)) p).
Definition modmemstat (f : proc_mem_stat -> proc_mem_stat) : M (kst F) unit :=
    modp (fun p => set_memstat (f (p_memstat p)) p).
Definition modcount (f : pcount -> pcount) : M (kst F) unit := modp (fun p => set_count (f (p_count p)) p).

  (** [printf("[pid %d] ...", p->pid, ...)] *)
Definition printf (e : vm_event) : M (kst F) unit :=
    modS (fun k => mkK (k_pm k) (k_p k) (k_fs k) (k_out k ++ [(pid (k_p k), e)])).

  (** proc.c: setkilled and killed, for the current process. *)
Definition setkilled : M (kst F) unit := modp set_killed_flag.
Definition killed : M (kst F) Z := gets (fun k => p_killed (p_sched (k_p k))).

  (** Running the primitives. *)
Lemma fs_Ret {A} (m : M F A) k a f' : m (k_fs k) = Ret a f' -> fs m k = Ret a (set_fs f' k).
  Proof. apply zoom_Ret. Qed.

Lemma vm_Ret {A} (m : M pmem A) k a s' : m (k_pm k) = Ret a s' -> vm m k = Ret a (set_pm s' k).
  Proof. apply zoom_Ret. Qed.

Lemma bind_getS {A} (h : kst F -> M (kst F) A) k : (getS ≫= h) k = h k k.
  Proof. done. Qed.

Lemma bind_myproc {A} (h : proc -> M (kst F) A) k : (myproc ≫= h) k = h (k_p k) k.
  Proof. done. Qed.

Lemma bind_modp {A} f (h : unit -> M (kst F) A) k : (modp f ≫= h) k = h tt (set_p (f (k_p k)) k).
  Proof. done. Qed.

Lemma bind_modswap {A} f (h : unit -> M (kst F) A) k :
    (modswap f ≫= h) k = h tt (set_p (set_swap (f (p_swap (k_p k))) (k_p k)) k).
  Proof. done. Qed.

Lemma bind_modmemstat {A} f (h : unit -> M (kst F) A) k :
    (modmemstat f ≫= h) k = h tt (set_p (set_memstat (f (p_memstat (k_p k))) (k_p k)) k).
  Proof. done. Qed.

Lemma bind_modcount {A} f (h : unit -> M (kst F) A) k :
    (modcount f ≫= h) k = h tt (set_p (set_count (f (p_count (k_p k))) (k_p k)) k).
  Proof. done. Qed.

Lemma bind_vm_modS {A} f (h : unit -> M (kst F) A) k :
    (vm (modS f) ≫= h) k = h tt (set_pm (f (k_pm k)) k).
  Proof. done. Qed.

Lemma bind_printf {A} e (h : unit -> M (kst F) A) k :
    (printf e ≫= h) k = h tt (mkK (k_pm k) (k_p k) (k_fs k) (k_out k ++ [(pid (k_p k), e)])).
  Proof. done. Qed.
End state.

(** Reduce projections of updated states, and nothing else. *)
Ltac kcbn :=
  cbn [k_pm k_p k_fs k_out set_pm set_p set_fs p_sched p_space p_files p_swap p_memstat p_exec p_count
       set_sched set_space set_files set_swap set_memstat set_count swapfile swap_table num_swapped_pages
       p_killed p_pid pm_mem freelist] in *.
