(* ===== verification/FsIface.v ===== *)
(** The file-system operations the paging code calls, as an interface.

    [FsOps] lists them (kernel/log.c, fs.c and file.c) over the file system's
    state; a function that fails returns the code's error value.  Reads and
    writes have a kernel buffer at the other end, so [readi] returns the bytes
    it would copy out and [writei] takes the bytes it would copy in.

    [FsLaws] is what the paging code relies on: transactions and inode locks
    can be taken and released, reads return the file's contents, and a write
    of a whole range within or at the end of the file either replaces exactly
    that range or reports a short count and leaves the rest alone. *)
From S2P Require Import Prelude Riscv PhysMem.

Definition T_DIR : Z := 1.
Definition T_FILE : Z := 2.
Definition T_DEVICE : Z := 3.
Definition DIRSIZ : Z := 14.

(** [struct dirent] is 16 bytes. *)
Definition sizeof_dirent : nat := 16.

Class FsOps (F : Type) : Type := {
  begin_op : M F unit;
  end_op : M F unit;
  ilock : Z -> M F unit;
  iunlock : Z -> M F unit;
  iunlockput : Z -> M F unit;
  iupdate : Z -> M F unit;
  readi : Z -> Z -> Z -> M F (list Z);
  writei : Z -> Z -> list Z -> M F Z;
  nameiparent : list Z -> M F (Z * list Z);
  dirlookup : Z -> list Z -> M F (Z * Z);
  dirlink : Z -> list Z -> Z -> M F Z;
  ialloc : Z -> Z -> M F Z;
  i_dev : Z -> M F Z;
  i_inum : Z -> M F Z;
  i_type : Z -> M F Z;
  i_nlink : Z -> M F Z;
  set_major_minor : Z -> Z -> Z -> M F unit;
  set_nlink : Z -> Z -> M F unit;
  filealloc : M F Z;
  (** [f->type = FD_INODE; f->ip = ip; f->off = 0; f->readable = r; f->writable = w] *)
  file_open : Z -> Z -> Z -> Z -> M F unit;
  file_ip : Z -> M F Z;
  fileclose : Z -> M F unit
}.

(** Replace the range of [l] from [off] by [bs], extending it if it ends beyond. *)
Definition splice (l : list Z) (off : nat) (bs : list Z) : list Z :=
  take off l ++ bs ++ drop (off + length bs) l.

Definition range (l : list Z) (off n : nat) : list Z := take n (drop off l).

Class FsLaws (F : Type) `{!FsOps F} : Type := {
  (** The file system is consistent; inside a transaction; holding an inode's lock. *)
  fs_inv : F -> bool -> option Z -> Prop;
  (** [f] has the inode [ip] open; its contents. *)
  open_file : F -> Z -> Z -> Prop;
  inode_ref : F -> Z -> Prop;
  fdata : F -> Z -> list Z;
  fs_same (f f' : F) : Prop :=
    (forall ip, fdata f' ip = fdata f ip) /\ (forall ip, inode_ref f ip -> inode_ref f' ip) /\
    (forall x ip, open_file f x ip -> open_file f' x ip);
  open_ref : forall f x ip, open_file f x ip -> inode_ref f ip;
  law_file_ip : forall f x ip, open_file f x ip -> file_ip x f = Ret ip f;
  law_begin : forall f, fs_inv f false None ->
    exists f', begin_op f = Ret tt f' /\ fs_inv f' true None /\ fs_same f f';
  law_end : forall f, fs_inv f true None ->
    exists f', end_op f = Ret tt f' /\ fs_inv f' false None /\ fs_same f f';
  law_ilock : forall f b ip, fs_inv f b None -> inode_ref f ip ->
    exists f', ilock ip f = Ret tt f' /\ fs_inv f' b (Some ip) /\ fs_same f f';
  law_iunlock : forall f b ip, fs_inv f b (Some ip) ->
    exists f', iunlock ip f = Ret tt f' /\ fs_inv f' b None /\ fs_same f f';
  law_readi : forall f b ip off n, fs_inv f b (Some ip) -> 0 <= off < 2 ^ 32 -> 0 <= n < 2 ^ 32 ->
    exists f', readi ip off n f = Ret (range (fdata f ip) (Z.to_nat off) (Z.to_nat n)) f' /\
      fs_inv f' b (Some ip) /\ fs_same f f';
  law_bytes : forall f b o ip, fs_inv f b o -> is_bytes (fdata f ip);
  law_writei : forall f ip off bs, fs_inv f true (Some ip) -> 0 <= off < 2 ^ 32 ->
    is_bytes bs -> Z.of_nat (length bs) = PGSIZE ->
    exists r f', writei ip off bs f = Ret r f' /\ fs_inv f' true (Some ip) /\
      (forall ip', ip' <> ip -> fdata f' ip' = fdata f ip') /\
      (forall ip', inode_ref f ip' -> inode_ref f' ip') /\
      (forall x ip', open_file f x ip' -> open_file f' x ip') /\
      (r = PGSIZE /\ off <= Z.of_nat (length (fdata f ip)) /\
         fdata f' ip = splice (fdata f ip) (Z.to_nat off) bs \/
       -1 <= r < PGSIZE /\
         (forall k, ~ (off <= Z.of_nat k < off + PGSIZE) ->
            (k < length (fdata f ip))%nat -> fdata f' ip !! k = fdata f ip !! k) /\
         (length (fdata f ip) <= length (fdata f' ip))%nat)
}.
