(* ===== verification/Swap.v ===== *)
(** Per-process swapping, kernel/swap.c.

    [kcreate], [swapfile_create] and [swapfile_cleanup] manage the swap file;
    [proc_swapout_page] and [swapin_page] move pages between a frame and a slot
    of the file.  [swap_view] is the abstract contents of the swap area: the
    bytes each swapped-out address has in its slot. *)
From S2P Require Import Prelude Riscv PhysMem Kalloc Memstat Proc FsIface.

Section swap.
Context {F : Type} `{FO : !FsOps F}.

Definition fail_create (dp ip : Z) : M F Z :=
  _ ← set_nlink ip 0; _ ← iupdate ip; _ ← iunlockput ip; _ ← iunlockput dp; mret 0.

Definition dot : list Z := [46].
Definition dotdot : list Z := [46; 46].

(** The "." and ".." entries of a new directory; true when one fails. *)
Definition make_dots (type ip dp : Z) : M F bool :=
  if type =? T_DIR then
    i ← i_inum ip;
    r1 ← dirlink ip dot i;
    if r1 <? 0 then mret true
    else j ← i_inum dp; r2 ← dirlink ip dotdot j; mret (r2 <? 0)
  else mret false.

Definition kcreate (path : list Z) (type major minor : Z) : M F Z :=
  r ← nameiparent path;
  let '(dp, name) := r in
  if dp =? 0 then mret 0 else
  _ ← ilock dp;
  r ← dirlookup dp name;
  let '(ip, _) := r in
  if negb (ip =? 0) then
    _ ← iunlockput dp;
    _ ← ilock ip;
    t ← i_type ip;
    if (type =? T_FILE) && ((t =? T_FILE) || (t =? T_DEVICE)) then mret ip
    else _ ← iunlockput ip; mret 0
  else
    dev ← i_dev dp;
    ip ← ialloc dev type;
    if ip =? 0 then _ ← iunlockput dp; mret 0 else
    _ ← ilock ip;
    _ ← set_major_minor ip major minor;
    _ ← set_nlink ip 1;
    _ ← iupdate ip;
    bad ← make_dots type ip dp;
    if (bad : bool) then fail_create dp ip else
    i ← i_inum ip;
    r ← dirlink dp name i;
    if r <? 0 then fail_create dp ip else
    _ ← (if type =? T_DIR then n ← i_nlink dp; _ ← set_nlink dp (n + 1); iupdate dp else mret tt);
    _ ← iunlockput dp;
    mret ip.

(** "/pgswp" and the last five decimal digits of the pid. *)
Definition swap_name (pid : Z) : list Z :=
  let d k := 48 + Z.rem (Z.quot pid k) 10 in
  [47; 112; 103; 115; 119; 112; d 10000; d 1000; d 100; d 10; d 1].

Definition swapfile_create : M (kst F) Z :=
  p ← myproc;
  if negb (swapfile (p_swap p) =? 0) then mret 0
  else
    _ ← fs begin_op;
    ip ← fs (kcreate (swap_name (pid p)) T_FILE 0 0);
    if ip =? 0 then _ ← fs end_op; mret (-1) else
    f ← fs filealloc;
    if f =? 0 then _ ← fs (iunlockput ip); _ ← fs end_op; mret (-1) else
    _ ← fs (iunlock ip);
    _ ← fs (file_open f ip 1 1);
    _ ← modswap (fun w => mkSwap f (swap_table w) (num_swapped_pages w));
    _ ← fs end_op;
    mret 0.

Definition empty_ent : swap_ent := mkSwapEnt 0 (-1) 0.
Definition used (e : swap_ent) : bool := negb (se_used e =? 0).

(** The number of slots that were in use. *)
Definition swapfile_cleanup : M (kst F) Z :=
  p ← myproc;
  let freed := Z.of_nat (length (filter (fun e => used e = true) (swap_table (p_swap p)))) in
  _ ← modswap (fun w => mkSwap (swapfile w) ((fun _ => empty_ent) <$> swap_table w) 0);
  if swapfile (p_swap p) =? 0 then mret freed
  else
    _ ← fs begin_op;
    r ← fs (nameiparent (swap_name (pid p)));
    let '(dp, nm) := r in
    _ ← (if negb (dp =? 0) then
           _ ← fs (ilock dp);
           r ← fs (dirlookup dp nm);
           let '(ip, off) := r in
           _ ← (if negb (ip =? 0) then
                  _ ← fs (ilock ip);
                  _ ← fs (writei dp off (replicate sizeof_dirent 0));
                  n ← fs (i_nlink ip);
                  _ ← fs (set_nlink ip (n - 1));
                  _ ← fs (iupdate ip);
                  fs (iunlockput ip)
                else mret tt);
           fs (iunlockput dp)
         else mret tt);
    _ ← fs end_op;
    _ ← fs (fileclose (swapfile (p_swap p)));
    _ ← modswap (fun w => mkSwap 0 (swap_table w) (num_swapped_pages w));
    mret freed.

(** The first memstat entry with address [va] gets a new state, clean, with [slot]. *)
Definition memstat_set_first (va state slot : Z) (ms : proc_mem_stat) : proc_mem_stat :=
  match first_index (fun x => ps_va x =? va) (pages ms) with
  | Some i => let x := page_at ms i in set_page ms i (mkPageStat (ps_va x) state 0 (ps_seq x) slot)
  | None => ms
  end.

Definition free_slot (t : list swap_ent) : option nat := first_index (fun e => negb (used e)) t.

Definition set_ent (i : nat) (e : swap_ent) (n : Z -> Z) : pswap -> pswap :=
  fun w => mkSwap (swapfile w) (<[i := e]> (swap_table w)) (n (num_swapped_pages w)).

Definition proc_swapout_page (va pa : Z) : M (kst F) Z :=
  p ← myproc;
  r ← (if swapfile (p_swap p) =? 0 then swapfile_create else mret 0);
  if r <? 0 then mret (-1) else
  p ← myproc;
  match free_slot (swap_table (p_swap p)) with
  | None => mret (-1)
  | Some slot =>
      let s := Z.of_nat slot in
      _ ← fs begin_op;
      ip ← fs (file_ip (swapfile (p_swap p)));
      _ ← fs (ilock ip);
      k ← getS;
      n ← fs (writei ip (s * PGSIZE) (load_bytes (pm_mem (k_pm k)) pa (Z.to_nat PGSIZE)));
      _ ← fs (iunlock ip);
      _ ← fs end_op;
      if negb (n =? PGSIZE) then mret (-1) else
      _ ← modswap (set_ent slot (mkSwapEnt (u32 (PGROUNDDOWN va)) s 1) (fun n => i32 (n + 1)));
      _ ← modmemstat (memstat_set_first (PGROUNDDOWN va) SWAPPED s);
      mret s
  end.

Definition swapin_page (va dst : Z) : M (kst F) Z :=
  p ← myproc;
  if swapfile (p_swap p) =? 0 then mret (-1) else
  let va0 := PGROUNDDOWN va in
  match first_index (fun e => used e && (se_va e =? va0)) (swap_table (p_swap p)) with
  | None => mret (-1)
  | Some slot =>
      let s := Z.of_nat slot in
      _ ← fs begin_op;
      ip ← fs (file_ip (swapfile (p_swap p)));
      _ ← fs (ilock ip);
      bs ← fs (readi ip (s * PGSIZE) PGSIZE);
      _ ← vm (modS (fun m => mkPmem (store_bytes (pm_mem m) dst bs) (freelist m)));
      _ ← fs (iunlock ip);
      _ ← fs end_op;
      if negb (Z.of_nat (length bs) =? PGSIZE) then mret (-1) else
      _ ← modswap (set_ent slot empty_ent (fun n => if 0 <? n then n - 1 else n));
      _ ← printf (EvSwapin va0 s);
      _ ← modcount (fun c => mkCount (pagefault_count c) (i32 (resident_pages c + 1))
            (if 0 <? swapped_pages c then swapped_pages c - 1 else swapped_pages c)
            (i32 (swapin_count c + 1)) (swapout_count c) (vmtrace c));
      _ ← modmemstat (memstat_set_first va0 RESIDENT (-1));
      mret s
  end.
End swap.
