(* ===== verification/SwapProofs.v ===== *)
(** Correctness of swapping: the contents of the swap area follow the swap-outs
    and swap-ins, slots are allocated lowest first, and a page comes back with
    the bytes it left with. *)
From S2P Require Import Prelude Riscv PhysMem Kalloc Memstat Proc FsIface Swap.

(** ** Ranges of a file *)
Lemma lookup_range l o n k : (k < n)%nat -> range l o n !! k = l !! (o + k)%nat.
Proof. intros. unfold range. by rewrite lookup_take_lt, lookup_drop by done. Qed.

Lemma length_range l o n : length (range l o n) = (n `min` (length l - o))%nat.
Proof. unfold range. by rewrite length_take, length_drop. Qed.

Lemma range_ext l l' o n :
  (o + n <= length l)%nat -> (length l <= length l')%nat ->
  (forall k, (o <= k < o + n)%nat -> l' !! k = l !! k) -> range l' o n = range l o n.
Proof.
  intros Hl Hl' Hk. apply list_eq_same_length with n; rewrite ?length_range; [lia..|].
  intros i x y Hi. rewrite !lookup_range by done. rewrite Hk by lia. congruence.
Qed.

Lemma length_splice l off bs :
  (off <= length l)%nat -> length (splice l off bs) = (length l `max` (off + length bs))%nat.
Proof. intros. unfold splice. rewrite !length_app, length_take, length_drop. lia. Qed.

Lemma splice_other l off bs k :
  (off <= length l)%nat -> (k < length l)%nat -> (k < off \/ off + length bs <= k)%nat ->
  splice l off bs !! k = l !! k.
Proof.
  intros Hoff Hk [H|H]; unfold splice.
  - rewrite lookup_app_l by (rewrite length_take; lia). by apply lookup_take_lt.
  - rewrite lookup_app_r by (rewrite length_take; lia). rewrite length_take, lookup_app_r by lia.
    rewrite lookup_drop. f_equal. lia.
Qed.

Lemma range_splice l off bs n :
  (off <= length l)%nat -> n = length bs -> range (splice l off bs) off n = bs.
Proof.
  intros Hoff ->. unfold range, splice. rewrite drop_app_length' by (rewrite length_take; lia).
  by rewrite take_app_length.
Qed.

Section swap.
Context {F : Type} `{FO : !FsOps F} `{FL : !FsLaws F}.

Lemma fs_same_refl f : fs_same f f.
Proof. done. Qed.

Lemma fs_same_trans f g h : fs_same f g -> fs_same g h -> fs_same f h.
Proof.
  intros (H1 & H2 & H3) (G1 & G2 & G3). split_and!.
  - intros ip. by rewrite G1.
  - auto.
  - auto.
Qed.

(** [begin_op; ilock] and [iunlock; end_op] around the use of an open file. *)
Lemma enter_file f x ip :
  fs_inv f false None -> open_file f x ip ->
  exists f1 f2, begin_op f = Ret tt f1 /\ file_ip x f1 = Ret ip f1 /\ ilock ip f1 = Ret tt f2 /\
    fs_inv f2 true (Some ip) /\ fs_same f f2.
Proof.
  intros Hi Ho. destruct (law_begin f Hi) as (f1 & R1 & Hi1 & S1).
  assert (Ho1 : open_file f1 x ip) by (by apply S1).
  destruct (law_ilock f1 true ip Hi1 (open_ref _ _ _ Ho1)) as (f2 & R2 & Hi2 & S2).
  exists f1, f2. split_and!; try done; [by apply law_file_ip|by eapply fs_same_trans].
Qed.

Lemma leave_file f ip :
  fs_inv f true (Some ip) ->
  exists f1 f2, iunlock ip f = Ret tt f1 /\ end_op f1 = Ret tt f2 /\ fs_inv f2 false None /\ fs_same f f2.
Proof.
  intros Hi. destruct (law_iunlock f true ip Hi) as (f1 & R1 & Hi1 & S1).
  destruct (law_end f1 Hi1) as (f2 & R2 & Hi2 & S2). exists f1, f2. split_and!; try done.
  by eapply fs_same_trans.
Qed.

(** ** The swap area *)
Definition find_swap (t : list swap_ent) (va : Z) : option nat :=
  first_index (fun e => used e && (se_va e =? va)) t.

Definition page_range (l : list Z) (slot : nat) : list Z :=
  range l (slot * Z.to_nat PGSIZE) (Z.to_nat PGSIZE).

Definition swap_view (k : kst F) (ip va : Z) : option (list Z) :=
  page_range (fdata (k_fs k) ip) <$> find_swap (swap_table (p_swap (k_p k))) va.

(** Each swapped address has one slot. *)
Definition own_slots (t : list swap_ent) : Prop :=
  forall i j e e', t !! i = Some e -> t !! j = Some e' -> used e = true -> used e' = true ->
    se_va e = se_va e' -> i = j.

Record swap_inv (k : kst F) (ip : Z) : Prop := {
  si_fs : fs_inv (k_fs k) false None;
  si_file : swapfile (p_swap (k_p k)) <> 0;
  si_open : open_file (k_fs k) (swapfile (p_swap (k_p k))) ip;
  si_len : length (swap_table (p_swap (k_p k))) = MAX_SWAP_PAGES;
  si_own : own_slots (swap_table (p_swap (k_p k)));
  si_size : forall i e, swap_table (p_swap (k_p k)) !! i = Some e -> used e = true ->
    (S i * Z.to_nat PGSIZE <= length (fdata (k_fs k) ip))%nat
}.

Lemma find_swap_Some t va i :
  find_swap t va = Some i -> exists e, t !! i = Some e /\ used e = true /\ se_va e = va.
Proof.
  intros [(e & He & [Hu Hv%Z.eqb_eq]%andb_true_iff) _]%first_index_Some. by exists e.
Qed.

Lemma find_swap_uniq t va i e :
  own_slots t -> t !! i = Some e -> used e = true -> se_va e = va -> find_swap t va = Some i.
Proof.
  intros Hown He Hu Hv. destruct (find_swap t va) as [j|] eqn:E.
  - f_equal. apply find_swap_Some in E as (e' & He' & Hu' & Hv'). by eapply Hown; eauto; congruence.
  - unfold find_swap in E. rewrite first_index_None in E. specialize (E i e He).
    rewrite Hu, Hv, Z.eqb_refl in E. done.
Qed.

Lemma find_swap_None t va :
  find_swap t va = None <-> forall i e, t !! i = Some e -> used e = true -> se_va e <> va.
Proof.
  unfold find_swap. rewrite first_index_None. split.
  - intros H i e He Hu Hv. specialize (H i e He). rewrite Hu, Hv, Z.eqb_refl in H. done.
  - intros H i e He. destruct (used e) eqn:Hu; [|done]. simpl. apply Z.eqb_neq. by eapply H.
Qed.

Lemma own_put t i va s :
  own_slots t -> (i < length t)%nat -> find_swap t va = None -> own_slots (<[i := mkSwapEnt va s 1]> t).
Proof.
  intros Hown Hi Hn a b e e' [(<- & <- & _)|[Ha He]]%list_lookup_insert_Some
    [(<- & <- & _)|[Hb He']]%list_lookup_insert_Some Hu Hu' Hv; try done.
  - exfalso. by apply (proj1 (find_swap_None t va) Hn b e').
  - exfalso. by apply (proj1 (find_swap_None t va) Hn a e).
  - by eapply Hown.
Qed.

Lemma own_clear t i : own_slots t -> own_slots (<[i := empty_ent]> t).
Proof.
  intros Hown a b e e' [(<- & <- & _)|[Ha He]]%list_lookup_insert_Some
    [(<- & <- & _)|[Hb He']]%list_lookup_insert_Some Hu Hu' Hv; try done. by eapply Hown.
Qed.

Lemma find_put t i va s va' :
  own_slots t -> free_slot t = Some i -> find_swap t va = None ->
  find_swap (<[i := mkSwapEnt va s 1]> t) va' = if va' =? va then Some i else find_swap t va'.
Proof.
  intros Hown Hfree Hn. apply first_index_Some in Hfree as [(e & He & Hu%negb_true_iff) _].
  pose proof (lookup_lt_Some _ _ _ He). destruct (Z.eqb_spec va' va) as [->|Hne].
  - eapply find_swap_uniq; [by apply own_put|by apply list_lookup_insert_eq|done|done].
  - eapply first_index_insert; [done|by rewrite Hu|]. simpl. apply Z.eqb_neq. congruence.
Qed.

Lemma find_clear t i va va' :
  own_slots t -> find_swap t va = Some i ->
  find_swap (<[i := empty_ent]> t) va' = if va' =? va then None else find_swap t va'.
Proof.
  intros Hown Hi. apply find_swap_Some in Hi as (e & He & Hu & Hv).
  destruct (Z.eqb_spec va' va) as [->|Hne].
  - apply find_swap_None. intros j e' [(_ & <- & _)|[Hj He']]%list_lookup_insert_Some Hu' Hv'; [done|].
    apply Hj. by eapply (Hown i j); eauto; congruence.
  - eapply first_index_insert; [done| |done]. rewrite Hu. simpl. apply Z.eqb_neq. congruence.
Qed.

(** Writing one slot leaves the slots in use as they were. *)
Lemma page_range_kept l l' slot i :
  (S i * Z.to_nat PGSIZE <= length l)%nat -> (length l <= length l')%nat -> i <> slot ->
  (forall k, ~ (Z.of_nat slot * PGSIZE <= Z.of_nat k < Z.of_nat slot * PGSIZE + PGSIZE) ->
     (k < length l)%nat -> l' !! k = l !! k) ->
  page_range l' i = page_range l i.
Proof.
  intros Hl Hl' Hne Hk. apply range_ext; [lia|done|]. intros k Hkr. apply Hk; unfold PGSIZE in *; lia.
Qed.

(** What [proc_swapout_page] leaves in the process on success. *)
Definition swapped_out (va : Z) (slot : nat) (p : proc) : proc :=
  let w := p_swap p in
  set_memstat (memstat_set_first (PGROUNDDOWN va) SWAPPED (Z.of_nat slot) (p_memstat p))
    (set_swap (mkSwap (swapfile w) (<[slot := mkSwapEnt (u32 (PGROUNDDOWN va)) (Z.of_nat slot) 1]> (swap_table w))
       (i32 (num_swapped_pages w + 1))) p).

Definition frame_bytes (k : kst F) (pa : Z) : list Z := load_bytes (pm_mem (k_pm k)) pa (Z.to_nat PGSIZE).

(** The other files are as they were. *)
Definition fs_kept (ip : Z) (f f' : F) : Prop :=
  (forall ip', ip' <> ip -> fdata f' ip' = fdata f ip') /\ (forall ip', inode_ref f ip' -> inode_ref f' ip').

Lemma fs_kept_refl ip f : fs_kept ip f f.
Proof. done. Qed.

(** The file after the write of a slot. *)
Lemma write_slot k ip slot bs :
  swap_inv k ip -> (slot < MAX_SWAP_PAGES)%nat -> is_bytes bs -> Z.of_nat (length bs) = PGSIZE ->
  exists f1 f2 f3 f4 f5 r, begin_op (k_fs k) = Ret tt f1 /\
    file_ip (swapfile (p_swap (k_p k))) f1 = Ret ip f1 /\ ilock ip f1 = Ret tt f2 /\
    writei ip (Z.of_nat slot * PGSIZE) bs f2 = Ret r f3 /\
    iunlock ip f3 = Ret tt f4 /\ end_op f4 = Ret tt f5 /\
    fs_inv f5 false None /\ open_file f5 (swapfile (p_swap (k_p k))) ip /\ fs_kept ip (k_fs k) f5 /\
    (length (fdata (k_fs k) ip) <= length (fdata f5 ip))%nat /\
    (forall i, i <> slot -> (S i * Z.to_nat PGSIZE <= length (fdata (k_fs k) ip))%nat ->
       page_range (fdata f5 ip) i = page_range (fdata (k_fs k) ip) i) /\
    (r = PGSIZE -> page_range (fdata f5 ip) slot = bs /\ (S slot * Z.to_nat PGSIZE <= length (fdata f5 ip))%nat).
Proof.
  intros Hi Hs Hb Hbl. assert (HP : PGSIZE = 4096) by done. unfold MAX_SWAP_PAGES in Hs.
  destruct (enter_file _ _ _ (si_fs _ _ Hi) (si_open _ _ Hi)) as (f1 & f2 & R1 & R2 & R3 & Hi2 & (D2 & I2 & O2)).
  destruct (law_writei f2 ip (Z.of_nat slot * PGSIZE) bs Hi2) as (r & f3 & R4 & Hi3 & D3 & I3 & O3 & Hr);
    [lia|done|done|].
  destruct (leave_file f3 ip Hi3) as (f4 & f5 & R5 & R6 & Hi5 & (D5 & I5 & O5)).
  exists f1, f2, f3, f4, f5, r. split_and!; try done; [by apply O5, O3, O2, Hi| |rewrite D5|intros i Hne Hl; rewrite D5|].
  - split; [intros ip' ?; by rewrite D5, D3, D2|auto].
  - destruct Hr as [(_ & Hoff & ->)|(_ & _ & Hlen)]; rewrite D2 in *; [|done].
    rewrite length_splice by lia. lia.
  - destruct Hr as [(_ & Hoff & ->)|(_ & Hout & Hlen)]; rewrite D2 in *.
    + eapply page_range_kept; [done| |exact Hne|]; [rewrite length_splice by lia; lia|].
      intros n Hn Hln. apply splice_other; lia.
    + by eapply page_range_kept.
  - rewrite D5. destruct Hr as [(_ & Hoff & ->)|(Hr & _)]; [intros _|lia]. rewrite D2 in *. split.
    + unfold page_range. replace (slot * Z.to_nat PGSIZE)%nat with (Z.to_nat (Z.of_nat slot * PGSIZE)) by lia.
      apply range_splice; lia.
    + rewrite length_splice by lia. lia.
Qed.

Lemma free_slot_lt t i : free_slot t = Some i -> (i < length t)%nat.
Proof. apply first_index_lt. Qed.

Lemma swap_view_ext k k' ip :
  swap_inv k ip -> swap_table (p_swap (k_p k')) = swap_table (p_swap (k_p k)) ->
  (forall i e, swap_table (p_swap (k_p k)) !! i = Some e -> used e = true ->
     page_range (fdata (k_fs k') ip) i = page_range (fdata (k_fs k) ip) i) ->
  forall va, swap_view k' ip va = swap_view k ip va.
Proof.
  intros Hi Ht Hp va. unfold swap_view. rewrite Ht. destruct (find_swap _ va) as [i|] eqn:E; [|done].
  apply find_swap_Some in E as (e & He & Hu & _). simpl. by rewrite (Hp i e).
Qed.

Lemma free_not_used t i j e : free_slot t = Some i -> t !! j = Some e -> used e = true -> j <> i.
Proof.
  intros [(e' & He' & Hu'%negb_true_iff) _]%first_index_Some He Hu ->. congruence.
Qed.

(** Why a swap-out fails: every slot is taken, or the file system does not take
    the whole page. *)
Definition swap_refused (k : kst F) (ip pa : Z) : Prop :=
  match free_slot (swap_table (p_swap (k_p k))) with
  | None => True
  | Some slot => exists f n f', writei ip (Z.of_nat slot * PGSIZE) (frame_bytes k pa) f = Ret n f' /\ n <> PGSIZE
  end.

Lemma swapout_run k ip va pa :
  swap_inv k ip -> 0 <= PGROUNDDOWN va < 2 ^ 32 -> swap_view k ip (PGROUNDDOWN va) = None ->
  exists r f', proc_swapout_page va pa k =
      Ret r (set_fs f' (set_p (if 0 <=? r then swapped_out va (Z.to_nat r) (k_p k) else k_p k) k)) /\
    let k' := set_fs f' (set_p (if 0 <=? r then swapped_out va (Z.to_nat r) (k_p k) else k_p k) k) in
    swap_inv k' ip /\ fs_kept ip (k_fs k) f' /\
    (r = -1 /\ swap_refused k ip pa /\ (forall va', swap_view k' ip va' = swap_view k ip va') \/
     0 <= r /\ free_slot (swap_table (p_swap (k_p k))) = Some (Z.to_nat r) /\
       (forall va', swap_view k' ip va' =
          if va' =? PGROUNDDOWN va then Some (frame_bytes k pa) else swap_view k ip va')).
Proof.
  intros Hi Hva Hnone. unfold proc_swapout_page. rewrite bind_myproc.
  destruct (Z.eqb_spec (swapfile (p_swap (k_p k))) 0) as [|Hf]; [by destruct (si_file _ _ Hi)|].
  rewrite bind_mret. change (0 <? 0) with false. cbv iota. rewrite bind_myproc.
  destruct (free_slot (swap_table (p_swap (k_p k)))) as [slot|] eqn:Efree.
  2:{ exists (-1), (k_fs k). destruct k as [? [] ? ?]. split; [done|]. cbv zeta. split; [done|]. split; [apply fs_kept_refl|left]. split_and!; [done| |done].
      unfold swap_refused. by rewrite Efree. }
  pose proof (free_slot_lt _ _ Efree) as Hlt. rewrite (si_len _ _ Hi) in Hlt.
  destruct (write_slot k ip slot (frame_bytes k pa) Hi Hlt) as
    (f1 & f2 & f3 & f4 & f5 & n & R1 & R2 & R3 & R4 & R5 & R6 & Hi5 & Ho5 & Hkept & Hlen & Hother & Hthis);
    [apply load_bytes_is_bytes|unfold frame_bytes; by rewrite length_load_bytes|].
  rewrite (bind_Ret _ _ _ _ _ (fs_Ret _ _ _ _ R1)).
  rewrite (bind_Ret _ _ _ _ _ (fs_Ret _ (set_fs f1 k) _ _ R2)).
  rewrite (bind_Ret _ _ _ _ _ (fs_Ret _ (set_fs f1 k) _ _ R3)). rewrite bind_getS.
  rewrite (bind_Ret _ _ _ _ _ (fs_Ret _ (set_fs f2 k) _ _ R4)).
  rewrite (bind_Ret _ _ _ _ _ (fs_Ret _ (set_fs f3 k) _ _ R5)).
  rewrite (bind_Ret _ _ _ _ _ (fs_Ret _ (set_fs f4 k) _ _ R6)).
  destruct (Z.eqb_spec n PGSIZE) as [->|Hn]; cbn [negb].
  - rewrite bind_modswap, bind_modmemstat. exists (Z.of_nat slot), f5.
    destruct (Z.leb_spec 0 (Z.of_nat slot)); [|lia]. rewrite Nat2Z.id. split; [done|]. cbv zeta.
    destruct (Hthis eq_refl) as [Hpg Hsz].
    assert (Hnf : find_swap (swap_table (p_swap (k_p k))) (PGROUNDDOWN va) = None).
    { unfold swap_view in Hnone. by destruct (find_swap _ _). }
    unfold swapped_out. split; [split|split; [done|]]; kcbn; try done.
    + rewrite length_insert. apply Hi.
    + rewrite u32_small by done. apply own_put; [apply Hi|by eapply free_slot_lt|done].
    + intros i e [(<- & _ & _)|[_ He]]%list_lookup_insert_Some Hu; [done|].
      pose proof (si_size _ _ Hi i e He Hu). lia.
    + right. split_and!; [lia|done|]. intros va'. unfold swap_view. kcbn. rewrite u32_small by done.
      rewrite find_put by (done || apply Hi). destruct (Z.eqb_spec va' (PGROUNDDOWN va)); [cbn; by rewrite Hpg|].
      destruct (find_swap _ va') as [i|] eqn:E; [|done]. apply find_swap_Some in E as (e & He & Hu & _).
      cbn [fmap option_fmap option_map]. rewrite Hother; [done|by eapply free_not_used|by eapply (si_size _ _ Hi)].
  - exists (-1), f5. split; [done|]. cbv zeta. split; [split; kcbn; try done|].
    + apply Hi.
    + apply Hi.
    + intros i e He Hu. pose proof (si_size _ _ Hi i e He Hu). lia.
    + split; [done|]. left. split; [done|]. split; [unfold swap_refused; rewrite Efree; by exists f2, n, f3|].
      eapply swap_view_ext; [done|done|]. intros i e He Hu.
      kcbn. apply Hother; [by eapply free_not_used|by eapply (si_size _ _ Hi)].
Qed.

(** What [swapin_page] leaves in the process on success. *)
Definition swapped_in (va : Z) (slot : nat) (p : proc) : proc :=
  let w := p_swap p in let c := p_count p in
  set_memstat (memstat_set_first (PGROUNDDOWN va) RESIDENT (-1) (p_memstat p))
    (set_count (mkCount (pagefault_count c) (i32 (resident_pages c + 1))
        (if 0 <? swapped_pages c then swapped_pages c - 1 else swapped_pages c)
        (i32 (swapin_count c + 1)) (swapout_count c) (vmtrace c))
      (set_swap (mkSwap (swapfile w) (<[slot := empty_ent]> (swap_table w))
        (if 0 <? num_swapped_pages w then num_swapped_pages w - 1 else num_swapped_pages w)) p)).

Definition after_swapin (va dst : Z) (slot : nat) (bs : list Z) (f' : F) (k : kst F) : kst F :=
  mkK (mkPmem (store_bytes (pm_mem (k_pm k)) dst bs) (freelist (k_pm k)))
    (swapped_in va slot (k_p k)) f'
    (k_out k ++ [(pid (k_p k), EvSwapin (PGROUNDDOWN va) (Z.of_nat slot))]).

Lemma read_slot k ip slot e :
  swap_inv k ip -> swap_table (p_swap (k_p k)) !! slot = Some e -> used e = true ->
  exists f1 f2 f3 f4 f5, begin_op (k_fs k) = Ret tt f1 /\
    file_ip (swapfile (p_swap (k_p k))) f1 = Ret ip f1 /\ ilock ip f1 = Ret tt f2 /\
    readi ip (Z.of_nat slot * PGSIZE) PGSIZE f2 = Ret (page_range (fdata (k_fs k) ip) slot) f3 /\
    iunlock ip f3 = Ret tt f4 /\ end_op f4 = Ret tt f5 /\ fs_inv f5 false None /\ fs_same (k_fs k) f5.
Proof.
  intros Hi He Hu. assert (HP : PGSIZE = 4096) by done.
  pose proof (lookup_lt_Some _ _ _ He) as Hlt. rewrite (si_len _ _ Hi) in Hlt. unfold MAX_SWAP_PAGES in Hlt.
  destruct (enter_file _ _ _ (si_fs _ _ Hi) (si_open _ _ Hi)) as (f1 & f2 & R1 & R2 & R3 & Hi2 & S2).
  destruct (law_readi f2 true ip (Z.of_nat slot * PGSIZE) PGSIZE Hi2) as (f3 & R4 & Hi3 & S3); [lia|lia|].
  destruct (leave_file f3 ip Hi3) as (f4 & f5 & R5 & R6 & Hi5 & S5).
  exists f1, f2, f3, f4, f5. split_and!; try done.
  - rewrite R4. f_equal. unfold page_range. destruct S2 as [-> _]. f_equal. lia.
  - eapply fs_same_trans; [exact S2|]. by eapply fs_same_trans.
Qed.

Lemma swapin_none k va dst :
  swapfile (p_swap (k_p k)) = 0 \/ find_swap (swap_table (p_swap (k_p k))) (PGROUNDDOWN va) = None ->
  swapin_page va dst k = Ret (-1) k.
Proof.
  intros H. unfold swapin_page. rewrite bind_myproc.
  destruct (Z.eqb_spec (swapfile (p_swap (k_p k))) 0) as [|Hf]; [done|]. destruct H as [|E]; [done|].
  unfold find_swap in E. by rewrite E.
Qed.

Lemma swapin_run k ip va dst slot :
  swap_inv k ip -> find_swap (swap_table (p_swap (k_p k))) (PGROUNDDOWN va) = Some slot ->
  exists f', let k' := after_swapin va dst slot (page_range (fdata (k_fs k) ip) slot) f' k in
    swapin_page va dst k = Ret (Z.of_nat slot) k' /\ swap_inv k' ip /\ fs_same (k_fs k) f' /\
    length (page_range (fdata (k_fs k) ip) slot) = Z.to_nat PGSIZE /\
    (forall va', swap_view k' ip va' = if va' =? PGROUNDDOWN va then None else swap_view k ip va').
Proof.
  intros Hi Hfind. pose proof (find_swap_Some _ _ _ Hfind) as (e & He & Hu & Hv).
  destruct (read_slot k ip slot e Hi He Hu) as (f1 & f2 & f3 & f4 & f5 & R1 & R2 & R3 & R4 & R5 & R6 & Hi5 & S5).
  assert (Hlen : length (page_range (fdata (k_fs k) ip) slot) = Z.to_nat PGSIZE).
  { unfold page_range. rewrite length_range. pose proof (si_size _ _ Hi slot e He Hu). lia. }
  exists f5. cbv zeta. split; [|split; [|split_and!; [done|done|]]].
  - unfold swapin_page. rewrite bind_myproc.
    destruct (Z.eqb_spec (swapfile (p_swap (k_p k))) 0) as [|Hf]; [by destruct (si_file _ _ Hi)|].
    unfold find_swap in Hfind. rewrite Hfind.
    rewrite (bind_Ret _ _ _ _ _ (fs_Ret _ _ _ _ R1)).
    rewrite (bind_Ret _ _ _ _ _ (fs_Ret _ (set_fs f1 k) _ _ R2)).
    rewrite (bind_Ret _ _ _ _ _ (fs_Ret _ (set_fs f1 k) _ _ R3)).
    rewrite (bind_Ret _ _ _ _ _ (fs_Ret _ (set_fs f2 k) _ _ R4)).
    set (bs := page_range (fdata (k_fs k) ip) slot) in *.
    rewrite bind_vm_modS.
    set (k1 := set_pm (mkPmem (store_bytes (pm_mem (k_pm k)) dst bs) (freelist (k_pm k))) (set_fs f3 k)).
    change (set_pm _ _) with k1.
    rewrite (bind_Ret _ _ _ _ _ (fs_Ret _ k1 _ _ R5)).
    rewrite (bind_Ret _ _ _ _ _ (fs_Ret _ (set_fs f4 k1) _ _ R6)).
    rewrite Hlen. change (negb (Z.of_nat (Z.to_nat PGSIZE) =? PGSIZE)) with false. cbv iota.
    rewrite bind_modswap, bind_printf, bind_modcount, bind_modmemstat. done.
  - destruct S5 as (D & I & O). unfold after_swapin, swapped_in. split; kcbn; try done.
    + apply Hi.
    + apply O, Hi.
    + rewrite length_insert. apply Hi.
    + apply own_clear, Hi.
    + intros i e' [(_ & <- & _)|[_ He']]%list_lookup_insert_Some Hu'; [done|]. rewrite D.
      by eapply (si_size _ _ Hi).
  - intros va'. destruct S5 as (D & _). unfold swap_view, after_swapin, swapped_in. kcbn.
    rewrite (find_clear _ _ (PGROUNDDOWN va)) by (done || apply Hi).
    destruct (va' =? PGROUNDDOWN va); [done|]. by rewrite D.
Qed.

(** swapping out a page that is not in the swap area returns.
    Either it returns the lowest free slot, the area now holds the frame's bytes
    for that address and the same bytes as before for every other, or it returns
    -1, because every slot is taken or the file system took less than a page, and
    the area and the process are unchanged.  Memory is never changed, and
    the swap invariant (one slot per address, slots within the file) is kept. *)
Theorem swapout_correct k ip va pa :
  swap_inv k ip -> 0 <= PGROUNDDOWN va < 2 ^ 32 -> swap_view k ip (PGROUNDDOWN va) = None ->
  exists r k', proc_swapout_page va pa k = Ret r k' /\ swap_inv k' ip /\ k_pm k' = k_pm k /\
    (r = -1 /\ swap_refused k ip pa /\ k_p k' = k_p k /\ (forall va', swap_view k' ip va' = swap_view k ip va') \/
     0 <= r /\ free_slot (swap_table (p_swap (k_p k))) = Some (Z.to_nat r) /\
       k_p k' = swapped_out va (Z.to_nat r) (k_p k) /\
       (forall va', swap_view k' ip va' =
          if va' =? PGROUNDDOWN va then Some (frame_bytes k pa) else swap_view k ip va')).
Proof.
  intros Hi Hva Hn. destruct (swapout_run k ip va pa Hi Hva Hn) as (r & f' & R & Hi' & _ & Hr).
  eexists r, _. split; [exact R|]. split; [exact Hi'|]. split; [done|].
  destruct Hr as [(-> & ? & Hv)|(Hr0 & Hs & Hv)]; [by left|right]. split_and!; try done.
  kcbn. destruct (Z.leb_spec 0 r); [done|lia].
Qed.

(** C16: a page swapped out and, after any changes to physical
    memory, swapped back in to any frame has there the bytes it had; the swap-in
    returns the slot the swap-out took, and the swap area is what it was before. *)
Theorem swap_roundtrip k ip va pa r k1 pm dst :
  swap_inv k ip -> 0 <= PGROUNDDOWN va < 2 ^ 32 -> swap_view k ip (PGROUNDDOWN va) = None ->
  proc_swapout_page va pa k = Ret r k1 -> 0 <= r ->
  exists k2, swapin_page va dst (set_pm pm k1) = Ret r k2 /\ swap_inv k2 ip /\
    frame_bytes k2 dst = frame_bytes k pa /\
    (forall va', swap_view k2 ip va' = swap_view k ip va').
Proof.
  intros Hi Hva Hn R Hr. destruct (swapout_run k ip va pa Hi Hva Hn) as (r' & f' & R' & Hi1 & _ & Hcase).
  rewrite R in R'. injection R' as <- Hk1. rewrite <- Hk1 in Hi1, Hcase.
  destruct Hcase as [(-> & _)|(_ & Hfree & Hv1)]; [lia|].
  assert (Hi1' : swap_inv (set_pm pm k1) ip) by (destruct Hi1; by split).
  pose proof (Hv1 (PGROUNDDOWN va)) as Hat. rewrite Z.eqb_refl in Hat. unfold swap_view in Hat.
  destruct (find_swap (swap_table (p_swap (k_p k1))) (PGROUNDDOWN va)) as [slot|] eqn:Hf; [|done].
  injection Hat as Hat. destruct (swapin_run (set_pm pm k1) ip va dst slot Hi1' Hf) as (f2 & R2 & Hi2 & _ & Hlen & Hv2).
  assert (Hslot : slot = Z.to_nat r).
  { rewrite Hk1 in Hf. destruct (Z.leb_spec 0 r); [|lia]. unfold swapped_out in Hf. kcbn.
    rewrite u32_small, find_put in Hf; [|apply Hi|done| |done].
    - rewrite Z.eqb_refl in Hf. congruence.
    - unfold swap_view in Hn. by destruct (find_swap _ _). }
  assert (Z.of_nat slot = r) as Er by lia. rewrite Er in R2. eexists. split; [exact R2|]. split; [exact Hi2|]. split.
  - unfold frame_bytes, after_swapin. kcbn. rewrite <- Hlen, load_store_bytes, Hat; [done|].
    rewrite Hat. apply load_bytes_is_bytes.
  - intros va'. rewrite Hv2. change (swap_view (set_pm pm k1) ip va') with (swap_view k1 ip va'). rewrite Hv1.
    destruct (Z.eqb_spec va' (PGROUNDDOWN va)) as [->|]; done.
Qed.
End swap.
