(* ===== verification/VmFault.v ===== *)
(** Allocation with replacement and lazy fault-in, kernel/vm.c (and
    kernel/vm_bonus.c, the same code with another replacement policy).

    [Policy] is what a build provides: the choice of a victim and the name it
    logs.  A kernel buffer at the other end of [copyin] and [copyout] is the list
    of its bytes. *)
From S2P Require Import Prelude Riscv PhysMem Kalloc PageTable Memstat Proc FsIface Swap.

Class Policy : Type := select_victim : proc_mem_stat -> Z * string.

Definition fifo : Policy := fun ms => (select_victim_fifo_index ms, "FIFO"%string).
Definition cleanfifo : Policy := fun ms =>
  let '(i, chose_clean) := select_victim_cleanfifo_index ms in
  (i, if chose_clean then "CLEANFIFO"%string else "FIFO"%string).

Section vmfault.
Context `{HL : Layout} {F : Type} `{FO : !FsOps F} `{PO : !Policy}.

(** Evict the page of entry [idx]; false when the swap area is full and the
    process has been killed. *)
Definition evict (idx : nat) (algo : string) : M (kst F) bool :=
  p ← myproc;
  let x := page_at (p_memstat p) idx in
  let va0 := PGROUNDDOWN (ps_va x) in
  _ ← printf (EvVictim va0 (ps_seq x) algo);
  let dirty := negb (ps_dirty x =? 0) in
  _ ← printf (EvEvict va0 dirty);
  pte ← vm (walk (pagetable p) va0 false);
  v ← (if pte =? 0 then mret 0 else vm (mem_load pte));
  if (pte =? 0) || negb (has v PTE_V) then
    _ ← modmemstat (fun ms => memstat_mark_unmapped ms va0); mret true
  else
    let pa := PTE2PA v in
    ok ← (if dirty then
            slot ← proc_swapout_page va0 pa;
            if slot <? 0 then
              _ ← printf EvSwapfull; _ ← printf EvKillSwapExhausted; _ ← setkilled; mret false
            else
              _ ← printf (EvSwapout va0 slot);
              _ ← modcount (fun c => mkCount (pagefault_count c)
                    (if 0 <? resident_pages c then resident_pages c - 1 else resident_pages c)
                    (i32 (swapped_pages c + 1)) (swapin_count c) (i32 (swapout_count c + 1)) (vmtrace c));
              _ ← modmemstat (fun ms => memstat_mark_swapped ms va0 slot);
              mret true
          else
            _ ← printf (EvDiscard va0);
            _ ← modmemstat (fun ms => memstat_mark_unmapped ms va0);
            _ ← modcount (fun c => mkCount (pagefault_count c)
                  (if 0 <? resident_pages c then resident_pages c - 1 else resident_pages c)
                  (swapped_pages c) (swapin_count c) (swapout_count c) (vmtrace c));
            mret true);
    if (ok : bool) then
      _ ← vm (mem_store pte 0);
      _ ← vm (kfree pa);
      mret true
    else mret false.

Definition try_kalloc_or_replace (faulting_va : Z) : M (kst F) Z :=
  mem ← vm kalloc;
  if negb (mem =? 0) then mret mem
  else
    _ ← printf EvMemfull;
    p ← myproc;
    let '(idx, algo) := select_victim (p_memstat p) in
    if idx <? 0 then _ ← printf EvKillSwapExhausted; _ ← setkilled; mret 0
    else
      ok ← evict (Z.to_nat idx) algo;
      if (ok : bool) then vm kalloc else mret 0.

Definition store_buf (a : Z) (bs : list Z) : M (kst F) unit :=
  vm (modS (fun m => mkPmem (store_bytes (pm_mem m) a bs) (freelist m))).

(** The file offset and size of the part of the segment in the page at [va]. *)
Definition seg_off (off va start : Z) : Z := u32 (off + (va - start)).
Definition seg_filesz (filesz va start : Z) : Z :=
  let f := if u64 (va - start) <? filesz then u32 (filesz - (va - start)) else 0 in
  if PGSIZE <? f then PGSIZE else f.

Definition vmfault (pt va : Z) : M (kst F) Z :=
  p ← myproc;
  let e := p_exec p in
  let va := PGROUNDDOWN va in
  let stack_end := PGROUNDUP (stack_top e) in
  let stack_base := u64 (stack_end - USERSTACK * PGSIZE) in
  let stack_guard := u64 (stack_end - (USERSTACK + 1) * PGSIZE) in
  if (stack_guard <=? va) && (va <? stack_base) then mret 0 else
  let under_brk := va <? sz p in
  im ← vm (ismapped pt va);
  if negb (im =? 0) then mret 0 else
  let in_text := under_brk && (text_start e <=? va) && (va <? text_end e) in
  let in_data := under_brk && (data_start e <=? va) && (va <? data_end e) in
  let in_stack := under_brk && (stack_base <=? va) && (va <? stack_end) in
  let in_heap := under_brk && negb ((stack_guard <=? va) && (va <? stack_base)) &&
                 negb in_stack && negb in_text && negb in_data in
  if in_text || in_data then
    buf ← try_kalloc_or_replace va;
    if buf =? 0 then mret 0 else
    _ ← vm (mem_fill buf 0 PGSIZE);
    let off := if in_text then seg_off (text_off e) va (text_start e) else seg_off (data_off e) va (data_start e) in
    let filesz := if in_text then seg_filesz (text_filesz e) va (text_start e)
                  else seg_filesz (data_filesz e) va (data_start e) in
    ok ← (if negb (exec_ip e =? 0) && (0 <? filesz) then
            _ ← fs (ilock (exec_ip e));
            bs ← fs (readi (exec_ip e) off filesz);
            _ ← store_buf buf bs;
            _ ← fs (iunlock (exec_ip e));
            mret (Z.of_nat (length bs) =? filesz)
          else mret true);
    if (ok : bool) then
      let perm := Z.lor (Z.lor PTE_U PTE_R) (if in_text then PTE_X else PTE_W) in
      r ← vm (mappages (pagetable p) va PGSIZE buf perm);
      if negb (r =? 0) then _ ← vm (kfree buf); mret 0 else mret buf
    else _ ← vm (kfree buf); mret 0
  else if in_stack || in_heap then
    mem ← try_kalloc_or_replace va;
    if mem =? 0 then mret 0 else
    _ ← vm (mem_fill mem 0 PGSIZE);
    r ← vm (mappages (pagetable p) va PGSIZE mem (Z.lor (Z.lor PTE_W PTE_U) PTE_R));
    if negb (r =? 0) then _ ← vm (kfree mem); mret 0 else mret mem
  else mret 0.

(** [walkaddr], and [vmfault] when the page is not there. *)
Definition fault_addr (pt va0 : Z) : M (kst F) Z :=
  pa0 ← vm (walkaddr pt va0);
  if pa0 =? 0 then vmfault pt va0 else mret pa0.

Fixpoint copyout_loop (fuel : nat) (pt dstva : Z) (src : list Z) : M (kst F) Z :=
  match fuel with
  | O => diverge
  | S fuel =>
      match src with
      | [] => mret 0
      | _ =>
          let va0 := PGROUNDDOWN dstva in
          if MAXVA <=? va0 then mret (-1) else
          pa0 ← fault_addr pt va0;
          if pa0 =? 0 then mret (-1) else
          pte ← vm (walk pt va0 false);
          if pte =? 0 then panic "kerneltrap" else
          v ← vm (mem_load pte);
          if negb (has v PTE_W) then mret (-1) else
          let n := Z.to_nat (PGSIZE - (dstva - va0)) in
          _ ← store_buf (pa0 + (dstva - va0)) (take n src);
          copyout_loop fuel pt (u64 (va0 + PGSIZE)) (drop n src)
      end
  end.

Definition copyout (pt dstva : Z) (src : list Z) : M (kst F) Z :=
  copyout_loop (S (S (S (length src / Z.to_nat PGSIZE)))) pt dstva src.

(** The result code and the bytes that reached the kernel buffer. *)
Fixpoint copyin_loop (fuel : nat) (pt srcva len : Z) (acc : list Z) : M (kst F) (Z * list Z) :=
  match fuel with
  | O => diverge
  | S fuel =>
      if 0 <? len then
        let va0 := PGROUNDDOWN srcva in
        if MAXVA <=? va0 then mret (-1, acc) else
        pa0 ← fault_addr pt va0;
        if pa0 =? 0 then mret (-1, acc) else
        let n := Z.min (PGSIZE - (srcva - va0)) len in
        k ← getS;
        let bs := load_bytes (pm_mem (k_pm k)) (pa0 + (srcva - va0)) (Z.to_nat n) in
        copyin_loop fuel pt (u64 (va0 + PGSIZE)) (len - n) (acc ++ bs)
      else mret (0, acc)
  end.

Definition copyin (pt srcva len : Z) : M (kst F) (Z * list Z) :=
  copyin_loop (S (S (S (Z.to_nat (len / PGSIZE))))) pt srcva len [].

(** The bytes up to the first null, which ends the copy. *)
Fixpoint until_null (l : list Z) : bool * list Z :=
  match l with
  | [] => (false, [])
  | b :: l => if b =? 0 then (true, [0]) else let '(g, r) := until_null l in (g, b :: r)
  end.

Fixpoint copyinstr_loop (fuel : nat) (pt srcva max : Z) (acc : list Z) : M (kst F) (Z * list Z) :=
  match fuel with
  | O => diverge
  | S fuel =>
      if 0 <? max then
        let va0 := PGROUNDDOWN srcva in
        if MAXVA <=? va0 then mret (-1, acc) else
        pa0 ← fault_addr pt va0;
        if pa0 =? 0 then mret (-1, acc) else
        let n := Z.min (PGSIZE - (srcva - va0)) max in
        k ← getS;
        let bs := load_bytes (pm_mem (k_pm k)) (pa0 + (srcva - va0)) (Z.to_nat n) in
        let '(got_null, copied) := until_null bs in
        if got_null then mret (0, acc ++ copied)
        else copyinstr_loop fuel pt (u64 (va0 + PGSIZE)) (max - n) (acc ++ copied)
      else mret (-1, acc)
  end.

Definition copyinstr (pt srcva max : Z) : M (kst F) (Z * list Z) :=
  copyinstr_loop (S (S (S (Z.to_nat (max / PGSIZE))))) pt srcva max [].
End vmfault.
