(* ===== verification/Evict.v ===== *)
(** Correctness of allocation with replacement.

    [drop_page] is the page-table side of an eviction (clear the entry, free
    the frame); [try_kalloc] composes it with the policy, the swap area and the
    bookkeeping table.  The theorems hold for any policy that picks a resident
    page when there is one, which both builds do. *)
From S2P Require Import Prelude Riscv PhysMem Kalloc PageTable PtTree PtMap PtUser.
From S2P Require Import Memstat Proc FsIface Swap SwapProofs VmFault.

(** The promise a policy makes to the eviction code. *)
Class PolicyOk (P : Policy) : Prop := policy_ok : forall ms,
  (fst (select_victim ms) < 0 /\ forall j y, pages ms !! j = Some y -> is_resident y = false) \/
  (exists i x, fst (select_victim ms) = Z.of_nat i /\ pages ms !! i = Some x /\ is_resident x = true).

#[global] Instance fifo_ok : PolicyOk fifo.
Proof.
  intros ms. unfold select_victim, fifo, select_victim_fifo_index. cbn [fst]. rewrite fifo_loop_sel.
  destruct (sel_spec is_resident (pages ms)) as [[-> Hn]|(k & x & -> & Hx & Hr & _)].
  - left. split; [lia|done].
  - right. by exists k, x.
Qed.

#[global] Instance cleanfifo_ok : PolicyOk cleanfifo.
Proof.
  intros ms. unfold select_victim, cleanfifo, select_victim_cleanfifo_index.
  rewrite cleanfifo_loop_sel. destruct (sel_spec clean (pages ms)) as [[-> _]|(k & x & -> & Hx & Hr & _)].
  - destruct (Z.leb_spec 0 (-1)); [lia|]. cbn [fst].
    destruct (sel_spec is_resident (pages ms)) as [[-> Hn]|(k & x & -> & Hx & Hr & _)].
    + left. split; [lia|done].
    + right. by exists k, x.
  - destruct (Z.leb_spec 0 (Z.of_nat k)); [|lia]. right. exists k, x. split_and!; [done|done|].
    unfold clean in Hr. by apply andb_true_iff in Hr as [? _].
Qed.

Section drop.
Context `{HL : Layout} `{!LayoutOk}.

(** The page at [a] is gone, its frame is [pa]; nothing else changed. *)
Record dropped (root a pa : Z) (s s' : pmem) : Prop := {
  dr_pte : forall vb, 0 <= vb < MAXVA -> pte_of (pm_mem s') root vb =
    if inr a PGSIZE vb then 0 else pte_of (pm_mem s) root vb;
  dr_node : forall p, okpath p -> node (pm_mem s') root p = node (pm_mem s) root p;
  dr_frame : forall p, p mod PGSIZE = 0 -> ~ tree_page (pm_mem s) root p -> p <> pa ->
    agree p PGSIZE (pm_mem s) (pm_mem s')
}.

Lemma pte_addr_node m root va :
  pt_wf m root -> mapped m root va ->
  exists t, node m root (leaf_path va) = Some t /\ pte_addr m root va = t + 8 * PX 0 va /\ 0 < pte_addr m root va.
Proof.
  intros Hwf Hm. destruct (pte_addr_load m root va Hwf) as [(_ & _ & E)|[Hp _]].
  - unfold mapped in Hm. by rewrite E in Hm.
  - unfold pte_addr in *. destruct (node m root (leaf_path va)) as [t|]; [|lia]. by exists t.
Qed.

Lemma clear_pte s root F lim a :
  as_inv s root F lim -> a mod PGSIZE = 0 -> 0 <= a -> a + PGSIZE <= lim -> mapped (pm_mem s) root a ->
  exists s1, mem_store (pte_addr (pm_mem s) root a) 0 s = Ret tt s1 /\
    evolves root s F s1 F /\
    (forall p, okpath p -> node (pm_mem s1) root p = node (pm_mem s) root p) /\
    (forall vb, 0 <= vb < MAXVA -> pte_of (pm_mem s1) root vb =
       if inr a PGSIZE vb then 0 else pte_of (pm_mem s) root vb).
Proof.
  intros Has Ha Ha0 Hlim Hm. pose proof (as_lim _ _ _ _ Has). pose proof (as_pt _ _ _ _ Has) as Hpt.
  assert (HP : PGSIZE = 4096) by done.
  destruct (pte_addr_node _ _ _ (pi_wf _ _ _ Hpt) Hm) as (t & Ht & -> & _).
  destruct (store_leaf_evolves s root F a t 0 Hpt) as [Ev Hp]; [lia|lia|done|].
  destruct (store_leaf (pm_mem s) root a 0 t (pi_wf _ _ _ Hpt) Ht ltac:(lia)) as (Hia & _).
  eexists. split; [reflexivity|]. split; [exact Ev|]. split.
  - by apply node_frame.
  - intros vb Hvb. rewrite Hp by done. case_decide as E.
    + rewrite pgdown_step in E by done. by rewrite inr_true by lia.
    + rewrite pgdown_step in E by done. by rewrite inr_false by lia.
Qed.

Lemma drop_page s root F lim a :
  as_inv s root F lim -> a mod PGSIZE = 0 -> 0 <= a -> a + PGSIZE <= lim -> mapped (pm_mem s) root a ->
  let pa := PTE2PA (pte_of (pm_mem s) root a) in
  exists s1 s2, mem_store (pte_addr (pm_mem s) root a) 0 s = Ret tt s1 /\ kfree pa s1 = Ret tt s2 /\
    as_inv s2 root (pa :: F) lim /\ dropped root a pa s s2.
Proof.
  intros Has Ha Ha0 Hlim Hm pa. pose proof (as_lim _ _ _ _ Has). assert (HP : PGSIZE = 4096) by done.
  destruct (clear_pte s root F lim a Has Ha Ha0 Hlim Hm) as (s1 & R1 & Ev & Hn1 & Hp1).
  destruct (as_frame _ _ _ _ Has a ltac:(lia) Hm) as (Hok & HpF & HpT). fold pa in Hok, HpF, HpT.
  destruct (free_step s1 root F pa true) as (s2 & R2 & Hi2 & Hse2 & Hn2 & Hp2); [apply Ev| |].
  { intros _. split_and!; [done|done|]. by rewrite tree_page_ext by exact Hn1. }
  assert (Hpte : forall vb, 0 <= vb < MAXVA -> pte_of (pm_mem s2) root vb =
    if inr a PGSIZE vb then 0 else pte_of (pm_mem s) root vb) by (intros; rewrite Hp2; auto).
  assert (Hnode : forall p, okpath p -> node (pm_mem s2) root p = node (pm_mem s) root p).
  { intros p Hp. rewrite Hn2 by done. auto. }
  assert (Hmap : forall vb, 0 <= vb < lim -> mapped (pm_mem s2) root vb ->
    ~ (a <= vb < a + PGSIZE) /\ mapped (pm_mem s) root vb /\
    pte_of (pm_mem s2) root vb = pte_of (pm_mem s) root vb).
  { intros vb Hvb. unfold mapped. rewrite Hpte by lia. destruct (inr a PGSIZE vb) eqn:Ei; [done|].
    intros ?. split_and!; try done. rewrite <- inr_spec. by rewrite Ei. }
  exists s1, s2. split_and!; [done|done| |].
  - split; [done|done|..].
    + intros vb Hvb Hmb. destruct (Hmap vb Hvb Hmb) as (Hout & Hms & E). cbv zeta. rewrite E.
      destruct (as_frame _ _ _ _ Has vb Hvb Hms) as (? & ? & HT). split_and!; [done| |].
      * intros [Epa|?]%elem_of_cons; [|done]. apply Hout. apply pgdown_step; [done|].
        apply (as_own _ _ _ _ Has); try done; lia.
      * by rewrite tree_page_ext by exact Hnode.
    + intros va vb Hva Hvb Hma Hmb. destruct (Hmap va Hva Hma) as (_ & ? & ->), (Hmap vb Hvb Hmb) as (_ & ? & ->).
      by apply Has.
  - split; [done|done|]. intros p Hp HT Hne.
    destruct (decide (p ∈ F)) as [HF|HF].
    + eapply agree_trans; [|apply Hse2; [done|set_solver]].
      destruct (pte_addr_node _ _ _ (pi_wf _ _ _ (as_pt _ _ _ _ Has)) Hm) as (t & Ht & Ea & _).
      rewrite Ea in R1. injection R1 as <-. apply agree_sym, agree_st. cbn [pm_mem].
      assert (tree_page (pm_mem s) root t) as Htt by (exists (leaf_path a); split; [apply okpath_leaf|done]).
      assert (t mod PGSIZE = 0) by (by apply (wf_page _ _ (pi_wf _ _ _ (as_pt _ _ _ _ Has)) (leaf_path a)); [apply okpath_leaf|]).
      pose proof (PX_range 0 a). destruct (pages_apart p t); try done; try lia. congruence.
    + eapply agree_trans; [apply (ev_frame _ _ _ _ _ Ev); done|]. apply Hse2; [done|set_solver].
Qed.
End drop.

Section evict.
Context `{HL : Layout} `{!LayoutOk} {F : Type} `{FO : !FsOps F} `{FL : !FsLaws F}.
Context {PO : Policy} `{!PolicyOk PO}.

(** The invariant of a process's paging state; [Fr] is the free list. *)
Record pg_inv (k : kst F) (ip : Z) (Fr : list Z) (lim : Z) : Prop := {
  pg_as : as_inv (k_pm k) (pagetable (k_p k)) Fr lim;
  pg_lim : 2 ^ 32 <= lim;
  pg_tbl : tbl_ok (p_memstat (k_p k));
  pg_va : forall i x, pages (p_memstat (k_p k)) !! i = Some x -> is_live x = true ->
    ps_va x mod PGSIZE = 0 /\ 0 <= ps_va x < 2 ^ 32;
  pg_swap : swap_inv k ip;
  pg_sw : forall va, is_Some (find_swap (swap_table (p_swap (k_p k))) va) <->
    exists i x, pages (p_memstat (k_p k)) !! i = Some x /\ ps_state x = SWAPPED /\ ps_va x = va
}.

Lemma swapped_live x : ps_state x = SWAPPED -> is_live x = true /\ is_resident x = false.
Proof. unfold is_live, is_resident. by intros ->. Qed.

(** A resident page is not in the swap area. *)
Lemma pg_res k ip Fr lim i x :
  pg_inv k ip Fr lim -> pages (p_memstat (k_p k)) !! i = Some x -> is_resident x = true ->
  find_swap (swap_table (p_swap (k_p k))) (ps_va x) = None.
Proof.
  intros Hi Hx Hr. apply eq_None_not_Some. intros (j & y & Hy & Hs & Ev)%(pg_sw _ _ _ _ Hi).
  destruct (swapped_live y Hs) as [Hly Hny].
  destruct (live_unique _ i j x y (pg_tbl _ _ _ _ Hi) Hx Hy) as [_ ->]; [by apply resident_live|done|done|congruence].
Qed.

(** [pa] is a frame no one uses, taken from the page at [a]. *)
Record evicted (root a pa lim : Z) (s s' : pmem) : Prop := {
  ev_as : as_inv s' root [] lim;
  ev_dropped : forall vb, 0 <= vb < MAXVA -> pte_of (pm_mem s') root vb =
    if inr a PGSIZE vb then 0 else pte_of (pm_mem s) root vb;
  ev_kept : forall p, p mod PGSIZE = 0 -> ~ tree_page (pm_mem s) root p -> p <> pa ->
    agree p PGSIZE (pm_mem s) (pm_mem s');
  ev_page : page_ok pa /\ ~ tree_page (pm_mem s') root pa /\
    forall vb, 0 <= vb < lim -> mapped (pm_mem s') root vb -> PTE2PA (pte_of (pm_mem s') root vb) <> pa
}.

Lemma drop_realloc s root lim a :
  as_inv s root [] lim -> a mod PGSIZE = 0 -> 0 <= a -> a + PGSIZE <= lim -> mapped (pm_mem s) root a ->
  let pa := PTE2PA (pte_of (pm_mem s) root a) in
  exists s1 s2 s3, mem_store (pte_addr (pm_mem s) root a) 0 s = Ret tt s1 /\ kfree pa s1 = Ret tt s2 /\
    kalloc s2 = Ret pa s3 /\ pa <> 0 /\ evicted root a pa lim s s3.
Proof.
  intros Has Ha Ha0 Hlim Hm pa.
  destruct (drop_page s root [] lim a Has Ha Ha0 Hlim Hm) as (s1 & s2 & R1 & R2 & Has2 & [Dp Dn Df]).
  fold pa in R2, Has2, Df.
  destruct (alloc_frame s2 root pa [] lim Has2) as (s3 & R3 & Hse & Hok & _ & HT & Hpr & Hw).
  destruct (Hw (pm_mem s3) Hse) as (Has3 & Hn3 & Hp3). pose proof (page_ok_range pa Hok).
  exists s1, s2, s3. split_and!; try done; [lia|]. split.
  - by destruct s3.
  - intros vb Hvb. rewrite Hp3. by apply Dp.
  - intros p Hp HTp Hne. eapply agree_trans; [by apply Df|]. apply Hse; [done|set_solver].
  - split_and!; [done|by rewrite tree_page_ext by exact Hn3|]. intros vb Hvb.
    unfold mapped. rewrite Hp3. by apply Hpr.
Qed.

Definition retry (idx : nat) (algo : string) : M (kst F) Z :=
  ok ← evict idx algo; if (ok : bool) then vm kalloc else mret 0.

Definition dec_resident (c : pcount) : Z :=
  if 0 <? resident_pages c then resident_pages c - 1 else resident_pages c.

(** The process after a clean page was discarded, and after a dirty one was swapped out. *)
Definition discarded (va : Z) (p : proc) : proc :=
  let c := p_count p in
  set_count (mkCount (pagefault_count c) (dec_resident c) (swapped_pages c) (swapin_count c) (swapout_count c) (vmtrace c))
    (set_memstat (memstat_mark_unmapped (p_memstat p) va) p).

Definition evicted_dirty (va : Z) (slot : nat) (p : proc) : proc :=
  let p := swapped_out va slot p in let c := p_count p in
  set_memstat (memstat_mark_swapped (p_memstat p) va (Z.of_nat slot))
    (set_count (mkCount (pagefault_count c) (dec_resident c) (i32 (swapped_pages c + 1))
       (swapin_count c) (i32 (swapout_count c + 1)) (vmtrace c)) p).

Definition say (k : kst F) (es : list vm_event) : list (Z * vm_event) :=
  k_out k ++ ((fun e => (pid (k_p k), e)) <$> es).

(** The part of [evict] before the page is written or discarded. *)
Lemma evict_start k ip Fr lim idx x algo :
  pg_inv k ip Fr lim -> pages (p_memstat (k_p k)) !! idx = Some x -> is_resident x = true ->
  let root := pagetable (k_p k) in let v := pte_of (pm_mem (k_pm k)) root (ps_va x) in
  let pte := pte_addr (pm_mem (k_pm k)) root (ps_va x) in
  let k1 := mkK (k_pm k) (k_p k) (k_fs k)
              (say k [EvVictim (ps_va x) (ps_seq x) algo; EvEvict (ps_va x) (negb (ps_dirty x =? 0))]) in
  PGROUNDDOWN (ps_va x) = ps_va x /\
  vm (walk root (ps_va x) false) k1 = Ret pte k1 /\
  (if pte =? 0 then mret 0 else vm (mem_load pte)) k1 = Ret v k1 /\
  (has v PTE_V = true -> (pte =? 0) = false).
Proof.
  intros Hi Hx Hr root v pte k1. destruct (pg_va _ _ _ _ Hi idx x Hx (resident_live x Hr)) as [Ha Hrg].
  pose proof (as_lim _ _ _ _ (pg_as _ _ _ _ Hi)). pose proof (pg_lim _ _ _ _ Hi). pose proof MAXVA_eq.
  pose proof (pi_wf _ _ _ (as_pt _ _ _ _ (pg_as _ _ _ _ Hi))) as Hwf.
  split; [by apply PGROUNDDOWN_aligned|].
  assert (Hrange : 0 <= ps_va x < MAXVA) by lia.
  assert (R : walk root (ps_va x) false (k_pm k1) = Ret pte (k_pm k)) by (apply (walk_noalloc (k_pm k)); done).
  split; [exact (vm_Ret _ k1 _ _ R)|].
  destruct (pte_addr_load (pm_mem (k_pm k)) root (ps_va x) Hwf) as [(E & _ & E')|[Hp E]].
  - fold pte in E. fold v in E'. rewrite E, E'. by split.
  - fold pte in E, Hp. fold v in E. destruct (Z.eqb_spec pte 0); [lia|]. split; [|done].
    assert (Rl : mem_load pte (k_pm k1) = Ret v (k_pm k)) by (rewrite <- E; done).
    exact (vm_Ret _ k1 _ _ Rl).
Qed.

Lemma retry_unmapped k ip lim idx x algo :
  pg_inv k ip [] lim -> pages (p_memstat (k_p k)) !! idx = Some x -> is_resident x = true ->
  ~ mapped (pm_mem (k_pm k)) (pagetable (k_p k)) (ps_va x) ->
  retry idx algo k = Ret 0 (mkK (k_pm k) (set_memstat (memstat_mark_unmapped (p_memstat (k_p k)) (ps_va x)) (k_p k))
    (k_fs k) (say k [EvVictim (ps_va x) (ps_seq x) algo; EvEvict (ps_va x) (negb (ps_dirty x =? 0))])).
Proof.
  intros Hi Hx Hr Hm. destruct (evict_start k ip [] lim idx x algo Hi Hx Hr) as (Eva & R1 & R2 & _).
  unfold retry, evict. rewrite bind_assoc, bind_myproc. rewrite (page_at_lookup _ _ _ Hx), Eva.
  rewrite bind_assoc, bind_printf, bind_assoc, bind_printf. kcbn.
  rewrite <- (assoc_L (++)). cbn [app].
  rewrite bind_assoc, (bind_Ret _ _ _ _ _ R1), bind_assoc, (bind_Ret _ _ _ _ _ R2).
  unfold mapped in Hm. destruct (has _ PTE_V); [done|]. rewrite orb_true_r.
  rewrite bind_assoc, bind_modmemstat, bind_mret. kcbn.
  rewrite (vm_Ret kalloc _ 0 (k_pm k)); [done|]. kcbn. apply kalloc_empty, Hi.
Qed.

(** Clearing the entry, freeing and reallocating the frame, from any state with
    the same memory. *)
Lemma finish_evict (k : kst F) root lim a :
  as_inv (k_pm k) root [] lim -> a mod PGSIZE = 0 -> 0 <= a -> a + PGSIZE <= lim ->
  mapped (pm_mem (k_pm k)) root a ->
  let pa := PTE2PA (pte_of (pm_mem (k_pm k)) root a) in
  exists s3, ((_ ← vm (mem_store (pte_addr (pm_mem (k_pm k)) root a) 0); _ ← vm (kfree pa); mret true)
      ≫= fun ok : bool => if ok then vm kalloc else mret 0) k = Ret pa (set_pm s3 k) /\ pa <> 0 /\ evicted root a pa lim (k_pm k) s3.
Proof.
  intros Has Ha Ha0 Hlim Hm pa.
  destruct (drop_realloc (k_pm k) root lim a Has Ha Ha0 Hlim Hm) as (s1 & s2 & s3 & R1 & R2 & R3 & Hne & Hev).
  exists s3. split_and!; [|done|done].
  rewrite bind_assoc, (bind_Ret _ _ _ _ _ (vm_Ret _ k _ _ R1)).
  rewrite bind_assoc, (bind_Ret _ _ _ _ _ (vm_Ret _ (set_pm s1 k) _ _ R2)), bind_mret.
  exact (vm_Ret _ (set_pm s2 k) _ _ R3).
Qed.

Lemma victim_bounds k ip Fr lim idx x :
  pg_inv k ip Fr lim -> pages (p_memstat (k_p k)) !! idx = Some x -> is_resident x = true ->
  ps_va x mod PGSIZE = 0 /\ 0 <= ps_va x < 2 ^ 32 /\ ps_va x + PGSIZE <= lim.
Proof.
  intros Hi Hx Hr. destruct (pg_va _ _ _ _ Hi idx x Hx (resident_live x Hr)) as [Ha Hrg].
  pose proof (pg_lim _ _ _ _ Hi). split_and!; [done|lia..|]. unfold PGSIZE in *.
  Z.to_euclidean_division_equations. lia.
Qed.

Lemma retry_clean k ip lim idx x algo :
  pg_inv k ip [] lim -> pages (p_memstat (k_p k)) !! idx = Some x -> is_resident x = true ->
  mapped (pm_mem (k_pm k)) (pagetable (k_p k)) (ps_va x) -> ps_dirty x = 0 ->
  let pa := PTE2PA (pte_of (pm_mem (k_pm k)) (pagetable (k_p k)) (ps_va x)) in
  exists s', retry idx algo k = Ret pa (mkK s' (discarded (ps_va x) (k_p k)) (k_fs k)
      (say k [EvVictim (ps_va x) (ps_seq x) algo; EvEvict (ps_va x) false; EvDiscard (ps_va x)])) /\
    pa <> 0 /\ evicted (pagetable (k_p k)) (ps_va x) pa lim (k_pm k) s'.
Proof.
  intros Hi Hx Hr Hm Hd pa. destruct (victim_bounds k ip [] lim idx x Hi Hx Hr) as (Ha & Hrg & Hl).
  destruct (evict_start k ip [] lim idx x algo Hi Hx Hr) as (Eva & R1 & R2 & Hp0).
  set (k1 := mkK (k_pm k) (discarded (ps_va x) (k_p k)) (k_fs k)
    (say k [EvVictim (ps_va x) (ps_seq x) algo; EvEvict (ps_va x) false; EvDiscard (ps_va x)])).
  destruct (finish_evict k1 (pagetable (k_p k)) lim (ps_va x)) as (s3 & R3 & Hne & Hev);
    [apply Hi|done|lia|done|done|].
  exists s3. split_and!; [|done|done].
  unfold retry, evict. rewrite bind_assoc, bind_myproc. rewrite (page_at_lookup _ _ _ Hx), Eva.
  rewrite bind_assoc, bind_printf, bind_assoc, bind_printf. kcbn. rewrite <- (assoc_L (++)). cbn [app].
  rewrite bind_assoc, (bind_Ret _ _ _ _ _ R1), bind_assoc, (bind_Ret _ _ _ _ _ R2).
  unfold mapped in Hm. rewrite Hm in *. rewrite Hp0 by done. rewrite Hd. cbn [orb negb Z.eqb].
  rewrite !bind_assoc, bind_printf, !bind_assoc, bind_modmemstat, !bind_assoc, bind_modcount, bind_mret. kcbn.
  cbv iota. unfold say. rewrite <- (assoc_L (++)). exact R3.
Qed.

Lemma swap_inv_out k ip s o : swap_inv k ip -> swap_inv (mkK s (k_p k) (k_fs k) o) ip.
Proof. intros []. by split. Qed.

(** A dirty victim: either the swap area takes it, or the process is killed. *)
Lemma retry_dirty k ip lim idx x algo :
  pg_inv k ip [] lim -> pages (p_memstat (k_p k)) !! idx = Some x -> is_resident x = true ->
  mapped (pm_mem (k_pm k)) (pagetable (k_p k)) (ps_va x) -> ps_dirty x <> 0 ->
  let pa := PTE2PA (pte_of (pm_mem (k_pm k)) (pagetable (k_p k)) (ps_va x)) in
  exists r k', retry idx algo k = Ret r k' /\
    (r = 0 /\ swap_refused k ip pa /\ k_pm k' = k_pm k /\ k_p k' = set_killed_flag (k_p k) /\ swap_inv k' ip /\
       k_out k' = say k [EvVictim (ps_va x) (ps_seq x) algo; EvEvict (ps_va x) true; EvSwapfull; EvKillSwapExhausted] /\
       (forall va, swap_view k' ip va = swap_view k ip va) \/
     r = pa /\ pa <> 0 /\ evicted (pagetable (k_p k)) (ps_va x) pa lim (k_pm k) (k_pm k') /\
       swap_inv k' ip /\ fs_kept ip (k_fs k) (k_fs k') /\
       exists slot, free_slot (swap_table (p_swap (k_p k))) = Some slot /\
         k_p k' = evicted_dirty (ps_va x) slot (k_p k) /\
         k_out k' = say k [EvVictim (ps_va x) (ps_seq x) algo; EvEvict (ps_va x) true; EvSwapout (ps_va x) (Z.of_nat slot)] /\
         (forall va, swap_view k' ip va =
            if va =? ps_va x then Some (frame_bytes k pa) else swap_view k ip va)).
Proof.
  intros Hi Hx Hr Hm Hd pa. destruct (victim_bounds k ip [] lim idx x Hi Hx Hr) as (Ha & Hrg & Hl).
  destruct (evict_start k ip [] lim idx x algo Hi Hx Hr) as (Eva & R1 & R2 & Hp0).
  assert (Hdb : negb (ps_dirty x =? 0) = true) by (by destruct (Z.eqb_spec (ps_dirty x) 0)).
  rewrite Hdb in R1, R2.
  set (k1 := mkK (k_pm k) (k_p k) (k_fs k) (say k [EvVictim (ps_va x) (ps_seq x) algo; EvEvict (ps_va x) true])) in *.
  destruct (swapout_run k1 ip (ps_va x) pa) as (r & f' & R3 & Hi3 & Hkept & Hcase);
    [by apply swap_inv_out, Hi|by rewrite Eva|rewrite Eva; unfold swap_view, k1; kcbn; by rewrite (pg_res k ip [] lim idx x)|].
  assert (Hstart : retry idx algo k = ((slot ← proc_swapout_page (ps_va x) pa;
      if slot <? 0 then _ ← printf EvSwapfull; _ ← printf EvKillSwapExhausted; _ ← setkilled; mret false
      else _ ← printf (EvSwapout (ps_va x) slot);
           _ ← modcount (fun c => mkCount (pagefault_count c) (dec_resident c)
                 (i32 (swapped_pages c + 1)) (swapin_count c) (i32 (swapout_count c + 1)) (vmtrace c));
           _ ← modmemstat (fun ms => memstat_mark_swapped ms (ps_va x) slot); mret true) ≫=
      fun ok : bool => (if ok then _ ← vm (mem_store (pte_addr (pm_mem (k_pm k)) (pagetable (k_p k)) (ps_va x)) 0);
        _ ← vm (kfree pa); mret true else mret false) ≫= fun ok : bool => if ok then vm kalloc else mret 0) k1).
  { unfold retry, evict. rewrite bind_assoc, bind_myproc. rewrite (page_at_lookup _ _ _ Hx), Eva.
    rewrite bind_assoc, bind_printf, bind_assoc, bind_printf. kcbn. rewrite <- (assoc_L (++)). cbn [app]. rewrite Hdb.
    rewrite bind_assoc, (bind_Ret _ _ _ _ _ R1), bind_assoc, (bind_Ret _ _ _ _ _ R2).
    unfold mapped in Hm. rewrite Hm in *. rewrite Hp0 by done. cbn [orb negb]. by rewrite bind_assoc. }
  rewrite Hstart. clear Hstart. rewrite bind_assoc, (bind_Ret _ _ _ _ _ R3).
  destruct Hcase as [(-> & Href & Hv)|(Hr0 & Hfree & Hv)].
  - cbn [Z.ltb Z.compare Z.leb].  eexists 0, _. split; [reflexivity|]. left.
    split_and!; try done; [|unfold k1, say; kcbn; by rewrite <- !(assoc_L (++))].
    destruct Hi3. by split.
  - destruct (Z.ltb_spec r 0); [lia|]. rewrite !bind_assoc, bind_printf, !bind_assoc, bind_modcount,
      !bind_assoc, bind_modmemstat, bind_mret. cbv iota.
    set (k2 := set_p _ _). destruct (finish_evict k2 (pagetable (k_p k)) lim (ps_va x)) as (s3 & R4 & Hne & Hev);
      [apply Hi|done|lia|done|done|].
    eexists pa, _. split; [exact R4|]. right. split_and!; try done.
    + destruct Hi3. unfold k2. destruct (Z.leb_spec 0 r); [|lia]. by split.
    + exists (Z.to_nat r). unfold k2. destruct (Z.leb_spec 0 r); [|lia]. rewrite Z2Nat.id by lia. split_and!.
      * done.
      * unfold evicted_dirty. rewrite Z2Nat.id by lia. done.
      * unfold k1, say. kcbn. by rewrite <- !(assoc_L (++)).
      * intros va. rewrite Eva in Hv. rewrite <- Hv. done.
Qed.

Lemma put_same_va ms i x y :
  tbl_ok ms -> pages ms !! i = Some x -> is_live x = true -> ps_va y = ps_va x -> tbl_ok (set_page ms i y).
Proof.
  intros Hok Hx Hl Hv. apply put_ok; [done|]. intros j z Hz. rewrite Hv. split.
  - intros Hj Hlz E. by apply (tb_first _ Hok i j x z).
  - intros Hj _. by apply (tb_first _ Hok j i z x).
Qed.

(** Replacing one live entry, with the swap table changed for its address only. *)
Lemma pg_replace k k' ip Fr Fr' lim i x y :
  pg_inv k ip Fr lim -> pages (p_memstat (k_p k)) !! i = Some x -> is_live x = true -> ps_va y = ps_va x ->
  as_inv (k_pm k') (pagetable (k_p k')) Fr' lim -> swap_inv k' ip ->
  pages (p_memstat (k_p k')) = <[i := y]> (pages (p_memstat (k_p k))) ->
  (forall va, va <> ps_va x ->
     find_swap (swap_table (p_swap (k_p k'))) va = find_swap (swap_table (p_swap (k_p k))) va) ->
  (is_Some (find_swap (swap_table (p_swap (k_p k'))) (ps_va x)) <-> ps_state y = SWAPPED) ->
  pg_inv k' ip Fr' lim.
Proof.
  intros Hi Hx Hl Hv Has' Hsw' Ep Hf Hys. pose proof (pg_tbl _ _ _ _ Hi) as Hok.
  assert (Hne : forall j z, j <> i -> pages (p_memstat (k_p k)) !! j = Some z -> is_live z = true -> ps_va z <> ps_va x).
  { intros j z Hj Hz Hlz E. by destruct (live_unique _ j i z x Hok Hz Hx Hlz Hl E). }
  split; try done.
  - apply Hi.
  - eapply (tbl_ok_pages (set_page (p_memstat (k_p k)) i y)); [by rewrite Ep|by eapply put_same_va].
  - intros j z. rewrite Ep. intros [(_ & <- & _)|[Hj Hz]]%list_lookup_insert_Some Hlz.
    + rewrite Hv. by apply (pg_va _ _ _ _ Hi i x).
    + by apply (pg_va _ _ _ _ Hi j z).
  - intros va. rewrite Ep. pose proof (lookup_lt_Some _ _ _ Hx) as Hlt. destruct (decide (va = ps_va x)) as [->|Hva].
    + rewrite Hys. split.
      * intros Hs. exists i, y. rewrite list_lookup_insert_eq by done. done.
      * intros (j & z & [(_ & <- & _)|[Hj Hz]]%list_lookup_insert_Some & Hs & E); [done|].
        exfalso. apply (Hne j z); [done|done|by apply swapped_live|done].
    + rewrite Hf, (pg_sw _ _ _ _ Hi) by done. split; intros (j & z & Hz & Hs & E); exists j, z; split_and!; try done.
      * rewrite list_lookup_insert_ne; [done|]. intros <-. apply Hva. congruence.
      * apply list_lookup_insert_Some in Hz as [(_ & <- & _)|[_ Hz]]; [|done]. exfalso. apply Hva. congruence.
Qed.

Lemma discarded_pages p i x :
  tbl_ok (p_memstat p) -> live_at (p_memstat p) (ps_va x) i x -> 0 <= ps_va x < 2 ^ 32 ->
  pages (p_memstat (discarded (ps_va x) p)) =
  <[i := mkPageStat (ps_va x) UNMAPPED (ps_dirty x) (ps_seq x) (-1)]> (pages (p_memstat p)).
Proof.
  intros Hok Hl Hr. unfold discarded. cbv zeta. kcbn. rewrite mark_unmapped_pages. unfold marked.
  rewrite (slot_for_live _ (ps_va x) i x) by (done || by rewrite u32_small).
  rewrite (page_at_lookup _ _ x), u32_small by (done || apply Hl). done.
Qed.

Lemma swapped_memstat_pages ms i x slot :
  tbl_ok ms -> live_at ms (ps_va x) i x -> 0 <= ps_va x < 2 ^ 32 ->
  pages (memstat_mark_swapped (memstat_set_first (ps_va x) SWAPPED slot ms) (ps_va x) slot) =
  <[i := mkPageStat (ps_va x) SWAPPED 0 (ps_seq x) slot]> (pages ms).
Proof.
  intros Hok Hl Hr. unfold memstat_set_first. rewrite (scan_live ms (ps_va x) i x Hok Hl).
  destruct Hl as (Hx & Hlx & _). rewrite (page_at_lookup _ _ x Hx).
  set (y := mkPageStat (ps_va x) SWAPPED 0 (ps_seq x) slot). pose proof (lookup_lt_Some _ _ _ Hx).
  assert (Hy : pages (set_page ms i y) !! i = Some y) by (by apply list_lookup_insert_eq).
  rewrite mark_swapped_pages. unfold marked.
  rewrite (slot_for_live _ (ps_va x) i y).
  - rewrite (page_at_lookup _ _ y Hy), u32_small by done. simpl. by rewrite list_insert_insert_eq.
  - by apply (put_same_va ms i x y).
  - rewrite u32_small by done. done.
Qed.

(** A frame in nobody's use. *)
Definition private (s : pmem) (root lim : Z) (Fr : list Z) (c : Z) : Prop :=
  page_ok c /\ (c ∉ Fr) /\ ~ tree_page (pm_mem s) root c /\
  forall vb, 0 <= vb < lim -> mapped (pm_mem s) root vb -> PTE2PA (pte_of (pm_mem s) root vb) <> c.

(** What an eviction leaves alone in the process. *)
Definition same_proc (p p' : proc) : Prop :=
  p_sched p' = p_sched p /\ p_space p' = p_space p /\ p_exec p' = p_exec p /\
  next_fifo_seq (p_memstat p') = next_fifo_seq (p_memstat p).

Lemma same_proc_discarded va p : same_proc p (discarded va p).
Proof. split_and!; try done. apply (marked_next (p_memstat p) va 0 0). Qed.

Lemma same_proc_dirty va slot p : same_proc p (evicted_dirty va slot p).
Proof.
  split_and!; try done. unfold evicted_dirty. cbv zeta. kcbn. etransitivity; [apply (marked_next _ va 0)|].
  unfold swapped_out, memstat_set_first. cbv zeta. kcbn. by case_match.
Qed.

(** The outcomes of [try_kalloc_or_replace] when memory is full. *)
Inductive replaced (k : kst F) (ip lim : Z) : Z -> kst F -> Prop :=
  | rep_none k' : (* nothing to evict: killed *)
      (forall j y, pages (p_memstat (k_p k)) !! j = Some y -> is_resident y = false) ->
      k_pm k' = k_pm k -> k_p k' = set_killed_flag (k_p k) -> k_fs k' = k_fs k ->
      replaced k ip lim 0 k'
  | rep_stale i x k' : (* the victim was not mapped after all *)
      fst (select_victim (p_memstat (k_p k))) = Z.of_nat i ->
      pages (p_memstat (k_p k)) !! i = Some x -> is_resident x = true ->
      ~ mapped (pm_mem (k_pm k)) (pagetable (k_p k)) (ps_va x) -> k_pm k' = k_pm k -> k_fs k' = k_fs k ->
      replaced k ip lim 0 k'
  | rep_full i x k' : (* a dirty victim and no room in the swap area: killed *)
      fst (select_victim (p_memstat (k_p k))) = Z.of_nat i ->
      swap_refused k ip (PTE2PA (pte_of (pm_mem (k_pm k)) (pagetable (k_p k)) (ps_va x))) ->
      pages (p_memstat (k_p k)) !! i = Some x -> is_resident x = true -> ps_dirty x <> 0 ->
      k_pm k' = k_pm k -> k_p k' = set_killed_flag (k_p k) ->
      (forall va, swap_view k' ip va = swap_view k ip va) ->
      replaced k ip lim 0 k'
  | rep_evicted i x k' : (* the victim's frame *)
      fst (select_victim (p_memstat (k_p k))) = Z.of_nat i ->
      pages (p_memstat (k_p k)) !! i = Some x -> is_resident x = true -> same_proc (k_p k) (k_p k') ->
      mapped (pm_mem (k_pm k)) (pagetable (k_p k)) (ps_va x) ->
      let pa := PTE2PA (pte_of (pm_mem (k_pm k)) (pagetable (k_p k)) (ps_va x)) in
      evicted (pagetable (k_p k)) (ps_va x) pa lim (k_pm k) (k_pm k') ->
      (forall j y, pages (p_memstat (k_p k')) !! j = Some y -> is_resident y = true -> ps_va y <> ps_va x) ->
      fs_kept ip (k_fs k) (k_fs k') ->
      (ps_dirty x <> 0 -> swap_view k' ip (ps_va x) = Some (frame_bytes k pa)) ->
      (forall va, va <> ps_va x -> swap_view k' ip va = swap_view k ip va) ->
      replaced k ip lim pa k'.

(** After an entry stopped being resident, its address is no longer resident. *)
Lemma gone (k k' : kst F) ip Fr lim i x y :
  pg_inv k ip Fr lim -> pages (p_memstat (k_p k)) !! i = Some x -> is_live x = true ->
  pages (p_memstat (k_p k')) = <[i := y]> (pages (p_memstat (k_p k))) -> is_resident y = false ->
  forall j z, pages (p_memstat (k_p k')) !! j = Some z -> is_resident z = true -> ps_va z <> ps_va x.
Proof.
  intros Hi Hx Hl Ep Hy j z. rewrite Ep. intros [(_ & <- & _)|[Hj Hz]]%list_lookup_insert_Some Hr; [congruence|].
  intros E. apply Hj. by destruct (live_unique _ j i z x (pg_tbl _ _ _ _ Hi) Hz Hx (resident_live z Hr) Hl E).
Qed.

Lemma replace_clean k ip lim i x s' o :
  pg_inv k ip [] lim -> fst (select_victim (p_memstat (k_p k))) = Z.of_nat i ->
  pages (p_memstat (k_p k)) !! i = Some x -> is_resident x = true -> ps_dirty x = 0 ->
  mapped (pm_mem (k_pm k)) (pagetable (k_p k)) (ps_va x) ->
  let pa := PTE2PA (pte_of (pm_mem (k_pm k)) (pagetable (k_p k)) (ps_va x)) in
  evicted (pagetable (k_p k)) (ps_va x) pa lim (k_pm k) s' ->
  let k' := mkK s' (discarded (ps_va x) (k_p k)) (k_fs k) o in
  pg_inv k' ip [] lim /\ replaced k ip lim pa k'.
Proof.
  intros Hi Hs Hx Hr Hd Hm pa Hev k'. destruct (victim_bounds k ip [] lim i x Hi Hx Hr) as (Ha & Hrg & Hl).
  pose proof (resident_live x Hr) as Hlive.
  assert (Ep : pages (p_memstat (k_p k')) =
    <[i := mkPageStat (ps_va x) UNMAPPED (ps_dirty x) (ps_seq x) (-1)]> (pages (p_memstat (k_p k)))).
  { apply discarded_pages; [apply Hi|done|done]. }
  split.
  - eapply (pg_replace k k' ip [] [] lim i x (mkPageStat (ps_va x) UNMAPPED (ps_dirty x) (ps_seq x) (-1))); try done.
    + apply Hev.
    + destruct (pg_swap _ _ _ _ Hi). by split.
    + unfold k'. unfold discarded. cbv zeta. kcbn. rewrite (pg_res k ip [] lim i x Hi Hx Hr).
      split; [by intros []|done].
  - apply (rep_evicted k ip lim i x k'); try done; [apply same_proc_discarded|by eapply gone].
Qed.

Lemma replace_dirty k ip lim i x slot k' :
  pg_inv k ip [] lim -> fst (select_victim (p_memstat (k_p k))) = Z.of_nat i ->
  pages (p_memstat (k_p k)) !! i = Some x -> is_resident x = true ->
  mapped (pm_mem (k_pm k)) (pagetable (k_p k)) (ps_va x) ->
  let pa := PTE2PA (pte_of (pm_mem (k_pm k)) (pagetable (k_p k)) (ps_va x)) in
  evicted (pagetable (k_p k)) (ps_va x) pa lim (k_pm k) (k_pm k') -> swap_inv k' ip ->
  free_slot (swap_table (p_swap (k_p k))) = Some slot -> k_p k' = evicted_dirty (ps_va x) slot (k_p k) ->
  fs_kept ip (k_fs k) (k_fs k') ->
  (forall va, swap_view k' ip va = if va =? ps_va x then Some (frame_bytes k pa) else swap_view k ip va) ->
  pg_inv k' ip [] lim /\ replaced k ip lim pa k'.
Proof.
  intros Hi Hs Hx Hr Hm pa Hev Hsw Hfree Ek Hkept Hv. destruct (victim_bounds k ip [] lim i x Hi Hx Hr) as (Ha & Hrg & Hl).
  pose proof (resident_live x Hr) as Hlive.
  assert (Ep : pages (p_memstat (k_p k')) =
    <[i := mkPageStat (ps_va x) SWAPPED 0 (ps_seq x) (Z.of_nat slot)]> (pages (p_memstat (k_p k)))).
  { rewrite Ek. unfold evicted_dirty, swapped_out. cbv zeta. kcbn. rewrite PGROUNDDOWN_aligned by done.
    apply swapped_memstat_pages; [apply Hi|done|done]. }
  assert (Et : swap_table (p_swap (k_p k')) =
    <[slot := mkSwapEnt (ps_va x) (Z.of_nat slot) 1]> (swap_table (p_swap (k_p k)))).
  { rewrite Ek. unfold evicted_dirty, swapped_out. cbv zeta. kcbn. by rewrite PGROUNDDOWN_aligned, u32_small. }
  assert (Hfind : forall va, find_swap (swap_table (p_swap (k_p k'))) va =
    if va =? ps_va x then Some slot else find_swap (swap_table (p_swap (k_p k))) va).
  { intros va. rewrite Et. apply find_put; [apply Hi|done|]. by apply (pg_res k ip [] lim i). }
  split.
  - eapply (pg_replace k k' ip [] [] lim i x (mkPageStat (ps_va x) SWAPPED 0 (ps_seq x) (Z.of_nat slot))); try done.
    + rewrite Ek. apply Hev.
    + intros va Hne. rewrite Hfind. by destruct (Z.eqb_spec va (ps_va x)).
    + rewrite Hfind, Z.eqb_refl. done.
  - apply (rep_evicted k ip lim i x k'); try done.
    + rewrite Ek. apply same_proc_dirty.
    + by eapply gone.
    + intros _. by rewrite Hv, Z.eqb_refl.
    + intros va Hne. rewrite Hv. by destruct (Z.eqb_spec va (ps_va x)).
Qed.

Lemma retry_run k ip lim i x algo :
  pg_inv k ip [] lim -> fst (select_victim (p_memstat (k_p k))) = Z.of_nat i ->
  pages (p_memstat (k_p k)) !! i = Some x -> is_resident x = true ->
  exists r k', retry i algo k = Ret r k' /\ pg_inv k' ip [] lim /\ replaced k ip lim r k'.
Proof.
  intros Hi Hs Hx Hr. destruct (decide (mapped (pm_mem (k_pm k)) (pagetable (k_p k)) (ps_va x))) as [Hm|Hm].
  2:{ eexists 0, _. split; [by apply (retry_unmapped k ip lim i x)|]. split; [|by eapply rep_stale].
      destruct (victim_bounds k ip [] lim i x Hi Hx Hr) as (_ & ? & _).
      eapply (pg_replace k _ ip [] [] lim i x (mkPageStat (ps_va x) UNMAPPED (ps_dirty x) (ps_seq x) (-1)));
        try done; [by apply resident_live|..].
      - apply Hi.
      - destruct (pg_swap _ _ _ _ Hi). by split.
      - kcbn. apply (discarded_pages (k_p k)); [apply Hi| |done]. by split_and!; [|apply resident_live|].
      - kcbn. rewrite (pg_res k ip [] lim i x Hi Hx Hr). split; [by intros []|done]. }
  destruct (decide (ps_dirty x = 0)) as [Hd|Hd].
  - destruct (retry_clean k ip lim i x algo Hi Hx Hr Hm Hd) as (s' & R & _ & Hev).
    eexists _, _. split; [exact R|]. by eapply replace_clean.
  - destruct (retry_dirty k ip lim i x algo Hi Hx Hr Hm Hd) as (r & k' & R & [Hfull|Hok]).
    + destruct Hfull as (-> & Href & E1 & E2 & Hsw & _ & Hv). exists 0, k'. split_and!; [done| |by eapply (rep_full k ip lim i x)].
      destruct Hi as [? ? ? ? ? ?]. split; rewrite ?E1, ?E2; done.
    + destruct Hok as (-> & _ & Hev & Hsw & Hkept & slot & Hf & Ek & _ & Hv).
      eexists _, k'. split; [exact R|]. by eapply replace_dirty.
Qed.

Lemma replaced_private k ip lim r k' :
  replaced k ip lim r k' -> r <> 0 -> private (k_pm k') (pagetable (k_p k)) lim [] r.
Proof.
  intros [| | |i x k0 ? ? ? ? ? pa Hev] Hr; try done. destruct (ev_page _ _ _ _ _ _ Hev) as (? & ? & ?). split_and!; try done. set_solver.
Qed.

(** The log plays no part. *)
Lemma replaced_out k ip lim r k' o :
  replaced (mkK (k_pm k) (k_p k) (k_fs k) o) ip lim r k' -> replaced k ip lim r k'.
Proof.
  intros [k0 Hn|i x k0 Hs Hx Hr Hm|i x k0 Hs Href Hx Hr Hd|i x k0 Hs Hx Hr Hsp Hm pa Hev].
  - by apply (rep_none k).
  - by apply (rep_stale k ip lim i x).
  - by apply (rep_full k ip lim i x).
  - by apply (rep_evicted k ip lim i x).
Qed.

Lemma try_kalloc_run k ip Fr lim va :
  pg_inv k ip Fr lim ->
  exists r k', try_kalloc_or_replace va k = Ret r k' /\ pg_inv k' ip (tail Fr) lim /\
    (r <> 0 -> private (k_pm k') (pagetable (k_p k)) lim (tail Fr) r) /\
    match Fr with
    | c :: _ => r = c /\ k_p k' = k_p k /\ k_fs k' = k_fs k /\
        same_except [c] (pm_mem (k_pm k)) (pm_mem (k_pm k')) /\
        (forall vb, pte_of (pm_mem (k_pm k')) (pagetable (k_p k)) vb = pte_of (pm_mem (k_pm k)) (pagetable (k_p k)) vb)
    | [] => replaced k ip lim r k'
    end.
Proof.
  intros Hi. unfold try_kalloc_or_replace. destruct Fr as [|c Fr]; cbn [tail].
  - rewrite (bind_Ret _ _ _ _ _ (vm_Ret _ k _ _ (kalloc_empty _ ltac:(apply Hi)))). cbn [Z.eqb negb].
    rewrite bind_printf, bind_myproc. kcbn. set (k1 := mkK _ _ _ _).
    assert (Hi1 : pg_inv k1 ip [] lim).
    { destruct Hi as [? ? ? ? Hsw ?]. split; try done. by apply swap_inv_out. }
    change (p_memstat (k_p k)) with (p_memstat (k_p k1)).
    destruct (policy_ok (p_memstat (k_p k1))) as [[Hlt Hn]|(i & x & Hs & Hx & Hr)];
      destruct (select_victim (p_memstat (k_p k1))) as [idx algo] eqn:Es; cbn [fst] in *.
    + destruct (Z.ltb_spec idx 0); [|lia]. eexists 0, _. split; [reflexivity|]. split_and!; [|done|by apply rep_none].
      destruct Hi1 as [? ? ? ? [] ?]. split; (done || by split).
    + destruct (Z.ltb_spec idx 0); [lia|]. subst idx. rewrite Nat2Z.id. fold (retry i algo).
      destruct (retry_run k1 ip lim i x algo Hi1) as (r & k' & R & Hi' & Hrep); [by rewrite Es|done|done|].
      exists r, k'. split_and!; [exact R|done|by apply (replaced_private k1 ip)|].
      by eapply replaced_out.
  - destruct (alloc_frame (k_pm k) (pagetable (k_p k)) c Fr lim (pg_as _ _ _ _ Hi))
      as (s1 & R & Hse & Hok & HcF & HT & Hpr & Hw).
    destruct (Hw _ Hse) as (Has1 & Hn1 & Hp1). pose proof (page_ok_range c Hok) as (?&_).
    exists c, (set_pm s1 k). rewrite (bind_Ret _ _ _ _ _ (vm_Ret _ k _ _ R)).
    destruct (Z.eqb_spec c 0); [lia|]. split_and!; try done.
    + destruct Hi as [? ? ? ? [] ?], s1. split; (done || by split).
    + intros _. split_and!; [done|done|by rewrite tree_page_ext by exact Hn1|]. intros vb Hvb.
      kcbn. unfold mapped. rewrite Hp1. by apply Hpr.
Qed.

(** C4: allocation with replacement always returns, keeps the
    paging invariant, and what it returns (if not 0) is a frame of RAM that is
    free of any use: not on the free list, not in the page table, not mapped.
    With free memory it is the head of the free list and the process is
    unchanged.  With none left, the policy's victim is unmapped, every other
    mapping and frame is kept, its frame is what is returned, and if it was dirty
    the swap area holds its bytes; a process with nothing to evict, or with a
    dirty victim and a full swap area, is marked killed and gets 0. *)
Theorem try_kalloc_correct k ip Fr lim va :
  pg_inv k ip Fr lim ->
  exists r k', try_kalloc_or_replace va k = Ret r k' /\ pg_inv k' ip (tail Fr) lim /\
    (r <> 0 -> private (k_pm k') (pagetable (k_p k)) lim (tail Fr) r) /\
    match Fr with
    | c :: _ => r = c /\ k_p k' = k_p k /\ k_fs k' = k_fs k /\
        same_except [c] (pm_mem (k_pm k)) (pm_mem (k_pm k')) /\
        (forall vb, pte_of (pm_mem (k_pm k')) (pagetable (k_p k)) vb = pte_of (pm_mem (k_pm k)) (pagetable (k_p k)) vb)
    | [] => replaced k ip lim r k'
    end.
Proof. apply try_kalloc_run. Qed.

(** [num_resident_pages] is not decremented when a dirty
    page is evicted: [proc_swapout_page] has already set the entry to SWAPPED
    when [memstat_mark_swapped] tests for RESIDENT, so the count, right before,
    is one too high after. *)
Theorem swapout_miscounts k ip Fr lim i x slot :
  pg_inv k ip Fr lim -> pages (p_memstat (k_p k)) !! i = Some x -> is_resident x = true ->
  counted (p_memstat (k_p k)) ->
  num_resident_pages (p_memstat (evicted_dirty (ps_va x) slot (k_p k))) =
  Z.of_nat (residents (pages (p_memstat (evicted_dirty (ps_va x) slot (k_p k))))) + 1.
Proof.
  intros Hi Hx Hr Hc. destruct (victim_bounds k ip Fr lim i x Hi Hx Hr) as (Ha & Hrg & _).
  assert (Hl : live_at (p_memstat (k_p k)) (ps_va x) i x) by (split_and!; [done|by apply resident_live|done]).
  unfold evicted_dirty, swapped_out. cbv zeta. kcbn. rewrite PGROUNDDOWN_aligned by done.
  rewrite (swapped_memstat_pages _ i x) by (done || apply Hi).
  pose proof (residents_insert _ i x (mkPageStat (ps_va x) SWAPPED 0 (ps_seq x) (Z.of_nat slot)) Hx) as Hres.
  rewrite Hr in Hres. simpl in Hres. unfold counted in Hc.
  assert (num_resident_pages (memstat_mark_swapped (memstat_set_first (ps_va x) SWAPPED (Z.of_nat slot)
    (p_memstat (k_p k))) (ps_va x) (Z.of_nat slot)) = num_resident_pages (p_memstat (k_p k))) as ->; [|lia].
  unfold memstat_set_first. rewrite (scan_live _ _ i x (pg_tbl _ _ _ _ Hi) Hl), (page_at_lookup _ _ x Hx).
  set (y := mkPageStat _ _ _ _ _). pose proof (lookup_lt_Some _ _ _ Hx).
  assert (Hy : pages (set_page (p_memstat (k_p k)) i y) !! i = Some y) by (by apply list_lookup_insert_eq).
  unfold memstat_mark_swapped. rewrite find_index_slot.
  assert (Hs : slot_for (set_page (p_memstat (k_p k)) i y) (ps_va x) = Some i).
  { apply (slot_for_live _ _ _ y); [|by rewrite u32_small].
    apply (put_same_va _ i x y); [apply Hi|done|apply Hl|done]. }
  rewrite Hs.
  rewrite (find_page_at _ (ps_va x) i), (page_at_lookup _ _ y Hy) by done. done.
Qed.
End evict.
