(* ===== verification/UserCopy.v ===== *)
(** Copies between kernel buffers and user memory, kernel/vm.c [copyin],
    [copyout] and [copyinstr], over pages that are in memory.

    [ubyte] is the byte user code sees at an address.  The loops terminate,
    [copyin] and [copyinstr] return what user code sees and change nothing, and
    [copyout] changes exactly the bytes of the range. *)
From S2P Require Import Prelude Riscv PhysMem Kalloc PageTable PtTree PtMap PtUser.
From S2P Require Import Memstat Proc FsIface Swap VmFault.

Section copy.
Context `{HL : Layout} `{!LayoutOk} {F : Type} `{FO : !FsOps F} {PO : Policy}.

Definition ubyte (m : mem) (root va : Z) : Z := rd8 m (PTE2PA (pte_of m root va) + (va - PGROUNDDOWN va)).
Definition ubytes (m : mem) (root va : Z) (n : nat) : list Z := ubyte m root <$> zseq va n 1.

(** The user can read, and write, the page of [va]. *)
Definition readable (m : mem) (root va : Z) : Prop :=
  has (pte_of m root va) PTE_V = true /\ has (pte_of m root va) PTE_U = true.
Definition writable (m : mem) (root va : Z) : Prop := readable m root va /\ has (pte_of m root va) PTE_W = true.

Lemma page_of va n x :
  0 <= va -> va <= x < va + n -> va - PGROUNDDOWN va + n <= PGSIZE -> PGROUNDDOWN x = PGROUNDDOWN va.
Proof.
  rewrite !PGROUNDDOWN_div. unfold PGSIZE. intros. Z.to_euclidean_division_equations. lia.
Qed.

Lemma pgdown_bounds va : PGROUNDDOWN va <= va < PGROUNDDOWN va + 4096 /\ PGROUNDDOWN va mod PGSIZE = 0.
Proof.
  rewrite PGROUNDDOWN_div. unfold PGSIZE. split; Z.to_euclidean_division_equations; lia.
Qed.

Lemma pgdown_nonneg va : 0 <= va -> 0 <= PGROUNDDOWN va.
Proof. rewrite PGROUNDDOWN_div. unfold PGSIZE. intros. Z.to_euclidean_division_equations. lia. Qed.

Lemma pgdown_idem va : PGROUNDDOWN (PGROUNDDOWN va) = PGROUNDDOWN va.
Proof. apply PGROUNDDOWN_aligned, pgdown_bounds. Qed.

(** The part of a range within one page, as the loops read it. *)
Lemma chunk_bytes m root va n :
  0 <= va -> va + Z.of_nat n <= MAXVA -> va - PGROUNDDOWN va + Z.of_nat n <= PGSIZE ->
  load_bytes m (PTE2PA (pte_of m root (PGROUNDDOWN va)) + (va - PGROUNDDOWN va)) n = ubytes m root va n.
Proof.
  intros Hva Hmax Hpg. unfold load_bytes, ubytes. apply list_eq. intros i. unfold zseq.
  rewrite !list_lookup_fmap. destruct (seq 0 n !! i) as [j|] eqn:E; [|done]. cbn [fmap option_fmap option_map].
  apply lookup_seq in E as [-> Hi]. f_equal. unfold ubyte. pose proof (pgdown_bounds va). pose proof (pgdown_nonneg va Hva).
  assert (Hp : PGROUNDDOWN (va + 1 * Z.of_nat (0 + i)) = PGROUNDDOWN va) by (apply (page_of va (Z.of_nat n)); lia).
  rewrite Hp. rewrite (pte_of_page m root (va + 1 * Z.of_nat (0 + i)) (PGROUNDDOWN va));
    [f_equal; lia|lia|lia|by rewrite pgdown_idem].
Qed.

Lemma fault_addr_mapped k root Fr lim va :
  as_inv (k_pm k) root Fr lim -> 0 <= va < lim -> readable (pm_mem (k_pm k)) root va ->
  fault_addr root (PGROUNDDOWN va) k = Ret (PTE2PA (pte_of (pm_mem (k_pm k)) root (PGROUNDDOWN va))) k /\
  PTE2PA (pte_of (pm_mem (k_pm k)) root (PGROUNDDOWN va)) <> 0 /\
  page_ok (PTE2PA (pte_of (pm_mem (k_pm k)) root (PGROUNDDOWN va))).
Proof.
  intros Has Hva [HV HU]. pose proof (as_lim _ _ _ _ Has). pose proof (pgdown_bounds va).
  pose proof (pgdown_nonneg va ltac:(lia)) as Hlo.
  assert (E : pte_of (pm_mem (k_pm k)) root (PGROUNDDOWN va) = pte_of (pm_mem (k_pm k)) root va).
  { apply pte_of_page; [lia|lia|apply pgdown_idem]. }
  rewrite E. destruct (as_frame _ _ _ _ Has va Hva HV) as (Hok & _). pose proof (page_ok_range _ Hok) as (?&_).
  split_and!; [|lia|done]. unfold fault_addr.
  pose proof (walkaddr_run (k_pm k) root (PGROUNDDOWN va) (pi_wf _ _ _ (as_pt _ _ _ _ Has)) Hlo) as R.
  cbv zeta in R. rewrite E, HV, HU in R. destruct (Z.ltb_spec (PGROUNDDOWN va) MAXVA); [|lia]. cbn [andb] in R.
  rewrite (bind_Ret _ _ _ _ _ (vm_Ret _ k _ _ R)).
  destruct (Z.eqb_spec (PTE2PA (pte_of (pm_mem (k_pm k)) root va)) 0); [lia|]. by destruct k.
Qed.

(** The number of bytes the loops take from the page of [va]. *)
Lemma chunk_size va len :
  0 <= va -> 0 < len -> let n := Z.min (PGSIZE - (va - PGROUNDDOWN va)) len in
  0 < n <= len /\ va - PGROUNDDOWN va + n <= PGSIZE /\ (n < len -> va + n = PGROUNDDOWN va + PGSIZE).
Proof. intros. pose proof (pgdown_bounds va). unfold PGSIZE in *. lia. Qed.

Lemma ubytes_app m root va n n' :
  ubytes m root va (n + n') = ubytes m root va n ++ ubytes m root (va + Z.of_nat n) n'.
Proof. unfold ubytes. rewrite zseq_app, fmap_app. by rewrite Z.mul_1_l. Qed.

Lemma copyin_loop_run fuel k root Fr lim va len acc :
  as_inv (k_pm k) root Fr lim -> 0 <= va -> 0 <= len -> va + len <= lim ->
  (va - PGROUNDDOWN va) + len <= PGSIZE * (Z.of_nat fuel - 1) -> (0 < fuel)%nat ->
  (forall x, va <= x < va + len -> readable (pm_mem (k_pm k)) root x) ->
  copyin_loop fuel root va len acc k = Ret (0, acc ++ ubytes (pm_mem (k_pm k)) root va (Z.to_nat len)) k.
Proof.
  intros Has. pose proof (as_lim _ _ _ _ Has) as Hlm. pose proof MAXVA_eq as HM.
  revert va len acc. induction fuel as [|fuel IH]; intros va len acc Hva Hlen Hlim Hfuel Hf Hrd; [lia|].
  cbn [copyin_loop]. destruct (Z.ltb_spec 0 len) as [Hpos|].
  2:{ assert (len = 0) as -> by lia. cbn. by rewrite app_nil_r. }
  pose proof (pgdown_bounds va) as [Hb Hbm]. pose proof (pgdown_nonneg va Hva). destruct (Z.leb_spec MAXVA (PGROUNDDOWN va)); [lia|].
  destruct (fault_addr_mapped k root Fr lim va Has ltac:(lia) (Hrd va ltac:(lia))) as (R & Hne & _).
  rewrite (bind_Ret _ _ _ _ _ R), (proj2 (Z.eqb_neq _ 0) Hne), bind_getS.
  destruct (chunk_size va len Hva Hpos) as (Hn & Hnp & Hnl).
  set (n := Z.min (PGSIZE - (va - PGROUNDDOWN va)) len) in *. clearbody n.
  rewrite chunk_bytes by lia. destruct (decide (n = len)) as [->|Hnn].
  - destruct fuel as [|fuel]; [unfold PGSIZE in *; lia|]. cbn [copyin_loop].
    destruct (Z.ltb_spec 0 (len - len)); [lia|]. done.
  - assert (HP : PGSIZE = 4096) by done. specialize (Hnl ltac:(lia)).
    assert (Hdn : PGROUNDDOWN (PGROUNDDOWN va + PGSIZE) = PGROUNDDOWN va + PGSIZE).
    { apply PGROUNDDOWN_aligned. rewrite Zplus_mod, Hbm. done. }
    rewrite u64_small by lia. rewrite IH; [| |lia|lia|rewrite Hdn; lia|lia|intros x Hx; apply Hrd; lia].
    + rewrite <- app_assoc. do 3 f_equal. rewrite <- Hnl.
      replace (Z.to_nat len) with (Z.to_nat n + Z.to_nat (len - n))%nat by lia.
      rewrite ubytes_app. by rewrite Z2Nat.id by lia.
    + lia.
Qed.

(** Writing [bs] into the frame of one page. *)
Lemma write_chunk s root Fr lim va bs :
  as_inv s root Fr lim -> 0 <= va < lim -> mapped (pm_mem s) root va ->
  va - PGROUNDDOWN va + Z.of_nat (length bs) <= PGSIZE -> va + Z.of_nat (length bs) <= MAXVA -> is_bytes bs ->
  let m' := store_bytes (pm_mem s) (PTE2PA (pte_of (pm_mem s) root va) + (va - PGROUNDDOWN va)) bs in
  as_inv (mkPmem m' (freelist s)) root Fr lim /\
  (forall vb, pte_of m' root vb = pte_of (pm_mem s) root vb) /\
  (forall x, 0 <= x < lim -> mapped (pm_mem s) root x -> ubyte m' root x =
     if inr va (Z.of_nat (length bs)) x then default 0 (bs !! Z.to_nat (x - va)) else ubyte (pm_mem s) root x) /\
  same_except [PTE2PA (pte_of (pm_mem s) root va)] (pm_mem s) m'.
Proof.
  intros Has Hva Hm Hpg Hmax Hbs m'. pose proof (as_lim _ _ _ _ Has). pose proof (as_pt _ _ _ _ Has) as Hpt.
  destruct (as_frame _ _ _ _ Has va Hva Hm) as (Hok & HF & HT). set (pa := PTE2PA (pte_of (pm_mem s) root va)) in *.
  pose proof (pgdown_bounds va) as [Hb _]. assert (HP : PGSIZE = 4096) by done.
  assert (Hse : same_except [pa] (pm_mem s) m').
  { intros q Hq Hne. apply agree_sym, agree_store_bytes.
    destruct (pages_apart pa q); [apply Hok|done|set_solver|lia|lia]. }
  destruct (off_tree_store s root Fr [pa] m' Hpt Hse) as (Hwf & Hn & Hp); [by intros p ->%list_elem_of_singleton|].
  assert (Hpt' : pt_inv (mkPmem m' (freelist s)) root Fr).
  { split; [|done|]; cbn [pm_mem].
    - eapply kmem_inv_frame; [apply Hpt|exact Hse|]. by intros p ? ->%list_elem_of_singleton.
    - intros a. rewrite tree_page_ext by exact Hn. apply Hpt. }
  split_and!; try done.
  - eapply as_inv_step; [exact Has|done|intros; apply Hp|]. intros vb Hvb Hmb.
    destruct (as_frame _ _ _ _ Has vb Hvb Hmb) as (_ & ? & ?). cbn [pm_mem].
    by rewrite tree_page_ext by exact Hn.
  - intros x Hx Hmx. unfold ubyte. rewrite Hp. destruct (inr va (Z.of_nat (length bs)) x) eqn:Ei.
    + rewrite inr_spec in Ei. rewrite (page_of va (Z.of_nat (length bs)) x) by lia.
      rewrite (pte_of_page _ _ x va) by (try lia; apply (page_of va (Z.of_nat (length bs))); lia). fold pa.
      unfold rd8, m', store_bytes. rewrite inr_true by lia.
      replace (pa + (x - PGROUNDDOWN va) - (pa + (va - PGROUNDDOWN va))) with (x - va) by lia.
      destruct (lookup_lt_is_Some_2 bs (Z.to_nat (x - va))) as [b Eb]; [lia|]. rewrite Eb. cbn [default].
      rewrite Z.mod_mod by lia. apply Z.mod_small. eapply (proj1 (list.Forall_forall _ _) Hbs), list_elem_of_lookup_2, Eb.
    + pose proof (pgdown_bounds x) as [Hbx _]. unfold rd8. f_equal. unfold m', store_bytes. rewrite inr_false; [done|].
      assert (Hni : ~ (va <= x < va + Z.of_nat (length bs))) by (rewrite <- inr_spec; by rewrite Ei).
      destruct (decide (PGROUNDDOWN x = PGROUNDDOWN va)) as [Epg|Hpgne].
      * rewrite (pte_of_page _ _ x va) by (done || lia). fold pa. rewrite Epg in *. lia.
      * destruct (as_frame _ _ _ _ Has x Hx Hmx) as ([Hax _] & _).
        destruct (pages_apart (PTE2PA (pte_of (pm_mem s) root x)) pa) as [|]; [done|apply Hok| |lia|lia].
        intros E. apply Hpgne. by apply (as_own _ _ _ _ Has).
Qed.

(** User memory after [src] was written at [va]. *)
Record wrote (root lim : Z) (Fr : list Z) (va : Z) (src : list Z) (s s' : pmem) : Prop := {
  wr_as : as_inv s' root Fr lim;
  wr_pte : forall vb, pte_of (pm_mem s') root vb = pte_of (pm_mem s) root vb;
  wr_byte : forall x, 0 <= x < lim -> mapped (pm_mem s) root x -> ubyte (pm_mem s') root x =
    if inr va (Z.of_nat (length src)) x then default 0 (src !! Z.to_nat (x - va)) else ubyte (pm_mem s) root x;
  wr_frame : forall p, p mod PGSIZE = 0 -> ~ frame_in (pm_mem s) root va (va + Z.of_nat (length src)) p ->
    agree p PGSIZE (pm_mem s) (pm_mem s')
}.

Lemma wrote_trans root lim Fr va n src s s1 s2 :
  (n <= length src)%nat ->
  wrote root lim Fr va (take n src) s s1 -> wrote root lim Fr (va + Z.of_nat n) (drop n src) s1 s2 ->
  wrote root lim Fr va src s s2.
Proof.
  intros Hn [A1 P1 B1 G1] [A2 P2 B2 G2]. rewrite length_take, length_drop in *.
  replace (n `min` length src)%nat with n in * by lia. split; [done|..].
  - intros vb. by rewrite P2, P1.
  - intros x Hx Hm. rewrite B2; [|done|unfold mapped; by rewrite P1]. rewrite B1 by done.
    destruct (decide (va <= x < va + Z.of_nat (length src))) as [Hin|Hout].
    + rewrite (inr_true va (Z.of_nat (length src))) by lia. destruct (decide (x < va + Z.of_nat n)).
      * rewrite inr_false, inr_true by lia. by rewrite lookup_take_lt by lia.
      * rewrite inr_true by lia. rewrite lookup_drop. do 2 f_equal. lia.
    + rewrite !inr_false by lia. done.
  - intros p Hp Hf. eapply agree_trans; [apply G1|apply G2]; try done.
    + intros (x & Hx & ?). apply Hf. exists x. split; [lia|done].
    + intros (x & Hx & Hm & E). apply Hf. exists x. unfold mapped in Hm. rewrite P1 in *. split; [lia|done].
Qed.

Lemma copyout_chunk (k : kst F) root Fr lim va src :
  as_inv (k_pm k) root Fr lim -> 0 <= va -> src <> [] -> va + Z.of_nat (length src) <= lim -> is_bytes src ->
  (forall x, va <= x < va + Z.of_nat (length src) -> writable (pm_mem (k_pm k)) root x) ->
  let n := Z.to_nat (PGSIZE - (va - PGROUNDDOWN va)) in
  exists s', (forall fuel, copyout_loop (S fuel) root va src k =
      copyout_loop fuel root (u64 (PGROUNDDOWN va + PGSIZE)) (drop n src) (set_pm s' k)) /\
    wrote root lim Fr va (take n src) (k_pm k) s'.
Proof.
  intros Has Hva Hne Hlim Hbs Hw n. pose proof (as_lim _ _ _ _ Has). pose proof MAXVA_eq.
  pose proof (pgdown_bounds va) as [Hb Hbm]. pose proof (pgdown_nonneg va Hva). assert (HP : PGSIZE = 4096) by done.
  assert (Hlen : (0 < length src)%nat) by (destruct src; [done|simpl; lia]).
  destruct (Hw va ltac:(lia)) as [[HV HU] HW].
  destruct (fault_addr_mapped k root Fr lim va Has ltac:(lia) (conj HV HU)) as (R & Hnz & _).
  set (m := pm_mem (k_pm k)) in *.
  assert (E : pte_of m root (PGROUNDDOWN va) = pte_of m root va) by (apply pte_of_page; [lia|lia|apply pgdown_idem]).
  assert (Htl : length (take n src) = (n `min` length src)%nat) by apply length_take.
  destruct (write_chunk (k_pm k) root Fr lim va (take n src) Has) as (A & P & B & G);
    [lia|done|lia|lia|by apply Forall_take|].
  eexists. split.
  - intros fuel. cbn [copyout_loop]. destruct src as [|b src]; [done|].
    destruct (Z.leb_spec MAXVA (PGROUNDDOWN va)); [lia|].
    rewrite (bind_Ret _ _ _ _ _ R), (proj2 (Z.eqb_neq _ 0) Hnz).
    rewrite (bind_Ret _ _ _ _ _ (vm_Ret _ k _ _ (walk_noalloc (k_pm k) root (PGROUNDDOWN va) ltac:(lia)))).
    destruct (pte_addr_load m root (PGROUNDDOWN va) (pi_wf _ _ _ (as_pt _ _ _ _ Has))) as [(_ & _ & E0)|[Hp El]].
    { rewrite E in E0. rewrite E0 in HV. done. }
    destruct (Z.eqb_spec (pte_addr (pm_mem (k_pm k)) root (PGROUNDDOWN va)) 0); [unfold m in *; lia|].
    assert (Rl : mem_load (pte_addr m root (PGROUNDDOWN va)) (k_pm k) = Ret (pte_of m root va) (k_pm k)).
    { rewrite <- E, <- El. done. }
    rewrite (bind_Ret _ _ _ _ _ (vm_Ret _ (set_pm (k_pm k) k) _ _ Rl)), HW. cbn [negb]. fold n.
    unfold store_buf. rewrite bind_vm_modS, E. reflexivity.
  - split; cbn [pm_mem]; [done|done|done|]. intros p Hp Hf. apply G; [done|].
    intros ->%list_elem_of_singleton. apply Hf. exists va. split_and!; [lia|lia|done|done].
Qed.

Lemma wrote_nil root lim Fr va s : as_inv s root Fr lim -> wrote root lim Fr va [] s s.
Proof.
  intros. split; try done. intros x ??. simpl. by rewrite inr_false by lia.
Qed.

Lemma copyout_loop_run fuel (k : kst F) root Fr lim va src :
  as_inv (k_pm k) root Fr lim -> 0 <= va -> va + Z.of_nat (length src) <= lim -> is_bytes src ->
  (va - PGROUNDDOWN va) + Z.of_nat (length src) <= PGSIZE * (Z.of_nat fuel - 1) -> (0 < fuel)%nat ->
  (forall x, va <= x < va + Z.of_nat (length src) -> writable (pm_mem (k_pm k)) root x) ->
  exists s', copyout_loop fuel root va src k = Ret 0 (set_pm s' k) /\ wrote root lim Fr va src (k_pm k) s'.
Proof.
  revert k va src. induction fuel as [|fuel IH]; intros k va src Has Hva Hlim Hbs Hfuel Hf Hw; [lia|].
  pose proof (as_lim _ _ _ _ Has). pose proof MAXVA_eq. assert (HP : PGSIZE = 4096) by done.
  destruct (decide (src = [])) as [->|Hne].
  { exists (k_pm k). split; [by destruct k|by apply wrote_nil]. }
  destruct (copyout_chunk k root Fr lim va src Has Hva Hne Hlim Hbs Hw) as (s1 & R1 & W1).
  pose proof (pgdown_bounds va) as [Hb Hbm]. pose proof (pgdown_nonneg va Hva).
  assert (Hlen : (0 < length src)%nat) by (destruct src; [done|simpl; lia]).
  set (n := Z.to_nat (PGSIZE - (va - PGROUNDDOWN va))) in *. rewrite R1. clear R1.
  destruct (decide (length src <= n)%nat) as [Hle|Hgt].
  - rewrite drop_ge by done. rewrite take_ge in W1 by done. destruct fuel as [|fuel]; [lia|].
    exists s1. split; [by destruct k|done].
  - assert (Hdn : PGROUNDDOWN (PGROUNDDOWN va + PGSIZE) = PGROUNDDOWN va + PGSIZE).
    { apply PGROUNDDOWN_aligned. rewrite Zplus_mod, Hbm. done. }
    rewrite u64_small by lia.
    destruct (IH (set_pm s1 k) (PGROUNDDOWN va + PGSIZE) (drop n src)) as (s2 & R2 & W2);
      rewrite ?length_drop; try lia.
    + apply W1.
    + by apply Forall_drop.
    + intros x Hx. kcbn. destruct (Hw x) as [[? ?] ?]; [lia|]. unfold writable, readable.
      by rewrite !(wr_pte _ _ _ _ _ _ _ W1).
    + exists s2. split; [exact R2|]. eapply (wrote_trans _ _ _ _ n); [lia|exact W1|].
      replace (va + Z.of_nat n) with (PGROUNDDOWN va + PGSIZE) by lia. exact W2.
Qed.

Lemma copyout_run (k : kst F) root Fr lim va src :
  as_inv (k_pm k) root Fr lim -> 0 <= va -> va + Z.of_nat (length src) <= lim -> is_bytes src ->
  (forall x, va <= x < va + Z.of_nat (length src) -> writable (pm_mem (k_pm k)) root x) ->
  exists s', copyout root va src k = Ret 0 (set_pm s' k) /\ wrote root lim Fr va src (k_pm k) s'.
Proof.
  intros Has Hva Hlim Hbs Hw. unfold copyout. pose proof (pgdown_bounds va) as [Hb _].
  apply copyout_loop_run; try done; [|lia].
  pose proof (Nat.div_mod_eq (length src) (Z.to_nat PGSIZE)).
  pose proof (Nat.mod_upper_bound (length src) (Z.to_nat PGSIZE)). change (Z.to_nat PGSIZE) with 4096%nat in *.
  unfold PGSIZE in *. lia.
Qed.

Lemma copyin_run (k : kst F) root Fr lim va len :
  as_inv (k_pm k) root Fr lim -> 0 <= va -> 0 <= len -> va + len <= lim ->
  (forall x, va <= x < va + len -> readable (pm_mem (k_pm k)) root x) ->
  copyin root va len k = Ret (0, ubytes (pm_mem (k_pm k)) root va (Z.to_nat len)) k.
Proof.
  intros Has Hva Hlen Hlim Hr. unfold copyin. pose proof (pgdown_bounds va) as [Hb _].
  rewrite (copyin_loop_run _ k root Fr lim); try done; [|lia].
  pose proof (Z.div_mod len PGSIZE). pose proof (Z.mod_pos_bound len PGSIZE).
  pose proof (Z.div_pos len PGSIZE). unfold PGSIZE in *. lia.
Qed.

(** copying to user pages that are present and writable returns 0
    and changes the user's memory exactly on the range, where it is the source;
    page tables, free list and every frame outside the range are unchanged. *)
Theorem copyout_correct (k : kst F) root Fr lim va src :
  as_inv (k_pm k) root Fr lim -> 0 <= va -> va + Z.of_nat (length src) <= lim -> is_bytes src ->
  (forall x, va <= x < va + Z.of_nat (length src) -> writable (pm_mem (k_pm k)) root x) ->
  exists s', copyout root va src k = Ret 0 (set_pm s' k) /\ wrote root lim Fr va src (k_pm k) s'.
Proof. apply copyout_run. Qed.

(** what [copyout] wrote, [copyin] of the same range reads
    back, leaving the state as it is. *)
Theorem copyout_copyin (k : kst F) root Fr lim va src :
  as_inv (k_pm k) root Fr lim -> 0 <= va -> va + Z.of_nat (length src) <= lim -> is_bytes src ->
  (forall x, va <= x < va + Z.of_nat (length src) -> writable (pm_mem (k_pm k)) root x) ->
  exists k', copyout root va src k = Ret 0 k' /\ copyin root va (Z.of_nat (length src)) k' = Ret (0, src) k'.
Proof.
  intros Has Hva Hlim Hbs Hw. destruct (copyout_run k root Fr lim va src Has Hva Hlim Hbs Hw) as (s' & R & W).
  exists (set_pm s' k). split; [done|].
  rewrite (copyin_run _ root Fr lim); [| |done|lia|done|].
  - do 2 f_equal. rewrite Nat2Z.id. unfold ubytes. kcbn. apply list_eq. intros i. unfold zseq.
    rewrite !list_lookup_fmap. destruct (decide (i < length src)%nat) as [Hi|Hi].
    + rewrite lookup_seq_lt by done. cbn [fmap option_fmap option_map Nat.add].
      destruct (Hw (va + 1 * Z.of_nat i)) as [[? _] _]; [lia|].
      rewrite (wr_byte _ _ _ _ _ _ _ W), inr_true by (done || lia).
      replace (Z.to_nat (va + 1 * Z.of_nat i - va)) with i by lia.
      by destruct (lookup_lt_is_Some_2 src i Hi) as [b ->].
    + rewrite lookup_seq_ge, (lookup_ge_None_2 src) by lia. done.
  - apply W.
  - intros x Hx. kcbn. destruct (Hw x Hx) as [Hr _]. unfold readable. by rewrite !(wr_pte _ _ _ _ _ _ _ W).
Qed.

Lemma until_null_found s l : Forall (fun b => b <> 0) s -> until_null (s ++ 0 :: l) = (true, s ++ [0]).
Proof.
  induction 1 as [|b s Hb Hs IH]; [done|]. cbn [app until_null]. rewrite (proj2 (Z.eqb_neq b 0) Hb).
  by rewrite IH.
Qed.

Lemma until_null_none s : Forall (fun b => b <> 0) s -> until_null s = (false, s).
Proof.
  induction 1 as [|b s Hb Hs IH]; [done|]. cbn [until_null]. rewrite (proj2 (Z.eqb_neq b 0) Hb).
  by rewrite IH.
Qed.

Lemma copyinstr_loop_run fuel (k : kst F) root Fr lim va max str acc :
  as_inv (k_pm k) root Fr lim -> 0 <= va -> va + Z.of_nat (length str) < lim ->
  Forall (fun b => b <> 0) str -> Z.of_nat (length str) < max ->
  ubytes (pm_mem (k_pm k)) root va (S (length str)) = str ++ [0] ->
  (va - PGROUNDDOWN va) + max <= PGSIZE * (Z.of_nat fuel - 1) ->
  (forall x, va <= x <= va + Z.of_nat (length str) -> readable (pm_mem (k_pm k)) root x) ->
  copyinstr_loop fuel root va max acc k = Ret (0, acc ++ str ++ [0]) k.
Proof.
  intros Has. pose proof (as_lim _ _ _ _ Has) as Hlm. pose proof MAXVA_eq as HM. assert (HP : PGSIZE = 4096) by done.
  revert va max str acc. induction fuel as [|fuel IH]; intros va max str acc Hva Hlim Hstr Hmax Hu Hfuel Hrd;
    pose proof (pgdown_bounds va) as [Hb Hbm]; pose proof (pgdown_nonneg va Hva); [lia|].
  cbn [copyinstr_loop]. destruct (Z.ltb_spec 0 max) as [_|]; [|lia].
  destruct (Z.leb_spec MAXVA (PGROUNDDOWN va)); [lia|].
  destruct (fault_addr_mapped k root Fr lim va Has ltac:(lia) (Hrd va ltac:(lia))) as (R & Hne & _).
  rewrite (bind_Ret _ _ _ _ _ R), (proj2 (Z.eqb_neq _ 0) Hne), bind_getS.
  destruct (chunk_size va max Hva ltac:(lia)) as (Hn & Hnp & Hnl).
  set (n := Z.min (PGSIZE - (va - PGROUNDDOWN va)) max) in *. clearbody n.
  assert (Hmm : va + n <= MAXVA).
  { assert (MAXVA mod PGSIZE = 0) by done. unfold PGSIZE in *. clear -Hb Hbm Hnp H1 H0 HM. Z.to_euclidean_division_equations. lia. }
  rewrite chunk_bytes by lia. destruct (decide (Z.of_nat (length str) < n)) as [Hlt|Hge].
  - replace (Z.to_nat n) with (S (length str) + (Z.to_nat n - S (length str)))%nat by lia.
    rewrite ubytes_app, Hu, <- app_assoc. cbn [app]. by rewrite until_null_found.
  - set (j := Z.to_nat n) in *.
    replace (S (length str)) with (j + (S (length str) - j))%nat in Hu by lia. rewrite ubytes_app in Hu.
    pose proof (f_equal (take j) Hu) as Ht. pose proof (f_equal (drop j) Hu) as Hd.
    assert (Hl : length (ubytes (pm_mem (k_pm k)) root va j) = j) by (unfold ubytes; by rewrite length_fmap, length_zseq).
    rewrite take_app_length' in Ht by done. rewrite drop_app_length' in Hd by done.
    rewrite take_app_le in Ht by lia. rewrite drop_app_le in Hd by lia. rewrite Ht.
    rewrite until_null_none by (by apply Forall_take).
    assert (HnP : va + n = PGROUNDDOWN va + PGSIZE) by lia. rewrite u64_small by lia.
    rewrite (IH _ _ (drop j str)).
    + by rewrite <- app_assoc, (assoc_L (++) (take j str)), take_drop.
    + lia.
    + rewrite length_drop. lia.
    + by apply Forall_drop.
    + rewrite length_drop. lia.
    + rewrite length_drop. replace (S (length str - j)) with (S (length str) - j)%nat by lia.
      replace (PGROUNDDOWN va + PGSIZE) with (va + Z.of_nat j) by lia. exact Hd.
    + rewrite (PGROUNDDOWN_aligned (PGROUNDDOWN va + PGSIZE)) by (rewrite Zplus_mod, Hbm; done). lia.
    + intros x. rewrite length_drop. intros Hx. apply Hrd. lia.
Qed.

(** a null-terminated string of user memory shorter than [max],
    all of it present, is copied with its terminator and 0 is returned, even if
    the memory after it is not accessible. *)
Theorem copyinstr_correct (k : kst F) root Fr lim va max str :
  as_inv (k_pm k) root Fr lim -> 0 <= va -> va + Z.of_nat (length str) < lim ->
  Forall (fun b => b <> 0) str -> Z.of_nat (length str) < max ->
  ubytes (pm_mem (k_pm k)) root va (S (length str)) = str ++ [0] ->
  (forall x, va <= x <= va + Z.of_nat (length str) -> readable (pm_mem (k_pm k)) root x) ->
  copyinstr root va max k = Ret (0, str ++ [0]) k.
Proof.
  intros Has Hva Hlim Hs Hmax Hu Hrd. unfold copyinstr. pose proof (pgdown_bounds va) as [Hb _].
  rewrite (copyinstr_loop_run _ k root Fr lim va max str); try done.
  pose proof (Z.div_mod max PGSIZE). pose proof (Z.mod_pos_bound max PGSIZE).
  pose proof (Z.div_pos max PGSIZE). unfold PGSIZE in *. lia.
Qed.
End copy.
