(* ===== verification/Trap.v ===== *)
(** The page-fault handler, the fault branch of kernel/trap.c [usertrap].

    The handler classifies the address, and kills the process, brings the page
    in from swap, gives it a zeroed page, or loads it from the executable.  The
    [cause] strings the code compares with [kstrcmp] are a data type here. *)
From S2P Require Import Prelude Riscv PhysMem Kalloc PageTable Memstat Proc FsIface Swap VmFault.

(** [kstrcmp] on the bytes before the terminators. *)
Fixpoint kstrcmp (a b : list Z) : Z :=
  match a, b with
  | x :: a, y :: b => if x =? y then kstrcmp a b else x - y
  | x :: _, [] => x
  | [], y :: _ => - y
  | [], [] => 0
  end.

Section trap.
Context `{HL : Layout} {F : Type} `{FO : !FsOps F} `{PO : !Policy}.

Definition say_if (b : bool) (e : vm_event) : M (kst F) unit := if b then printf e else mret tt.

(** [p->resident_pages++] *)
Definition inc_resident : M (kst F) unit := modcount (fun c =>
  mkCount (pagefault_count c) (i32 (resident_pages c + 1)) (swapped_pages c) (swapin_count c) (swapout_count c) (vmtrace c)).

Definition set_dirty (x : page_stat) : page_stat := mkPageStat (ps_va x) (ps_state x) 1 (ps_seq x) (ps_slot x).

(** The first entry that [f] accepts becomes dirty. *)
Definition mark_dirty (f : page_stat -> bool) (ms : proc_mem_stat) : proc_mem_stat :=
  match first_index f (pages ms) with
  | Some i => set_page ms i (set_dirty (page_at ms i))
  | None => ms
  end.

(** The page is mapped: give it the next sequence number and count it. *)
Definition pf_resident (va0 : Z) : M (kst F) unit :=
  p ← myproc;
  let seq := next_fifo_seq (p_memstat p) in
  _ ← modmemstat (fun ms => set_next_seq ms (i32 (seq + 1)));
  _ ← say_if (negb (vmtrace (p_count p) =? 0)) (EvResident va0 seq);
  modmemstat (fun ms => memstat_mark_resident ms va0 seq).

(** Map the filled frame [mem] at [va0] and record it. *)
Definition pf_map (sc va0 mem : Z) (was_swapped : bool) : M (kst F) unit :=
  p ← myproc;
  r ← vm (mappages (pagetable p) va0 PGSIZE mem (Z.lor (Z.lor PTE_U PTE_R) PTE_W));
  if r <? 0 then _ ← vm (kfree mem); setkilled
  else
    _ ← say_if (negb was_swapped && negb (vmtrace (p_count p) =? 0)) (EvAlloc va0);
    _ ← pf_resident va0;
    _ ← (if sc =? 15 then modmemstat (mark_dirty (fun x => ps_va x =? u32 va0)) else mret tt);
    inc_resident.

(** Faults on heap, stack and swapped-out pages. *)
Definition pf_anon (sc va : Z) (acc : access) (was_swapped mapped : bool) (guard_lo stack_lo : Z) : M (kst F) unit :=
  let va0 := PGROUNDDOWN va in
  if sc =? 12 then _ ← printf (EvKillInvalid va acc); setkilled
  else if negb mapped then
    if (guard_lo <=? va0) && (va0 <? stack_lo) then _ ← printf (EvKillGuard va0); setkilled
    else
      mem ← try_kalloc_or_replace va0;
      if mem =? 0 then setkilled
      else
        ok ← (if was_swapped then
                r ← swapin_page va0 mem;
                if r <? 0 then _ ← vm (kfree mem); _ ← setkilled; mret false else mret true
              else _ ← vm (mem_fill mem 0 PGSIZE); mret true);
        if (ok : bool) then
          pf_map sc va0 mem was_swapped
        else mret tt
  else if sc =? 15 then modmemstat (mark_dirty (fun x => (ps_va x =? u32 va0) && is_resident x))
  else mret tt.

(** [*pte = f( *pte)] for a valid [pte], nothing for a null one. *)
Definition update_pte (pt va0 : Z) (f : Z -> Z) : M (kst F) bool :=
  pte ← vm (walk pt va0 false);
  if pte =? 0 then mret false
  else v ← vm (mem_load pte); _ ← vm (mem_store pte (f v)); mret true.

(** A page of the executable, text or data, that was just allocated at [mem]. *)
Definition pf_load (va0 mem : Z) (is_text : bool) : M (kst F) unit :=
  p ← myproc;
  let e := p_exec p in
  let off := if is_text then seg_off (text_off e) va0 (text_start e) else seg_off (data_off e) va0 (data_start e) in
  let filesz := if is_text then seg_filesz (text_filesz e) va0 (text_start e)
                else seg_filesz (data_filesz e) va0 (data_start e) in
  _ ← vm (mem_fill mem 0 PGSIZE);
  ok ← (if negb (exec_ip e =? 0) && (0 <? filesz) then
          _ ← fs (ilock (exec_ip e));
          bs ← fs (readi (exec_ip e) off filesz);
          _ ← store_buf mem bs;
          _ ← fs (iunlock (exec_ip e));
          mret (Z.of_nat (length bs) =? filesz)
        else mret true);
  if (ok : bool) then
    let perm := Z.lor (Z.lor PTE_U PTE_R) (if is_text then PTE_X else 0) in
    r ← vm (mappages (pagetable p) va0 PGSIZE mem perm);
    if r <? 0 then _ ← vm (kfree mem); setkilled
    else
      _ ← say_if (negb (vmtrace (p_count p) =? 0)) (EvLoadexec va0);
      _ ← pf_resident va0;
      inc_resident
  else _ ← vm (kfree mem); setkilled.

(** Faults on pages of the executable. *)
Definition pf_exec (sc va : Z) : M (kst F) unit :=
  p ← myproc;
  let e := p_exec p in
  let va0 := PGROUNDDOWN va in
  let is_text := (text_start e <=? va0) && (va0 <? text_end e) in
  pa ← vm (walkaddr (pagetable p) va0);
  if (sc =? 15) && is_text then
    _ ← say_if (negb (vmtrace (p_count p) =? 0)) (EvKillWriteText va); setkilled
  else if pa =? 0 then
    mem ← try_kalloc_or_replace va0;
    if mem =? 0 then setkilled else pf_load va0 mem is_text
  else if sc =? 15 then
    found ← update_pte (pagetable p) va0 (fun v => Z.lor v PTE_W);
    if (found : bool) then modmemstat (mark_dirty (fun x => ps_va x =? u32 va0)) else mret tt
  else
    _ ← update_pte (pagetable p) va0 (fun v =>
          let v := Z.lor v (Z.lor PTE_U PTE_R) in
          if is_text then Z.land (Z.lor v PTE_X) (Z.lnot PTE_W)
          else Z.land (Z.land v (Z.lnot PTE_W)) (Z.lnot PTE_X));
    mret tt.

(** Is the page of [va] recorded as swapped out? *)
Definition pf_was_swapped (p : proc) (va : Z) : bool :=
  existsb (fun x => (ps_state x =? SWAPPED) && (ps_va x =? u32 (PGROUNDDOWN va))) (pages (p_memstat p)).

Definition stack_base (p : proc) : Z := u64 (PGROUNDUP (stack_top (p_exec p)) - USERSTACK * PGSIZE).
Definition stack_guard (p : proc) : Z := u64 (PGROUNDUP (stack_top (p_exec p)) - (USERSTACK + 1) * PGSIZE).

(** The cause of a fault; [None] is an invalid access. *)
Definition pf_cause (p : proc) (sc va : Z) : option cause :=
  let e := p_exec p in
  let is_exec_access := sc =? 12 in
  let in_guard := (stack_guard p <=? va) && (va <? stack_base p) in
  let under_brk := va <? sz p in
  let in_text := under_brk && (text_start e <=? va) && (va <? text_end e) in
  let in_data := under_brk && (data_start e <=? va) && (va <? data_end e) in
  let in_stack := under_brk && (stack_base p <=? va) && (va <? PGROUNDUP (stack_top e)) in
  let in_heap := under_brk && negb in_text && negb in_data && negb in_stack && negb in_guard in
  if in_guard then Some Cguard
  else if pf_was_swapped p va then Some Cswap
  else if in_text || in_data then Some Cexec
  else if in_stack && negb is_exec_access then Some Cstack
  else if in_heap && negb is_exec_access then Some Cheap
  else None.

(** [r_scause()] is 15, 13 or 12 and [r_stval()] is [va]. *)
Definition pagefault (sc va : Z) : M (kst F) unit :=
  p ← myproc;
  let acc := if sc =? 15 then Awrite else if sc =? 13 then Aread else Aexec in
  let cause := pf_cause p sc va in
  let valid := match cause with None | Some Cguard => false | _ => true end in
  _ ← modcount (fun c => mkCount (i32 (pagefault_count c + 1)) (resident_pages c) (swapped_pages c)
                           (swapin_count c) (swapout_count c) (vmtrace c));
  _ ← say_if (negb (vmtrace (p_count p) =? 0)) (EvPagefault va acc cause);
  if negb valid then _ ← printf (EvKillInvalid va acc); setkilled
  else
    pte ← vm (walk (pagetable p) (PGROUNDDOWN va) false);
    mapped ← (if pte =? 0 then mret false else v ← vm (mem_load pte); mret (has v PTE_V));
    match cause with
    | Some Cheap | Some Cstack | Some Cswap =>
        pf_anon sc va acc (pf_was_swapped p va) mapped (stack_guard p) (stack_base p)
    | Some Cexec => pf_exec sc va
    | _ => mret tt
    end.
End trap.
