(* ===== verification/TrapProofs.v ===== *)
(** What the page-fault handler does: which accesses kill the process, what a
    page brought in holds, and that the paging invariant is kept.  One access is
    shown to stop the kernel. *)
From S2P Require Import Prelude Riscv PhysMem Kalloc PageTable PtTree PtMap PtUser.
From S2P Require Import Memstat Proc FsIface Swap SwapProofs VmFault Evict UserCopy Trap.

(** The handler tells its causes apart with [kstrcmp]: on null-terminated strings
    it is zero exactly for equal ones, so that a data type can stand for them. *)
Lemma kstrcmp_zero a b :
  Forall (fun c => 0 < c < 256) a -> Forall (fun c => 0 < c < 256) b -> kstrcmp a b = 0 <-> a = b.
Proof.
  intros Ha. revert b. induction Ha as [|x a Hx Ha IH]; intros b Hb; destruct Hb as [|y b Hy Hb]; cbn [kstrcmp].
  - done.
  - split; [lia|done].
  - split; [lia|done].
  - destruct (Z.eqb_spec x y) as [->|Hne]; [rewrite IH by done; split; [by intros ->|by intros [= ->]]|].
    split; [lia|]. intros [= -> _]. done.
Qed.

Section trap.
Context `{HL : Layout} `{!LayoutOk} {F : Type} `{FO : !FsOps F} `{FL : !FsLaws F}.
Context {PO : Policy} `{!PolicyOk PO}.

(** [p->pagefault_count++] *)
Definition pf_count (p : proc) : proc :=
  let c := p_count p in
  set_count (mkCount (i32 (pagefault_count c + 1)) (resident_pages c) (swapped_pages c)
    (swapin_count c) (swapout_count c) (vmtrace c)) p.

Definition acc_of (sc : Z) : access := if sc =? 15 then Awrite else if sc =? 13 then Aread else Aexec.

(** The state in which a valid fault is handled. *)
Definition pf_enter (sc va : Z) (k : kst F) : kst F :=
  mkK (k_pm k) (pf_count (k_p k)) (k_fs k)
    (if vmtrace (p_count (k_p k)) =? 0 then k_out k
     else say k [EvPagefault va (acc_of sc) (pf_cause (k_p k) sc va)]).

Lemma pagefault_invalid sc va k :
  (pf_cause (k_p k) sc va = None \/ pf_cause (k_p k) sc va = Some Cguard) ->
  pagefault sc va k = Ret tt (set_p (set_killed_flag (pf_count (k_p k)))
    (mkK (k_pm k) (k_p k) (k_fs k) (k_out (pf_enter sc va k) ++ [(pid (k_p k), EvKillInvalid va (acc_of sc))]))).
Proof.
  intros Hc. unfold pagefault. rewrite bind_myproc. cbv zeta. fold (acc_of sc). rewrite bind_modcount.
  unfold pf_enter, say_if. kcbn.
  destruct Hc as [-> | ->]; cbn [negb];
    (destruct (vmtrace (p_count (k_p k)) =? 0); cbn [negb]; [rewrite bind_mret|rewrite bind_printf]; done).
Qed.

Lemma pagefault_valid sc va k ca :
  pf_cause (k_p k) sc va = Some ca -> ca <> Cguard ->
  pagefault sc va k = (pte ← vm (walk (pagetable (k_p k)) (PGROUNDDOWN va) false);
    mapped ← (if pte =? 0 then mret false else v ← vm (mem_load pte); mret (has v PTE_V));
    match ca with
    | Cheap | Cstack | Cswap =>
        pf_anon sc va (acc_of sc) (pf_was_swapped (k_p k) va) mapped (stack_guard (k_p k)) (stack_base (k_p k))
    | Cexec => pf_exec sc va
    | _ => mret tt
    end) (pf_enter sc va k).
Proof.
  intros Hc Hg. unfold pagefault. rewrite bind_myproc. cbv zeta. fold (acc_of sc). rewrite bind_modcount.
  unfold pf_enter, say_if. kcbn. rewrite Hc. destruct ca; try done;
    (destruct (vmtrace (p_count (k_p k)) =? 0); cbn [negb]; [rewrite bind_mret|rewrite bind_printf]; done).
Qed.

(** an access to the guard page below the stack, or to an address
    that is neither swapped out nor below the break, does nothing but count the
    fault, log it and mark the process killed. *)
Theorem invalid_access_kills sc va k :
  (stack_guard (k_p k) <= va < stack_base (k_p k) \/
   sz (k_p k) <= va /\ pf_was_swapped (k_p k) va = false) ->
  exists o, pagefault sc va k = Ret tt (mkK (k_pm k) (set_killed_flag (pf_count (k_p k))) (k_fs k) o).
Proof.
  intros Hcase. rewrite pagefault_invalid; [by eexists|]. unfold pf_cause.
  destruct Hcase as [[H1 H2]|[H1 H2]].
  - right. destruct (Z.leb_spec (stack_guard (k_p k)) va), (Z.ltb_spec va (stack_base (k_p k))); (done || lia).
  - destruct ((stack_guard (k_p k) <=? va) && (va <? stack_base (k_p k))); [by right|left].
    rewrite H2. destruct (Z.ltb_spec va (sz (k_p k))); [lia|]. done.
Qed.

(** C40: the test for a swapped-out page compares the low 32 bits
    of the address, and such a page is looked up before its address is compared
    with the break: a user access at or above [MAXVA] whose low bits are those of
    a swapped-out page stops the whole kernel in [walk]. *)
Theorem high_address_panics sc va k i x :
  pages (p_memstat (k_p k)) !! i = Some x -> ps_state x = SWAPPED ->
  ps_va x = u32 (PGROUNDDOWN va) -> MAXVA <= PGROUNDDOWN va ->
  ~ (stack_guard (k_p k) <= va < stack_base (k_p k)) ->
  pagefault sc va k = Panic "walk".
Proof.
  intros Hx Hs Hv Hmax Hg.
  assert (Hw : pf_was_swapped (k_p k) va = true).
  { apply existsb_exists. exists x. split; [by eapply list_elem_of_In, list_elem_of_lookup_2|].
    by rewrite Hs, Hv, !Z.eqb_refl. }
  assert (Hc : pf_cause (k_p k) sc va = Some Cswap).
  { unfold pf_cause. rewrite Hw.
    destruct (Z.leb_spec (stack_guard (k_p k)) va), (Z.ltb_spec va (stack_base (k_p k))); (done || lia). }
  rewrite (pagefault_valid sc va k Cswap Hc) by done. apply bind_Panic.
  unfold vm, zoom, walk. destruct (Z.leb_spec MAXVA (PGROUNDDOWN va)); [done|lia].
Qed.

(** ** Installing a private frame *)
Lemma private_write s root lim Fr c m' :
  as_inv s root Fr lim -> private s root lim Fr c -> same_except [c] (pm_mem s) m' ->
  let s' := mkPmem m' (freelist s) in
  as_inv s' root Fr lim /\ private s' root lim Fr c /\
  (forall vb, pte_of m' root vb = pte_of (pm_mem s) root vb) /\
  (forall p, okpath p -> node m' root p = node (pm_mem s) root p).
Proof.
  intros Has (Hok & HcF & HcT & Hcm) Hse s'. pose proof (as_pt _ _ _ _ Has) as Hpt.
  destruct (off_tree_store s root Fr [c] m' Hpt Hse) as (Hwf & Hn & Hp); [by intros p ->%list_elem_of_singleton|].
  assert (Hpt' : pt_inv s' root Fr).
  { split; [|done|]; cbn [pm_mem].
    - eapply kmem_inv_frame; [apply Hpt|exact Hse|]. by intros p ? ->%list_elem_of_singleton.
    - intros a. unfold s'. cbn [pm_mem]. rewrite tree_page_ext by exact Hn. apply Hpt. }
  split_and!; try done.
  - eapply as_inv_step; [exact Has|done|intros; apply Hp|]. intros vb Hvb Hmb.
    destruct (as_frame _ _ _ _ Has vb Hvb Hmb) as (_ & ? & ?). unfold s'. cbn [pm_mem].
    by rewrite tree_page_ext by exact Hn.
  - unfold s', private, mapped. cbn [pm_mem]. split_and!; [done|done|by rewrite tree_page_ext by exact Hn|].
    intros vb Hvb. rewrite Hp. by apply Hcm.
Qed.

(** Mapping a private frame, or freeing it when the tables cannot be extended. *)
Lemma install s root lim Fr a c perm :
  as_inv s root Fr lim -> private s root lim Fr c -> a mod PGSIZE = 0 -> 0 <= a -> a + PGSIZE <= lim ->
  0 <= perm < 2 ^ 10 -> ~ mapped (pm_mem s) root a ->
  exists r s', mappages root a PGSIZE c perm s = Ret r s' /\
    (r = 0 /\ (exists Fr', as_inv s' root Fr' lim) /\ agree c PGSIZE (pm_mem s) (pm_mem s') /\
       (forall vb, 0 <= vb < MAXVA -> pte_of (pm_mem s') root vb =
          if inr a PGSIZE vb then mkpte c perm else pte_of (pm_mem s) root vb) \/
     r = -1 /\ (length Fr < 2)%nat /\ exists s2, kfree c s' = Ret tt s2 /\ as_inv s2 root [c] lim /\
       (forall vb, 0 <= vb < MAXVA -> pte_of (pm_mem s2) root vb = pte_of (pm_mem s) root vb)).
Proof.
  intros Has (Hok & HcF & HcT & Hcm) Ha Ha0 Hl Hp Hm.
  destruct (map_frame s root Fr lim a c perm) as (r & s' & F' & R & Ev & Has' & Hr); try done.
  exists r, s'. split; [done|]. destruct Hr as [(-> & Hpte & _)|(-> & -> & Hlen & Hpte)]; [left|right].
  - split_and!; [done|by exists F'| |done]. apply (ev_frame _ _ _ _ _ Ev); [apply Hok|done|done].
  - split; [done|]. split; [done|]. destruct (free_step s' root [] c true) as (s2 & R2 & Hi2 & _ & Hn2 & Hp2); [apply Ev| |].
    { intros _. split_and!; [done|set_solver|]. rewrite (ev_tree _ _ _ _ _ Ev). naive_solver. }
    exists s2. split_and!; [done| |intros vb Hvb; rewrite Hp2; by apply Hpte].
    eapply as_inv_step; [exact Has'|done|intros; apply Hp2|]. intros vb Hvb. unfold mapped.
    pose proof (as_lim _ _ _ _ Has). rewrite Hpte by lia. intros Hmb. cbv zeta.
    rewrite tree_page_ext by exact Hn2. rewrite (ev_tree _ _ _ _ _ Ev).
    destruct (as_frame _ _ _ _ Has vb Hvb Hmb) as (_ & ? & ?). specialize (Hcm vb Hvb Hmb). set_solver.
Qed.

(** ** The bookkeeping *)
Lemma pg_set_as k ip Fr lim s' Fr' :
  pg_inv k ip Fr lim -> as_inv s' (pagetable (k_p k)) Fr' lim -> pg_inv (set_pm s' k) ip Fr' lim.
Proof. intros [? ? ? ? [] ?] ?. split; (done || by split). Qed.

Lemma pg_killed k ip Fr lim :
  pg_inv k ip Fr lim -> pg_inv (set_p (set_killed_flag (k_p k)) k) ip Fr lim.
Proof. intros [? ? ? ? [] ?]. split; (done || by split). Qed.

(** Changes to counters and to the log. *)
Lemma pg_count k ip Fr lim c o :
  pg_inv k ip Fr lim -> pg_inv (mkK (k_pm k) (set_count c (k_p k)) (k_fs k) o) ip Fr lim.
Proof. intros [? ? ? ? [] ?]. split; (done || by split). Qed.

Lemma pg_out k ip Fr lim o : pg_inv k ip Fr lim -> pg_inv (mkK (k_pm k) (k_p k) (k_fs k) o) ip Fr lim.
Proof. intros [? ? ? ? [] ?]. split; (done || by split). Qed.

(** A memstat with the same pages. *)
Lemma pg_memstat_pages k ip Fr lim ms o :
  pg_inv k ip Fr lim -> pages ms = pages (p_memstat (k_p k)) ->
  pg_inv (mkK (k_pm k) (set_memstat ms (k_p k)) (k_fs k) o) ip Fr lim.
Proof.
  intros [A L T V [] S] E. split; kcbn; rewrite ?E; (done || (by eapply tbl_ok_pages) || by split).
Qed.

(** A page that is not in the swap area becomes resident. *)
Lemma pg_mark_resident k ip Fr lim va seq o :
  pg_inv k ip Fr lim -> va mod PGSIZE = 0 -> 0 <= va < 2 ^ 32 ->
  find_swap (swap_table (p_swap (k_p k))) va = None ->
  pg_inv (mkK (k_pm k) (set_memstat (memstat_mark_resident (p_memstat (k_p k)) va seq) (k_p k)) (k_fs k) o) ip Fr lim.
Proof.
  intros Hi Ha Hva Hn. pose proof (mark_resident_pages (p_memstat (k_p k)) va seq) as Ep. unfold marked in Ep.
  destruct (slot_for (p_memstat (k_p k)) va) as [i|] eqn:Es; [|by apply pg_memstat_pages].
  pose proof (slot_page _ _ _ Es) as Hx. set (x := page_at (p_memstat (k_p k)) i) in *.
  rewrite u32_small in Ep by done. set (y := mkPageStat va RESIDENT 0 seq (-1)) in *.
  assert (Hxs : ps_state x <> SWAPPED).
  { intros Hs. destruct (slot_for_spec _ _ _ Es) as (x' & Hx' & Hcase). assert (x' = x) as -> by congruence.
    destruct Hcase as [(_ & _ & Ev)|[Hu _]]; [|rewrite Hs in Hu; done].
    rewrite u32_small in Ev by done.
    assert (is_Some (find_swap (swap_table (p_swap (k_p k))) va)) as [? E]; [|congruence].
    apply (pg_sw _ _ _ _ Hi). by exists i, x. }
  pose proof (lookup_lt_Some _ _ _ Hx) as Hlt.
  split; kcbn; try apply Hi.
  - eapply marked_ok; [apply Hi| |apply mark_resident_pages]. done.
  - intros j z. rewrite Ep. intros [(_ & <- & _)|[_ Hz]]%list_lookup_insert_Some; [done|]. by apply (pg_va _ _ _ _ Hi j).
  - destruct (pg_swap _ _ _ _ Hi). by split.
  - intros va'. rewrite (pg_sw _ _ _ _ Hi), Ep. split; intros (j & z & Hz & Hs & Ev); exists j, z; split_and!; try done.
    + rewrite list_lookup_insert_ne; [done|]. intros <-. apply Hxs. congruence.
    + apply list_lookup_insert_Some in Hz as [(_ & <- & _)|[_ Hz]]; done.
Qed.

Lemma pg_mark_dirty k ip Fr lim f o :
  pg_inv k ip Fr lim ->
  pg_inv (mkK (k_pm k) (set_memstat (mark_dirty f (p_memstat (k_p k))) (k_p k)) (k_fs k) o) ip Fr lim.
Proof.
  intros Hi. unfold mark_dirty. destruct (first_index f (pages (p_memstat (k_p k)))) as [i|] eqn:E;
    [|by apply pg_memstat_pages].
  apply first_index_Some in E as [(x & Hx & _) _]. rewrite (page_at_lookup _ _ _ Hx).
  assert (Hins : forall j z, <[i := set_dirty x]> (pages (p_memstat (k_p k))) !! j = Some z ->
    exists z', pages (p_memstat (k_p k)) !! j = Some z' /\ ps_va z = ps_va z' /\ ps_state z = ps_state z').
  { intros j z [(<- & <- & _)|[_ Hz]]%list_lookup_insert_Some; [by exists x|by exists z]. }
  split; kcbn; try apply Hi.
  - apply put_ok; [apply Hi|]. intros j z Hz. split.
    + intros Hj Hl E. by apply (tb_first _ (pg_tbl _ _ _ _ Hi) i j x z).
    + intros Hj Hl. by apply (tb_first _ (pg_tbl _ _ _ _ Hi) j i z x).
  - intros j z (z' & Hz' & Ev & Es)%Hins Hl. rewrite Ev. apply (pg_va _ _ _ _ Hi j z'); [done|].
    unfold is_live in *. by rewrite <- Es.
  - destruct (pg_swap _ _ _ _ Hi). by split.
  - intros va. rewrite (pg_sw _ _ _ _ Hi). split.
    + intros (j & z & Hz & Hs & Ev). pose proof (lookup_lt_Some _ _ _ Hx). destruct (decide (j = i)) as [->|Hne].
      * exists i, (set_dirty x). simpl. rewrite list_lookup_insert_eq by done. assert (z = x) as -> by congruence. done.
      * exists j, z. simpl. by rewrite list_lookup_insert_ne.
    + intros (j & z & Hz & Hs & Ev). destruct (Hins j z Hz) as (z' & ? & ? & ?). exists j, z'.
      split_and!; [done|congruence|congruence].
Qed.

(** What [pf_resident] leaves in the table. *)
Definition pf_ms (va : Z) (ms : proc_mem_stat) : proc_mem_stat :=
  memstat_mark_resident (set_next_seq ms (i32 (next_fifo_seq ms + 1))) va (next_fifo_seq ms).

Lemma pf_resident_run va (k : kst F) :
  exists o, pf_resident va k = Ret tt (mkK (k_pm k) (set_memstat (pf_ms va (p_memstat (k_p k))) (k_p k)) (k_fs k) o).
Proof.
  unfold pf_resident. rewrite bind_myproc. cbv zeta. rewrite bind_modmemstat. unfold say_if.
  destruct (negb (vmtrace (p_count (k_p k)) =? 0)); [rewrite bind_printf|rewrite bind_mret]; by eexists.
Qed.

Lemma pg_pf_ms k ip Fr lim va o :
  pg_inv k ip Fr lim -> va mod PGSIZE = 0 -> 0 <= va < 2 ^ 32 ->
  find_swap (swap_table (p_swap (k_p k))) va = None ->
  pg_inv (mkK (k_pm k) (set_memstat (pf_ms va (p_memstat (k_p k))) (k_p k)) (k_fs k) o) ip Fr lim.
Proof.
  intros Hi Ha Hva Hn.
  set (k1 := mkK (k_pm k) (set_memstat (set_next_seq (p_memstat (k_p k)) (i32 (next_fifo_seq (p_memstat (k_p k)) + 1))) (k_p k)) (k_fs k) o).
  assert (Hi1 : pg_inv k1 ip Fr lim) by (by apply pg_memstat_pages).
  exact (pg_mark_resident k1 ip Fr lim va (next_fifo_seq (p_memstat (k_p k))) o Hi1 Ha Hva Hn).
Qed.

(** Every entry of the table is in use for a page other than [va]'s. *)
Definition table_full (ms : proc_mem_stat) (va : Z) : Prop :=
  forall j y, pages ms !! j = Some y -> is_live y = true /\ ps_va y <> u32 va.

(** The table after a fault was served: one entry is the page's, the newest, dirty
    for a write; or the table was full, no entry changed, and the page that is now
    mapped has no entry ([memstat_find_index] returns -1). *)
Definition served (sc va : Z) (ms ms' : proc_mem_stat) : Prop :=
  next_fifo_seq ms' = i32 (next_fifo_seq ms + 1) /\
  ((exists i, slot_for ms va = Some i /\
      pages ms' = <[i := mkPageStat va RESIDENT (if sc =? 15 then 1 else 0) (next_fifo_seq ms) (-1)]> (pages ms)) \/
   (table_full ms va /\ pages ms' = pages ms)).

Lemma slot_for_None ms va :
  slot_for ms va = None -> table_full ms va.
Proof.
  unfold slot_for, memstat_find_index.
  destruct (first_index (fun x => is_live x && _) (pages ms)) eqn:E1; [done|].
  destruct (first_index (fun x => ps_state x =? UNMAPPED) (pages ms)) eqn:E2; [done|]. intros _ j y Hy.
  rewrite first_index_None in E1, E2. specialize (E1 j y Hy). specialize (E2 j y Hy). cbv beta in E1, E2.
  assert (Hl : is_live y = true) by (unfold is_live; by rewrite E2). split; [done|].
  rewrite Hl in E1. by apply Z.eqb_neq.
Qed.

Lemma served_dirty sc va ms :
  tbl_ok ms -> 0 <= va < 2 ^ 32 ->
  served sc va ms (if sc =? 15 then mark_dirty (fun x => ps_va x =? u32 va) (pf_ms va ms) else pf_ms va ms).
Proof.
  intros Hok Hva. assert (Hnext : next_fifo_seq (pf_ms va ms) = i32 (next_fifo_seq ms + 1)).
  { unfold pf_ms. by destruct (marked_next (set_next_seq ms (i32 (next_fifo_seq ms + 1))) va (next_fifo_seq ms) 0) as [-> _]. }
  split; [destruct (sc =? 15); [|done]; unfold mark_dirty; by case_match|].
  destruct (slot_for ms va) as [i|] eqn:Hs; [left; exists i; split; [done|]|right; split; [by apply slot_for_None|]].
  - set (y := mkPageStat va RESIDENT 0 (next_fifo_seq ms) (-1)).
    assert (Ep : pages (pf_ms va ms) = <[i := y]> (pages ms)).
    { unfold pf_ms. rewrite mark_resident_pages. unfold marked.
      rewrite (slot_for_pages _ ms) by done. rewrite Hs, u32_small by done. done. }
    destruct (sc =? 15); [|done]. pose proof (slot_lt _ _ _ Hs).
    assert (Hy : pages (pf_ms va ms) !! i = Some y) by (rewrite Ep; by apply list_lookup_insert_eq).
    unfold mark_dirty. rewrite u32_small by done. rewrite (scan_live (pf_ms va ms) va i y).
    + rewrite (page_at_lookup _ _ y Hy). simpl. rewrite Ep. by rewrite list_insert_insert_eq.
    + eapply (marked_ok (set_next_seq ms (i32 (next_fifo_seq ms + 1))));
        [by apply (tbl_ok_pages ms)| |apply mark_resident_pages]. done.
    + done.
  - assert (Ep : pages (pf_ms va ms) = pages ms).
    { unfold pf_ms. rewrite mark_resident_pages. unfold marked. rewrite (slot_for_pages _ ms) by done. by rewrite Hs. }
    destruct (sc =? 15); [|done]. unfold mark_dirty. rewrite Ep.
    rewrite (proj2 (first_index_None _ _)); [done|]. intros j y Hy. apply Z.eqb_neq. by eapply (slot_for_None ms va Hs).
Qed.

Definition rwu : Z := Z.lor (Z.lor PTE_U PTE_R) PTE_W.

(** Serving the fault for [va] with the frame [mem]: killed for want of memory,
    or the page is mapped to [mem] and recorded. *)
Inductive mapped_in (sc va mem perm : Z) (Fr : list Z) (k k' : kst F) : Prop :=
  | mi_killed : p_killed (p_sched (k_p k')) = 1 -> (length Fr < 2)%nat -> mapped_in sc va mem perm Fr k k'
  | mi_ok :
      p_sched (k_p k') = p_sched (k_p k) ->
      agree mem PGSIZE (pm_mem (k_pm k)) (pm_mem (k_pm k')) ->
      (forall vb, 0 <= vb < MAXVA -> pte_of (pm_mem (k_pm k')) (pagetable (k_p k)) vb =
         if inr va PGSIZE vb then mkpte mem perm else pte_of (pm_mem (k_pm k)) (pagetable (k_p k)) vb) ->
      served sc va (p_memstat (k_p k)) (p_memstat (k_p k')) ->
      mapped_in sc va mem perm Fr k k'.

Lemma pf_tail_run sc va sw ev (k : kst F) ip Fr lim :
  pg_inv k ip Fr lim -> va mod PGSIZE = 0 -> 0 <= va < 2 ^ 32 ->
  find_swap (swap_table (p_swap (k_p k))) va = None ->
  exists k', (_ ← say_if sw ev; _ ← pf_resident va;
      _ ← (if sc =? 15 then modmemstat (mark_dirty (fun x => ps_va x =? u32 va)) else mret tt); inc_resident) k = Ret tt k' /\
    pg_inv k' ip Fr lim /\ k_pm k' = k_pm k /\ k_fs k' = k_fs k /\
    p_sched (k_p k') = p_sched (k_p k) /\ p_space (k_p k') = p_space (k_p k) /\ p_swap (k_p k') = p_swap (k_p k) /\
    served sc va (p_memstat (k_p k)) (p_memstat (k_p k')).
Proof.
  intros Hi Ha Hva Hn.
  assert (exists o, say_if sw ev k = Ret tt (mkK (k_pm k) (k_p k) (k_fs k) o)) as (o1 & R1).
  { unfold say_if. destruct sw; [by eexists|]. exists (k_out k). by destruct k. }
  set (k1 := mkK (k_pm k) (k_p k) (k_fs k) o1) in *.
  destruct (pf_resident_run va k1) as (o2 & R2). set (k2 := mkK _ _ _ o2) in R2.
  assert (Hi2 : pg_inv k2 ip Fr lim) by exact (pg_pf_ms k1 ip Fr lim va o2 (pg_out _ _ _ _ o1 Hi) Ha Hva Hn).
  pose proof (served_dirty sc va (p_memstat (k_p k)) (pg_tbl _ _ _ _ Hi) Hva) as Hserved.
  rewrite (bind_Ret _ _ _ _ _ R1), (bind_Ret _ _ _ _ _ R2).
  destruct (sc =? 15).
  - rewrite bind_modmemstat. eexists. split; [reflexivity|]. split_and!; try done.
    apply (pg_count (set_p _ k2)). by apply (pg_mark_dirty k2).
  - rewrite bind_mret. eexists. split; [reflexivity|]. split_and!; try done. by apply (pg_count k2).
Qed.

Lemma pf_map_run sc va mem sw (k : kst F) ip Fr lim :
  pg_inv k ip Fr lim -> private (k_pm k) (pagetable (k_p k)) lim Fr mem ->
  va mod PGSIZE = 0 -> 0 <= va < 2 ^ 32 -> ~ mapped (pm_mem (k_pm k)) (pagetable (k_p k)) va ->
  find_swap (swap_table (p_swap (k_p k))) va = None ->
  exists k', pf_map sc va mem sw k = Ret tt k' /\ (exists Fr', pg_inv k' ip Fr' lim) /\
    p_swap (k_p k') = p_swap (k_p k) /\ p_space (k_p k') = p_space (k_p k) /\ k_fs k' = k_fs k /\
    mapped_in sc va mem rwu Fr k k'.
Proof.
  intros Hi Hpr Ha Hva Hm Hn. pose proof (pg_lim _ _ _ _ Hi).
  assert (Hl : va + PGSIZE <= lim) by (unfold PGSIZE in *; Z.to_euclidean_division_equations; lia).
  destruct (install (k_pm k) (pagetable (k_p k)) lim Fr va mem rwu (pg_as _ _ _ _ Hi) Hpr)
    as (r & s' & R & Hr); [done|lia|done|done|done|].
  unfold pf_map. rewrite bind_myproc, (bind_Ret _ _ _ _ _ (vm_Ret _ k _ _ R)).
  destruct Hr as [(-> & [Fr' Has'] & Hag & Hpte)|(-> & Hlen & s2 & R2 & Has2 & _)].
  - cbn [Z.ltb Z.compare]. pose proof (pg_set_as _ _ _ _ s' Fr' Hi Has') as Hi'.
    destruct (pf_tail_run sc va (negb sw && negb (vmtrace (p_count (k_p k)) =? 0)) (EvAlloc va) (set_pm s' k) ip Fr' lim Hi' Ha Hva Hn)
      as (k' & R' & Hpg & Epm & Efs & Esc & Esp & Esw & Hsv).
    exists k'. split_and!; [exact R'|by exists Fr'|done|done|done|].
    apply mi_ok; [done| | |done]; by rewrite Epm.
  - cbn [Z.ltb Z.compare]. rewrite (bind_Ret _ _ _ _ _ (vm_Ret _ (set_pm s' k) _ _ R2)).
    eexists. split; [reflexivity|]. split_and!; try done; [|by apply mi_killed].
    exists [mem]. apply (pg_killed (set_pm s2 k)). by apply (pg_set_as k ip Fr).
Qed.

(** A successful allocation, with or without eviction, as the handler uses it:
    the new frame is private, no page is mapped that was not, and the swap area
    is the same for every address but a page that was mapped. *)
Record got (k : kst F) (ip lim mem : Z) (k1 : kst F) (Fr1 : list Z) : Prop := {
  got_inv : pg_inv k1 ip Fr1 lim;
  got_private : private (k_pm k1) (pagetable (k_p k)) lim Fr1 mem;
  got_same : same_proc (k_p k) (k_p k1);
  got_ptes : forall vb, 0 <= vb < MAXVA -> mapped (pm_mem (k_pm k1)) (pagetable (k_p k)) vb ->
    pte_of (pm_mem (k_pm k1)) (pagetable (k_p k)) vb = pte_of (pm_mem (k_pm k)) (pagetable (k_p k)) vb;
  got_swap : forall va, ~ mapped (pm_mem (k_pm k)) (pagetable (k_p k)) va -> swap_view k1 ip va = swap_view k ip va;
  got_fs : fs_kept ip (k_fs k) (k_fs k1)
}.

Lemma try_kalloc_got k ip Fr lim va :
  pg_inv k ip Fr lim ->
  exists r k1, try_kalloc_or_replace va k = Ret r k1 /\
    (r = 0 /\ Fr = [] /\ (exists Fr1, pg_inv k1 ip Fr1 lim) \/ r <> 0 /\ got k ip lim r k1 (tail Fr)).
Proof.
  intros Hi. destruct (try_kalloc_run k ip Fr lim va Hi) as (r & k1 & R & Hi1 & Hpr & Hcase).
  exists r, k1. split; [done|]. destruct (decide (r = 0)) as [->|Hne]; [left|].
  { split_and!; [done| |by eexists]. destruct Fr as [|c Fr]; [done|]. destruct Hcase as [<- _].
    pose proof (ki_pages _ _ (pi_free _ _ _ (as_pt _ _ _ _ (pg_as _ _ _ _ Hi)))) as [Hc _]%Forall_cons.
    apply page_ok_range in Hc. lia. }
  right. split; [done|]. specialize (Hpr Hne).
  destruct Fr as [|c Fr]; cbn [tail] in *.
  - destruct Hcase as [| | |i x k1 Hs Hx Hr Hsp Hm pa Hev Hgone Hk Hd Hv]; try done. split; try done.
    + intros vb Hvb. unfold mapped. rewrite (ev_dropped _ _ _ _ _ _ Hev) by done. by destruct (inr _ _ _).
    + intros a Ha. apply Hv. intros ->. done.
  - destruct Hcase as (-> & Ep & Ef & _ & Hpte). split; try done.
    + rewrite Ep. by split_and!.
    + intros a _. unfold swap_view. by rewrite Ep, Ef.
    + by rewrite Ef.
Qed.

Lemma guard_page p va :
  stack_guard p mod PGSIZE = 0 /\ stack_base p mod PGSIZE = 0 /\
  ((stack_guard p <=? PGROUNDDOWN va) && (PGROUNDDOWN va <? stack_base p) =
   (stack_guard p <=? va) && (va <? stack_base p)).
Proof.
  assert (Hmod : forall x, u64 (PGROUNDUP (stack_top (p_exec p)) - x * PGSIZE) mod PGSIZE = 0).
  { intros x. unfold u64. rewrite Z.mod_mod_divide by (by exists (2 ^ 52)).
    rewrite Zminus_mod, PGROUNDUP_mod, Z_mod_mult. done. }
  split_and!; [apply Hmod|apply Hmod|]. pose proof (pgdown_bounds va) as [Hb Hbm].
  pose proof (Hmod (USERSTACK + 1)) as H1. pose proof (Hmod USERSTACK) as H2.
  fold (stack_guard p) in H1. fold (stack_base p) in H2. unfold PGSIZE in *.
  destruct (Z.leb_spec (stack_guard p) (PGROUNDDOWN va)), (Z.ltb_spec (PGROUNDDOWN va) (stack_base p)),
    (Z.leb_spec (stack_guard p) va), (Z.ltb_spec va (stack_base p)); try done;
    exfalso; Z.to_euclidean_division_equations; lia.
Qed.

(** The handler's body for a page of heap, stack or swap that is not mapped. *)
Definition pf_body (sc va0 : Z) (was_swapped : bool) : M (kst F) unit :=
  mem ← try_kalloc_or_replace va0;
  if mem =? 0 then setkilled
  else
    ok ← (if was_swapped then
            r ← swapin_page va0 mem;
            if r <? 0 then _ ← vm (kfree mem); _ ← setkilled; mret false else mret true
          else _ ← vm (mem_fill mem 0 PGSIZE); mret true);
    if (ok : bool) then pf_map sc va0 mem was_swapped else mret tt.

Definition anon (ca : cause) : Prop := ca = Cheap \/ ca = Cstack \/ ca = Cswap.

Lemma cause_not_guard p sc va ca :
  pf_cause p sc va = Some ca -> ca <> Cguard -> (stack_guard p <=? va) && (va <? stack_base p) = false.
Proof.
  unfold pf_cause. destruct ((stack_guard p <=? va) && (va <? stack_base p)); [|done]. intros [= <-]. done.
Qed.

Lemma pagefault_anon sc va k ip Fr lim ca :
  pg_inv k ip Fr lim -> pf_cause (k_p k) sc va = Some ca -> anon ca -> sc <> 12 -> 0 <= va < 2 ^ 32 ->
  ~ mapped (pm_mem (k_pm k)) (pagetable (k_p k)) (PGROUNDDOWN va) ->
  pagefault sc va k = pf_body sc (PGROUNDDOWN va) (pf_was_swapped (k_p k) va) (pf_enter sc va k).
Proof.
  intros Hi Hc Ha Hsc Hva Hm. pose proof (as_lim _ _ _ _ (pg_as _ _ _ _ Hi)). pose proof MAXVA_eq.
  pose proof (pgdown_bounds va). pose proof (pgdown_nonneg va ltac:(lia)).
  assert (Hg : ca <> Cguard) by (by destruct Ha as [->|[->| ->]]).
  rewrite (pagefault_valid sc va k ca Hc Hg).
  set (k0 := pf_enter sc va k). set (m := pm_mem (k_pm k)).
  assert (R1 : walk (pagetable (k_p k)) (PGROUNDDOWN va) false (k_pm k0) = Ret (pte_addr m (pagetable (k_p k)) (PGROUNDDOWN va)) (k_pm k)).
  { apply (walk_noalloc (k_pm k)). lia. }
  rewrite (bind_Ret _ _ _ _ _ (vm_Ret _ k0 _ _ R1)). change (set_pm (k_pm k) k0) with k0.
  assert (R2 : (if pte_addr m (pagetable (k_p k)) (PGROUNDDOWN va) =? 0 then mret false
    else v ← vm (mem_load (pte_addr m (pagetable (k_p k)) (PGROUNDDOWN va))); mret (has v PTE_V)) k0 = Ret false k0).
  { destruct (pte_addr_load m (pagetable (k_p k)) (PGROUNDDOWN va)) as [(-> & _)|[Hp E]]; [apply Hi|done|].
    destruct (Z.eqb_spec (pte_addr m (pagetable (k_p k)) (PGROUNDDOWN va)) 0); [lia|].
    assert (Rl : mem_load (pte_addr m (pagetable (k_p k)) (PGROUNDDOWN va)) (k_pm k0) =
      Ret (pte_of m (pagetable (k_p k)) (PGROUNDDOWN va)) (k_pm k)) by (rewrite <- E; done).
    rewrite (bind_Ret _ _ _ _ _ (vm_Ret _ k0 _ _ Rl)). unfold mapped in Hm. fold m in Hm.
    by destruct (has _ PTE_V). }
  rewrite (bind_Ret _ _ _ _ _ R2).
  assert (Hbody : pf_anon sc va (acc_of sc) (pf_was_swapped (k_p k) va) false (stack_guard (k_p k)) (stack_base (k_p k)) k0 =
    pf_body sc (PGROUNDDOWN va) (pf_was_swapped (k_p k) va) k0).
  { unfold pf_anon. cbv zeta. rewrite (proj2 (Z.eqb_neq sc 12) Hsc). cbn [negb].
    destruct (guard_page (k_p k) va) as (_ & _ & ->). by rewrite (cause_not_guard (k_p k) sc va ca Hc Hg). }
  destruct Ha as [->|[->| ->]]; exact Hbody.
Qed.

Lemma pf_enter_inv sc va k ip Fr lim : pg_inv k ip Fr lim -> pg_inv (pf_enter sc va k) ip Fr lim.
Proof. intros. by apply pg_count. Qed.

Lemma not_swapped_none k ip Fr lim va :
  pg_inv k ip Fr lim -> 0 <= PGROUNDDOWN va < 2 ^ 32 -> pf_was_swapped (k_p k) va = false ->
  swap_view k ip (PGROUNDDOWN va) = None.
Proof.
  intros Hi Hva Hw. unfold swap_view. destruct (find_swap _ (PGROUNDDOWN va)) eqn:E; [|done]. exfalso.
  assert (is_Some (find_swap (swap_table (p_swap (k_p k))) (PGROUNDDOWN va))) as Hs by (by eexists).
  apply (pg_sw _ _ _ _ Hi) in Hs as (i & x & Hx & Hs & Ev). rewrite <- not_true_iff_false in Hw. apply Hw.
  apply existsb_exists. exists x. split; [by eapply list_elem_of_In, list_elem_of_lookup_2|].
  by rewrite Hs, Ev, u32_small, !Z.eqb_refl.
Qed.

(** The process was killed, with fewer than three free pages: a frame and two
    page-table pages. *)
Definition starved (Fr : list Z) (k' : kst F) : Prop :=
  p_killed (p_sched (k_p k')) = 1 /\ (length Fr < 3)%nat.

(** The page of [va] is in memory with contents [f], newest in the table. *)
Record brought (sc va perm : Z) (f : Z -> Z) (k k' : kst F) : Prop := {
  br_sched : p_sched (k_p k') = p_sched (k_p k);
  br_page : exists pa, page_ok pa /\ pte_of (pm_mem (k_pm k')) (pagetable (k_p k')) va = mkpte pa perm /\
    page_is (pm_mem (k_pm k')) pa f;
  br_others : forall vb, 0 <= vb < MAXVA -> ~ (va <= vb < va + PGSIZE) ->
    mapped (pm_mem (k_pm k')) (pagetable (k_p k')) vb ->
    pte_of (pm_mem (k_pm k')) (pagetable (k_p k')) vb = pte_of (pm_mem (k_pm k)) (pagetable (k_p k)) vb;
  br_table : exists ms, next_fifo_seq ms = next_fifo_seq (p_memstat (k_p k)) /\ served sc va ms (p_memstat (k_p k'))
}.

Lemma mapped_brought sc va perm f (k k1 k2 k' : kst F) ip lim Fr mem :
  got k ip lim mem k1 (tail Fr) ->
  (forall vb, pte_of (pm_mem (k_pm k2)) (pagetable (k_p k)) vb = pte_of (pm_mem (k_pm k1)) (pagetable (k_p k)) vb) ->
  p_sched (k_p k2) = p_sched (k_p k1) -> p_space (k_p k2) = p_space (k_p k1) ->
  next_fifo_seq (p_memstat (k_p k2)) = next_fifo_seq (p_memstat (k_p k1)) ->
  page_is (pm_mem (k_pm k2)) mem f -> 0 <= va -> va + PGSIZE <= MAXVA ->
  p_space (k_p k') = p_space (k_p k2) -> mapped_in sc va mem perm (tail Fr) k2 k' ->
  starved Fr k' \/ brought sc va perm f k k'.
Proof.
  intros [Hi Hpr (S1 & S2 & S3 & S4) Hptes _ _] Hp2' E1 E2 E3 Hpg Hva0 Hva Esp Hm.
  assert (HP : PGSIZE = 4096) by done.
  assert (Er : pagetable (k_p k') = pagetable (k_p k)) by (unfold pagetable; by rewrite Esp, E2, S2).
  assert (Er2 : pagetable (k_p k2) = pagetable (k_p k)) by (unfold pagetable; by rewrite E2, S2).
  destruct Hm as [? Hlen|Hs Hag Hpte Hsv]; [left; split; [done|destruct Fr; simpl in *; lia]|right]. rewrite Er2 in Hpte. split.
  - by rewrite Hs, E1.
  - exists mem. rewrite Er, Hpte, inr_true by lia. destruct Hpr as (? & _). split_and!; try done.
    by eapply page_is_agree.
  - intros vb Hvb Hout. rewrite Er. unfold mapped. rewrite Hpte, inr_false, Hp2' by lia. by apply Hptes.
  - exists (p_memstat (k_p k2)). split; [by rewrite E3|done].
Qed.

Lemma page_top va : va mod PGSIZE = 0 -> 0 <= va < 2 ^ 32 -> va + PGSIZE <= MAXVA.
Proof. rewrite MAXVA_eq. unfold PGSIZE. lia. Qed.

Lemma zero_body sc va k ip Fr lim :
  pg_inv k ip Fr lim -> va mod PGSIZE = 0 -> 0 <= va < 2 ^ 32 ->
  ~ mapped (pm_mem (k_pm k)) (pagetable (k_p k)) va -> swap_view k ip va = None ->
  exists k', pf_body sc va false k = Ret tt k' /\ (exists Fr', pg_inv k' ip Fr' lim) /\
    (starved Fr k' \/ brought sc va rwu zeros k k').
Proof.
  intros Hi Ha Hva Hm Hn. pose proof (page_top va Ha Hva). pose proof MAXVA_eq.
  destruct (try_kalloc_got k ip Fr lim va Hi) as (mem & k1 & R & Hcase). unfold pf_body.
  rewrite (bind_Ret _ _ _ _ _ R). destruct Hcase as [(-> & -> & Fr1 & Hi1)|[Hne Hg]].
  { cbn [Z.eqb]. eexists. split; [reflexivity|]. split; [exists Fr1; by apply pg_killed|left; split; [done|simpl; lia]]. }
  rewrite (proj2 (Z.eqb_neq mem 0) Hne). pose proof Hg as [Hi1 Hpr (S1 & S2 & S3 & S4) Hptes Hsw _].
  assert (Er : pagetable (k_p k1) = pagetable (k_p k)) by (unfold pagetable; by rewrite S2).
  set (s2 := mkPmem (fill (pm_mem (k_pm k1)) mem 0 PGSIZE) (freelist (k_pm k1))).
  destruct (private_write (k_pm k1) (pagetable (k_p k)) lim (tail Fr) mem (pm_mem s2)) as (Has2 & Hpr2 & Hp2 & _).
  { rewrite <- Er. apply Hi1. } { done. } { apply same_except_fill, Hpr. }
  assert (Hi2 : pg_inv (set_pm s2 k1) ip (tail Fr) lim) by (eapply pg_set_as; [done|by rewrite Er]).
  assert (Hm1 : ~ mapped (pm_mem (k_pm k1)) (pagetable (k_p k)) va).
  { intros Hm1. apply Hm. unfold mapped. rewrite <- Hptes; [done|lia|done]. }
  destruct (pf_map_run sc va mem false (set_pm s2 k1) ip (tail Fr) lim Hi2) as (k' & R' & Hpg & _ & Esp & _ & Hmi); try done.
  { kcbn. by rewrite Er. } { kcbn. unfold mapped. rewrite Er, Hp2. done. }
  { kcbn. specialize (Hsw va Hm). rewrite Hn in Hsw. unfold swap_view in Hsw. by destruct (find_swap _ va). }
  exists k'. split; [|split; [done|]].
  - rewrite bind_assoc. assert (Rf : vm (mem_fill mem 0 PGSIZE) k1 = Ret tt (set_pm s2 k1)) by done.
    rewrite (bind_Ret _ _ _ _ _ Rf), bind_mret. exact R'.
  - eapply (mapped_brought sc va rwu zeros k k1 (set_pm s2 k1) k' ip lim Fr mem); try done; [apply page_is_fill|lia].
Qed.

(** The bytes [bs] as the contents of a page. *)
Definition bytes_at (bs : list Z) : Z -> Z := fun x => bs !!! Z.to_nat x.

Lemma page_is_store m p bs :
  is_bytes bs -> length bs = Z.to_nat PGSIZE -> page_is (store_bytes m p bs) p (bytes_at bs).
Proof.
  intros Hb Hl x Hx. unfold rd8, store_bytes, bytes_at. rewrite inr_true by lia.
  replace (p + x - p) with x by lia. destruct (lookup_lt_is_Some_2 bs (Z.to_nat x)) as [b Eb]; [lia|].
  rewrite Eb, (list_lookup_total_correct _ _ _ Eb). cbn [default]. rewrite Z.mod_mod by lia.
  apply Z.mod_small. eapply (proj1 (list.Forall_forall _ _) Hb), list_elem_of_lookup_2, Eb.
Qed.

Lemma same_except_bytes m p bs :
  p mod PGSIZE = 0 -> length bs = Z.to_nat PGSIZE -> same_except [p] m (store_bytes m p bs).
Proof.
  intros Hp Hl q Hq Hne. apply agree_sym, agree_store_bytes. rewrite Hl.
  destruct (pages_apart p q) as [|]; [done|done|set_solver|rewrite Z2Nat.id; (done || lia)..].
Qed.

(** The invariant after [swapin_page] filled a private frame. *)
Lemma swapin_inv k ip Fr lim va mem slot bs f' :
  pg_inv k ip Fr lim -> private (k_pm k) (pagetable (k_p k)) lim Fr mem ->
  va mod PGSIZE = 0 -> 0 <= va < 2 ^ 32 -> find_swap (swap_table (p_swap (k_p k))) va = Some slot ->
  length bs = Z.to_nat PGSIZE -> swap_inv (after_swapin va mem slot bs f' k) ip ->
  let k' := after_swapin va mem slot bs f' k in
  pg_inv k' ip Fr lim /\ private (k_pm k') (pagetable (k_p k)) lim Fr mem /\
  (forall vb, pte_of (pm_mem (k_pm k')) (pagetable (k_p k)) vb = pte_of (pm_mem (k_pm k)) (pagetable (k_p k)) vb) /\
  find_swap (swap_table (p_swap (k_p k'))) va = None /\
  next_fifo_seq (p_memstat (k_p k')) = next_fifo_seq (p_memstat (k_p k)).
Proof.
  intros Hi Hpr Ha Hva Hf Hl Hsw k'. pose proof Hpr as ([Hma _] & _).
  destruct (private_write (k_pm k) (pagetable (k_p k)) lim Fr mem (pm_mem (k_pm k')) (pg_as _ _ _ _ Hi) Hpr)
    as (Has & Hpr' & Hp & _); [by apply same_except_bytes|].
  assert (is_Some (find_swap (swap_table (p_swap (k_p k))) va)) as Hs by (by eexists).
  apply (pg_sw _ _ _ _ Hi) in Hs as (i & x & Hx & Hs & Ev). destruct (swapped_live x Hs) as [Hlive _].
  assert (Hfirst : first_index (fun y => ps_va y =? va) (pages (p_memstat (k_p k))) = Some i).
  { apply (scan_live _ va i x); [apply Hi|done]. }
  assert (Hfind : forall va', find_swap (swap_table (p_swap (k_p k'))) va' =
    if va' =? va then None else find_swap (swap_table (p_swap (k_p k))) va').
  { intros va'. apply find_clear; [apply Hi|done]. }
  split_and!; try done.
  - eapply (pg_replace k k' ip Fr Fr lim i x (mkPageStat (ps_va x) RESIDENT 0 (ps_seq x) (-1))); try done.
    + unfold k', after_swapin, swapped_in, memstat_set_first. cbv zeta. kcbn.
      rewrite PGROUNDDOWN_aligned, Hfirst by done. by rewrite (page_at_lookup _ _ _ Hx).
    + intros va' Hne. rewrite Hfind. destruct (Z.eqb_spec va' va); [congruence|done].
    + rewrite Hfind, Ev, Z.eqb_refl. split; [by intros []|done].
  - by rewrite Hfind, Z.eqb_refl.
  - unfold k', after_swapin, swapped_in, memstat_set_first. cbv zeta. kcbn. by case_match.
Qed.

Lemma swap_body sc va k ip Fr lim bs :
  pg_inv k ip Fr lim -> va mod PGSIZE = 0 -> 0 <= va < 2 ^ 32 ->
  ~ mapped (pm_mem (k_pm k)) (pagetable (k_p k)) va -> swap_view k ip va = Some bs ->
  exists k', pf_body sc va true k = Ret tt k' /\ (exists Fr', pg_inv k' ip Fr' lim) /\
    (starved Fr k' \/ brought sc va rwu (bytes_at bs) k k' /\ swap_view k' ip va = None).
Proof.
  intros Hi Ha Hva Hm Hn. pose proof (page_top va Ha Hva). pose proof MAXVA_eq.
  destruct (try_kalloc_got k ip Fr lim va Hi) as (mem & k1 & R & Hcase). unfold pf_body.
  rewrite (bind_Ret _ _ _ _ _ R). destruct Hcase as [(-> & -> & Fr1 & Hi1)|[Hne Hg]].
  { cbn [Z.eqb]. eexists. split; [reflexivity|]. split; [exists Fr1; by apply pg_killed|left; split; [done|simpl; lia]]. }
  rewrite (proj2 (Z.eqb_neq mem 0) Hne). pose proof Hg as [Hi1 Hpr (S1 & S2 & S3 & S4) Hptes Hsw _].
  assert (Er : pagetable (k_p k1) = pagetable (k_p k)) by (unfold pagetable; by rewrite S2).
  rewrite <- (Hsw va Hm) in Hn. unfold swap_view in Hn.
  destruct (find_swap (swap_table (p_swap (k_p k1))) va) as [slot|] eqn:Hf; [|done]. injection Hn as Hbs.
  assert (Hf' : find_swap (swap_table (p_swap (k_p k1))) (PGROUNDDOWN va) = Some slot) by (by rewrite PGROUNDDOWN_aligned).
  destruct (swapin_run k1 ip va mem slot (pg_swap _ _ _ _ Hi1) Hf') as (f2 & R2 & Hsi2 & _ & Hlen & _).
  rewrite Hbs in *. rewrite <- Er in Hpr.
  destruct (swapin_inv k1 ip (tail Fr) lim va mem slot bs f2 Hi1 Hpr Ha Hva Hf Hlen Hsi2) as (Hi2 & Hpr2 & Hp2 & Hf2 & Hnx).
  set (k2 := after_swapin va mem slot bs f2 k1) in *.
  assert (Hm1 : ~ mapped (pm_mem (k_pm k1)) (pagetable (k_p k)) va).
  { intros Hm1. apply Hm. unfold mapped. rewrite <- Hptes; [done|lia|done]. }
  destruct (pf_map_run sc va mem true k2 ip (tail Fr) lim Hi2) as (k' & R' & Hpg & Esw & Esp & _ & Hmi); try done.
  { unfold mapped. rewrite Hp2, Er. done. }
  exists k'. split; [|split; [done|]].
  - rewrite bind_assoc, (bind_Ret _ _ _ _ _ R2). destruct (Z.ltb_spec (Z.of_nat slot) 0); [lia|].
    rewrite bind_mret. exact R'.
  - assert (starved Fr k' \/ brought sc va rwu (bytes_at bs) k k') as [?|Hbr]; [|by left|right].
    + apply (mapped_brought sc va rwu (bytes_at bs) k k1 k2 k' ip lim Fr mem Hg); try done; try lia.
      * intros vb. rewrite <- Er. apply Hp2.
      * apply page_is_store; [|done]. rewrite <- Hbs. apply Forall_take, Forall_drop.
        eapply law_bytes, (si_fs _ _ (pg_swap _ _ _ _ Hi1)).
    + split; [done|]. unfold swap_view. by rewrite Esw, Hf2.
Qed.

Lemma was_swapped_some k ip Fr lim va :
  pg_inv k ip Fr lim -> 0 <= PGROUNDDOWN va < 2 ^ 32 -> pf_was_swapped (k_p k) va = true ->
  is_Some (swap_view k ip (PGROUNDDOWN va)).
Proof.
  intros Hi Hva (x & Hin%list_elem_of_In & [Hs Ev]%andb_true_iff)%existsb_exists. apply list_elem_of_lookup_1 in Hin as [i Hx].
  unfold swap_view. destruct (proj2 (pg_sw _ _ _ _ Hi (PGROUNDDOWN va))) as [slot ->]; [|by eexists].
  exists i, x. rewrite u32_small in Ev by done. apply Z.eqb_eq in Hs, Ev. by split_and!.
Qed.

(** A read or write fault on an unmapped page of heap, stack or swap: the page is
    brought in with what the swap area has for it, or zeros when it has nothing. *)
Lemma fault_serves sc va k ip Fr lim ca :
  pg_inv k ip Fr lim -> pf_cause (k_p k) sc va = Some ca -> anon ca -> sc <> 12 ->
  0 <= va < 2 ^ 32 -> ~ mapped (pm_mem (k_pm k)) (pagetable (k_p k)) (PGROUNDDOWN va) ->
  exists k', pagefault sc va k = Ret tt k' /\ (exists Fr', pg_inv k' ip Fr' lim) /\
    (starved Fr k' \/
     match swap_view k ip (PGROUNDDOWN va) with
     | None => brought sc (PGROUNDDOWN va) rwu zeros (pf_enter sc va k) k'
     | Some bs => brought sc (PGROUNDDOWN va) rwu (bytes_at bs) (pf_enter sc va k) k' /\ swap_view k' ip (PGROUNDDOWN va) = None
     end).
Proof.
  intros Hi Hc Hca Hsc Hva Hm. pose proof (pgdown_bounds va) as [Hb Hbm]. pose proof (pgdown_nonneg va ltac:(lia)).
  rewrite (pagefault_anon sc va k ip Fr lim ca Hi Hc) by done. destruct (pf_was_swapped (k_p k) va) eqn:Hw.
  - destruct (was_swapped_some k ip Fr lim va Hi ltac:(lia) Hw) as [bs Ebs]. rewrite Ebs.
    apply (swap_body sc _ (pf_enter sc va k) ip Fr lim); try done; [by apply pf_enter_inv|lia].
  - pose proof (not_swapped_none k ip Fr lim va Hi ltac:(lia) Hw) as E. rewrite E.
    apply (zero_body sc _ (pf_enter sc va k) ip Fr lim); try done; [by apply pf_enter_inv|lia].
Qed.


(** C1: a read or write fault on a page that was swapped out
    returns, keeps the paging invariant, and either the process is killed,
    with fewer than three pages free, or the page is mapped, readable and writable, to a frame that
    holds the bytes the swap area had for it, its slot is free again, and it is
    recorded as the newest resident page, dirty exactly if the access was a write. *)
Theorem swap_fault_correct sc va k ip Fr lim bs :
  pg_inv k ip Fr lim -> pf_cause (k_p k) sc va = Some Cswap -> sc <> 12 -> 0 <= va < 2 ^ 32 ->
  ~ mapped (pm_mem (k_pm k)) (pagetable (k_p k)) (PGROUNDDOWN va) ->
  swap_view k ip (PGROUNDDOWN va) = Some bs ->
  exists k', pagefault sc va k = Ret tt k' /\ (exists Fr', pg_inv k' ip Fr' lim) /\
    (starved Fr k' \/
     brought sc (PGROUNDDOWN va) rwu (bytes_at bs) (pf_enter sc va k) k' /\ swap_view k' ip (PGROUNDDOWN va) = None).
Proof.
  intros Hi Hc Hsc Hva Hm Hbs.
  destruct (fault_serves sc va k ip Fr lim Cswap) as (k' & R & Hi' & Hr); try done; [unfold anon; tauto|].
  rewrite Hbs in Hr. by exists k'.
Qed.
End trap.
