(* ===== verification/TrapExec.v ===== *)
(** Faults on pages of the executable: the page gets the file's bytes for its
    part of the segment, zeros after them, and the segment's permissions.

    What the file has for an address is said by [image_byte], from the segment's
    start, file offset and file size alone; the offset and the size that the
    handler computes in 32 bits for a page are shown to give these bytes. *)
From S2P Require Import Prelude Riscv PhysMem Kalloc PageTable PtTree PtMap PtUser.
From S2P Require Import Memstat Proc FsIface Swap SwapProofs VmFault Evict UserCopy Trap TrapProofs.

Section exec.
Context `{HL : Layout} `{!LayoutOk} {F : Type} `{FO : !FsOps F} `{FL : !FsLaws F}.
Context {PO : Policy} `{!PolicyOk PO}.

(** [bs] padded with zeros. *)
Definition padded (bs : list Z) : Z -> Z := fun x => default 0 (bs !! Z.to_nat x).

Lemma page_is_padded m p bs :
  is_bytes bs -> Z.of_nat (length bs) <= PGSIZE ->
  page_is (store_bytes (fill m p 0 PGSIZE) p bs) p (padded bs) /\
  (p mod PGSIZE = 0 -> same_except [p] m (store_bytes (fill m p 0 PGSIZE) p bs)).
Proof.
  intros Hb Hl. split.
  - intros x Hx. unfold rd8, store_bytes, padded. replace (p + x - p) with x by lia.
    destruct (decide (x < Z.of_nat (length bs))).
    + rewrite inr_true by lia. destruct (lookup_lt_is_Some_2 bs (Z.to_nat x)) as [b Eb]; [lia|].
      rewrite Eb. cbn [default]. rewrite Z.mod_mod by lia. apply Z.mod_small.
      eapply (proj1 (list.Forall_forall _ _) Hb), list_elem_of_lookup_2, Eb.
    + rewrite inr_false by lia. unfold fill. rewrite inr_true, lookup_ge_None_2 by lia. done.
  - intros Hp q Hq Hne. eapply agree_trans; [apply (same_except_fill p 0); [done|done|exact Hne]|].
    apply agree_sym, agree_store_bytes. destruct (pages_apart p q) as [|]; [done|done|set_solver|lia|lia].
Qed.

Lemma pg_fs k ip Fr lim f' :
  pg_inv k ip Fr lim -> fs_inv f' false None -> fs_same (k_fs k) f' -> pg_inv (set_fs f' k) ip Fr lim.
Proof.
  intros [? ? ? ? [] ?] Hf (D & I & O). split; try done. split; kcbn; try done; [by apply O|].
  intros i e He Hu. rewrite D. by eapply si_size.
Qed.

(** Reading part of an inode into a private frame. *)
Lemma read_part k mem ei off n :
  fs_inv (k_fs k) false None -> inode_ref (k_fs k) ei -> 0 <= off < 2 ^ 32 -> 0 <= n < 2 ^ 32 ->
  let bs := range (fdata (k_fs k) ei) (Z.to_nat off) (Z.to_nat n) in
  exists f', (_ ← fs (ilock ei); bs ← fs (readi ei off n); _ ← store_buf mem bs; _ ← fs (iunlock ei);
      mret (Z.of_nat (length bs) =? n)) k =
    Ret (Z.of_nat (length bs) =? n)
      (mkK (mkPmem (store_bytes (pm_mem (k_pm k)) mem bs) (freelist (k_pm k))) (k_p k) f' (k_out k)) /\
    fs_inv f' false None /\ fs_same (k_fs k) f' /\ is_bytes bs.
Proof.
  intros Hf Href Hoff Hn bs.
  destruct (law_ilock _ _ _ Hf Href) as (f1 & R1 & Hf1 & S1).
  destruct (law_readi f1 false ei off n Hf1 Hoff Hn) as (f2 & R2 & Hf2 & S2).
  destruct (law_iunlock _ _ _ Hf2) as (f3 & R3 & Hf3 & S3).
  assert (Ebs : range (fdata f1 ei) (Z.to_nat off) (Z.to_nat n) = bs) by (destruct S1 as [-> _]; done).
  rewrite Ebs in R2. exists f3. split_and!; [|done|by eapply fs_same_trans; [|eapply fs_same_trans]|].
  - rewrite (bind_Ret _ _ _ _ _ (fs_Ret _ k _ _ R1)).
    rewrite (bind_Ret _ _ _ _ _ (fs_Ret _ (set_fs f1 k) _ _ R2)).
    unfold store_buf. rewrite bind_vm_modS.
    set (k2 := set_pm _ _). assert (R3' : iunlock ei (k_fs k2) = Ret tt f3) by exact R3.
    rewrite (bind_Ret _ _ _ _ _ (fs_Ret _ k2 _ _ R3')). done.
  - apply Forall_take, Forall_drop. by eapply law_bytes.
Qed.

(** ** What the executable has for an address *)
Definition exec_text (p : proc) (va : Z) : bool := (text_start (p_exec p) <=? va) && (va <? text_end (p_exec p)).
(** The segment of the page at [va]: where it starts, where its bytes are in the
    file, and how many there are; the rest of the segment is zeros. *)
Definition sg_start (p : proc) (va : Z) : Z := if exec_text p va then text_start (p_exec p) else data_start (p_exec p).
Definition sg_off (p : proc) (va : Z) : Z := if exec_text p va then text_off (p_exec p) else data_off (p_exec p).
Definition sg_size (p : proc) (va : Z) : Z := if exec_text p va then text_filesz (p_exec p) else data_filesz (p_exec p).

(** The byte for address [a] of a segment of [file]. *)
Definition image_byte (file : list Z) (start off size a : Z) : Z :=
  if a - start <? size then default 0 (file !! Z.to_nat (off + (a - start))) else 0.
Definition exec_page (k : kst F) (va : Z) : Z -> Z := fun x =>
  let p := k_p k in
  if exec_ip (p_exec p) =? 0 then 0
  else image_byte (fdata (k_fs k) (exec_ip (p_exec p))) (sg_start p va) (sg_off p va) (sg_size p va) (va + x).

(** The file ends before the last byte that the segment has in the page. *)
Definition exec_short (k : kst F) (va : Z) : Prop :=
  let p := k_p k in
  exec_ip (p_exec p) <> 0 /\ va - sg_start p va < sg_size p va /\
  Z.of_nat (length (fdata (k_fs k) (exec_ip (p_exec p)))) < sg_off p va + Z.min (sg_size p va) (va + PGSIZE - sg_start p va).

(** What [kexec] checks of a segment (exec.c:57-62), that its fields are the
    unsigned numbers of the program header, and that it lies in the first 4 GB of
    the file, where 32-bit offsets do not wrap. *)
Record segment_ok (start off size : Z) : Prop := {
  sg_aligned : start mod PGSIZE = 0;
  sg_nonneg : 0 <= start /\ 0 <= off /\ 0 <= size;
  sg_end : off + size < 2 ^ 32
}.
Record segments_ok (e : pexec) : Prop := {
  sg_text : segment_ok (text_start e) (text_off e) (text_filesz e);
  sg_data : segment_ok (data_start e) (data_off e) (data_filesz e)
}.

(** ** The bytes [pf_load] reads *)
Definition exec_off (p : proc) (va : Z) : Z :=
  let e := p_exec p in
  if exec_text p va then seg_off (text_off e) va (text_start e) else seg_off (data_off e) va (data_start e).
Definition exec_filesz (p : proc) (va : Z) : Z :=
  let e := p_exec p in
  if exec_text p va then seg_filesz (text_filesz e) va (text_start e) else seg_filesz (data_filesz e) va (data_start e).
Definition exec_bytes (k : kst F) (va : Z) : list Z :=
  if exec_ip (p_exec (k_p k)) =? 0 then []
  else range (fdata (k_fs k) (exec_ip (p_exec (k_p k)))) (Z.to_nat (exec_off (k_p k) va)) (Z.to_nat (exec_filesz (k_p k) va)).
Definition read_short (k : kst F) (va : Z) : Prop :=
  exec_ip (p_exec (k_p k)) <> 0 /\ Z.of_nat (length (exec_bytes k va)) < exec_filesz (k_p k) va.
Definition exec_perm (p : proc) (va : Z) : Z := Z.lor (Z.lor PTE_U PTE_R) (if exec_text p va then PTE_X else 0).

(** The offset and the size of the part of a segment in the page at [va], without
    the widths. *)
Lemma seg_part start off size va :
  segment_ok start off size -> 0 <= va < 2 ^ 32 -> start <= va ->
  seg_filesz size va start = (if va - start <? size then Z.min PGSIZE (size - (va - start)) else 0) /\
  (va - start < size -> seg_off off va start = off + (va - start)).
Proof.
  intros [_ (H1 & H2 & H3) He] Hva Hs. unfold seg_filesz, seg_off, u64, u32. rewrite (Z.mod_small (va - start)) by lia. split.
  - destruct (Z.ltb_spec (va - start) size); [|done]. rewrite Z.mod_small by lia. destruct (Z.ltb_spec PGSIZE (size - (va - start))); lia.
  - intros Hlt. rewrite Z.mod_small by lia. done.
Qed.

Lemma exec_part p va :
  segments_ok (p_exec p) -> 0 <= va < 2 ^ 32 -> sg_start p va <= va ->
  exec_filesz p va = (if va - sg_start p va <? sg_size p va then Z.min PGSIZE (sg_size p va - (va - sg_start p va)) else 0) /\
  (va - sg_start p va < sg_size p va -> exec_off p va = sg_off p va + (va - sg_start p va)) /\ 0 <= sg_off p va.
Proof.
  intros [Ht Hd] Hva. unfold exec_filesz, exec_off, sg_start, sg_size, sg_off. destruct (exec_text p va); intros Hs.
  - destruct (seg_part _ _ _ va Ht Hva Hs). split_and!; try done. apply Ht.
  - destruct (seg_part _ _ _ va Hd Hva Hs). split_and!; try done. apply Hd.
Qed.

(** What is read is what the segment has. *)
Lemma exec_bytes_page k va x :
  segments_ok (p_exec (k_p k)) -> 0 <= va < 2 ^ 32 -> sg_start (k_p k) va <= va -> 0 <= x < PGSIZE ->
  padded (exec_bytes k va) x = exec_page k va x.
Proof.
  intros Hok Hva Hs Hx. destruct (exec_part (k_p k) va Hok Hva Hs) as (Ef & Eo & Hn). unfold padded, exec_bytes, exec_page, image_byte. cbv zeta.
  destruct (exec_ip (p_exec (k_p k)) =? 0); [done|]. rewrite Ef. set (D := va - sg_start (k_p k) va) in *.
  replace (va + x - sg_start (k_p k) va) with (D + x) by lia. destruct (Z.ltb_spec D (sg_size (k_p k) va)) as [Hlt|Hlt].
  - rewrite Eo by done. destruct (Z.ltb_spec (D + x) (sg_size (k_p k) va)).
    + rewrite lookup_range by lia. do 2 f_equal. lia.
    + rewrite lookup_ge_None_2; [done|]. rewrite length_range. lia.
  - rewrite (proj2 (Z.ltb_ge (D + x) _)) by lia. cbn. by rewrite lookup_ge_None_2 by (rewrite length_range; lia).
Qed.

Lemma read_short_iff k va :
  segments_ok (p_exec (k_p k)) -> 0 <= va < 2 ^ 32 -> sg_start (k_p k) va <= va -> read_short k va <-> exec_short k va.
Proof.
  intros Hok Hva Hs. destruct (exec_part (k_p k) va Hok Hva Hs) as (Ef & Eo & Hn). unfold read_short, exec_short, exec_bytes. cbv zeta.
  assert (HP : PGSIZE = 4096) by done.
  destruct (Z.eqb_spec (exec_ip (p_exec (k_p k))) 0) as [E0|E0]; [split; by intros [? _]|]. rewrite length_range, Ef.
  destruct (Z.ltb_spec (va - sg_start (k_p k) va) (sg_size (k_p k) va)) as [Hlt|Hlt]; [rewrite Eo by done|]; split; intros ?; split_and!; try done; lia.
Qed.

(** A page that faults for the executable is not before its segment. *)
Lemma cexec_start p sc va :
  segments_ok (p_exec p) -> pf_cause p sc va = Some Cexec -> sg_start p (PGROUNDDOWN va) <= PGROUNDDOWN va.
Proof.
  intros [[Ht _ _] [Hd _ _]] Hc. assert (Hin : ((text_start (p_exec p) <=? va) && (va <? text_end (p_exec p))) || (data_start (p_exec p) <=? va) = true).
  { unfold pf_cause in Hc. destruct (_ && _) in Hc; [done|]. destruct (pf_was_swapped p va); [done|]. destruct (va <? sz p); cbn [andb orb] in Hc; [|by repeat case_match].
    destruct ((text_start (p_exec p) <=? va) && (va <? text_end (p_exec p))); [done|]. destruct (data_start (p_exec p) <=? va); [done|]. by repeat case_match. }
  pose proof (pgdown_bounds va) as [Hb Ha]. unfold sg_start, exec_text.
  destruct (Z.leb_spec (text_start (p_exec p)) (PGROUNDDOWN va)); cbn [andb].
  - destruct (Z.ltb_spec (PGROUNDDOWN va) (text_end (p_exec p))); [done|].
    rewrite (proj2 (Z.ltb_ge va (text_end (p_exec p)))), andb_false_r in Hin by lia. apply Z.leb_le in Hin.
    unfold PGSIZE in *. Z.to_euclidean_division_equations. lia.
  - assert (~ text_start (p_exec p) <= va) by (unfold PGSIZE in *; Z.to_euclidean_division_equations; lia).
    rewrite (proj2 (Z.leb_gt _ _)) in Hin by lia. apply Z.leb_le in Hin. unfold PGSIZE in *. Z.to_euclidean_division_equations. lia.
Qed.

Lemma brought_ext sc va perm f g (k k' : kst F) :
  (forall x, 0 <= x < PGSIZE -> f x = g x) -> brought sc va perm f k k' -> brought sc va perm g k k'.
Proof.
  intros E [H1 (pa & Ho & Hp & Hf) H3 H4]. split; try done. exists pa. split_and!; try done.
  intros x Hx. rewrite <- E by done. by apply Hf.
Qed.

Lemma exec_off_range p va : 0 <= exec_off p va < 2 ^ 32.
Proof. unfold exec_off, seg_off. destruct (exec_text p va); apply Z.mod_pos_bound; done. Qed.

Lemma exec_filesz_range p va : 0 <= exec_filesz p va <= PGSIZE.
Proof.
  assert (Hseg : forall f v st, 0 <= seg_filesz f v st <= PGSIZE).
  { intros f v st. unfold seg_filesz. pose proof (Z.mod_pos_bound (f - (v - st)) (2 ^ 32) ltac:(lia)) as Hmod.
    assert (HP : PGSIZE = 4096) by done. fold (u32 (f - (v - st))) in Hmod.
    destruct (u64 (v - st) <? f); [|destruct (Z.ltb_spec PGSIZE 0); lia].
    destruct (Z.ltb_spec PGSIZE (u32 (f - (v - st)))); lia. }
  unfold exec_filesz. destruct (exec_text p va); apply Hseg.
Qed.

(** The reading step of [pf_load], on the zeroed frame. *)
Definition load_part (p : proc) (va mem : Z) : M (kst F) bool :=
  if negb (exec_ip (p_exec p) =? 0) && (0 <? exec_filesz p va) then
    _ ← fs (ilock (exec_ip (p_exec p)));
    bs ← fs (readi (exec_ip (p_exec p)) (exec_off p va) (exec_filesz p va));
    _ ← store_buf mem bs;
    _ ← fs (iunlock (exec_ip (p_exec p)));
    mret (Z.of_nat (length bs) =? exec_filesz p va)
  else mret true.

Lemma load_part_run va mem (k : kst F) ip Fr lim :
  pg_inv k ip Fr lim -> mem mod PGSIZE = 0 ->
  (exec_ip (p_exec (k_p k)) <> 0 -> inode_ref (k_fs k) (exec_ip (p_exec (k_p k)))) ->
  let s1 := mkPmem (fill (pm_mem (k_pm k)) mem 0 PGSIZE) (freelist (k_pm k)) in
  exists ok m' f', load_part (k_p k) va mem (set_pm s1 k) = Ret ok (mkK (mkPmem m' (freelist (k_pm k))) (k_p k) f' (k_out k)) /\
    fs_inv f' false None /\ fs_same (k_fs k) f' /\
    page_is m' mem (padded (exec_bytes k va)) /\ same_except [mem] (pm_mem (k_pm k)) m' /\
    (ok = false <-> read_short k va).
Proof.
  intros Hi Hma Href s1. pose proof (exec_filesz_range (k_p k) va) as Hfz. pose proof (exec_off_range (k_p k) va) as Hofr.
  assert (HP : PGSIZE = 4096) by done. unfold load_part.
  destruct (Z.eqb_spec (exec_ip (p_exec (k_p k))) 0) as [E0|E0]; cbn [negb andb].
  - exists true, (pm_mem s1), (k_fs k). split_and!; try done; [apply Hi| |by apply same_except_fill|].
    + unfold exec_bytes. rewrite E0. cbn [Z.eqb]. apply page_is_fill.
    + split; [done|]. by intros [? _].
  - destruct (Z.ltb_spec 0 (exec_filesz (k_p k) va)) as [Hpos|Hz].
    + pose proof (si_fs _ _ (pg_swap _ _ _ _ Hi)) as Hf.
      set (bs := exec_bytes k va).
      destruct (read_part (set_pm s1 k) mem (exec_ip (p_exec (k_p k))) (exec_off (k_p k) va) (exec_filesz (k_p k) va))
        as (f' & R & Hf' & Hs & Hb); [done|by apply Href|lia|lia|].
      assert (Ebs : range (fdata (k_fs k) (exec_ip (p_exec (k_p k)))) (Z.to_nat (exec_off (k_p k) va))
        (Z.to_nat (exec_filesz (k_p k) va)) = bs) by (unfold bs, exec_bytes; by rewrite (proj2 (Z.eqb_neq _ 0) E0)).
      kcbn. rewrite Ebs in *.
      assert (Hlen : Z.of_nat (length bs) <= PGSIZE) by (rewrite <- Ebs, length_range; lia).
      destruct (page_is_padded (pm_mem (k_pm k)) mem bs Hb Hlen) as [Hpg Hse].
      eexists _, _, f'. split; [exact R|]. split_and!; try done; [by apply Hse|].
      assert (Z.of_nat (length bs) <= exec_filesz (k_p k) va) by (rewrite <- Ebs, length_range; lia).
      rewrite Z.eqb_neq. unfold read_short. fold bs. split; [intros; split; [done|lia]|intros [_ ?]; lia].
    + exists true, (pm_mem s1), (k_fs k). split_and!; try done; [apply Hi| |by apply same_except_fill|].
      * unfold exec_bytes. rewrite (proj2 (Z.eqb_neq _ 0) E0).
        replace (exec_filesz (k_p k) va) with 0 by lia. apply page_is_fill.
      * split; [done|]. intros [_ ?]. lia.
Qed.

Lemma exec_perm_range p va : 0 <= exec_perm p va < 2 ^ 10.
Proof. unfold exec_perm. by destruct (exec_text p va). Qed.

(** [pf_load] with a private frame: killed, or the page is in with the file's bytes. *)
Lemma pf_load_run va mem (k : kst F) ip Fr lim :
  pg_inv k ip Fr lim -> private (k_pm k) (pagetable (k_p k)) lim Fr mem ->
  va mod PGSIZE = 0 -> 0 <= va < 2 ^ 32 -> ~ mapped (pm_mem (k_pm k)) (pagetable (k_p k)) va ->
  find_swap (swap_table (p_swap (k_p k))) va = None ->
  (exec_ip (p_exec (k_p k)) <> 0 -> inode_ref (k_fs k) (exec_ip (p_exec (k_p k)))) ->
  exists k', pf_load va mem (exec_text (k_p k) va) k = Ret tt k' /\ (exists Fr', pg_inv k' ip Fr' lim) /\
    p_space (k_p k') = p_space (k_p k) /\
    (p_killed (p_sched (k_p k')) = 1 /\ read_short k va \/
     exists k2 : kst F, ~ read_short k va /\ k_p k2 = k_p k /\ page_is (pm_mem (k_pm k2)) mem (padded (exec_bytes k va)) /\
       (forall vb, pte_of (pm_mem (k_pm k2)) (pagetable (k_p k)) vb = pte_of (pm_mem (k_pm k)) (pagetable (k_p k)) vb) /\
       mapped_in 13 va mem (exec_perm (k_p k) va) Fr k2 k').
Proof.
  intros Hi Hpr Ha Hva Hm Hn Href. pose proof (pg_lim _ _ _ _ Hi). pose proof Hpr as ([Hma _] & _).
  assert (Hl : va + PGSIZE <= lim) by (unfold PGSIZE in *; Z.to_euclidean_division_equations; lia).
  destruct (load_part_run va mem k ip Fr lim Hi Hma Href) as (ok & m' & f' & R1 & Hf' & Hsame & Hpg & Hse & Hshort).
  set (k2 := mkK (mkPmem m' (freelist (k_pm k))) (k_p k) f' (k_out k)) in *.
  destruct (private_write (k_pm k) (pagetable (k_p k)) lim Fr mem m' (pg_as _ _ _ _ Hi) Hpr Hse) as (Has2 & Hpr2 & Hp2 & _).
  assert (Hi2 : pg_inv k2 ip Fr lim) by (apply (pg_fs (set_pm (k_pm k2) k)); [by eapply pg_set_as|done|done]).
  destruct (install (k_pm k2) (pagetable (k_p k)) lim Fr va mem (exec_perm (k_p k) va) Has2 Hpr2)
    as (r & s' & R & Hr); [done|lia|done|apply exec_perm_range|unfold mapped; cbn [k2 k_pm pm_mem]; by rewrite Hp2|].
  destruct (free_step (k_pm k2) (pagetable (k_p k)) Fr mem true) as (s3 & R3 & Hi3 & _ & Hn3 & Hp3).
  { apply Has2. } { intros _. destruct Hpr2 as (? & ? & ? & _). done. }
  assert (Hkill : exists Fr', pg_inv (set_p (set_killed_flag (k_p k2)) (set_pm s3 k2)) ip Fr' lim).
  { exists (mem :: Fr). apply (pg_killed (set_pm s3 k2)). apply (pg_set_as k2 ip Fr); [done|].
    eapply as_inv_step; [exact Has2|done|intros; apply Hp3|]. intros vb Hvb Hmb.
    destruct (as_frame _ _ _ _ Has2 vb Hvb Hmb) as (_ & ? & ?). destruct Hpr2 as (_ & _ & _ & Hne).
    specialize (Hne vb Hvb Hmb). cbv zeta. rewrite tree_page_ext by exact Hn3. split; [set_solver|done]. }
  unfold pf_load. rewrite bind_myproc. cbv zeta. unfold mem_fill. rewrite bind_vm_modS. rewrite (bind_Ret _ _ _ _ _ R1). destruct ok.
  - fold (exec_perm (k_p k) va). rewrite (bind_Ret _ _ _ _ _ (vm_Ret _ k2 _ _ R)).
    destruct Hr as [(-> & [Fr' Has'] & Hag & Hpte)|(-> & Hlen & s4 & R4 & Has4 & _)]; cbn [Z.ltb Z.compare].
    + destruct (pf_tail_run 13 va (negb (vmtrace (p_count (k_p k)) =? 0)) (EvLoadexec va) (set_pm s' k2) ip Fr' lim)
        as (k' & R' & Hpg' & Epm & Efs & Esc & Esp & Esw & Hsv); [by eapply pg_set_as|done|done|done|].
      exists k'. split_and!; [exact R'|by exists Fr'|done|]. right. exists k2. split_and!; try done; [by intros ?%Hshort|].
      apply mi_ok; [done| | |done]; by rewrite Epm.
    + rewrite (bind_Ret _ _ _ _ _ (vm_Ret _ (set_pm s' k2) _ _ R4)). eexists. split; [reflexivity|].
      split_and!; [|done|right; exists k2; split_and!; try done; [by intros ?%Hshort|by apply mi_killed]].
      exists [mem]. apply (pg_killed (set_pm s4 k2)). by apply (pg_set_as k2 ip Fr).
  - rewrite (bind_Ret _ _ _ _ _ (vm_Ret _ k2 _ _ R3)). eexists. split; [reflexivity|]. split_and!; [done|done|left; split; [done|by apply Hshort]].
Qed.

Lemma pagefault_exec sc va k ip Fr lim :
  pg_inv k ip Fr lim -> pf_cause (k_p k) sc va = Some Cexec -> 0 <= va < 2 ^ 32 ->
  ~ mapped (pm_mem (k_pm k)) (pagetable (k_p k)) (PGROUNDDOWN va) ->
  ~ (sc = 15 /\ exec_text (k_p k) (PGROUNDDOWN va) = true) ->
  pagefault sc va k = (mem ← try_kalloc_or_replace (PGROUNDDOWN va);
    if mem =? 0 then setkilled else pf_load (PGROUNDDOWN va) mem (exec_text (k_p k) (PGROUNDDOWN va))) (pf_enter sc va k).
Proof.
  intros Hi Hc Hva Hm Hw. pose proof (as_lim _ _ _ _ (pg_as _ _ _ _ Hi)). pose proof MAXVA_eq.
  pose proof (pgdown_bounds va). pose proof (pgdown_nonneg va ltac:(lia)) as Hlo.
  rewrite (pagefault_valid sc va k Cexec Hc) by done.
  set (k0 := pf_enter sc va k). set (m := pm_mem (k_pm k)). set (va0 := PGROUNDDOWN va) in *.
  set (pte := pte_addr m (pagetable (k_p k)) va0).
  assert (R1 : walk (pagetable (k_p k)) va0 false (k_pm k0) = Ret pte (k_pm k)) by (apply (walk_noalloc (k_pm k)); lia).
  rewrite (bind_Ret _ _ _ _ _ (vm_Ret _ k0 _ _ R1)). change (set_pm (k_pm k) k0) with k0.
  assert (R2 : exists b, (if pte =? 0 then mret false else v ← vm (mem_load pte); mret (has v PTE_V)) k0 = Ret b k0).
  { destruct (pte =? 0); by eexists. }
  destruct R2 as [b R2]. rewrite (bind_Ret _ _ _ _ _ R2). unfold pf_exec. rewrite bind_myproc. cbv zeta.
  pose proof (walkaddr_run (k_pm k) (pagetable (k_p k)) va0 (pi_wf _ _ _ (as_pt _ _ _ _ (pg_as _ _ _ _ Hi))) Hlo) as R3.
  cbv zeta in R3. unfold mapped in Hm. fold m in R3, Hm. destruct (has (pte_of m (pagetable (k_p k)) va0) PTE_V); [done|].
  rewrite andb_false_r in R3. cbn [andb] in R3.
  rewrite (bind_Ret _ _ _ _ _ (vm_Ret _ k0 _ _ R3)). fold va0.
  change ((text_start (p_exec (k_p k0)) <=? va0) && (va0 <? text_end (p_exec (k_p k0)))) with (exec_text (k_p k) va0).
  destruct (Z.eqb_spec sc 15) as [->|]; [|done]. destruct (exec_text (k_p k) va0); [by destruct Hw|done].
Qed.

End exec.
