(* ===== verification/Demo.v ===== *)
(** A concrete machine on which the theorems are applied: sixteen pages of free
    memory, an address space built from them, and the bookkeeping tables of a
    process that has just started. *)
From S2P Require Import Prelude Riscv PhysMem Kalloc PageTable PtTree PtMap PtUser PtFree PtCopy Memstat.

#[export] Instance demo_layout : Layout := {|
  kend := PHYSTOP - 16 * PGSIZE; etext := KERNBASE + 8 * PGSIZE; trampoline := KERNBASE + 7 * PGSIZE |}.

#[export] Instance demo_layout_ok : LayoutOk.
Proof. split. vm_compute. split; [done|]. intros; discriminate. Qed.

(** The state a computation leaves. *)
Definition after {S A} (o : outcome S A) (d : S) : S := match o with Ret _ s => s | _ => d end.

(** Closed arithmetic facts, by evaluation. *)
Ltac compute_now := repeat split; vm_compute; first [reflexivity | discriminate | done].

(** ** String routines *)
Definition bytes_mem (l : list Z) : mem := fun x => default 0 (l !! Z.to_nat x).

Lemma memmove_witness : rd8 (CString.memmove (bytes_mem [1; 2; 3; 4; 5]) 2 0 3) 3 = 2.
Proof. rewrite (CString.memmove_correct (bytes_mem [1; 2; 3; 4; 5]) 2 0 3 3) by lia. reflexivity. Defined.

Lemma strncmp_witness : CString.strncmp (bytes_mem [97; 98; 0; 97; 98; 0]) 0 3 14 = 0.
Proof. apply (CString.strncmp_zero (bytes_mem [97; 98; 0; 97; 98; 0]) 0 3 14); [lia|]. vm_compute. reflexivity. Defined.

Lemma safestrcpy_witness :
  CString.cstr 3 (CString.safestrcpy (bytes_mem [9; 9; 9; 97; 98; 99; 0]) 0 3 3) 0 = [97; 98].
Proof.
  destruct (CString.safestrcpy_correct (bytes_mem [9; 9; 9; 97; 98; 99; 0]) 0 3 3) as [E _]; [lia|lia|].
  exact E.
Defined.

Lemma strlen_witness : CString.strlen 5 (bytes_mem [97; 98; 0; 7]) 0 = Some 2.
Proof.
  apply (CString.strlen_correct 5 (bytes_mem [97; 98; 0; 7]) 0 2); [lia|vm_compute; lia|reflexivity|].
  intros i Hi. assert (i = 0 \/ i = 1) as [-> | ->] by lia; vm_compute; discriminate.
Defined.

(** ** Physical memory *)
Definition mem0 : pmem := mkPmem (fun _ => 0) 0.
Definition boot : pmem := after (kinit mem0) mem0.

Lemma kinit_witness : exists s', kinit mem0 = Ret tt s' /\ kmem_inv s' boot_pages.
Proof. destruct (kinit_correct mem0 eq_refl) as (s' & R & I & _). exists s'. split; [exact R|exact I]. Defined.

Lemma boot_inv : kmem_inv boot boot_pages.
Proof. destruct (kinit_run mem0 eq_refl) as (s' & R & I & _). unfold boot. by rewrite R. Qed.

Definition free0 : list Z := tail boot_pages.
Definition root : Z := default 0 (head boot_pages).

Lemma boot_pages_eq : boot_pages = root :: free0.
Proof. by vm_compute. Qed.

Lemma kalloc_witness : exists s', kalloc boot = Ret root s' /\ kmem_inv s' free0.
Proof.
  pose proof (kalloc_correct boot (root :: free0)) as T. rewrite <- boot_pages_eq in T at 1.
  destruct (T boot_inv) as (s' & R & I & _). exists s'. split; [exact R|exact I].
Defined.

Definition booted : pmem := after (kalloc boot) boot.

Lemma booted_inv : kmem_inv booted free0.
Proof.
  pose proof boot_inv as I. rewrite boot_pages_eq in I. destruct (kalloc_run boot root free0 I) as (m' & R & _ & I').
  unfold booted. by rewrite R.
Qed.

Lemma kfree_kalloc_witness : exists s1 s2, kfree root booted = Ret tt s1 /\ kalloc s1 = Ret root s2 /\ kmem_inv s2 free0.
Proof.
  pose proof (kfree_kalloc booted root free0 booted_inv) as T. rewrite decide_True in T.
  - destruct T as (s1 & s2 & R1 & _ & R2 & I & _); [|exists s1, s2; split; [exact R1|]; split; [exact R2|exact I]].
    apply (bool_decide_unpack _). vm_compute. reflexivity.
  - apply (bool_decide_unpack _). vm_compute. reflexivity.
Defined.

Lemma allocator_witness : exists rs a' s',
  a_run [OpAlloc; OpAlloc; OpFree root; OpAlloc] (mkPool boot_pages []) = Some (rs, a') /\
  c_run [OpAlloc; OpAlloc; OpFree root; OpAlloc] boot = Ret rs s' /\ pool_rel a' s'.
Proof.
  destruct (a_run [OpAlloc; OpAlloc; OpFree root; OpAlloc] (mkPool boot_pages [])) as [[rs a']|] eqn:E;
    [|vm_compute in E; discriminate].
  destruct (kalloc_refines_pool [OpAlloc; OpAlloc; OpFree root; OpAlloc] (mkPool boot_pages []) boot rs a')
    as (s' & R & H); [|exact E|exists rs, a', s'; split; [reflexivity|split; [exact R|exact H]]].
  split; [exact boot_inv|constructor|]. rewrite app_nil_r. exact (ki_nodup _ _ boot_inv).
Defined.

(** ** Address spaces *)
Definition user0 : pmem := after (uvmcreate boot) boot.

Lemma user0_inv : as_inv user0 root free0 MAXVA /\ (forall va, pte_of (pm_mem user0) root va = 0) /\
  (forall a, tree_page (pm_mem user0) root a <-> a = root).
Proof.
  pose proof boot_inv as I. rewrite boot_pages_eq in I.
  destruct (uvmcreate_run boot root free0 I) as (s' & R & _ & Has & Hp & Ht & _).
  unfold user0. rewrite R. split; [exact Has|]. split; [exact Hp|exact Ht].
Qed.

Lemma user0_as : as_inv user0 root free0 MAXVA.
Proof. apply user0_inv. Qed.

Lemma user0_unmapped va : ~ mapped (pm_mem user0) root va.
Proof. unfold mapped. destruct user0_inv as (_ & -> & _). done. Qed.

Lemma mappages_witness : exists s' F',
  mappages root 0 PGSIZE root (Z.lor PTE_R PTE_U) user0 = Ret 0 s' /\ evolves root user0 free0 s' F' /\
  walkaddr root 100 s' = Ret root s'.
Proof.
  destruct (mappages_correct user0 root free0 0 PGSIZE root (Z.lor PTE_R PTE_U)) as (r & s' & F' & R & Ev & Hr);
    [apply user0_as|by compute_now..| |].
  { intros vb _. apply user0_unmapped. }
  destruct Hr as [(-> & Hw & _)|(_ & _ & Hl)]; [|vm_compute in Hl; discriminate].
  exists s', F'. split; [exact R|]. split; [exact Ev|]. exact (Hw 100 ltac:(lia)).
Defined.

(** Two writable pages of heap, one address space; a second, empty one. *)
Definition user1 : pmem := after (uvmalloc root 0 (2 * PGSIZE) PTE_W user0) user0.

Lemma uvmalloc_witness : exists s' F', uvmalloc root 0 (2 * PGSIZE) PTE_W user0 = Ret (2 * PGSIZE) s' /\
  grown root 0 (2 * PGSIZE) (zero_plan PTE_W) MAXVA user0 free0 s' F'.
Proof.
  destruct (uvmalloc_correct user0 root free0 MAXVA 0 (2 * PGSIZE) PTE_W) as (r & s' & F' & R & Hr);
    [apply user0_as|by compute_now..| |].
  { intros vb _. apply user0_unmapped. }
  destruct Hr as [[-> G]|(_ & _ & Hs)]; [exists s', F'; split; [exact R|exact G]|].
  vm_compute in Hs. discriminate.
Defined.

(** The same run, for the states below. *)
Lemma user1_run : exists F', uvmalloc root 0 (2 * PGSIZE) PTE_W user0 = Ret (2 * PGSIZE) user1 /\
  grown root 0 (2 * PGSIZE) (zero_plan PTE_W) MAXVA user0 free0 user1 F'.
Proof.
  destruct (uvmalloc_run user0 root free0 MAXVA 0 (2 * PGSIZE) PTE_W) as (r & s' & F' & R & Hr);
    [apply user0_as|by compute_now..| |].
  { intros vb _. apply user0_unmapped. }
  destruct Hr as [[-> G]|(_ & _ & Hs)]; [|vm_compute in Hs; discriminate].
  assert (user1 = s') as -> by (unfold user1; rewrite R; reflexivity). exists F'. split; [exact R|exact G].
Qed.

Lemma user1_pte vb : 0 <= vb < 2 * PGSIZE -> exists p, page_ok p /\
  pte_of (pm_mem user1) root vb = mkpte p (user_perm PTE_W) /\ page_is (pm_mem user1) p zeros.
Proof.
  destruct user1_run as (F' & _ & G). intros Hvb.
  destruct (gr_new _ _ _ _ _ _ _ _ _ G vb (user_perm PTE_W) zeros Hvb eq_refl) as (p & _ & Hp & E & Hz).
  exists p. split_and!; assumption.
Qed.

Lemma user1_mapped vb : 0 <= vb < 2 * PGSIZE -> mapped (pm_mem user1) root vb.
Proof.
  intros (p & Hp & E & _)%user1_pte. unfold mapped. rewrite E. apply mkpte_V. apply page_ok_range in Hp. lia.
Qed.

Lemma mappages_remap_witness : mappages root PGSIZE PGSIZE root PTE_R user1 = Panic "mappages: remap".
Proof.
  destruct user1_run as (F' & _ & G).
  apply (mappages_remap user1 root F'); [apply G|by compute_now..|apply user1_mapped; by compute_now].
Defined.

Lemma uvmunmap_witness : exists s', uvmunmap root 0 1 true user1 = Ret tt s' /\
  ~ mapped (pm_mem s') root 0 /\ mapped (pm_mem s') root PGSIZE.
Proof.
  destruct user1_run as (F' & _ & G).
  destruct (uvmunmap_correct user1 root F' MAXVA 0 1) as (s' & F2 & R & _ & Hm & _);
    [apply G|by compute_now..|].
  exists s'. split; [exact R|]. split.
  - intros [_ Hn]%(Hm 0 ltac:(compute_now)). apply Hn. compute_now.
  - apply (Hm PGSIZE ltac:(compute_now)). split; [apply user1_mapped; by compute_now|]. unfold PGSIZE. lia.
Defined.

Lemma uvmfree_witness : exists s' F', uvmfree root (2 * PGSIZE) user1 = Ret tt s' /\ kmem_inv s' F'.
Proof.
  destruct user1_run as (F' & _ & G).
  destruct (uvmfree_correct user1 root F' MAXVA (2 * PGSIZE)) as (s' & F2 & R & I & _);
    [apply G|by compute_now..| |exists s', F2; split; [exact R|exact I]].
  intros va Hva. unfold mapped. rewrite (gr_old _ _ _ _ _ _ _ _ _ G); [apply user0_unmapped|..].
  - change (PGROUNDUP (2 * PGSIZE)) with (2 * PGSIZE) in Hva. unfold PGSIZE in *. lia.
  - change (PGROUNDUP (2 * PGSIZE)) with (2 * PGSIZE) in Hva. intros [? _]. lia.
Defined.

(** A second address space, for a child process. *)
Definition child : Z := match uvmcreate user1 with Ret c _ => c | _ => 0 end.
Definition user2 : pmem := after (uvmcreate user1) user1.

Lemma user2_inv : exists F, as_inv user2 root F MAXVA /\ as_inv user2 child F MAXVA /\
  apart (pm_mem user2) root child MAXVA /\ (forall va, ~ mapped (pm_mem user2) child va).
Proof.
  destruct user1_run as (F1 & _ & G). pose proof (gr_as _ _ _ _ _ _ _ _ _ G) as Has.
  assert (Hne : (freelist user1 =? 0) = false) by (vm_compute; reflexivity).
  destruct F1 as [|c F].
  { destruct (pi_free _ _ _ (as_pt _ _ _ _ Has)) as [E _ _].
    change (freelist user1 = 0) in E. apply Z.eqb_neq in Hne. destruct (Hne E). }
  destruct (uvmcreate_run user1 c F) as (s' & R & _ & HasC & HpC & HtC & Hse); [apply Has|].
  assert (user2 = s') as -> by (unfold user2; rewrite R; reflexivity).
  assert (child = c) as -> by (unfold child; rewrite R; reflexivity).
  destruct (alloc_frame user1 root c F MAXVA Has) as (s1 & R1 & _ & _ & HcF & HcT & Hcm & Hw).
  destruct (Hw _ Hse) as (HasP & Hn & Hp). exists F. split_and!.
  - replace s' with (mkPmem (pm_mem s') (freelist s1)); [exact HasP|].
    unfold uvmcreate in R. rewrite (bind_Ret _ _ _ _ _ R1) in R. destruct (c =? 0); [by injection R as <- <-; destruct s1|].
    rewrite bind_fill in R. injection R as <-. reflexivity.
  - exact HasC.
  - split.
    + intros p Hq. rewrite HtC. intros ->. apply HcT. by rewrite <- (tree_page_ext (pm_mem user1) (pm_mem s')) by exact Hn.
    + intros va Hva. unfold mapped. rewrite Hp, HtC. by apply Hcm.
  - intros va. unfold mapped. rewrite HpC. done.
Qed.

Lemma uvmcopy_witness : exists r s' F', uvmcopy root child PGSIZE user2 = Ret r s' /\ as_inv s' root F' MAXVA.
Proof.
  destruct user2_inv as (F & Hp & Hc & Ha & Hn).
  destruct (uvmcopy_correct root child MAXVA PGSIZE user2 F) as (r & s' & F' & R & I & _);
    [exact Hp|exact Hc|exact Ha|by compute_now..|intros vb _; apply Hn|].
  exists r, s', F'. split; [exact R|exact I].
Defined.

(** ** Page bookkeeping *)
Definition blank : page_stat := mkPageStat 0 UNMAPPED 0 0 (-1).
Definition ms0 : proc_mem_stat := mkMemStat 1 0 0 0 1 (replicate MAX_PAGES_INFO blank).

Lemma ms0_blank i x : pages ms0 !! i = Some x -> x = blank.
Proof. intros H. apply lookup_replicate in H. apply H. Qed.

Lemma ms0_ok : tbl_ok ms0.
Proof. split; [reflexivity|]. intros i j x y _ _ ->%ms0_blank. done. Qed.

Lemma memstat_ops_witness : tbl_ok (memstat_mark_resident ms0 PGSIZE 1) /\ counted (memstat_mark_resident ms0 PGSIZE 1).
Proof. exact (proj1 (memstat_ops_inv ms0 PGSIZE 1 0 ms0_ok eq_refl)). Defined.

(** Three pages arrive, two leave, one comes back. *)
Definition page_ops : list page_op :=
  [Arrive PGSIZE; Arrive (2 * PGSIZE); Arrive (3 * PGSIZE); Evict (Some 0); Evict None; Arrive PGSIZE; Evict None].

Lemma fifo_queue_witness : snd (t_run ms0 page_ops) =
  [None; None; None; Some PGSIZE; Some (2 * PGSIZE); None; Some (3 * PGSIZE)].
Proof.
  destruct (fifo_refines_queue page_ops ms0 []) as [E _]; [|by vm_compute|exact E].
  split; [exact ms0_ok|]. split; [|constructor]. split.
  - constructor.
  - intros a. split; [by intros ?%elem_of_nil|]. intros (i & x & ->%ms0_blank & Hr & _). done.
  - intros k l i j x y _ Hk. done.
  - intros i x ->%ms0_blank. done.
Defined.
