(* ===== verification/DemoPaging.v ===== *)
(** A concrete process and file system on which the paging theorems are applied.

    The file system is a function from inode numbers to contents and from open
    files to inode numbers; it shows that the laws of [FsLaws] can be met. *)
From S2P Require Import Prelude Riscv PhysMem Kalloc PageTable PtTree PtMap PtUser PtFree PtCopy Memstat.
From S2P Require Import Proc FsIface Swap SwapProofs VmFault Evict UserCopy Trap TrapProofs TrapExec Demo.

Record flat : Type := mkFlat { fl_data : Z -> list Z; fl_file : Z -> Z }.

Definition flat_write (ip off : Z) (bs : list Z) : M flat Z := fun f =>
  if off <=? Z.of_nat (length (fl_data f ip))
  then Ret (Z.of_nat (length bs))
         (mkFlat (fun i => if i =? ip then splice (fl_data f ip) (Z.to_nat off) bs else fl_data f i) (fl_file f))
  else Ret (-1) f.

#[export] Instance flat_ops : FsOps flat := {|
  begin_op := mret tt; end_op := mret tt; ilock := fun _ => mret tt; iunlock := fun _ => mret tt;
  iunlockput := fun _ => mret tt; iupdate := fun _ => mret tt;
  readi := fun ip off n f => Ret (range (fl_data f ip) (Z.to_nat off) (Z.to_nat n)) f;
  writei := flat_write;
  nameiparent := fun _ => mret (0, []); dirlookup := fun _ _ => mret (0, 0); dirlink := fun _ _ _ => mret (-1);
  ialloc := fun _ _ => mret 0; i_dev := fun _ => mret 1; i_inum := fun i => mret i; i_type := fun _ => mret T_FILE;
  i_nlink := fun _ => mret 1; set_major_minor := fun _ _ _ => mret tt; set_nlink := fun _ _ => mret tt;
  filealloc := mret 0; file_open := fun _ _ _ _ => mret tt; file_ip := fun x f => Ret (fl_file f x) f;
  fileclose := fun _ => mret tt |}.

Lemma flat_write_spec f ip off bs :
  (forall ip', is_bytes (fl_data f ip')) -> 0 <= off -> is_bytes bs -> Z.of_nat (length bs) = PGSIZE ->
  exists r f', flat_write ip off bs f = Ret r f' /\ (forall ip', is_bytes (fl_data f' ip')) /\
    (forall ip', ip' <> ip -> fl_data f' ip' = fl_data f ip') /\ fl_file f' = fl_file f /\
    (r = PGSIZE /\ off <= Z.of_nat (length (fl_data f ip)) /\ fl_data f' ip = splice (fl_data f ip) (Z.to_nat off) bs \/
     r = -1 /\ f' = f).
Proof.
  intros Hf Ho Hb Hl. unfold flat_write. destruct (Z.leb_spec off (Z.of_nat (length (fl_data f ip)))) as [Hle|].
  - eexists _, _. split; [reflexivity|]. cbn [fl_data fl_file]. split_and!.
    + intros ip'. destruct (ip' =? ip); [|apply Hf]. unfold splice, is_bytes.
      rewrite !Forall_app. split_and!; [apply Forall_take, Hf|exact Hb|apply Forall_drop, Hf].
    + intros ip' ?. by rewrite (proj2 (Z.eqb_neq ip' ip)).
    + done.
    + left. rewrite Z.eqb_refl, Hl. done.
  - exists (-1), f. split_and!; try done. by right.
Qed.

#[export] Instance flat_laws : FsLaws flat.
Proof.
  refine {|
    fs_inv := fun f _ _ => forall ip, is_bytes (fl_data f ip);
    open_file := fun f x ip => fl_file f x = ip;
    inode_ref := fun _ _ => True;
    fdata := fl_data |}.
  - done.
  - intros f x ip E. cbn. by rewrite E.
  - intros f Hf. by exists f.
  - intros f Hf. by exists f.
  - intros f b ip Hf _. by exists f.
  - intros f b ip Hf. by exists f.
  - intros f b ip off n Hf _ _. by exists f.
  - intros f b o ip Hf. apply Hf.
  - intros f ip off bs Hf Ho Hb Hl.
    destruct (flat_write_spec f ip off bs Hf ltac:(lia) Hb Hl) as (r & f' & R & Hf' & Hd & Hfl & Hr).
    exists r, f'. split_and!; try done.
    + intros x ip'. by rewrite Hfl.
    + destruct Hr as [?|[-> ->]]; [by left|right]. split_and!; (done || lia).
Defined.

(** ** The process: one page of text, a guard page, one page of stack, two of heap *)
Definition swap_ip : Z := 5.
Definition exec_inode : Z := 6.
Definition flat0 (swapdata : list Z) : flat :=
  mkFlat (fun ip => if ip =? swap_ip then swapdata else if ip =? exec_inode then [19; 5; 32; 0] else []) (fun _ => swap_ip).

Definition demo_proc (ms : proc_mem_stat) (t : list swap_ent) : proc :=
  mkProc (mkSched RUNNING 0 0 0 1 0) (mkSpace 0 (5 * PGSIZE) root 0) (mkFiles [] 0 [])
    (mkSwap 1 t 0) ms
    (mkExec 0 PGSIZE PGSIZE PGSIZE PGSIZE (3 * PGSIZE) exec_inode 0 4 4 5 0 0 0 6)
    (mkCount 0 0 0 0 0 1).

Definition empty_table : list swap_ent := replicate MAX_SWAP_PAGES empty_ent.

Definition k0 : kst flat := mkK user0 (demo_proc ms0 empty_table) (flat0 []) [].

Lemma empty_unused i e : empty_table !! i = Some e -> used e = false.
Proof. intros H. apply lookup_replicate in H as [-> _]. done. Qed.

Lemma flat0_bytes d : is_bytes d -> forall ip, is_bytes (fl_data (flat0 d) ip).
Proof.
  intros Hd ip. unfold flat0. cbn. destruct (ip =? swap_ip); [done|]. destruct (ip =? exec_inode); [|constructor].
  repeat constructor; lia.
Qed.

Lemma k0_inv : pg_inv k0 swap_ip free0 MAXVA.
Proof.
  split.
  - exact user0_as.
  - by compute_now.
  - exact ms0_ok.
  - intros i x ->%ms0_blank. done.
  - split.
    + exact (flat0_bytes [] (Forall_nil_2 _)).
    + done.
    + done.
    + apply length_replicate.
    + intros i j e e' He%empty_unused _ Hu. congruence.
    + intros i e He%empty_unused Hu. cbn in He. congruence.
  - intros va. split.
    + intros [i (e & He%empty_unused & Hu & _)%find_swap_Some]. congruence.
    + intros (i & x & ->%ms0_blank & Hs & _). done.
Qed.

Definition heap_va : Z := 3 * PGSIZE.

(** ** Swapping *)
Lemma no_swap_view : swap_view k0 swap_ip heap_va = None.
Proof. vm_compute. reflexivity. Qed.

Lemma swapout_witness : exists r k', proc_swapout_page heap_va root k0 = Ret r k' /\ swap_inv k' swap_ip.
Proof.
  destruct (swapout_correct k0 swap_ip heap_va root) as (r & k' & R & I & _);
    [exact (pg_swap _ _ _ _ k0_inv)|by compute_now|exact no_swap_view|].
  exists r, k'. split; [exact R|exact I].
Defined.

(** The swap-out succeeds: a slot is free and the file takes the page. *)
Lemma swapout_ok : exists r k1, proc_swapout_page heap_va root k0 = Ret r k1 /\ 0 <= r.
Proof.
  destruct (swapout_run k0 swap_ip heap_va root) as (r & f' & R & _ & _ & Hr);
    [exact (pg_swap _ _ _ _ k0_inv)|by compute_now|exact no_swap_view|].
  eexists r, _. split; [exact R|]. destruct Hr as [(_ & Href & _)|[Hr _]]; [|exact Hr]. exfalso.
  assert (Efree : free_slot (swap_table (p_swap (k_p k0))) = Some 0%nat) by (vm_compute; reflexivity).
  unfold swap_refused in Href. rewrite Efree in Href. destruct Href as (f & n & f2 & W & Hn). apply Hn.
  assert (W' : flat_write swap_ip 0 (frame_bytes k0 root) f = Ret n f2) by exact W. unfold flat_write in W'.
  destruct (Z.leb_spec 0 (Z.of_nat (length (fl_data f swap_ip)))) as [_|]; [|lia].
  assert (n = Z.of_nat (length (frame_bytes k0 root))) as -> by congruence.
  unfold frame_bytes. rewrite length_load_bytes. reflexivity.
Qed.

Lemma swap_roundtrip_witness : exists r k1 k2, proc_swapout_page heap_va root k0 = Ret r k1 /\
  swapin_page heap_va PGSIZE (set_pm user1 k1) = Ret r k2 /\ frame_bytes k2 PGSIZE = frame_bytes k0 root.
Proof.
  destruct swapout_ok as (r & k1 & R & Hr). exists r, k1.
  destruct (swap_roundtrip k0 swap_ip heap_va root r k1 user1 PGSIZE) as (k2 & R2 & _ & E & _);
    [exact (pg_swap _ _ _ _ k0_inv)|by compute_now|exact no_swap_view|exact R|exact Hr|].
  exists k2. split; [exact R|]. split; [exact R2|exact E].
Defined.

(** ** Replacement, with the first-in-first-out policy *)
#[local] Existing Instance fifo.
#[local] Existing Instance fifo_ok.

Lemma try_kalloc_witness : exists r k', try_kalloc_or_replace heap_va k0 = Ret r k' /\ pg_inv k' swap_ip (tail free0) MAXVA.
Proof.
  destruct (try_kalloc_correct k0 swap_ip free0 MAXVA heap_va k0_inv) as (r & k' & R & I & _).
  exists r, k'. split; [exact R|exact I].
Defined.

(** A process with one resident page in its table. *)
Definition k_res : kst flat :=
  mkK user0 (set_memstat (pf_ms heap_va ms0) (demo_proc ms0 empty_table)) (flat0 []) [].

Lemma k_res_inv : pg_inv k_res swap_ip free0 MAXVA.
Proof.
  apply (pg_pf_ms k0 swap_ip free0 MAXVA heap_va []); [exact k0_inv|by compute_now..|vm_compute; reflexivity].
Qed.

Lemma swapout_miscounts_witness : exists x,
  num_resident_pages (p_memstat (evicted_dirty (ps_va x) 0 (k_p k_res))) =
  Z.of_nat (residents (pages (p_memstat (evicted_dirty (ps_va x) 0 (k_p k_res))))) + 1.
Proof.
  exists (mkPageStat heap_va RESIDENT 0 1 (-1)).
  apply (swapout_miscounts k_res swap_ip free0 MAXVA 0 (mkPageStat heap_va RESIDENT 0 1 (-1)) 0);
    [exact k_res_inv|vm_compute; reflexivity..].
Defined.

(** ** Copies to and from user memory *)
Definition k_user : kst flat := mkK user1 (demo_proc ms0 empty_table) (flat0 []) [].

Lemma user1_writable x : 0 <= x < 2 * PGSIZE -> writable (pm_mem (k_pm k_user)) root x.
Proof.
  intros (p & Hp%page_ok_range & E & _)%user1_pte. change (pm_mem (k_pm k_user)) with (pm_mem user1).
  unfold writable, readable. rewrite E, mkpte_V, !has_mkpte by (lia || by compute_now). by compute_now.
Qed.

Lemma copyout_witness : exists s', copyout root 4094 [104; 105; 33; 0] k_user = Ret 0 (set_pm s' k_user) /\
  ubyte (pm_mem s') root 4096 = 33.
Proof.
  destruct user1_run as (F' & _ & G).
  destruct (copyout_correct k_user root F' MAXVA 4094 [104; 105; 33; 0]) as (s' & R & W);
    [apply G|by compute_now..|repeat constructor; lia|intros x Hx; apply user1_writable; cbn in Hx; unfold PGSIZE; lia|].
  exists s'. split; [exact R|].
  exact (wr_byte _ _ _ _ _ _ _ W 4096 ltac:(by compute_now) (user1_mapped 4096 ltac:(by compute_now))).
Defined.

Lemma copy_roundtrip_witness : exists k', copyout root 4094 [104; 105; 33; 0] k_user = Ret 0 k' /\
  copyin root 4094 4 k' = Ret (0, [104; 105; 33; 0]) k'.
Proof.
  destruct user1_run as (F' & _ & G).
  destruct (copyout_copyin k_user root F' MAXVA 4094 [104; 105; 33; 0]) as (k' & R1 & R2);
    [apply G|by compute_now..|repeat constructor; lia|intros x Hx; apply user1_writable; cbn in Hx; unfold PGSIZE; lia|].
  exists k'. split; [exact R1|exact R2].
Defined.

(** A string that ends on the second page. *)
Lemma copyinstr_witness : exists s', copyinstr root 4094 16 (set_pm s' k_user) = Ret (0, [104; 105; 33; 0]) (set_pm s' k_user).
Proof.
  destruct user1_run as (F' & _ & G).
  destruct (copyout_run k_user root F' MAXVA 4094 [104; 105; 33; 0]) as (s' & _ & W);
    [apply G|by compute_now..|repeat constructor; lia|intros x Hx; apply user1_writable; cbn in Hx; unfold PGSIZE; lia|].
  exists s'. apply (copyinstr_correct (set_pm s' k_user) root F' MAXVA 4094 16 [104; 105; 33]).
  - exact (wr_as _ _ _ _ _ _ _ W).
  - by compute_now.
  - by compute_now.
  - repeat constructor; discriminate.
  - by compute_now.
  - assert (Hb : forall x, 0 <= x < 2 * PGSIZE -> ubyte (pm_mem s') root x =
      if inr 4094 4 x then default 0 ([104; 105; 33; 0] !! Z.to_nat (x - 4094)) else ubyte (pm_mem user1) root x).
    { intros x Hx. apply (wr_byte _ _ _ _ _ _ _ W); [|by apply user1_mapped]. rewrite MAXVA_eq. unfold PGSIZE in Hx. lia. }
    unfold ubytes. cbn [zseq]. change (zseq 4094 (S (length [104; 105; 33])) 1) with [4094; 4095; 4096; 4097].
    cbn [fmap list_fmap]. change (pm_mem (k_pm (set_pm s' k_user))) with (pm_mem s'). rewrite !Hb by compute_now. reflexivity.
  - intros x Hx. cbn in Hx. unfold readable. change (pm_mem (k_pm (set_pm s' k_user))) with (pm_mem s').
    rewrite (wr_pte _ _ _ _ _ _ _ W). apply (user1_writable x). unfold PGSIZE. lia.
Defined.

(** ** Page faults *)
Lemma invalid_access_witness : exists o, pagefault 15 (PGSIZE + 8) k0 =
  Ret tt (mkK user0 (set_killed_flag (pf_count (k_p k0))) (flat0 []) o).
Proof.
  destruct (invalid_access_kills 15 (PGSIZE + 8) k0) as (o & R); [left; by compute_now|]. exists o. exact R.
Defined.

(** A page of the heap is swapped out to slot 0. *)
Definition ms_swapped : proc_mem_stat :=
  mkMemStat 1 0 0 0 2 (<[0%nat := mkPageStat heap_va SWAPPED 0 1 0]> (replicate MAX_PAGES_INFO blank)).
Definition table_one : list swap_ent := <[0%nat := mkSwapEnt heap_va 0 1]> empty_table.
Definition swapped_data : list Z := replicate (Z.to_nat PGSIZE) 7.
Definition k_swapped : kst flat := mkK user0 (demo_proc ms_swapped table_one) (flat0 swapped_data) [].

Lemma ms_swapped_page i x : pages ms_swapped !! i = Some x ->
  (i = 0%nat /\ x = mkPageStat heap_va SWAPPED 0 1 0) \/ x = blank.
Proof.
  intros [(<- & <- & _)|[_ E]]%list_lookup_insert_Some; [by left|right]. by apply lookup_replicate in E as [-> _].
Qed.

Lemma table_one_ent i e : table_one !! i = Some e -> used e = true -> i = 0%nat /\ e = mkSwapEnt heap_va 0 1.
Proof.
  intros [(<- & <- & _)|[_ E]]%list_lookup_insert_Some Hu; [done|]. by rewrite (empty_unused _ _ E) in Hu.
Qed.

Lemma k_swapped_inv : pg_inv k_swapped swap_ip free0 MAXVA.
Proof.
  split.
  - exact user0_as.
  - by compute_now.
  - split; [by vm_compute|]. intros i j x y Hij Hx Hy Hl.
    apply ms_swapped_page in Hy as [[-> _]| ->]; [lia|done].
  - intros i x [[_ ->]| ->]%ms_swapped_page; [|done]. intros _. by compute_now.
  - split.
    + refine (flat0_bytes swapped_data _). apply Forall_replicate. lia.
    + done.
    + done.
    + unfold k_swapped, demo_proc. kcbn. unfold table_one. rewrite length_insert. apply length_replicate.
    + intros i j e e' He He' Hu Hu' _.
      destruct (table_one_ent i e He Hu) as [-> _], (table_one_ent j e' He' Hu') as [-> _]. done.
    + intros i e He Hu. destruct (table_one_ent i e He Hu) as [-> _]. vm_compute. lia.
  - intros va. split.
    + intros [i (e & He & Hu & Ev)%find_swap_Some]. destruct (table_one_ent i e He Hu) as [-> ->].
      exists 0%nat, (mkPageStat heap_va SWAPPED 0 1 0). split; [by vm_compute|]. split; [done|exact Ev].
    + intros (i & x & [[-> ->]| ->]%ms_swapped_page & Hs & Ev); [|done]. rewrite <- Ev. exists 0%nat. by vm_compute.
Qed.

Lemma high_address_witness : pagefault 13 (MAXVA + heap_va) k_swapped = Panic "walk".
Proof.
  apply (high_address_panics 13 (MAXVA + heap_va) k_swapped 0 (mkPageStat heap_va SWAPPED 0 1 0));
    [vm_compute; reflexivity..|by compute_now|].
  intros [_ H]. vm_compute in H. discriminate.
Defined.

Lemma enough_pages : ~ (length free0 < 3)%nat.
Proof. vm_compute. lia. Qed.


Lemma swap_fault_witness : exists k', pagefault 13 (heap_va + 20) k_swapped = Ret tt k' /\
  brought 13 heap_va rwu (bytes_at swapped_data) (pf_enter 13 (heap_va + 20) k_swapped) k'.
Proof.
  destruct (swap_fault_correct 13 (heap_va + 20) k_swapped swap_ip free0 MAXVA swapped_data) as (k' & R & _ & Hr);
    [exact k_swapped_inv|vm_compute; reflexivity|discriminate|by compute_now|apply user0_unmapped|vm_compute; reflexivity|].
  exists k'. split; [exact R|]. destruct Hr as [[_ Hs]|[Hb _]]; [destruct (enough_pages Hs)|exact Hb].
Defined.

