(* ===== verification/Spinlock.v ===== *)
(** Spin locks, kernel/spinlock.c, on several CPUs.

    [push_off], [pop_off], [holding] and the statements of [acquire] and
    [release] are functions; [cpu_step] runs one atomic piece of one of them on
    one CPU, and the machine's executions are the interleavings of such steps.
    Which CPU is between [acquire] and [release] is recorded by control flow
    alone ([spin_exec]: set when [acquire] returns, cleared when [release] is
    called), not read back from the lock; the invariant [spin_inv] of the
    reachable states gives mutual exclusion and the discipline of interrupts. *)
From S2P Require Import Prelude.

Record cpu : Type := mkCpu { noff : Z; intena : bool; intr : bool }.
Record spinlock : Type := mkLock { lk_name : string; locked : Z; lk_cpu : option nat }.

Definition initlock (name : string) : spinlock := mkLock name 0 None.

Definition push_off (c : cpu) : cpu :=
  let old := intr c in
  mkCpu (noff c + 1) (if noff c =? 0 then old else intena c) false.

Definition pop_off : M cpu unit := fun c =>
  if intr c then Panic "pop_off - interruptible"
  else if noff c <? 1 then Panic "pop_off"
  else let n := noff c - 1 in
       Ret tt (mkCpu n (intena c) (if (n =? 0) && intena c then true else intr c)).

Definition holding (lk : spinlock) (c : nat) : bool :=
  negb (locked lk =? 0) && bool_decide (lk_cpu lk = Some c).

(** [__sync_lock_test_and_set(&lk->locked, 1)]: the old value, and the lock set. *)
Definition test_and_set (lk : spinlock) : Z * spinlock := (locked lk, mkLock (lk_name lk) 1 (lk_cpu lk)).

Definition set_cpu (o : option nat) (lk : spinlock) : spinlock := mkLock (lk_name lk) (locked lk) o.
Definition unlock (lk : spinlock) : spinlock := mkLock (lk_name lk) 0 (lk_cpu lk).

(** ** The machine *)
(** Where a CPU is: outside, in the loop of [acquire], after it; after the owner
    was cleared in [release], and before its [pop_off]. *)
Inductive pc : Type := Run | Spin (l : nat) | Got (l : nat) | Rel (l : nat) | Pop.

(** [m_want c] records the last setting of interrupts by code that holds no lock. *)
Record machine : Type := mkMachine {
  m_cpu : nat -> cpu; m_lock : nat -> spinlock; m_pc : nat -> pc; m_want : nat -> bool }.

Inductive act : Type := Acquire (l : nat) | Release (l : nat) | Go | SetIntr (b : bool).

Definition upd {A} (f : nat -> A) (i : nat) (x : A) : nat -> A := fun j => if Nat.eqb j i then x else f j.

Definition cpu_step (c : nat) (a : act) : M machine unit := fun m =>
  let set_pc p := mkMachine (m_cpu m) (m_lock m) (upd (m_pc m) c p) (m_want m) in
  match m_pc m c, a with
  | Run, Acquire l =>
      let m1 := mkMachine (upd (m_cpu m) c (push_off (m_cpu m c))) (m_lock m) (upd (m_pc m) c (Spin l)) (m_want m) in
      if holding (m_lock m l) c then Panic "acquire" else Ret tt m1
  | Spin l, Go =>
      let '(old, lk) := test_and_set (m_lock m l) in
      let m1 := mkMachine (m_cpu m) (upd (m_lock m) l lk) (m_pc m) (m_want m) in
      if negb (old =? 0) then Ret tt m1
      else Ret tt (mkMachine (m_cpu m) (upd (m_lock m) l lk) (upd (m_pc m) c (Got l)) (m_want m))
  | Got l, Go =>
      Ret tt (mkMachine (m_cpu m) (upd (m_lock m) l (set_cpu (Some c) (m_lock m l))) (upd (m_pc m) c Run) (m_want m))
  | Run, Release l =>
      if negb (holding (m_lock m l) c) then Panic "release"
      else Ret tt (mkMachine (m_cpu m) (upd (m_lock m) l (set_cpu None (m_lock m l))) (upd (m_pc m) c (Rel l)) (m_want m))
  | Rel l, Go => Ret tt (mkMachine (m_cpu m) (upd (m_lock m) l (unlock (m_lock m l))) (upd (m_pc m) c Pop) (m_want m))
  | Pop, Go =>
      match pop_off (m_cpu m c) with
      | Ret _ k => Ret tt (mkMachine (upd (m_cpu m) c k) (m_lock m) (upd (m_pc m) c Run) (m_want m))
      | Panic e => Panic e
      | Block ch _ => Block ch m
      | Diverge => Diverge
      end
  | Run, SetIntr b =>
      if noff (m_cpu m c) =? 0
      then Ret tt (mkMachine (upd (m_cpu m) c (mkCpu 0 (intena (m_cpu m c)) b)) (m_lock m) (m_pc m) (upd (m_want m) c b))
      else Block "interrupts" m
  | _, _ => Block "step" m
  end.

Inductive step (m : machine) : machine -> Prop :=
  | step_cpu c a m' : cpu_step c a m = Ret tt m' -> step m m'.

(** All locks free, all CPUs outside, interrupts in any state. *)
Definition all_free (m : machine) : Prop :=
  (forall l, locked (m_lock m l) = 0 /\ lk_cpu (m_lock m l) = None) /\
  (forall c, m_pc m c = Run /\ noff (m_cpu m c) = 0 /\ m_want m c = intr (m_cpu m c)).

(** ** Executions with their critical sections *)
(** [ins c l]: [c] has returned from [acquire] of [l] and has not called
    [release] of it since. The record follows the control flow of the calls and
    never looks at the lock. *)
Definition upd2 (f : nat -> nat -> bool) (i j : nat) (b : bool) : nat -> nat -> bool := upd f i (upd (f i) j b).

Definition track (p : pc) (c : nat) (a : act) (ins : nat -> nat -> bool) : nat -> nat -> bool :=
  match p, a with
  | Got l, Go => upd2 ins c l true
  | Run, Release l => upd2 ins c l false
  | _, _ => ins
  end.

Inductive spin_exec : machine -> (nat -> nat -> bool) -> Prop :=
  | sx_boot m : all_free m -> spin_exec m (fun _ _ => false)
  | sx_step m ins c a m' :
      spin_exec m ins -> cpu_step c a m = Ret tt m' -> spin_exec m' (track (m_pc m c) c a ins).

(** ** The invariant *)
(** [c] is between taking [l] and recording it, or between unrecording and
    freeing it. *)
Definition edge (p : pc) (l : nat) : Prop := p = Got l \/ p = Rel l.

Definition owner (m : machine) (l c : nat) : Prop := lk_cpu (m_lock m l) = Some c \/ edge (m_pc m c) l.

(** How many locks [c] has recorded as held. *)
Inductive held (m : machine) (c : nat) : list nat -> Prop :=
  | held_list ls : NoDup ls -> (forall l, l ∈ ls <-> lk_cpu (m_lock m l) = Some c) -> held m c ls.

Definition busy (p : pc) : Z := match p with Run => 0 | _ => 1 end.

Record spin_inv (m : machine) : Prop := {
  sp_bit : forall l, locked (m_lock m l) = 0 \/ locked (m_lock m l) = 1;
  sp_free : forall l c, locked (m_lock m l) = 0 -> ~ owner m l c;
  sp_taken : forall l, locked (m_lock m l) = 1 -> exists c, owner m l c;
  sp_one : forall l c c', owner m l c -> owner m l c' -> c = c';
  sp_edge : forall l c c', edge (m_pc m c) l -> lk_cpu (m_lock m l) = Some c' -> False;
  sp_noff : forall c, exists ls, held m c ls /\ noff (m_cpu m c) = Z.of_nat (length ls) + busy (m_pc m c);
  sp_intr : forall c, if noff (m_cpu m c) =? 0 then intr (m_cpu m c) = m_want m c
                      else intr (m_cpu m c) = false /\ intena (m_cpu m c) = m_want m c
}.

Lemma upd_eq {A} (f : nat -> A) i x : upd f i x i = x.
Proof. unfold upd. by rewrite Nat.eqb_refl. Qed.

Lemma upd_ne {A} (f : nat -> A) i j x : j <> i -> upd f i x j = f j.
Proof. unfold upd. intros ?. by rewrite (proj2 (Nat.eqb_neq j i)). Qed.

(** Split on whether an updated index is the one looked up. *)
Ltac upd_cases :=
  repeat match goal with
  | |- context [upd _ ?i _ ?j] =>
      let H := fresh "Hne" in
      destruct (decide (j = i)) as [->|H]; [rewrite ?upd_eq|rewrite ?(upd_ne _ i j _ H)]
  end.

Lemma held_ext m m' c ls :
  (forall l, lk_cpu (m_lock m' l) = Some c <-> lk_cpu (m_lock m l) = Some c) -> held m c ls -> held m' c ls.
Proof. intros E [ls' Hn Hl]. split; [done|]. intros l. by rewrite Hl, E. Qed.

(** Steps that move no lock. *)
Lemma inv_cpu m m' :
  spin_inv m -> (forall l, m_lock m' l = m_lock m l) ->
  (forall c l, edge (m_pc m' c) l <-> edge (m_pc m c) l) ->
  (forall c ls, held m c ls -> noff (m_cpu m c) = Z.of_nat (length ls) + busy (m_pc m c) ->
     noff (m_cpu m' c) = Z.of_nat (length ls) + busy (m_pc m' c)) ->
  (forall c, if noff (m_cpu m' c) =? 0 then intr (m_cpu m' c) = m_want m' c
             else intr (m_cpu m' c) = false /\ intena (m_cpu m' c) = m_want m' c) ->
  spin_inv m'.
Proof.
  intros [B F T O E N I] Hl He Hn Hi. split.
  - intros l. rewrite Hl. apply B.
  - intros l c. unfold owner. rewrite Hl, He. apply F.
  - intros l. rewrite Hl. intros [c Hc]%T. exists c. unfold owner. by rewrite Hl, He.
  - intros l c c'. unfold owner. rewrite Hl, !He. apply O.
  - intros l c c'. rewrite Hl, He. apply E.
  - intros c. destruct (N c) as (ls & Hh & Hc). exists ls. split; [|by apply Hn].
    eapply held_ext; [|exact Hh]. intros l. by rewrite Hl.
  - exact Hi.
Qed.

(** Steps of [c] that change only the lock [l]. *)
Lemma inv_lock m c l lk p :
  spin_inv m -> (locked lk = 0 \/ locked lk = 1) ->
  (forall k, edge (m_pc m c) k -> k = l) -> (forall k, edge p k -> k = l) ->
  (forall c', c' <> c -> ~ owner m l c') -> (lk_cpu lk = None \/ lk_cpu lk = Some c) ->
  (locked lk = 0 -> lk_cpu lk = None /\ ~ edge p l) ->
  (locked lk = 1 -> lk_cpu lk = Some c \/ edge p l) ->
  (edge p l -> lk_cpu lk = None) ->
  (exists ls, held (mkMachine (m_cpu m) (upd (m_lock m) l lk) (upd (m_pc m) c p) (m_want m)) c ls /\
     noff (m_cpu m c) = Z.of_nat (length ls) + busy p) ->
  spin_inv (mkMachine (m_cpu m) (upd (m_lock m) l lk) (upd (m_pc m) c p) (m_want m)).
Proof.
  intros Hi Hb He Hp Ho Hc H0 H1 Hed Hn.
  assert (Hoth : forall k c', owner (mkMachine (m_cpu m) (upd (m_lock m) l lk) (upd (m_pc m) c p) (m_want m)) k c' ->
    (k = l /\ c' = c) \/ (k <> l /\ owner m k c')).
  { intros k c' Hw. unfold owner in Hw. cbn [m_lock m_pc] in Hw. destruct (decide (k = l)) as [->|Hk].
    - left. split; [done|]. rewrite upd_eq in Hw. destruct (decide (c' = c)) as [->|Hne]; [done|exfalso].
      rewrite upd_ne in Hw by done. destruct Hw as [E|Hw]; [destruct Hc; congruence|].
      apply (Ho c' Hne). by right.
    - right. split; [done|]. rewrite upd_ne in Hw by done. destruct Hw as [?|Hw]; [by left|].
      destruct (decide (c' = c)) as [->|Hne]; [rewrite upd_eq in Hw; by destruct (Hk (Hp k Hw))|].
      rewrite upd_ne in Hw by done. by right. }
  split.
  - intros k. cbn [m_lock]. upd_cases; [done|apply Hi].
  - intros k c' Hk Hw. destruct (Hoth k c' Hw) as [[-> ->]|[Hne Hw']].
    + cbn [m_lock] in Hk. rewrite upd_eq in Hk. destruct (H0 Hk) as [E1 E2]. unfold owner in Hw. cbn in Hw.
      rewrite !upd_eq in Hw. destruct Hw; congruence.
    + cbn [m_lock] in Hk. rewrite upd_ne in Hk by done. by apply (sp_free _ Hi k c').
  - intros k. unfold owner. cbn [m_lock m_pc]. destruct (decide (k = l)) as [->|Hk].
    + rewrite upd_eq. intros [E|E]%H1; exists c; rewrite upd_eq; [by left|by right].
    + rewrite !upd_ne by done. intros [c1 [E|E]]%(sp_taken _ Hi); exists c1; [by left|]. right.
      rewrite upd_ne; [done|]. intros ->. by destruct (Hk (He k E)).
  - intros k c1 c2 [[-> ->]|[Hk Hw1]]%Hoth [[? ->]|[? Hw2]]%Hoth; try done. by apply (sp_one _ Hi k).
  - intros k c1 c2 Hw H2. cbn [m_pc m_lock] in *. destruct (decide (k = l)) as [->|Hk].
    + rewrite upd_eq in H2. destruct (decide (c1 = c)) as [->|Hne]; [rewrite upd_eq in Hw; rewrite (Hed Hw) in H2; done|].
      rewrite upd_ne in Hw by done. apply (Ho c1 Hne). by right.
    + rewrite upd_ne in H2 by done. destruct (decide (c1 = c)) as [->|Hne].
      * rewrite upd_eq in Hw. by destruct (Hk (Hp k Hw)).
      * rewrite upd_ne in Hw by done. by apply (sp_edge _ Hi k c1 c2).
  - intros c'. destruct (decide (c' = c)) as [->|Hne]; [cbn [m_cpu m_pc]; rewrite upd_eq; exact Hn|].
    destruct (sp_noff _ Hi c') as (ls & Hh & Hcnt). exists ls. cbn [m_cpu m_pc]. rewrite upd_ne by done. split; [|done].
    eapply held_ext; [|exact Hh]. intros k. cbn [m_lock]. upd_cases; [|done]. split.
    + intros E. destruct Hc; congruence.
    + intros E. exfalso. apply (Ho c' Hne). by left.
  - exact (sp_intr _ Hi).
Qed.

Lemma noff_pos m c : spin_inv m -> busy (m_pc m c) <= noff (m_cpu m c).
Proof. intros Hi. destruct (sp_noff _ Hi c) as (ls & _ & ->). lia. Qed.

Lemma no_edge_run l : ~ edge Run l.
Proof. by intros [?|?]. Qed.

Lemma edge_self p l k : edge p l -> edge p k -> k = l.
Proof. intros [->| ->] [[=]|[=]]; congruence. Qed.

(** [push_off] and [pop_off] keep the discipline of interrupts. *)
Lemma push_off_intr c w :
  0 <= noff c -> (if noff c =? 0 then intr c = w else intr c = false /\ intena c = w) ->
  noff (push_off c) = noff c + 1 /\ intr (push_off c) = false /\ intena (push_off c) = w.
Proof. intros H0. unfold push_off. cbn. destruct (noff c =? 0); naive_solver. Qed.

Lemma pop_off_run c w :
  0 < noff c -> intr c = false -> intena c = w ->
  exists c', pop_off c = Ret tt c' /\ noff c' = noff c - 1 /\
    (if noff c' =? 0 then intr c' = w else intr c' = false /\ intena c' = w).
Proof.
  intros H0 Hi Hw. unfold pop_off. rewrite Hi. destruct (Z.ltb_spec (noff c) 1); [lia|].
  eexists. split; [reflexivity|]. cbn. split; [done|]. destruct (noff c - 1 =? 0); [|by rewrite Hw].
  rewrite Hw. by destruct w.
Qed.

Lemma acquire_inv m c l :
  spin_inv m -> m_pc m c = Run ->
  spin_inv (mkMachine (upd (m_cpu m) c (push_off (m_cpu m c))) (m_lock m) (upd (m_pc m) c (Spin l)) (m_want m)).
Proof.
  intros Hi Hpc. pose proof (noff_pos m c Hi) as Hn. rewrite Hpc in Hn. cbn in Hn.
  destruct (push_off_intr _ _ Hn (sp_intr _ Hi c)) as (E1 & E2 & E3).
  apply (inv_cpu m); [done|done| | |]; cbn [m_cpu m_pc m_want].
  - intros c' k. upd_cases; [|done]. rewrite Hpc. split; by intros [?|?].
  - intros c' ls _. upd_cases; [|done]. rewrite Hpc, E1. cbn. lia.
  - intros c'. upd_cases; [|apply Hi]. destruct (Z.eqb_spec (noff (push_off (m_cpu m c))) 0); [lia|done].
Qed.

Lemma spin_inv_go m c l :
  spin_inv m -> m_pc m c = Spin l -> forall m', cpu_step c Go m = Ret tt m' -> spin_inv m'.
Proof.
  intros Hi Hpc m'. unfold cpu_step. rewrite Hpc. cbn.
  destruct (Z.eqb_spec (locked (m_lock m l)) 0) as [E0|E0]; intros [= <-].
  - assert (Ecpu : lk_cpu (m_lock m l) = None).
    { destruct (lk_cpu (m_lock m l)) as [c'|] eqn:E; [|done]. exfalso. apply (sp_free _ Hi l c' E0). by left. }
    apply inv_lock; cbn; try done.
    + by right.
    + rewrite Hpc. by intros k [?|?].
    + intros k [[=]|[=]]; congruence.
    + intros c' _. by apply (sp_free _ Hi).
    + by left.
    + intros _. right. by left.
    + destruct (sp_noff _ Hi c) as (ls & Hh & Hc). rewrite Hpc in Hc. exists ls. split; [|done].
      eapply held_ext; [|exact Hh]. intros k. cbn. upd_cases; [cbn; by rewrite Ecpu|done].
  - assert (E1 : locked (m_lock m l) = 1) by (destruct (sp_bit _ Hi l); lia).
    apply (inv_cpu m); try done; cbn; [|apply Hi]. intros k. upd_cases; [|done]. destruct (m_lock m l). cbn in *. by subst.
Qed.

Lemma got_inv_go m c l :
  spin_inv m -> m_pc m c = Got l -> forall m', cpu_step c Go m = Ret tt m' -> spin_inv m'.
Proof.
  intros Hi Hpc m'. unfold cpu_step. rewrite Hpc. cbn. intros [= <-].
  assert (He : edge (m_pc m c) l) by (by left). assert (Ho : owner m l c) by (by right).
  assert (E1 : locked (m_lock m l) = 1) by (destruct (sp_bit _ Hi l) as [E|]; [by destruct (sp_free _ Hi l c E)|done]).
  apply inv_lock; cbn; try done.
  - by right.
  - intros k. by apply edge_self.
  - intros k ?%no_edge_run. done.
  - intros c' Hne Ho'. apply Hne. by apply (sp_one _ Hi l).
  - by right.
  - rewrite E1. done.
  - by left.
  - intros ?%no_edge_run. done.
  - destruct (sp_noff _ Hi c) as (ls & [ls' Hnd Hl] & Hc). rewrite Hpc in Hc. exists (l :: ls'). split.
    + split.
      * apply NoDup_cons. split; [|done]. rewrite Hl. intros E. by apply (sp_edge _ Hi l c c).
      * intros k. cbn. upd_cases; cbn; [set_solver|]. rewrite elem_of_cons, Hl. naive_solver.
    + rewrite Hc. cbn. lia.
Qed.

Lemma release_inv m c l :
  spin_inv m -> m_pc m c = Run -> holding (m_lock m l) c = true ->
  spin_inv (mkMachine (m_cpu m) (upd (m_lock m) l (set_cpu None (m_lock m l))) (upd (m_pc m) c (Rel l)) (m_want m)).
Proof.
  intros Hi Hpc [Hlk%negb_true_iff%Z.eqb_neq Hc%bool_decide_eq_true]%andb_true_iff.
  assert (E1 : locked (m_lock m l) = 1) by (destruct (sp_bit _ Hi l); lia).
  apply inv_lock; cbn; try done.
  - by right.
  - rewrite Hpc. intros k ?%no_edge_run. done.
  - intros k [[=]|[=]]; congruence.
  - intros c' Hne Ho. apply Hne. apply (sp_one _ Hi l); [done|by left].
  - by left.
  - intros _. right. by right.
  - destruct (sp_noff _ Hi c) as (ls & [ls' Hnd Hl] & Hcnt). rewrite Hpc in Hcnt.
    destruct (elem_of_Permutation ls' l) as [[k Hp] _]; [by apply Hl|]. exists k. rewrite Hp in Hnd.
    apply NoDup_cons in Hnd as [Hnl Hnd]. split.
    + split; [done|]. intros j. cbn. upd_cases; cbn; [by split|]. rewrite <- Hl, Hp, elem_of_cons. naive_solver.
    + rewrite Hcnt, Hp. cbn. lia.
Qed.

Lemma rel_inv_go m c l :
  spin_inv m -> m_pc m c = Rel l -> forall m', cpu_step c Go m = Ret tt m' -> spin_inv m'.
Proof.
  intros Hi Hpc m'. unfold cpu_step. rewrite Hpc. cbn. intros [= <-].
  assert (He : edge (m_pc m c) l) by (by right).
  assert (Ecpu : lk_cpu (m_lock m l) = None).
  { destruct (lk_cpu (m_lock m l)) as [c'|] eqn:E; [|done]. by destruct (sp_edge _ Hi l c c' He E). }
  assert (Hno : forall k, ~ edge Pop k) by (by intros k [?|?]).
  apply inv_lock; cbn; try done.
  - by left.
  - intros k. by apply edge_self.
  - intros k ?%Hno. done.
  - intros c' Hne Ho. apply Hne. apply (sp_one _ Hi l); [done|by right].
  - by left.
  - destruct (sp_noff _ Hi c) as (ls & Hh & Hc). rewrite Hpc in Hc. exists ls. split; [|done].
    eapply held_ext; [|exact Hh]. intros k. cbn. upd_cases; [cbn; by rewrite Ecpu|done].
Qed.

Lemma pop_inv m c :
  spin_inv m -> m_pc m c = Pop ->
  exists k, pop_off (m_cpu m c) = Ret tt k /\
    spin_inv (mkMachine (upd (m_cpu m) c k) (m_lock m) (upd (m_pc m) c Run) (m_want m)).
Proof.
  intros Hi Hpc. pose proof (noff_pos m c Hi) as Hn. rewrite Hpc in Hn. cbn in Hn.
  pose proof (sp_intr _ Hi c) as Hint. destruct (Z.eqb_spec (noff (m_cpu m c)) 0); [lia|]. destruct Hint as [Hint Hw].
  destruct (pop_off_run (m_cpu m c) (m_want m c)) as (k & R & E & Hk); [lia|done|done|]. exists k. split; [done|].
  apply (inv_cpu m); [done|done| | |]; cbn [m_cpu m_pc m_want].
  - intros c' j. upd_cases; [|done]. rewrite Hpc. split; by intros [?|?].
  - intros c' ls _. upd_cases; [|done]. rewrite Hpc, E. cbn. lia.
  - intros c'. upd_cases; [done|apply Hi].
Qed.

Lemma set_intr_inv m c b :
  spin_inv m -> m_pc m c = Run -> noff (m_cpu m c) = 0 ->
  spin_inv (mkMachine (upd (m_cpu m) c (mkCpu 0 (intena (m_cpu m c)) b)) (m_lock m) (m_pc m) (upd (m_want m) c b)).
Proof.
  intros Hi Hpc H0. apply (inv_cpu m); [done|done|done| |]; cbn [m_cpu m_pc m_want].
  - intros c' ls _. upd_cases; [|done]. rewrite H0. done.
  - intros c'. upd_cases; [done|apply Hi].
Qed.

Lemma step_inv m m' : spin_inv m -> step m m' -> spin_inv m'.
Proof.
  intros Hi [c a m1 R]. destruct (m_pc m c) as [|l|l|l|] eqn:Hpc, a as [k|k| |b];
    try (unfold cpu_step in R; rewrite Hpc in R; done); try (by eapply spin_inv_go); try (by eapply got_inv_go);
    try (by eapply rel_inv_go); unfold cpu_step in R; rewrite Hpc in R.
  - destruct (holding (m_lock m k) c); [done|]. injection R as <-. by apply acquire_inv.
  - destruct (holding (m_lock m k) c) eqn:Hh; [|done]. injection R as <-. by apply release_inv.
  - destruct (Z.eqb_spec (noff (m_cpu m c)) 0) as [E|]; [|done]. injection R as <-. by apply set_intr_inv.
  - destruct (pop_inv m c Hi Hpc) as (k & E & Hk). rewrite E in R. by injection R as <-.
Qed.

Lemma all_free_inv m : all_free m -> spin_inv m.
Proof.
  intros [Hl Hc]. assert (Ho : forall l c, ~ owner m l c).
  { intros l c [E|E]; [destruct (Hl l); congruence|]. destruct (Hc c) as [Hpc _]. rewrite Hpc in E. by apply (no_edge_run l). }
  split.
  - intros l. left. apply Hl.
  - intros l c _. apply Ho.
  - intros l. destruct (Hl l) as [-> _]. done.
  - intros l c c' H. by destruct (Ho l c).
  - intros l c c' H. destruct (Ho l c). by right.
  - intros c. destruct (Hc c) as (Hpc & H0 & _). exists []. rewrite Hpc, H0. split; [|done]. split; [constructor|].
    intros l. destruct (Hl l) as [_ ->]. split; [by intros ?%elem_of_nil|done].
  - intros c. destruct (Hc c) as (_ & -> & ->). done.
Qed.

(** The record of the calls agrees with what the lock records. *)
Definition agrees (m : machine) (ins : nat -> nat -> bool) : Prop :=
  forall c l, ins c l = true <-> lk_cpu (m_lock m l) = Some c.

Lemma agrees_set m c l ins o p k :
  agrees m ins -> (forall c', c' <> c -> lk_cpu (m_lock m l) <> Some c') -> (o = None \/ o = Some c) ->
  agrees (mkMachine (m_cpu m) (upd (m_lock m) l (set_cpu o (m_lock m l))) (upd (m_pc m) c p) k)
    (upd2 ins c l (bool_decide (o = Some c))).
Proof.
  intros Ha Ho Hoc d j. cbn [m_lock]. unfold upd2. destruct (decide (d = c)) as [->|Hd].
  - rewrite upd_eq. upd_cases; [cbn; by rewrite bool_decide_eq_true|apply Ha].
  - rewrite upd_ne by done. upd_cases; [|apply Ha]. cbn. rewrite (Ha d l). specialize (Ho d Hd). destruct Hoc; naive_solver.
Qed.

Lemma agrees_same m m' ins :
  agrees m ins -> (forall l, lk_cpu (m_lock m' l) = lk_cpu (m_lock m l)) -> agrees m' ins.
Proof. intros Ha E c l. by rewrite E, (Ha c l). Qed.

Lemma cpu_step_agrees m c a m' ins :
  spin_inv m -> agrees m ins -> cpu_step c a m = Ret tt m' -> agrees m' (track (m_pc m c) c a ins).
Proof.
  intros Hi Ha. unfold cpu_step. destruct (m_pc m c) as [|l|l|l|] eqn:Hpc, a as [k|k| |b]; try done; cbn [track].
  - destruct (holding _ _); [done|]. intros [= <-]. by apply (agrees_same m).
  - destruct (holding (m_lock m k) c) eqn:Hh; [|done]. intros [= <-].
    apply andb_true_iff in Hh as [_ Hc%bool_decide_eq_true].
    apply (agrees_set m c k ins None (Rel k)); [done| |by left]. congruence.
  - destruct (_ =? 0); [|done]. intros [= <-]. by apply (agrees_same m).
  - cbn. destruct (_ =? 0); cbn; intros [= <-]; (apply (agrees_same m); [done|]); intros j; cbn; by upd_cases.
  - intros [= <-]. pose proof (agrees_set m c l ins (Some c) Run (m_want m) Ha) as H.
    rewrite bool_decide_eq_true_2 in H by done. apply H; [|by right].
    intros c' _ E. apply (sp_edge _ Hi l c c'); [by left|done].
  - intros [= <-]. apply (agrees_same m); [done|]. intros j. cbn. by upd_cases.
  - destruct (pop_off _); try done. intros [= <-]. by apply (agrees_same m).
Qed.

Lemma spin_exec_inv m ins : spin_exec m ins -> spin_inv m /\ agrees m ins.
Proof.
  induction 1 as [m Hf|m ins c a m' _ [Hi Ha] R].
  - split; [by apply all_free_inv|]. intros c l. destruct Hf as [Hl _]. destruct (Hl l) as [_ ->]. done.
  - split; [by eapply step_inv, step_cpu|by apply cpu_step_agrees].
Qed.

Lemma holding_agrees m ins c l : spin_inv m -> agrees m ins -> holding (m_lock m l) c = ins c l.
Proof.
  intros Hi Ha. apply eq_bool_prop_intro. rewrite !Is_true_true, (Ha c l). unfold holding.
  rewrite andb_true_iff, bool_decide_eq_true, negb_true_iff, Z.eqb_neq. split; [by intros [_ ?]|].
  intros E. split; [|done]. intros E0. apply (sp_free _ Hi l c E0). by left.
Qed.

(** [c] is in the critical section of [l]: from the test-and-set that ended its
    loop in [acquire], through all that it runs until it calls [release], to the
    store that frees the lock there. *)
Definition in_section (m : machine) (ins : nat -> nat -> bool) (c l : nat) : Prop :=
  ins c l = true \/ m_pc m c = Got l \/ m_pc m c = Rel l.

Lemma section_owner m ins c l : agrees m ins -> in_section m ins c l <-> owner m l c.
Proof. intros Ha. unfold in_section, owner, edge. by rewrite (Ha c l). Qed.

Lemma section_noff m ins c l : spin_inv m -> agrees m ins -> in_section m ins c l -> noff (m_cpu m c) <> 0.
Proof.
  intros Hi Ha Hs. destruct (sp_noff _ Hi c) as (ls & [ls' _ Hl] & ->).
  destruct Hs as [Hc%Ha%Hl|[-> | ->]]; cbn; [|lia|lia].
  destruct ls' as [|x ls']; [by apply elem_of_nil in Hc|]. cbn. destruct (m_pc m c); cbn; lia.
Qed.

(** C9: in every interleaving of [acquire] and [release] on any number of CPUs,
    with the critical sections recorded by control flow (entered when the
    test-and-set of [acquire] succeeds, left when [release] stores 0): no two
    CPUs are in the critical section of the same lock, and when none is, the
    lock is free for the next test-and-set; a CPU in a critical section has
    interrupts off; [holding] answers exactly whether the CPU has returned from
    [acquire] and not yet called [release], so [acquire] panics exactly on a
    second acquisition and [release] exactly when the CPU is not inside; a CPU
    that is in neither routine and inside no section has interrupts as it last
    set them; and the [pop_off] that ends a [release] never panics. *)
Theorem spinlock_safe m ins c c' l :
  spin_exec m ins ->
  (in_section m ins c l -> in_section m ins c' l -> c = c') /\
  ((forall d, ~ in_section m ins d l) -> locked (m_lock m l) = 0) /\
  (in_section m ins c l -> intr (m_cpu m c) = false) /\
  holding (m_lock m l) c = ins c l /\
  (m_pc m c = Run ->
    (cpu_step c (Acquire l) m = Panic "acquire" <-> ins c l = true) /\
    (cpu_step c (Release l) m = Panic "release" <-> ins c l = false)) /\
  (m_pc m c = Run -> (forall k, ins c k = false) -> intr (m_cpu m c) = m_want m c) /\
  (m_pc m c = Pop -> exists m', cpu_step c Go m = Ret tt m').
Proof.
  intros [Hi Ha]%spin_exec_inv. pose proof (sp_intr _ Hi c) as Hint. split_and!.
  - rewrite !(section_owner m ins) by done. apply (sp_one _ Hi).
  - intros Hno. destruct (sp_bit _ Hi l) as [|[d Hd]%(sp_taken _ Hi)]; [done|]. destruct (Hno d).
    by apply (section_owner m ins).
  - intros Hs%(section_noff m ins); [|done..]. destruct (Z.eqb_spec (noff (m_cpu m c)) 0); [done|apply Hint].
  - by apply holding_agrees.
  - intros Hpc. unfold cpu_step. rewrite Hpc, (holding_agrees m ins) by done. destruct (ins c l); cbn; naive_solver.
  - intros Hpc Hno. destruct (sp_noff _ Hi c) as (ls & [ls' _ Hl] & Hc). rewrite Hpc in Hc.
    destruct ls' as [|k ls']; [rewrite Hc in Hint; exact Hint|].
    assert (Ek : ins c k = true) by (apply Ha, Hl; by left). by rewrite Hno in Ek.
  - intros Hpc. destruct (pop_inv m c Hi Hpc) as (k & E & _). unfold cpu_step. rewrite Hpc, E. by eexists.
Qed.

(** Two CPUs contend for lock 0: the second spins until the first releases. *)
Definition machine0 : machine :=
  mkMachine (fun _ => mkCpu 0 false true) (fun _ => initlock "l") (fun _ => Run) (fun _ => true).

Fixpoint run_steps (l : list (nat * act)) (m : machine) (ins : nat -> nat -> bool) : machine * (nat -> nat -> bool) :=
  match l with
  | [] => (m, ins)
  | (c, a) :: l =>
      match cpu_step c a m with Ret _ m' => run_steps l m' (track (m_pc m c) c a ins) | _ => (m, ins) end
  end.

Lemma run_spin_exec l m ins : spin_exec m ins -> spin_exec (run_steps l m ins).1 (run_steps l m ins).2.
Proof.
  revert m ins. induction l as [|[c a] l IH]; intros m ins Hm; [done|]. cbn.
  destruct (cpu_step c a m) as [[] m'| | |] eqn:E; try done. apply IH. by eapply sx_step.
Qed.

Definition contend : list (nat * act) :=
  [(0, Acquire 0); (1, Acquire 0); (0, Go); (1, Go); (0, Go); (1, Go)]%nat.

Lemma spinlock_witness :
  let r := run_steps contend machine0 (fun _ _ => false) in
  in_section r.1 r.2 0 0 /\ m_pc r.1 1%nat = Spin 0 /\ intr (m_cpu r.1 0%nat) = false /\
  (in_section r.1 r.2 1 0 -> 1%nat = 0%nat) /\ cpu_step 0 (Acquire 0) r.1 = Panic "acquire".
Proof.
  intros r. assert (Hr : spin_exec r.1 r.2).
  { apply run_spin_exec, sx_boot. split; [intros l; split; reflexivity|intros c; repeat split; reflexivity]. }
  assert (Hin : in_section r.1 r.2 0 0) by (left; reflexivity).
  destruct (spinlock_safe r.1 r.2 0 1 0 Hr) as (H1 & _ & H3 & _ & H5 & _). split_and!.
  - exact Hin.
  - reflexivity.
  - exact (H3 Hin).
  - intros H. symmetry. exact (H1 Hin H).
  - apply (H5 eq_refl). reflexivity.
Defined.
