(* ===== verification/Sleeplock.v ===== *)
(** Sleep locks and the sleep/wakeup protocol: kernel/sleeplock.c, and [sleep],
    [wakeup], [sched] and [scheduler] of kernel/proc.c as it uses them.

    [go] runs the next atomic piece of one process in [acquiresleep] or
    [releasesleep]; taking a spin lock waits until it is free.  The executions
    are the interleavings of such pieces.  [sleep] gives up the lock's spin lock
    only once it holds its own process lock, and the invariant [sl_inv] shows why
    no wakeup is lost. *)
From S2P Require Import Prelude Riscv Memstat Proc Spinlock.

(** The places of a process: [acquiresleep] ([AcqLk], [Test]), [sleep] ([SlpLock]
    to [SlpSched]), asleep ([Parked]), back from [sched] ([Woken], [Reacq]),
    holding the sleep lock ([Crit]), [releasesleep] ([RelLk], [RelSet]) and the
    loop of its [wakeup] ([Wake], [WakeIn]). *)
Inductive place : Type :=
  | Out | AcqLk | Test | SlpLock | SlpRel | SlpSet | SlpSched | Parked | Woken | Reacq
  | Crit | RelLk | RelSet | Wake (j : nat) | WakeIn (j : nat).

#[global] Instance place_eq_dec : EqDecision place.
Proof. solve_decision. Defined.

(** The sleep lock with its spin lock, and of each process: its lock, its state,
    whether its channel is the sleep lock, and its place. *)
Record sys : Type := mkSys {
  sl_lk : option nat; sl_locked : Z; sl_pid : Z;
  plock : nat -> option nat; pstate : nat -> procstate; pchan : nat -> bool; at_ : nat -> place }.

Section sleeplock.
Context (N : nat) (pid_of : nat -> Z).

Definition move (i : nat) (p : place) (s : sys) : sys :=
  mkSys (sl_lk s) (sl_locked s) (sl_pid s) (plock s) (pstate s) (pchan s) (upd (at_ s) i p).
Definition set_lk (o : option nat) (s : sys) : sys :=
  mkSys o (sl_locked s) (sl_pid s) (plock s) (pstate s) (pchan s) (at_ s).
Definition set_locked (v p : Z) (s : sys) : sys :=
  mkSys (sl_lk s) v p (plock s) (pstate s) (pchan s) (at_ s).
Definition set_plock (j : nat) (o : option nat) (s : sys) : sys :=
  mkSys (sl_lk s) (sl_locked s) (sl_pid s) (upd (plock s) j o) (pstate s) (pchan s) (at_ s).
Definition set_pstate (j : nat) (x : procstate) (s : sys) : sys :=
  mkSys (sl_lk s) (sl_locked s) (sl_pid s) (plock s) (upd (pstate s) j x) (pchan s) (at_ s).
Definition set_chan (j : nat) (b : bool) (s : sys) : sys :=
  mkSys (sl_lk s) (sl_locked s) (sl_pid s) (plock s) (pstate s) (upd (pchan s) j b) (at_ s).

(** [acquire] of the sleep lock's spin lock, and of the lock of process [j]. *)
Definition take_lk (i : nat) (p : place) : M sys unit := fun s =>
  match sl_lk s with None => Ret tt (move i p (set_lk (Some i) s)) | Some _ => Block "lk" s end.
Definition take_plock (i j : nat) (p : place) : M sys unit := fun s =>
  match plock s j with None => Ret tt (move i p (set_plock j (Some i) s)) | Some _ => Block "p->lock" s end.

Definition go (i : nat) : M sys unit := fun s =>
  if negb (i <? N)%nat then Block "no process" s else
  match at_ s i with
  | Out => Ret tt (move i AcqLk s)
  | AcqLk => take_lk i Test s
  | Test => if negb (sl_locked s =? 0) then Ret tt (move i SlpLock s)
            else Ret tt (move i Crit (set_lk None (set_locked 1 (pid_of i) s)))
  | SlpLock => take_plock i i SlpRel s
  | SlpRel => Ret tt (move i SlpSet (set_lk None s))
  | SlpSet => Ret tt (move i SlpSched (set_pstate i SLEEPING (set_chan i true s)))
  | SlpSched => Ret tt (move i Parked (set_plock i None s))
  | Parked => if decide (pstate s i = RUNNABLE) then take_plock i i Woken (set_pstate i RUNNING s)
              else Block "asleep" s
  | Woken => Ret tt (move i Reacq (set_plock i None (set_chan i false s)))
  | Reacq => take_lk i Test s
  | Crit => Ret tt (move i RelLk s)
  | RelLk => take_lk i RelSet s
  | RelSet => Ret tt (move i (Wake 0) (set_locked 0 0 s))
  | Wake j => if (j <? N)%nat then
                if Nat.eqb j i then Ret tt (move i (Wake (S j)) s) else take_plock i j (WakeIn j) s
              else Ret tt (move i Out (set_lk None s))
  | WakeIn j => let s := if decide (pstate s j = SLEEPING) then if pchan s j then set_pstate j RUNNABLE s else s else s in
                Ret tt (move i (Wake (S j)) (set_plock j None s))
  end.

(** [holdingsleep] by process [i]. *)
Definition holdingsleep (s : sys) (i : nat) : bool := negb (sl_locked s =? 0) && (sl_pid s =? pid_of i).

Inductive sl_step (s : sys) : sys -> Prop :=
  | sl_go i s' : go i s = Ret tt s' -> sl_step s s'.

(** [initsleeplock], with every process elsewhere. *)
Definition fresh : sys :=
  mkSys None 0 0 (fun _ => None) (fun _ => RUNNING) (fun _ => false) (fun _ => Out).

Inductive sl_reachable : sys -> Prop :=
  | slr_fresh : sl_reachable fresh
  | slr_step s s' : sl_reachable s -> sl_step s s' -> sl_reachable s'.

(** ** The invariant *)
(** The places that hold the spin lock, a process lock (whose), the sleep lock. *)
Definition holds_lk (p : place) : bool :=
  match p with Test | SlpLock | SlpRel | RelSet | Wake _ | WakeIn _ => true | _ => false end.
Definition holds_p (i : nat) (p : place) : option nat :=
  match p with SlpRel | SlpSet | SlpSched | Woken => Some i | WakeIn j => Some j | _ => None end.
Definition in_crit (p : place) : bool := match p with Crit | RelLk | RelSet => true | _ => false end.

(** On the way to sleep, or asleep: some later wakeup is needed. *)
Definition pending (s : sys) (i : nat) : Prop :=
  at_ s i = SlpSet \/ at_ s i = SlpSched \/ at_ s i = Parked /\ pstate s i = SLEEPING.

(** A wakeup that has not come to process [i] yet. *)
Definition coming (s : sys) (i : nat) : Prop :=
  exists w j, (at_ s w = Wake j \/ at_ s w = WakeIn j) /\ (j <= i)%nat.

Definition state_ok (s : sys) (i : nat) : Prop :=
  match at_ s i with
  | SlpSched => pstate s i = SLEEPING /\ pchan s i = true
  | Parked => (pstate s i = SLEEPING \/ pstate s i = RUNNABLE) /\ pchan s i = true
  | _ => pstate s i = RUNNING
  end.

Record sl_inv (s : sys) : Prop := {
  si_lk : forall i, sl_lk s = Some i <-> holds_lk (at_ s i) = true;
  si_pl : forall j i, plock s j = Some i <-> holds_p i (at_ s i) = Some j;
  si_self : forall i, at_ s i <> WakeIn i;
  si_crit : forall i, in_crit (at_ s i) = true -> sl_locked s = 1 /\ sl_pid s = pid_of i;
  si_one : forall i k, in_crit (at_ s i) = true -> in_crit (at_ s k) = true -> i = k;
  si_held : sl_locked s = 0 \/ sl_locked s = 1 /\ exists i, in_crit (at_ s i) = true;
  si_state : forall i, state_ok s i;
  si_wait : forall i, at_ s i = SlpLock \/ at_ s i = SlpRel -> sl_locked s = 1;
  si_pend : forall i, pending s i -> sl_locked s = 1 \/ coming s i;
  si_out : forall i, (N <= i)%nat -> at_ s i = Out
}.

(** Unfold one step into its cases. *)
Ltac go_cases H :=
  unfold go, take_lk, take_plock in H;
  repeat match type of H with
  | context [if negb (?a <? ?b)%nat then _ else _] => destruct (Nat.ltb_spec a b); cbn [negb] in H; [|discriminate H]
  | context [match at_ ?s ?i with _ => _ end] => destruct (at_ s i) eqn:?Hat
  | context [if ?b then _ else _] => let E := fresh "Hif" in destruct b eqn:E
  | context [match sl_lk ?s with _ => _ end] => destruct (sl_lk s) eqn:?
  | context [match plock ?s ?j with _ => _ end] => destruct (plock s j) eqn:?
  end; try discriminate H; try (injection H as <-); cbn [move set_lk set_locked set_plock set_pstate set_chan
    sl_lk sl_locked sl_pid plock pstate pchan at_] in *.

Lemma lk_step s i s' : sl_inv s -> go i s = Ret tt s' ->
  forall k, sl_lk s' = Some k <-> holds_lk (at_ s' k) = true.
Proof.
  intros Hi R k. pose proof (si_lk _ Hi k) as Hk. pose proof (si_lk _ Hi i) as Hii.
  go_cases R; upd_cases; rewrite ?Hat in *; cbn in *; try done; naive_solver.
Qed.

Lemma pl_keep s i p : sl_inv s -> holds_p i p = holds_p i (at_ s i) ->
  forall j k, plock s j = Some k <-> holds_p k (upd (at_ s) i p k) = Some j.
Proof. intros Hi E j k. upd_cases; [rewrite E|]; apply Hi. Qed.

Lemma pl_take s i p j0 : sl_inv s -> plock s j0 = None -> holds_p i (at_ s i) = None -> holds_p i p = Some j0 ->
  forall j k, upd (plock s) j0 (Some i) j = Some k <-> holds_p k (upd (at_ s) i p k) = Some j.
Proof.
  intros Hi H0 Hn E j k. pose proof (si_pl _ Hi j k) as Hk. pose proof (si_pl _ Hi j i) as Hji.
  rewrite Hn in Hji. upd_cases; rewrite ?E; try done.
  - split; [congruence|]. intros H. apply Hk in H. congruence.
  - split; [|congruence]. intros H. apply Hji in H. done.
Qed.

Lemma pl_drop s i p j0 : sl_inv s -> holds_p i (at_ s i) = Some j0 -> holds_p i p = None ->
  forall j k, upd (plock s) j0 None j = Some k <-> holds_p k (upd (at_ s) i p k) = Some j.
Proof.
  intros Hi H0 E j k. pose proof (si_pl _ Hi j k) as Hk. pose proof (proj2 (si_pl _ Hi j0 i) H0) as Hj0.
  pose proof (si_pl _ Hi j i) as Hji. upd_cases; rewrite ?E; try done.
  - split; [done|]. intros H. apply Hk in H. congruence.
  - split; [|done]. intros H. apply Hji in H. congruence.
Qed.

Lemma pl_step s i s' : sl_inv s -> go i s = Ret tt s' ->
  forall j k, plock s' j = Some k <-> holds_p k (at_ s' k) = Some j.
Proof.
  intros Hi R. go_cases R;
    first [ apply pl_keep; [done|by rewrite Hat] | apply pl_take; [done|done|by rewrite Hat|done]
          | apply pl_drop; [done|by rewrite Hat|done] ].
Qed.

Lemma self_step s i s' : sl_inv s -> go i s = Ret tt s' -> forall k, at_ s' k <> WakeIn k.
Proof.
  intros Hi R k. pose proof (si_self _ Hi k). pose proof (si_self _ Hi i).
  go_cases R; upd_cases; try done; try congruence.
  all: intros [= ->]; rewrite Nat.eqb_refl in *; done.
Qed.

Lemma state_step s i s' : sl_inv s -> go i s = Ret tt s' -> forall k, state_ok s' k.
Proof.
  intros Hi R k. pose proof (si_state _ Hi k) as Hk. pose proof (si_state _ Hi i) as Hii. unfold state_ok in *.
  pose proof (si_pl _ Hi k k) as Hpk. pose proof (si_pl _ Hi k i) as Hpi.
  go_cases R; upd_cases; rewrite ?Hat in *; cbn in *; upd_cases; try done; try naive_solver congruence.
  assert (Hw : plock s j = Some i) by (by apply Hpi).
  destruct (at_ s j); cbn in *; try congruence; [|by split; [right|]]. assert (plock s j = Some j) by (by apply Hpk). congruence.
Qed.

(** Who holds the spin lock is alone in holding it. *)
Lemma lk_alone s i k : sl_inv s -> holds_lk (at_ s i) = true -> holds_lk (at_ s k) = true -> i = k.
Proof. intros Hi H1%(si_lk _ Hi) H2%(si_lk _ Hi). congruence. Qed.

Lemma crit_step s i s' : sl_inv s -> go i s = Ret tt s' ->
  (forall k, in_crit (at_ s' k) = true -> sl_locked s' = 1 /\ sl_pid s' = pid_of k) /\
  (forall k l, in_crit (at_ s' k) = true -> in_crit (at_ s' l) = true -> k = l) /\
  (sl_locked s' = 0 \/ sl_locked s' = 1 /\ exists k, in_crit (at_ s' k) = true).
Proof.
  intros Hi R. pose proof (si_one _ Hi) as Ho. pose proof (si_held _ Hi) as Hh. pose proof (si_crit _ Hi) as Hc.
  assert (Hkeep : forall p, in_crit p = in_crit (at_ s i) -> forall k, in_crit (upd (at_ s) i p k) = in_crit (at_ s k))
    by (intros p E k; by upd_cases).
  assert (Hsame : forall p, in_crit p = in_crit (at_ s i) ->
    (forall k, in_crit (upd (at_ s) i p k) = true -> sl_locked s = 1 /\ sl_pid s = pid_of k) /\
    (forall k l, in_crit (upd (at_ s) i p k) = true -> in_crit (upd (at_ s) i p l) = true -> k = l) /\
    (sl_locked s = 0 \/ sl_locked s = 1 /\ exists k, in_crit (upd (at_ s) i p k) = true)).
  { intros p E. pose proof (Hkeep p E) as Hk. split_and!.
    - intros k. rewrite Hk. apply Hc.
    - intros k l. rewrite !Hk. apply Ho.
    - destruct Hh as [?|[? [k ?]]]; [by left|right]. split; [done|]. exists k. by rewrite Hk. }
  go_cases R; try (apply Hsame; by rewrite ?Hat).
  - (* taken *) apply negb_false_iff, Z.eqb_eq in Hif.
    assert (Hno : forall k, in_crit (at_ s k) = true -> False) by (intros k [? _]%Hc; lia).
    split_and!.
    + intros k. upd_cases; [done|]. intros Hk. by destruct (Hno k).
    + intros k l. upd_cases; try done; intros Hk Hl; (by destruct (Hno _ Hk)) || (by destruct (Hno _ Hl)).
    + right. split; [done|]. exists i. by rewrite upd_eq.
  - (* released *) assert (Hno : forall k, in_crit (upd (at_ s) i (Wake 0) k) = true -> False).
    { intros k. upd_cases; [done|]. intros Hk. apply Hne. apply Ho; [done|]. by rewrite Hat. }
    split_and!; [intros k Hk; by destruct (Hno k)|intros k l Hk; by destruct (Hno k)|by left].
Qed.

Lemma wait_step s i s' : sl_inv s -> go i s = Ret tt s' ->
  forall k, at_ s' k = SlpLock \/ at_ s' k = SlpRel -> sl_locked s' = 1.
Proof.
  intros Hi R k. pose proof (si_wait _ Hi k) as Hk. pose proof (si_wait _ Hi i) as Hii. pose proof (si_held _ Hi) as Hh.
  pose proof (lk_alone s i k Hi) as Ha.
  go_cases R; upd_cases; rewrite ?Hat in *; cbn in *; try (by intros [?|?]); try (by intros; apply Hk); try (by intros; apply Hii; auto).
  - intros _. apply negb_true_iff, Z.eqb_neq in Hif. destruct Hh as [?|[? _]]; [lia|done].
  - intros [E|E]; rewrite E in Ha; cbn in Ha; destruct Hne; by rewrite Ha.
Qed.

Lemma out_step s i s' : sl_inv s -> go i s = Ret tt s' -> forall k, (N <= k)%nat -> at_ s' k = Out.
Proof. intros Hi R k Hk. pose proof (si_out _ Hi k Hk). go_cases R; upd_cases; try done; lia. Qed.

Definition waker (p : place) : bool := match p with Wake _ | WakeIn _ => true | _ => false end.

Lemma waker_lk p : waker p = true -> holds_lk p = true.
Proof. by destruct p. Qed.

(** A step of a process that is not waking others leaves their wakeups coming. *)
Lemma coming_keep (s : sys) i p k :
  waker (at_ s i) = false -> coming s k ->
  exists w j, (upd (at_ s) i p w = Wake j \/ upd (at_ s) i p w = WakeIn j) /\ (j <= k)%nat.
Proof.
  intros Hw (w & j & Hj & Hle). exists w, j. split; [|done]. rewrite upd_ne; [done|].
  intros ->. destruct Hj as [E|E]; rewrite E in Hw; done.
Qed.

(** With a waker at work it is the only one. *)
Lemma coming_from s i j k :
  sl_inv s -> at_ s i = Wake j \/ at_ s i = WakeIn j -> coming s k -> (j <= k)%nat.
Proof.
  intros Hi Hj (w & l & Hl & Hle). assert (i = w) as <-.
  { apply (lk_alone s); [done|by destruct Hj as [->| ->]|by destruct Hl as [->| ->]]. }
  destruct Hj as [Hj|Hj], Hl as [Hl|Hl]; rewrite Hj in Hl; congruence || (injection Hl as ->; done).
Qed.

Lemma pend_waker s i j s' : sl_inv s -> at_ s i = Wake j \/ at_ s i = WakeIn j -> go i s = Ret tt s' ->
  forall k, pending s' k -> sl_locked s' = 1 \/ coming s' k.
Proof.
  intros Hi Hw R k. pose proof (si_pend _ Hi k) as Hp. pose proof (coming_from s i j k Hi Hw) as Hcf.
  pose proof (si_out _ Hi k) as Ho. pose proof (si_state _ Hi k) as Hst.
  pose proof (si_pl _ Hi j k) as Hpl. pose proof (si_pl _ Hi j i) as Hpi.
  unfold pending, state_ok in *. unfold coming.
  destruct Hw as [Hw|Hw]; unfold go, take_plock in R; rewrite Hw in R;
    (destruct (Nat.ltb_spec i N); cbn [negb] in R; [|done]).
  - destruct (Nat.ltb_spec j N) as [Hlt|Hge].
    + destruct (Nat.eqb_spec j i) as [->|Hji].
      * injection R as <-. cbn. upd_cases; [naive_solver|]. intros H'. destruct (Hp H') as [?|Hc]; [by left|right].
        exists i, (S i). rewrite upd_eq. split; [by left|]. specialize (Hcf Hc). lia.
      * destruct (plock s j) eqn:Epl; [done|]. injection R as <-. cbn. upd_cases; [naive_solver|]. intros H'.
        destruct (Hp H') as [?|Hc]; [by left|right]. exists i, j. rewrite upd_eq. split; [by right|by apply Hcf].
    + injection R as <-. cbn. upd_cases; [naive_solver|]. intros H'. destruct (Hp H') as [?|Hc]; [by left|].
      specialize (Hcf Hc). rewrite Ho in H' by lia. naive_solver.
  - assert (Epl : plock s j = Some i) by (apply Hpi; by rewrite Hw).
    assert (Hj : k = j -> pending s' k -> False).
    { intros -> H'. unfold pending in H'. destruct (decide (j = i)) as [->|Hne]; [by apply (si_self _ Hi i)|].
      destruct (decide (pstate s j = SLEEPING)) as [E|E].
      - destruct (at_ s j) eqn:Eat; cbn in *; try congruence; [naive_solver|]. destruct Hst as [_ Hch].
        rewrite Hch in R. injection R as <-. cbn in H'. rewrite upd_ne, upd_eq, Eat in H' by done. naive_solver.
      - injection R as <-. cbn in H'. rewrite upd_ne in H' by done. destruct (at_ s j); cbn in *; naive_solver. }
    intros H'. assert (Hkj : k <> j) by (intros ->; by apply Hj).
    assert (Hold : pending s k /\ sl_locked s' = sl_locked s /\ at_ s' i = Wake (S j)).
    { unfold pending. destruct (decide (pstate s j = SLEEPING)); [destruct (pchan s j)|]; injection R as <-; cbn in *;
        rewrite upd_eq; (destruct (decide (k = i)) as [->|Hki]; [rewrite upd_eq in H'; naive_solver|]);
        rewrite ?(upd_ne _ _ k _ Hki), ?(upd_ne _ _ k _ Hkj) in H'; done. }
    destruct Hold as (Hold & El & Ei). rewrite El. destruct (Hp Hold) as [?|Hc]; [by left|right].
    exists i, (S j). split; [by left|]. specialize (Hcf Hc). lia.
Qed.

Lemma pend_step s i s' : sl_inv s -> go i s = Ret tt s' -> forall k, pending s' k -> sl_locked s' = 1 \/ coming s' k.
Proof.
  intros Hi R. destruct (waker (at_ s i)) eqn:Hw.
  { destruct (at_ s i) as [| | | | | | | | | | | | |j|j] eqn:E; try done; eapply (pend_waker s i j); try done; auto. }
  intros k. pose proof (si_pend _ Hi k) as Hp. pose proof (si_pend _ Hi i) as Hpi. pose proof (si_wait _ Hi i) as Hwt.
  pose proof (fun p => coming_keep s i p k Hw) as Hck. unfold coming. unfold pending in *.
  assert (Hother : forall p, pending s k -> sl_locked s = 1 \/
    exists w j, (upd (at_ s) i p w = Wake j \/ upd (at_ s) i p w = WakeIn j) /\ (j <= k)%nat).
  { intros p H'. destruct (Hp H') as [?|Hc]; [by left|right; by apply Hck]. }
  assert (Hself : forall p, pending s i -> k = i -> sl_locked s = 1 \/
    exists w j, (upd (at_ s) i p w = Wake j \/ upd (at_ s) i p w = WakeIn j) /\ (j <= k)%nat).
  { intros p H' ->. by apply Hother. }
  unfold pending in *.
  go_cases R; try done; upd_cases; rewrite ?Hat in *;
    try (by intros [?|[?|[??]]]); try (by apply Hother); try (by intros _; apply Hself; auto);
    try (by intros _; left; auto); try (by intros [?|[?|[_ ?]]]; [done|done|apply Hself; auto]).
  all: intros _; right; exists i, O; rewrite upd_eq; (split; [by left|lia]).
Qed.

Lemma sl_step_inv s s' : sl_inv s -> sl_step s s' -> sl_inv s'.
Proof.
  intros Hi [i s1 R]. destruct (crit_step s i s1 Hi R) as (? & ? & ?).
  split; [by eapply lk_step|by eapply pl_step|by eapply self_step|done|done|done|by eapply state_step|by eapply wait_step
         |by eapply pend_step|by eapply out_step].
Qed.

Lemma sl_reachable_inv s : sl_reachable s -> sl_inv s.
Proof.
  induction 1 as [|s s' _ IH Hs]; [|by eapply sl_step_inv].
  split; cbn; try done; [by left|by intros i [?|?]|]. intros i [?|[?|[??]]]; done.
Qed.

(** Every place but a few can always move on. *)
Lemma can_go s i : (i < N)%nat ->
  match at_ s i with
  | Out | Test | SlpRel | SlpSet | SlpSched | Woken | Crit | RelSet | WakeIn _ => True
  | AcqLk | Reacq | RelLk => sl_lk s = None
  | SlpLock => plock s i = None
  | Parked => pstate s i = RUNNABLE /\ plock s i = None
  | Wake j => (N <= j)%nat \/ j = i \/ plock s j = None
  end -> exists s', go i s = Ret tt s'.
Proof.
  intros Hn. unfold go, take_lk, take_plock. destruct (Nat.ltb_spec i N); [cbn [negb]|lia].
  destruct (at_ s i) as [| | | | | | | | | | | | |j|j]; intros H'; try (by eexists).
  - rewrite H'. by eexists.
  - destruct (negb _); by eexists.
  - rewrite H'. by eexists.
  - destruct H' as [-> H']. cbn. rewrite H'. by eexists.
  - rewrite H'. by eexists.
  - rewrite H'. by eexists.
  - destruct (Nat.ltb_spec j N); [|by eexists]. destruct (Nat.eqb_spec j i); [by eexists|].
    destruct H' as [?|[?| ->]]; [lia|done|by eexists].
Qed.

(** The holder of a process lock can always move on. *)
Lemma plock_holder_goes s j v : sl_inv s -> plock s j = Some v -> exists s', go v s = Ret tt s'.
Proof.
  intros Hi Hv%(si_pl _ Hi). apply can_go.
  - destruct (Nat.lt_ge_cases v N) as [|Hge]; [done|]. rewrite (si_out _ Hi v Hge) in Hv. done.
  - by destruct (at_ s v).
Qed.

Lemma inside_lt s i : sl_inv s -> at_ s i <> Out -> (i < N)%nat.
Proof. intros Hi Hne. destruct (Nat.lt_ge_cases i N) as [|Hge]; [done|]. by destruct (Hne (si_out _ Hi i Hge)). Qed.

(** The holder of the spin lock, or one whom it waits for, can move on. *)
Lemma lk_holder_goes s i : sl_inv s -> sl_lk s = Some i -> exists v s', at_ s v <> Out /\ go v s = Ret tt s'.
Proof.
  intros Hi Hl. pose proof (proj1 (si_lk _ Hi i) Hl) as Hh.
  assert (Hne : at_ s i <> Out) by (intros E; by rewrite E in Hh).
  assert (Hpl : forall j, plock s j = None \/ exists v s', at_ s v <> Out /\ go v s = Ret tt s').
  { intros j. destruct (plock s j) as [v|] eqn:E; [right|by left]. destruct (plock_holder_goes s j v Hi E) as [s' R].
    exists v, s'. split; [|done]. intros E'. apply (si_pl _ Hi) in E. by rewrite E' in E. }
  pose proof (can_go s i (inside_lt s i Hi Hne)) as Hgo.
  assert (Hdone : (exists s', go i s = Ret tt s') -> exists v s', at_ s v <> Out /\ go v s = Ret tt s')
    by (intros [s' R]; by exists i, s').
  destruct (at_ s i) as [| | | | | | | | | | | | |j|j]; try done; try (by apply Hdone, Hgo).
  - destruct (Hpl i) as [E|?]; [by apply Hdone, Hgo|done].
  - destruct (Hpl j) as [E|?]; [by apply Hdone, Hgo; auto|done].
Qed.

(** C10: in every interleaving of [acquiresleep] and [releasesleep] by
    any number of processes: at most one holds the sleep lock; [holdingsleep]
    is true for a holder, and (pids being distinct) for nobody else; and no
    wakeup is lost: while the lock is free and nobody is inside its spin lock, no
    process is asleep. *)
Theorem sleeplock_safe s i k :
  sl_reachable s -> (forall a b, pid_of a = pid_of b -> a = b) ->
  (in_crit (at_ s i) = true -> in_crit (at_ s k) = true -> i = k) /\
  (holdingsleep s i = true <-> in_crit (at_ s i) = true) /\
  (sl_locked s = 0 -> sl_lk s = None -> pstate s i <> SLEEPING).
Proof.
  intros Hi%sl_reachable_inv Hinj. split_and!.
  - apply (si_one _ Hi).
  - unfold holdingsleep. rewrite andb_true_iff, negb_true_iff, Z.eqb_neq, Z.eqb_eq. split.
    + intros [Hl Hp]. destruct (si_held _ Hi) as [?|[_ [j Hj]]]; [done|]. destruct (si_crit _ Hi j Hj) as [_ E].
      assert (i = j) as -> by (apply Hinj; congruence). done.
    + intros Hc. destruct (si_crit _ Hi i Hc) as [-> ->]. done.
  - intros H0 Hl Hs. pose proof (si_state _ Hi i) as Hst. unfold state_ok in Hst.
    assert (Hp : pending s i) by (unfold pending; destruct (at_ s i); try congruence; auto).
    destruct (si_pend _ Hi i Hp) as [?|(w & j & Hw & _)]; [lia|].
    assert (sl_lk s = Some w) by (apply (si_lk _ Hi); by destruct Hw as [->| ->]). congruence.
Qed.

(** C14: no deadlock: in every reachable state in which some
    process is in [acquiresleep] or [releasesleep] or holds the lock, some such
    process can take a step. *)
Theorem sleeplock_progress s i :
  sl_reachable s -> at_ s i <> Out -> exists v s', at_ s v <> Out /\ go v s = Ret tt s'.
Proof.
  intros Hi%sl_reachable_inv Hne. destruct (sl_lk s) as [w|] eqn:El; [by apply (lk_holder_goes s w)|].
  assert (Hnolk : forall v, holds_lk (at_ s v) = true -> False) by (intros v Hv%(si_lk _ Hi); congruence).
  pose proof (can_go s i (inside_lt s i Hi Hne)) as Hgo.
  assert (Hdone : (exists s', go i s = Ret tt s') -> exists v s', at_ s v <> Out /\ go v s = Ret tt s')
    by (intros [s' R]; by exists i, s').
  pose proof (Hnolk i) as Hni. pose proof (si_state _ Hi i) as Hst. unfold state_ok in Hst.
  destruct (at_ s i) eqn:Hat; try done; try (by apply Hdone, Hgo); try (by destruct Hni).
  destruct Hst as [[Hs|Hr] _].
  - assert (Hp : pending s i) by (unfold pending; auto).
    destruct (si_pend _ Hi i Hp) as [Hlk|(w & j & Hw & _)]; [|by destruct (Hnolk w); destruct Hw as [->| ->]].
    destruct (si_held _ Hi) as [?|[_ [c Hc]]]; [lia|].
    assert (Hcne : at_ s c <> Out) by (intros E; by rewrite E in Hc).
    destruct (can_go s c (inside_lt s c Hi Hcne)) as [s' R]; [by destruct (at_ s c)|by exists c, s'].
  - apply Hdone, Hgo. split; [done|]. destruct (plock s i) as [v|] eqn:E; [|done]. apply (si_pl _ Hi) in E.
    exfalso. apply (Hnolk v). destruct (at_ s v) eqn:Ev; try done; cbn in E; injection E as ->; congruence.
Qed.

Fixpoint run_go (l : list nat) (s : sys) : sys :=
  match l with
  | [] => s
  | i :: l => match go i s with Ret _ s' => run_go l s' | _ => s end
  end.

Lemma run_go_reachable l s : sl_reachable s -> sl_reachable (run_go l s).
Proof.
  revert s. induction l as [|i l IH]; intros s Hs; [done|]. cbn. destruct (go i s) as [[] s'| | |] eqn:E; try done.
  apply IH. by eapply slr_step, sl_go.
Qed.
End sleeplock.

(** Process 0 takes the lock, process 1 goes to sleep on it, process 0 releases it
    and wakes process 1. *)
Definition demo_pid (i : nat) : Z := Z.of_nat i + 1.
Definition schedule : list nat := [0; 0; 0; 1; 1; 1; 1; 1; 1; 1; 0; 0; 0; 0; 0; 0; 0]%nat.

Lemma sleeplock_witness :
  let s := run_go 2 demo_pid schedule fresh in
  sl_locked s = 0 /\ sl_lk s = None /\ at_ s 1%nat = Parked /\ pstate s 1%nat <> SLEEPING.
Proof.
  split_and!; [reflexivity..|].
  apply (sleeplock_safe 2 demo_pid (run_go 2 demo_pid schedule fresh) 1 1); [|unfold demo_pid; lia|reflexivity..].
  apply run_go_reachable. constructor.
Defined.

Lemma sleeplock_progress_witness :
  exists v s', at_ (run_go 2 demo_pid schedule fresh) v <> Out /\ go 2 demo_pid v (run_go 2 demo_pid schedule fresh) = Ret tt s'.
Proof.
  apply (sleeplock_progress 2 demo_pid (run_go 2 demo_pid schedule fresh) 1); [|discriminate].
  apply run_go_reachable. constructor.
Defined.
