(* ===== verification/Pipe.v ===== *)
(** Pipes, kernel/pipe.c.

    A pipe is a ring of [PIPESIZE] bytes with two 32-bit counters that wrap
    around.  [pipewrite] and [piperead] run under the pipe's lock up to their
    return or to a [sleep], which gives the lock up; they are cut there, and the
    part that follows a sleep starts from the state the pipe then has.  [queue]
    reads the ring back as the list of bytes in transit. *)
From S2P Require Import Prelude Riscv PhysMem Kalloc PageTable PtTree PtMap PtUser.
From S2P Require Import Memstat Proc FsIface Swap VmFault UserCopy.

Definition PIPESIZE : Z := 512.

Record pipe : Type := mkPipe { data : list Z; nread : Z; nwrite : Z; readopen : Z; writeopen : Z }.

(** The channels [&pi->nread] and [&pi->nwrite]. *)
Inductive pipe_chan : Type := CNread | CNwrite.

(** A process, the pipes by address, and the wakeups sent so far. *)
Record pst (F : Type) : Type := mkPst { pk : kst F; pipes : Z -> pipe; woken : list (Z * pipe_chan) }.
Arguments mkPst {F}.
Arguments pk {F}.
Arguments pipes {F}.
Arguments woken {F}.

(** How a part of a call ends: it returns, or sleeps having moved [i] bytes. *)
Inductive part : Type := Returns (r : Z) | Sleeps (i : Z) (c : pipe_chan).

Definition full (pi : pipe) : bool := nwrite pi =? u32 (nread pi + PIPESIZE).
Definition empty (pi : pipe) : bool := nread pi =? nwrite pi.

(** [pi->data[pi->nwrite++ % PIPESIZE] = ch] *)
Definition push (ch : Z) (pi : pipe) : pipe :=
  mkPipe (<[Z.to_nat (nwrite pi mod PIPESIZE) := ch]> (data pi)) (nread pi) (u32 (nwrite pi + 1)) (readopen pi) (writeopen pi).
(** [pi->data[pi->nread % PIPESIZE]] and [pi->nread++] *)
Definition front (pi : pipe) : Z := data pi !!! Z.to_nat (nread pi mod PIPESIZE).
Definition pop (pi : pipe) : pipe := mkPipe (data pi) (u32 (nread pi + 1)) (nwrite pi) (readopen pi) (writeopen pi).

Section pipe.
Context `{HL : Layout} {F : Type} `{FO : !FsOps F} `{PO : !Policy}.

Definition on_k {A} (m : M (kst F) A) : M (pst F) A :=
  zoom pk (fun k s => mkPst k (pipes s) (woken s)) m.
Definition get_pipe (a : Z) : M (pst F) pipe := gets (fun s => pipes s a).
Definition set_pipe (a : Z) (pi : pipe) : M (pst F) unit :=
  modS (fun s => mkPst (pk s) (fun x => if x =? a then pi else pipes s x) (woken s)).
Definition wakeup (a : Z) (c : pipe_chan) : M (pst F) unit :=
  modS (fun s => mkPst (pk s) (pipes s) (woken s ++ [(a, c)])).

Definition pipeclose (a : Z) (writable : bool) : M (pst F) unit :=
  pi ← get_pipe a;
  _ ← (if writable then
         _ ← set_pipe a (mkPipe (data pi) (nread pi) (nwrite pi) (readopen pi) 0); wakeup a CNread
       else
         _ ← set_pipe a (mkPipe (data pi) (nread pi) (nwrite pi) 0 (writeopen pi)); wakeup a CNwrite);
  pi ← get_pipe a;
  if (readopen pi =? 0) && (writeopen pi =? 0) then on_k (vm (kfree a)) else mret tt.

(** [pipewrite] from the loop head with [i] bytes written. *)
Fixpoint pipewrite_loop (fuel : nat) (a addr n i : Z) : M (pst F) part :=
  match fuel with
  | O => diverge
  | S fuel =>
      if i <? n then
        pi ← get_pipe a;
        kl ← on_k killed;
        if (readopen pi =? 0) || negb (kl =? 0) then mret (Returns (-1))
        else if full pi then _ ← wakeup a CNread; mret (Sleeps i CNwrite)
        else
          p ← on_k myproc;
          r ← on_k (copyin (pagetable p) (u64 (addr + i)) 1);
          let '(rc, bs) := r in
          if rc =? -1 then _ ← wakeup a CNread; mret (Returns i)
          else _ ← set_pipe a (push (hd 0 bs) pi); pipewrite_loop fuel a addr n (i + 1)
      else _ ← wakeup a CNread; mret (Returns i)
  end.

Definition pipewrite (a addr n i : Z) : M (pst F) part := pipewrite_loop (S (Z.to_nat (n - i))) a addr n i.

(** The copying loop of [piperead]. *)
Fixpoint piperead_loop (fuel : nat) (a addr n i : Z) : M (pst F) Z :=
  match fuel with
  | O => diverge
  | S fuel =>
      if i <? n then
        pi ← get_pipe a;
        if empty pi then mret i
        else
          p ← on_k myproc;
          rc ← on_k (copyout (pagetable p) (u64 (addr + i)) [front pi]);
          if rc =? -1 then mret (if i =? 0 then -1 else i)
          else _ ← set_pipe a (pop pi); piperead_loop fuel a addr n (i + 1)
      else mret i
  end.

(** [piperead] from the loop that waits for data. *)
Definition piperead (a addr n : Z) : M (pst F) part :=
  pi ← get_pipe a;
  if empty pi && negb (writeopen pi =? 0) then
    kl ← on_k killed;
    if negb (kl =? 0) then mret (Returns (-1)) else mret (Sleeps 0 CNread)
  else
    i ← piperead_loop (S (Z.to_nat n)) a addr n 0;
    _ ← wakeup a CNwrite;
    mret (Returns i).
End pipe.

(** ** The ring as a queue *)
Definition in_transit (pi : pipe) : Z := (nwrite pi - nread pi) mod 2 ^ 32.

Definition queue (pi : pipe) : list Z :=
  (fun k => data pi !!! Z.to_nat ((nread pi + k) mod PIPESIZE)) <$> zseq 0 (Z.to_nat (in_transit pi)) 1.

Record pipe_inv (pi : pipe) : Prop := {
  pp_len : length (data pi) = Z.to_nat PIPESIZE;
  pp_read : 0 <= nread pi < 2 ^ 32;
  pp_write : 0 <= nwrite pi < 2 ^ 32;
  pp_size : in_transit pi <= PIPESIZE;
  pp_bytes : is_bytes (data pi)
}.

Lemma length_queue pi : length (queue pi) = Z.to_nat (in_transit pi).
Proof. unfold queue. by rewrite length_fmap, length_zseq. Qed.

Lemma mod_u32 x : u32 x mod PIPESIZE = x mod PIPESIZE.
Proof.
  unfold u32, PIPESIZE. replace (2 ^ 32) with (512 * 8388608) by done.
  rewrite Z.rem_mul_r by lia. rewrite Z.mul_comm, Z.mod_add by lia. apply Z.mod_mod. lia.
Qed.

(** The tests of the code decide whether the queue is full, or empty. *)
Lemma full_spec pi : pipe_inv pi -> full pi = true <-> in_transit pi = PIPESIZE.
Proof.
  intros [_ Hr Hw _ _]. unfold full, in_transit, u32, PIPESIZE. rewrite Z.eqb_eq.
  Z.to_euclidean_division_equations. lia.
Qed.

Lemma empty_spec pi : pipe_inv pi -> empty pi = true <-> in_transit pi = 0.
Proof.
  intros [_ Hr Hw _ _]. unfold empty, in_transit. rewrite Z.eqb_eq. Z.to_euclidean_division_equations. lia.
Qed.

Lemma in_transit_range pi : 0 <= in_transit pi < 2 ^ 32.
Proof. apply Z.mod_pos_bound. lia. Qed.

Lemma in_transit_push pi ch : pipe_inv pi -> full pi = false -> in_transit (push ch pi) = in_transit pi + 1.
Proof.
  intros I Hf. assert (in_transit pi <> PIPESIZE) by (rewrite <- full_spec by done; by rewrite Hf).
  destruct I as [_ Hr Hw Hs _]. revert Hs H. unfold in_transit, push, u32, PIPESIZE. cbn [nwrite nread].
  intros. Z.to_euclidean_division_equations. lia.
Qed.

Lemma in_transit_pop pi : pipe_inv pi -> empty pi = false -> in_transit (pop pi) = in_transit pi - 1.
Proof.
  intros I Hf. assert (in_transit pi <> 0) by (rewrite <- empty_spec by done; by rewrite Hf).
  destruct I as [_ Hr Hw Hs _]. revert Hs H. unfold in_transit, pop, u32, PIPESIZE. cbn [nwrite nread].
  intros. Z.to_euclidean_division_equations. lia.
Qed.

Lemma push_queue pi ch :
  pipe_inv pi -> full pi = false -> 0 <= ch < 256 ->
  pipe_inv (push ch pi) /\ queue (push ch pi) = queue pi ++ [ch].
Proof.
  intros I Hf Hch. pose proof (in_transit_push pi ch I Hf) as E. pose proof (in_transit_range pi) as Hi.
  assert (Hne : in_transit pi <> PIPESIZE) by (rewrite <- full_spec by done; by rewrite Hf).
  destruct I as [Hl Hr Hw Hs Hb].
  assert (Ew : (nread pi + in_transit pi) mod PIPESIZE = nwrite pi mod PIPESIZE).
  { revert Hs. unfold in_transit, PIPESIZE. intros. Z.to_euclidean_division_equations. lia. }
  split.
  - split; cbn [data nread nwrite push]; [by rewrite length_insert|done|apply u32_range|lia|by apply Forall_insert].
  - unfold queue. rewrite E. replace (Z.to_nat (in_transit pi + 1)) with (Z.to_nat (in_transit pi) + 1)%nat by lia.
    rewrite zseq_app, fmap_app. f_equal.
    + apply list_fmap_ext. intros i x Hx. apply list_elem_of_lookup_2, elem_of_zseq in Hx as (j & Hj & ->).
      cbn [push data nread]. apply list_lookup_total_insert_ne. rewrite Z2Nat.inj_iff by (apply Z.mod_pos_bound; done).
      rewrite <- Ew. unfold PIPESIZE in *. Z.to_euclidean_division_equations. lia.
    + cbn [zseq seq fmap list_fmap push data nread]. f_equal. rewrite Z2Nat.id by lia.
      replace (nread pi + (0 + 1 * in_transit pi + 1 * Z.of_nat 0)) with (nread pi + in_transit pi) by lia. rewrite Ew.
      apply list_lookup_total_insert_eq. rewrite Hl. pose proof (Z.mod_pos_bound (nwrite pi) PIPESIZE ltac:(done)). lia.
Qed.

Lemma pop_queue pi :
  pipe_inv pi -> empty pi = false -> pipe_inv (pop pi) /\ queue pi = front pi :: queue (pop pi).
Proof.
  intros I Hf. pose proof (in_transit_pop pi I Hf) as E. pose proof (in_transit_range pi) as Hi.
  assert (Hne : in_transit pi <> 0) by (rewrite <- empty_spec by done; by rewrite Hf).
  destruct I as [Hl Hr Hw Hs Hb]. split.
  - split; cbn [data nread nwrite pop]; [done|apply u32_range|done|lia|done].
  - unfold queue. rewrite E. replace (Z.to_nat (in_transit pi)) with (S (Z.to_nat (in_transit pi - 1))) by lia.
    rewrite zseq_S, fmap_cons. f_equal; [unfold front; by rewrite Z.add_0_r|].
    unfold zseq. rewrite <- !list_fmap_compose. apply list_fmap_ext. intros i x _. unfold compose.
    cbn [pop data nread]. do 2 f_equal. rewrite <- (Zplus_mod_idemp_l (u32 _)), mod_u32, Zplus_mod_idemp_l.
    f_equal. lia.
Qed.

(** ** Reading and writing *)
Section pipe_correct.
Context `{HL : Layout} `{!LayoutOk} {F : Type} `{FO : !FsOps F} {PO : Policy}.

Lemma on_k_Ret {A} (m : M (kst F) A) s a k' :
  m (pk s) = Ret a k' -> on_k m s = Ret a (mkPst k' (pipes s) (woken s)).
Proof. intros E. unfold on_k. by rewrite (zoom_Ret _ _ _ _ _ _ E). Qed.

(** [s'] is [s] but for the pipe at [a] and the wakeup of [c]. *)
Record pipe_only (a : Z) (c : pipe_chan) (s s' : pst F) : Prop := {
  po_other : forall b, b <> a -> pipes s' b = pipes s b;
  po_woken : woken s' = woken s ++ [(a, c)];
  po_open : readopen (pipes s' a) = readopen (pipes s a) /\ writeopen (pipes s' a) = writeopen (pipes s a)
}.

Lemma pipewrite_run fuel a addr n i (s : pst F) root Fr lim :
  as_inv (k_pm (pk s)) root Fr lim -> root = pagetable (k_p (pk s)) -> killed (pk s) = Ret 0 (pk s) ->
  pipe_inv (pipes s a) -> readopen (pipes s a) <> 0 ->
  0 <= addr -> 0 <= i <= n -> addr + n <= lim -> (Z.to_nat (n - i) < fuel)%nat ->
  (forall x, addr + i <= x < addr + n -> readable (pm_mem (k_pm (pk s))) root x) ->
  let m := Z.min (n - i) (PIPESIZE - in_transit (pipes s a)) in
  exists s', pipewrite_loop fuel a addr n i s = Ret (if i + m =? n then Returns n else Sleeps (i + m) CNwrite) s' /\
    pipe_inv (pipes s' a) /\
    queue (pipes s' a) = queue (pipes s a) ++ ubytes (pm_mem (k_pm (pk s))) root (addr + i) (Z.to_nat m) /\
    pk s' = pk s /\ pipe_only a CNread s s'.
Proof.
  intros Has Hroot Hkill. revert i s Has Hroot Hkill. induction fuel as [|fuel IH];
    intros i s Has Hroot Hkill Hinv Hopen Hadr Hi Hlim Hfuel Hrd m; [lia|].
  pose proof (as_lim _ _ _ _ Has). pose proof MAXVA_eq. pose proof (in_transit_range (pipes s a)) as Hit.
  cbn [pipewrite_loop]. destruct (Z.ltb_spec i n) as [Hlt|].
  2:{ assert (i = n) as -> by lia. assert (m = 0) as -> by (pose proof (pp_size _ Hinv); lia).
      rewrite Z.add_0_r, Z.eqb_refl. eexists. split; [reflexivity|]. cbn [pipes pk]. split; [done|]. split; [cbn; by rewrite app_nil_r|]. by split. }
  change ((get_pipe a ≫= ?h) s) with (h (pipes s a) s). cbv beta.
  rewrite (bind_Ret _ _ _ _ _ (on_k_Ret killed s 0 (pk s) Hkill)).
  rewrite (proj2 (Z.eqb_neq _ 0) Hopen). cbn [orb Z.eqb negb].
  destruct (full (pipes s a)) eqn:Hf.
  { apply full_spec in Hf as Hfs; [|done]. assert (m = 0) as -> by lia. rewrite Z.add_0_r, (proj2 (Z.eqb_neq i n)) by lia.
    eexists. split; [by destruct s|]. cbn [pipes pk]. split; [done|]. split; [cbn; by rewrite app_nil_r|]. by split. }
  assert (Hne : in_transit (pipes s a) <> PIPESIZE) by (rewrite <- full_spec by done; by rewrite Hf).
  pose proof (pp_size _ Hinv) as Hsz.
  set (s0 := {| pk := pk s; pipes := pipes s; woken := woken s |}).
  rewrite (bind_Ret _ _ _ _ _ (on_k_Ret myproc s0 (k_p (pk s)) (pk s) eq_refl)). cbn [pk pipes woken].
  rewrite u64_small by lia. rewrite <- Hroot.
  set (b := ubyte (pm_mem (k_pm (pk s))) root (addr + i)).
  assert (R : copyin root (addr + i) 1 (pk s) = Ret (0, [b]) (pk s)).
  { rewrite (copyin_run (pk s) root Fr lim (addr + i) 1 Has ltac:(lia) ltac:(lia) ltac:(lia)
      (fun x Hx => Hrd x ltac:(lia))). unfold b, ubytes, zseq. change (Z.to_nat 1) with 1%nat. cbn [fmap list_fmap seq].
    by replace (addr + i + 1 * Z.of_nat 0) with (addr + i) by lia. }
  rewrite (bind_Ret _ _ _ _ _ (on_k_Ret _ {| pk := pk s; pipes := pipes s0; woken := woken s0 |} _ _ R)).
  cbn [Z.eqb hd].
  destruct (push_queue (pipes s a) b Hinv Hf ltac:(apply Z.mod_pos_bound; lia)) as [Hinv' Hq]. pose proof (in_transit_push _ b Hinv Hf) as Ht.
  set (s1 := mkPst (pk s) (fun x => if x =? a then push b (pipes s a) else pipes s x) (woken s)).
  change ((set_pipe a _ ≫= ?h) _) with (h tt s1). cbv beta.
  assert (E1 : pipes s1 a = push b (pipes s a)) by (unfold s1; cbn [pipes]; by rewrite Z.eqb_refl).
  destruct (IH (i + 1) s1) as (s' & R' & HI & HQ & HK & HP); try done; rewrite ?E1; try done; try lia.
  { intros x Hx. apply Hrd. lia. }
  exists s'. rewrite E1, Ht in *. split_and!; [| | |rewrite HK; done|].
  - rewrite R'. unfold m.
    replace (i + 1 + Z.min (n - (i + 1)) (PIPESIZE - (in_transit (pipes s a) + 1)))
      with (i + Z.min (n - i) (PIPESIZE - in_transit (pipes s a))) by lia. done.
  - done.
  - rewrite HQ, Hq, <- app_assoc. f_equal. cbn [pk s1].
    replace (Z.to_nat m) with (S (Z.to_nat (Z.min (n - (i + 1)) (PIPESIZE - (in_transit (pipes s a) + 1))))) by lia.
    unfold ubytes. rewrite zseq_S. cbn [app fmap list_fmap]. by rewrite Z.add_assoc.
  - destruct HP as [Ho Hw Hop]. split; [|done|by rewrite E1 in Hop].
    intros c Hc. rewrite Ho by done. unfold s1. cbn [pipes]. by rewrite (proj2 (Z.eqb_neq c a)).
Qed.

Lemma front_byte pi : pipe_inv pi -> 0 <= front pi < 256.
Proof.
  intros [Hl _ _ _ Hb]. pose proof (Z.mod_pos_bound (nread pi) PIPESIZE ltac:(done)).
  destruct (lookup_lt_is_Some_2 (data pi) (Z.to_nat (nread pi mod PIPESIZE))) as [x Hx]; [lia|].
  unfold front. rewrite (list_lookup_total_correct _ _ _ Hx).
  by eapply (proj1 (list.Forall_forall _ _) Hb), list_elem_of_lookup_2.
Qed.

Lemma take_drop_queue pi m :
  pipe_inv pi -> empty pi = false ->
  take (S m) (queue pi) = front pi :: take m (queue (pop pi)) /\ drop (S m) (queue pi) = drop m (queue (pop pi)).
Proof. intros I He. by destruct (pop_queue pi I He) as [_ ->]. Qed.

Lemma piperead_run fuel a addr n i (s : pst F) root Fr lim :
  as_inv (k_pm (pk s)) root Fr lim -> root = pagetable (k_p (pk s)) -> pipe_inv (pipes s a) ->
  0 <= addr -> 0 <= i <= n -> addr + n <= lim -> (Z.to_nat (n - i) < fuel)%nat ->
  (forall x, addr + i <= x < addr + n -> writable (pm_mem (k_pm (pk s))) root x) ->
  let m := Z.min (n - i) (in_transit (pipes s a)) in
  let got := take (Z.to_nat m) (queue (pipes s a)) in
  exists s', piperead_loop fuel a addr n i s = Ret (i + m) s' /\ pipe_inv (pipes s' a) /\
    queue (pipes s' a) = drop (Z.to_nat m) (queue (pipes s a)) /\
    wrote root lim Fr (addr + i) got (k_pm (pk s)) (k_pm (pk s')) /\
    pk s' = set_pm (k_pm (pk s')) (pk s) /\
    pipe_only a CNwrite s (mkPst (pk s') (pipes s') (woken s' ++ [(a, CNwrite)])).
Proof.
  revert i s. induction fuel as [|fuel IH]; intros i s Has Hroot Hinv Hadr Hi Hlim Hfuel Hwr m got; [lia|].
  pose proof (as_lim _ _ _ _ Has). pose proof MAXVA_eq. pose proof (in_transit_range (pipes s a)) as Hit.
  cbn [piperead_loop].
  assert (Hstop : m = 0 -> exists s', Ret i s = Ret (i + m) s' /\ pipe_inv (pipes s' a) /\
    queue (pipes s' a) = drop (Z.to_nat m) (queue (pipes s a)) /\
    wrote root lim Fr (addr + i) got (k_pm (pk s)) (k_pm (pk s')) /\
    pk s' = set_pm (k_pm (pk s')) (pk s) /\
    pipe_only a CNwrite s (mkPst (pk s') (pipes s') (woken s' ++ [(a, CNwrite)]))).
  { intros E. unfold got. rewrite E, Z.add_0_r. exists s. split; [done|]. split; [done|]. split; [done|].
    split; [by apply wrote_nil|]. by destruct s as [[]]. }
  destruct (Z.ltb_spec i n) as [Hlt|]; [|apply Hstop; lia].
  change ((get_pipe a ≫= ?h) s) with (h (pipes s a) s). cbv beta.
  destruct (empty (pipes s a)) eqn:He; [apply Hstop; apply empty_spec in He; [lia|done]|]. clear Hstop.
  assert (Hne : in_transit (pipes s a) <> 0) by (rewrite <- empty_spec by done; by rewrite He).
  set (s0 := {| pk := pk s; pipes := pipes s; woken := woken s |}).
  rewrite (bind_Ret _ _ _ _ _ (on_k_Ret myproc s (k_p (pk s)) (pk s) eq_refl)).
  rewrite u64_small by lia. rewrite <- Hroot. set (b := front (pipes s a)).
  destruct (copyout_run (pk s) root Fr lim (addr + i) [b] Has ltac:(lia)) as (pm' & R & W); [cbn; lia| | |].
  { constructor; [by apply front_byte|constructor]. }
  { intros x Hx. apply Hwr. cbn in Hx. lia. }
  rewrite (bind_Ret _ _ _ _ _ (on_k_Ret _ {| pk := pk s; pipes := pipes s; woken := woken s |} _ _ R)).
  cbn [Z.eqb]. set (s1 := mkPst (set_pm pm' (pk s)) (fun x => if x =? a then pop (pipes s a) else pipes s x) (woken s)).
  change ((set_pipe a _ ≫= ?h) _) with (h tt s1). cbv beta.
  assert (E1 : pipes s1 a = pop (pipes s a)) by (unfold s1; cbn [pipes]; by rewrite Z.eqb_refl).
  destruct (pop_queue _ Hinv He) as [Hinv' Hq]. pose proof (in_transit_pop _ Hinv He) as Ht.
  destruct (IH (i + 1) s1) as (s' & R' & HI & HQ & HW & HK & HP); rewrite ?E1; try done; try lia.
  { apply W. }
  { intros x Hx. destruct (Hwr x ltac:(lia)) as [[? ?] ?]. unfold writable, readable. cbn [s1 pk k_pm set_pm].
    by rewrite !(wr_pte _ _ _ _ _ _ _ W). }
  rewrite E1, Ht in *. set (m' := Z.min (n - (i + 1)) (in_transit (pipes s a) - 1)) in *.
  assert (Hm : Z.to_nat m = S (Z.to_nat m')) by lia. destruct (take_drop_queue _ (Z.to_nat m') Hinv He) as [Htk Hdr].
  exists s'. rewrite R', Hm, Hdr. split; [f_equal; lia|]. split; [done|]. split; [done|]. split; [|split].
  - unfold got. rewrite Hm, Htk. eapply (wrote_trans _ _ _ _ 1%nat); [cbn; lia|exact W|].
    cbn [drop]. by rewrite <- Z.add_assoc.
  - rewrite HK. done.
  - destruct HP as [Ho Hw Hop]. split; [|done|by rewrite E1 in Hop].
    intros c Hc. specialize (Ho c Hc). cbn [pipes] in *. rewrite Ho. unfold s1. cbn [pipes].
    by rewrite (proj2 (Z.eqb_neq c a)).
Qed.

(** C31: a writer with [n] bytes in readable memory and [i] of
    them already written appends to the queue, in order, as many of the rest as
    the ring has room for; it returns [n] if that is all of them and sleeps
    until a reader makes room otherwise, waking the readers in both cases.  With
    the read end closed it returns -1 and writes nothing. *)
Theorem pipewrite_correct a addr n i (s : pst F) Fr lim :
  as_inv (k_pm (pk s)) (pagetable (k_p (pk s))) Fr lim -> p_killed (p_sched (k_p (pk s))) = 0 ->
  pipe_inv (pipes s a) -> 0 <= addr -> 0 <= i < n -> addr + n <= lim ->
  (forall x, addr + i <= x < addr + n -> readable (pm_mem (k_pm (pk s))) (pagetable (k_p (pk s))) x) ->
  let room := PIPESIZE - in_transit (pipes s a) in
  let m := Z.min (n - i) room in
  if readopen (pipes s a) =? 0 then pipewrite a addr n i s = Ret (Returns (-1)) s
  else exists s',
    pipewrite a addr n i s = Ret (if n - i <=? room then Returns n else Sleeps (i + room) CNwrite) s' /\
    pipe_inv (pipes s' a) /\ pk s' = pk s /\ pipe_only a CNread s s' /\
    queue (pipes s' a) = queue (pipes s a) ++
      ubytes (pm_mem (k_pm (pk s))) (pagetable (k_p (pk s))) (addr + i) (Z.to_nat m).
Proof.
  intros Has Hk Hinv Hadr Hi Hlim Hrd room m.
  assert (Hkill : killed (pk s) = Ret 0 (pk s)) by (unfold killed, gets; by rewrite Hk).
  destruct (Z.eqb_spec (readopen (pipes s a)) 0) as [Hc|Hc].
  - unfold pipewrite. cbn [pipewrite_loop]. destruct (Z.ltb_spec i n); [|lia].
    change ((get_pipe a ≫= ?h) s) with (h (pipes s a) s). cbv beta.
    rewrite (bind_Ret _ _ _ _ _ (on_k_Ret killed s 0 (pk s) Hkill)), Hc. by destruct s.
  - destruct (pipewrite_run (S (Z.to_nat (n - i))) a addr n i s (pagetable (k_p (pk s))) Fr lim)
      as (s' & R & HI & HQ & HK & HP); try done; try lia.
    exists s'. split; [|done]. unfold pipewrite. rewrite R. do 2 f_equal. fold room.
    destruct (Z.leb_spec (n - i) room); destruct (Z.eqb_spec (i + Z.min (n - i) room) n); try lia; try done.
    f_equal. lia.
Qed.

(** a reader of a pipe with bytes in transit, or whose write
    end is closed, gets in its memory, in order, as many of the bytes in transit
    as it asked for, leaves the rest queued, and wakes the writers; its result
    is their number, so it is 0 only at the end of the stream.  With no bytes in
    transit and a writer it sleeps and changes nothing. *)
Theorem piperead_correct a addr n (s : pst F) Fr lim :
  as_inv (k_pm (pk s)) (pagetable (k_p (pk s))) Fr lim -> p_killed (p_sched (k_p (pk s))) = 0 ->
  pipe_inv (pipes s a) -> 0 <= addr -> 0 <= n -> addr + n <= lim ->
  (forall x, addr <= x < addr + n -> writable (pm_mem (k_pm (pk s))) (pagetable (k_p (pk s))) x) ->
  let m := Z.min n (in_transit (pipes s a)) in
  if bool_decide (queue (pipes s a) = []) && negb (writeopen (pipes s a) =? 0)
  then piperead a addr n s = Ret (Sleeps 0 CNread) s
  else exists s', piperead a addr n s = Ret (Returns m) s' /\ pipe_inv (pipes s' a) /\
    queue (pipes s' a) = drop (Z.to_nat m) (queue (pipes s a)) /\
    wrote (pagetable (k_p (pk s))) lim Fr addr (take (Z.to_nat m) (queue (pipes s a))) (k_pm (pk s)) (k_pm (pk s')) /\
    pk s' = set_pm (k_pm (pk s')) (pk s) /\ pipe_only a CNwrite s s'.
Proof.
  intros Has Hk Hinv Hadr Hn Hlim Hwr m.
  assert (Hkill : killed (pk s) = Ret 0 (pk s)) by (unfold killed, gets; by rewrite Hk).
  assert (He : bool_decide (queue (pipes s a) = []) = empty (pipes s a)).
  { apply eq_true_iff_eq. rewrite bool_decide_eq_true, empty_spec by done.
    pose proof (in_transit_range (pipes s a)). rewrite <- length_zero_iff_nil, length_queue. lia. }
  unfold piperead. change ((get_pipe a ≫= ?h) s) with (h (pipes s a) s). cbv beta. rewrite He.
  destruct (empty (pipes s a) && negb (writeopen (pipes s a) =? 0)) eqn:E.
  - rewrite (bind_Ret _ _ _ _ _ (on_k_Ret killed s 0 (pk s) Hkill)). by destruct s.
  - destruct (piperead_run (S (Z.to_nat n)) a addr n 0 s (pagetable (k_p (pk s))) Fr lim)
      as (s' & R & HI & HQ & HW & HK & HP); try done; try lia.
    { intros x Hx. apply Hwr. lia. }
    rewrite Z.sub_0_r, Z.add_0_r in *. rewrite (bind_Ret _ _ _ _ _ R).
    exists (mkPst (pk s') (pipes s') (woken s' ++ [(a, CNwrite)])). split_and!; done.
Qed.

(** Closing one end wakes the other; the page is freed when both are closed. *)
Lemma pipeclose_run a (w : bool) (s : pst F) :
  let pi := pipes s a in
  let pi' := if w then mkPipe (data pi) (nread pi) (nwrite pi) (readopen pi) 0
             else mkPipe (data pi) (nread pi) (nwrite pi) 0 (writeopen pi) in
  let s1 := mkPst (pk s) (fun x => if x =? a then pi' else pipes s x)
              (woken s ++ [(a, if w then CNread else CNwrite)]) in
  pipeclose a w s = (if (readopen pi' =? 0) && (writeopen pi' =? 0) then on_k (vm (kfree a)) s1 else Ret tt s1).
Proof.
  intros pi pi' s1. unfold pipeclose, get_pipe, set_pipe, wakeup, modS, gets, mbind, M_bind, mret, M_ret.
  destruct w; cbn [pipes]; rewrite Z.eqb_refl; fold pi; by destruct ((_ =? 0) && (_ =? 0)).
Qed.
End pipe_correct.
