(* ===== verification/Bytes.v ===== *)
(** Integers in byte arrays, little-endian as RISC-V stores them, for the
    structures the kernel keeps on disk. *)
From S2P Require Import Prelude Riscv PhysMem.

Fixpoint le_val (bs : list Z) : Z := match bs with [] => 0 | b :: bs => b + 256 * le_val bs end.
Fixpoint le_bytes (n : nat) (v : Z) : list Z :=
  match n with O => [] | S n => v mod 256 :: le_bytes n (v / 256) end.

(** The [n]-byte integer at offset [off], and storing one. *)
Definition getn (n : nat) (bs : list Z) (off : nat) : Z := le_val (take n (drop off bs)).
Definition putn (n : nat) (bs : list Z) (off : nat) (v : Z) : list Z :=
  take off bs ++ le_bytes n v ++ drop (off + n) bs.

Definition i16 (x : Z) : Z := (x + 2 ^ 15) mod 2 ^ 16 - 2 ^ 15.

Lemma length_le_bytes n v : length (le_bytes n v) = n.
Proof. revert v. induction n as [|n IH]; intros v; simpl; [done|]. by rewrite IH. Qed.

Lemma le_bytes_bytes n v : is_bytes (le_bytes n v).
Proof.
  revert v. induction n as [|n IH]; intros v; constructor; [apply Z.mod_pos_bound; lia|apply IH].
Qed.

Lemma le_val_bytes n v : le_val (le_bytes n v) = v mod 256 ^ Z.of_nat n.
Proof.
  revert v. induction n as [|n IH]; intros v; cbn [le_bytes le_val]; [by rewrite Z.mod_1_r|].
  rewrite IH, Nat2Z.inj_succ, Z.pow_succ_r by lia. rewrite Z.rem_mul_r by lia. done.
Qed.

Lemma le_val_range bs : is_bytes bs -> 0 <= le_val bs < 256 ^ Z.of_nat (length bs).
Proof.
  induction 1 as [|b bs Hb _ IH]; cbn [le_val length]; [simpl; lia|].
  rewrite Nat2Z.inj_succ, Z.pow_succ_r by lia. lia.
Qed.

Lemma le_bytes_val bs : is_bytes bs -> le_bytes (length bs) (le_val bs) = bs.
Proof.
  induction 1 as [|b bs Hb _ IH]; cbn [le_val length le_bytes]; [done|]. f_equal.
  - rewrite (Z.mul_comm 256), Z.mod_add by lia. by apply Z.mod_small.
  - rewrite (Z.mul_comm 256), Z.div_add, (Z.div_small b) by lia. exact IH.
Qed.

Lemma length_putn n bs off v : (off + n <= length bs)%nat -> length (putn n bs off v) = length bs.
Proof. intros. unfold putn. rewrite !length_app, length_take, length_drop, length_le_bytes. lia. Qed.

Lemma putn_bytes n bs off v : is_bytes bs -> is_bytes (putn n bs off v).
Proof.
  intros H. unfold putn, is_bytes. rewrite !Forall_app. split_and!; [by apply Forall_take|apply le_bytes_bytes|by apply Forall_drop].
Qed.

Lemma lookup_putn n bs off v i : (off + n <= length bs)%nat ->
  putn n bs off v !! i = if decide (off <= i < off + n)%nat then le_bytes n v !! (i - off)%nat else bs !! i.
Proof.
  intros Hl. unfold putn. destruct (decide (off <= i < off + n)%nat) as [Hi|Hi].
  - rewrite lookup_app_r, length_take by (rewrite length_take; lia).
    rewrite lookup_app_l by (rewrite length_le_bytes; lia). f_equal. lia.
  - destruct (decide (i < off)%nat).
    + rewrite lookup_app_l by (rewrite length_take; lia). by rewrite lookup_take_lt by lia.
    + rewrite lookup_app_r by (rewrite length_take; lia).
      rewrite lookup_app_r by (rewrite length_take, length_le_bytes; lia).
      rewrite length_take, length_le_bytes, lookup_drop. f_equal. lia.
Qed.

Lemma getn_ext n bs bs' off : (forall i, (off <= i < off + n)%nat -> bs !! i = bs' !! i) -> getn n bs off = getn n bs' off.
Proof.
  intros H. unfold getn. f_equal. apply list_eq. intros i. destruct (decide (i < n)%nat).
  - rewrite !lookup_take_lt, !lookup_drop by done. apply H. lia.
  - by rewrite !lookup_take_ge by lia.
Qed.

Lemma getn_putn n bs off v : (off + n <= length bs)%nat -> getn n (putn n bs off v) off = v mod 256 ^ Z.of_nat n.
Proof.
  intros Hl. unfold getn, putn. rewrite drop_app_length' by (rewrite length_take; lia).
  rewrite take_app_length' by (by rewrite length_le_bytes). apply le_val_bytes.
Qed.

Lemma getn_putn_ne n m bs off off' v : (off' + m <= length bs)%nat ->
  (off + n <= off' \/ off' + m <= off)%nat -> getn n (putn m bs off' v) off = getn n bs off.
Proof. intros Hl Hd. apply getn_ext. intros i Hi. rewrite lookup_putn by done. by rewrite decide_False by lia. Qed.

Lemma getn_range n bs off : is_bytes bs -> (off + n <= length bs)%nat -> 0 <= getn n bs off < 256 ^ Z.of_nat n.
Proof.
  intros Hb Hl. unfold getn. pose proof (le_val_range (take n (drop off bs))) as H.
  rewrite length_take, length_drop in H. replace (n `min` (length bs - off))%nat with n in H by lia.
  apply H. by apply Forall_take, Forall_drop.
Qed.

Lemma i32_u32 v : - 2 ^ 31 <= v < 2 ^ 31 -> i32 (v mod 256 ^ 4) = v.
Proof. intros. unfold i32. change (256 ^ 4) with (2 ^ 32). Z.to_euclidean_division_equations. lia. Qed.

Lemma i16_u16 v : - 2 ^ 15 <= v < 2 ^ 15 -> i16 (v mod 256 ^ 2) = v.
Proof. intros. unfold i16. change (256 ^ 2) with (2 ^ 16). Z.to_euclidean_division_equations. lia. Qed.
