(* ===== verification/Bio.v ===== *)
(** The buffer cache, kernel/bio.c.

    [bcache] is the array of buffers, the links of the doubly linked list that
    orders them by use ([bhead] is the index after the last buffer), and the disk
    behind the driver: [virtio_disk_rw] moves one block between a buffer and the
    disk, and [dwrites] is the sequence of block writes the disk has received,
    which is what survives a crash.  Sleep locks are their [locked] and [pid]
    fields: a caller that would wait blocks. *)
From S2P Require Import Prelude Riscv PhysMem.

Definition BSIZE : Z := 1024.
Definition MAXOPBLOCKS : Z := 10.
Definition NBUF : nat := 30.

Record buf : Type := mkBuf {
  valid : Z; b_dev : Z; blockno : Z; b_locked : Z; b_pid : Z; refcnt : Z; b_data : list Z }.

#[global] Instance buf_inhabited : Inhabited buf := populate (mkBuf 0 0 0 0 0 0 []).

Record bcache : Type := mkBc {
  bufs : list buf; nxt : nat -> nat; prv : nat -> nat;
  disk : Z -> list Z; dwrites : list (Z * list Z); me : Z }.

Definition bhead : nat := NBUF.
Definition link (f : nat -> nat) (i x : nat) : nat -> nat := fun j => if Nat.eqb j i then x else f j.
Definition zupd {A} (f : Z -> A) (b : Z) (v : A) : Z -> A := fun x => if x =? b then v else f x.

Definition buf_at (s : bcache) (i : nat) : buf := bufs s !!! i.
Definition set_buf (i : nat) (b : buf) (s : bcache) : bcache :=
  mkBc (<[i := b]> (bufs s)) (nxt s) (prv s) (disk s) (dwrites s) (me s).
Definition set_links (n p : nat -> nat) (s : bcache) : bcache := mkBc (bufs s) n p (disk s) (dwrites s) (me s).

Definition set_refcnt (n : Z) (b : buf) : buf :=
  mkBuf (valid b) (b_dev b) (blockno b) (b_locked b) (b_pid b) n (b_data b).
Definition set_lock (l p : Z) (b : buf) : buf :=
  mkBuf (valid b) (b_dev b) (blockno b) l p (refcnt b) (b_data b).
Definition set_data (v : Z) (bs : list Z) (b : buf) : buf :=
  mkBuf v (b_dev b) (blockno b) (b_locked b) (b_pid b) (refcnt b) bs.

(** Link [b] in front of the list. *)
Definition push_front (b : nat) (s : bcache) : bcache :=
  let n := link (nxt s) b (nxt s bhead) in
  let p := link (prv s) b bhead in
  let p := link p (n bhead) b in
  set_links (link n bhead b) p s.

Definition unlink (b : nat) (s : bcache) : bcache :=
  let p := link (prv s) (nxt s b) (prv s b) in
  set_links (link (nxt s) (p b) (nxt s b)) p s.

Definition binit : M bcache unit :=
  _ ← modS (fun s => set_links (link (nxt s) bhead bhead) (link (prv s) bhead bhead) s);
  modS (fun s => fold_left (fun s b => push_front b (set_buf b (set_lock 0 0 (buf_at s b)) s)) (seq 0 NBUF) s).

(** [for(b = from; b != &bcache.head; b = step[b]) if(f(b)) ...] *)
Fixpoint scan (fuel : nat) (step : nat -> nat) (f : nat -> bool) (b : nat) : option nat :=
  match fuel with
  | O => None
  | S fuel => if Nat.eqb b bhead then None else if f b then Some b else scan fuel step f (step b)
  end.

Definition acquiresleep (b : nat) : M bcache unit := fun s =>
  if negb (b_locked (buf_at s b) =? 0) then Block "buffer" s
  else Ret tt (set_buf b (set_lock 1 (me s) (buf_at s b)) s).
Definition releasesleep (b : nat) : M bcache unit := modS (fun s => set_buf b (set_lock 0 0 (buf_at s b)) s).
Definition holdingsleep (b : nat) : M bcache bool :=
  gets (fun s => negb (b_locked (buf_at s b) =? 0) && (b_pid (buf_at s b) =? me s)).

Definition same_block (dev bno : Z) (b : buf) : bool := (b_dev b =? dev) && (blockno b =? bno).

Definition bget (dev bno : Z) : M bcache nat :=
  s ← getS;
  match scan (S NBUF) (nxt s) (fun b => same_block dev bno (buf_at s b)) (nxt s bhead) with
  | Some b =>
      _ ← modS (fun s => set_buf b (set_refcnt (u32 (refcnt (buf_at s b) + 1)) (buf_at s b)) s);
      _ ← acquiresleep b; mret b
  | None =>
      match scan (S NBUF) (prv s) (fun b => refcnt (buf_at s b) =? 0) (prv s bhead) with
      | Some b =>
          _ ← modS (fun s => let x := buf_at s b in
                set_buf b (mkBuf 0 dev bno (b_locked x) (b_pid x) 1 (b_data x)) s);
          _ ← acquiresleep b; mret b
      | None => panic "bget: no buffers"
      end
  end.

(** The disk driver moves a block; the device is its own. *)
Definition virtio_disk_rw (b : nat) (write : bool) : M bcache unit :=
  modS (fun s => let x := buf_at s b in
    if write then mkBc (bufs s) (nxt s) (prv s) (zupd (disk s) (blockno x) (b_data x))
                    (dwrites s ++ [(blockno x, b_data x)]) (me s)
    else set_buf b (set_data (valid x) (disk s (blockno x)) x) s).

Definition bread (dev bno : Z) : M bcache nat :=
  b ← bget dev bno;
  s ← getS;
  if valid (buf_at s b) =? 0 then
    _ ← virtio_disk_rw b false;
    _ ← modS (fun s => set_buf b (set_data 1 (b_data (buf_at s b)) (buf_at s b)) s);
    mret b
  else mret b.

Definition bwrite (b : nat) : M bcache unit :=
  h ← holdingsleep b;
  if negb h then panic "bwrite" else virtio_disk_rw b true.

Definition brelse (b : nat) : M bcache unit :=
  h ← holdingsleep b;
  if negb h then panic "brelse"
  else
    _ ← releasesleep b;
    _ ← modS (fun s => set_buf b (set_refcnt (u32 (refcnt (buf_at s b) - 1)) (buf_at s b)) s);
    s ← getS;
    if refcnt (buf_at s b) =? 0 then modS (fun s => push_front b (unlink b s)) else mret tt.

Definition bpin (b : nat) : M bcache unit :=
  modS (fun s => set_buf b (set_refcnt (u32 (refcnt (buf_at s b) + 1)) (buf_at s b)) s).
Definition bunpin (b : nat) : M bcache unit :=
  modS (fun s => set_buf b (set_refcnt (u32 (refcnt (buf_at s b) - 1)) (buf_at s b)) s).

(** [b->data] read, and changed by [f], by a caller that holds the buffer. *)
Definition bdata (b : nat) : M bcache (list Z) := gets (fun s => b_data (buf_at s b)).
Definition bmodify (b : nat) (f : list Z -> list Z) : M bcache unit :=
  modS (fun s => set_buf b (set_data (valid (buf_at s b)) (f (b_data (buf_at s b))) (buf_at s b)) s).

(** ** The list of buffers *)
(** From [x], the links run through [l] to [y]. *)
Fixpoint chain (n p : nat -> nat) (x : nat) (l : list nat) (y : nat) : Prop :=
  match l with
  | [] => n x = y /\ p y = x
  | z :: l => n x = z /\ p z = x /\ chain n p z l y
  end.

Definition dll (s : bcache) (l : list nat) : Prop := chain (nxt s) (prv s) bhead l bhead.

Lemma link_eq f i x : link f i x i = x.
Proof. unfold link. by rewrite Nat.eqb_refl. Qed.
Lemma link_frame f i j x : j <> i -> link f i x j = f j.
Proof. intros. unfold link. by rewrite (proj2 (Nat.eqb_neq j i)). Qed.

Lemma chain_app n p x l1 z l2 y : chain n p x (l1 ++ z :: l2) y <-> chain n p x l1 z /\ chain n p z l2 y.
Proof.
  revert x. induction l1 as [|w l1 IH]; intros x; cbn [app chain]; [tauto|]. rewrite IH. tauto.
Qed.

Lemma chain_n n p x l y i v : i ∉ x :: l -> chain n p x l y -> chain (link n i v) p x l y.
Proof.
  revert x. induction l as [|z l IH]; intros x Hi; cbn [chain].
  - intros [Hn Hp]. split; [|done]. rewrite link_frame; [done|set_solver].
  - intros (Hn & Hp & Hc). split; [rewrite link_frame; [done|set_solver]|]. split; [done|]. apply IH; [set_solver|done].
Qed.

Lemma chain_p n p x l y i v : i ∉ l ++ [y] -> chain n p x l y -> chain n (link p i v) x l y.
Proof.
  revert x. induction l as [|z l IH]; intros x Hi; cbn [chain].
  - intros [Hn Hp]. split; [done|]. rewrite link_frame; [done|set_solver].
  - intros (Hn & Hp & Hc). split; [done|]. split; [rewrite link_frame; [done|set_solver]|]. apply IH; [set_solver|done].
Qed.


Lemma dll_push s l b :
  dll s l -> NoDup (bhead :: l) -> b ∉ bhead :: l -> dll (push_front b s) (b :: l).
Proof.
  unfold dll, push_front, set_links. cbn [nxt prv]. intros Hc Hnd Hb.
  assert (Hbh : b <> bhead) by set_solver. rewrite (link_frame _ b bhead) by done.
  split; [by rewrite link_eq|]. destruct l as [|z l].
  - destruct Hc as [Hn Hp]. rewrite Hn. split; [by rewrite link_frame, link_eq by done|].
    split; [by rewrite link_frame, link_eq by done|]. by rewrite link_eq.
  - destruct Hc as (Hn & Hp & Hc). rewrite Hn. assert (Hbz : b <> z) by set_solver. cbn [chain].
    rewrite !NoDup_cons in Hnd. assert (Hzh : z <> bhead) by set_solver.
    split; [by rewrite link_frame, link_eq by done|].
    split; [by rewrite link_frame, link_eq by done|]. split; [by rewrite link_eq|].
    apply chain_n; [set_solver|]. apply chain_n; [set_solver|].
    apply chain_p; [set_solver|]. apply chain_p; [set_solver|]. done.
Qed.

Lemma chain_pred n p x l y : chain n p x l y -> p y ∈ x :: l.
Proof.
  revert x. induction l as [|z l IH]; intros x; cbn [chain]; [intros [_ ->]; set_solver|].
  intros (_ & _ & H%IH). set_solver.
Qed.

Lemma chain_succ n p x l y : chain n p x l y -> n x ∈ l ++ [y].
Proof. destruct l; cbn [chain]; [intros [-> _]|intros [-> _]]; set_solver. Qed.

Lemma chain_join n p x l1 b l2 y :
  NoDup (x :: l1 ++ l2) -> y ∉ l1 ++ l2 -> chain n p x l1 b -> chain n p b l2 y ->
  chain (link n (p b) (n b)) (link p (n b) (p b)) x (l1 ++ l2) y.
Proof.
  revert x. induction l1 as [|w l1 IH]; intros x Hnd Hy; cbn [chain app] in *.
  - intros [Hn Hp] Hc. rewrite Hp. destruct l2 as [|z l2]; cbn [chain] in *.
    + destruct Hc as [-> _]. split; [by rewrite link_eq|]. by rewrite link_eq.
    + destruct Hc as (-> & _ & Hc). rewrite !NoDup_cons in Hnd.
      split; [by rewrite link_eq|]. split; [by rewrite link_eq|].
      apply chain_n; [set_solver|]. apply chain_p; [set_solver|]. done.
  - intros (Hn & Hp & Hc1) Hc2. cbn [app] in *. pose proof (chain_pred _ _ _ _ _ Hc1). pose proof (chain_succ _ _ _ _ _ Hc2).
    rewrite !NoDup_cons in Hnd. destruct Hnd as (Hx & Hw & Hnd).
    split; [rewrite link_frame; [done|intros ->; set_solver]|]. split; [rewrite link_frame; [done|intros ->; set_solver]|].
    apply IH; [rewrite NoDup_cons; done|set_solver|done|done].
Qed.

Lemma dll_unlink s l1 b l2 :
  dll s (l1 ++ b :: l2) -> NoDup (bhead :: l1 ++ b :: l2) -> dll (unlink b s) (l1 ++ l2).
Proof.
  unfold dll, unlink, set_links. cbn [nxt prv]. rewrite chain_app. intros [H1 H2] Hnd.
  assert (Hnd' : NoDup (bhead :: b :: l1 ++ l2)) by (by rewrite (Permutation_middle l1 l2 b)).
  rewrite !NoDup_cons in Hnd'. destruct Hnd' as (Hh & Hb & Hnd').
  pose proof (chain_succ _ _ _ _ _ H2) as Hs. assert (Hbn : b <> nxt s b).
  { intros E. rewrite <- E in Hs. clear E H1 H2. set_solver. }
  rewrite (link_frame (prv s) (nxt s b) b) by done. clear Hs Hbn.
  apply chain_join; [rewrite NoDup_cons; set_solver|set_solver|done|done].
Qed.

(** The loops visit the list, from the most and from the least recently used. *)
Lemma scan_next n p f x l y fuel :
  chain n p x l y -> bhead ∉ l -> y = bhead -> (length l < fuel)%nat -> scan fuel n f (n x) = List.find f l.
Proof.
  revert x fuel. induction l as [|z l IH]; intros x fuel Hc Hh Hy Hf; (destruct fuel as [|fuel]; [simpl in Hf; lia|]).
  - destruct Hc as [-> _]. subst y. cbn [scan]. by rewrite Nat.eqb_refl.
  - destruct Hc as (-> & _ & Hc). cbn [scan List.find].
    rewrite (proj2 (Nat.eqb_neq z bhead)) by set_solver. destruct (f z); [done|].
    apply (IH z fuel); [done|set_solver|done|simpl in Hf; lia].
Qed.

Lemma scan_prev n p f x l y fuel :
  chain n p x l y -> bhead ∉ l -> x = bhead -> (length l < fuel)%nat -> scan fuel p f (p y) = List.find f (rev l).
Proof.
  revert y fuel. induction l as [|z l IH] using rev_ind; intros y fuel Hc Hh Hx Hf; (destruct fuel as [|fuel]; [lia|]).
  - destruct Hc as [_ ->]. subst x. cbn [scan]. by rewrite Nat.eqb_refl.
  - rewrite length_app in Hf. apply chain_app in Hc as [Hc [_ ->]]. rewrite rev_app_distr. cbn [rev app scan List.find].
    rewrite (proj2 (Nat.eqb_neq z bhead)) by set_solver. destruct (f z); [done|].
    apply IH; [done|set_solver|done|simpl in Hf; lia].
Qed.

Lemma zupd_eq {A} (f : Z -> A) b v : zupd f b v b = v.
Proof. unfold zupd. by rewrite Z.eqb_refl. Qed.
Lemma zupd_ne {A} (f : Z -> A) b c v : c <> b -> zupd f b v c = f c.
Proof. intros. unfold zupd. by rewrite (proj2 (Z.eqb_neq c b)). Qed.

Ltac zupd_cases :=
  repeat first
    [ rewrite zupd_eq
    | rewrite zupd_ne by done
    | match goal with
      | |- context [zupd _ ?b _ ?c] =>
          let H := fresh "Hne" in destruct (decide (c = b)) as [H|H]; [rewrite H in *|]
      end ].

(** ** The cache as a map of blocks *)
(** What a client sees of each block: its references, its current contents,
    the holder of its lock, and what the disk has of it. *)
Record babs : Type := mkAbs {
  a_refs : Z -> Z; a_view : Z -> list Z; a_lock : Z -> option Z; a_handle : Z -> option nat;
  a_disk : Z -> list Z; a_writes : list (Z * list Z); a_me : Z; a_used : nat }.

Section cache.
Context (dev : Z).

Definition find_block (s : bcache) (b : Z) : option nat := first_index (same_block dev b) (bufs s).
Definition refs (s : bcache) (b : Z) : Z :=
  match find_block s b with Some i => refcnt (buf_at s i) | None => 0 end.
Definition view (s : bcache) (b : Z) : list Z :=
  match find_block s b with Some i => b_data (buf_at s i) | None => disk s b end.
Definition holder (x : buf) : option Z := if b_locked x =? 0 then None else Some (b_pid x).
Definition lockst (s : bcache) (b : Z) : option Z :=
  match find_block s b with Some i => holder (buf_at s i) | None => None end.
Definition used1 (r : Z) : nat := if r =? 0 then 0%nat else 1%nat.
Definition in_use (x : buf) : bool := negb (refcnt x =? 0).
Definition nref (s : bcache) : nat := length (List.filter in_use (bufs s)).

(** A buffer of the array: never filled, or with the contents of its block; one
    that nobody refers to is clean. *)
Record buf_ok (d : Z -> list Z) (x : buf) : Prop := {
  bo_dev : b_dev x = dev /\ valid x <> 0 \/ b_dev x <> dev /\ refcnt x = 0;
  bo_refs : 0 <= refcnt x < 2 ^ 32;
  bo_lock : b_locked x <> 0 -> refcnt x <> 0;
  bo_clean : b_dev x = dev -> refcnt x = 0 -> b_data x = d (blockno x)
}.

Record bio_inv (s : bcache) (lru : list nat) : Prop := {
  bi_dll : dll s lru;
  bi_perm : lru ≡ₚ seq 0 NBUF;
  bi_len : length (bufs s) = NBUF;
  bi_buf : forall i x, bufs s !! i = Some x -> buf_ok (disk s) x;
  bi_unique : forall i j x y, bufs s !! i = Some x -> bufs s !! j = Some y ->
    b_dev x = dev -> b_dev y = dev -> blockno x = blockno y -> i = j
}.

Record brel (s : bcache) (a : babs) : Prop := {
  br_inv : exists lru, bio_inv s lru;
  br_refs : forall b, refs s b = a_refs a b;
  br_view : forall b, view s b = a_view a b;
  br_lock : forall b, lockst s b = a_lock a b;
  br_handle : forall b i, a_handle a b = Some i -> find_block s b = Some i /\ refs s b <> 0;
  br_disk : forall b, disk s b = a_disk a b;
  br_writes : dwrites s = a_writes a;
  br_me : me s = a_me a;
  br_used : nref s = a_used a
}.

Lemma buf_at_lookup s lru i x : bio_inv s lru -> bufs s !! i = Some x -> buf_at s i = x.
Proof. intros _ E. by apply list_lookup_total_correct. Qed.

Lemma find_block_spec s lru b i : bio_inv s lru ->
  find_block s b = Some i <-> exists x, bufs s !! i = Some x /\ b_dev x = dev /\ blockno x = b.
Proof.
  intros I. unfold find_block. rewrite first_index_Some. unfold same_block. split.
  - intros [(x & Hx & [Hd Hb]%andb_true_iff) _]. apply Z.eqb_eq in Hd, Hb. by exists x.
  - intros (x & Hx & Hd & Hb). split; [exists x; by rewrite Hd, Hb, !Z.eqb_refl|].
    intros j y Hj Hy. destruct (Z.eqb_spec (b_dev y) dev) as [Ed|]; [|done].
    destruct (Z.eqb_spec (blockno y) b) as [Eb|]; [|done]. exfalso.
    pose proof (bi_unique _ _ I i j x y Hx Hy Hd Ed ltac:(congruence)). lia.
Qed.

Lemma find_block_lt s lru b i : bio_inv s lru -> find_block s b = Some i -> (i < NBUF)%nat.
Proof. intros I H%first_index_lt. by rewrite (bi_len _ _ I) in H. Qed.

Lemma find_block_buf s lru b i : bio_inv s lru -> find_block s b = Some i ->
  bufs s !! i = Some (buf_at s i) /\ b_dev (buf_at s i) = dev /\ blockno (buf_at s i) = b /\ valid (buf_at s i) <> 0.
Proof.
  intros I H. apply (find_block_spec s lru b i I) in H as (x & Hx & Hd & Hb).
  rewrite (buf_at_lookup s lru i x I Hx). split_and!; try done.
  destruct (bo_dev _ _ (bi_buf _ _ I i x Hx)) as [[_ ?]|[? _]]; done.
Qed.

Lemma nref_insert s (i : nat) (x y : buf) :
  bufs s !! i = Some x ->
  length (List.filter in_use (<[i := y]> (bufs s))) =
    (nref s - used1 (refcnt x) + used1 (refcnt y))%nat /\
  (refcnt x <> 0 -> (0 < nref s)%nat).
Proof.
  unfold nref. intros Hx. rewrite insert_take_drop by (by eapply lookup_lt_Some).
  rewrite <- (take_drop_middle _ _ _ Hx) at 3 4. rewrite !List.filter_app, !length_app. cbn [List.filter].
  unfold in_use, used1. destruct (Z.eqb_spec (refcnt x) 0), (Z.eqb_spec (refcnt y) 0); cbn [negb length]; lia.
Qed.

Lemma first_index_same {A} (f : A -> bool) l i x y :
  l !! i = Some x -> f y = f x -> first_index f (<[i := y]> l) = first_index f l.
Proof.
  revert i. induction l as [|z l IH]; intros [|i] Hi Hf; simplify_eq/=; [by rewrite Hf|].
  destruct (f z); [done|]. by rewrite (IH i Hi Hf).
Qed.

(** A block's buffer was changed, not which block it holds. *)
Definition a_set (b : Z) (x : buf) (a : babs) : babs :=
  mkAbs (zupd (a_refs a) b (refcnt x)) (zupd (a_view a) b (b_data x)) (zupd (a_lock a) b (holder x))
    (if refcnt x =? 0 then zupd (a_handle a) b None else a_handle a) (a_disk a) (a_writes a) (a_me a)
    (a_used a - used1 (a_refs a b) + used1 (refcnt x))%nat.

Lemma brel_set s a b i x :
  brel s a -> find_block s b = Some i -> b_dev x = dev -> blockno x = b -> valid x <> 0 ->
  0 <= refcnt x < 2 ^ 32 -> (b_locked x <> 0 -> refcnt x <> 0) -> (refcnt x = 0 -> b_data x = a_disk a b) ->
  brel (set_buf i x s) (a_set b x a).
Proof.
  intros R Hf Hd Hb Hv Hr Hl Hc. destruct (br_inv _ _ R) as [lru I].
  destruct (find_block_buf _ _ _ _ I Hf) as (Hx & Hxd & Hxb & Hxv).
  assert (Hlt : (i < length (bufs s))%nat) by (by eapply lookup_lt_Some).
  assert (Hsame : forall c, find_block (set_buf i x s) c = find_block s c).
  { intros c. unfold find_block, set_buf. cbn [bufs]. apply (first_index_same _ _ _ (buf_at s i)); [done|].
    unfold same_block. by rewrite Hd, Hb, Hxd, Hxb. }
  assert (Hat : forall j, buf_at (set_buf i x s) j = if Nat.eqb j i then x else buf_at s j).
  { intros j. unfold buf_at, set_buf. cbn [bufs]. destruct (Nat.eqb_spec j i) as [->|];
      [by apply list_lookup_total_insert_eq|by apply list_lookup_total_insert_ne]. }
  assert (Hoth : forall c j, find_block s c = Some j -> Nat.eqb j i = (c =? b)).
  { intros c j Hj. destruct (Z.eqb_spec c b) as [->|Hn]; destruct (Nat.eqb_spec j i) as [->|]; try congruence.
    apply (find_block_buf _ _ _ _ I) in Hj as (_ & _ & ? & _). congruence. }
  assert (Hrf : forall c, refs (set_buf i x s) c = if c =? b then refcnt x else refs s c).
  { intros c. unfold refs. rewrite Hsame. destruct (find_block s c) as [j|] eqn:Ej;
      [rewrite Hat, (Hoth c j Ej); by destruct (c =? b)|]. destruct (Z.eqb_spec c b) as [->|]; [congruence|done]. }
  split; [| | | | |apply R|apply R|apply R|].
  - exists lru. split; [apply I|apply I| | |].
    + cbn [bufs set_buf]. rewrite length_insert. apply I.
    + intros j y [(<- & <- & _)|[_ Hy]]%list_lookup_insert_Some; [|by apply (bi_buf _ _ I j)].
      split; [by left|done|done|]. intros _ E. rewrite Hc by done. cbn [disk set_buf]. rewrite (br_disk _ _ R). by rewrite Hb.
    + intros j k y z [(<- & <- & _)|[? Hy]]%list_lookup_insert_Some [(<- & <- & _)|[? Hz]]%list_lookup_insert_Some Dy Dz E;
        try done.
      * eapply (bi_unique _ _ I i k _ _ Hx Hz); try done. congruence.
      * eapply (bi_unique _ _ I j i _ _ Hy Hx); try done. congruence.
      * by eapply (bi_unique _ _ I j k).
  - intros c. rewrite Hrf. cbn [a_refs a_set]. unfold zupd. by rewrite <- (br_refs _ _ R c).
  - intros c. unfold view. rewrite Hsame. cbn [a_view a_set]. unfold zupd. rewrite <- (br_view _ _ R c). unfold view.
    destruct (find_block s c) as [j|] eqn:Ej; [rewrite Hat, (Hoth c j Ej); by destruct (c =? b)|].
    destruct (Z.eqb_spec c b) as [->|]; [congruence|done].
  - intros c. unfold lockst. rewrite Hsame. cbn [a_lock a_set]. unfold zupd. rewrite <- (br_lock _ _ R c). unfold lockst.
    destruct (find_block s c) as [j|] eqn:Ej; [rewrite Hat, (Hoth c j Ej); by destruct (c =? b)|].
    destruct (Z.eqb_spec c b) as [->|]; [congruence|done].
  - intros c j Hj. rewrite Hsame, Hrf. cbn [a_handle a_set] in Hj. destruct (Z.eqb_spec (refcnt x) 0) as [E|E].
    + destruct (Z.eqb_spec c b) as [->|Hn]; [by rewrite zupd_eq in Hj|]. rewrite zupd_ne in Hj by done. by apply R.
    + destruct (br_handle _ _ R c j Hj) as [? ?]. by destruct (Z.eqb_spec c b).
  - cbn [a_used a_set]. rewrite <- (br_used _ _ R), <- (br_refs _ _ R b). unfold refs. rewrite Hf.
    unfold nref at 1. cbn [bufs set_buf]. apply (nref_insert s i (buf_at s i) x Hx).
Qed.

Lemma brel_ext s a a' :
  brel s a -> (forall b, a_refs a b = a_refs a' b) -> (forall b, a_view a b = a_view a' b) ->
  (forall b, a_lock a b = a_lock a' b) ->
  (forall b i, a_handle a' b = Some i -> find_block s b = Some i /\ a_refs a' b <> 0) ->
  (forall b, a_disk a b = a_disk a' b) -> a_writes a = a_writes a' -> a_me a = a_me a' -> a_used a = a_used a' ->
  brel s a'.
Proof.
  intros [I R V L H D W Me U] E1 E2 E3 E4 E5 E6 E7 E8.
  split; [done| | | | | |congruence..].
  - intros b. by rewrite R.
  - intros b. by rewrite V.
  - intros b. by rewrite L.
  - intros b i Hh. rewrite R, E1. by apply E4.
  - intros b. by rewrite D.
Qed.

(** An unreferenced buffer takes over another block. *)
Lemma brel_recycle s a b i :
  brel s a -> find_block s b = None -> bufs s !! i = Some (buf_at s i) -> refcnt (buf_at s i) = 0 ->
  brel (set_buf i (mkBuf 1 dev b 1 (me s) 1 (disk s b)) s)
    (mkAbs (zupd (a_refs a) b 1) (a_view a) (zupd (a_lock a) b (Some (a_me a))) (zupd (a_handle a) b (Some i))
       (a_disk a) (a_writes a) (a_me a) (S (a_used a))).
Proof.
  intros R Hf Hx Hr. destruct (br_inv _ _ R) as [lru I]. set (x := mkBuf 1 dev b 1 (me s) 1 (disk s b)).
  assert (Hlt : (i < length (bufs s))%nat) by (by eapply lookup_lt_Some).
  assert (Hno : forall j y, bufs s !! j = Some y -> b_dev y = dev -> blockno y <> b).
  { intros j y Hy Hd Hb. assert (find_block s b = Some j); [|congruence].
    apply (find_block_spec s lru b j I). by exists y. }
  assert (I' : bio_inv (set_buf i x s) lru).
  { split; [apply I|apply I| | |].
    - cbn [bufs set_buf]. rewrite length_insert. apply I.
    - intros j y [(<- & <- & _)|[_ Hy]]%list_lookup_insert_Some; [|by apply (bi_buf _ _ I j)].
      by split; [left| | |].
    - intros j k y z [(<- & <- & _)|[? Hy]]%list_lookup_insert_Some [(<- & <- & _)|[? Hz]]%list_lookup_insert_Some Dy Dz E;
        try done; [by destruct (Hno k z Hz Dz)|by destruct (Hno j y Hy Dy)|by eapply (bi_unique _ _ I j k)]. }
  assert (Hat : forall j, buf_at (set_buf i x s) j = if Nat.eqb j i then x else buf_at s j).
  { intros j. unfold buf_at, set_buf. cbn [bufs]. destruct (Nat.eqb_spec j i) as [->|];
      [by apply list_lookup_total_insert_eq|by apply list_lookup_total_insert_ne]. }
  assert (Hb : find_block (set_buf i x s) b = Some i).
  { apply (find_block_spec _ lru b i I'). exists x. cbn [bufs set_buf]. by rewrite (list_lookup_insert_eq (bufs s) i x Hlt). }
  assert (Hc : forall c, c <> b -> find_block (set_buf i x s) c = find_block s c /\ find_block s c <> Some i \/
                         find_block (set_buf i x s) c = None /\ find_block s c = Some i).
  { intros c Hn. destruct (find_block s c) as [j|] eqn:Ej; [destruct (decide (j = i)) as [->|Hji]|].
    - right. split; [|done]. destruct (find_block (set_buf i x s) c) as [k|] eqn:Ek; [|done]. exfalso.
      apply (find_block_spec _ lru c k I') in Ek as (y & [(<- & <- & _)|[Hki Hy]]%list_lookup_insert_Some & Hd & Hbc); [by cbn in Hbc|].
      assert (find_block s c = Some k) by (apply (find_block_spec s lru c k I); by exists y). congruence.
    - left. split; [|congruence]. apply (find_block_spec s lru c j I) in Ej as (y & Hy & ?).
      apply (find_block_spec _ lru c j I'). exists y. cbn [bufs set_buf]. by rewrite (list_lookup_insert_ne (bufs s) i j x) by congruence.
    - left. split; [|done]. destruct (find_block (set_buf i x s) c) as [k|] eqn:Ek; [|done]. exfalso.
      apply (find_block_spec _ lru c k I') in Ek as (y & [(<- & <- & _)|[Hki Hy]]%list_lookup_insert_Some & Hd & Hbc); [by cbn in Hbc|].
      assert (find_block s c = Some k) by (apply (find_block_spec s lru c k I); by exists y). congruence. }
  destruct (bi_buf _ _ I i _ Hx) as [_ _ Hl Hcl]. rewrite Hr in *.
  assert (Hat' : forall c j, find_block s c = Some j -> find_block s c <> Some i -> buf_at (set_buf i x s) j = buf_at s j).
  { intros c j Hj Hn. rewrite Hat. destruct (Nat.eqb_spec j i); [congruence|done]. }
  split; cbn [a_refs a_view a_lock a_handle a_disk a_writes a_me a_used]; [by exists lru| | | | |apply R|apply R|apply R|].
  - intros c. unfold refs at 1. destruct (decide (c = b)) as [->|Hn].
    + by rewrite Hb, Hat, Nat.eqb_refl, zupd_eq.
    + rewrite zupd_ne by done. rewrite <- (br_refs _ _ R). unfold refs.
      destruct (Hc c Hn) as [[-> Hni]|[-> ->]]; [|done]. destruct (find_block s c) as [j|] eqn:Ej; [|done].
      by rewrite (Hat' c j) by congruence.
  - intros c. rewrite <- (br_view _ _ R). unfold view. destruct (decide (c = b)) as [->|Hn].
    + by rewrite Hb, Hat, Nat.eqb_refl, Hf.
    + destruct (Hc c Hn) as [[-> Hni]|[-> Ei]].
      * destruct (find_block s c) as [j|] eqn:Ej; [|done]. by rewrite (Hat' c j) by congruence.
      * rewrite Ei. apply (find_block_buf _ _ _ _ I) in Ei as (_ & Hd & <- & _). symmetry. by apply Hcl.
  - intros c. unfold lockst. destruct (decide (c = b)) as [->|Hn].
    + rewrite Hb, Hat, Nat.eqb_refl, zupd_eq, <- (br_me _ _ R). done.
    + rewrite zupd_ne by done. rewrite <- (br_lock _ _ R). unfold lockst. destruct (Hc c Hn) as [[-> Hni]|[-> ->]].
      * destruct (find_block s c) as [j|] eqn:Ej; [|done]. by rewrite (Hat' c j) by congruence.
      * unfold holder. destruct (Z.eqb_spec (b_locked (buf_at s i)) 0) as [|E]; [done|]. by destruct (Hl E).
  - intros c j Hj. destruct (decide (c = b)) as [->|Hn].
    + rewrite zupd_eq in Hj. injection Hj as <-. split; [done|]. unfold refs. by rewrite Hb, Hat, Nat.eqb_refl.
    + rewrite zupd_ne in Hj by done. destruct (br_handle _ _ R c j Hj) as [Ej Hrj]. unfold refs in *.
      destruct (Hc c Hn) as [[-> Hni]|[_ Ei]]; rewrite Ej in *; [by rewrite (Hat' c j) by congruence|].
      injection Ei as ->. done.
  - rewrite <- (br_used _ _ R). unfold nref at 1. cbn [bufs set_buf].
    destruct (nref_insert s i (buf_at s i) x Hx) as [-> _]. rewrite Hr. unfold used1. cbn. lia.
Qed.

(** The operations of the abstract cache. *)
Definition a_read (b : Z) (i : nat) (a : babs) : babs :=
  mkAbs (zupd (a_refs a) b (a_refs a b + 1)) (a_view a) (zupd (a_lock a) b (Some (a_me a)))
    (zupd (a_handle a) b (Some i)) (a_disk a) (a_writes a) (a_me a) (a_used a - used1 (a_refs a b) + 1)%nat.
Definition a_modify (b : Z) (f : list Z -> list Z) (a : babs) : babs :=
  mkAbs (a_refs a) (zupd (a_view a) b (f (a_view a b))) (a_lock a) (a_handle a) (a_disk a) (a_writes a) (a_me a) (a_used a).
Definition a_write (b : Z) (a : babs) : babs :=
  mkAbs (a_refs a) (a_view a) (a_lock a) (a_handle a) (zupd (a_disk a) b (a_view a b))
    (a_writes a ++ [(b, a_view a b)]) (a_me a) (a_used a).
Definition a_relse (b : Z) (a : babs) : babs :=
  mkAbs (zupd (a_refs a) b (a_refs a b - 1)) (a_view a) (zupd (a_lock a) b None)
    (if a_refs a b =? 1 then zupd (a_handle a) b None else a_handle a)
    (a_disk a) (a_writes a) (a_me a) (a_used a - (1 - used1 (a_refs a b - 1)))%nat.
Definition a_pin (d : Z) (b : Z) (a : babs) : babs :=
  mkAbs (zupd (a_refs a) b (a_refs a b + d)) (a_view a) (a_lock a) (a_handle a)
    (a_disk a) (a_writes a) (a_me a) (a_used a).

Lemma set_buf_twice s i x y : set_buf i y (set_buf i x s) = set_buf i y s.
Proof. unfold set_buf. cbn [bufs nxt prv disk dwrites me]. by rewrite list_insert_insert_eq. Qed.

Lemma buf_at_set s i x : (i < length (bufs s))%nat -> buf_at (set_buf i x s) i = x.
Proof. intros. unfold buf_at, set_buf. cbn [bufs]. by apply list_lookup_total_insert_eq. Qed.

Lemma not_all_used s lru : bio_inv s lru -> (nref s < NBUF)%nat -> exists i, i ∈ lru /\ refcnt (buf_at s i) = 0.
Proof.
  intros I Hn. destruct (List.find (fun b => refcnt (buf_at s b) =? 0) lru) as [i|] eqn:E.
  { apply List.find_some in E as [Hi Hr]. exists i. by rewrite list_elem_of_In, <- Z.eqb_eq. }
  exfalso. assert (nref s = NBUF); [|lia]. unfold nref. rewrite <- (bi_len _ _ I). f_equal.
  apply List.forallb_filter_id, List.forallb_forall. intros x (i & Hi)%list_elem_of_In%list_elem_of_lookup.
  pose proof (List.find_none _ _ E i) as F. cbv beta in F. rewrite (buf_at_lookup s lru i x I Hi) in F.
  unfold in_use. rewrite F; [done|]. rewrite <- list_elem_of_In, (bi_perm _ _ I), elem_of_seq, <- (bi_len _ _ I).
  apply lookup_lt_Some in Hi. lia.
Qed.

Lemma lru_facts s lru : bio_inv s lru -> NoDup (bhead :: lru) /\ (bhead ∉ lru) /\ (length lru < S NBUF)%nat /\
  (forall i, i ∈ lru <-> (i < NBUF)%nat).
Proof.
  intros I. pose proof (bi_perm _ _ I) as P.
  assert (Hm : forall i, i ∈ lru <-> (i < NBUF)%nat) by (intros i; rewrite P, elem_of_seq; lia).
  assert (Hh : bhead ∉ lru) by (rewrite Hm; unfold bhead; lia).
  split_and!; [|done| |done].
  - apply NoDup_cons. split; [done|]. rewrite P. apply NoDup_seq.
  - rewrite P, length_seq. lia.
Qed.

Lemma bget_hit s a b i : brel s a -> find_block s b = Some i -> a_lock a b = None -> a_refs a b < 2 ^ 32 - 1 ->
  exists s', bget dev b s = Ret i s' /\ brel s' (a_read b i a) /\ valid (buf_at s' i) <> 0.
Proof.
  intros R Hf Hl Hr. destruct (br_inv _ _ R) as [lru I]. destruct (lru_facts s lru I) as (Hnd & Hh & Hlen & Hmem).
  destruct (find_block_buf _ _ _ _ I Hf) as (Hx & Hd & Hb & Hv). pose proof (find_block_lt _ _ _ _ I Hf) as Hi.
  assert (Hii : (i < length (bufs s))%nat) by (by rewrite (bi_len _ _ I)).
  assert (Er : refcnt (buf_at s i) = a_refs a b) by (rewrite <- (br_refs _ _ R b); unfold refs; by rewrite Hf).
  assert (Ev : b_data (buf_at s i) = a_view a b) by (rewrite <- (br_view _ _ R b); unfold view; by rewrite Hf).
  pose proof (bo_refs _ _ (bi_buf _ _ I i _ Hx)) as Hr0. rewrite Er in Hr0.
  assert (El : b_locked (buf_at s i) = 0).
  { pose proof (br_lock _ _ R b) as L. unfold lockst in L. rewrite Hf, Hl in L. unfold holder in L.
    by destruct (Z.eqb_spec (b_locked (buf_at s i)) 0). }
  assert (Hs : scan (S NBUF) (nxt s) (fun b0 => same_block dev b (buf_at s b0)) (nxt s bhead) = Some i).
  { rewrite (scan_next _ _ _ _ _ _ _ (bi_dll _ _ I)) by done.
    destruct (List.find _ lru) as [j|] eqn:E.
    - apply List.find_some in E as [Hj [Hjd Hjb]%andb_true_iff]. apply Z.eqb_eq in Hjd, Hjb.
      assert (find_block s b = Some j); [|congruence]. apply (find_block_spec _ lru _ _ I). exists (buf_at s j).
      split; [|done]. apply list_lookup_lookup_total_lt. rewrite (bi_len _ _ I). by rewrite <- Hmem, list_elem_of_In.
    - pose proof (List.find_none _ _ E i) as Fn. cbv beta in Fn. unfold same_block in Fn. rewrite Hd, Hb, !Z.eqb_refl in Fn.
      discriminate Fn. by rewrite <- list_elem_of_In, Hmem. }
  set (x' := set_lock 1 (me s) (set_refcnt (u32 (refcnt (buf_at s i) + 1)) (buf_at s i))).
  exists (set_buf i x' s). split; [|split; [|by rewrite buf_at_set]].
  - unfold bget. change ((getS ≫= ?h) s) with (h s s). cbv beta. rewrite Hs.
    change ((modS ?f ≫= ?h) s) with (h tt (f s)). cbv beta. unfold acquiresleep, mbind, M_bind.
    rewrite buf_at_set by done. cbn [b_locked set_refcnt]. rewrite El. cbn [Z.eqb negb].
    rewrite set_buf_twice. done.
  - assert (Eu : u32 (refcnt (buf_at s i) + 1) = a_refs a b + 1) by (rewrite Er, u32_small; [done|lia]).
    eapply brel_ext; [eapply (brel_set s a b i x' R Hf); try done|..];
      unfold x'; cbn [refcnt set_lock set_refcnt b_locked]; rewrite ?Eu; try lia;
      cbn [a_refs a_view a_lock a_handle a_disk a_writes a_me a_used a_set a_read refcnt set_lock set_refcnt b_data].
    + done.
    + intros c. unfold zupd. destruct (Z.eqb_spec c b) as [->|]; [done|done].
    + intros c. unfold holder. cbn. unfold zupd. by rewrite (br_me _ _ R).
    + intros c j Hj. unfold find_block, set_buf. cbn [bufs].
      rewrite (first_index_same _ _ _ (buf_at s i)) by done.
      fold (find_block s c). destruct (decide (c = b)) as [->|Hn].
      * rewrite zupd_eq in Hj. rewrite zupd_eq. split; [congruence|lia].
      * rewrite zupd_ne in Hj by done. rewrite zupd_ne by done. rewrite <- (br_refs _ _ R). by apply (br_handle _ _ R).
    + done.
    + done.
    + done.
    + f_equal. unfold used1. destruct (Z.eqb_spec (a_refs a b + 1) 0); [lia|done].
Qed.

Lemma bread_miss s a b : brel s a -> find_block s b = None -> (a_used a < NBUF)%nat ->
  exists i s', bread dev b s = Ret i s' /\ brel s' (a_read b i a).
Proof.
  intros R Hf Hu. destruct (br_inv _ _ R) as [lru I]. destruct (lru_facts s lru I) as (Hnd & Hh & Hlen & Hmem).
  assert (Hs : scan (S NBUF) (nxt s) (fun b0 => same_block dev b (buf_at s b0)) (nxt s bhead) = None).
  { rewrite (scan_next _ _ _ _ _ _ _ (bi_dll _ _ I)) by done.
    destruct (List.find _ lru) as [j|] eqn:E; [|done]. exfalso.
    apply List.find_some in E as [Hj [Hjd Hjb]%andb_true_iff]. apply Z.eqb_eq in Hjd, Hjb.
    assert (find_block s b = Some j); [|congruence]. apply (find_block_spec _ lru _ _ I). exists (buf_at s j).
    split; [|done]. apply list_lookup_lookup_total_lt. rewrite (bi_len _ _ I). by rewrite <- Hmem, list_elem_of_In. }
  destruct (List.find (fun b0 => refcnt (buf_at s b0) =? 0) (rev lru)) as [i|] eqn:E.
  2:{ rewrite <- (br_used _ _ R) in Hu. destruct (not_all_used s lru I Hu) as (i & Hi & Hr0).
      pose proof (List.find_none _ _ E i) as F. cbv beta in F. rewrite Hr0 in F. discriminate F.
      rewrite <- List.in_rev. by rewrite <- list_elem_of_In. }
  pose proof (List.find_some _ _ E) as [Hi Hr]. apply Z.eqb_eq in Hr.
  rewrite <- List.in_rev, <- list_elem_of_In, Hmem in Hi.
  assert (Hii : (i < length (bufs s))%nat) by (by rewrite (bi_len _ _ I)).
  assert (Hx : bufs s !! i = Some (buf_at s i)) by (by apply list_lookup_lookup_total_lt).
  assert (El : b_locked (buf_at s i) = 0).
  { destruct (decide (b_locked (buf_at s i) = 0)) as [|Hn]; [done|]. by destruct (bo_lock _ _ (bi_buf _ _ I i _ Hx) Hn). }
  eexists i, _. split.
  - unfold bread, bget. rewrite bind_assoc. change ((getS ≫= ?h) s) with (h s s). cbv beta. rewrite Hs.
    rewrite (scan_prev _ _ _ _ _ _ _ (bi_dll _ _ I)), E by done. rewrite bind_assoc.
    change ((modS ?f ≫= ?h) s) with (h tt (f s)). cbv beta zeta. rewrite bind_assoc.
    unfold acquiresleep at 1. unfold mbind at 1, M_bind at 1. rewrite buf_at_set by done. cbn [b_locked]. rewrite El.
    cbn [Z.eqb negb]. rewrite set_buf_twice. rewrite bind_mret. change ((getS ≫= ?h) ?s) with (h s s). cbv beta.
    rewrite buf_at_set by done. cbn [valid set_lock]. change (0 =? 0) with true. cbv beta iota.
    unfold virtio_disk_rw. change ((modS ?f ≫= ?h) ?s) with (h tt (f s)). cbv beta zeta iota.
    change ((modS ?f ≫= ?h) ?s) with (h tt (f s)). cbv beta. unfold mret, M_ret. rewrite !set_buf_twice.
    rewrite !buf_at_set by (cbn [bufs set_buf]; rewrite ?length_insert; done). reflexivity.
  - cbn [set_data set_lock valid b_dev blockno b_locked b_pid refcnt b_data disk set_buf me].
    assert (E0 : a_refs a b = 0) by (rewrite <- (br_refs _ _ R b); unfold refs; by rewrite Hf).
    assert (Eu : (a_used a - used1 (a_refs a b) + 1)%nat = S (a_used a)) by (rewrite E0; cbn; lia).
    unfold a_read. rewrite Eu, E0. exact (brel_recycle s a b i R Hf Hx Hr).
Qed.

Lemma bread_run s a b : brel s a -> a_lock a b = None -> a_refs a b < 2 ^ 32 - 1 ->
  a_refs a b <> 0 \/ (a_used a < NBUF)%nat ->
  exists i s', bread dev b s = Ret i s' /\ brel s' (a_read b i a).
Proof.
  intros R Hl Hr Hu. destruct (find_block s b) as [i|] eqn:Ef.
  - destruct (bget_hit s a b i R Ef Hl Hr) as (s' & E & R' & Hv). exists i, s'. split; [|done].
    unfold bread. rewrite (bind_Ret _ _ _ _ _ E). change ((getS ≫= ?h) ?s) with (h s s). cbv beta.
    by rewrite (proj2 (Z.eqb_neq _ 0) Hv).
  - apply (bread_miss s a b R Ef). destruct Hu as [Hn|]; [|done]. exfalso. apply Hn.
    rewrite <- (br_refs _ _ R b). unfold refs. by rewrite Ef.
Qed.


(** A buffer a client has a handle of. *)
Lemma handle_facts s a b i : brel s a -> a_handle a b = Some i ->
  find_block s b = Some i /\ (i < length (bufs s))%nat /\ refcnt (buf_at s i) = a_refs a b /\
  b_data (buf_at s i) = a_view a b /\ holder (buf_at s i) = a_lock a b /\ 0 < a_refs a b < 2 ^ 32 /\
  b_dev (buf_at s i) = dev /\ blockno (buf_at s i) = b /\ valid (buf_at s i) <> 0.
Proof.
  intros R Hh. destruct (br_handle _ _ R b i Hh) as [Hf Hn]. destruct (br_inv _ _ R) as [lru I].
  destruct (find_block_buf _ _ _ _ I Hf) as (Hx & Hd & Hb & Hv). pose proof (find_block_lt _ _ _ _ I Hf) as Hi.
  pose proof (br_refs _ _ R b) as Er. pose proof (br_view _ _ R b) as Ev. pose proof (br_lock _ _ R b) as El.
  unfold refs, view, lockst in *. rewrite Hf in *. pose proof (bo_refs _ _ (bi_buf _ _ I i _ Hx)).
  rewrite (bi_len _ _ I). split_and!; try done; lia.
Qed.

Lemma holding_run s a b i : brel s a -> a_handle a b = Some i -> a_lock a b = Some (a_me a) ->
  holdingsleep i s = Ret true s.
Proof.
  intros R Hh Hl. destruct (handle_facts s a b i R Hh) as (_ & _ & _ & _ & Eh & _). rewrite Hl in Eh.
  unfold holdingsleep, gets. unfold holder in Eh. destruct (Z.eqb_spec (b_locked (buf_at s i)) 0); [done|].
  injection Eh as ->. by rewrite (br_me _ _ R), Z.eqb_refl.
Qed.

Lemma bdata_run s a b i : brel s a -> a_handle a b = Some i -> bdata i s = Ret (a_view a b) s.
Proof. intros R Hh. destruct (handle_facts s a b i R Hh) as (_ & _ & _ & <- & _). done. Qed.

Lemma find_block_set s i x c : bufs s !! i = Some (buf_at s i) ->
  b_dev x = b_dev (buf_at s i) -> blockno x = blockno (buf_at s i) -> find_block (set_buf i x s) c = find_block s c.
Proof.
  intros Hx Ed Eb. unfold find_block, set_buf. cbn [bufs]. apply (first_index_same _ _ _ (buf_at s i)); [done|].
  unfold same_block. by rewrite Ed, Eb.
Qed.

Lemma bmodify_run s a b i f : brel s a -> a_handle a b = Some i ->
  exists s', bmodify i f s = Ret tt s' /\ brel s' (a_modify b f a).
Proof.
  intros R Hh. destruct (handle_facts s a b i R Hh) as (Hf & Hi & Er & Ev & El & Hr & Hd & Hb & Hv).
  eexists. split; [reflexivity|]. set (x := set_data _ _ _).
  eapply brel_ext; [eapply (brel_set s a b i x R Hf); try done|..]; unfold x; cbn [refcnt set_data b_locked]; try lia;
    cbn [a_refs a_view a_lock a_handle a_disk a_writes a_me a_used a_set a_modify refcnt set_data b_data]; try done.
  - intros c. unfold zupd. destruct (Z.eqb_spec c b) as [->|]; [done|done].
  - intros c. by rewrite Ev.
  - intros c. unfold zupd, holder. cbn [b_locked b_pid set_data]. fold (holder (buf_at s i)).
    destruct (Z.eqb_spec c b) as [->|]; [done|done].
  - intros c j Hj. rewrite find_block_set by (done || by apply list_lookup_lookup_total_lt).
    rewrite <- (br_refs _ _ R). by apply (br_handle _ _ R).
  - rewrite Er. unfold used1. destruct (Z.eqb_spec (a_refs a b) 0); [lia|].
    destruct (br_inv _ _ R) as [lru I]. rewrite <- (br_used _ _ R).
    destruct (nref_insert s i (buf_at s i) (buf_at s i)) as [_ Hp]; [by apply list_lookup_lookup_total_lt|].
    rewrite Er in Hp. specialize (Hp ltac:(lia)). lia.
Qed.

Lemma a_used_pos s a b i : brel s a -> a_handle a b = Some i -> (0 < a_used a)%nat.
Proof.
  intros R Hh. destruct (handle_facts s a b i R Hh) as (_ & Hi & Er & _ & _ & Hr & _). rewrite <- (br_used _ _ R).
  destruct (nref_insert s i (buf_at s i) (buf_at s i)) as [_ Hp]; [by apply list_lookup_lookup_total_lt|].
  apply Hp. lia.
Qed.

Lemma bwrite_run s a b i : brel s a -> a_handle a b = Some i -> a_lock a b = Some (a_me a) ->
  exists s', bwrite i s = Ret tt s' /\ brel s' (a_write b a).
Proof.
  intros R Hh Hl. destruct (handle_facts s a b i R Hh) as (Hf & Hi & Er & Ev & El & Hr & Hd & Hb & Hv).
  destruct (br_inv _ _ R) as [lru I]. eexists. split.
  { unfold bwrite. rewrite (bind_Ret _ _ _ _ _ (holding_run s a b i R Hh Hl)). reflexivity. }
  cbv beta zeta iota. rewrite Hb, Ev. split; [| |intros c|apply R|apply R|intros c|..];
    cbn [a_refs a_view a_lock a_handle a_disk a_writes a_me a_used a_write dwrites me disk].
  - exists lru. split; [apply I|apply I|apply I| |apply I]. cbn [disk bufs]. intros j y Hy.
    destruct (bi_buf _ _ I j y Hy) as [B1 B2 B3 B4]. split; try done. intros Dy Ry. rewrite B4 by done.
    rewrite zupd_ne; [done|]. intros E.
    assert (find_block s b = Some j) by (apply (find_block_spec s lru b j I); by exists y).
    assert (j = i) as -> by congruence. rewrite (buf_at_lookup s lru i y I Hy) in Er. lia.
  - apply R.
  - rewrite <- (br_view _ _ R c). unfold view. change (find_block _ c) with (find_block s c) at 1.
    destruct (find_block s c) eqn:Ec; [done|]. cbn [disk]. rewrite zupd_ne; [done|congruence].
  - unfold zupd. destruct (c =? b); [done|apply R].
  - by rewrite (br_writes _ _ R).
  - apply R.
  - apply R.
Qed.

Lemma brel_links s a n p : brel s a -> (exists lru, bio_inv (set_links n p s) lru) -> brel (set_links n p s) a.
Proof. intros [I R V L H D W Me U] I'. by split. Qed.

Lemma brelse_run s a b i : brel s a -> a_handle a b = Some i -> a_lock a b = Some (a_me a) ->
  (a_refs a b = 1 -> a_view a b = a_disk a b) ->
  exists s', brelse i s = Ret tt s' /\ brel s' (a_relse b a).
Proof.
  intros R Hh Hl Hc. destruct (handle_facts s a b i R Hh) as (Hf & Hi & Er & Ev & El & Hr & Hd & Hb & Hv).
  pose proof (a_used_pos s a b i R Hh) as Hup.
  set (x := set_refcnt (a_refs a b - 1) (set_lock 0 0 (buf_at s i))). set (s1 := set_buf i x s).
  assert (R1 : brel s1 (a_relse b a)).
  { eapply brel_ext; [eapply (brel_set s a b i x R Hf); try done|..]; unfold x; cbn [refcnt set_refcnt set_lock b_locked b_data]; try lia;
      try (intros; rewrite Ev; apply Hc; lia); try done;
      cbn [a_refs a_view a_lock a_handle a_disk a_writes a_me a_used a_set a_relse refcnt set_refcnt set_lock b_data]; try done.
    - intros c. unfold zupd. destruct (Z.eqb_spec c b) as [->|]; [done|done].
    - intros c j Hj. unfold s1. rewrite find_block_set by (done || by apply list_lookup_lookup_total_lt).
      destruct (decide (c = b)) as [->|Hn].
      + rewrite zupd_eq. destruct (Z.eqb_spec (a_refs a b) 1); [by rewrite zupd_eq in Hj|]. split; [congruence|lia].
      + rewrite zupd_ne by done. rewrite <- (br_refs _ _ R). apply (br_handle _ _ R).
        destruct (Z.eqb_spec (a_refs a b) 1); [by rewrite zupd_ne in Hj by done|done].
    - unfold used1. destruct (Z.eqb_spec (a_refs a b) 0), (Z.eqb_spec (a_refs a b - 1) 0); lia. }
  assert (Es : brelse i s = if refcnt (buf_at s1 i) =? 0 then Ret tt (push_front i (unlink i s1)) else Ret tt s1).
  { unfold brelse. rewrite (bind_Ret _ _ _ _ _ (holding_run s a b i R Hh Hl)). cbn [negb].
    unfold releasesleep. change ((modS ?f ≫= ?h) ?s) with (h tt (f s)). cbv beta.
    change ((modS ?f ≫= ?h) ?s) with (h tt (f s)). cbv beta. change ((getS ≫= ?h) ?s) with (h s s). cbv beta.
    rewrite set_buf_twice, !(buf_at_set s) by done. cbn [set_refcnt refcnt set_lock]. rewrite Er, u32_small by lia.
    unfold s1 at 1. rewrite (buf_at_set s) by done. cbn [x refcnt set_refcnt]. by destruct (a_refs a b - 1 =? 0). }
  rewrite Es. unfold s1 at 1. rewrite buf_at_set by done. cbn [x refcnt set_refcnt].
  destruct (Z.eqb_spec (a_refs a b - 1) 0) as [E|E]; [|by exists s1].
  eexists. split; [reflexivity|]. destruct (br_inv _ _ R1) as [lru I1].
  destruct (lru_facts s1 lru I1) as (Hnd & Hhd & Hlen & Hmem).
  assert (Hin : i ∈ lru). { apply Hmem. rewrite <- (bi_len _ _ I1). unfold s1. cbn [bufs set_buf]. by rewrite length_insert. }
  apply list_elem_of_split in Hin as (l1 & l2 & ->).
  assert (Hnd' : NoDup (i :: bhead :: l1 ++ l2)).
  { rewrite Permutation_swap. by rewrite (Permutation_middle l1 l2 i). }
  apply (brel_links _ _ _ _ R1). exists (i :: l1 ++ l2). split.
  - apply (dll_push (unlink i s1)); [by apply dll_unlink; [apply I1|]| |].
    + by apply NoDup_cons in Hnd' as [_ ?].
    + by apply NoDup_cons in Hnd' as [? _].
  - rewrite Permutation_middle. apply I1.
  - apply I1.
  - apply I1.
  - apply I1.
Qed.

Lemma pin_run s a b i d : brel s a -> a_handle a b = Some i -> 0 < a_refs a b + d < 2 ^ 32 ->
  brel (set_buf i (set_refcnt (u32 (refcnt (buf_at s i) + d)) (buf_at s i)) s) (a_pin d b a).
Proof.
  intros R Hh Hrd. destruct (handle_facts s a b i R Hh) as (Hf & Hi & Er & Ev & El & Hr & Hd & Hb & Hv).
  pose proof (a_used_pos s a b i R Hh) as Hup. rewrite Er, u32_small by lia. set (x := set_refcnt _ _).
  eapply brel_ext; [eapply (brel_set s a b i x R Hf); try done|..]; unfold x; cbn [refcnt set_refcnt b_locked b_data]; try lia;
    cbn [a_refs a_view a_lock a_handle a_disk a_writes a_me a_used a_set a_pin refcnt set_refcnt b_data]; try done.
  - intros c. unfold zupd. destruct (Z.eqb_spec c b) as [->|]; [done|done].
  - intros c. unfold zupd, holder. cbn [b_locked b_pid set_refcnt]. fold (holder (buf_at s i)).
    destruct (Z.eqb_spec c b) as [->|]; [done|done].
  - intros c j Hj. rewrite find_block_set by (done || by apply list_lookup_lookup_total_lt).
    destruct (br_handle _ _ R c j Hj) as [? Hn]. split; [done|]. rewrite (br_refs _ _ R) in Hn.
    unfold zupd. destruct (Z.eqb_spec c b); [lia|done].
  - unfold used1. destruct (Z.eqb_spec (a_refs a b) 0), (Z.eqb_spec (a_refs a b + d) 0); lia.
Qed.

Lemma bpin_run s a b i : brel s a -> a_handle a b = Some i -> a_refs a b < 2 ^ 32 - 1 ->
  exists s', bpin i s = Ret tt s' /\ brel s' (a_pin 1 b a).
Proof.
  intros R Hh Hr. destruct (handle_facts s a b i R Hh) as (_ & _ & _ & _ & _ & ? & _).
  eexists. split; [reflexivity|]. apply (pin_run s a b i 1); [done|done|lia].
Qed.

Lemma bunpin_run s a b i : brel s a -> a_handle a b = Some i -> 1 < a_refs a b ->
  exists s', bunpin i s = Ret tt s' /\ brel s' (a_pin (-1) b a).
Proof.
  intros R Hh Hr. destruct (handle_facts s a b i R Hh) as (_ & _ & _ & _ & _ & ? & _).
  eexists. split; [reflexivity|]. apply (pin_run s a b i (-1)); [done|done|lia].
Qed.

(** ** Clients of the cache *)
Inductive bop : Type :=
  | BRead (b : Z) | BModify (b : Z) (f : list Z -> list Z) | BWrite (b : Z) | BRelse (b : Z) | BPin (b : Z) | BUnpin (b : Z).

(** The specification: what an operation of a process that follows the
    protocol (it reads before it uses a block, releases what it read, and gives
    up a block it changed only when the disk has it) does to the blocks, and the
    data a read gives. *)
Definition held (b : Z) (a : babs) : bool := bool_decide (a_lock a b = Some (a_me a)).

Definition a_step (op : bop) (a : babs) : option (list Z * babs) :=
  match op with
  | BRead b =>
      if bool_decide (a_lock a b = None) && (a_refs a b <? 2 ^ 32 - 1) &&
         (negb (a_refs a b =? 0) || Nat.ltb (a_used a) NBUF)
      then Some (a_view a b, a_read b 0 a) else None
  | BModify b f => if held b a then Some ([], a_modify b f a) else None
  | BWrite b => if held b a then Some ([], a_write b a) else None
  | BRelse b =>
      if held b a && (negb (a_refs a b =? 1) || bool_decide (a_view a b = a_disk a b))
      then Some ([], a_relse b a) else None
  | BPin b => if held b a && (a_refs a b <? 2 ^ 32 - 1) then Some ([], a_pin 1 b a) else None
  | BUnpin b => if held b a && (1 <? a_refs a b) then Some ([], a_pin (-1) b a) else None
  end.

(** The client keeps the pointers [bread] returned. *)
Definition c_step (op : bop) (h : Z -> option nat) : M bcache (list Z * (Z -> option nat)) :=
  match op with
  | BRead b => i ← bread dev b; d ← bdata i; mret (d, zupd h b (Some i))
  | BModify b f => match h b with Some i => _ ← bmodify i f; mret ([], h) | None => diverge end
  | BWrite b => match h b with Some i => _ ← bwrite i; mret ([], h) | None => diverge end
  | BRelse b => match h b with Some i => _ ← brelse i; mret ([], zupd h b None) | None => diverge end
  | BPin b => match h b with Some i => _ ← bpin i; mret ([], h) | None => diverge end
  | BUnpin b => match h b with Some i => _ ← bunpin i; mret ([], h) | None => diverge end
  end.

Fixpoint a_run (ops : list bop) (a : babs) : option (list (list Z) * babs) :=
  match ops with
  | [] => Some ([], a)
  | op :: ops =>
      match a_step op a with
      | Some (r, a1) => match a_run ops a1 with Some (rs, a2) => Some (r :: rs, a2) | None => None end
      | None => None
      end
  end.

Fixpoint c_run (ops : list bop) (h : Z -> option nat) : M bcache (list (list Z) * (Z -> option nat)) :=
  match ops with
  | [] => mret ([], h)
  | op :: ops =>
      x ← c_step op h;
      y ← c_run ops (snd x);
      mret (fst x :: fst y, snd y)
  end.

Definition with_handles (h : Z -> option nat) (a : babs) : babs :=
  mkAbs (a_refs a) (a_view a) (a_lock a) h (a_disk a) (a_writes a) (a_me a) (a_used a).

Record crel (h : Z -> option nat) (s : bcache) (a : babs) : Prop := {
  cr_rel : brel s (with_handles h a);
  cr_held : forall b, a_lock a b = Some (a_me a) -> is_Some (h b)
}.

Lemma c_step_run op h s a r a' : crel h s a -> a_step op a = Some (r, a') ->
  exists h' s', c_step op h s = Ret (r, h') s' /\ crel h' s' a'.
Proof.
  intros [R Hh] Hs. assert (Held : forall b, held b a = true -> exists i, h b = Some i /\ a_lock a b = Some (a_me a)).
  { intros b Hb%bool_decide_eq_true. destruct (Hh b Hb) as [i ?]. by exists i. }
  destruct op as [b|b f|b|b|b|b]; cbn [a_step c_step] in *.
  - destruct (bool_decide_reflect (a_lock a b = None)) as [El|]; [|done].
    destruct (Z.ltb_spec (a_refs a b) (2 ^ 32 - 1)); [|done]. cbn [andb] in Hs.
    destruct (negb (a_refs a b =? 0) || Nat.ltb (a_used a) NBUF) eqn:Eu; [|done]. injection Hs as <- <-.
    destruct (bread_run s (with_handles h a) b R El) as (i & s' & E & R'); [done| |].
    { apply orb_true_iff in Eu as [?%negb_true_iff%Z.eqb_neq|?%Nat.ltb_lt]; [by left|by right]. }
    eexists _, s'. rewrite (bind_Ret _ _ _ _ _ E).
    assert (Hi : a_handle (a_read b i (with_handles h a)) b = Some i) by (cbn; apply zupd_eq).
    rewrite (bind_Ret _ _ _ _ _ (bdata_run _ _ _ _ R' Hi)). split; [reflexivity|]. split; [exact R'|].
    intros c. cbn. unfold zupd. destruct (c =? b); [done|apply Hh].
  - destruct (held b a) eqn:E; [|done]. destruct (Held b E) as (i & Ei & El). rewrite Ei. injection Hs as <- <-.
    destruct (bmodify_run s (with_handles h a) b i f R Ei) as (s' & Es & R').
    eexists _, s'. rewrite (bind_Ret _ _ _ _ _ Es). split; [reflexivity|]. by split.
  - destruct (held b a) eqn:E; [|done]. destruct (Held b E) as (i & Ei & El). rewrite Ei. injection Hs as <- <-.
    destruct (bwrite_run s (with_handles h a) b i R Ei El) as (s' & Es & R').
    eexists _, s'. rewrite (bind_Ret _ _ _ _ _ Es). split; [reflexivity|]. by split.
  - destruct (held b a) eqn:E; [|done]. cbn [andb] in Hs. destruct (Held b E) as (i & Ei & El). rewrite Ei.
    destruct (negb (a_refs a b =? 1) || bool_decide (a_view a b = a_disk a b)) eqn:Ec; [|done]. injection Hs as <- <-.
    destruct (brelse_run s (with_handles h a) b i R Ei El) as (s' & Es & R').
    { cbn. intros E1. rewrite E1 in Ec. by apply bool_decide_eq_true in Ec. }
    eexists _, s'. rewrite (bind_Ret _ _ _ _ _ Es). split; [reflexivity|]. split.
    + eapply brel_ext; [exact R'|..]; try done. cbn. intros c j Hj.
      destruct (decide (c = b)) as [->|Hn]; [by rewrite zupd_eq in Hj|]. rewrite zupd_ne in Hj by done.
      destruct (br_handle _ _ R' c j) as [Hf Hr]; [|rewrite (br_refs _ _ R') in Hr; done].
      cbn. destruct (a_refs a b =? 1); [by rewrite zupd_ne|done].
    + intros c. cbn. unfold zupd. destruct (c =? b); [done|apply Hh].
  - destruct (held b a) eqn:E; [|done]. cbn [andb] in Hs. destruct (Held b E) as (i & Ei & El). rewrite Ei.
    destruct (Z.ltb_spec (a_refs a b) (2 ^ 32 - 1)); [|done]. injection Hs as <- <-.
    destruct (bpin_run s (with_handles h a) b i R Ei) as (s' & Es & R'); [done|].
    eexists _, s'. rewrite (bind_Ret _ _ _ _ _ Es). split; [reflexivity|]. by split.
  - destruct (held b a) eqn:E; [|done]. cbn [andb] in Hs. destruct (Held b E) as (i & Ei & El). rewrite Ei.
    destruct (Z.ltb_spec 1 (a_refs a b)); [|done]. injection Hs as <- <-.
    destruct (bunpin_run s (with_handles h a) b i R Ei) as (s' & Es & R'); [done|].
    eexists _, s'. rewrite (bind_Ret _ _ _ _ _ Es). split; [reflexivity|]. by split.
Qed.

(** C8: whatever sequence of reads, changes, writes, releases, pins
    and unpins a client makes within the protocol, the cache (its buffer array,
    reference counts, sleep locks and least-recently-used list) behaves as the
    blocks themselves: every read gives the block's current contents, written to
    disk or not, and the disk receives exactly the writes. *)
Theorem bcache_refines ops h s a rs a' :
  crel h s a -> a_run ops a = Some (rs, a') ->
  exists h' s', c_run ops h s = Ret (rs, h') s' /\ crel h' s' a'.
Proof.
  revert h s a rs. induction ops as [|op ops IH]; intros h s a rs R Ha; cbn [a_run c_run] in *.
  - injection Ha as <- <-. by exists h, s.
  - destruct (a_step op a) as [[r a1]|] eqn:E1; [|done]. destruct (a_run ops a1) as [[rs1 a2]|] eqn:E2; [|done].
    injection Ha as <- <-. destruct (c_step_run op h s a r a1 R E1) as (h1 & s1 & Es & R1).
    rewrite (bind_Ret _ _ _ _ _ Es). cbn [fst snd]. destruct (IH h1 s1 a1 rs1 R1 E2) as (h2 & s2 & E3 & R2).
    rewrite (bind_Ret _ _ _ _ _ E3). by exists h2, s2.
Qed.
End cache.


(** ** Boot: the zeroed cache in front of a disk *)
Definition zero_buf : buf := mkBuf 0 0 0 0 0 0 (replicate (Z.to_nat BSIZE) 0).
Definition cold (d : Z -> list Z) (pid : Z) : bcache :=
  mkBc (replicate NBUF zero_buf) (fun _ => 0%nat) (fun _ => 0%nat) d [] pid.
Definition a_cold (d : Z -> list Z) (pid : Z) : babs :=
  mkAbs (fun _ => 0) d (fun _ => None) (fun _ => None) d [] pid 0.

Lemma binit_run dev d pid : dev <> 0 -> exists s', binit (cold d pid) = Ret tt s' /\ brel dev s' (a_cold d pid).
Proof.
  intros Hdev. eexists. split; [reflexivity|]. set (s1 := fold_left _ _ _).
  assert (Hb : bufs s1 = replicate NBUF zero_buf) by (unfold s1; vm_compute; reflexivity).
  assert (Hd : disk s1 = d) by reflexivity.
  assert (Hall : forall i x, bufs s1 !! i = Some x -> x = zero_buf).
  { intros i x. rewrite Hb. by intros [-> _]%lookup_replicate. }
  assert (Hn : forall c, find_block dev s1 c = None).
  { intros c. unfold find_block. apply first_index_None. intros i x ->%Hall. unfold same_block, zero_buf. cbn [b_dev].
    by rewrite (proj2 (Z.eqb_neq 0 dev)). }
  split; cbn [a_refs a_view a_lock a_handle a_disk a_writes a_me a_used a_cold];
    [|intros b|intros b|intros b|intros b i E; discriminate E|intros b; by rewrite Hd|reflexivity|reflexivity|].
  - exists (rev (seq 0 NBUF)). split.
    + unfold s1. vm_compute. repeat split.
    + symmetry. apply Permutation_rev.
    + rewrite Hb. apply length_replicate.
    + intros i x ->%Hall. split; cbn; [right; lia|lia|done|done].
    + intros i j x y ->%Hall _ E. by cbn in E.
  - unfold refs. by rewrite Hn.
  - unfold view. by rewrite Hn, Hd.
  - unfold lockst. by rewrite Hn.
  - unfold nref. rewrite Hb. vm_compute. reflexivity.
Qed.

(** Two writers of block 7, the first change only pinned, and its commit. *)
Lemma bcache_witness : exists h' s', exists s0, binit (cold (fun b => [b]) 3) = Ret tt s0 /\
  c_run 1 [BRead 7; BModify 7 (fun _ => [1; 2]); BPin 7; BRelse 7; BRead 9; BRead 7; BWrite 7; BUnpin 7; BRelse 7]
    (fun _ => None) s0 = Ret ([[7]; []; []; []; [9]; [1; 2]; []; []; []], h') s' /\ disk s' 7 = [1; 2].
Proof.
  destruct (binit_run 1 (fun b => [b]) 3 ltac:(lia)) as (s0 & E0 & R0).
  set (ops := [BRead 7; BModify 7 (fun _ => [1; 2]); BPin 7; BRelse 7; BRead 9; BRead 7; BWrite 7; BUnpin 7; BRelse 7]).
  assert (Er : option_map (fun x => (fst x, a_disk (snd x) 7)) (a_run ops (a_cold (fun b => [b]) 3)) =
    Some ([[7]; []; []; []; [9]; [1; 2]; []; []; []], [1; 2])) by (vm_compute; reflexivity).
  destruct (a_run ops (a_cold (fun b => [b]) 3)) as [[rs a']|] eqn:E; [|discriminate Er].
  injection Er as Er Ed.
  destruct (bcache_refines 1 ops (fun _ => None) s0 (a_cold (fun b => [b]) 3) rs a') as (h' & s' & Es & [R' _]);
    [split; [exact R0|done]|exact E|].
  exists h', s', s0. split; [exact E0|]. rewrite Er in Es. split; [exact Es|].
  rewrite (br_disk _ _ _ R'). exact Ed.
Defined.
