(* ===== verification/BlockIface.v ===== *)
(** What the log promises to the file system.

    [BlockOps] are the operations fs.c uses, on the state of the layers below:
    reading a block gives a pointer to a buffer, whose data the caller reads and
    changes until it releases it; [log_write] makes a change part of the
    transaction.  [BlockLaws] says that, within a transaction, the buffers are
    the blocks: [bview] is the contents of each block, [tx s L H] that a
    transaction has logged the blocks [L] and holds the buffers [H], and an
    update of a block is seen by every later read.  The budget is explicit: the
    log takes [MAXOPBLOCKS] blocks of an operation and the cache a few more
    buffers. *)
From S2P Require Import Prelude Riscv PhysMem Bytes Bio.

Class BlockOps (S : Type) : Type := {
  blk_read : Z -> Z -> M S nat;
  blk_data : nat -> M S (list Z);
  blk_set : nat -> list Z -> M S unit;
  blk_log : nat -> M S unit;
  blk_relse : nat -> M S unit;
  blk_begin : M S unit;
  blk_end : M S unit;
  (** [initlog(dev, sb)], with [sb->logstart] *)
  blk_init : Z -> Z -> M S unit
}.

(** [L] with [b] logged. *)
Definition add_block (b : Z) (L : list Z) : list Z := if bool_decide (b ∈ L) then L else L ++ [b].

Class BlockLaws (S : Type) `{!BlockOps S} (dev : Z) : Type := {
  tx : S -> list Z -> list (Z * nat) -> Prop;
  idle : S -> Prop;
  bview : S -> Z -> list Z;
  (** The blocks of the file system, all but the log's. *)
  home : Z -> Prop;
  law_nodup : forall s L H, tx s L H -> NoDup L;
  law_len : forall s L H b, tx s L H -> home b -> length (bview s b) = Z.to_nat BSIZE;
  law_read : forall s L H b, tx s L H -> home b -> b ∉ H.*1 -> (length L + length H < 20)%nat ->
    exists i s', blk_read dev b s = Ret i s' /\ tx s' L ((b, i) :: H) /\ (forall x, bview s' x = bview s x);
  law_data : forall s L H b i, tx s L H -> (b, i) ∈ H -> blk_data i s = Ret (bview s b) s;
  law_update : forall s L H b i bs, tx s L H -> (b, i) ∈ H -> home b -> length bs = Z.to_nat BSIZE ->
    (length (add_block b L) <= 10)%nat ->
    exists s', (_ ← blk_set i bs; blk_log i) s = Ret tt s' /\ tx s' (add_block b L) H /\
      (forall x, bview s' x = zupd (bview s) b bs x);
  law_relse : forall s L H b i, tx s L ((b, i) :: H) ->
    exists s', blk_relse i s = Ret tt s' /\ tx s' L H /\ (forall x, bview s' x = bview s x);
  law_begin : forall s, idle s ->
    exists s', blk_begin s = Ret tt s' /\ tx s' [] [] /\ (forall x, bview s' x = bview s x);
  law_end : forall s L, tx s L [] ->
    exists s', blk_end s = Ret tt s' /\ idle s' /\ (forall x, home x -> bview s' x = bview s x)
}.
