(* ===== verification/Log.v ===== *)
(** The write-ahead log, kernel/log.c, over the buffer cache.

    [lst] is the cache and [struct log].  The header block is kept on disk as
    bytes ([hd_n], [hd_block] read it).  The spin lock makes each of [begin_op],
    [log_write] and the two parts of [end_op] atomic; a [begin_op] that has to
    wait blocks.  What a crash leaves is the disk after some prefix of the block
    writes. *)
From S2P Require Import Prelude Riscv PhysMem Bytes Bio.

Definition LOGBLOCKS : Z := MAXOPBLOCKS * 3.

Record logheader : Type := mkLh { lh_n : Z; lh_block : list Z }.
Record log : Type := mkLog { l_start : Z; outstanding : Z; committing : Z; l_dev : Z; lh : logheader }.
Record lst : Type := mkLst { l_bc : bcache; l_log : log }.

(** [lh->n] and [lh->block[i]] of a header block. *)
Definition hd_n (bs : list Z) : Z := i32 (getn 4 bs 0).
Definition hd_block (bs : list Z) (i : nat) : Z := i32 (getn 4 bs (4 + 4 * i)).
Definition put_n (v : Z) (bs : list Z) : list Z := putn 4 bs 0 v.
Definition put_block (i : nat) (v : Z) (bs : list Z) : list Z := putn 4 bs (4 + 4 * i) v.

Definition bc {A} (m : M bcache A) : M lst A := zoom l_bc (fun b s => mkLst b (l_log s)) m.
Definition getlog : M lst log := gets l_log.
Definition modlog (f : log -> log) : M lst unit := modS (fun s => mkLst (l_bc s) (f (l_log s))).
Definition set_lh (h : logheader) (l : log) : log := mkLog (l_start l) (outstanding l) (committing l) (l_dev l) h.
Definition set_ops (o c : Z) (l : log) : log := mkLog (l_start l) o c (l_dev l) (lh l).

(** [for(tail = 0; tail < log.lh.n; tail++)] *)
Fixpoint for_tail (tail n : nat) (body : nat -> M lst unit) : M lst unit :=
  match n with O => mret tt | S n => _ ← body tail; for_tail (S tail) n body end.

Definition install_one (recovering : bool) (tail : nat) : M lst unit :=
  l ← getlog;
  lbuf ← bc (bread (l_dev l) (i32 (l_start l + Z.of_nat tail + 1)));
  dbuf ← bc (bread (l_dev l) (lh_block (lh l) !!! tail));
  d ← bc (bdata lbuf);
  _ ← bc (bmodify dbuf (fun _ => d));
  _ ← bc (bwrite dbuf);
  _ ← (if recovering then mret tt else bc (bunpin dbuf));
  _ ← bc (brelse lbuf);
  bc (brelse dbuf).

Definition install_trans (recovering : bool) : M lst unit :=
  l ← getlog; for_tail 0 (Z.to_nat (lh_n (lh l))) (install_one recovering).

(** The header's blocks, one by one; beyond [LOGBLOCKS] the array ends. *)
Fixpoint read_blocks (bs : list Z) (i n : nat) (blocks : list Z) : list Z :=
  match n with O => blocks | S n => read_blocks bs (S i) n (<[i := hd_block bs i]> blocks) end.

Definition read_head : M lst unit :=
  l ← getlog;
  b ← bc (bread (l_dev l) (l_start l));
  d ← bc (bdata b);
  if LOGBLOCKS <? hd_n d then panic "log header out of bounds"
  else
    _ ← modlog (fun l => set_lh (mkLh (hd_n d) (read_blocks d 0 (Z.to_nat (hd_n d)) (lh_block (lh l)))) l);
    bc (brelse b).

Fixpoint fill_blocks (blocks : list Z) (i n : nat) (bs : list Z) : list Z :=
  match n with O => bs | S n => fill_blocks blocks (S i) n (put_block i (blocks !!! i) bs) end.
Definition fill_head (h : logheader) (bs : list Z) : list Z :=
  fill_blocks (lh_block h) 0 (Z.to_nat (lh_n h)) (put_n (lh_n h) bs).

Definition write_head : M lst unit :=
  l ← getlog;
  b ← bc (bread (l_dev l) (l_start l));
  _ ← bc (bmodify b (fill_head (lh l)));
  _ ← bc (bwrite b);
  bc (brelse b).

Definition clear_lh : M lst unit := modlog (fun l => set_lh (mkLh 0 (lh_block (lh l))) l).

Definition recover_from_log : M lst unit :=
  _ ← read_head;
  _ ← install_trans true;
  _ ← clear_lh;
  write_head.

Definition sizeof_logheader : Z := 4 + 4 * LOGBLOCKS.

(** [initlog], with the superblock's [logstart]. *)
Definition initlog (dev logstart : Z) : M lst unit :=
  if BSIZE <=? sizeof_logheader then panic "initlog: too big logheader"
  else
    _ ← modlog (fun l => mkLog (i32 logstart) (outstanding l) (committing l) dev (lh l));
    recover_from_log.

Definition begin_op : M lst unit := fun s =>
  let l := l_log s in
  if negb (committing l =? 0) then Block "log" s
  else if LOGBLOCKS <? lh_n (lh l) + (outstanding l + 1) * MAXOPBLOCKS then Block "log" s
  else Ret tt (mkLst (l_bc s) (set_ops (outstanding l + 1) (committing l) l)).

Definition write_one (tail : nat) : M lst unit :=
  l ← getlog;
  to ← bc (bread (l_dev l) (i32 (l_start l + Z.of_nat tail + 1)));
  from ← bc (bread (l_dev l) (lh_block (lh l) !!! tail));
  d ← bc (bdata from);
  _ ← bc (bmodify to (fun _ => d));
  _ ← bc (bwrite to);
  _ ← bc (brelse from);
  bc (brelse to).

Definition write_log : M lst unit := l ← getlog; for_tail 0 (Z.to_nat (lh_n (lh l))) write_one.

Definition commit : M lst unit :=
  l ← getlog;
  if 0 <? lh_n (lh l) then
    _ ← write_log;
    _ ← write_head;
    _ ← install_trans false;
    _ ← clear_lh;
    write_head
  else mret tt.

Definition end_op : M lst unit :=
  _ ← modlog (fun l => set_ops (outstanding l - 1) (committing l) l);
  l ← getlog;
  if negb (committing l =? 0) then panic "log.committing"
  else if outstanding l =? 0 then
    _ ← modlog (fun l => set_ops (outstanding l) 1 l);
    _ ← commit;
    modlog (fun l => set_ops (outstanding l) 0 l)
  else mret tt.

Definition log_write (b : nat) : M lst unit :=
  l ← getlog;
  if LOGBLOCKS <=? lh_n (lh l) then panic "too big a transaction"
  else if outstanding l <? 1 then panic "log_write outside of trans"
  else
    s ← getS;
    let bno := blockno (buf_at (l_bc s) b) in
    let n := Z.to_nat (lh_n (lh l)) in
    let i := default n (first_index (fun x => x =? bno) (take n (lh_block (lh l)))) in
    _ ← modlog (fun l => set_lh (mkLh (lh_n (lh l)) (<[i := bno]> (lh_block (lh l)))) l);
    if Nat.eqb i n then
      _ ← bc (bpin b);
      modlog (fun l => set_lh (mkLh (lh_n (lh l) + 1) (lh_block (lh l))) l)
    else mret tt.

(** ** The header block *)
Lemma bc_Ret {A} (m : M bcache A) b l a b' : m b = Ret a b' -> bc m (mkLst b l) = Ret a (mkLst b' l).
Proof. intros E. unfold bc, zoom. cbn [l_bc]. by rewrite E. Qed.

Lemma length_fill_blocks L i n bs :
  (4 + 4 * (i + n) <= length bs)%nat -> length (fill_blocks L i n bs) = length bs.
Proof.
  revert i bs. induction n as [|n IH]; intros i bs Hl; [done|]. cbn [fill_blocks].
  assert (El : length (put_block i (L !!! i) bs) = length bs) by (unfold put_block; apply length_putn; lia).
  rewrite IH; [done|]. rewrite El. lia.
Qed.

Lemma fill_blocks_n L i n bs : (4 + 4 * (i + n) <= length bs)%nat -> hd_n (fill_blocks L i n bs) = hd_n bs.
Proof.
  revert i bs. induction n as [|n IH]; intros i bs Hl; [done|]. cbn [fill_blocks].
  assert (El : length (put_block i (L !!! i) bs) = length bs) by (unfold put_block; apply length_putn; lia).
  rewrite IH by (rewrite El; lia). unfold hd_n, put_block. f_equal. apply getn_putn_ne; lia.
Qed.

Lemma fill_blocks_block L i n bs j :
  (4 + 4 * (i + n) <= length bs)%nat -> (forall k, (i <= k < i + n)%nat -> - 2 ^ 31 <= L !!! k < 2 ^ 31) ->
  hd_block (fill_blocks L i n bs) j = if decide (i <= j < i + n)%nat then L !!! j else hd_block bs j.
Proof.
  revert i bs. induction n as [|n IH]; intros i bs Hl HL; [by rewrite decide_False by lia|]. cbn [fill_blocks].
  assert (El : length (put_block i (L !!! i) bs) = length bs) by (unfold put_block; apply length_putn; lia).
  rewrite IH by (try rewrite El; try lia; intros; apply HL; lia).
  destruct (decide (S i <= j < S i + n)%nat); [by rewrite decide_True by lia|]. unfold hd_block, put_block.
  destruct (decide (j = i)) as [->|Hn].
  - rewrite decide_True by lia. rewrite getn_putn by lia. apply i32_u32, HL. lia.
  - rewrite decide_False by lia. f_equal. apply getn_putn_ne; lia.
Qed.

Lemma read_blocks_lookup bs i n L j :
  (i + n <= length L)%nat ->
  length (read_blocks bs i n L) = length L /\
  ((i <= j < i + n)%nat -> read_blocks bs i n L !!! j = hd_block bs j) /\
  (~ (i <= j < i + n)%nat -> read_blocks bs i n L !!! j = L !!! j).
Proof.
  revert i L. induction n as [|n IH]; intros i L Hl; cbn [read_blocks]; [split_and!; [done|lia|done]|].
  destruct (IH (S i) (<[i := hd_block bs i]> L)) as (E & Hin & Hout); [rewrite length_insert; lia|].
  rewrite length_insert in E. split_and!; [done| |].
  - intros Hj. destruct (decide (j = i)) as [->|]; [|apply Hin; lia].
    rewrite Hout by lia. apply list_lookup_total_insert_eq. lia.
  - intros Hj. rewrite Hout by lia. apply list_lookup_total_insert_ne. lia.
Qed.

Lemma for_tail_run (I : nat -> lst -> Prop) n t body s :
  (forall k s, (k < t + n)%nat -> I k s -> exists s', body k s = Ret tt s' /\ I (S k) s') ->
  I t s -> exists s', for_tail t n body s = Ret tt s' /\ I (t + n)%nat s'.
Proof.
  revert t s. induction n as [|n IH]; intros t s Hb Hi; cbn [for_tail].
  - exists s. by rewrite Nat.add_0_r.
  - destruct (Hb t s ltac:(lia) Hi) as (s1 & E & Hi1). rewrite (bind_Ret _ _ _ _ _ E).
    replace (t + S n)%nat with (S t + n)%nat by lia. apply IH; [|done]. intros k s2 Hk. apply Hb. lia.
Qed.

(** ** Moving blocks *)
Lemma brel_clean dev s a b : brel dev s a -> a_refs a b = 0 -> a_view a b = a_disk a b.
Proof.
  intros R Hr. destruct (br_inv _ _ _ R) as [lru I]. rewrite <- (br_view _ _ _ R), <- (br_disk _ _ _ R).
  rewrite <- (br_refs _ _ _ R) in Hr. unfold view, refs in *.
  destruct (find_block dev s b) as [i|] eqn:E; [|done].
  destruct (find_block_buf _ _ _ _ _ I E) as (Hx & Hd & Hb & _). rewrite <- Hb.
  by apply (bo_clean _ _ _ (bi_buf _ _ _ I i _ Hx)).
Qed.

Lemma refs_used dev s a b : brel dev s a -> a_refs a b <> 0 -> (0 < a_used a)%nat.
Proof.
  intros R Hr. destruct (br_inv _ _ _ R) as [lru I]. rewrite <- (br_refs _ _ _ R) in Hr. unfold refs in Hr.
  destruct (find_block dev s b) as [i|] eqn:E; [|done]. rewrite <- (br_used _ _ _ R).
  destruct (find_block_buf _ _ _ _ _ I E) as (Hx & _).
  destruct (nref_insert s i (buf_at s i) (buf_at s i) Hx) as [_ Hp]. by apply Hp.
Qed.

Section log_proofs.
Context (dev start : Z).
Context (Hstart : 0 < start < 2 ^ 31 - 100).

(** The block's contents reach another block, in the cache and on disk. *)
Definition a_copy (g b : Z) (a : babs) : babs :=
  mkAbs (a_refs a) (zupd (a_view a) g (a_view a b)) (a_lock a) (fun _ => None)
    (zupd (a_disk a) g (a_view a b)) (a_writes a ++ [(g, a_view a b)]) (a_me a) (a_used a).

(** As [a_copy] to [b], and one reference to [b] is given up. *)
Definition a_install (g b : Z) (a : babs) : babs :=
  mkAbs (zupd (a_refs a) b (a_refs a b - 1)) (zupd (a_view a) b (a_view a g)) (a_lock a) (fun _ => None)
    (zupd (a_disk a) b (a_view a g)) (a_writes a ++ [(b, a_view a g)]) (a_me a) (a_used a - (1 - used1 (a_refs a b - 1)))%nat.

Definition a_put (b : Z) (bs : list Z) (a : babs) : babs :=
  mkAbs (a_refs a) (zupd (a_view a) b bs) (a_lock a) (fun _ => None) (zupd (a_disk a) b bs)
    (a_writes a ++ [(b, bs)]) (a_me a) (a_used a).

Ltac bcstep H := rewrite (bind_Ret _ _ _ _ _ (bc_Ret _ _ _ _ _ H)).
Ltac acbn := cbn [a_refs a_view a_lock a_handle a_disk a_writes a_me a_used a_read a_modify a_write a_relse a_pin a_copy a_install a_put with_handles] in *.

Lemma copy_run s a g b (l : log) tail :
  brel dev s a -> l_dev l = dev -> i32 (l_start l + Z.of_nat tail + 1) = g -> lh_block (lh l) !!! tail = b ->
  g <> b -> a_lock a g = None -> a_lock a b = None -> 0 <= a_refs a g < 2 ^ 31 -> 0 <= a_refs a b < 2 ^ 31 ->
  (a_used a + 2 - used1 (a_refs a b) <= NBUF)%nat ->
  exists s', write_one tail (mkLst s l) = Ret tt (mkLst s' l) /\ brel dev s' (a_copy g b a).
Proof.
  intros R Hd Hg Hb Hne Lg Lb Rg Rb Hu. unfold write_one, getlog, gets. unfold mbind at 1, M_bind at 1. cbn [l_log].
  rewrite Hd, Hg, Hb.
  assert (U1 : (used1 (a_refs a g) <= a_used a)%nat).
  { unfold used1. destruct (Z.eqb_spec (a_refs a g) 0); [lia|]. by pose proof (refs_used _ _ _ g R ltac:(done)). }
  assert (Hub : a_refs a b <> 0 \/ (a_used a + 2 <= NBUF)%nat).
  { unfold used1 in Hu. destruct (Z.eqb_spec (a_refs a b) 0); [right; lia|by left]. }
  assert (U2 : (used1 (a_refs a b) <= 1)%nat) by (unfold used1; destruct (a_refs a b =? 0); lia).
  destruct (bread_run dev s a g R Lg ltac:(lia) ltac:(right; lia)) as (i & s1 & E1 & R1). bcstep E1.
  destruct (bread_run dev s1 _ b R1) as (j & s2 & E2 & R2);
    [acbn; by rewrite zupd_ne|acbn; rewrite zupd_ne by done; lia|acbn; rewrite zupd_ne by done; destruct Hub;
      [by left|right; unfold used1; destruct (a_refs a g =? 0); lia]|].
  bcstep E2.
  assert (Hi : a_handle (a_read b j (a_read g i a)) g = Some i) by (acbn; by rewrite zupd_ne, zupd_eq by done).
  assert (Hj : a_handle (a_read b j (a_read g i a)) b = Some j) by (acbn; by rewrite zupd_eq).
  bcstep (bdata_run dev s2 _ b j R2 Hj).
  destruct (bmodify_run dev s2 _ g i (fun _ => a_view a b) R2 Hi) as (s3 & E3 & R3). bcstep E3.
  destruct (bwrite_run dev s3 _ g i R3 Hi) as (s4 & E4 & R4); [acbn; by rewrite zupd_ne, zupd_eq by done|]. bcstep E4.
  destruct (brelse_run dev s4 _ b j R4 Hj) as (s5 & E5 & R5); [acbn; by rewrite zupd_eq| |].
  { acbn. rewrite zupd_eq, !zupd_ne by done. intros. apply (brel_clean dev s); [done|lia]. } bcstep E5.
  assert (Hi5 : a_handle (a_relse b (a_write g (a_modify g (fun _ => a_view a b) (a_read b j (a_read g i a))))) g = Some i).
  { acbn. destruct (_ =? 1); rewrite !zupd_ne, zupd_eq by done; done. }
  destruct (brelse_run dev s5 _ g i R5 Hi5) as (s6 & E6 & R6); [acbn; by rewrite !zupd_ne, zupd_eq by done| |].
  { acbn. by rewrite !zupd_eq. }
  exists s6. split; [exact (bc_Ret _ _ _ _ _ E6)|]. eapply brel_ext; [exact R6|..]; acbn; try done.
  - intros c. zupd_cases; lia.
  - intros c. zupd_cases; done.
  - intros c. zupd_cases; done.
  - by rewrite zupd_eq.
  - rewrite !zupd_eq, !(zupd_ne _ b g), !(zupd_ne _ g b), !zupd_eq by done. unfold used1.
    destruct (Z.eqb_spec (a_refs a g) 0), (Z.eqb_spec (a_refs a b) 0), (Z.eqb_spec (a_refs a b + 1 - 1) 0),
      (Z.eqb_spec (a_refs a g + 1 - 1) 0); try lia; unfold used1 in U1; destruct (Z.eqb_spec (a_refs a g) 0); lia.
Qed.

(** The common part of installing a block: up to the disk write. *)
Lemma install_start s a g b (l : log) rec tail :
  brel dev s a -> l_dev l = dev -> i32 (l_start l + Z.of_nat tail + 1) = g -> lh_block (lh l) !!! tail = b ->
  g <> b -> a_lock a g = None -> a_lock a b = None -> 0 <= a_refs a g < 2 ^ 31 -> 0 <= a_refs a b < 2 ^ 31 ->
  (a_used a + 2 - used1 (a_refs a b) <= NBUF)%nat ->
  exists i j s4, let a4 := a_write b (a_modify b (fun _ => a_view a g) (a_read b j (a_read g i a))) in
    install_one rec tail (mkLst s l) =
      (_ ← (if rec then mret tt else bc (bunpin j)); _ ← bc (brelse i); bc (brelse j)) (mkLst s4 l) /\
    brel dev s4 a4 /\ a_handle a4 g = Some i /\ a_handle a4 b = Some j.
Proof.
  intros R Hd Hg Hb Hne Lg Lb Rg Rb Hu. unfold install_one, getlog, gets. unfold mbind at 1, M_bind at 1. cbn [l_log].
  rewrite Hd, Hg, Hb.
  assert (Hub : a_refs a b <> 0 \/ (a_used a + 2 <= NBUF)%nat).
  { unfold used1 in Hu. destruct (Z.eqb_spec (a_refs a b) 0); [right; lia|by left]. }
  assert (U2 : (used1 (a_refs a b) <= 1)%nat) by (unfold used1; destruct (a_refs a b =? 0); lia).
  destruct (bread_run dev s a g R Lg ltac:(lia) ltac:(right; lia)) as (i & s1 & E1 & R1). bcstep E1.
  destruct (bread_run dev s1 _ b R1) as (j & s2 & E2 & R2);
    [acbn; by rewrite zupd_ne|acbn; rewrite zupd_ne by done; lia|acbn; rewrite zupd_ne by done; destruct Hub;
      [by left|right; unfold used1; destruct (a_refs a g =? 0); lia]|].
  bcstep E2.
  assert (Hi : a_handle (a_read b j (a_read g i a)) g = Some i) by (acbn; by rewrite zupd_ne, zupd_eq by done).
  assert (Hj : a_handle (a_read b j (a_read g i a)) b = Some j) by (acbn; by rewrite zupd_eq).
  bcstep (bdata_run dev s2 _ g i R2 Hi).
  destruct (bmodify_run dev s2 _ b j (fun _ => a_view a g) R2 Hj) as (s3 & E3 & R3). bcstep E3.
  destruct (bwrite_run dev s3 _ b j R3 Hj) as (s4 & E4 & R4); [acbn; by rewrite zupd_eq by done|]. bcstep E4.
  exists i, j, s4. split_and!; [reflexivity|exact R4|exact Hi|exact Hj].
Qed.

Lemma used_le s a g b : brel dev s a -> (used1 (a_refs a g) <= a_used a)%nat /\ (used1 (a_refs a b) <= a_used a)%nat.
Proof.
  intros R. unfold used1.
  destruct (Z.eqb_spec (a_refs a g) 0), (Z.eqb_spec (a_refs a b) 0); split; try lia;
    try (by pose proof (refs_used _ _ _ g R ltac:(done))); by pose proof (refs_used _ _ _ b R ltac:(done)).
Qed.

Lemma install_recover s a g b (l : log) tail :
  brel dev s a -> l_dev l = dev -> i32 (l_start l + Z.of_nat tail + 1) = g -> lh_block (lh l) !!! tail = b ->
  g <> b -> a_lock a g = None -> a_lock a b = None -> 0 <= a_refs a g < 2 ^ 31 -> 0 <= a_refs a b < 2 ^ 31 ->
  (a_used a + 2 - used1 (a_refs a b) <= NBUF)%nat ->
  exists s', install_one true tail (mkLst s l) = Ret tt (mkLst s' l) /\ brel dev s' (a_copy b g a).
Proof.
  intros R Hd Hg Hb Hne Lg Lb Rg Rb Hu.
  destruct (install_start s a g b l true tail R Hd Hg Hb Hne Lg Lb Rg Rb Hu) as (i & j & s4 & E & R4 & Hi & Hj).
  rewrite E. clear E. rewrite bind_mret. destruct (used_le s a g b R) as [U1 U2].
  destruct (brelse_run dev s4 _ g i R4 Hi) as (s5 & E5 & R5); [acbn; by rewrite zupd_ne, zupd_eq by done| |].
  { acbn. zupd_cases. intros. apply (brel_clean dev s); [done|lia]. }
  bcstep E5. destruct (brelse_run dev s5 _ b j R5) as (s6 & E6 & R6).
  { acbn. destruct (_ =? 1); rewrite ?(zupd_ne _ g b), zupd_eq by done; done. }
  { acbn. by rewrite zupd_ne, zupd_eq by done. }
  { acbn. by rewrite !zupd_eq. }
  exists s6. split; [exact (bc_Ret _ _ _ _ _ E6)|]. eapply brel_ext; [exact R6|..]; acbn; try done.
  - intros c. zupd_cases; lia.
  - intros c. zupd_cases; done.
  - intros c. zupd_cases; done.
  - by rewrite zupd_eq.
  - rewrite !(zupd_ne _ g b), !(zupd_ne _ b g), !zupd_eq by done. unfold used1 in *.
    destruct (Z.eqb_spec (a_refs a g) 0), (Z.eqb_spec (a_refs a b) 0), (Z.eqb_spec (a_refs a b + 1 - 1) 0),
      (Z.eqb_spec (a_refs a g + 1 - 1) 0); lia.
Qed.

Lemma install_unpin s a g b (l : log) tail :
  brel dev s a -> l_dev l = dev -> i32 (l_start l + Z.of_nat tail + 1) = g -> lh_block (lh l) !!! tail = b ->
  g <> b -> a_lock a g = None -> a_lock a b = None -> 0 <= a_refs a g < 2 ^ 31 -> 1 <= a_refs a b < 2 ^ 31 ->
  (a_used a + 2 - used1 (a_refs a b) <= NBUF)%nat ->
  exists s', install_one false tail (mkLst s l) = Ret tt (mkLst s' l) /\ brel dev s' (a_install g b a).
Proof.
  intros R Hd Hg Hb Hne Lg Lb Rg Rb Hu.
  destruct (install_start s a g b l false tail R Hd Hg Hb Hne Lg Lb Rg ltac:(lia) Hu) as (i & j & s4 & E & R4 & Hi & Hj).
  rewrite E. clear E. destruct (used_le s a g b R) as [U1 U2].
  destruct (bunpin_run dev s4 _ b j R4 Hj) as (s5 & E5 & R5); [acbn; rewrite zupd_eq, zupd_ne by done; lia|]. bcstep E5.
  destruct (brelse_run dev s5 _ g i R5 Hi) as (s6 & E6 & R6); [acbn; by rewrite zupd_ne, zupd_eq by done| |].
  { acbn. zupd_cases. intros. apply (brel_clean dev s); [done|lia]. }
  bcstep E6. destruct (brelse_run dev s6 _ b j R6) as (s7 & E7 & R7).
  { acbn. destruct (_ =? 1); rewrite ?(zupd_ne _ g b), zupd_eq by done; done. }
  { acbn. by rewrite zupd_ne, zupd_eq by done. }
  { acbn. by rewrite !zupd_eq. }
  exists s7. split; [exact (bc_Ret _ _ _ _ _ E7)|]. eapply brel_ext; [exact R7|..]; acbn; try done.
  - intros c. zupd_cases; lia.
  - intros c. zupd_cases; done.
  - intros c. zupd_cases; done.
  - by rewrite zupd_eq.
  - zupd_cases. unfold used1 in *.
    destruct (Z.eqb_spec (a_refs a g) 0), (Z.eqb_spec (a_refs a b) 0), (Z.eqb_spec (a_refs a b - 1) 0),
      (Z.eqb_spec (a_refs a g + 1 - 1) 0), (Z.eqb_spec (a_refs a b + 1 + -1 - 1) 0); lia.
Qed.

Lemma write_head_run s a (l : log) :
  brel dev s a -> l_dev l = dev -> l_start l = start -> a_lock a start = None -> 0 <= a_refs a start < 2 ^ 31 ->
  (a_used a < NBUF)%nat ->
  exists s', write_head (mkLst s l) = Ret tt (mkLst s' l) /\ brel dev s' (a_put start (fill_head (lh l) (a_view a start)) a).
Proof.
  intros R Hd Hs Hl Hr Hu. unfold write_head, getlog, gets. unfold mbind at 1, M_bind at 1. cbn [l_log].
  rewrite Hd, Hs. destruct (used_le s a start start R) as [U _].
  destruct (bread_run dev s a start R Hl ltac:(lia) ltac:(right; lia)) as (i & s1 & E1 & R1). bcstep E1.
  assert (Hi : a_handle (a_read start i a) start = Some i) by (acbn; by rewrite zupd_eq).
  destruct (bmodify_run dev s1 _ start i (fill_head (lh l)) R1 Hi) as (s2 & E2 & R2). bcstep E2.
  destruct (bwrite_run dev s2 _ start i R2 Hi) as (s3 & E3 & R3); [acbn; by rewrite zupd_eq|]. bcstep E3.
  destruct (brelse_run dev s3 _ start i R3 Hi) as (s4 & E4 & R4); [acbn; by rewrite zupd_eq| |].
  { acbn. by rewrite !zupd_eq. }
  exists s4. split; [exact (bc_Ret _ _ _ _ _ E4)|]. eapply brel_ext; [exact R4|..]; acbn; try done.
  - intros c. zupd_cases; lia.
  - intros c. zupd_cases; done.
  - intros c. zupd_cases; done.
  - by rewrite zupd_eq.
  - zupd_cases. unfold used1 in *. destruct (Z.eqb_spec (a_refs a start) 0), (Z.eqb_spec (a_refs a start + 1 - 1) 0); lia.
Qed.

Lemma read_head_run s a (l : log) :
  brel dev s a -> l_dev l = dev -> l_start l = start -> a_lock a start = None -> 0 <= a_refs a start < 2 ^ 31 ->
  (a_used a < NBUF)%nat -> hd_n (a_view a start) <= LOGBLOCKS ->
  let h := mkLh (hd_n (a_view a start))
             (read_blocks (a_view a start) 0 (Z.to_nat (hd_n (a_view a start))) (lh_block (lh l))) in
  exists s', read_head (mkLst s l) = Ret tt (mkLst s' (set_lh h l)) /\ brel dev s' (with_handles (fun _ => None) a).
Proof.
  intros R Hd Hs Hl Hr Hu Hn h. unfold read_head, getlog, gets. unfold mbind at 1, M_bind at 1. cbn [l_log].
  rewrite Hd, Hs. destruct (used_le s a start start R) as [U _].
  destruct (bread_run dev s a start R Hl ltac:(lia) ltac:(right; lia)) as (i & s1 & E1 & R1). bcstep E1.
  assert (Hi : a_handle (a_read start i a) start = Some i) by (acbn; by rewrite zupd_eq).
  bcstep (bdata_run dev s1 _ start i R1 Hi). acbn. destruct (Z.ltb_spec LOGBLOCKS (hd_n (a_view a start))); [lia|].
  unfold modlog, modS. unfold mbind at 1, M_bind at 1. cbn [l_bc l_log]. fold h.
  destruct (brelse_run dev s1 _ start i R1) as (s2 & E2 & R2); [done|acbn; by rewrite zupd_eq| |].
  { acbn. rewrite zupd_eq. intros. apply (brel_clean dev s); [done|lia]. }
  exists s2. split; [exact (bc_Ret _ _ _ _ _ E2)|].
  eapply brel_ext; [exact R2|..]; acbn; try done.
  - intros c. zupd_cases; lia.
  - intros c. zupd_cases; done.
  - zupd_cases. unfold used1 in *. destruct (Z.eqb_spec (a_refs a start) 0), (Z.eqb_spec (a_refs a start + 1 - 1) 0); lia.
Qed.

(** ** The loops *)
Definition in_log (b : Z) : Prop := start <= b <= start + LOGBLOCKS.
Definition log_at (i : nat) : Z := start + 1 + Z.of_nat i.

(** The blocks of a transaction: distinct, at most [LOGBLOCKS], outside the log. *)
Record tx_ok (L : list Z) : Prop := {
  tx_len : Z.of_nat (length L) <= LOGBLOCKS;
  tx_nodup : NoDup L;
  tx_home : forall b, b ∈ L -> ~ in_log b /\ - 2 ^ 31 <= b < 2 ^ 31
}.

(** [f] with the first [k] blocks [L] copied to the log, and with the first [k]
    log blocks copied home. *)
Fixpoint logd (L : list Z) (v : Z -> list Z) (k : nat) (f : Z -> list Z) : Z -> list Z :=
  match k with O => f | S k => zupd (logd L v k f) (log_at k) (v (L !!! k)) end.
Fixpoint inst (L : list Z) (v : Z -> list Z) (k : nat) (f : Z -> list Z) : Z -> list Z :=
  match k with O => f | S k => zupd (inst L v k f) (L !!! k) (v (log_at k)) end.
Definition logw (L : list Z) (v : Z -> list Z) (k : nat) : list (Z * list Z) :=
  (fun i => (log_at i, v (L !!! i))) <$> seq 0 k.
Definition homew (L : list Z) (v : Z -> list Z) (k : nat) : list (Z * list Z) :=
  (fun i => (L !!! i, v (log_at i))) <$> seq 0 k.

Lemma LOGBLOCKS_eq : LOGBLOCKS = 30.
Proof. done. Qed.

Lemma log_at_in i : (i < 30)%nat -> in_log (log_at i).
Proof. intros. unfold in_log, log_at. rewrite LOGBLOCKS_eq. lia. Qed.

Lemma tx_at L i : tx_ok L -> (i < length L)%nat -> L !!! i ∈ L /\ ~ in_log (L !!! i).
Proof.
  intros H Hi. assert (L !!! i ∈ L) by (by apply list_elem_of_lookup_total_2). split; [done|]. by apply (tx_home L H).
Qed.

Lemma logd_home L v k f x : (k <= 30)%nat -> ~ in_log x -> logd L v k f x = f x.
Proof.
  induction k as [|k IH]; intros Hk Hx; [done|]. cbn [logd]. rewrite zupd_ne; [apply IH; [lia|done]|].
  intros ->. apply Hx, log_at_in. lia.
Qed.

Lemma logd_at L v k f i : (i < k)%nat -> logd L v k f (log_at i) = v (L !!! i).
Proof.
  induction k as [|k IH]; intros Hi; [lia|]. cbn [logd]. destruct (decide (i = k)) as [->|]; [apply zupd_eq|].
  rewrite zupd_ne by (unfold log_at; lia). apply IH. lia.
Qed.

Lemma logd_start L v k f : logd L v k f start = f start.
Proof. induction k as [|k IH]; [done|]. cbn [logd]. by rewrite zupd_ne by (unfold log_at; lia). Qed.

Lemma inst_log L v k f x : tx_ok L -> (k <= length L)%nat -> in_log x -> inst L v k f x = f x.
Proof.
  intros HL. induction k as [|k IH]; intros Hk Hx; [done|]. cbn [inst]. rewrite zupd_ne; [apply IH; [lia|done]|].
  intros ->. by destruct (tx_at L k HL ltac:(lia)).
Qed.

Lemma inst_in L v k f i : tx_ok L -> (i < k <= length L)%nat -> inst L v k f (L !!! i) = v (log_at i).
Proof.
  intros HL. induction k as [|k IH]; intros Hi; [lia|]. cbn [inst]. destruct (decide (i = k)) as [->|Hn]; [apply zupd_eq|].
  rewrite zupd_ne; [apply IH; lia|]. intros E. apply Hn.
  eapply (NoDup_lookup L i k (L !!! i) (tx_nodup L HL)); [|rewrite E]; apply list_lookup_lookup_total_lt; lia.
Qed.

Lemma inst_out L v k f x : (k <= length L)%nat -> x ∉ L -> inst L v k f x = f x.
Proof.
  induction k as [|k IH]; intros Hk Hx; [done|]. cbn [inst]. rewrite zupd_ne; [apply IH; [lia|done]|].
  intros ->. apply Hx, list_elem_of_lookup_total_2. lia.
Qed.

Lemma log_at_i32 k : (k < 30)%nat -> i32 (start + Z.of_nat k + 1) = log_at k.
Proof. intros. unfold log_at. rewrite i32_small; lia. Qed.

(** The cache when the blocks [P] are pinned and none is in use. *)
Definition pinned (P : list Z) (v d : Z -> list Z) (w : list (Z * list Z)) (pid : Z) : babs :=
  mkAbs (fun x => if bool_decide (x ∈ P) then 1 else 0) v (fun _ => None) (fun _ => None) d w pid (length P).

Lemma pinned_refs P v d w pid x : 0 <= a_refs (pinned P v d w pid) x <= 1.
Proof. cbn. destruct (bool_decide _); lia. Qed.

(** The in-memory header lists [L]. *)
Record holds (l : log) (L : list Z) : Prop := {
  ho_dev : l_dev l = dev; ho_start : l_start l = start; ho_n : lh_n (lh l) = Z.of_nat (length L);
  ho_block : forall i, (i < length L)%nat -> lh_block (lh l) !!! i = L !!! i
}.

Lemma logw_S L v k : logw L v (S k) = logw L v k ++ [(log_at k, v (L !!! k))].
Proof. unfold logw. by rewrite seq_S, fmap_app. Qed.
Lemma homew_S L v k : homew L v (S k) = homew L v k ++ [(L !!! k, v (log_at k))].
Proof. unfold homew. by rewrite seq_S, fmap_app. Qed.

Lemma write_log_run s (l : log) L v d w pid :
  tx_ok L -> (length L < NBUF)%nat -> holds l L -> brel dev s (pinned L v d w pid) ->
  exists s', write_log (mkLst s l) = Ret tt (mkLst s' l) /\
    brel dev s' (pinned L (logd L v (length L) v) (logd L v (length L) d) (w ++ logw L v (length L)) pid).
Proof.
  intros HL Hn Hl R. pose proof (tx_len L HL) as Hlen. rewrite LOGBLOCKS_eq in Hlen.
  unfold write_log, getlog, gets. unfold mbind, M_bind. cbn [l_log]. rewrite (ho_n l L Hl), Nat2Z.id.
  destruct (for_tail_run (fun k t => exists b, t = mkLst b l /\
    brel dev b (pinned L (logd L v k v) (logd L v k d) (w ++ logw L v k) pid)) (length L) 0 write_one (mkLst s l))
    as (t & E & b & -> & R').
  - intros k t Hk (b & -> & Rb). destruct (tx_at L k HL Hk) as [Hin Hnl].
    destruct (copy_run b _ (log_at k) (L !!! k) l k Rb (ho_dev l L Hl)) as (b' & E & R');
      [by rewrite (ho_start l L Hl), log_at_i32 by lia|by apply Hl| |done|done|
       pose proof (pinned_refs L (logd L v k v) (logd L v k d) (w ++ logw L v k) pid (log_at k)); lia|
       pose proof (pinned_refs L (logd L v k v) (logd L v k d) (w ++ logw L v k) pid (L !!! k)); lia|cbn; rewrite bool_decide_eq_true_2 by done; cbn; lia|].
    { intros Eq. apply Hnl. rewrite <- Eq. apply log_at_in. lia. }
    eexists. split; [exact E|]. exists b'. split; [done|].
    eapply brel_ext; [exact R'|..]; unfold pinned; acbn; try done; rewrite logd_home by (done || lia).
    + intros c. done.
    + intros c. done.
    + by rewrite logw_S, app_assoc.
  - exists s. split; [done|]. unfold logw. cbn [seq fmap list_fmap]. by rewrite app_nil_r.
  - exists b. split; [exact E|exact R'].
Qed.

Definition pins (rec : bool) (L : list Z) (k : nat) : list Z := if rec then [] else drop k L.

Lemma drop_at (L : list Z) k : (k < length L)%nat -> drop k L = L !!! k :: drop (S k) L.
Proof. intros. apply drop_S. by apply list_lookup_lookup_total_lt. Qed.

Lemma install_step (rec : bool) s (l : log) L v d w pid k :
  tx_ok L -> (if rec then True else (length L < NBUF)%nat) -> holds l L -> (k < length L)%nat ->
  brel dev s (pinned (pins rec L k) (inst L v k v) (inst L v k d) (w ++ homew L v k) pid) ->
  exists s', install_one rec k (mkLst s l) = Ret tt (mkLst s' l) /\
    brel dev s' (pinned (pins rec L (S k)) (inst L v (S k) v) (inst L v (S k) d) (w ++ homew L v (S k)) pid).
Proof.
  intros HL Hn Hl Hk R. pose proof (tx_len L HL) as Hlen. rewrite LOGBLOCKS_eq in Hlen.
  destruct (tx_at L k HL Hk) as [Hin Hnl].
  assert (Hne : log_at k <> L !!! k) by (intros Eq; apply Hnl; rewrite <- Eq; apply log_at_in; lia).
  assert (Hg : i32 (l_start l + Z.of_nat k + 1) = log_at k) by (by rewrite (ho_start l L Hl), log_at_i32 by lia).
  pose proof (pinned_refs (pins rec L k) (inst L v k v) (inst L v k d) (w ++ homew L v k) pid) as Hr.
  pose proof (Hr (log_at k)). pose proof (Hr (L !!! k)).
  assert (Ev : inst L v k v (log_at k) = v (log_at k)) by (apply inst_log; [done|lia|apply log_at_in; lia]).
  destruct rec.
  - destruct (install_recover s _ (log_at k) (L !!! k) l k R (ho_dev l L Hl) Hg (ho_block l L Hl k Hk) Hne)
      as (s' & E & R'); [done|done|lia|lia|unfold pinned at 1; cbn [a_used pins length]; unfold NBUF; lia|].
    exists s'. split; [exact E|].
    eapply brel_ext; [exact R'|..]; unfold pinned; acbn; try done; rewrite Ev; try done.
    by rewrite homew_S, app_assoc.
  - assert (Hd : pins false L k = L !!! k :: drop (S k) L) by (by apply drop_at).
    assert (Hnd : NoDup (L !!! k :: drop (S k) L)) .
    { rewrite <- drop_at by done. pose proof (tx_nodup L HL) as N. rewrite <- (take_drop k L), NoDup_app in N. apply N. }
    apply NoDup_cons in Hnd as [Hnk _].
    assert (Hrk : a_refs (pinned (pins false L k) (inst L v k v) (inst L v k d) (w ++ homew L v k) pid) (L !!! k) = 1).
    { unfold pinned. acbn. rewrite Hd. by rewrite bool_decide_eq_true_2 by (by left). }
    destruct (install_unpin s _ (log_at k) (L !!! k) l k R (ho_dev l L Hl) Hg (ho_block l L Hl k Hk) Hne)
      as (s' & E & R'); [done|done|lia|lia|rewrite Hrk; cbn; rewrite length_drop; lia|]. exists s'. split; [exact E|].
    eapply brel_ext; [exact R'|..]; unfold pinned; acbn; try done; rewrite ?Ev; try done.
    + intros c. rewrite Hd. destruct (decide (c = L !!! k)) as [->|Hc].
      * rewrite zupd_eq. rewrite bool_decide_eq_true_2 by (by left). by rewrite bool_decide_eq_false_2.
      * rewrite zupd_ne by done. 
        assert (c ∈ L !!! k :: drop (S k) L <-> c ∈ drop (S k) L) as Hiff by (rewrite elem_of_cons; tauto).
        by rewrite (bool_decide_ext _ _ Hiff).
    + by rewrite homew_S, app_assoc.
    + rewrite Hd, bool_decide_eq_true_2 by (by left). cbn [length pins].
      change (used1 (1 - 1)) with 0%nat. lia.
Qed.

Lemma install_trans_run (rec : bool) s (l : log) L v d w pid :
  tx_ok L -> (if rec then True else (length L < NBUF)%nat) -> holds l L -> brel dev s (pinned (pins rec L 0) v d w pid) ->
  exists s', install_trans rec (mkLst s l) = Ret tt (mkLst s' l) /\
    brel dev s' (pinned [] (inst L v (length L) v) (inst L v (length L) d) (w ++ homew L v (length L)) pid).
Proof.
  intros HL Hn Hl R. unfold install_trans, getlog, gets. unfold mbind, M_bind. cbn [l_log]. rewrite (ho_n l L Hl), Nat2Z.id.
  destruct (for_tail_run (fun k t => exists b, t = mkLst b l /\
    brel dev b (pinned (pins rec L k) (inst L v k v) (inst L v k d) (w ++ homew L v k) pid))
    (length L) 0 (install_one rec) (mkLst s l)) as (t & E & b & -> & R').
  - intros k t Hk (b & -> & Rb). destruct (install_step rec b l L v d w pid k HL Hn Hl Hk Rb) as (b' & E & R').
    eexists. split; [exact E|]. by exists b'.
  - exists s. split; [done|]. unfold homew. cbn [seq fmap list_fmap inst]. by rewrite app_nil_r.
  - exists b. split; [exact E|]. cbn [Nat.add] in R'. assert (pins rec L (length L) = []) as <-; [|done].
    unfold pins. destruct rec; [done|]. by rewrite drop_all.
Qed.
End log_proofs.
