(* ===== verification/LogCrash.v ===== *)
(** Crash safety of the log: what the disk holds after a crash at any block
    write of a commit or of a recovery, and that recovery always restores the
    state before or after the transaction. *)
From S2P Require Import Prelude Riscv PhysMem Bytes Bio Log.

(** The disk after the writes [ws]. *)
Definition apply_writes (ws : list (Z * list Z)) (d : Z -> list Z) : Z -> list Z :=
  fold_left (fun d w => zupd d (fst w) (snd w)) ws d.

Definition zero_log : log := mkLog 0 0 0 0 (mkLh 0 (replicate (Z.to_nat LOGBLOCKS) 0)).

(** The kernel starts on the disk [d]: the cache is empty, the log is recovered. *)
Definition reboot (dev logstart : Z) (d : Z -> list Z) (pid : Z) : outcome lst unit :=
  match binit (cold d pid) with
  | Ret _ b => initlog dev logstart (mkLst b zero_log)
  | Panic e => Panic e
  | Block c b => Block c (mkLst b zero_log)
  | Diverge => Diverge
  end.

Section crash.
Context (dev start : Z) (Hdev : dev <> 0) (Hstart : 0 < start < 2 ^ 31 - 100).

(** The blocks the header on disk lists. *)
Definition hd_list (bs : list Z) : list Z := hd_block bs <$> seq 0 (Z.to_nat (hd_n bs)).

Record disk_ok (d : Z -> list Z) : Prop := {
  dk_len : length (d start) = Z.to_nat BSIZE;
  dk_n : 0 <= hd_n (d start);
  dk_tx : tx_ok start (hd_list (d start))
}.

(** The contents that recovery gives the blocks outside the log. *)
Definition recovered (d : Z -> list Z) : Z -> list Z :=
  let L := hd_list (d start) in inst start L d (length L) d.

Lemma length_hd_list bs : length (hd_list bs) = Z.to_nat (hd_n bs).
Proof. unfold hd_list. by rewrite length_fmap, length_seq. Qed.

Lemma apply_app ws ws' d : apply_writes (ws ++ ws') d = apply_writes ws' (apply_writes ws d).
Proof. apply fold_left_app. Qed.

Lemma apply_logw L v k d : apply_writes (logw start L v k) d = logd start L v k d.
Proof. induction k as [|k IH]; [done|]. rewrite logw_S, apply_app, IH. done. Qed.

Lemma apply_homew L v k d : apply_writes (homew start L v k) d = inst start L v k d.
Proof. induction k as [|k IH]; [done|]. rewrite homew_S, apply_app, IH. done. Qed.

Lemma take_writes {A} (f : nat -> A) j n : take j (f <$> seq 0 n) = f <$> seq 0 (j `min` n).
Proof. by rewrite <- fmap_take, take_seq. Qed.

(** [inst] depends only on the log area of the values, and on each block of [f]. *)
Lemma inst_ext L v v' k f f' x :
  tx_ok start L -> (k <= length L)%nat -> (forall g, in_log start g -> v g = v' g) -> f x = f' x ->
  inst start L v k f x = inst start L v' k f' x.
Proof.
  intros HL Hk Hv Hf. pose proof (tx_len start L HL) as Hn. rewrite LOGBLOCKS_eq in Hn.
  induction k as [|k IH]; [done|]. cbn [inst]. unfold zupd. destruct (x =? L !!! k); [|apply IH; lia].
  apply Hv, log_at_in. lia.
Qed.

(** Installing again changes nothing. *)
Lemma inst_twice L v k j f x :
  tx_ok start L -> (k <= length L)%nat -> (j <= k)%nat -> inst start L v k (inst start L v j f) x = inst start L v k f x.
Proof.
  intros HL Hk Hj. destruct (decide (x ∈ take k L)) as [Hin|Hout].
  - apply list_elem_of_lookup in Hin as [i [Hi Hik]%lookup_take_Some].
    rewrite <- (list_lookup_total_correct _ _ _ Hi), !(inst_in start) by (done || lia). done.
  - assert (Ho : forall n g, (n <= k)%nat -> inst start L v n g x = g x).
    { induction n as [|n IH]; intros g Hn; [done|]. cbn [inst]. rewrite zupd_ne; [apply IH; lia|].
      intros ->. apply Hout. apply list_elem_of_lookup. exists n. rewrite lookup_take_lt by lia.
      apply list_lookup_lookup_total_lt. lia. }
    by rewrite !Ho by lia.
Qed.

(** Recovery runs, gives [recovered d], and clears the log. *)
Lemma reboot_run d pid :
  disk_ok d -> exists b l, reboot dev start d pid = Ret tt (mkLst b l) /\ holds dev start l [] /\
    (length (lh_block (lh l)) = 30%nat /\ outstanding l = 0 /\ committing l = 0) /\
    let L := hd_list (d start) in let n := length L in
    brel dev b (pinned [] (zupd (inst start L d n d) start (put_n 0 (d start)))
      (zupd (inst start L d n d) start (put_n 0 (d start))) (homew start L d n ++ [(start, put_n 0 (d start))]) pid).
Proof.
  intros [Hlen Hn0 Htx]. pose proof (tx_len _ _ Htx) as Hn. rewrite LOGBLOCKS_eq, length_hd_list in Hn.
  set (L := hd_list (d start)) in *.
  destruct (binit_run dev d pid Hdev) as (b0 & E0 & R0). unfold reboot. rewrite E0. unfold initlog.
  change (BSIZE <=? sizeof_logheader) with false. cbv iota. unfold modlog at 1, modS at 1. unfold mbind at 1, M_bind at 1.
  cbn [l_bc l_log]. rewrite i32_small by lia. unfold recover_from_log.
  set (l0 := mkLog start _ _ dev _).
  destruct (read_head_run dev start b0 _ l0 R0 eq_refl eq_refl) as (b1 & E1 & R1);
    [done|cbn; lia|cbn; unfold NBUF; lia|cbn [a_view a_cold]; rewrite LOGBLOCKS_eq; lia|].
  cbn [a_view a_cold] in E1. rewrite (bind_Ret _ _ _ _ _ E1).
  set (h := mkLh _ _). assert (Hh : holds dev start (set_lh h l0) L).
  { split; [done|done| |]; cbn [lh set_lh h lh_n lh_block].
    - unfold L. rewrite length_hd_list. lia.
    - unfold L. rewrite length_hd_list. intros i Hi.
      destruct (read_blocks_lookup (d start) 0 (Z.to_nat (hd_n (d start))) (lh_block (lh l0)) i) as (_ & Hin & _);
        [change (length (lh_block (lh l0))) with 30%nat; lia|]. rewrite Hin by lia. symmetry. apply list_lookup_total_correct. unfold hd_list.
      rewrite list_lookup_fmap, lookup_seq_lt by lia. done. }
  assert (R1' : brel dev b1 (pinned (pins true L 0) d d [] pid)).
  { eapply brel_ext; [exact R1|..]; done. }
  destruct (install_trans_run dev start Hstart true b1 (set_lh h l0) L d d [] pid Htx I Hh R1') as (b2 & E2 & R2).
  rewrite (bind_Ret _ _ _ _ _ E2). unfold clear_lh, modlog, modS. unfold mbind, M_bind. cbn [l_bc l_log].
  set (l2 := set_lh (mkLh 0 _) _).
  destruct (write_head_run dev start b2 _ l2 R2 eq_refl eq_refl) as (b3 & E3 & R3); [done|cbn [a_refs pinned]; case_bool_decide; lia|cbn; unfold NBUF; lia|].
  exists b3, l2. split; [exact E3|]. split; [split; done || (intros i Hi; simpl in Hi; lia)|].
  split. { split_and!; [|done|done]. cbn [l2 lh set_lh lh_block h].
    destruct (read_blocks_lookup (d start) 0 (Z.to_nat (hd_n (d start))) (lh_block (lh l0)) 0) as (-> & _ & _);
      [change (length (lh_block (lh l0))) with 30%nat; lia|done]. }
  assert (Es : inst start L d (length L) d start = d start).
  { apply inst_log; [done|lia|]. unfold in_log. rewrite LOGBLOCKS_eq. lia. }
  cbn [a_view pinned] in R3. rewrite Es in R3. change (fill_head (lh l2) (d start)) with (put_n 0 (d start)) in R3.
  cbv zeta. eapply brel_ext; [exact R3|..]; done.
Qed.

(** ** Commit *)
Lemma BSIZE_nat : Z.to_nat BSIZE = 1024%nat.
Proof. done. Qed.

Lemma logd_ext L v k f f' x : f x = f' x -> logd start L v k f x = logd start L v k f' x.
Proof. intros E. induction k as [|k IH]; [done|]. cbn [logd]. unfold zupd. by rewrite IH. Qed.

Lemma hd_put_n v bs : (4 <= length bs)%nat -> - 2 ^ 31 <= v < 2 ^ 31 -> hd_n (put_n v bs) = v.
Proof. intros. unfold hd_n, put_n. rewrite getn_putn by lia. by apply i32_u32. Qed.

Lemma fill_head_list (l : log) L bs :
  tx_ok start L -> holds dev start l L -> length bs = Z.to_nat BSIZE ->
  hd_n (fill_head (lh l) bs) = Z.of_nat (length L) /\ hd_list (fill_head (lh l) bs) = L /\
  length (fill_head (lh l) bs) = Z.to_nat BSIZE.
Proof.
  intros HL Hl Hb. pose proof (tx_len start L HL) as Hn. rewrite LOGBLOCKS_eq in Hn.
  assert (El : length (put_n (lh_n (lh l)) bs) = Z.to_nat BSIZE).
  { unfold put_n. rewrite length_putn by (rewrite Hb, BSIZE_nat; lia). done. }
  assert (Hsz : (4 + 4 * (0 + Z.to_nat (lh_n (lh l))) <= length (put_n (lh_n (lh l)) bs))%nat).
  { rewrite El, (ho_n _ _ _ _ Hl). change (Z.to_nat BSIZE) with 1024%nat. lia. }
  assert (En : hd_n (fill_head (lh l) bs) = Z.of_nat (length L)).
  { unfold fill_head. rewrite fill_blocks_n by done. rewrite hd_put_n; [apply Hl|rewrite Hb, BSIZE_nat; lia|].
    rewrite (ho_n _ _ _ _ Hl). lia. }
  split_and!; [done| |unfold fill_head; by rewrite length_fill_blocks].
  apply list_eq. intros i. unfold hd_list. rewrite En, Nat2Z.id, list_lookup_fmap.
  destruct (decide (i < length L)%nat) as [Hi|Hi].
  - rewrite lookup_seq_lt, (list_lookup_lookup_total_lt L) by done. cbn. f_equal. unfold fill_head.
    rewrite fill_blocks_block; [|done|].
    + rewrite decide_True by (rewrite (ho_n _ _ _ _ Hl); lia). by apply Hl.
    + intros k Hk. rewrite (ho_n _ _ _ _ Hl) in Hk. rewrite (ho_block _ _ _ _ Hl) by lia.
      apply (tx_home start L HL), list_elem_of_lookup_total_2. lia.
  - rewrite lookup_seq_ge, (lookup_ge_None_2 L) by lia. done.
Qed.

(** The writes of a commit of [L], and the disk they leave. *)
Definition commit_writes (l : log) (L : list Z) (v : Z -> list Z) : list (Z * list Z) :=
  let n := length L in
  let hdr := fill_head (lh l) (v start) in
  let v2 := zupd (logd start L v n v) start hdr in
  logw start L v n ++ [(start, hdr)] ++ homew start L v2 n ++ [(start, put_n 0 hdr)].

Lemma start_in : in_log start start.
Proof. unfold in_log. rewrite LOGBLOCKS_eq. lia. Qed.

Lemma commit_run b (l : log) L v d w pid :
  tx_ok start L -> (0 < length L < NBUF)%nat -> holds dev start l L -> brel dev b (pinned L v d w pid) ->
  exists b' v', commit (mkLst b l) = Ret tt (mkLst b' (set_lh (mkLh 0 (lh_block (lh l))) l)) /\
    brel dev b' (pinned [] v' (apply_writes (commit_writes l L v) d) (w ++ commit_writes l L v) pid).
Proof.
  intros HL Hn Hl R. unfold commit, getlog, gets. unfold mbind at 1, M_bind at 1. cbn [l_log].
  rewrite (ho_n _ _ _ _ Hl). destruct (Z.ltb_spec 0 (Z.of_nat (length L))); [|lia].
  destruct (write_log_run dev start Hstart b l L v d w pid HL ltac:(lia) Hl R) as (b1 & E1 & R1).
  rewrite (bind_Ret _ _ _ _ _ E1).
  destruct (write_head_run dev start b1 _ l R1 (ho_dev _ _ _ _ Hl) (ho_start _ _ _ _ Hl)) as (b2 & E2 & R2);
    [done|cbn [a_refs pinned]; case_bool_decide; lia|cbn [a_used pinned]; lia|].
  rewrite (bind_Ret _ _ _ _ _ E2). cbn [a_view pinned] in R2. rewrite logd_start in R2.
  set (hdr := fill_head (lh l) (v start)) in *. set (v2 := zupd (logd start L v (length L) v) start hdr).
  set (d2 := zupd (logd start L v (length L) d) start hdr).
  assert (R2' : brel dev b2 (pinned (pins false L 0) v2 d2 (w ++ logw start L v (length L) ++ [(start, hdr)]) pid)).
  { eapply brel_ext; [exact R2|..]; try done. cbn. by rewrite app_assoc. }
  destruct (install_trans_run dev start Hstart false b2 l L v2 d2 _ pid HL (proj2 Hn) Hl R2') as (b3 & E3 & R3).
  rewrite (bind_Ret _ _ _ _ _ E3). unfold clear_lh, modlog, modS. unfold mbind, M_bind. cbn [l_bc l_log].
  set (l3 := set_lh (mkLh 0 _) _).
  destruct (write_head_run dev start b3 _ l3 R3 (ho_dev _ _ _ _ Hl) (ho_start _ _ _ _ Hl)) as (b4 & E4 & R4);
    [done|cbn [a_refs pinned]; case_bool_decide; lia|cbn [a_used pinned length]; unfold NBUF; lia|].
  eexists b4, _. split; [exact E4|].
  cbn [a_view pinned] in R4.
  assert (Ev : inst start L v2 (length L) v2 start = hdr).
  { rewrite inst_log by (done || lia || apply start_in). unfold v2. by rewrite zupd_eq. }
  rewrite Ev in R4. change (fill_head (lh l3) hdr) with (put_n 0 hdr) in R4.
  eapply brel_ext; [exact R4|..]; try done.
  - intros x. unfold commit_writes. fold hdr. fold v2. rewrite !apply_app, apply_logw, apply_homew. done.
  - cbn. unfold commit_writes. fold hdr. fold v2. by rewrite <- !app_assoc.
Qed.

(** After [k] of the writes, recovery gives the old contents up to the header
    write and the new ones from it on. *)
Lemma commit_prefix (l : log) L v d k :
  tx_ok start L -> holds dev start l L -> (forall x, x ∉ L -> v x = d x) ->
  length (d start) = Z.to_nat BSIZE -> hd_n (d start) = 0 ->
  let dk := apply_writes (take k (commit_writes l L v)) d in
  disk_ok dk /\ forall x, ~ in_log start x ->
    recovered dk x = if Nat.leb k (length L) then d x else v x.
Proof.
  intros HL Hl Hv Hlen H0 dk. pose proof (tx_len start L HL) as Hn. rewrite LOGBLOCKS_eq in Hn.
  assert (Hvs : v start = d start). { apply Hv. intros H. by apply (tx_home start L HL) in H as [[] _]; apply start_in. }
  destruct (fill_head_list l L (v start) HL Hl ltac:(by rewrite Hvs)) as (En & EL & Eh).
  set (n := length L) in *. set (hdr := fill_head (lh l) (v start)) in *.
  set (v2 := zupd (logd start L v n v) start hdr). set (d2 := zupd (logd start L v n d) start hdr).
  assert (Hcase : dk = logd start L v k d /\ (k <= n)%nat \/
    (exists j, dk = inst start L v2 j d2 /\ (j <= n)%nat /\ (n < k)%nat) \/
    dk = zupd (inst start L v2 n d2) start (put_n 0 hdr) /\ (n < k)%nat).
  { unfold dk, commit_writes. fold n hdr v2. destruct (decide (k <= n)%nat) as [Hk|Hk].
    - left. split; [|done]. rewrite take_app_le by (unfold logw; rewrite length_fmap, length_seq; lia).
      unfold logw. rewrite take_writes. replace (k `min` n)%nat with k by lia. apply apply_logw.
    - right. rewrite take_app_ge by (unfold logw; rewrite length_fmap, length_seq; lia).
      replace (k - length (logw start L v n))%nat with (S (k - n - 1)) by (unfold logw; rewrite length_fmap, length_seq; lia).
      cbn [app take]. rewrite apply_app, apply_logw. set (j := (k - n - 1)%nat). destruct (decide (j <= n)%nat) as [Hj|Hj].
      + left. exists j. split_and!; [|done|lia]. cbn [apply_writes fold_left fst snd]. fold d2.
        rewrite take_app_le by (unfold homew; rewrite length_fmap, length_seq; lia).
        unfold homew. rewrite take_writes. replace (j `min` n)%nat with j by lia. apply apply_homew.
      + right. split; [|lia]. cbn [apply_writes fold_left fst snd]. fold d2.
        rewrite take_ge by (unfold homew; rewrite length_app, length_fmap, length_seq; simpl; lia).
        fold (apply_writes (homew start L v2 n ++ [(start, put_n 0 hdr)]) d2). by rewrite apply_app, apply_homew. }
  assert (Hlog : forall i, (i < n)%nat -> v2 (log_at start i) = v (L !!! i)).
  { intros i Hi. unfold v2. rewrite zupd_ne by (unfold log_at; lia). by apply logd_at. }
  assert (Hlog2 : forall i, (i < n)%nat -> d2 (log_at start i) = v (L !!! i)).
  { intros i Hi. unfold d2. rewrite zupd_ne by (unfold log_at; lia). by apply logd_at. }
  assert (Hnew : forall f x, (forall x, ~ in_log start x -> f x = d x) -> ~ in_log start x ->
    inst start L v2 n f x = v x).
  { intros f x Hf Hx. destruct (decide (x ∈ L)) as [Hin|Hout].
    - apply list_elem_of_lookup in Hin as [i Hi]. pose proof (lookup_lt_Some _ _ _ Hi) as Hil.
      rewrite <- (list_lookup_total_correct _ _ _ Hi). rewrite inst_in by (done || unfold n; lia). by apply Hlog.
    - rewrite inst_out by (done || unfold n; lia). rewrite Hf, Hv by done. done. }
  assert (Hd2 : forall x, ~ in_log start x -> d2 x = d x).
  { intros x Hx. unfold d2. rewrite zupd_ne by (intros ->; apply Hx, start_in). apply logd_home; [lia|done]. }
  destruct Hcase as [[-> Hk]|[(j & -> & Hj & Hk)|[-> Hk]]].
  - assert (Es : logd start L v k d start = d start) by apply logd_start.
    assert (Enil : hd_list (d start) = []) by (unfold hd_list; by rewrite H0).
    split; [split; rewrite Es; [done|lia|rewrite Enil; split; [done|constructor|set_solver]]|].
    intros x Hx. unfold recovered. rewrite Es, Enil. cbn [length inst]. rewrite (proj2 (Nat.leb_le k n)) by done.
    apply logd_home; [lia|done].
  - assert (Es : inst start L v2 j d2 start = hdr).
    { rewrite inst_log by (done || lia || apply start_in). unfold d2. by rewrite zupd_eq. }
    split; [split; rewrite Es; [done|lia|by rewrite EL]|].
    intros x Hx. unfold recovered. rewrite Es, EL. fold n. rewrite (proj2 (Nat.leb_gt k n)) by done.
    rewrite (inst_ext L _ v2 n _ (inst start L v2 j d2)); [|done|lia| |done].
    + rewrite inst_twice by (done || lia). by apply Hnew.
    + intros g Hg. rewrite inst_log by (done || lia). unfold d2, v2, zupd. destruct (g =? start); [done|].
      apply logd_ext. symmetry. apply Hv. intros Hin. by apply (tx_home start L HL) in Hin as [[] _].
  - assert (Es : hd_n (put_n 0 hdr) = 0) by (apply hd_put_n; [rewrite Eh, BSIZE_nat; lia|lia]).
    assert (Enil : hd_list (put_n 0 hdr) = []) by (unfold hd_list; by rewrite Es).
    split; [split; rewrite zupd_eq; [|lia|rewrite Enil; split; [done|constructor|set_solver]]|].
    { unfold put_n. rewrite length_putn; [done|rewrite Eh, BSIZE_nat; lia]. }
    intros x Hx. unfold recovered. rewrite zupd_eq, Enil. cbn [length inst]. rewrite (proj2 (Nat.leb_gt k n)) by done.
    rewrite zupd_ne by (intros ->; apply Hx, start_in). by apply Hnew.
Qed.

(** The disk when the commit is complete. *)
Lemma commit_final (l : log) L v d :
  tx_ok start L -> holds dev start l L -> (forall x, x ∉ L -> v x = d x) ->
  length (d start) = Z.to_nat BSIZE -> hd_n (d start) = 0 ->
  let d' := apply_writes (commit_writes l L v) d in
  (forall x, ~ in_log start x -> d' x = v x) /\ hd_n (d' start) = 0 /\ length (d' start) = Z.to_nat BSIZE.
Proof.
  intros HL Hl Hv Hlen H0 d'. set (W := commit_writes l L v) in *.
  destruct (commit_prefix l L v d (length W) HL Hl Hv Hlen H0) as [Hok Hp]. fold W in Hp, Hok.
  rewrite take_ge in Hp, Hok by done. fold d' in Hp, Hok.
  assert (HW : (length L < length W)%nat).
  { unfold W, commit_writes, logw. rewrite length_app, length_fmap, length_seq. simpl. lia. }
  assert (Hvs : v start = d start). { apply Hv. intros H. by apply (tx_home start L HL) in H as [[] _]; apply start_in. }
  destruct (fill_head_list l L (v start) HL Hl ltac:(by rewrite Hvs)) as (_ & _ & Eh).
  assert (En : hd_n (d' start) = 0).
  { unfold d', W, commit_writes. rewrite !apply_app. cbn [apply_writes fold_left fst snd]. rewrite zupd_eq.
    apply hd_put_n; [rewrite Eh, BSIZE_nat; lia|lia]. }
  split_and!; [|done|apply Hok]. intros x Hx. specialize (Hp x Hx). rewrite (proj2 (Nat.leb_gt _ _)) in Hp by done.
  rewrite <- Hp. unfold recovered, hd_list. rewrite En. done.
Qed.

(** Recoveries that were themselves cut short by a crash. *)
Inductive interrupted (d : Z -> list Z) : (Z -> list Z) -> Prop :=
  | int_none : interrupted d d
  | int_again d1 pid b l k :
      interrupted d d1 -> reboot dev start d1 pid = Ret tt (mkLst b l) ->
      interrupted d (apply_writes (take k (dwrites b)) d1).

Lemma recover_prefix d k :
  disk_ok d -> let L := hd_list (d start) in
  let d' := apply_writes (take k (homew start L d (length L) ++ [(start, put_n 0 (d start))])) d in
  disk_ok d' /\ forall x, ~ in_log start x -> recovered d' x = recovered d x.
Proof.
  intros Hok L d'. destruct Hok as [Hlen H0 Htx]. fold L in Htx. set (n := length L) in *.
  assert (Hcase : (exists j, d' = inst start L d j d /\ (j <= n)%nat) \/ d' = zupd (inst start L d n d) start (put_n 0 (d start))).
  { unfold d'. destruct (decide (k <= n)%nat) as [Hk|Hk].
    - left. exists k. split; [|done]. rewrite take_app_le by (unfold homew; rewrite length_fmap, length_seq; lia).
      unfold homew. rewrite take_writes. replace (k `min` n)%nat with k by lia. apply apply_homew.
    - right. rewrite take_ge by (unfold homew; rewrite length_app, length_fmap, length_seq; simpl; lia).
      by rewrite apply_app, apply_homew. }
  destruct Hcase as [(j & -> & Hj)| ->].
  - assert (Es : inst start L d j d start = d start) by (apply inst_log; [done|done|apply start_in]).
    split; [split; by rewrite Es|]. intros x Hx. unfold recovered. rewrite Es. fold L. fold n.
    rewrite (inst_ext L _ d n _ (inst start L d j d)) by (done || (intros; by apply inst_log)). by apply inst_twice.
  - assert (Es : hd_n (put_n 0 (d start)) = 0) by (apply hd_put_n; [rewrite Hlen, BSIZE_nat; lia|lia]).
    assert (Enil : hd_list (put_n 0 (d start)) = []) by (unfold hd_list; by rewrite Es).
    split; [split; rewrite zupd_eq; [|lia|rewrite Enil; split; [done|constructor|set_solver]]|].
    { unfold put_n. rewrite length_putn; [done|rewrite Hlen, BSIZE_nat; lia]. }
    intros x Hx. unfold recovered at 1. rewrite zupd_eq, Enil. cbn [length inst].
    rewrite zupd_ne by (intros ->; apply Hx, start_in). done.
Qed.

Lemma interrupted_ok d d' :
  disk_ok d -> interrupted d d' -> disk_ok d' /\ forall x, ~ in_log start x -> recovered d' x = recovered d x.
Proof.
  intros Hok. induction 1 as [|d1 pid b l k _ [Hok1 IH] E]; [done|].
  destruct (reboot_run d1 pid Hok1) as (b' & l' & E' & _ & _ & R). rewrite E in E'. injection E' as <- <-.
  pose proof (br_writes _ _ _ R) as Ew. cbn [a_writes pinned] in Ew. rewrite Ew.
  destruct (recover_prefix d1 k Hok1) as [Hok2 Hr]. split; [done|]. intros x Hx. by rewrite Hr, IH.
Qed.

(** [commit] is called with the transaction's blocks pinned in the cache, no
    buffer held, and an empty log on disk. *)
Record commit_ready (b : bcache) (l : log) (L : list Z) : Prop := {
  cm_tx : tx_ok start L;
  cm_room : (0 < length L < NBUF)%nat;
  cm_log : holds dev start l L;
  cm_cache : brel dev b (pinned L (view dev b) (disk b) (dwrites b) (me b));
  cm_len : length (disk b start) = Z.to_nat BSIZE;
  cm_head : hd_n (disk b start) = 0
}.

(** C2: [commit] completes and leaves on disk the new contents of
    every block of the transaction.  If instead the machine stops after any
    number [k] of its block writes, and recoveries are themselves stopped any
    number of times, the recovery that completes leaves every block outside the
    log as it was before the transaction if the header had not been written yet,
    and as the transaction left it otherwise: never a mixture. *)
Theorem commit_crash_safe b l L :
  commit_ready b l L ->
  exists b' l' W, commit (mkLst b l) = Ret tt (mkLst b' l') /\ dwrites b' = dwrites b ++ W /\
    (forall x, ~ in_log start x -> disk b' x = view dev b x) /\
    forall k d pid, interrupted (apply_writes (take k W) (disk b)) d ->
      exists b2 l2, reboot dev start d pid = Ret tt (mkLst b2 l2) /\
        forall x, ~ in_log start x -> disk b2 x = if Nat.leb k (length L) then disk b x else view dev b x.
Proof.
  intros [HL Hn Hl R Hlen H0].
  destruct (commit_run b l L _ _ _ _ HL Hn Hl R) as (b' & v' & E & R').
  assert (Hv : forall x, x ∉ L -> view dev b x = disk b x).
  { intros x Hx. apply (brel_clean dev b _ x R). cbn [a_refs pinned]. by rewrite bool_decide_eq_false_2. }
  assert (Hrec : forall d pid, disk_ok d -> exists b2 l2, reboot dev start d pid = Ret tt (mkLst b2 l2) /\
    forall x, ~ in_log start x -> disk b2 x = recovered d x).
  { intros d pid Hok. destruct (reboot_run d pid Hok) as (b2 & l2 & E2 & _ & _ & R2). exists b2, l2. split; [done|].
    intros x Hx. rewrite (br_disk _ _ _ R2). cbn [a_disk pinned]. rewrite zupd_ne by (intros ->; apply Hx, start_in). done. }
  set (W := commit_writes l L (view dev b)) in *. eexists b', _, W. split; [exact E|].
  split; [by rewrite (br_writes _ _ _ R')|]. split.
  - intros x Hx. rewrite (br_disk _ _ _ R'). cbn [a_disk pinned].
    by apply (commit_final l L (view dev b) (disk b)).
  - intros k d pid Hint.
    destruct (commit_prefix l L (view dev b) (disk b) k HL Hl Hv Hlen H0) as [Hok Hp].
    destruct (interrupted_ok _ _ Hok Hint) as [Hok' Hr]. destruct (Hrec d pid Hok') as (b2 & l2 & E2 & Hb2).
    exists b2, l2. split; [done|]. intros x Hx. rewrite Hb2, Hr by done. by apply Hp.
Qed.
End crash.
