(* ===== verification/LogTx.v ===== *)
(** The log implements the interface of [BlockIface]: transactions over the
    buffer cache. *)
From S2P Require Import Prelude Riscv PhysMem Bytes Bio BlockIface Log LogCrash.

#[export] Instance log_ops : BlockOps lst := {|
  blk_read := fun dev b => bc (bread dev b);
  blk_data := fun i => bc (bdata i);
  blk_set := fun i bs => bc (bmodify i (fun _ => bs));
  blk_log := log_write;
  blk_relse := fun i => bc (brelse i);
  blk_begin := begin_op;
  blk_end := end_op;
  blk_init := initlog
|}.

Section log_tx.
Context (dev start : Z) (Hdev : dev <> 0) (Hstart : 0 < start < 2 ^ 31 - 100).

Definition inb (x : Z) (l : list Z) : bool := bool_decide (x ∈ l).
Definition outside (L H : list Z) : nat := length (List.filter (fun x => negb (inb x L)) H).

(** The cache in a transaction that logged [L] and holds the blocks [H]. *)
Definition txabs (L H : list Z) (h : Z -> option nat) (b : bcache) : babs :=
  mkAbs (fun x => (if inb x L then 1 else 0) + (if inb x H then 1 else 0)) (view dev b)
    (fun x => if inb x H then Some (me b) else None) h (disk b) (dwrites b) (me b) (length L + outside L H).

Definition is_home (b : Z) : Prop := ~ in_log start b /\ - 2 ^ 31 <= b < 2 ^ 31.

(** The in-memory log. *)
Record log_state (l : log) (L : list Z) (ops : Z) : Prop := {
  ls_holds : holds dev start l L;
  ls_blen : length (lh_block (lh l)) = 30%nat;
  ls_ops : outstanding l = ops /\ committing l = 0
}.

(** The disk has an empty log, and all blocks have their size. *)
Record blocks_ok (b : bcache) : Prop := {
  bk_head : hd_n (disk b start) = 0;
  bk_hlen : length (disk b start) = Z.to_nat BSIZE;
  bk_len : forall x, is_home x -> length (view dev b x) = Z.to_nat BSIZE
}.

Record log_tx (s : lst) (L : list Z) (H : list (Z * nat)) : Prop := {
  lt_ok : tx_ok start L;
  lt_small : (length L <= 10)%nat;
  lt_log : log_state (l_log s) L 1;
  lt_blocks : blocks_ok (l_bc s);
  lt_held : NoDup H.*1;
  lt_home : forall b, b ∈ H.*1 -> is_home b;
  lt_rel : exists h, brel dev (l_bc s) (txabs L H.*1 h (l_bc s)) /\ forall b i, (b, i) ∈ H -> h b = Some i;
  lt_clean : forall x, x ∉ L -> view dev (l_bc s) x = disk (l_bc s) x
}.

Record log_idle (s : lst) : Prop := {
  li_log : log_state (l_log s) [] 0;
  li_blocks : blocks_ok (l_bc s);
  li_rel : brel dev (l_bc s) (pinned [] (view dev (l_bc s)) (disk (l_bc s)) (dwrites (l_bc s)) (me (l_bc s)))
}.

Lemma inb_true x l : x ∈ l -> inb x l = true.
Proof. intros. by apply bool_decide_eq_true_2. Qed.
Lemma inb_false x l : x ∉ l -> inb x l = false.
Proof. intros. by apply bool_decide_eq_false_2. Qed.
Lemma inb_cons x y l : inb x (y :: l) = (x =? y) || inb x l.
Proof.
  unfold inb. destruct (Z.eqb_spec x y) as [->|]; [by apply bool_decide_eq_true_2; left|].
  cbn. apply bool_decide_ext. rewrite elem_of_cons. tauto.
Qed.
Lemma inb_app x l l' : inb x (l ++ l') = inb x l || inb x l'.
Proof.
  induction l as [|y l IH]; [done|]. cbn [app]. rewrite !inb_cons, IH. by rewrite orb_assoc.
Qed.

(** A relation between the cache and [txabs] follows from one with any other
    description of the same cache. *)
Lemma txabs_rel b a L H h :
  brel dev b a -> (forall x, a_refs a x = (if inb x L then 1 else 0) + (if inb x H then 1 else 0)) ->
  (forall x, a_lock a x = if inb x H then Some (me b) else None) ->
  (forall x i, h x = Some i -> a_handle a x = Some i) -> a_used a = (length L + outside L H)%nat ->
  brel dev b (txabs L H h b).
Proof.
  intros R E1 E2 E3 E4. eapply brel_ext; [exact R|exact E1| |exact E2| | | | |exact E4]; cbn.
  - intros x. symmetry. apply R.
  - intros x i Hx. destruct (br_handle _ _ _ R x i (E3 _ _ Hx)) as [? Hr]. split; [done|].
    rewrite (br_refs _ _ _ R), E1 in Hr. done.
  - intros x. symmetry. apply R.
  - symmetry. apply R.
  - symmetry. apply R.
Qed.

Lemma log_read s L H b :
  log_tx s L H -> is_home b -> b ∉ H.*1 -> (length L + length H < 20)%nat ->
  exists i s', bc (bread dev b) s = Ret i s' /\ log_tx s' L ((b, i) :: H) /\
    (forall x, view dev (l_bc s') x = view dev (l_bc s) x).
Proof.
  intros [Hok Hsm Hlog [Bh Bl Bv] Hnd Hhome (h & R & Hh) Hcl] Hb Hnb Hroom. destruct s as [c l]. cbn [l_bc l_log] in *.
  assert (Hout : (outside L H.*1 <= length H)%nat).
  { unfold outside. rewrite <- (length_fmap fst H). apply List.filter_length_le. }
  destruct (bread_run dev c _ b R) as (i & c' & E & R').
  - cbn. by rewrite inb_false.
  - cbn. destruct (inb b L), (inb b H.*1); lia.
  - right. cbn [a_used txabs]. unfold NBUF. lia.
  - assert (Ev : forall x, view dev c' x = view dev c x) by (intros x; by rewrite (br_view _ _ _ R')).
    assert (Ed : forall x, disk c' x = disk c x) by (intros x; by rewrite (br_disk _ _ _ R')).
    exists i, (mkLst c' l). split; [exact (bc_Ret _ _ _ _ _ E)|]. split; [|exact Ev].
    split; cbn [l_bc l_log fmap list_fmap fst]; try done.
    + split; [by rewrite Ed|by rewrite Ed|]. intros x Hx. rewrite Ev. by apply Bv.
    + by apply NoDup_cons.
    + intros x [->|Hx]%elem_of_cons; [done|by apply Hhome].
    + exists (zupd h b (Some i)). split.
      * eapply txabs_rel; [exact R'|..]; cbn [a_refs a_lock a_handle a_used a_read txabs].
        -- intros x. rewrite inb_cons. unfold zupd. destruct (Z.eqb_spec x b) as [->|]; cbn [orb]; [|done].
           rewrite (inb_false b H.*1) by done. lia.
        -- intros x. rewrite inb_cons, (br_me _ _ _ R'). unfold zupd. by destruct (x =? b).
        -- done.
        -- rewrite (inb_false b H.*1) by done. unfold outside. cbn [List.filter]. destruct (inb b L) eqn:Eb; cbn [negb length].
           ++ assert (b ∈ L) by (by apply bool_decide_eq_true in Eb). destruct L; [set_solver|].
              change (used1 (1 + 0)) with 1%nat. cbn [length]. lia.
           ++ change (used1 (0 + 0)) with 0%nat. lia.
      * intros x j [[= -> ->]|Hx]%elem_of_cons; [apply zupd_eq|]. rewrite zupd_ne; [by apply Hh|].
        intros ->. apply Hnb, list_elem_of_fmap. by exists (b, j).
    + intros x Hx. rewrite Ev, Ed. by apply Hcl.
Qed.

Lemma log_data s L H b i : log_tx s L H -> (b, i) ∈ H -> bc (bdata i) s = Ret (view dev (l_bc s) b) s.
Proof.
  intros [_ _ _ _ _ _ (h & R & Hh) _] Hi. destruct s as [c l]. cbn [l_bc] in *.
  apply bc_Ret. exact (bdata_run dev c _ b i R (Hh b i Hi)).
Qed.

Lemma log_relse s L H b i :
  log_tx s L ((b, i) :: H) -> exists s', bc (brelse i) s = Ret tt s' /\ log_tx s' L H /\
    (forall x, view dev (l_bc s') x = view dev (l_bc s) x).
Proof.
  intros [Hok Hsm Hlog [Bh Bl Bv] Hnd Hhome (h & R & Hh) Hcl]. destruct s as [c l].
  cbn [l_bc l_log fmap list_fmap fst] in *. apply NoDup_cons in Hnd as [Hnb Hnd].
  destruct (brelse_run dev c _ b i R) as (c' & E & R').
  - apply Hh. by left.
  - cbn. by rewrite inb_true by (by left).
  - cbn. rewrite (inb_true b (b :: H.*1)) by (by left). intros Er. apply Hcl. intros Hin.
    rewrite inb_true in Er by done. lia.
  - assert (Ev : forall x, view dev c' x = view dev c x) by (intros x; by rewrite (br_view _ _ _ R')).
    assert (Ed : forall x, disk c' x = disk c x) by (intros x; by rewrite (br_disk _ _ _ R')).
    exists (mkLst c' l). split; [exact (bc_Ret _ _ _ _ _ E)|]. split; [|exact Ev].
    split; cbn [l_bc l_log]; try done.
    + split; [by rewrite Ed|by rewrite Ed|]. intros x Hx. rewrite Ev. by apply Bv.
    + intros x Hx. apply Hhome. by right.
    + exists (zupd h b None). split.
      * eapply txabs_rel; [exact R'|..]; cbn [a_refs a_lock a_handle a_used a_relse txabs].
        -- intros x. rewrite (inb_true b (b :: H.*1)) by (by left). unfold zupd. rewrite inb_cons.
           destruct (Z.eqb_spec x b) as [->|]; cbn [orb]; [|done]. rewrite (inb_false b H.*1) by done. lia.
        -- intros x. unfold zupd. rewrite inb_cons, (br_me _ _ _ R'). destruct (Z.eqb_spec x b) as [->|]; [|done].
           by rewrite (inb_false b H.*1).
        -- intros x j Hx. destruct (decide (x = b)) as [->|Hn]; [by rewrite zupd_eq in Hx|].
           rewrite zupd_ne in Hx by done. destruct (_ =? 1); [by rewrite zupd_ne|done].
        -- rewrite (inb_true b (b :: H.*1)) by (by left). unfold outside. cbn [List.filter].
           destruct (inb b L) eqn:Eb; [change (used1 (1 + 1 - 1)) with 1%nat|change (used1 (0 + 1 - 1)) with 0%nat];
             cbn [negb length]; lia.
      * intros x j Hx. rewrite zupd_ne; [apply Hh; by right|]. intros ->. apply Hnb, list_elem_of_fmap. by exists (b, j).
    + intros x Hx. rewrite Ev, Ed. by apply Hcl.
Qed.

(** Logging a block *)
Lemma take_blocks l L ops : log_state l L ops -> (length L <= 30)%nat -> take (length L) (lh_block (lh l)) = L.
Proof.
  intros [Hl Hb _] Hn. apply list_eq. intros i. destruct (decide (i < length L)%nat) as [Hi|Hi].
  - rewrite lookup_take_lt by done. rewrite (list_lookup_lookup_total_lt L) by done.
    rewrite (list_lookup_lookup_total_lt (lh_block (lh l))) by lia. f_equal. by apply Hl.
  - rewrite lookup_take_ge, (lookup_ge_None_2 L) by lia. done.
Qed.

Lemma outside_log L H b : NoDup H -> b ∈ H -> b ∉ L -> outside L H = S (outside (L ++ [b]) H).
Proof.
  intros Hnd Hin HbL. apply list_elem_of_split in Hin as (l1 & l2 & ->).
  assert (Hb : b ∉ l1 ++ l2).
  { assert (Hp : NoDup (b :: l1 ++ l2)) by (by rewrite Permutation_middle). by apply NoDup_cons in Hp as [? _]. }
  assert (Hf : forall l, b ∉ l -> List.filter (fun x => negb (inb x (L ++ [b]))) l = List.filter (fun x => negb (inb x L)) l).
  { intros l Hl. apply List.filter_ext_in. intros x Hx%list_elem_of_In. rewrite inb_app, (inb_false x [b]); [by rewrite orb_false_r|].
    intros ->%list_elem_of_singleton. done. }
  unfold outside. rewrite !List.filter_app, !length_app. cbn [List.filter].
  rewrite (inb_false b L) by done. rewrite inb_app, (inb_true b [b]) by (by left). rewrite orb_true_r. cbn [negb length].
  rewrite !Hf by set_solver. lia.
Qed.

Lemma first_index_elem (L : list Z) b :
  match first_index (fun x => x =? b) L with Some j => L !! j = Some b | None => b ∉ L end.
Proof.
  destruct (first_index _ L) as [j|] eqn:E.
  - apply first_index_Some in E as [(x & Hx & ->%Z.eqb_eq) _]. done.
  - rewrite first_index_None in E. intros [j Hj]%list_elem_of_lookup. apply E in Hj. by rewrite Z.eqb_refl in Hj.
Qed.

Lemma log_update s L H b i bs :
  log_tx s L H -> (b, i) ∈ H -> is_home b -> length bs = Z.to_nat BSIZE -> (length (add_block b L) <= 10)%nat ->
  exists s', (_ ← bc (bmodify i (fun _ => bs)); log_write i) s = Ret tt s' /\ log_tx s' (add_block b L) H /\
    (forall x, view dev (l_bc s') x = zupd (view dev (l_bc s)) b bs x).
Proof.
  intros [Hok Hsm Hlog [Bh Bl Bv] Hnd Hhome (h & R & Hh) Hcl] Hin Hb Hbs Hroom. destruct s as [c l].
  cbn [l_bc l_log] in *. assert (HbH : b ∈ H.*1) by (apply list_elem_of_fmap; by exists (b, i)).
  destruct (bmodify_run dev c _ b i (fun _ => bs) R (Hh b i Hin)) as (c1 & E1 & R1).
  rewrite (bind_Ret _ _ _ _ _ (bc_Ret _ _ _ _ _ E1)). unfold log_write, getlog, gets. unfold mbind at 1, M_bind at 1. cbn [l_log].
  pose proof (ls_holds _ _ _ Hlog) as Hl. pose proof (ls_ops _ _ _ Hlog) as [Ho Hc]. pose proof (ls_blen _ _ _ Hlog) as Hbl.
  rewrite (ho_n _ _ _ _ Hl), Ho, Nat2Z.id, (take_blocks l L 1 Hlog) by lia.
  rewrite LOGBLOCKS_eq. destruct (Z.leb_spec 30 (Z.of_nat (length L))); [lia|]. change (1 <? 1) with false. cbv iota.
  change ((getS ≫= ?h) ?s) with (h s s). cbv beta zeta. cbn [l_bc].
  assert (Hi1 : a_handle (a_modify b (fun _ => bs) (txabs L H.*1 h c)) b = Some i) by (by apply Hh).
  destruct (handle_facts dev c1 _ b i R1 Hi1) as (_ & _ & _ & _ & _ & _ & _ & Eb & _). rewrite Eb.
  assert (Ev1 : forall x, view dev c1 x = zupd (view dev c) b bs x) by (intros x; by rewrite (br_view _ _ _ R1)).
  assert (Ed1 : forall x, disk c1 x = disk c x) by (intros x; by rewrite (br_disk _ _ _ R1)).
  assert (Hlen : forall c', (forall x, view dev c' x = zupd (view dev c) b bs x) -> (forall x, disk c' x = disk c x) -> blocks_ok c').
  { intros c' Ev Ed. split; [by rewrite Ed|by rewrite Ed|]. intros x Hx. rewrite Ev. unfold zupd.
    destruct (x =? b); [done|by apply Bv]. }
  pose proof (first_index_elem L b) as Hfi. unfold add_block in *.
  destruct (first_index (fun x => x =? b) L) as [j|] eqn:Ej; cbn [default from_option id].
  - assert (HbL : b ∈ L) by (by eapply list_elem_of_lookup_2). rewrite bool_decide_eq_true_2 in * by done.
    pose proof (lookup_lt_Some _ _ _ Hfi) as Hj. rewrite (proj2 (Nat.eqb_neq j (length L))) by lia.
    assert (Esame : <[j := b]> (lh_block (lh l)) = lh_block (lh l)).
    { apply list_insert_id. rewrite (list_lookup_lookup_total_lt _ j) by lia. f_equal.
      rewrite (ho_block _ _ _ _ Hl) by done. by apply list_lookup_total_correct. }
    unfold modlog, modS. unfold mbind, M_bind. cbn [l_log l_bc]. rewrite Esame.
    eexists. split; [reflexivity|]. split; [|exact Ev1].
    split; cbn [l_bc l_log]; try done.
    + split; [|done|done]. split; try apply Hl; done.
    + by apply Hlen.
    + exists h. split; [|done]. eapply txabs_rel; [exact R1|..]; cbn; try done.
      intros x. by rewrite (br_me _ _ _ R1).
    + intros x Hx. rewrite Ev1, Ed1, zupd_ne by (intros ->; done). by apply Hcl.
  - rewrite bool_decide_eq_false_2 in * by done. rewrite length_app in Hroom. cbn [length] in Hroom.
    rewrite Nat.eqb_refl. unfold modlog, modS. unfold mbind at 1, M_bind at 1. cbn [l_log l_bc].
    destruct (bpin_run dev c1 _ b i R1 Hi1) as (c2 & E2 & R2).
    { cbn. destruct (inb b L), (inb b H.*1); lia. }
    rewrite (bind_Ret _ _ _ _ _ (bc_Ret _ _ _ _ _ E2)). cbn [l_log l_bc set_lh lh lh_n lh_block].
    assert (Ev2 : forall x, view dev c2 x = zupd (view dev c) b bs x) by (intros x; by rewrite (br_view _ _ _ R2)).
    assert (Ed2 : forall x, disk c2 x = disk c x) by (intros x; by rewrite (br_disk _ _ _ R2)).
    eexists. split; [reflexivity|]. split; [|exact Ev2].
    assert (Hok' : tx_ok start (L ++ [b])).
    { split; [rewrite length_app, LOGBLOCKS_eq; cbn [length]; lia| |].
      - apply NoDup_app. split_and!; [apply Hok| |apply NoDup_singleton]. set_solver.
      - intros x [Hx|Hx%list_elem_of_singleton]%elem_of_app; [by apply (tx_home start L Hok)|by subst x]. }
    split; cbn [l_bc l_log]; try done.
    + rewrite length_app. cbn [length]. lia.
    + split; cbn [lh set_lh lh_block]; [|by rewrite length_insert|done].
      split; cbn [l_dev l_start lh set_lh lh_n lh_block]; [apply Hl|apply Hl|rewrite (ho_n _ _ _ _ Hl), length_app; cbn [length]; lia|].
      rewrite length_app. cbn [length]. intros k Hk. destruct (decide (k = length L)) as [->|Hne].
      * rewrite list_lookup_total_insert_eq by lia. rewrite lookup_total_app_r, Nat.sub_diag by lia. done.
      * rewrite list_lookup_total_insert_ne by lia. rewrite lookup_total_app_l by lia. apply Hl. lia.
    + by apply Hlen.
    + exists h. split; [|done]. eapply txabs_rel; [exact R2|..]; cbn [a_refs a_lock a_handle a_used a_pin a_modify txabs].
      * intros x. rewrite inb_app, inb_cons. unfold zupd. destruct (Z.eqb_spec x b) as [->|]; cbn [orb]; [|by rewrite orb_false_r].
        rewrite (inb_false b L), (inb_true b H.*1) by done. cbn. lia.
      * intros x. by rewrite (br_me _ _ _ R2).
      * done.
      * rewrite (outside_log L H.*1 b) by done. rewrite length_app. cbn [length]. lia.
    + intros x Hx. rewrite Ev2, Ed2, zupd_ne by set_solver. apply Hcl. set_solver.
Qed.

Lemma log_begin s : log_idle s ->
  exists s', begin_op s = Ret tt s' /\ log_tx s' [] [] /\ (forall x, view dev (l_bc s') x = view dev (l_bc s) x).
Proof.
  intros [[Hl Hb [Ho Hc]] Bk R]. destruct s as [c l]. cbn [l_bc l_log] in *. unfold begin_op. cbn [l_log l_bc].
  rewrite Hc, Ho, (ho_n _ _ _ _ Hl). cbn [Z.eqb negb length].
  eexists. split; [reflexivity|]. split; [|done]. split; cbn [l_bc l_log].
  - split; [done|constructor|set_solver].
  - cbn. lia.
  - split; [|done|done]. split; apply Hl.
  - done.
  - constructor.
  - set_solver.
  - exists (fun _ => None). split; [|set_solver]. eapply brel_ext; [exact R|..]; done.
  - intros x _. apply (brel_clean dev c _ x R). cbn. done.
Qed.

Lemma log_end s L : log_tx s L [] ->
  exists s', end_op s = Ret tt s' /\ log_idle s' /\ (forall x, is_home x -> view dev (l_bc s') x = view dev (l_bc s) x).
Proof.
  intros [Hok Hsm Hlog [Bh Bl Bv] _ _ (h & R & _) Hcl]. destruct s as [c l]. cbn [l_bc l_log] in *.
  destruct Hlog as [Hl Hb [Ho Hc]]. set (l1 := set_ops 0 1 l).
  assert (E : end_op (mkLst c l) = (_ ← commit; modlog (fun l => set_ops (outstanding l) 0 l)) (mkLst c l1)).
  { unfold end_op. change ((modlog ?f ≫= ?h) ?s) with (h tt (mkLst (l_bc s) (f (l_log s)))). cbv beta.
    change ((getlog ≫= ?h) ?s) with (h (l_log s) s). cbv beta. cbn [l_log l_bc set_ops committing outstanding].
    rewrite Hc, Ho. reflexivity. }
  rewrite E. clear E.
  assert (Hl1 : holds dev start l1 L) by (split; apply Hl).
  assert (Rp : brel dev c (pinned L (view dev c) (disk c) (dwrites c) (me c))).
  { eapply brel_ext; [exact R|..]; cbn; try done.
    intros x. unfold inb. rewrite (bool_decide_eq_false_2 (x ∈ [])) by set_solver. lia. }
  destruct (decide (L = [])) as [->|Hne].
  - assert (Ec : commit (mkLst c l1) = Ret tt (mkLst c l1)).
    { unfold commit, getlog, gets, mbind, M_bind. cbn [l_log]. by rewrite (ho_n _ _ _ _ Hl1). }
    rewrite (bind_Ret _ _ _ _ _ Ec). eexists. split; [reflexivity|]. split; [|done].
    split; cbn [l_bc l_log]; [|done|done]. split; [split; apply Hl|done|done].
  - assert (Hlen : (0 < length L < NBUF)%nat) by (unfold NBUF; destruct L; [done|cbn [length] in *; lia]).
    destruct (commit_run dev start Hstart c l1 L _ _ _ _ Hok Hlen Hl1 Rp) as (c' & v' & Ec & R').
    destruct (commit_final dev start Hdev Hstart l1 L (view dev c) (disk c) Hok Hl1 Hcl Bl Bh) as (Hf & Hf0 & Hfl).
    set (d' := apply_writes _ _) in *.
    assert (Ev : forall x, view dev c' x = d' x).
    { intros x. rewrite (br_view _ _ _ R'). apply (brel_clean dev c' _ x R'). done. }
    assert (Ed : forall x, disk c' x = d' x) by (intros x; by rewrite (br_disk _ _ _ R')).
    rewrite (bind_Ret _ _ _ _ _ Ec). eexists. split; [reflexivity|]. split.
    + split; cbn [l_bc l_log].
      * split; [|done|done]. split; [apply Hl|apply Hl|done|]. intros i Hi. cbn [length] in Hi. lia.
      * split; [by rewrite Ed|by rewrite Ed|]. intros x Hx. rewrite Ev, Hf by apply Hx. by apply Bv.
      * eapply brel_ext; [exact R'|..]; cbn; try done.
        all: intros; symmetry; apply R'.
    + cbn [l_bc]. intros x Hx. rewrite Ev. by apply Hf, Hx.
Qed.

(** The state a reboot leaves, and the end of a transaction. *)
Lemma reboot_idle d pid :
  disk_ok start d -> (forall x, is_home x -> length (recovered start d x) = Z.to_nat BSIZE) ->
  exists s, reboot dev start d pid = Ret tt s /\ log_idle s /\
    forall x, is_home x -> view dev (l_bc s) x = recovered start d x.
Proof.
  intros Hok Hlen. destruct (reboot_run dev start Hdev Hstart d pid Hok) as (b & l & E & Hl & (Hb & Ho & Hc) & R).
  cbv zeta in R. exists (mkLst b l). split; [exact E|].
  assert (Ev : forall x, is_home x -> view dev b x = recovered start d x).
  { intros x [Hx _]. rewrite (br_view _ _ _ R). cbn [a_view pinned]. rewrite zupd_ne by (intros ->; by apply Hx, start_in). done. }
  split; [|exact Ev]. split; cbn [l_bc l_log].
  - by split.
  - split.
    + rewrite (br_disk _ _ _ R). cbn [a_disk pinned]. rewrite zupd_eq.
      apply hd_put_n; [rewrite (dk_len _ _ Hok), BSIZE_nat; lia|lia].
    + rewrite (br_disk _ _ _ R). cbn [a_disk pinned]. rewrite zupd_eq. unfold put_n.
      rewrite length_putn; [apply Hok|rewrite (dk_len _ _ Hok), BSIZE_nat; lia].
    + intros x Hx. rewrite Ev by done. by apply Hlen.
  - eapply brel_ext; [exact R|..]; cbn; try done; intros; symmetry; apply R.
Qed.

Lemma tx_commit_ready s L : log_tx s L [] -> L <> [] -> commit_ready dev start (l_bc s) (l_log s) L.
Proof.
  intros [Hok Hsm Hlog [Bh Bl Bv] _ _ (h & R & _) Hcl] Hne. split; try done.
  - unfold NBUF. destruct L; [done|cbn [length] in *; lia].
  - apply Hlog.
  - eapply brel_ext; [exact R|..]; cbn; try done.
    intros x. unfold inb. rewrite (bool_decide_eq_false_2 (x ∈ [])) by set_solver. lia.
Qed.

#[export] Instance log_laws : BlockLaws lst dev := {|
  tx := log_tx; idle := log_idle; bview := fun s => view dev (l_bc s); home := is_home;
  law_nodup := fun s L H T => tx_nodup _ _ (lt_ok _ _ _ T);
  law_len := fun s L H b T Hb => bk_len _ (lt_blocks _ _ _ T) b Hb;
  law_read := log_read; law_data := log_data; law_update := log_update; law_relse := log_relse;
  law_begin := log_begin; law_end := log_end
|}.
End log_tx.

(** A transaction that overwrites block 50 of an empty disk. *)
Definition empty_disk : Z -> list Z := fun _ => replicate 1024 0.

Lemma empty_disk_ok : disk_ok 2 empty_disk.
Proof.
  split; [vm_compute; reflexivity|vm_compute; discriminate|]. assert (hd_list (empty_disk 2) = []) as -> by (vm_compute; reflexivity).
  split; [done|constructor|set_solver].
Qed.

Lemma commit_witness : exists b l, commit_ready 1 2 b l [50] /\
  exists b' l' W, commit (mkLst b l) = Ret tt (mkLst b' l') /\ dwrites b' = dwrites b ++ W /\
  disk b' 50 = replicate 1024 7.
Proof.
  destruct (reboot_idle 1 2 ltac:(lia) ltac:(lia) empty_disk 5 empty_disk_ok) as (s0 & _ & I & _).
  { intros x _. unfold recovered. assert (hd_list (empty_disk 2) = []) as -> by (vm_compute; reflexivity). reflexivity. }
  assert (Hh : is_home 2 50) by (split; [intros [_ H]; vm_compute in H; by apply H|lia]).
  destruct (log_begin 1 2 ltac:(lia) ltac:(lia) s0 I) as (s1 & _ & T1 & _).
  destruct (log_read 1 2 ltac:(lia) ltac:(lia) s1 [] [] 50 T1 Hh) as (i & s2 & _ & T2 & _); [set_solver|cbn; lia|].
  destruct (log_update 1 2 ltac:(lia) ltac:(lia) s2 [] [(50, i)] 50 i (replicate 1024 7) T2) as (s3 & _ & T3 & V3);
    [by left|done|by rewrite length_replicate|vm_compute; lia|].
  destruct (log_relse 1 2 ltac:(lia) s3 [50] [] 50 i T3) as (s4 & _ & T4 & V4).
  pose proof (tx_commit_ready 1 2 ltac:(lia) ltac:(lia) s4 [50] T4 ltac:(done)) as Hr. exists (l_bc s4), (l_log s4). split; [exact Hr|].
  destruct (commit_crash_safe 1 2 ltac:(lia) ltac:(lia) (l_bc s4) (l_log s4) [50] Hr) as (b' & l' & W & E & Ew & Hd & _).
  exists b', l', W. split; [exact E|]. split; [exact Ew|]. rewrite Hd by apply Hh. rewrite V4, V3. apply zupd_eq.
Defined.
