(* ===== verification/Fs.v ===== *)
(** The file system, kernel/fs.c, over the block interface.

    [fsys] is the state of the layers below, the superblock, the inode table and
    the current process (for the inodes' sleep locks).  An inode pointer is the
    index of its entry in the table, [None] is a null pointer.  Structures on disk
    are read and written as bytes at the offsets of [struct dinode] and
    [struct dirent]. *)
From S2P Require Import Prelude Riscv PhysMem Bytes Bio BlockIface FsIface.

Definition ROOTINO : Z := 1.
Definition ROOTDEV : Z := 1.
Definition FSMAGIC : Z := 0x10203040.
Definition NDIRECT : Z := 12.
Definition NINDIRECT : Z := BSIZE / 4.
Definition MAXFILE : Z := NDIRECT + NINDIRECT.
Definition sizeof_dinode : Z := 64.
Definition IPB : Z := BSIZE / sizeof_dinode.
Definition BPB : Z := BSIZE * 8.
Definition NINODE : nat := 50.

Record superblock : Type := mkSb {
  sb_magic : Z; sb_size : Z; sb_nblocks : Z; sb_ninodes : Z; sb_nlog : Z;
  sb_logstart : Z; sb_inodestart : Z; sb_bmapstart : Z }.

Definition IBLOCK (i : Z) (sb : superblock) : Z := u32 (i / IPB + sb_inodestart sb).
Definition BBLOCK (b : Z) (sb : superblock) : Z := u32 (b / BPB + sb_bmapstart sb).

(** What is the same on disk and in memory. *)
Record dinode : Type := mkDinode {
  d_type : Z; d_major : Z; d_minor : Z; d_nlink : Z; d_size : Z; d_addrs : list Z }.

Record inode : Type := mkInode {
  i_dev : Z; i_inum : Z; i_ref : Z; i_locked : Z; i_pid : Z; i_valid : Z; i_data : dinode }.

#[global] Instance dinode_inhabited : Inhabited dinode := populate (mkDinode 0 0 0 0 0 []).
#[global] Instance inode_inhabited : Inhabited inode := populate (mkInode 0 0 0 0 0 0 inhabitant).

(** [struct dinode] at byte [off] of a block. *)
Definition get_dinode (bs : list Z) (off : nat) : dinode :=
  mkDinode (i16 (getn 2 bs off)) (i16 (getn 2 bs (off + 2))) (i16 (getn 2 bs (off + 4))) (i16 (getn 2 bs (off + 6)))
    (getn 4 bs (off + 8)) ((fun k => getn 4 bs (off + 12 + 4 * k)) <$> seq 0 13).

Fixpoint put_addrs (bs : list Z) (off : nat) (l : list Z) : list Z :=
  match l with [] => bs | a :: l => put_addrs (putn 4 bs off a) (off + 4) l end.
Definition put_dinode (bs : list Z) (off : nat) (d : dinode) : list Z :=
  let bs := putn 2 bs off (d_type d) in
  let bs := putn 2 bs (off + 2) (d_major d) in
  let bs := putn 2 bs (off + 4) (d_minor d) in
  let bs := putn 2 bs (off + 6) (d_nlink d) in
  let bs := putn 4 bs (off + 8) (d_size d) in
  put_addrs bs (off + 12) (d_addrs d).

Definition dinode_off (inum : Z) : nat := Z.to_nat (sizeof_dinode * (inum mod IPB)).

Record fsys (B : Type) : Type := mkFsys { f_blk : B; f_sb : superblock; f_itable : list inode; f_me : Z }.
Arguments mkFsys {B}.
Arguments f_blk {B}.
Arguments f_sb {B}.
Arguments f_itable {B}.
Arguments f_me {B}.

Definition set_data_of (f : dinode -> dinode) (x : inode) : inode :=
  mkInode (i_dev x) (i_inum x) (i_ref x) (i_locked x) (i_pid x) (i_valid x) (f (i_data x)).
Definition set_ref (r : Z) (x : inode) : inode :=
  mkInode (i_dev x) (i_inum x) r (i_locked x) (i_pid x) (i_valid x) (i_data x).
Definition set_ilock (l p : Z) (x : inode) : inode :=
  mkInode (i_dev x) (i_inum x) (i_ref x) l p (i_valid x) (i_data x).
Definition set_valid (v : Z) (d : dinode) (x : inode) : inode :=
  mkInode (i_dev x) (i_inum x) (i_ref x) (i_locked x) (i_pid x) v d.

Definition set_type (t : Z) (d : dinode) : dinode :=
  mkDinode t (d_major d) (d_minor d) (d_nlink d) (d_size d) (d_addrs d).
Definition set_size (n : Z) (d : dinode) : dinode :=
  mkDinode (d_type d) (d_major d) (d_minor d) (d_nlink d) n (d_addrs d).
Definition set_addr (k : nat) (a : Z) (d : dinode) : dinode :=
  mkDinode (d_type d) (d_major d) (d_minor d) (d_nlink d) (d_size d) (<[k := a]> (d_addrs d)).

Section fs.
Context {B : Type} `{BO : !BlockOps B}.

Definition blk {A} (m : M B A) : M (fsys B) A := zoom f_blk (fun b f => mkFsys b (f_sb f) (f_itable f) (f_me f)) m.
Definition getsb : M (fsys B) superblock := gets f_sb.
Definition geti (ip : nat) : M (fsys B) inode := gets (fun f => f_itable f !!! ip).
Definition modi (ip : nat) (h : inode -> inode) : M (fsys B) unit :=
  modS (fun f => mkFsys (f_blk f) (f_sb f) (<[ip := h (f_itable f !!! ip)]> (f_itable f)) (f_me f)).
(** A buffer's data is changed and the buffer is logged. *)
Definition update (bp : nat) (bs : list Z) : M (fsys B) unit := blk (_ ← blk_set bp bs; blk_log bp).

Definition readsb (dev : Z) : M (fsys B) unit :=
  bp ← blk (blk_read dev 1);
  d ← blk (blk_data bp);
  _ ← modS (fun f => mkFsys (f_blk f)
        (mkSb (getn 4 d 0) (getn 4 d 4) (getn 4 d 8) (getn 4 d 12) (getn 4 d 16) (getn 4 d 20) (getn 4 d 24) (getn 4 d 28))
        (f_itable f) (f_me f));
  blk (blk_relse bp).

(** ** Blocks *)
Definition bzero (dev bno : Z) : M (fsys B) unit :=
  bp ← blk (blk_read dev bno);
  _ ← update bp (replicate (Z.to_nat BSIZE) 0);
  blk (blk_relse bp).

(** The bit of the bitmap block [d] for its [bi]th block. *)
Definition bit_mask (bi : nat) : Z := Z.shiftl 1 (Z.of_nat bi mod 8).
Definition bit_byte (bi : nat) : nat := Nat.div bi 8.
Definition bit_free (d : list Z) (bi : nat) : bool := Z.land (d !!! bit_byte bi) (bit_mask bi) =? 0.
Definition bit_set (d : list Z) (bi : nat) : list Z :=
  <[bit_byte bi := Z.lor (d !!! bit_byte bi) (bit_mask bi)]> d.
Definition bit_clear (d : list Z) (bi : nat) : list Z :=
  <[bit_byte bi := u8 (Z.land (d !!! bit_byte bi) (Z.lnot (bit_mask bi)))]> d.

(** [for(; bi < BPB && b + bi < sb.size; bi++)], with [n] more to try. *)
Fixpoint free_bit (d : list Z) (n bi : nat) : option nat :=
  match n with O => None | S n => if bit_free d bi then Some bi else free_bit d n (S bi) end.

Fixpoint balloc_loop (fuel : nat) (dev b : Z) : M (fsys B) Z :=
  match fuel with
  | O => diverge
  | S fuel =>
      sb ← getsb;
      if b <? sb_size sb then
        bp ← blk (blk_read dev (BBLOCK b sb));
        d ← blk (blk_data bp);
        match free_bit d (Z.to_nat (Z.min BPB (sb_size sb - b))) 0 with
        | Some bi =>
            _ ← update bp (bit_set d bi);
            _ ← blk (blk_relse bp);
            _ ← bzero dev (b + Z.of_nat bi);
            mret (b + Z.of_nat bi)
        | None => _ ← blk (blk_relse bp); balloc_loop fuel dev (b + BPB)
        end
      else mret 0
  end.

Definition balloc (dev : Z) : M (fsys B) Z :=
  sb ← getsb; balloc_loop (S (S (Z.to_nat (sb_size sb / BPB)))) dev 0.

Definition bfree (dev b : Z) : M (fsys B) unit :=
  sb ← getsb;
  bp ← blk (blk_read dev (BBLOCK b sb));
  d ← blk (blk_data bp);
  let bi := Z.to_nat (b mod BPB) in
  if bit_free d bi then panic "freeing free block"
  else _ ← update bp (bit_clear d bi); blk (blk_relse bp).

(** ** Inodes *)
Definition iinit : M (fsys B) unit :=
  modS (fun f => mkFsys (f_blk f) (f_sb f) (set_ilock 0 0 <$> f_itable f) (f_me f)).

Definition iget (dev inum : Z) : M (fsys B) nat :=
  f ← getS;
  match first_index (fun x => (0 <? i_ref x) && (i_dev x =? dev) && (i_inum x =? inum)) (f_itable f) with
  | Some ip => _ ← modi ip (fun x => set_ref (i_ref x + 1) x); mret ip
  | None =>
      match first_index (fun x => i_ref x =? 0) (f_itable f) with
      | Some ip => _ ← modi ip (fun x => mkInode dev inum 1 (i_locked x) (i_pid x) 0 (i_data x)); mret ip
      | None => panic "iget: no inodes"
      end
  end.

Fixpoint ialloc_loop (n : nat) (dev inum type : Z) : M (fsys B) (option nat) :=
  match n with
  | O => mret None
  | S n =>
      sb ← getsb;
      bp ← blk (blk_read dev (IBLOCK inum sb));
      d ← blk (blk_data bp);
      let off := dinode_off inum in
      if d_type (get_dinode d off) =? 0 then
        _ ← update bp (put_dinode d off (mkDinode type 0 0 0 0 (replicate 13 0)));
        _ ← blk (blk_relse bp);
        ip ← iget dev inum; mret (Some ip)
      else _ ← blk (blk_relse bp); ialloc_loop n dev (inum + 1) type
  end.

Definition ialloc (dev type : Z) : M (fsys B) (option nat) :=
  sb ← getsb; ialloc_loop (Z.to_nat (sb_ninodes sb - 1)) dev 1 type.

Definition iupdate (ip : nat) : M (fsys B) unit :=
  sb ← getsb;
  x ← geti ip;
  bp ← blk (blk_read (i_dev x) (IBLOCK (i_inum x) sb));
  d ← blk (blk_data bp);
  _ ← update bp (put_dinode d (dinode_off (i_inum x)) (i_data x));
  blk (blk_relse bp).

Definition idup (ip : nat) : M (fsys B) nat := _ ← modi ip (fun x => set_ref (i_ref x + 1) x); mret ip.

Definition iacquire (ip : nat) : M (fsys B) unit := fun f =>
  if negb (i_locked (f_itable f !!! ip) =? 0) then Block "inode" f
  else modi ip (set_ilock 1 (f_me f)) f.
Definition irelease (ip : nat) : M (fsys B) unit := modi ip (set_ilock 0 0).
Definition iholding (ip : nat) : M (fsys B) bool :=
  gets (fun f => negb (i_locked (f_itable f !!! ip) =? 0) && (i_pid (f_itable f !!! ip) =? f_me f)).

Definition ilock (ip : nat) : M (fsys B) unit :=
  x ← geti ip;
  if i_ref x <? 1 then panic "ilock"
  else
    _ ← iacquire ip;
    x ← geti ip;
    if i_valid x =? 0 then
      sb ← getsb;
      bp ← blk (blk_read (i_dev x) (IBLOCK (i_inum x) sb));
      d ← blk (blk_data bp);
      let di := get_dinode d (dinode_off (i_inum x)) in
      _ ← modi ip (set_valid 0 di);
      _ ← blk (blk_relse bp);
      _ ← modi ip (set_valid 1 di);
      if d_type di =? 0 then panic "ilock: no type" else mret tt
    else mret tt.

Definition iunlock (ip : nat) : M (fsys B) unit :=
  h ← iholding ip;
  x ← geti ip;
  if negb h || (i_ref x <? 1) then panic "iunlock" else irelease ip.

(** [a[j]] of an indirect block. *)
Definition get_addr (bs : list Z) (j : Z) : Z := getn 4 bs (4 * Z.to_nat j).
Definition put_addr (bs : list Z) (j a : Z) : list Z := putn 4 bs (4 * Z.to_nat j) a.

Definition bmap (ip : nat) (bn : Z) : M (fsys B) Z :=
  x ← geti ip;
  if bn <? NDIRECT then
    let addr := d_addrs (i_data x) !!! Z.to_nat bn in
    if addr =? 0 then
      addr ← balloc (i_dev x);
      if addr =? 0 then mret 0
      else _ ← modi ip (set_data_of (set_addr (Z.to_nat bn) addr)); mret addr
    else mret addr
  else
    let bn := bn - NDIRECT in
    if bn <? NINDIRECT then
      addr ← (let addr := d_addrs (i_data x) !!! Z.to_nat NDIRECT in
              if addr =? 0 then
                addr ← balloc (i_dev x);
                if addr =? 0 then mret 0
                else _ ← modi ip (set_data_of (set_addr (Z.to_nat NDIRECT) addr)); mret addr
              else mret addr);
      if addr =? 0 then mret 0
      else
        bp ← blk (blk_read (i_dev x) addr);
        d ← blk (blk_data bp);
        let addr := get_addr d bn in
        addr ← (if addr =? 0 then
                  addr ← balloc (i_dev x);
                  _ ← (if addr =? 0 then mret tt else update bp (put_addr d bn addr));
                  mret addr
                else mret addr);
        _ ← blk (blk_relse bp);
        mret addr
    else panic "bmap: out of range".

Fixpoint trunc_direct (n i : nat) (ip : nat) : M (fsys B) unit :=
  match n with
  | O => mret tt
  | S n =>
      x ← geti ip;
      _ ← (let a := d_addrs (i_data x) !!! i in
           if a =? 0 then mret tt else _ ← bfree (i_dev x) a; modi ip (set_data_of (set_addr i 0)));
      trunc_direct n (S i) ip
  end.

Fixpoint trunc_indirect (n j : nat) (dev : Z) (d : list Z) : M (fsys B) unit :=
  match n with
  | O => mret tt
  | S n =>
      _ ← (let a := get_addr d (Z.of_nat j) in if a =? 0 then mret tt else bfree dev a);
      trunc_indirect n (S j) dev d
  end.

Definition itrunc (ip : nat) : M (fsys B) unit :=
  _ ← trunc_direct (Z.to_nat NDIRECT) 0 ip;
  x ← geti ip;
  _ ← (let a := d_addrs (i_data x) !!! Z.to_nat NDIRECT in
       if a =? 0 then mret tt
       else
         bp ← blk (blk_read (i_dev x) a);
         d ← blk (blk_data bp);
         _ ← trunc_indirect (Z.to_nat NINDIRECT) 0 (i_dev x) d;
         _ ← blk (blk_relse bp);
         _ ← bfree (i_dev x) a;
         modi ip (set_data_of (set_addr (Z.to_nat NDIRECT) 0)));
  _ ← modi ip (set_data_of (set_size 0));
  iupdate ip.

Definition iput (ip : nat) : M (fsys B) unit :=
  x ← geti ip;
  _ ← (if (i_ref x =? 1) && negb (i_valid x =? 0) && (d_nlink (i_data x) =? 0) then
         _ ← iacquire ip;
         _ ← itrunc ip;
         _ ← modi ip (set_data_of (set_type 0));
         _ ← iupdate ip;
         _ ← modi ip (fun x => set_valid 0 (i_data x) x);
         irelease ip
       else mret tt);
  modi ip (fun x => set_ref (i_ref x - 1) x).

Definition iunlockput (ip : nat) : M (fsys B) unit := _ ← iunlock ip; iput ip.

Fixpoint ireclaim_loop (n : nat) (dev inum : Z) : M (fsys B) unit :=
  match n with
  | O => mret tt
  | S n =>
      sb ← getsb;
      bp ← blk (blk_read dev (IBLOCK inum sb));
      d ← blk (blk_data bp);
      let di := get_dinode d (dinode_off inum) in
      ip ← (if negb (d_type di =? 0) && (d_nlink di =? 0) then ip ← iget dev inum; mret (Some ip) else mret None);
      _ ← blk (blk_relse bp);
      _ ← match ip with
          | Some ip => _ ← blk blk_begin; _ ← ilock ip; _ ← iunlock ip; _ ← iput ip; blk blk_end
          | None => mret tt
          end;
      ireclaim_loop n dev (inum + 1)
  end.

Definition ireclaim (dev : Z) : M (fsys B) unit :=
  sb ← getsb; ireclaim_loop (Z.to_nat (sb_ninodes sb - 1)) dev 1.

Definition fsinit (dev : Z) : M (fsys B) unit :=
  _ ← readsb dev;
  sb ← getsb;
  if negb (sb_magic sb =? FSMAGIC) then panic "invalid file system"
  else _ ← blk (blk_init dev (sb_logstart sb)); ireclaim dev.
End fs.
