(* ===== verification/FsData.v ===== *)
(** File contents, directories and paths, the rest of kernel/fs.c.

    [readi] and [writei] move data between a file and either user or kernel
    memory: they run on any state [T] that contains the file system, with the
    copy that [either_copyout] and [either_copyin] make of each piece as an
    argument.  [readk] and [writek] are the calls with a kernel buffer. *)
From S2P Require Import Prelude Riscv PhysMem Bytes Bio BlockIface FsIface Fs.

Section content.
Context {B : Type} `{BO : !BlockOps B}.

Definition stati (x : inode) : Z * Z * Z * Z * Z :=
  (i_dev x, i_inum x, d_type (i_data x), d_nlink (i_data x), d_size (i_data x)).

Section copy.
Context {T : Type} (lift : forall A, M (fsys B) A -> M T A).
(** [either_copyout(user_dst, dst + tot, src, m)], and [either_copyin], which
    also gives the bytes that reached the buffer. *)
Context (copy_out : Z -> list Z -> M T Z) (copy_in : Z -> Z -> M T (Z * list Z)).
Arguments lift {A}.

Fixpoint readi_loop (fuel : nat) (ip : nat) (off n tot : Z) : M T Z :=
  match fuel with
  | O => diverge
  | S fuel =>
      if tot <? n then
        x ← lift (geti ip);
        addr ← lift (bmap ip (off / BSIZE));
        if addr =? 0 then mret tot
        else
          bp ← lift (blk (blk_read (i_dev x) addr));
          d ← lift (blk (blk_data bp));
          let m := Z.min (n - tot) (BSIZE - off mod BSIZE) in
          r ← copy_out tot (take (Z.to_nat m) (drop (Z.to_nat (off mod BSIZE)) d));
          if r =? -1 then _ ← lift (blk (blk_relse bp)); mret (-1)
          else _ ← lift (blk (blk_relse bp)); readi_loop fuel ip (off + m) n (tot + m)
      else mret tot
  end.

Definition readi (ip : nat) (off n : Z) : M T Z :=
  x ← lift (geti ip);
  let size := d_size (i_data x) in
  if (size <? off) || (u32 (off + n) <? off) then mret 0
  else
    let n := if size <? u32 (off + n) then size - off else n in
    readi_loop (S (S (S (Z.to_nat (n / BSIZE))))) ip off n 0.

(** The loop's result is [tot] and the final [off]. *)
Fixpoint writei_loop (fuel : nat) (ip : nat) (off n tot : Z) : M T (Z * Z) :=
  match fuel with
  | O => diverge
  | S fuel =>
      if tot <? n then
        x ← lift (geti ip);
        addr ← lift (bmap ip (off / BSIZE));
        if addr =? 0 then mret (tot, off)
        else
          bp ← lift (blk (blk_read (i_dev x) addr));
          d ← lift (blk (blk_data bp));
          let m := Z.min (n - tot) (BSIZE - off mod BSIZE) in
          r ← copy_in tot m;
          let '(rc, got) := r in
          let d' := splice d (Z.to_nat (off mod BSIZE)) got in
          if rc =? -1 then
            _ ← lift (blk (blk_set bp d')); _ ← lift (blk (blk_relse bp)); mret (tot, off)
          else
            _ ← lift (update bp d'); _ ← lift (blk (blk_relse bp)); writei_loop fuel ip (off + m) n (tot + m)
      else mret (tot, off)
  end.

Definition writei (ip : nat) (off n : Z) : M T Z :=
  x ← lift (geti ip);
  if (d_size (i_data x) <? off) || (u32 (off + n) <? off) then mret (-1)
  else if MAXFILE * BSIZE <? u32 (off + n) then mret (-1)
  else
    r ← writei_loop (S (S (S (Z.to_nat (n / BSIZE))))) ip off n 0;
    let '(tot, off) := r in
    x ← lift (geti ip);
    _ ← (if d_size (i_data x) <? off then lift (modi ip (set_data_of (set_size off))) else mret tt);
    _ ← lift (iupdate ip);
    mret tot.
End copy.

(** A kernel buffer that fills up, and one that is read from. *)
Definition kbuf : Type := fsys B * list Z.
Definition klift {A} (m : M (fsys B) A) : M kbuf A := zoom fst (fun f s => (f, snd s)) m.
Definition kout (tot : Z) (bs : list Z) : M kbuf Z := fun s => Ret 0 (fst s, snd s ++ bs).
Definition kin (src : list Z) (tot m : Z) : M (fsys B) (Z * list Z) :=
  mret (0, take (Z.to_nat m) (drop (Z.to_nat tot) src)).

Definition readk (ip : nat) (off n : Z) : M (fsys B) (Z * list Z) := fun f =>
  match readi (fun A => klift) kout ip off n (f, []) with
  | Ret r (f', bs) => Ret (r, bs) f'
  | Panic e => Panic e
  | Block c (f', _) => Block c f'
  | Diverge => Diverge
  end.

Definition writek (ip : nat) (off : Z) (src : list Z) : M (fsys B) Z :=
  writei (fun A m => m) (kin src) ip off (Z.of_nat (length src)).

(** ** Directories *)
(** [strncmp(s, t, n)] on strings that end at their length. *)
Fixpoint strncmp_seq (n : nat) (s t : list Z) : Z :=
  match n with
  | O => 0
  | S n =>
      let a := hd 0 s in let b := hd 0 t in
      if negb (a =? 0) && (a =? b) then strncmp_seq n (tail s) (tail t) else a - b
  end.

Definition namecmp (s t : list Z) : Z := strncmp_seq (Z.to_nat DIRSIZ) s t.

Definition de_inum (bs : list Z) : Z := getn 2 bs 0.
Definition de_name (bs : list Z) : list Z := take (Z.to_nat DIRSIZ) (drop 2 bs).

(** The next entry that [f] accepts, from offset [off]. *)
Fixpoint dir_scan (fuel : nat) (dp : nat) (f : list Z -> bool) (msg : string) (off : Z) : M (fsys B) (option (Z * list Z)) :=
  match fuel with
  | O => diverge
  | S fuel =>
      x ← geti dp;
      if off <? d_size (i_data x) then
        r ← readk dp off (Z.of_nat sizeof_dirent);
        let '(n, de) := r in
        if negb (n =? Z.of_nat sizeof_dirent) then panic msg
        else if f de then mret (Some (off, de))
        else dir_scan fuel dp f msg (off + Z.of_nat sizeof_dirent)
      else mret None
  end.

Definition scan_fuel (x : inode) : nat := S (S (Z.to_nat (d_size (i_data x) / Z.of_nat sizeof_dirent))).

(** The inode of the entry [name] and the entry's offset. *)
Definition dirlookup (dp : nat) (name : list Z) : M (fsys B) (option (nat * Z)) :=
  x ← geti dp;
  if negb (d_type (i_data x) =? T_DIR) then panic "dirlookup not DIR"
  else
    r ← dir_scan (scan_fuel x) dp (fun de => negb (de_inum de =? 0) && (namecmp name (de_name de) =? 0)) "dirlookup read" 0;
    match r with
    | Some (off, de) => ip ← iget (i_dev x) (de_inum de); mret (Some (ip, off))
    | None => mret None
    end.

(** [strncpy(de.name, name, DIRSIZ)] *)
Definition pad_name (name : list Z) : list Z :=
  let s := take (Z.to_nat DIRSIZ) name in s ++ replicate (Z.to_nat DIRSIZ - length s) 0.

Definition dirlink (dp : nat) (name : list Z) (inum : Z) : M (fsys B) Z :=
  r ← dirlookup dp name;
  match r with
  | Some (ip, _) => _ ← iput ip; mret (-1)
  | None =>
      x ← geti dp;
      r ← dir_scan (scan_fuel x) dp (fun de => de_inum de =? 0) "dirlink read" 0;
      let off := match r with
                 | Some (off, _) => off
                 | None => Z.of_nat sizeof_dirent * ((d_size (i_data x) + 15) / Z.of_nat sizeof_dirent)
                 end in
      n ← writek dp off (le_bytes 2 inum ++ pad_name name);
      mret (if n =? Z.of_nat sizeof_dirent then 0 else -1)
  end.

(** ** Paths *)
Definition slash : Z := 47.

Fixpoint skip_slashes (path : list Z) : list Z :=
  match path with c :: rest => if c =? slash then skip_slashes rest else path | [] => [] end.
Fixpoint until_slash (path : list Z) : list Z * list Z :=
  match path with
  | c :: rest => if c =? slash then ([], path) else let '(e, r) := until_slash rest in (c :: e, r)
  | [] => ([], [])
  end.

(** The first element, cut at [DIRSIZ], and the path after it. *)
Definition skipelem (path : list Z) : option (list Z * list Z) :=
  match skip_slashes path with
  | [] => None
  | path =>
      let '(e, rest) := until_slash path in
      Some (take (Z.to_nat DIRSIZ) e, skip_slashes rest)
  end.

(** [namex] from the loop on, with the inode reached so far. *)
Fixpoint namex_loop (fuel : nat) (ip : nat) (path : list Z) (nameiparent : bool) (name : list Z) :
    M (fsys B) (option nat * list Z) :=
  match fuel with
  | O => diverge
  | S fuel =>
      match skipelem path with
      | Some (name, path) =>
          _ ← ilock ip;
          x ← geti ip;
          if negb (d_type (i_data x) =? T_DIR) then _ ← iunlockput ip; mret (None, name)
          else if nameiparent && bool_decide (path = []) then _ ← iunlock ip; mret (Some ip, name)
          else
            next ← dirlookup ip name;
            match next with
            | None => _ ← iunlockput ip; mret (None, name)
            | Some (next, _) => _ ← iunlockput ip; namex_loop fuel next path nameiparent name
            end
      | None => if nameiparent then _ ← iput ip; mret (None, name) else mret (Some ip, name)
      end
  end.

(** [cwd] is the current directory of the process. *)
Definition namex (cwd : nat) (path : list Z) (nameiparent : bool) : M (fsys B) (option nat * list Z) :=
  ip ← (if bool_decide (head path = Some slash) then iget ROOTDEV ROOTINO else idup cwd);
  namex_loop (S (length path)) ip path nameiparent [].

Definition namei (cwd : nat) (path : list Z) : M (fsys B) (option nat) :=
  r ← namex cwd path false; mret (fst r).
Definition nameiparent (cwd : nat) (path : list Z) : M (fsys B) (option nat * list Z) := namex cwd path true.
End content.
