(* ===== verification/FsBlocks.v ===== *)
(** The block allocator of kernel/fs.c and the encoding of inodes.

    [in_use f b] is the bit of block [b] in the free map.  [balloc] takes a free
    block, marks exactly it and zeroes it, or returns 0 when no block is free;
    [bfree] frees exactly the block given; an inode written to its place on disk
    is read back, and nothing else of the block changes. *)
From S2P Require Import Prelude Riscv PhysMem Bytes Bio BlockIface FsIface Fs.

(** ** Bits of the free map *)
Lemma land_bit x k : 0 <= k -> (Z.land x (Z.shiftl 1 k) =? 0) = negb (Z.testbit x k).
Proof.
  intros Hk. rewrite Z.shiftl_1_l. destruct (Z.testbit x k) eqn:E; cbn [negb].
  - apply Z.eqb_neq. intros H. assert (Z.testbit (Z.land x (2 ^ k)) k = false) as Hf by (rewrite H; apply Z.bits_0).
    rewrite Z.land_spec, E, Z.pow2_bits_true in Hf by done. done.
  - apply Z.eqb_eq. apply Z.bits_inj'. intros j Hj. rewrite Z.land_spec, Z.bits_0, Z.pow2_bits_eqb by done.
    destruct (Z.eqb_spec k j) as [->|]; [by rewrite E|by rewrite andb_false_r].
Qed.

Lemma bit_free_spec d bi : bit_free d bi = negb (Z.testbit (d !!! bit_byte bi) (Z.of_nat bi mod 8)).
Proof. unfold bit_free, bit_mask. apply land_bit. apply Z.mod_pos_bound. lia. Qed.

Lemma bit_index bi bj : bit_byte bi = bit_byte bj -> Z.of_nat bi mod 8 = Z.of_nat bj mod 8 -> bi = bj.
Proof.
  unfold bit_byte. intros E1 E2. pose proof (Nat.div_mod_eq bi 8). pose proof (Nat.div_mod_eq bj 8).
  assert (Em : (bi mod 8 = bj mod 8)%nat) by (apply Nat2Z.inj; rewrite !Nat2Z.inj_mod; done). lia.
Qed.

Lemma bit_free_set d bi bj : (bit_byte bi < length d)%nat ->
  bit_free (bit_set d bi) bj = if decide (bj = bi) then false else bit_free d bj.
Proof.
  intros Hl. rewrite !bit_free_spec. unfold bit_set, bit_mask.
  pose proof (Z.mod_pos_bound (Z.of_nat bi) 8 ltac:(lia)) as Hb. pose proof (Z.mod_pos_bound (Z.of_nat bj) 8 ltac:(lia)).
  destruct (decide (bit_byte bj = bit_byte bi)) as [E|E].
  - rewrite E, list_lookup_total_insert_eq by done. rewrite Z.lor_spec, Z.shiftl_1_l, Z.pow2_bits_eqb by lia.
    destruct (decide (bj = bi)) as [->|Hn]; [by rewrite Z.eqb_refl, orb_true_r|].
    destruct (Z.eqb_spec (Z.of_nat bi mod 8) (Z.of_nat bj mod 8)) as [Em|]; [|by rewrite orb_false_r].
    destruct Hn. by apply bit_index.
  - rewrite list_lookup_total_insert_ne by done. destruct (decide (bj = bi)) as [->|]; [done|done].
Qed.

Lemma bit_free_clear d bi bj : (bit_byte bi < length d)%nat ->
  bit_free (bit_clear d bi) bj = if decide (bj = bi) then true else bit_free d bj.
Proof.
  intros Hl. rewrite !bit_free_spec. unfold bit_clear, bit_mask, u8.
  pose proof (Z.mod_pos_bound (Z.of_nat bi) 8 ltac:(lia)) as Hb. pose proof (Z.mod_pos_bound (Z.of_nat bj) 8 ltac:(lia)).
  destruct (decide (bit_byte bj = bit_byte bi)) as [E|E].
  - rewrite E, list_lookup_total_insert_eq by done.
    rewrite Z.mod_pow2_bits_low, Z.land_spec, Z.lnot_spec, Z.shiftl_1_l, Z.pow2_bits_eqb by lia.
    destruct (decide (bj = bi)) as [->|Hn]; [by rewrite Z.eqb_refl, andb_false_r|].
    destruct (Z.eqb_spec (Z.of_nat bi mod 8) (Z.of_nat bj mod 8)) as [Em|]; [|by rewrite andb_true_r].
    destruct Hn. by apply bit_index.
  - rewrite list_lookup_total_insert_ne by done. destruct (decide (bj = bi)) as [->|]; [done|done].
Qed.

Lemma free_bit_spec d n bi :
  match free_bit d n bi with
  | Some j => (bi <= j < bi + n)%nat /\ bit_free d j = true /\ forall k, (bi <= k < j)%nat -> bit_free d k = false
  | None => forall k, (bi <= k < bi + n)%nat -> bit_free d k = false
  end.
Proof.
  revert bi. induction n as [|n IH]; intros bi; cbn [free_bit]; [intros; lia|].
  destruct (bit_free d bi) eqn:E; [split_and!; [lia|lia|done|intros; lia]|].
  specialize (IH (S bi)). destruct (free_bit d n (S bi)) as [j|].
  - destruct IH as (Hj & Hf & Hk). split_and!; [lia|lia|done|]. intros k Hk'. destruct (decide (k = bi)) as [->|]; [done|]. apply Hk. lia.
  - intros k Hk. destruct (decide (k = bi)) as [->|]; [done|]. apply IH. lia.
Qed.

(** ** Inodes on disk *)
Lemma length_put_addrs bs off l : (off + 4 * length l <= length bs)%nat -> length (put_addrs bs off l) = length bs.
Proof.
  revert bs off. induction l as [|a l IH]; intros bs off Hl; [done|]. cbn [put_addrs length] in *.
  assert (El : length (putn 4 bs off a) = length bs) by (apply length_putn; lia). rewrite IH; [done|]. rewrite El. lia.
Qed.

Lemma getn_put_addrs n bs off l k : (off + 4 * length l <= length bs)%nat ->
  (k + n <= off \/ off + 4 * length l <= k)%nat -> getn n (put_addrs bs off l) k = getn n bs k.
Proof.
  revert bs off. induction l as [|a l IH]; intros bs off Hl Hk; [done|]. cbn [put_addrs length] in *.
  assert (El : length (putn 4 bs off a) = length bs) by (apply length_putn; lia).
  rewrite IH by (rewrite ?El; lia). apply getn_putn_ne; lia.
Qed.

Lemma put_addrs_at bs off l j a : (off + 4 * length l <= length bs)%nat -> l !! j = Some a -> 0 <= a < 2 ^ 32 ->
  getn 4 (put_addrs bs off l) (off + 4 * j) = a.
Proof.
  revert bs off j. induction l as [|x l IH]; intros bs off j Hl Hj Ha; [done|]. cbn [put_addrs length] in *.
  assert (El : length (putn 4 bs off x) = length bs) by (apply length_putn; lia). destruct j as [|j].
  - injection Hj as ->. rewrite getn_put_addrs by (rewrite ?El; lia). rewrite Nat.mul_0_r, Nat.add_0_r.
    rewrite getn_putn by lia. by apply Z.mod_small.
  - replace (off + 4 * S j)%nat with (off + 4 + 4 * j)%nat by lia. apply IH; [rewrite El; lia|done|done].
Qed.

(** The values a [struct dinode] can hold. *)
Record dinode_ok (d : dinode) : Prop := {
  di_type : - 2 ^ 15 <= d_type d < 2 ^ 15; di_major : - 2 ^ 15 <= d_major d < 2 ^ 15;
  di_minor : - 2 ^ 15 <= d_minor d < 2 ^ 15; di_nlink : - 2 ^ 15 <= d_nlink d < 2 ^ 15;
  di_size : 0 <= d_size d < 2 ^ 32;
  di_len : length (d_addrs d) = 13%nat;
  di_addrs : Forall (fun a => 0 <= a < 2 ^ 32) (d_addrs d)
}.

(** Goals about the length of updated blocks. *)
Ltac len_put :=
  lazymatch goal with
  | |- context [length (putn ?n ?bs ?o ?v)] => rewrite (length_putn n bs o v); [len_put|len_put]
  | _ => lia
  end.

Lemma length_put_dinode bs off d : length (d_addrs d) = 13%nat -> (off + 64 <= length bs)%nat ->
  length (put_dinode bs off d) = length bs.
Proof.
  intros Hd Hl. unfold put_dinode. rewrite length_put_addrs; len_put.
Qed.

Lemma getn_put_dinode n bs off d k : length (d_addrs d) = 13%nat -> (off + 64 <= length bs)%nat ->
  (k + n <= off \/ off + 64 <= k)%nat -> getn n (put_dinode bs off d) k = getn n bs k.
Proof.
  intros Hd Hl Hk. unfold put_dinode. rewrite getn_put_addrs by (rewrite ?Hd; len_put).
  rewrite !getn_putn_ne by len_put. done.
Qed.

Lemma get_put_dinode bs off d : dinode_ok d -> (off + 64 <= length bs)%nat -> get_dinode (put_dinode bs off d) off = d.
Proof.
  intros [Ht Hma Hmi Hn Hs Hl Ha] Hb. unfold get_dinode.
  set (bs5 := putn 4 (putn 2 (putn 2 (putn 2 (putn 2 bs off (d_type d)) (off + 2) (d_major d)) (off + 4) (d_minor d))
    (off + 6) (d_nlink d)) (off + 8) (d_size d)).
  assert (E5 : length bs5 = length bs) by (unfold bs5; len_put).
  assert (Ef : forall n k, (k + n <= off + 12)%nat -> getn n (put_dinode bs off d) k = getn n bs5 k).
  { intros n k Hk. unfold put_dinode. fold bs5. apply getn_put_addrs; rewrite ?E5, ?Hl; lia. }
  rewrite !Ef by lia. unfold bs5.
  assert (L1 : length (putn 2 bs off (d_type d)) = length bs) by (apply length_putn; lia).
  set (b1 := putn 2 bs off (d_type d)) in *.
  assert (L2 : length (putn 2 b1 (off + 2) (d_major d)) = length bs) by (rewrite length_putn; lia).
  set (b2 := putn 2 b1 (off + 2) (d_major d)) in *.
  assert (L3 : length (putn 2 b2 (off + 4) (d_minor d)) = length bs) by (rewrite length_putn; lia).
  set (b3 := putn 2 b2 (off + 4) (d_minor d)) in *.
  assert (L4 : length (putn 2 b3 (off + 6) (d_nlink d)) = length bs) by (rewrite length_putn; lia).
  set (b4 := putn 2 b3 (off + 6) (d_nlink d)) in *.
  destruct d as [ty ma mi nl sz ad]. cbn [d_type d_major d_minor d_nlink d_size d_addrs] in *. f_equal.
  - rewrite getn_putn_ne by lia. unfold b4. rewrite getn_putn_ne by lia. unfold b3. rewrite getn_putn_ne by lia.
    unfold b2. rewrite getn_putn_ne by lia. unfold b1. rewrite getn_putn by lia. by apply i16_u16.
  - rewrite getn_putn_ne by lia. unfold b4. rewrite getn_putn_ne by lia. unfold b3. rewrite getn_putn_ne by lia.
    unfold b2. rewrite getn_putn by lia. by apply i16_u16.
  - rewrite getn_putn_ne by lia. unfold b4. rewrite getn_putn_ne by lia. unfold b3. rewrite getn_putn by lia. by apply i16_u16.
  - rewrite getn_putn_ne by lia. unfold b4. rewrite getn_putn by lia. by apply i16_u16.
  - rewrite getn_putn by lia. by apply Z.mod_small.
  - apply list_eq. intros j. rewrite list_lookup_fmap. destruct (decide (j < 13)%nat) as [Hj|Hj].
    + rewrite lookup_seq_lt by done. cbn [fmap option_fmap option_map Nat.add].
      destruct (lookup_lt_is_Some_2 ad j) as [a Ea]; [by rewrite Hl|]. rewrite Ea. f_equal.
      unfold put_dinode. cbn [d_type d_major d_minor d_nlink d_size d_addrs]. fold b1 b2 b3 b4.
      apply (put_addrs_at _ _ ad j a); [rewrite length_putn by lia; lia|done|].
      by eapply (proj1 (list.Forall_forall _ _) Ha), list_elem_of_lookup_2.
    + rewrite lookup_seq_ge, (lookup_ge_None_2 ad) by lia. done.
Qed.

(** ** Allocation *)
(** The layout mkfs gives the disk: the blocks below [ds] are the boot block, the
    superblock, the log, the inodes and the free map, which is one block. *)
Record geom (home : Z -> Prop) (sb : superblock) (ds : Z) : Prop := {
  g_size : 0 < ds <= sb_size sb;
  g_small : sb_size sb <= BPB;
  g_bmap : 0 < sb_bmapstart sb < ds;
  g_inodes : forall inum, 0 <= inum < sb_ninodes sb -> 0 < inum / IPB + sb_inodestart sb < sb_bmapstart sb;
  g_home_meta : forall b, b = sb_bmapstart sb -> home b;
  g_home_inode : forall inum, 0 <= inum < sb_ninodes sb -> home (inum / IPB + sb_inodestart sb);
  g_home_data : forall b, ds <= b < sb_size sb -> home b
}.

Lemma BPB_eq : BPB = 8192.
Proof. done. Qed.
Lemma IPB_eq : IPB = 16.
Proof. done. Qed.

Lemma add_block_len b L : (length (add_block b L) <= S (length L))%nat.
Proof. unfold add_block. destruct (bool_decide _); [lia|]. rewrite length_app. simpl. lia. Qed.

Lemma add_block_elem b L x : x ∈ add_block b L <-> x = b \/ x ∈ L.
Proof.
  unfold add_block. destruct (bool_decide_reflect (b ∈ L)) as [Hb|]; [|set_solver].
  split; [by right|]. intros [->|]; done.
Qed.

Section alloc.
Context {B : Type} `{BO : !BlockOps B} (dev : Z) `{BL : !BlockLaws B dev}.

Definition set_blk (s : B) (f : fsys B) : fsys B := mkFsys s (f_sb f) (f_itable f) (f_me f).

Lemma blk_Ret {A} (m : M B A) (f : fsys B) a s : m (f_blk f) = Ret a s -> blk m f = Ret a (set_blk s f).
Proof. intros E. unfold blk, zoom. by rewrite E. Qed.

Definition in_use (f : fsys B) (b : Z) : bool :=
  negb (bit_free (bview (f_blk f) (sb_bmapstart (f_sb f))) (Z.to_nat b)).

Context (ds : Z).

Lemma geom_bblock (f : fsys B) b : geom home (f_sb f) ds -> 0 <= b < sb_size (f_sb f) -> BBLOCK b (f_sb f) = sb_bmapstart (f_sb f).
Proof.
  intros G Hb. pose proof (g_bmap _ _ _ G). pose proof (g_size _ _ _ G). pose proof (g_small _ _ _ G) as Hsm.
  unfold BBLOCK. rewrite Z.div_small by lia. rewrite BPB_eq in Hsm. apply u32_small. lia.
Qed.

Lemma update_run (f : fsys B) L H b i bs :
  tx (f_blk f) L H -> (b, i) ∈ H -> home b -> length bs = Z.to_nat BSIZE -> (length (add_block b L) <= 10)%nat ->
  exists s', update i bs f = Ret tt (set_blk s' f) /\ tx s' (add_block b L) H /\
    (forall x, bview s' x = zupd (bview (f_blk f)) b bs x).
Proof.
  intros T Hi Hh Hl Hr. destruct (law_update _ L H b i bs T Hi Hh Hl Hr) as (s' & E & T' & V').
  exists s'. split; [exact (blk_Ret _ _ _ _ E)|done].
Qed.

Lemma bzero_run (f : fsys B) L H b :
  tx (f_blk f) L H -> home b -> b ∉ H.*1 -> (length L + length H < 20)%nat -> (length (add_block b L) <= 10)%nat ->
  exists s', bzero dev b f = Ret tt (set_blk s' f) /\ tx s' (add_block b L) H /\
    (forall x, bview s' x = zupd (bview (f_blk f)) b (replicate (Z.to_nat BSIZE) 0) x).
Proof.
  intros T Hh Hn Hr Hl. unfold bzero.
  destruct (law_read _ L H b T Hh Hn Hr) as (i & s1 & E1 & T1 & V1). rewrite (bind_Ret _ _ _ _ _ (blk_Ret _ f _ _ E1)).
  destruct (update_run (set_blk s1 f) L ((b, i) :: H) b i (replicate (Z.to_nat BSIZE) 0) T1) as (s2 & E2 & T2 & V2);
    [by left|done|apply length_replicate|done|]. rewrite (bind_Ret _ _ _ _ _ E2).
  destruct (law_relse _ _ H b i T2) as (s3 & E3 & T3 & V3).
  exists s3. split; [exact (blk_Ret _ (set_blk s2 (set_blk s1 f)) _ _ E3)|]. split; [done|].
  intros x. rewrite V3, V2. unfold zupd. cbn [f_blk set_blk]. by rewrite V1.
Qed.

(** The blocks held are not the free map, and are in use. *)
Definition held_ok (f : fsys B) (H : list (Z * nat)) : Prop :=
  forall b, b ∈ H.*1 -> b <> sb_bmapstart (f_sb f) /\ (ds <= b < sb_size (f_sb f) -> in_use f b = true).

Lemma balloc_run (f : fsys B) L H :
  tx (f_blk f) L H -> geom home (f_sb f) ds -> held_ok f H -> (forall b, 0 <= b < ds -> in_use f b = true) ->
  (length L + length H < 18)%nat -> (length (add_block (sb_bmapstart (f_sb f)) L) <= 9)%nat ->
  let bm := sb_bmapstart (f_sb f) in
  exists r s', balloc dev f = Ret r (set_blk s' f) /\
    (r = 0 /\ (forall b, 0 <= b < sb_size (f_sb f) -> in_use f b = true) /\ tx s' L H /\
       (forall x, bview s' x = bview (f_blk f) x) \/
     ds <= r < sb_size (f_sb f) /\ in_use f r = false /\ tx s' (add_block r (add_block bm L)) H /\
       (forall x, bview s' x = zupd (zupd (bview (f_blk f)) bm (bit_set (bview (f_blk f) bm) (Z.to_nat r)))
                                 r (replicate (Z.to_nat BSIZE) 0) x)).
Proof.
  intros T G Hheld Hmeta Hroom Hlog bm. change (length (add_block bm L) <= 9)%nat in Hlog. pose proof (g_size _ _ _ G). pose proof (g_small _ _ _ G) as Hsm. rewrite BPB_eq in Hsm.
  pose proof (g_bmap _ _ _ G) as Hbm. set (size := sb_size (f_sb f)) in *.
  unfold balloc. change ((getsb ≫= ?h) f) with (h (f_sb f) f). cbv beta. fold size. cbn [balloc_loop].
  change ((getsb ≫= ?h) f) with (h (f_sb f) f). cbv beta. fold size. destruct (Z.ltb_spec 0 size); [|lia].
  rewrite (geom_bblock f 0) by (done || fold size; lia). fold bm.
  destruct (law_read _ L H bm T) as (i & s1 & E1 & T1 & V1); [by apply (g_home_meta _ _ _ G)| |lia|].
  { intros Hin. by destruct (Hheld bm Hin). }
  rewrite (bind_Ret _ _ _ _ _ (blk_Ret _ f _ _ E1)).
  assert (Ed : blk_data i s1 = Ret (bview (f_blk f) bm) s1) by (rewrite <- V1; apply (law_data s1 L _ bm i T1); by left).
  rewrite (bind_Ret _ _ _ _ _ (blk_Ret _ (set_blk s1 f) _ _ Ed)).
  rewrite Z.sub_0_r, BPB_eq, Z.min_r by lia.
  pose proof (free_bit_spec (bview (f_blk f) bm) (Z.to_nat size) 0) as Hfb.
  destruct (free_bit (bview (f_blk f) bm) (Z.to_nat size) 0) as [bi|].
  - destruct Hfb as (Hbi & Hfree & _). set (r := 0 + Z.of_nat bi) in *.
    assert (Hbir : bi = Z.to_nat r) by lia.
    assert (Hu : in_use f r = false) by (unfold in_use; fold bm; by rewrite <- Hbir, Hfree).
    assert (Hr : ds <= r < size). { split; [|lia]. apply Z.nlt_ge. intros Hlt. rewrite Hmeta in Hu by lia. done. }
    assert (Hlen : length (bview (f_blk f) bm) = Z.to_nat BSIZE).
    { apply (law_len _ L H bm T). by apply (g_home_meta _ _ _ G). }
    destruct (update_run (set_blk s1 (set_blk s1 f)) L ((bm, i) :: H) bm i (bit_set (bview (f_blk f) bm) bi) T1)
      as (s2 & E2 & T2 & V2); [by left|by apply (g_home_meta _ _ _ G)|by unfold bit_set; rewrite length_insert|lia|].
    rewrite (bind_Ret _ _ _ _ _ E2).
    destruct (law_relse _ _ H bm i T2) as (s3 & E3 & T3 & V3).
    rewrite (bind_Ret _ _ _ _ _ (blk_Ret _ (set_blk s2 _) _ _ E3)).
    destruct (bzero_run (set_blk s3 f) (add_block bm L) H r T3) as (s4 & E4 & T4 & V4);
      [by apply (g_home_data _ _ _ G)| | |pose proof (add_block_len r (add_block bm L)); lia|].
    { intros Hin. destruct (Hheld r Hin) as [_ Hx]. rewrite Hx in Hu by done. done. }
    { pose proof (add_block_len bm L). lia. }
    change (set_blk s3 (set_blk s2 (set_blk s1 (set_blk s1 f)))) with (set_blk s3 f). rewrite (bind_Ret _ _ _ _ _ E4).
    exists r, s4. split; [reflexivity|]. right. split_and!; [lia|lia|done|done|].
    intros x. rewrite V4. cbn [f_blk set_blk]. unfold zupd. destruct (x =? r); [done|]. rewrite V3, V2. unfold zupd.
    cbn [f_blk set_blk]. rewrite V1, <- Hbir. done.
  - destruct (law_relse _ _ H bm i T1) as (s3 & E3 & T3 & V3).
    rewrite (bind_Ret _ _ _ _ _ (blk_Ret _ (set_blk s1 _) _ _ E3)). cbn [balloc_loop].
    change ((getsb ≫= ?h) ?g) with (h (f_sb f) g). cbv beta. fold size. destruct (Z.ltb_spec (0 + 8192) size); [lia|].
    exists 0, s3. split; [reflexivity|]. left. split_and!; [done| |done|intros x; by rewrite V3, V1].
    intros b Hb. unfold in_use. fold bm. rewrite Hfb by lia. done.
Qed.

(** What the new free map says. *)
Lemma used_alloc (f : fsys B) s' r bs : geom home (f_sb f) ds -> ds <= r < sb_size (f_sb f) ->
  length (bview (f_blk f) (sb_bmapstart (f_sb f))) = Z.to_nat BSIZE ->
  (forall x, bview s' x = zupd (zupd (bview (f_blk f)) (sb_bmapstart (f_sb f))
     (bit_set (bview (f_blk f) (sb_bmapstart (f_sb f))) (Z.to_nat r))) r bs x) ->
  forall b, 0 <= b -> in_use (set_blk s' f) b = (b =? r) || in_use f b.
Proof.
  intros G Hr Hl V b Hb. pose proof (g_bmap _ _ _ G). pose proof (g_small _ _ _ G) as Hsm. rewrite BPB_eq in Hsm.
  unfold in_use. cbn [f_blk f_sb set_blk]. rewrite V, zupd_ne by lia. rewrite zupd_eq.
  rewrite bit_free_set; [|rewrite Hl; unfold bit_byte; change (Z.to_nat BSIZE) with 1024%nat;
    apply Nat.Div0.div_lt_upper_bound; lia].
  destruct (decide (Z.to_nat b = Z.to_nat r)) as [E|E]; destruct (Z.eqb_spec b r); try lia; done.
Qed.
End alloc.
