(* ===== verification/FsContent.v ===== *)
(** Reading file contents, kernel/fs.c [bmap] and [readi].

    [fbyte v d k] is the [k]th byte of the file whose inode is [d] when the
    blocks are [v].  Reading returns those bytes and changes nothing. *)
From S2P Require Import Prelude Riscv PhysMem Bytes Bio BlockIface FsIface Fs FsData FsBlocks.

(** The address of block [bn] of a file, 0 if it has none. *)
Definition faddr (v : Z -> list Z) (d : dinode) (bn : Z) : Z :=
  if bn <? NDIRECT then d_addrs d !!! Z.to_nat bn
  else if d_addrs d !!! Z.to_nat NDIRECT =? 0 then 0
  else get_addr (v (d_addrs d !!! Z.to_nat NDIRECT)) (bn - NDIRECT).

Definition fbyte (v : Z -> list Z) (d : dinode) (k : Z) : Z :=
  v (faddr v d (k / BSIZE)) !!! Z.to_nat (k mod BSIZE).
Definition fbytes (v : Z -> list Z) (d : dinode) (off : Z) (n : nat) : list Z := fbyte v d <$> zseq off n 1.

(** The blocks of a file: those within its size exist, all are data blocks, and
    none serves twice. *)
Record file_ok (v : Z -> list Z) (d : dinode) (ds size : Z) : Prop := {
  fo_len : length (d_addrs d) = 13%nat;
  fo_size : 0 <= d_size d <= MAXFILE * BSIZE;
  fo_map : forall bn, 0 <= bn -> bn * BSIZE < d_size d -> faddr v d bn <> 0;
  fo_range : forall bn, 0 <= bn < MAXFILE -> faddr v d bn <> 0 -> ds <= faddr v d bn < size;
  fo_ind : d_addrs d !!! Z.to_nat NDIRECT <> 0 -> ds <= d_addrs d !!! Z.to_nat NDIRECT < size;
  fo_inj : forall bn bn', 0 <= bn < MAXFILE -> 0 <= bn' < MAXFILE -> faddr v d bn <> 0 ->
    faddr v d bn = faddr v d bn' -> bn = bn';
  fo_ind_ne : forall bn, 0 <= bn < MAXFILE -> faddr v d bn <> 0 -> faddr v d bn <> d_addrs d !!! Z.to_nat NDIRECT
}.

Lemma NDIRECT_eq : NDIRECT = 12.
Proof. done. Qed.
Lemma NINDIRECT_eq : NINDIRECT = 256.
Proof. done. Qed.
Lemma MAXFILE_eq : MAXFILE = 268.
Proof. done. Qed.
Lemma BSIZE_eq : BSIZE = 1024.
Proof. done. Qed.

Section content.
Context {B : Type} `{BO : !BlockOps B} (dev : Z) `{BL : !BlockLaws B dev} (ds : Z).

Lemma bind_geti {A} ip (h : inode -> M (fsys B) A) f x : f_itable f !! ip = Some x -> (geti ip ≫= h) f = h x f.
Proof. intros E. unfold geti, gets, mbind, M_bind. by rewrite (list_lookup_total_correct _ _ _ E). Qed.

(** A block is read and released; what [k] computes from it is returned. *)
Lemma peek_run (f : fsys B) L H b :
  tx (f_blk f) L H -> home b -> b ∉ H.*1 -> (length L + length H < 20)%nat ->
  exists i s1 s2, blk (blk_read dev b) f = Ret i (set_blk s1 f) /\
    blk (blk_data i) (set_blk s1 f) = Ret (bview (f_blk f) b) (set_blk s1 f) /\
    blk (blk_relse i) (set_blk s1 f) = Ret tt (set_blk s2 f) /\ tx s1 L ((b, i) :: H) /\
    (forall x, bview s1 x = bview (f_blk f) x) /\ tx s2 L H /\ (forall x, bview s2 x = bview (f_blk f) x).
Proof.
  intros T Hh Hn Hr. destruct (law_read _ L H b T Hh Hn Hr) as (i & s1 & E1 & T1 & V1).
  assert (E2 : blk_data i s1 = Ret (bview (f_blk f) b) s1) by (rewrite <- V1; apply (law_data s1 L _ b i T1); by left).
  destruct (law_relse _ _ H b i T1) as (s2 & E3 & T3 & V3). exists i, s1, s2.
  split_and!; [exact (blk_Ret _ f _ _ E1)|exact (blk_Ret _ (set_blk s1 f) _ _ E2)|
    exact (blk_Ret _ (set_blk s1 f) _ _ E3)|done|done|done|intros x; by rewrite V3, V1].
Qed.

Lemma set_blk_id (f : fsys B) : set_blk (f_blk f) f = f.
Proof. by destruct f. Qed.

(** An existing block is found without changing anything. *)
Lemma bmap_hit (f : fsys B) L H ip x bn :
  tx (f_blk f) L H -> geom home (f_sb f) ds -> f_itable f !! ip = Some x -> i_dev x = dev ->
  file_ok (bview (f_blk f)) (i_data x) ds (sb_size (f_sb f)) -> 0 <= bn < MAXFILE ->
  faddr (bview (f_blk f)) (i_data x) bn <> 0 ->
  (d_addrs (i_data x) !!! Z.to_nat NDIRECT ∉ H.*1) -> (length L + length H < 20)%nat ->
  exists s', bmap ip bn f = Ret (faddr (bview (f_blk f)) (i_data x) bn) (set_blk s' f) /\ tx s' L H /\
    (forall y, bview s' y = bview (f_blk f) y).
Proof.
  intros T G Hx Hd Hok Hbn Hne Hnh Hroom. unfold bmap. rewrite (bind_geti ip _ f x Hx). unfold faddr in *.
  destruct (Z.ltb_spec bn NDIRECT) as [Hlt|Hge].
  - rewrite (proj2 (Z.eqb_neq _ 0) Hne). exists (f_blk f). by rewrite set_blk_id.
  - rewrite MAXFILE_eq, NDIRECT_eq in *. rewrite NINDIRECT_eq. destruct (Z.ltb_spec (bn - 12) 256); [|lia].
    set (a := d_addrs (i_data x) !!! Z.to_nat 12) in *. destruct (Z.eqb_spec a 0) as [Ea|Ea]; [done|].
    rewrite bind_mret. rewrite (proj2 (Z.eqb_neq _ 0) Ea), Hd.
    destruct (peek_run f L H a T) as (i & s1 & s2 & E1 & E2 & E3 & _ & _ & T2 & V2); [|done|done|].
    { apply (g_home_data _ _ _ G). by apply (fo_ind _ _ _ _ Hok). }
    rewrite (bind_Ret _ _ _ _ _ E1), (bind_Ret _ _ _ _ _ E2), (proj2 (Z.eqb_neq _ 0) Hne), bind_mret.
    rewrite (bind_Ret _ _ _ _ _ E3). by exists s2.
Qed.

Lemma klift_Ret {A} (m : M (fsys B) A) (f : fsys B) buf a f' : m f = Ret a f' -> klift m (f, buf) = Ret a (f', buf).
Proof. intros E. unfold klift, zoom. cbn [fst snd]. by rewrite E. Qed.

Lemma bind_klift {A C} (m : M (fsys B) A) (h : A -> M kbuf C) f buf a f' :
  m f = Ret a f' -> (klift m ≫= h) (f, buf) = h a (f', buf).
Proof. intros E. by rewrite (bind_Ret _ _ _ _ _ (klift_Ret m f buf a f' E)). Qed.

(** The piece of a block from [off] as bytes of the file. *)
Lemma piece v d off m :
  0 <= off -> 0 <= m -> off mod BSIZE + m <= BSIZE -> length (v (faddr v d (off / BSIZE))) = Z.to_nat BSIZE ->
  take (Z.to_nat m) (drop (Z.to_nat (off mod BSIZE)) (v (faddr v d (off / BSIZE)))) = fbytes v d off (Z.to_nat m).
Proof.
  intros Hoff Hm Hfit Hl. rewrite BSIZE_eq in *. apply list_eq. intros i. unfold fbytes, zseq. rewrite !list_lookup_fmap.
  destruct (decide (i < Z.to_nat m)%nat) as [Hi|Hi].
  - rewrite lookup_take_lt, lookup_drop, lookup_seq_lt by done. cbn [fmap option_fmap option_map Nat.add].
    unfold fbyte. rewrite BSIZE_eq. pose proof (Z.mod_pos_bound off 1024 ltac:(lia)).
    assert (Ed : (off + 1 * Z.of_nat i) / 1024 = off / 1024) by (Z.to_euclidean_division_equations; lia).
    assert (Em : (off + 1 * Z.of_nat i) mod 1024 = off mod 1024 + Z.of_nat i) by (Z.to_euclidean_division_equations; lia).
    rewrite Ed, Em. rewrite Z2Nat.inj_add, Nat2Z.id by lia. apply list_lookup_lookup_total_lt. rewrite Hl. lia.
  - rewrite lookup_take_ge, lookup_seq_ge by lia. done.
Qed.

Lemma fbytes_app v d off n n' : fbytes v d off (n + n') = fbytes v d off n ++ fbytes v d (off + Z.of_nat n) n'.
Proof. unfold fbytes. rewrite zseq_app, fmap_app. by rewrite Z.mul_1_l. Qed.

Lemma faddr_ext v v' d bn : (forall y, v y = v' y) -> faddr v d bn = faddr v' d bn.
Proof. intros E. unfold faddr. by rewrite E. Qed.

Lemma fbytes_ext v v' d off n : (forall y, v y = v' y) -> fbytes v d off n = fbytes v' d off n.
Proof.
  intros E. unfold fbytes. apply list_fmap_ext. intros i k _. unfold fbyte. by rewrite (faddr_ext v v'), E by done.
Qed.

Lemma file_ok_ext v v' d size : (forall y, v y = v' y) -> file_ok v d ds size -> file_ok v' d ds size.
Proof.
  intros E [H1 H2 H3 H4 H5 H6 H7]. split; try done; intros bn; rewrite <- ?(faddr_ext v v' d _ E); auto.
  intros bn' ???. rewrite <- ?(faddr_ext v v' d _ E). auto.
Qed.

(** ** Reading *)
Lemma readi_loop_run fuel (f : fsys B) L ip x off n tot buf :
  tx (f_blk f) L [] -> geom home (f_sb f) ds -> f_itable f !! ip = Some x -> i_dev x = dev ->
  file_ok (bview (f_blk f)) (i_data x) ds (sb_size (f_sb f)) -> (length L < 20)%nat ->
  0 <= off -> 0 <= tot <= n -> off + (n - tot) <= d_size (i_data x) ->
  (tot < n -> off mod BSIZE + (n - tot) <= BSIZE * (Z.of_nat fuel - 1)) -> (0 < fuel)%nat ->
  exists s', readi_loop (fun A => klift) kout fuel ip off n tot (f, buf) =
      Ret n (set_blk s' f, buf ++ fbytes (bview (f_blk f)) (i_data x) off (Z.to_nat (n - tot))) /\
    tx s' L [] /\ (forall y, bview s' y = bview (f_blk f) y).
Proof.
  intros T G Hx Hd Hok HL. revert f T G Hx Hok off tot buf.
  induction fuel as [|fuel IH]; intros f T G Hx Hok off tot buf Hoff Htot Hend Hfuel Hf; [lia|].
  pose proof (fo_size _ _ _ _ Hok) as Hsz. rewrite MAXFILE_eq, BSIZE_eq in Hsz.
  cbn [readi_loop]. destruct (Z.ltb_spec tot n) as [Hlt|].
  2:{ assert (tot = n) as -> by lia. exists (f_blk f). rewrite set_blk_id, Z.sub_diag. cbn. by rewrite app_nil_r. }
  rewrite (bind_klift (geti ip) _ f buf x f).
  2:{ unfold geti, gets. by rewrite (list_lookup_total_correct _ _ _ Hx). }
  set (v := bview (f_blk f)). set (bn := off / BSIZE).
  assert (Hbn : 0 <= bn < MAXFILE) by (unfold bn; rewrite MAXFILE_eq, BSIZE_eq; Z.to_euclidean_division_equations; lia).
  assert (Hne : faddr v (i_data x) bn <> 0).
  { apply (fo_map _ _ _ _ Hok); [lia|]. unfold bn. rewrite BSIZE_eq. Z.to_euclidean_division_equations. lia. }
  destruct (bmap_hit f L [] ip x bn T G Hx Hd Hok Hbn Hne) as (s1 & E1 & T1 & V1); [set_solver|cbn; lia|].
  fold v in E1. rewrite (bind_klift _ _ f buf _ _ E1), (proj2 (Z.eqb_neq _ 0) Hne).
  set (f1 := set_blk s1 f). fold v in V1.
  destruct (peek_run f1 L [] (faddr v (i_data x) bn) T1) as (i & s2 & s3 & R1 & R2 & R3 & T2 & V2 & T3 & V3).
  { apply (g_home_data _ _ _ G). by apply (fo_range _ _ _ _ Hok). } { set_solver. } { cbn. lia. }
  rewrite Hd, (bind_klift _ _ f1 buf _ _ R1), (bind_klift _ _ _ buf _ _ R2).
  set (m := Z.min (n - tot) (BSIZE - off mod BSIZE)). change (f_blk f1) with s1 in *. rewrite V1.
  pose proof (Z.mod_pos_bound off BSIZE ltac:(done)) as Hmod.
  assert (Hlen : length (v (faddr v (i_data x) bn)) = Z.to_nat BSIZE).
  { apply (law_len _ L [] _ T). apply (g_home_data _ _ _ G). by apply (fo_range _ _ _ _ Hok). }
  unfold bn. rewrite piece by (done || lia). change ((kout tot ?bs ≫= ?h) (?g, buf)) with (h 0 (g, buf ++ bs)). cbv beta.
  change (0 =? -1) with false. cbv iota. rewrite (bind_klift _ _ _ _ _ _ R3).
  change (set_blk s3 f1) with (set_blk s3 f).
  destruct (IH (set_blk s3 f) T3 G Hx) with (off := off + m) (tot := tot + m) (buf := buf ++ fbytes v (i_data x) off (Z.to_nat m))
    as (s' & E' & T' & V').
  - eapply file_ok_ext; [|exact Hok]. intros y. cbn [f_blk set_blk]. by rewrite V3, V1.
  - lia.
  - lia.
  - lia.
  - intros Hlt'. specialize (Hfuel Hlt). assert (m = BSIZE - off mod BSIZE) as -> by lia.
    replace ((off + (BSIZE - off mod BSIZE)) mod BSIZE) with 0 by (rewrite BSIZE_eq; Z.to_euclidean_division_equations; lia). lia.
  - specialize (Hfuel Hlt). destruct fuel as [|fuel]; [rewrite BSIZE_eq in *; lia|lia].
  - exists s'. rewrite E'. split_and!; [|done|intros y; rewrite V'; cbn [f_blk set_blk]; by rewrite V3, V1].
    do 2 f_equal. cbn [f_blk set_blk]. rewrite <- app_assoc. f_equal.
    rewrite (fbytes_ext (bview s3) v) by (intros y; by rewrite V3, V1).
    replace (Z.to_nat (n - tot)) with (Z.to_nat m + Z.to_nat (n - (tot + m)))%nat by lia.
    rewrite fbytes_app. by rewrite Z2Nat.id by lia.
Qed.

Lemma readk_run (f : fsys B) L ip x off n :
  tx (f_blk f) L [] -> geom home (f_sb f) ds -> f_itable f !! ip = Some x -> i_dev x = dev ->
  file_ok (bview (f_blk f)) (i_data x) ds (sb_size (f_sb f)) -> (length L < 20)%nat ->
  0 <= off < 2 ^ 32 -> 0 <= n < 2 ^ 32 ->
  let size := d_size (i_data x) in
  let m := if (size <? off) || (2 ^ 32 <=? off + n) then 0 else Z.min n (size - off) in
  exists s', readk ip off n f = Ret (m, fbytes (bview (f_blk f)) (i_data x) off (Z.to_nat m)) (set_blk s' f) /\
    tx s' L [] /\ (forall y, bview s' y = bview (f_blk f) y).
Proof.
  intros T G Hx Hd Hok HL Hoff Hn size m. pose proof (fo_size _ _ _ _ Hok) as Hsz. rewrite MAXFILE_eq, BSIZE_eq in Hsz.
  unfold readk, readi. rewrite (bind_klift (geti ip) _ f [] x f).
  2:{ unfold geti, gets. by rewrite (list_lookup_total_correct _ _ _ Hx). }
  fold size. destruct (Z.ltb_spec size off) as [Hlt|Hge].
  { exists (f_blk f). rewrite set_blk_id. done. }
  assert (Hw : (u32 (off + n) <? off) = (2 ^ 32 <=? off + n)).
  { unfold u32. destruct (Z.leb_spec (2 ^ 32) (off + n)) as [H|H]; [|rewrite Z.mod_small by lia; apply Z.ltb_ge; lia].
    apply Z.ltb_lt. Z.to_euclidean_division_equations. lia. }
  cbn [orb] in *. rewrite Hw. unfold m in *. clear m. destruct (Z.leb_spec (2 ^ 32) (off + n)) as [H|H].
  { exists (f_blk f). rewrite set_blk_id. done. }
  rewrite (u32_small (off + n)) by lia. cbv zeta.
  replace (if size <? off + n then size - off else n) with (Z.min n (size - off)) by (destruct (Z.ltb_spec size (off + n)); lia).
  set (m := Z.min n (size - off)).
  destruct (readi_loop_run (S (S (S (Z.to_nat (m / BSIZE))))) f L ip x off m 0 [] T G Hx Hd Hok HL) as (s' & E & T' & V');
    [lia|lia|fold size; lia| |lia|].
  { pose proof (Z.div_mod m BSIZE). pose proof (Z.mod_pos_bound m BSIZE). pose proof (Z.div_pos m BSIZE).
    pose proof (Z.mod_pos_bound off BSIZE). rewrite BSIZE_eq in *. lia. }
  rewrite Z.sub_0_r in E. rewrite E. exists s'. done.
Qed.

(** [readi] of [n] bytes at [off] returns the bytes of the file from [off],
    as many as there are before its end, and changes no block; it returns 0
    when [off] is past the end or [off + n] wraps around. *)
Theorem readi_correct (f : fsys B) L ip x off n :
  tx (f_blk f) L [] -> geom home (f_sb f) ds -> f_itable f !! ip = Some x -> i_dev x = dev ->
  file_ok (bview (f_blk f)) (i_data x) ds (sb_size (f_sb f)) -> (length L < 20)%nat ->
  0 <= off < 2 ^ 32 -> 0 <= n < 2 ^ 32 ->
  let size := d_size (i_data x) in
  let m := if (size <? off) || (2 ^ 32 <=? off + n) then 0 else Z.min n (size - off) in
  exists s', readk ip off n f = Ret (m, fbytes (bview (f_blk f)) (i_data x) off (Z.to_nat m)) (set_blk s' f) /\
    tx s' L [] /\ (forall y, bview s' y = bview (f_blk f) y).
Proof. apply readk_run. Qed.
End content.
