(* ===== verification/FsGrow.v ===== *)
(** How [bmap] extends a file.

    [finv] is the invariant of one file on the disk [v]: its blocks are distinct
    data blocks marked in use.  [grown] relates a file before and after blocks
    were added to it: what it had stays, new blocks were free, and every other
    block in use keeps its contents. *)
From S2P Require Import Prelude Riscv PhysMem Bytes Bio BlockIface FsIface Fs FsData FsBlocks FsContent.

Definition ind (d : dinode) : Z := d_addrs d !!! Z.to_nat NDIRECT.
Definition zero_block : list Z := replicate (Z.to_nat BSIZE) 0.

Lemma le_val_zeros n : le_val (replicate n 0) = 0.
Proof. induction n as [|n IH]; [done|]. cbn [replicate le_val]. by rewrite IH. Qed.

Lemma get_addr_zero j : get_addr zero_block j = 0.
Proof. unfold get_addr, getn, zero_block. rewrite drop_replicate, take_replicate. apply le_val_zeros. Qed.

Lemma get_put_addr bs j a k : length bs = Z.to_nat BSIZE -> 0 <= j < NINDIRECT -> 0 <= k < NINDIRECT -> 0 <= a < 2 ^ 32 ->
  get_addr (put_addr bs j a) k = if k =? j then a else get_addr bs k.
Proof.
  intros Hl Hj Hk Ha. rewrite NINDIRECT_eq in *. change (Z.to_nat BSIZE) with 1024%nat in Hl. unfold get_addr, put_addr.
  destruct (Z.eqb_spec k j) as [->|Hn].
  - rewrite getn_putn by lia. by apply Z.mod_small.
  - apply getn_putn_ne; lia.
Qed.

Section grow.
Context (bm ds size : Z) (Hbm : 0 < bm < ds) (Hsize : ds <= size <= BPB).

Definition usedv (v : Z -> list Z) (b : Z) : bool := negb (bit_free (v bm) (Z.to_nat b)).

Record finv (v : Z -> list Z) (d : dinode) : Prop := {
  fi_ok : file_ok v d ds size;
  fi_used : forall bn, 0 <= bn < MAXFILE -> faddr v d bn <> 0 -> usedv v (faddr v d bn) = true;
  fi_ind : ind d <> 0 -> usedv v (ind d) = true;
  fi_meta : forall b, 0 <= b < ds -> usedv v b = true
}.

Record grown (v : Z -> list Z) (d : dinode) (v' : Z -> list Z) (d' : dinode) : Prop := {
  gr_d : d' = mkDinode (d_type d) (d_major d) (d_minor d) (d_nlink d) (d_size d) (d_addrs d');
  gr_old : forall bn, 0 <= bn < MAXFILE -> faddr v d bn <> 0 -> faddr v' d' bn = faddr v d bn;
  gr_fresh : forall bn, 0 <= bn < MAXFILE -> faddr v d bn = 0 -> faddr v' d' bn <> 0 -> usedv v (faddr v' d' bn) = false;
  gr_ind : ind d <> 0 -> ind d' = ind d;
  gr_ind_fresh : ind d = 0 -> ind d' <> 0 -> usedv v (ind d') = false;
  gr_used : forall b, usedv v b = true -> usedv v' b = true;
  gr_frame : forall y, y <> bm -> usedv v y = true -> y <> ind d -> v' y = v y
}.

Lemma grown_refl v d : grown v d v d.
Proof. split; try done. by destruct d. Qed.

Lemma grown_trans v d v1 d1 v2 d2 : grown v d v1 d1 -> grown v1 d1 v2 d2 -> grown v d v2 d2.
Proof.
  intros [D1 O1 F1 I1' J1 U1 G1] [D2 O2 F2 I2 J2 U2 G2].
  assert (Hun : forall b, usedv v1 b = false -> usedv v b = false).
  { intros b E. destruct (usedv v b) eqn:E'; [|done]. by rewrite (U1 b E') in E. }
  split.
  - rewrite D2 at 1. rewrite D1 at 1 2 3 4 5. done.
  - intros bn Hb Hn. rewrite O2; [by apply O1|done|]. by rewrite O1.
  - intros bn Hb H0 Hn. destruct (decide (faddr v1 d1 bn = 0)) as [E|E].
    + by apply Hun, F2.
    + rewrite O2 in Hn |- * by done. by apply F1.
  - intros Hn. rewrite I2; [by apply I1'|]. by rewrite I1'.
  - intros H0 Hn. destruct (decide (ind d1 = 0)) as [E|E].
    + by apply Hun, J2.
    + rewrite I2 in Hn |- * by done. by apply J1.
  - intros b Hu. by apply U2, U1.
  - intros y Hym Hu Hi. rewrite G2; [by apply G1|done|by apply U1|].
    intros ->. destruct (decide (ind d = 0)) as [E|E].
    + destruct (decide (ind d1 = 0)) as [E1|E1]; [congruence|]. by rewrite (J1 E E1) in Hu.
    + apply Hi. by apply I1'.
Qed.

(** The disk after the free block [r] was allocated. *)
Definition alloc_view (v : Z -> list Z) (r : Z) : Z -> list Z := zupd (zupd v bm (bit_set (v bm) (Z.to_nat r))) r zero_block.

Section step.
Context (v : Z -> list Z) (d : dinode) (r : Z).
Context (I : finv v d) (Hr : ds <= r < size) (Hu : usedv v r = false) (Hlen : length (v bm) = Z.to_nat BSIZE).

Lemma alloc_used (w : Z -> list Z) b : (w bm = alloc_view v r bm) -> usedv w b = (b =? r) || usedv v b.
Proof.
  intros E. unfold usedv. rewrite E. unfold alloc_view. rewrite zupd_ne, zupd_eq by lia.
  pose proof (proj2 Hsize) as Hs. rewrite BPB_eq in Hs.
  rewrite bit_free_set; [|rewrite Hlen; unfold bit_byte; change (Z.to_nat BSIZE) with 1024%nat;
    apply Nat.Div0.div_lt_upper_bound; lia].
  destruct (decide (Z.to_nat b = Z.to_nat r)) as [E'|E']; destruct (Z.eqb_spec b r); try lia; done.
Qed.

Lemma alloc_other y : y <> bm -> usedv v y = true -> alloc_view v r y = v y.
Proof. intros Hn Hy. unfold alloc_view. rewrite zupd_ne by congruence. by rewrite zupd_ne. Qed.

Lemma ind_other : ind d <> 0 -> alloc_view v r (ind d) = v (ind d).
Proof.
  intros Hn. apply alloc_other; [|by apply I]. pose proof (fo_ind _ _ _ _ (fi_ok _ _ I) Hn). unfold ind in *. lia.
Qed.

Lemma faddr_alloc bn : faddr (alloc_view v r) d bn = faddr v d bn.
Proof.
  unfold faddr. destruct (bn <? NDIRECT); [done|]. destruct (Z.eqb_spec (d_addrs d !!! Z.to_nat NDIRECT) 0); [done|].
  fold (ind d) in *. by rewrite ind_other.
Qed.

Lemma addr_fresh bn : 0 <= bn < MAXFILE -> faddr v d bn <> r.
Proof.
  intros Hb E. assert (faddr v d bn <> 0) by lia. pose proof (fi_used _ _ I bn Hb H). congruence.
Qed.
Lemma ind_fresh : ind d <> r.
Proof. intros E. assert (Hn : ind d <> 0) by lia. pose proof (fi_ind _ _ I Hn). congruence. Qed.

(** A file whose addresses are those of [d], and [r] at block [j] or as its
    indirect block. *)
Lemma finv_step v' d' j :
  d_size d' = d_size d -> length (d_addrs d') = 13%nat -> v' bm = alloc_view v r bm ->
  (forall bn, 0 <= bn < MAXFILE -> faddr v' d' bn = if bn =? j then r else faddr v d bn) ->
  (faddr v d j = 0 \/ ~ 0 <= j < MAXFILE) ->
  ind d' = ind d /\ 0 <= j \/ ind d = 0 /\ ind d' = r /\ j < 0 ->
  finv v' d'.
Proof.
  intros Hs Hl Hbmv Hf Hj Hi. destruct I as [[K1 K2 K3 K4 K5 K6 K7] U1 U2 U3].
  assert (Hfr := addr_fresh). assert (Hir := ind_fresh). unfold ind in *. split; [split|..].
  - done.
  - by rewrite Hs.
  - intros bn Hb Hlt. rewrite Hs in Hlt. rewrite BSIZE_eq, MAXFILE_eq in *. rewrite Hf by lia.
    destruct (bn =? j); [lia|]. by apply K3.
  - intros bn Hb. rewrite Hf by done. destruct (bn =? j); [lia|]. by apply K4.
  - intros Hn. destruct Hi as [[E _]|(_ & E & _)]; rewrite E in *; [by apply K5|lia].
  - intros bn bn' Hb Hb'. rewrite !Hf by done.
    destruct (Z.eqb_spec bn j) as [->|], (Z.eqb_spec bn' j) as [->|]; intros Hn E; try done.
    + by destruct (Hfr bn' Hb').
    + by destruct (Hfr bn Hb).
    + by apply K6.
  - intros bn Hb. rewrite Hf by done. destruct (Z.eqb_spec bn j) as [->|Hn]; intros Hz.
    + destruct Hi as [[E _]|(_ & _ & ?)]; [rewrite E; congruence|lia].
    + destruct Hi as [[E _]|(E0 & E & _)]; rewrite E; [by apply K7|by apply Hfr].
  - intros bn Hb. rewrite Hf by done. destruct (bn =? j) eqn:Ej; intros Hz.
    + by rewrite alloc_used, Z.eqb_refl by done.
    + pose proof (K4 bn Hb Hz). rewrite alloc_used by done. by rewrite U1, orb_true_r.
  - intros Hn. unfold ind in Hn |- *. destruct Hi as [[E _]|(_ & E & _)]; rewrite E in Hn |- *.
    + pose proof (K5 Hn). rewrite alloc_used by done. by rewrite U2, orb_true_r.
    + by rewrite alloc_used, Z.eqb_refl by done.
  - intros b Hb. rewrite alloc_used by done. by rewrite U3, orb_true_r.
Qed.

Lemma grown_step v' d' j :
  d' = mkDinode (d_type d) (d_major d) (d_minor d) (d_nlink d) (d_size d) (d_addrs d') -> v' bm = alloc_view v r bm ->
  (forall bn, 0 <= bn < MAXFILE -> faddr v' d' bn = if bn =? j then r else faddr v d bn) ->
  (faddr v d j = 0 \/ ~ 0 <= j < MAXFILE) ->
  ind d' = ind d \/ ind d = 0 /\ ind d' = r ->
  (forall y, y <> bm -> usedv v y = true -> y <> ind d -> v' y = v y) ->
  grown v d v' d'.
Proof.
  intros Hd Hbmv Hf Hj Hi Hfr. split; [done| | | | | |done].
  - intros bn Hb Hn. rewrite Hf by done. destruct (Z.eqb_spec bn j) as [->|]; [|done]. destruct Hj; [done|lia].
  - intros bn Hb H0. rewrite Hf by done. destruct (bn =? j); [done|lia].
  - intros Hn. by destruct Hi as [|[? _]].
  - intros H0 Hn. destruct Hi as [E|[_ ->]]; [congruence|done].
  - intros b Hub. rewrite alloc_used by done. by rewrite Hub, orb_true_r.
Qed.

(** [r] becomes block [bn], a direct one. *)
Lemma grow_direct v' bn : (forall y, v' y = alloc_view v r y) -> 0 <= bn < NDIRECT -> faddr v d bn = 0 ->
  let d' := set_addr (Z.to_nat bn) r d in
  finv v' d' /\ grown v d v' d' /\ ind d' = ind d /\
  (forall b, 0 <= b < MAXFILE -> faddr v' d' b = if b =? bn then r else faddr v d b).
Proof.
  intros V' Hbn H0 d'. pose proof (fo_len _ _ _ _ (fi_ok _ _ I)) as Hl. pose proof NDIRECT_eq as Hnd.
  assert (Hind : ind d' = ind d) by (unfold ind, d', set_addr; cbn [d_addrs]; apply list_lookup_total_insert_ne; lia).
  assert (Hf : forall b, 0 <= b < MAXFILE -> faddr v' d' b = if b =? bn then r else faddr v d b).
  { intros b Hb. rewrite (faddr_ext v' (alloc_view v r)) by done. unfold faddr at 1.
    fold (ind d'). rewrite Hind. destruct (Z.ltb_spec b NDIRECT) as [Hb12|Hb12].
    - unfold d', set_addr. cbn [d_addrs]. destruct (Z.eqb_spec b bn) as [->|Hne].
      + apply list_lookup_total_insert_eq. lia.
      + rewrite list_lookup_total_insert_ne by lia. unfold faddr. destruct (Z.ltb_spec b NDIRECT); [done|lia].
    - rewrite (proj2 (Z.eqb_neq b bn)) by lia. unfold faddr. destruct (Z.ltb_spec b NDIRECT); [lia|].
      fold (ind d). destruct (Z.eqb_spec (ind d) 0); [done|]. by rewrite ind_other. }
  split_and!; [| |done|done].
  - apply (finv_step v' d' bn); try done; [unfold d', set_addr; cbn [d_addrs]; by rewrite length_insert|by left|left; split; [done|lia]].
  - apply (grown_step v' d' bn); try done; [by left|by left|]. intros y Hy Huy _. rewrite V'. by apply alloc_other.
Qed.

(** [r] becomes the indirect block. *)
Lemma grow_ind v' : (forall y, v' y = alloc_view v r y) -> ind d = 0 ->
  let d' := set_addr (Z.to_nat NDIRECT) r d in
  finv v' d' /\ grown v d v' d' /\ ind d' = r /\ (forall b, 0 <= b < MAXFILE -> faddr v' d' b = faddr v d b).
Proof.
  intros V' H0 d'. pose proof (fo_len _ _ _ _ (fi_ok _ _ I)) as Hl. pose proof NDIRECT_eq as Hnd.
  assert (Hind : ind d' = r) by (unfold ind, d', set_addr; cbn [d_addrs]; apply list_lookup_total_insert_eq; lia).
  assert (Hf : forall b, 0 <= b < MAXFILE -> faddr v' d' b = faddr v d b).
  { intros b Hb. unfold faddr. fold (ind d') (ind d). rewrite Hind, H0. destruct (Z.ltb_spec b NDIRECT).
    - unfold d', set_addr. cbn [d_addrs]. apply list_lookup_total_insert_ne. lia.
    - rewrite (proj2 (Z.eqb_neq r 0)) by lia. rewrite V'. unfold alloc_view. rewrite zupd_eq. apply get_addr_zero. }
  assert (Hf' : forall b, 0 <= b < MAXFILE -> faddr v' d' b = if b =? -1 then r else faddr v d b).
  { intros b Hb. rewrite (proj2 (Z.eqb_neq b (-1))) by lia. by apply Hf. }
  split_and!; [| |done|done].
  - apply (finv_step v' d' (-1)); try done; [unfold d', set_addr; cbn [d_addrs]; by rewrite length_insert|right; lia|right; done].
  - apply (grown_step v' d' (-1)); try done; [right; lia|by right|]. intros y Hy Huy _. rewrite V'. by apply alloc_other.
Qed.

(** [r] becomes block [bn], an entry of the indirect block. *)
Lemma grow_indirect v' bn :
  (forall y, v' y = zupd (alloc_view v r) (ind d) (put_addr (v (ind d)) (bn - NDIRECT) r) y) ->
  NDIRECT <= bn < MAXFILE -> ind d <> 0 -> length (v (ind d)) = Z.to_nat BSIZE -> faddr v d bn = 0 ->
  finv v' d /\ grown v d v' d /\ (forall b, 0 <= b < MAXFILE -> faddr v' d b = if b =? bn then r else faddr v d b).
Proof.
  intros Vw Hbn Ha Hla H0. pose proof NDIRECT_eq as Hnd. pose proof MAXFILE_eq as Hmf. pose proof NINDIRECT_eq as Hni.
  pose proof (fo_ind _ _ _ _ (fi_ok _ _ I) Ha) as Har. fold (ind d) in Har.
  assert (Hf : forall b, 0 <= b < MAXFILE -> faddr v' d b = if b =? bn then r else faddr v d b).
  { intros b Hb. unfold faddr. fold (ind d). rewrite Vw, zupd_eq, (proj2 (Z.eqb_neq (ind d) 0) Ha).
    destruct (Z.ltb_spec b NDIRECT); [by rewrite (proj2 (Z.eqb_neq b bn)) by lia|].
    pose proof (proj2 Hsize) as Hs8. rewrite BPB_eq in Hs8.
    rewrite get_put_addr by (done || lia). destruct (Z.eqb_spec (b - NDIRECT) (bn - NDIRECT)), (Z.eqb_spec b bn); try lia; done. }
  assert (Hbb : v' bm = alloc_view v r bm) by (rewrite Vw; by rewrite zupd_ne by lia).
  split_and!; [| |done].
  - apply (finv_step v' d bn); try done; [apply (fo_len _ _ _ _ (fi_ok _ _ I))|by left|left; split; [done|lia]].
  - apply (grown_step v' d bn); try done; [by destruct d|by left|by left|].
    intros y Hy Huy Hyi. rewrite Vw, zupd_ne by done. by apply alloc_other.
Qed.
End step.

Lemma finv_same v v' d : (forall y, v y = v' y) -> finv v d -> finv v' d.
Proof.
  intros E [I1 I2 I3 I4]. assert (Eu : forall b, usedv v' b = usedv v b) by (intros b; unfold usedv; by rewrite E).
  split; [by eapply file_ok_ext|..].
  - intros bn Hb. rewrite Eu, <- (faddr_ext v v' d bn E). by apply I2.
  - rewrite Eu. apply I3.
  - intros b Hb. rewrite Eu. by apply I4.
Qed.
End grow.
