(* ===== verification/FsWritten.v ===== *)
(** The effect of [writei] on a file's contents. *)
From S2P Require Import Prelude Riscv PhysMem Bytes Bio BlockIface FsIface Fs FsData FsBlocks FsContent FsGrow.

Section written.
Context (bm ds size : Z).

(** [src] was written at [off] in the file [d]. *)
Record written (v : Z -> list Z) (d : dinode) (v' : Z -> list Z) (d' : dinode) (off : Z) (src : list Z) : Prop := {
  wt_d : d' = mkDinode (d_type d) (d_major d) (d_minor d) (d_nlink d) (d_size d) (d_addrs d');
  wt_old : forall bn, 0 <= bn < MAXFILE -> faddr v d bn <> 0 -> faddr v' d' bn = faddr v d bn;
  wt_fresh : forall bn, 0 <= bn < MAXFILE -> faddr v d bn = 0 -> faddr v' d' bn <> 0 -> usedv bm v (faddr v' d' bn) = false;
  wt_ind : ind d <> 0 -> ind d' = ind d;
  wt_ind_fresh : ind d = 0 -> ind d' <> 0 -> usedv bm v (ind d') = false;
  wt_used : forall b, usedv bm v b = true -> usedv bm v' b = true;
  wt_frame : forall y, y <> bm -> usedv bm v y = true -> y <> ind d ->
    (forall bn, 0 <= bn < MAXFILE -> faddr v d bn <> y) -> v' y = v y;
  wt_map : forall k, off <= k < off + Z.of_nat (length src) -> faddr v' d' (k / BSIZE) <> 0;
  wt_byte : forall k, 0 <= k < MAXFILE * BSIZE -> faddr v d (k / BSIZE) <> 0 \/ off <= k < off + Z.of_nat (length src) ->
    fbyte v' d' k = if inr off (Z.of_nat (length src)) k then src !!! Z.to_nat (k - off) else fbyte v d k
}.

Lemma block_of k : 0 <= k < MAXFILE * BSIZE -> 0 <= k / BSIZE < MAXFILE.
Proof. rewrite MAXFILE_eq, BSIZE_eq. intros. Z.to_euclidean_division_equations. lia. Qed.

(** Growing alone writes nothing. *)
Lemma grown_written v d v' d' off : 0 < bm < ds -> finv bm ds size v d -> grown bm v d v' d' -> written v d v' d' off [].
Proof.
  intros Hbm I [D Old F Ii J U G]. split; try done.
  - intros y Hy Hu Hi _. by apply G.
  - intros k Hk. cbn [length] in Hk. lia.
  - intros k Hk Hc. cbn [length] in *. destruct Hc as [Hn|Hc]; [|lia]. rewrite inr_false by lia. pose proof (block_of k Hk) as Hb. unfold fbyte.
    rewrite Old by done. rewrite G; [done| |by apply (fi_used _ _ _ _ _ I)|by apply (fo_ind_ne _ _ _ _ (fi_ok _ _ _ _ _ I))].
    pose proof (fo_range _ _ _ _ (fi_ok _ _ _ _ _ I) _ Hb Hn). lia.
Qed.

Lemma written_trans v d v1 d1 v2 d2 off src1 src2 :
  0 <= off -> off + Z.of_nat (length src1 + length src2) <= MAXFILE * BSIZE ->
  written v d v1 d1 off src1 -> written v1 d1 v2 d2 (off + Z.of_nat (length src1)) src2 ->
  written v d v2 d2 off (src1 ++ src2).
Proof.
  intros Hoff Hmax [D1 O1 F1 I1 J1 U1 G1 M1 B1] [D2 O2 F2 I2 J2 U2 G2 M2 B2].
  assert (Hun : forall b, usedv bm v1 b = false -> usedv bm v b = false).
  { intros b E. destruct (usedv bm v b) eqn:E'; [|done]. by rewrite (U1 b E') in E. }
  rewrite Nat2Z.inj_add in Hmax. split; rewrite ?length_app, ?Nat2Z.inj_add.
  - rewrite D2 at 1. rewrite D1 at 1 2 3 4 5. done.
  - intros bn Hb Hn. rewrite O2; [by apply O1|done|]. by rewrite O1.
  - intros bn Hb H0 Hn. destruct (decide (faddr v1 d1 bn = 0)) as [E|E]; [by apply Hun, F2|].
    rewrite O2 in Hn |- * by done. by apply F1.
  - intros Hn. rewrite I2; [by apply I1|]. by rewrite I1.
  - intros H0 Hn. destruct (decide (ind d1 = 0)) as [E|E]; [by apply Hun, J2|].
    rewrite I2 in Hn |- * by done. by apply J1.
  - intros b Hu. by apply U2, U1.
  - intros y Hym Hu Hi Hf. rewrite G2; [by apply G1|done|by apply U1| |].
    + intros ->. destruct (decide (ind d = 0)) as [E|E]; [|apply Hi; by apply I1].
      destruct (decide (ind d1 = 0)) as [E1|E1]; [congruence|]. by rewrite (J1 E E1) in Hu.
    + intros bn Hb E. destruct (decide (faddr v d bn = 0)) as [E0|E0].
      * destruct (decide (faddr v1 d1 bn = 0)) as [E1|E1].
        -- assert (y = 0) as -> by congruence. destruct (decide (faddr v d bn = 0)); [by apply (Hf bn Hb)|done].
        -- pose proof (F1 bn Hb E0 E1). congruence.
      * apply (Hf bn Hb). rewrite <- (O1 bn Hb E0). done.
  - intros k Hk. destruct (decide (k < off + Z.of_nat (length src1))) as [Hk1|Hk1].
    + assert (Hb : 0 <= k / BSIZE < MAXFILE) by (apply block_of; lia).
      rewrite O2; [apply M1; lia|done|apply M1; lia].
    + apply M2. lia.
  - intros k Hk Hc. pose proof (block_of k Hk) as Hb.
    destruct (decide (off + Z.of_nat (length src1) <= k < off + Z.of_nat (length src1) + Z.of_nat (length src2))) as [H2|H2].
    + rewrite B2 by (done || by right). rewrite !inr_true by lia. rewrite lookup_total_app_r by lia. f_equal. lia.
    + assert (Hm : faddr v1 d1 (k / BSIZE) <> 0).
      { destruct Hc as [Hc|Hc]; [by rewrite O1|]. apply M1. lia. }
      rewrite B2 by (done || by left). rewrite inr_false by lia.
      destruct (decide (off <= k < off + Z.of_nat (length src1))) as [H1|H1].
      * rewrite B1 by (done || by right). rewrite !inr_true by lia. rewrite lookup_total_app_l by lia. done.
      * rewrite B1 by (done || (destruct Hc; [by left|lia])). rewrite !inr_false by lia. done.
Qed.

Lemma lookup_splice l o bs i : (o + length bs <= length l)%nat ->
  splice l o bs !!! i = if decide (o <= i < o + length bs)%nat then bs !!! (i - o)%nat else l !!! i.
Proof.
  intros Hl. unfold splice. destruct (decide (o <= i < o + length bs)%nat) as [Hi|Hi].
  - rewrite lookup_total_app_r by (rewrite length_take; lia). rewrite length_take.
    rewrite lookup_total_app_l by lia. f_equal. lia.
  - destruct (decide (i < o)%nat).
    + rewrite lookup_total_app_l by (rewrite length_take; lia). by rewrite lookup_total_take_lt.
    + rewrite lookup_total_app_r by (rewrite length_take; lia). rewrite length_take.
      rewrite lookup_total_app_r by lia. rewrite lookup_total_drop. f_equal. lia.
Qed.

Lemma length_splice_in l o bs : (o + length bs <= length l)%nat -> length (splice l o bs) = length l.
Proof. intros. unfold splice. rewrite !length_app, length_take, length_drop. lia. Qed.

(** Writing within one block the file has. *)
Lemma written_block v d w off src :
  0 < bm < ds -> finv bm ds size v d -> 0 <= off -> off + Z.of_nat (length src) <= MAXFILE * BSIZE ->
  off mod BSIZE + Z.of_nat (length src) <= BSIZE -> (0 < length src)%nat ->
  let a := faddr v d (off / BSIZE) in
  a <> 0 -> length (v a) = Z.to_nat BSIZE ->
  (forall y, w y = zupd v a (splice (v a) (Z.to_nat (off mod BSIZE)) src) y) ->
  written v d w d off src /\ finv bm ds size w d.
Proof.
  intros Hbm I Hoff Hmax Hfit Hpos a Ha Hla Hw. pose proof (Z.mod_pos_bound off BSIZE ltac:(done)) as Hmod.
  assert (Hb : 0 <= off / BSIZE < MAXFILE) by (apply block_of; lia).
  pose proof (fo_range _ _ _ _ (fi_ok _ _ _ _ _ I) _ Hb Ha) as Har. fold a in Har.
  pose proof (fo_ind_ne _ _ _ _ (fi_ok _ _ _ _ _ I) _ Hb Ha) as Hai. fold a in Hai. fold (ind d) in Hai.
  assert (Hf : forall bn, faddr w d bn = faddr v d bn).
  { intros bn. unfold faddr. fold (ind d). rewrite Hw. by rewrite zupd_ne by done. }
  assert (Hu : forall b, usedv bm w b = usedv bm v b) by (intros b; unfold usedv; rewrite Hw; by rewrite zupd_ne by lia).
  split.
  - split; rewrite ?Hf.
    + by destruct d.
    + intros bn _ _. apply Hf.
    + intros bn Hbn H0. by rewrite Hf, H0.
    + done.
    + congruence.
    + intros b. by rewrite Hu.
    + intros y Hy Huy Hi Hown. rewrite Hw. rewrite zupd_ne; [done|]. intros ->. by apply (Hown _ Hb).
    + intros k Hk. rewrite Hf. assert (k / BSIZE = off / BSIZE) as ->; [|done].
      rewrite BSIZE_eq in *. Z.to_euclidean_division_equations. lia.
    + intros k Hk Hc. pose proof (block_of k Hk) as Hbk. unfold fbyte. rewrite Hf, Hw.
      destruct (decide (k / BSIZE = off / BSIZE)) as [E|E].
      * rewrite E. fold a. rewrite zupd_eq. rewrite BSIZE_eq in *.
        rewrite lookup_splice by (rewrite Hla; lia).
        assert (Ek : k mod 1024 - off mod 1024 = k - off) by (Z.to_euclidean_division_equations; lia).
        pose proof (Z.mod_pos_bound k 1024 ltac:(lia)).
        destruct (decide (off <= k < off + Z.of_nat (length src))) as [Hin|Hin].
        -- rewrite decide_True by lia. rewrite inr_true by lia. f_equal. lia.
        -- rewrite decide_False by lia. by rewrite inr_false by lia.
      * assert (Hni : ~ (off <= k < off + Z.of_nat (length src))).
        { intros Hin. apply E. rewrite BSIZE_eq in *. Z.to_euclidean_division_equations. lia. }
        rewrite inr_false by lia. destruct Hc as [Hc|]; [|done]. rewrite zupd_ne; [done|]. intros Ea. apply E.
        by apply (fo_inj _ _ _ _ (fi_ok _ _ _ _ _ I)).
  - destruct I as [[K1 K2 K3 K4 K5 K6 K7] U1 U2 U3]. split; [split|..]; try done.
    + intros bn. rewrite Hf. apply K3.
    + intros bn. rewrite Hf. apply K4.
    + intros bn bn'. rewrite !Hf. apply K6.
    + intros bn. rewrite Hf. apply K7.
    + intros bn. rewrite Hf, Hu. apply U1.
    + rewrite Hu. apply U2.
    + intros b. rewrite Hu. apply U3.
Qed.
End written.
