(* ===== verification/FsWrite.v ===== *)
(** Writing files, kernel/fs.c [bmap] with allocation, [writei], [iupdate]. *)
From S2P Require Import Prelude Riscv PhysMem Bytes Bio BlockIface FsIface Fs FsData FsBlocks FsContent FsGrow.

Section write.
Context {B : Type} `{BO : !BlockOps B} (dev : Z) `{BL : !BlockLaws B dev} (ds : Z).

(** The state with the inode [x] of entry [ip] holding [d]. *)
Definition set_file (ip : nat) (x : inode) (d : dinode) (s : B) (f : fsys B) : fsys B :=
  mkFsys s (f_sb f) (<[ip := set_data_of (fun _ => d) x]> (f_itable f)) (f_me f).

Abbreviation bm f := (sb_bmapstart (f_sb f)).
Abbreviation size f := (sb_size (f_sb f)).
Abbreviation fi f := (finv (bm f) ds (size f)).

Lemma set_file_id (f : fsys B) ip x s : f_itable f !! ip = Some x -> set_file ip x (i_data x) s f = set_blk s f.
Proof. intros E. unfold set_file, set_blk. f_equal. apply list_insert_id. rewrite E. by destruct x. Qed.

Lemma set_file_twice (f : fsys B) ip x d d' s s' :
  set_file ip (set_data_of (fun _ => d) x) d' s' (set_file ip x d s f) = set_file ip x d' s' f.
Proof. unfold set_file. cbn [f_sb f_itable f_me]. by rewrite list_insert_insert_eq. Qed.

Lemma bind_modi {A} ip g (h : unit -> M (fsys B) A) f x :
  f_itable f !! ip = Some x -> (modi ip (set_data_of g) ≫= h) f = h tt (set_file ip x (g (i_data x)) (f_blk f) f).
Proof. intros E. unfold modi, modS, mbind, M_bind. by rewrite (list_lookup_total_correct _ _ _ E). Qed.

Lemma finv_ext (f : fsys B) v v' d : (forall y, v y = v' y) -> fi f v d -> fi f v' d.
Proof. apply finv_same. Qed.

Lemma grown_ext (f : fsys B) v d v1 v1' d1 : (forall y, v1 y = v1' y) -> grown (bm f) v d v1 d1 -> grown (bm f) v d v1' d1.
Proof.
  intros E [D O F I J U G]. split; try done.
  - intros bn Hb Hn. rewrite <- (faddr_ext v1 v1' d1 bn E). by apply O.
  - intros bn Hb Hn. rewrite <- (faddr_ext v1 v1' d1 bn E). by apply F.
  - intros b Hu. unfold usedv. rewrite <- E. by apply U.
  - intros y Hy Hu Hi. rewrite <- E. by apply G.
Qed.

(** Allocation for a file, with the buffers [H] held. *)
Lemma balloc_file (f : fsys B) L H d :
  tx (f_blk f) L H -> geom home (f_sb f) ds -> fi f (bview (f_blk f)) d -> held_ok dev ds f H ->
  (length L + length H < 18)%nat -> (length (add_block (bm f) L) <= 9)%nat ->
  let v := bview (f_blk f) in
  exists r s' L', balloc dev f = Ret r (set_blk s' f) /\ tx s' L' H /\ (forall y, y ∈ L' -> y ∈ L \/ y = bm f \/ y = r) /\
    (r = 0 /\ (forall b, 0 <= b < size f -> usedv (bm f) v b = true) /\ (forall y, bview s' y = v y) /\ L' = L \/
     ds <= r < size f /\ usedv (bm f) v r = false /\ (forall y, bview s' y = alloc_view (bm f) v r y) /\
       L' = add_block r (add_block (bm f) L)).
Proof.
  intros T G I Hh Hr Hl v. destruct (balloc_run dev ds f L H T G Hh) as (r & s' & E & Hc); [apply I|done|done|].
  exists r, s'. destruct Hc as [(-> & Hu & T' & V')|(Hrr & Hu & T' & V')].
  - exists L. split_and!; [done|done|by left|]. left. done.
  - exists (add_block r (add_block (bm f) L)). split_and!; [done|done| |right; done].
    intros y. rewrite !add_block_elem. tauto.
Qed.

(** The result of looking up a block with allocation. *)
Record bmapped (f : fsys B) (ip : nat) (x : inode) (bn r : Z) (s' : B) (d' : dinode) (L L' : list Z) : Prop := {
  bp_tx : tx s' L' [];
  bp_inv : fi f (bview s') d';
  bp_grown : grown (bm f) (bview (f_blk f)) (i_data x) (bview s') d';
  bp_addr : faddr (bview s') d' bn = r;
  bp_full : r = 0 -> forall b, 0 <= b < size f -> usedv (bm f) (bview s') b = true;
  bp_log : forall y, y ∈ L' -> y ∈ L \/ y = bm f \/ y = ind d' /\ ind d' <> 0 \/ y = r /\ r <> 0
}.

Lemma geom_facts (f : fsys B) : geom home (f_sb f) ds -> 0 < bm f < ds /\ ds <= size f <= BPB.
Proof. intros G. pose proof (g_size _ _ _ G). pose proof (g_small _ _ _ G). pose proof (g_bmap _ _ _ G). lia. Qed.

(** A direct block. *)
Lemma bmap_direct (f : fsys B) L ip x bn :
  tx (f_blk f) L [] -> geom home (f_sb f) ds -> f_itable f !! ip = Some x -> i_dev x = dev ->
  fi f (bview (f_blk f)) (i_data x) -> 0 <= bn < NDIRECT -> faddr (bview (f_blk f)) (i_data x) bn = 0 ->
  (length (add_block (bm f) L) <= 9)%nat ->
  exists r s' d' L', bmap ip bn f = Ret r (set_file ip x d' s' f) /\ bmapped f ip x bn r s' d' L L'.
Proof.
  intros T G Hx Hd I Hbn H0 Hl. destruct (geom_facts f G) as [Hbm Hsz]. set (v := bview (f_blk f)) in *.
  assert (HL : (length L <= 9)%nat) by (unfold add_block in Hl; destruct (bool_decide _); rewrite ?length_app in Hl; lia).
  assert (Ha : faddr v (i_data x) bn = d_addrs (i_data x) !!! Z.to_nat bn).
  { unfold faddr. destruct (Z.ltb_spec bn NDIRECT); [done|lia]. }
  unfold bmap. rewrite (bind_geti ip _ f x Hx). destruct (Z.ltb_spec bn NDIRECT); [|lia].
  rewrite <- Ha, H0, Hd. change (0 =? 0) with true. cbv beta iota.
  destruct (balloc_file f L [] (i_data x) T G I) as (r & s' & L' & E & T' & HL' & Hc); [intros b Hb; set_solver|cbn; lia|done|].
  rewrite (bind_Ret _ _ _ _ _ E). destruct Hc as [(-> & Hu & V' & ->)|(Hrr & Hu & V' & ->)].
  - change (0 =? 0) with true. cbv iota. exists 0, s', (i_data x), L. split; [by rewrite set_file_id|].
    split; [done|eapply finv_ext; [intros y; symmetry; apply V'|exact I]| | |intros _ b Hb; unfold usedv; rewrite V'; by apply Hu|by left].
    + eapply grown_ext; [intros y; symmetry; apply V'|apply grown_refl].
    + by rewrite (faddr_ext _ v).
  - rewrite (proj2 (Z.eqb_neq r 0)) by lia. rewrite (bind_modi ip _ _ (set_blk s' f) x Hx). cbn [f_blk set_blk].
    set (d' := set_addr (Z.to_nat bn) r (i_data x)).
    assert (Hbl : length (v (bm f)) = Z.to_nat BSIZE) by (apply (law_len _ L [] _ T); by apply (g_home_meta _ _ _ G)).
    destruct (grow_direct (bm f) ds (size f) Hbm Hsz v (i_data x) r I Hrr Hu Hbl (bview s') bn V' Hbn H0) as (I' & Gr & _ & Hf).
    exists r, s', d', (add_block r (add_block (bm f) L)). split; [reflexivity|]. pose proof NDIRECT_eq as Hnd.
    split; [done|done|done| |lia|].
    + rewrite Hf by (rewrite MAXFILE_eq; lia). by rewrite Z.eqb_refl.
    + intros y Hy. destruct (HL' y Hy) as [?|[?|?]]; [by left|by right; left|]. right. right. right. split; [done|lia].
Qed.

(** The indirect block. *)
Lemma ind_alloc (f : fsys B) L ip x :
  tx (f_blk f) L [] -> geom home (f_sb f) ds -> f_itable f !! ip = Some x -> i_dev x = dev ->
  fi f (bview (f_blk f)) (i_data x) -> ind (i_data x) = 0 -> (length (add_block (bm f) L) <= 9)%nat ->
  exists r s' d' L',
    (addr ← balloc (i_dev x);
     if addr =? 0 then mret 0
     else _ ← modi ip (set_data_of (set_addr (Z.to_nat NDIRECT) addr)); mret addr) f = Ret r (set_file ip x d' s' f) /\
    tx s' L' [] /\ fi f (bview s') d' /\ grown (bm f) (bview (f_blk f)) (i_data x) (bview s') d' /\ ind d' = r /\
    (forall bn, 0 <= bn < MAXFILE -> faddr (bview s') d' bn = faddr (bview (f_blk f)) (i_data x) bn) /\
    (r = 0 -> forall b, 0 <= b < size f -> usedv (bm f) (bview s') b = true) /\
    (forall y, y ∈ L' -> y ∈ L \/ y = bm f \/ y = r /\ r <> 0).
Proof.
  intros T G Hx Hd I H0 Hl. destruct (geom_facts f G) as [Hbm Hsz]. set (v := bview (f_blk f)) in *.
  assert (HL : (length L <= 9)%nat) by (unfold add_block in Hl; destruct (bool_decide _); rewrite ?length_app in Hl; lia).
  rewrite Hd. destruct (balloc_file f L [] (i_data x) T G I) as (r & s' & L' & E & T' & HL' & Hc); [intros b Hb; set_solver|cbn; lia|done|].
  rewrite (bind_Ret _ _ _ _ _ E). destruct Hc as [(-> & Hu & V' & ->)|(Hrr & Hu & V' & ->)].
  - change (0 =? 0) with true. cbv iota. exists 0, s', (i_data x), L. split; [by rewrite set_file_id|].
    split_and!; [done|eapply finv_ext; [intros y; symmetry; apply V'|exact I]| |done| |intros _ b Hb; unfold usedv; rewrite V'; by apply Hu|by left].
    + eapply grown_ext; [intros y; symmetry; apply V'|apply grown_refl].
    + intros bn _. by rewrite (faddr_ext _ v).
  - rewrite (proj2 (Z.eqb_neq r 0)) by lia. rewrite (bind_modi ip _ _ (set_blk s' f) x Hx). cbn [f_blk set_blk].
    set (d' := set_addr (Z.to_nat NDIRECT) r (i_data x)).
    assert (Hbl : length (v (bm f)) = Z.to_nat BSIZE) by (apply (law_len _ L [] _ T); by apply (g_home_meta _ _ _ G)).
    destruct (grow_ind (bm f) ds (size f) Hbm Hsz v (i_data x) r I Hrr Hu Hbl (bview s') V' H0) as (I' & Gr & Hind & Hf).
    exists r, s', d', (add_block r (add_block (bm f) L)). split; [reflexivity|].
    split_and!; [done|done|done|done|done|lia|].
    + intros y Hy. destruct (HL' y Hy) as [?|[?|?]]; [by left|by right; left|]. right. right. split; [done|lia].
Qed.

(** A block of the indirect part, when the indirect block exists. *)
Lemma bmap_indirect (f : fsys B) L ip x bn :
  tx (f_blk f) L [] -> geom home (f_sb f) ds -> f_itable f !! ip = Some x ->
  fi f (bview (f_blk f)) (i_data x) -> NDIRECT <= bn < MAXFILE -> ind (i_data x) <> 0 ->
  faddr (bview (f_blk f)) (i_data x) bn = 0 -> (length (add_block (bm f) L) <= 8)%nat ->
  let a := ind (i_data x) in
  exists r s' L',
    (bp ← blk (blk_read dev a);
     d ← blk (blk_data bp);
     addr ← (let addr := get_addr d (bn - NDIRECT) in
             if addr =? 0 then
               addr ← balloc dev;
               _ ← (if addr =? 0 then mret tt else update bp (put_addr d (bn - NDIRECT) addr)); mret addr
             else mret addr);
     _ ← blk (blk_relse bp); mret addr) f = Ret r (set_file ip x (i_data x) s' f) /\
    bmapped f ip x bn r s' (i_data x) L L'.
Proof.
  intros T G Hx I Hbn Ha H0 Hl a. destruct (geom_facts f G) as [Hbm Hsz]. set (v := bview (f_blk f)) in *.
  pose proof NDIRECT_eq as Hnd. pose proof MAXFILE_eq as Hmf. pose proof NINDIRECT_eq as Hni.
  assert (HL : (length L <= 8)%nat) by (unfold add_block in Hl; destruct (bool_decide _); rewrite ?length_app in Hl; lia).
  pose proof (fo_ind _ _ _ _ (fi_ok _ _ _ _ _ I) Ha) as Har. fold (ind (i_data x)) in Har. fold a in Har, Ha.
  assert (Eg : get_addr (v a) (bn - NDIRECT) = 0).
  { unfold faddr in H0. fold (ind (i_data x)) in H0. fold a in H0. destruct (Z.ltb_spec bn NDIRECT); [lia|].
    by destruct (Z.eqb_spec a 0). }
  destruct (law_read _ L [] a T) as (i & s1 & E1 & T1 & V1); [by apply (g_home_data _ _ _ G)|set_solver|cbn; lia|].
  rewrite (bind_Ret _ _ _ _ _ (blk_Ret _ f _ _ E1)).
  assert (E2 : blk_data i s1 = Ret (v a) s1) by (unfold v; rewrite <- V1; apply (law_data s1 L _ a i T1); by left).
  rewrite (bind_Ret _ _ _ _ _ (blk_Ret _ (set_blk s1 f) _ _ E2)). cbv zeta. rewrite Eg. change (0 =? 0) with true. cbv iota.
  set (f1 := set_blk s1 (set_blk s1 f)).
  assert (I1 : fi f1 (bview (f_blk f1)) (i_data x)) by (eapply (finv_ext f); [intros y; symmetry; apply V1|exact I]).
  destruct (balloc_file f1 L [(a, i)] (i_data x) T1 G I1) as (r & s2 & L' & E & T' & HL' & Hc).
  { intros b Hb. cbn in Hb. assert (b = a) as -> by set_solver. split; [cbn; lia|]. intros _.
    exact (fi_ind _ _ _ _ _ I1 Ha). }
  { cbn. lia. } { cbn. lia. }
  rewrite bind_assoc, (bind_Ret _ _ _ _ _ E). change (set_blk s2 f1) with (set_blk s2 f).
  change (f_blk f1) with s1 in *. change (bm f1) with (bm f) in *. change (size f1) with (size f) in *.
  destruct Hc as [(-> & Hu & V' & ->)|(Hrr & Hu & V' & ->)].
  - change (0 =? 0) with true. cbv iota. rewrite bind_assoc, !bind_mret.
    destruct (law_relse _ _ [] a i T') as (s3 & E3 & T3 & V3). rewrite (bind_Ret _ _ _ _ _ (blk_Ret _ (set_blk s2 f) _ _ E3)).
    assert (V03 : forall y, v y = bview s3 y) by (intros y; by rewrite V3, V', V1).
    exists 0, s3, L. split; [by rewrite set_file_id|]. split; [done|by eapply finv_ext| | | |by left].
    + eapply grown_ext; [exact V03|apply grown_refl].
    + by rewrite <- (faddr_ext _ _ _ _ V03).
    + intros _ b Hb. unfold usedv. rewrite <- V03. specialize (Hu b Hb). unfold usedv in Hu. by rewrite V1 in Hu.
  - rewrite (proj2 (Z.eqb_neq r 0)) by lia. rewrite bind_assoc.
    set (w := zupd (alloc_view (bm f) v r) a (put_addr (v a) (bn - NDIRECT) r)).
    assert (Hra : r <> a). { intros Era. rewrite Era in Hu. unfold a in Hu. by rewrite (fi_ind _ _ _ _ _ I1 Ha) in Hu. }
    assert (Hla : length (v a) = Z.to_nat BSIZE) by (apply (law_len _ L [] _ T); by apply (g_home_data _ _ _ G)).
    assert (Hlp : length (put_addr (v a) (bn - NDIRECT) r) = Z.to_nat BSIZE).
    { unfold put_addr. rewrite length_putn; [done|]. rewrite Hla. change (Z.to_nat BSIZE) with 1024%nat. lia. }
    destruct (update_run dev (set_blk s2 f) _ [(a, i)] a i (put_addr (v a) (bn - NDIRECT) r) T') as (s3 & E3 & T3 & V3);
      [by left|by apply (g_home_data _ _ _ G)|done| |].
    { pose proof (add_block_len r (add_block (bm f) L)).
      pose proof (add_block_len a (add_block r (add_block (bm f) L))). lia. }
    rewrite (bind_Ret _ _ _ _ _ E3), bind_mret.
    destruct (law_relse _ _ [] a i T3) as (s4 & E4 & T4 & V4). rewrite (bind_Ret _ _ _ _ _ (blk_Ret _ (set_blk s3 _) _ _ E4)).
    assert (Vw : forall y, bview s4 y = w y).
    { intros y. rewrite V4, V3. unfold w, zupd at 1 2. destruct (y =? a); [done|]. cbn [f_blk set_blk]. rewrite V'.
      unfold alloc_view, zupd. destruct (y =? r); [done|]. destruct (y =? bm f); [by rewrite V1|]. apply V1. }
    assert (Hbl : length (v (bm f)) = Z.to_nat BSIZE) by (apply (law_len _ L [] _ T); by apply (g_home_meta _ _ _ G)).
    assert (Hu' : usedv (bm f) v r = false) by (unfold usedv in *; by rewrite <- V1).
    destruct (grow_indirect (bm f) ds (size f) Hbm Hsz v (i_data x) r I Hrr Hu' Hbl (bview s4) bn Vw Hbn Ha Hla H0) as (I' & Gr & Hf).
    exists r, s4, (add_block a (add_block r (add_block (bm f) L))). split; [by rewrite set_file_id|].
    split; [done|done|done| |lia|].
    + rewrite Hf by lia. by rewrite Z.eqb_refl.
    + intros y. rewrite add_block_elem. intros [->|Hy]; [right; right; left; done|].
      destruct (HL' y Hy) as [?|[?|?]]; [by left|by right; left|]. right. right. right. split; [done|lia].
Qed.

(** ** The whole of [bmap] *)
Lemma nodup_len (l l' : list Z) : NoDup l -> (forall y, y ∈ l -> y ∈ l') -> (length l <= length l')%nat.
Proof. intros Hn Hi. apply submseteq_length, NoDup_submseteq; [done|]. intros y. apply Hi. Qed.

Lemma nodup_add b L : NoDup L -> NoDup (add_block b L).
Proof.
  intros H. unfold add_block. destruct (bool_decide_reflect (b ∈ L)); [done|].
  apply NoDup_app. split_and!; [done|set_solver|apply NoDup_singleton].
Qed.

Lemma bmap_run (f : fsys B) L ip x bn :
  tx (f_blk f) L [] -> geom home (f_sb f) ds -> f_itable f !! ip = Some x -> i_dev x = dev ->
  fi f (bview (f_blk f)) (i_data x) -> 0 <= bn < MAXFILE -> (length (add_block (bm f) L) <= 7)%nat ->
  exists r s' d' L', bmap ip bn f = Ret r (set_file ip x d' s' f) /\ bmapped f ip x bn r s' d' L L'.
Proof.
  intros T G Hx Hd I Hbn Hl. destruct (geom_facts f G) as [Hbm Hsz]. set (v := bview (f_blk f)) in *.
  pose proof NDIRECT_eq as Hnd. pose proof MAXFILE_eq as Hmf. pose proof NINDIRECT_eq as Hni.
  assert (HL : (length L <= 7)%nat) by (unfold add_block in Hl; destruct (bool_decide _); rewrite ?length_app in Hl; lia).
  destruct (decide (faddr v (i_data x) bn = 0)) as [H0|Hn].
  2:{ destruct (bmap_hit dev ds f L [] ip x bn T G Hx Hd (fi_ok _ _ _ _ _ I) Hbn Hn) as (s' & E & T' & V'); [set_solver|cbn; lia|].
      exists (faddr v (i_data x) bn), s', (i_data x), L. split; [by rewrite set_file_id|].
      split; [done|eapply finv_ext; [intros y; symmetry; apply V'|exact I]| |by apply faddr_ext|done|by left].
      eapply grown_ext; [intros y; symmetry; apply V'|apply grown_refl]. }
  destruct (decide (bn < NDIRECT)) as [Hlt|Hge].
  { apply (bmap_direct f L ip x bn); try done; lia. }
  unfold bmap. rewrite (bind_geti ip _ f x Hx). destruct (Z.ltb_spec bn NDIRECT); [lia|]. destruct (Z.ltb_spec (bn - NDIRECT) NINDIRECT); [|lia].
  fold (ind (i_data x)). cbv zeta. destruct (Z.eqb_spec (ind (i_data x)) 0) as [Hi|Hi].
  - destruct (ind_alloc f L ip x T G Hx Hd I Hi ltac:(lia)) as (r1 & s1 & d1 & L1 & E1 & T1 & I1 & G1 & Er & Hf & Hfull & HL1).
    rewrite (bind_Ret _ _ _ _ _ E1). destruct (Z.eqb_spec r1 0) as [->|Hr1].
    + exists 0, s1, d1, L1. split; [done|]. split; [done|done|done|by rewrite Hf|by apply Hfull|].
      intros y Hy. destruct (HL1 y Hy) as [?|[?|[_ ?]]]; [by left|by right; left|done].
    + set (f1 := set_file ip x d1 s1 f). set (x1 := set_data_of (fun _ => d1) x).
      assert (Hx1 : f_itable f1 !! ip = Some x1).
      { unfold f1, set_file. cbn [f_itable]. apply list_lookup_insert_eq. by eapply lookup_lt_Some. }
      assert (Hlen1 : (length (add_block (bm f) L1) <= 8)%nat).
      { transitivity (length (r1 :: add_block (bm f) L)); [|cbn [length]; lia].
        apply nodup_len; [apply nodup_add; by eapply law_nodup|]. intros y. rewrite add_block_elem, elem_of_cons, add_block_elem.
        intros [->|Hy]; [by right; left|]. destruct (HL1 y Hy) as [?|[?|[? _]]]; tauto. }
      destruct (bmap_indirect f1 L1 ip x1 bn T1 G Hx1 I1) as (r & s2 & L2 & E2 & M2).
      { lia. } { cbn [i_data x1 set_data_of]. congruence. } { cbn [i_data x1 set_data_of f_blk f1 set_file]. by rewrite Hf. } { done. }
      rewrite Hd. cbn [i_data x1 set_data_of] in E2. rewrite Er in E2.
      exists r, s2, d1, L2. split; [unfold f1, x1 in E2; rewrite set_file_twice in E2; exact E2|].
      destruct M2 as [M1 M2 M3 M4 M5 M6]. split; [done|done| |done|done|].
      * eapply grown_trans; [exact G1|exact M3].
      * intros y Hy. destruct (M6 y Hy) as [Hy1|[?|[?|?]]]; [|by right; left|by right; right; left|by right; right; right].
        destruct (HL1 y Hy1) as [?|[?|[? ?]]]; [by left|by right; left|]. right. right. left. cbn. rewrite Er. done.
  - rewrite bind_mret. rewrite (proj2 (Z.eqb_neq _ 0) Hi), Hd.
    destruct (bmap_indirect f L ip x bn T G Hx I ltac:(lia) Hi H0 ltac:(lia)) as (r & s2 & L2 & E2 & M2).
    exists r, s2, (i_data x), L2. done.
Qed.
End write.
