(* ===== verification/FsWritei.v ===== *)
(** [writei] of kernel/fs.c, from a kernel buffer.

    The loop writes block by block; [written] composes the pieces.  The log takes
    the free map, the indirect block and the blocks written, which is what
    bounds the size of one write to the blocks a transaction has room for. *)
From S2P Require Import Prelude Riscv PhysMem Bytes Bio BlockIface FsIface Fs FsData FsBlocks FsContent FsGrow FsWritten FsWrite.

Section writei.
Context {B : Type} `{BO : !BlockOps B} (dev : Z) `{BL : !BlockLaws B dev} (ds : Z).

Abbreviation bm f := (sb_bmapstart (f_sb f)).
Abbreviation size f := (sb_size (f_sb f)).
Abbreviation fi f := (finv (bm f) ds (size f)).

(** The blocks logged since [L0] by writes to the blocks [b0 .. b0 + K] of [d]. *)
Definition logged (L0 : list Z) (f : fsys B) (v : Z -> list Z) (d : dinode) (b0 : Z) (K : nat) (L : list Z) : Prop :=
  forall y, y ∈ L -> y ∈ L0 \/ y = bm f \/ y = ind d /\ y <> 0 \/ exists bn, (b0 <= bn < b0 + Z.of_nat K /\ 0 <= bn < MAXFILE) /\ y = faddr v d bn /\ y <> 0.

Lemma logged_len L0 f v d b0 K L : logged L0 f v d b0 K L -> NoDup L ->
  (length (add_block (bm f) L) <= length L0 + (K + 2))%nat.
Proof.
  intros HL Hn. transitivity (length (L0 ++ bm f :: ind d :: (faddr v d <$> zseq b0 K 1))).
  2:{ rewrite length_app. cbn [length]. rewrite length_fmap. unfold zseq. rewrite length_fmap, length_seq. lia. }
  apply nodup_len; [by apply nodup_add|]. intros y. rewrite add_block_elem, elem_of_app, !elem_of_cons.
  intros [->|Hy]; [tauto|]. destruct (HL y Hy) as [?|[?|[[? _]|(bn & Hb & -> & _)]]]; [tauto..|].
  do 3 right. apply list_elem_of_fmap. exists bn. split; [done|]. unfold zseq. apply list_elem_of_fmap.
  exists (Z.to_nat (bn - b0)). rewrite elem_of_seq. lia.
Qed.

Lemma logged_grown L0 f v d v' d' b0 K L :
  logged L0 f v d b0 K L -> (ind d <> 0 -> ind d' = ind d) ->
  (forall bn, 0 <= bn < MAXFILE -> faddr v d bn <> 0 -> faddr v' d' bn = faddr v d bn) -> logged L0 f v' d' b0 K L.
Proof.
  intros HL Ii Old y Hy. destruct (HL y Hy) as [?|[?|[[? ?]|(bn & Hb & E & Hn)]]]; [tauto..| |].
  - do 2 right. left. rewrite Ii; [done|congruence].
  - do 3 right. exists bn. split; [done|]. split; [|done]. rewrite Old; [done|lia|congruence].
Qed.

(** What a write of [src] at [off] leaves, [r] bytes of it written. *)
Record wrote (f : fsys B) (x : inode) (off : Z) (src : list Z) (r : Z) (s' : B) (d' : dinode) (L' : list Z) : Prop := {
  wr_tx : tx s' L' [];
  wr_inv : fi f (bview s') d';
  wr_r : 0 <= r <= Z.of_nat (length src);
  wr_written : written (bm f) (bview (f_blk f)) (i_data x) (bview s') d' off (take (Z.to_nat r) src);
  wr_full : r < Z.of_nat (length src) -> forall b, 0 <= b < size f -> usedv (bm f) (bview s') b = true
}.

(** One block of the loop: [bmap], then the buffer is changed and logged. *)
Lemma write_piece (f : fsys B) L L0 ip x off b0 K got :
  tx (f_blk f) L [] -> geom home (f_sb f) ds -> f_itable f !! ip = Some x -> i_dev x = dev ->
  fi f (bview (f_blk f)) (i_data x) -> logged L0 f (bview (f_blk f)) (i_data x) b0 K L -> (length L0 + (K + 2) <= 7)%nat ->
  0 <= off -> off + Z.of_nat (length got) <= MAXFILE * BSIZE -> b0 <= off / BSIZE < b0 + Z.of_nat K ->
  off mod BSIZE + Z.of_nat (length got) <= BSIZE -> (0 < length got)%nat ->
  exists r s1 d1 L1, bmap ip (off / BSIZE) f = Ret r (set_file ip x d1 s1 f) /\
    tx s1 L1 [] /\ logged L0 f (bview s1) d1 b0 K L1 /\ fi f (bview s1) d1 /\
    written (bm f) (bview (f_blk f)) (i_data x) (bview s1) d1 off [] /\
    (r = 0 /\ (forall b, 0 <= b < size f -> usedv (bm f) (bview s1) b = true) \/
     r <> 0 /\ exists i s2 s3 s4 L4,
       blk (blk_read dev r) (set_file ip x d1 s1 f) = Ret i (set_file ip x d1 s2 f) /\
       blk (blk_data i) (set_file ip x d1 s2 f) = Ret (bview s1 r) (set_file ip x d1 s2 f) /\
       update i (splice (bview s1 r) (Z.to_nat (off mod BSIZE)) got) (set_file ip x d1 s2 f) = Ret tt (set_file ip x d1 s3 f) /\
       blk (blk_relse i) (set_file ip x d1 s3 f) = Ret tt (set_file ip x d1 s4 f) /\
       tx s4 L4 [] /\ logged L0 f (bview s4) d1 b0 K L4 /\ fi f (bview s4) d1 /\
       written (bm f) (bview (f_blk f)) (i_data x) (bview s4) d1 off got).
Proof.
  intros T G Hx Hd I HL HK Hoff Hmax Hb0 Hfit Hpos. destruct (geom_facts dev ds f G) as [Hbm Hsz].
  assert (Hb : 0 <= off / BSIZE < MAXFILE) by (apply block_of; lia).
  destruct (bmap_run dev ds f L ip x (off / BSIZE) T G Hx Hd I Hb) as (r & s1 & d1 & L1 & E & [M1 M2 M3 M4 M5 M6]).
  { pose proof (logged_len _ _ _ _ _ _ _ HL (law_nodup _ _ _ T)). lia. }
  exists r, s1, d1, L1. split; [exact E|]. split; [done|].
  assert (HL1 : logged L0 f (bview s1) d1 b0 K L1).
  { intros y Hy. destruct (M6 y Hy) as [Hy0|[?|[[-> ?]|[-> ?]]]]; [|tauto..|].
    - by apply (logged_grown _ _ _ _ _ _ _ _ _ HL (gr_ind _ _ _ _ _ M3) (gr_old _ _ _ _ _ M3)).
    - do 3 right. exists (off / BSIZE). split; [lia|]. by rewrite M4. }
  pose proof (grown_written (bm f) ds (size f) _ _ _ _ off Hbm I M3) as W1.
  split; [done|]. split; [done|]. split; [done|].
  destruct (decide (r = 0)) as [Er|Hr]; [left; by split; [|apply M5]|right]. split; [done|].
  assert (Hhome : home r).
  { apply (g_home_data _ _ _ G). rewrite <- M4. apply (fo_range _ _ _ _ (fi_ok _ _ _ _ _ M2) _ Hb). congruence. }
  pose proof (logged_len _ _ _ _ _ _ _ HL1 (law_nodup _ _ _ M1)) as Hl1.
  assert (Hl1' : (length L1 <= 7)%nat) by (unfold add_block in Hl1; destruct (bool_decide _); rewrite ?length_app in Hl1; lia).
  set (f1 := set_file ip x d1 s1 f).
  destruct (law_read s1 L1 [] r M1 Hhome) as (i & s2 & E1 & T2 & V2); [set_solver|cbn; lia|].
  assert (E2 : blk_data i s2 = Ret (bview s1 r) s2) by (rewrite <- V2; apply (law_data s2 L1 _ r i T2); by left).
  set (bs := splice (bview s1 r) (Z.to_nat (off mod BSIZE)) got).
  pose proof (Z.mod_pos_bound off BSIZE ltac:(done)) as Hmod.
  assert (Hlr : length (bview s1 r) = Z.to_nat BSIZE) by (by apply (law_len _ L1 [] _ M1)).
  assert (Hlb : length bs = Z.to_nat BSIZE) by (unfold bs; rewrite length_splice_in; [done|]; rewrite Hlr; lia).
  destruct (update_run dev (set_file ip x d1 s2 f) L1 [(r, i)] r i bs T2) as (s3 & E3 & T3 & V3);
    [by left|done|done|pose proof (add_block_len r L1); lia|].
  destruct (law_relse s3 _ [] r i T3) as (s4 & E4 & T4 & V4).
  exists i, s2, s3, s4, (add_block r L1).
  split; [exact (blk_Ret _ f1 _ _ E1)|]. split; [exact (blk_Ret _ (set_file ip x d1 s2 f) _ _ E2)|].
  split; [exact E3|]. split; [exact (blk_Ret _ (set_file ip x d1 s3 f) _ _ E4)|]. split; [done|].
  assert (Vw : forall y, bview s4 y = zupd (bview s1) r bs y).
  { intros y. rewrite V4, V3. cbn [f_blk set_file]. unfold zupd. by destruct (y =? r). }
  destruct (written_block (bm f) ds (size f) (bview s1) d1 (bview s4) off got Hbm M2 Hoff Hmax Hfit Hpos) as [W2 I2].
  { congruence. } { by rewrite M4. } { intros y. rewrite M4. exact (Vw y). }
  split; [|split; [done|]].
  - intros y. rewrite add_block_elem. intros Hy.
    destruct W2 as [_ Wo _ Wi _ _ _ _ _]. destruct Hy as [->|Hy].
    + do 3 right. exists (off / BSIZE). split; [lia|]. rewrite Wo by (done || congruence). by rewrite M4.
    + by apply (logged_grown _ _ _ _ _ _ _ _ _ HL1 Wi Wo).
  - apply (written_trans (bm f) _ _ (bview s1) d1 _ _ off [] got Hoff); [cbn [length]; lia|done|].
    cbn [length]. by rewrite Z.add_0_r.
Qed.

Lemma lookup_set_file (f : fsys B) ip x d s : f_itable f !! ip = Some x ->
  f_itable (set_file ip x d s f) !! ip = Some (set_data_of (fun _ => d) x).
Proof. intros E. unfold set_file. cbn [f_itable]. apply list_lookup_insert_eq. by eapply lookup_lt_Some. Qed.

(** The loop, from [tot] on. *)
Lemma writei_loop_run L0 b0 K fuel src : forall (f : fsys B) L ip x off tot,
  tx (f_blk f) L [] -> geom home (f_sb f) ds -> f_itable f !! ip = Some x -> i_dev x = dev ->
  fi f (bview (f_blk f)) (i_data x) -> logged L0 f (bview (f_blk f)) (i_data x) b0 K L -> (length L0 + (K + 2) <= 7)%nat ->
  let n := Z.of_nat (length src) in
  0 <= tot <= n -> b0 * BSIZE <= off -> 0 <= off -> off + (n - tot) <= MAXFILE * BSIZE -> off + (n - tot) <= (b0 + Z.of_nat K) * BSIZE ->
  (tot < n -> off mod BSIZE + (n - tot) <= BSIZE * (Z.of_nat fuel - 1)) -> (0 < fuel)%nat ->
  exists r s' d' L', writei_loop (fun A m => m) (kin src) fuel ip off n tot f = Ret (tot + r, off + r) (set_file ip x d' s' f) /\
    wrote f x off (drop (Z.to_nat tot) src) r s' d' L' /\ logged L0 f (bview s') d' b0 K L'.
Proof.
  induction fuel as [|fuel IH]; intros f L ip x off tot T G Hx Hd I HL HK n Htot Hb0 Hoff Hmax Hspan Hfuel Hf; [lia|].
  destruct (geom_facts dev ds f G) as [Hbm Hsz].
  cbn [writei_loop]. destruct (Z.ltb_spec tot n) as [Hlt|].
  2:{ assert (tot = n) as -> by lia. exists 0, (f_blk f), (i_data x), L. rewrite !Z.add_0_r, set_file_id, set_blk_id by done.
      split; [done|]. split; [|done]. split; [done|done|lia|by eapply grown_written, grown_refl|].
      rewrite length_drop. lia. }
  rewrite (bind_geti ip _ f x Hx). set (m := Z.min (n - tot) (BSIZE - off mod BSIZE)).
  pose proof (Z.mod_pos_bound off BSIZE ltac:(done)) as Hmod. set (got := take (Z.to_nat m) (drop (Z.to_nat tot) src)).
  assert (Hlg : length got = Z.to_nat m) by (unfold got; rewrite length_take, length_drop; lia).
  destruct (write_piece f L L0 ip x off b0 K got T G Hx Hd I HL HK Hoff) as (r & s1 & d1 & L1 & E1 & T1 & HL1 & I1 & W1 & Hc);
    [rewrite Hlg; lia|rewrite BSIZE_eq in *; Z.to_euclidean_division_equations; nia|rewrite Hlg; lia|rewrite Hlg; lia|].
  rewrite (bind_Ret _ _ _ _ _ E1). destruct Hc as [[-> Hfull]|(Hr & i & s2 & s3 & s4 & L4 & R1 & R2 & R3 & R4 & T4 & HL4 & I4 & W4)].
  { change (0 =? 0) with true. cbv iota. exists 0, s1, d1, L1. rewrite !Z.add_0_r. split; [done|]. split; [|done].
    split; [done|done|rewrite length_drop; lia|done|done]. }
  rewrite (proj2 (Z.eqb_neq r 0) Hr), Hd, (bind_Ret _ _ _ _ _ R1), (bind_Ret _ _ _ _ _ R2). fold m.
  change ((kin src tot m ≫= ?h) ?g) with (h (0, got) g). cbv beta iota zeta. change (0 =? -1) with false. cbv iota. rewrite (bind_Ret _ _ _ _ _ R3), (bind_Ret _ _ _ _ _ R4).
  set (f4 := set_file ip x d1 s4 f). set (x4 := set_data_of (fun _ => d1) x).
  destruct (IH f4 L4 ip x4 (off + m) (tot + m) T4 G (lookup_set_file f ip x d1 s4 Hx) Hd I4 HL4 HK)
    as (r' & s' & d' & L' & E' & [X1 X2 X3 X4 X5] & HL').
  - lia.
  - lia.
  - lia.
  - lia.
  - lia.
  - intros Hlt'. specialize (Hfuel Hlt). fold n in Hlt'. assert (m = BSIZE - off mod BSIZE) as -> by lia.
    replace ((off + (BSIZE - off mod BSIZE)) mod BSIZE) with 0 by (rewrite BSIZE_eq; Z.to_euclidean_division_equations; lia). lia.
  - specialize (Hfuel Hlt). destruct fuel as [|fuel]; [rewrite BSIZE_eq in *; lia|lia].
  - fold n in E'. rewrite E'. exists (m + r'), s', d', L'. split.
    { unfold f4, x4. rewrite set_file_twice. do 2 f_equal; lia. }
    rewrite length_drop in X3. split; [|done]. split; [done|done|rewrite length_drop; lia| |].
    + rewrite Z2Nat.inj_add by lia. rewrite <- take_take_drop. rewrite drop_drop.
      apply (written_trans (bm f) _ _ (bview s4) d1 _ _ off); [lia| |done|].
      * rewrite Nat2Z.inj_add. fold got. rewrite Hlg, length_take, length_drop. lia.
      * fold got. rewrite Hlg, Z2Nat.id by lia. replace (Z.to_nat tot + Z.to_nat m)%nat with (Z.to_nat (tot + m)) by lia. exact X4.
    + intros Hr'. apply X5. rewrite length_drop in *. lia.
Qed.

(** ** The inode goes to disk *)
Definition iblock (f : fsys B) (inum : Z) : Z := inum / IPB + sb_inodestart (f_sb f).

Lemma iblock_facts (f : fsys B) inum : geom home (f_sb f) ds -> 0 <= inum < sb_ninodes (f_sb f) ->
  home (iblock f inum) /\ IBLOCK inum (f_sb f) = iblock f inum /\ 0 < iblock f inum < bm f.
Proof.
  intros G Hi. pose proof (g_inodes _ _ _ G inum Hi) as Hb. fold (iblock f inum) in Hb. split; [by apply (g_home_inode _ _ _ G)|].
  split; [|done]. unfold IBLOCK. apply u32_small. destruct (geom_facts dev ds f G) as [? Hsz]. rewrite BPB_eq in Hsz.
  fold (iblock f inum). lia.
Qed.

Lemma dinode_off_room inum : (dinode_off inum + 64 <= 1024)%nat.
Proof.
  unfold dinode_off. change sizeof_dinode with 64. rewrite IPB_eq. pose proof (Z.mod_pos_bound inum 16 ltac:(lia)). lia.
Qed.

Lemma iupdate_run (f : fsys B) L ip x :
  tx (f_blk f) L [] -> geom home (f_sb f) ds -> f_itable f !! ip = Some x -> i_dev x = dev ->
  0 <= i_inum x < sb_ninodes (f_sb f) -> length (d_addrs (i_data x)) = 13%nat -> (length L <= 9)%nat ->
  let ib := iblock f (i_inum x) in
  exists s', iupdate ip f = Ret tt (set_blk s' f) /\ tx s' (add_block ib L) [] /\
    (forall y, bview s' y = zupd (bview (f_blk f)) ib (put_dinode (bview (f_blk f) ib) (dinode_off (i_inum x)) (i_data x)) y).
Proof.
  intros T G Hx Hd Hi Hl HL ib. destruct (iblock_facts f _ G Hi) as (Hh & Eb & _). fold ib in Hh, Eb.
  unfold iupdate. rewrite (bind_Ret getsb _ f (f_sb f) f) by done. rewrite (bind_geti ip _ f x Hx), Hd, Eb.
  destruct (law_read _ L [] ib T Hh) as (i & s1 & E1 & T1 & V1); [set_solver|cbn; lia|].
  rewrite (bind_Ret _ _ _ _ _ (blk_Ret _ f _ _ E1)).
  assert (E2 : blk_data i s1 = Ret (bview (f_blk f) ib) s1) by (rewrite <- V1; apply (law_data s1 L _ ib i T1); by left).
  rewrite (bind_Ret _ _ _ _ _ (blk_Ret _ (set_blk s1 f) _ _ E2)).
  set (bs := put_dinode _ _ _).
  assert (Hlb : length bs = Z.to_nat BSIZE).
  { unfold bs. rewrite length_put_dinode; [|done|]; rewrite (law_len _ L [] _ T Hh); [done|]. apply dinode_off_room. }
  destruct (update_run dev (set_blk s1 f) L [(ib, i)] ib i bs T1) as (s2 & E3 & T2 & V2);
    [by left|done|done|pose proof (add_block_len ib L); lia|].
  change (set_blk s1 (set_blk s1 f)) with (set_blk s1 f). rewrite (bind_Ret _ _ _ _ _ E3).
  destruct (law_relse s2 _ [] ib i T2) as (s3 & E4 & T3 & V3).
  exists s3. split; [exact (blk_Ret _ (set_blk s2 _) _ _ E4)|]. split; [done|].
  intros y. rewrite V3, V2. cbn [f_blk set_blk]. unfold zupd. by destruct (y =? ib).
Qed.

(** A change below the free map does not touch the file. *)
Lemma faddr_meta (f : fsys B) v w d bn : 0 < bm f < ds -> fi f v d -> (forall y, bm f <= y -> w y = v y) -> faddr w d bn = faddr v d bn.
Proof.
  intros Hbm I Hw. unfold faddr. fold (ind d). destruct (bn <? NDIRECT); [done|]. destruct (Z.eqb_spec (ind d) 0) as [|Hn]; [done|].
  rewrite Hw; [done|]. pose proof (fo_ind _ _ _ _ (fi_ok _ _ _ _ _ I) Hn). fold (ind d) in *. lia.
Qed.

Lemma finv_resize (f : fsys B) v w d n : 0 < bm f < ds -> fi f v d -> (forall y, bm f <= y -> w y = v y) ->
  d_size d <= n <= MAXFILE * BSIZE -> (forall bn, 0 <= bn -> bn * BSIZE < n -> faddr v d bn <> 0) -> fi f w (set_size n d).
Proof.
  intros Hbm I Hw Hn Hm. assert (Hf : forall bn, faddr w (set_size n d) bn = faddr v d bn) by exact (fun bn => faddr_meta f v w d bn Hbm I Hw).
  assert (Hu : forall b, usedv (bm f) w b = usedv (bm f) v b) by (intros b; unfold usedv; by rewrite Hw by lia).
  destruct I as [[K1 K2 K3 K4 K5 K6 K7] U1 U2 U3]. split; [split|..]; try done.
  - cbn [d_size set_size]. lia.
  - intros bn. rewrite Hf. apply Hm.
  - intros bn. rewrite Hf. apply K4.
  - intros bn bn'. rewrite !Hf. apply K6.
  - intros bn. rewrite Hf. apply K7.
  - intros bn. rewrite Hf, Hu. apply U1.
  - rewrite Hu. apply U2.
  - intros b. rewrite Hu. apply U3.
Qed.

(** After a write at or before the end, the file has all the blocks up to its new end. *)
Lemma written_mapped (f : fsys B) v d v1 d1 off src :
  fi f v d -> written (bm f) v d v1 d1 off src -> 0 <= off <= d_size d -> off + Z.of_nat (length src) <= MAXFILE * BSIZE ->
  forall bn, 0 <= bn -> bn * BSIZE < Z.max (d_size d) (off + Z.of_nat (length src)) -> faddr v1 d1 bn <> 0.
Proof.
  intros I W Hoff Hmax bn Hb Hlt. pose proof (fo_size _ _ _ _ (fi_ok _ _ _ _ _ I)) as Hsz.
  assert (Hbn : 0 <= bn < MAXFILE) by (rewrite MAXFILE_eq, BSIZE_eq in *; lia).
  destruct (decide (bn * BSIZE < d_size d)) as [Hin|Hout].
  - pose proof (fo_map _ _ _ _ (fi_ok _ _ _ _ _ I) bn Hb Hin). by rewrite (wt_old _ _ _ _ _ _ _ W).
  - pose proof (wt_map _ _ _ _ _ _ _ W (bn * BSIZE) ltac:(lia)) as H. by rewrite Z.div_mul in H.
Qed.

(** What [writei] leaves: [r] bytes of [src] are in the file at [off]. *)
Record stored (f : fsys B) (x : inode) (off : Z) (src : list Z) (r : Z) (s' : B) (d' : dinode) : Prop := {
  st_inv : fi f (bview s') d';
  st_same : d' = mkDinode (d_type (i_data x)) (d_major (i_data x)) (d_minor (i_data x)) (d_nlink (i_data x)) (d_size d') (d_addrs d');
  st_r : 0 <= r <= Z.of_nat (length src);
  (** less is written only when the disk is full *)
  st_full : r < Z.of_nat (length src) -> forall b, 0 <= b < size f -> usedv (bm f) (bview s') b = true;
  st_size : d_size d' = Z.max (d_size (i_data x)) (off + r);
  st_byte : forall k, 0 <= k < d_size d' ->
    fbyte (bview s') d' k = if inr off r k then src !!! Z.to_nat (k - off) else fbyte (bview (f_blk f)) (i_data x) k;
  (** the inode on disk is the one in memory *)
  st_disk : get_dinode (bview s' (iblock f (i_inum x))) (dinode_off (i_inum x)) = d';
  (** no other block in use changed *)
  st_frame : forall y, usedv (bm f) (bview (f_blk f)) y = true -> y <> bm f -> y <> iblock f (i_inum x) -> y <> ind (i_data x) ->
    (forall bn, 0 <= bn < MAXFILE -> faddr (bview (f_blk f)) (i_data x) bn <> y) -> bview s' y = bview (f_blk f) y
}.

Lemma dinode_ok_finv (f : fsys B) v d : 0 < bm f < ds -> size f <= BPB -> fi f v d ->
  - 2 ^ 15 <= d_type d < 2 ^ 15 -> - 2 ^ 15 <= d_major d < 2 ^ 15 -> - 2 ^ 15 <= d_minor d < 2 ^ 15 -> - 2 ^ 15 <= d_nlink d < 2 ^ 15 ->
  dinode_ok d.
Proof.
  intros Hbm Hsz [[K1 K2 K3 K4 K5 K6 K7] U1 U2 U3] H1 H2 H3 H4. rewrite BPB_eq, MAXFILE_eq, BSIZE_eq in *. split; try done; [lia|].
  apply Forall_lookup. intros i a Ha. pose proof (lookup_lt_Some _ _ _ Ha) as Hi. rewrite K1 in Hi.
  apply list_lookup_total_correct in Ha. destruct (decide (i = 12%nat)) as [->|Hn].
  - destruct (decide (a = 0)); [lia|]. rewrite NDIRECT_eq in K5. change (Z.to_nat 12) with 12%nat in K5. rewrite Ha in K5. lia.
  - destruct (decide (a = 0)); [lia|]. specialize (K4 (Z.of_nat i) ltac:(lia)). unfold faddr in K4. rewrite NDIRECT_eq in K4.
    rewrite (proj2 (Z.ltb_lt _ 12)) in K4 by lia. rewrite Nat2Z.id, Ha in K4. lia.
Qed.

(** The size is raised and the inode written back. *)
Lemma finish_write (f : fsys B) L x ip off src r s1 d1 :
  geom home (f_sb f) ds -> f_itable f !! ip = Some x -> i_dev x = dev -> 0 <= i_inum x < sb_ninodes (f_sb f) ->
  dinode_ok (i_data x) -> fi f (bview (f_blk f)) (i_data x) -> 0 <= off <= d_size (i_data x) ->
  off + Z.of_nat (length src) <= MAXFILE * BSIZE -> wrote f x off src r s1 d1 L -> (length L <= 9)%nat ->
  exists s', (_ ← (if d_size d1 <? off + r then modi ip (set_data_of (set_size (off + r))) else mret tt); iupdate ip)
      (set_file ip x d1 s1 f) =
    Ret tt (set_file ip x (set_size (Z.max (d_size (i_data x)) (off + r)) d1) s' f) /\
    tx s' (add_block (iblock f (i_inum x)) L) [] /\
    stored f x off src r s' (set_size (Z.max (d_size (i_data x)) (off + r)) d1).
Proof.
  intros G Hx Hd Hi Hok I Hoff Hmax [T1 I1 Hr W Hfull] HL. destruct (geom_facts dev ds f G) as [Hbm Hsz].
  set (n := Z.max _ _). set (d2 := set_size n d1).
  assert (Hlt : Z.of_nat (length (take (Z.to_nat r) src)) = r) by (rewrite length_take; lia).
  assert (Es : d_size d1 = d_size (i_data x)) by (by rewrite (wt_d _ _ _ _ _ _ _ W)).
  rewrite (bind_Ret _ _ _ tt (set_file ip x d2 s1 f)).
  2:{ unfold d2, n. rewrite Es. destruct (Z.ltb_spec (d_size (i_data x)) (off + r)).
      - rewrite Z.max_r by lia. unfold modi, modS. rewrite (list_lookup_total_correct _ _ _ (lookup_set_file f ip x d1 s1 Hx)).
        f_equal. unfold set_file. cbn [f_sb f_itable f_me f_blk]. by rewrite list_insert_insert_eq.
      - rewrite Z.max_l, <- Es by lia. by destruct d1. }
  set (x2 := set_data_of (fun _ => d2) x).
  destruct (iupdate_run (set_file ip x d2 s1 f) L ip x2 T1 G (lookup_set_file f ip x d2 s1 Hx) Hd Hi) as (s2 & E2 & T2 & V2).
  { apply (fo_len _ _ _ _ (fi_ok _ _ _ _ _ I1)). } { done. }
  exists s2. split; [exact E2|]. split; [exact T2|].
  destruct (iblock_facts f _ G Hi) as (Hh & _ & Hib). change (iblock (set_file ip x d2 s1 f) (i_inum x2)) with (iblock f (i_inum x)) in *.
  set (ib := iblock f (i_inum x)) in *. change (f_blk (set_file ip x d2 s1 f)) with s1 in V2.
  assert (Hw : forall y, bm f <= y -> bview s2 y = bview s1 y) by (intros y Hy; rewrite V2; apply zupd_ne; lia).
  pose proof (fo_size _ _ _ _ (fi_ok _ _ _ _ _ I)) as Hs0.
  assert (Hmap : forall bn, 0 <= bn -> bn * BSIZE < n -> faddr (bview s1) d1 bn <> 0).
  { intros bn Hb Hlb. apply (written_mapped f _ _ _ _ _ _ I W); rewrite ?Hlt; [lia|lia|done|done]. }
  assert (I2 : fi f (bview s2) d2) by (apply (finv_resize f (bview s1)); [done|done|done|lia|done]).
  assert (Hf : forall bn, faddr (bview s2) d2 bn = faddr (bview s1) d1 bn) by exact (fun bn => faddr_meta f _ _ _ bn Hbm I1 Hw).
  pose proof (wt_d _ _ _ _ _ _ _ W) as Ed.
  assert (Et : d_type d1 = d_type (i_data x)) by (by rewrite Ed). assert (Ea : d_major d1 = d_major (i_data x)) by (by rewrite Ed).
  assert (Ei : d_minor d1 = d_minor (i_data x)) by (by rewrite Ed). assert (En : d_nlink d1 = d_nlink (i_data x)) by (by rewrite Ed).
  split.
  - exact I2.
  - unfold d2, set_size. cbn [d_size d_addrs]. by rewrite Et, Ea, Ei, En.
  - done.
  - intros Hlt' b Hb. unfold usedv. rewrite Hw by lia. by apply Hfull.
  - done.
  - change (d_size d2) with n. intros k Hk.
    assert (Hkm : 0 <= k < MAXFILE * BSIZE) by lia. pose proof (block_of k Hkm) as Hkb.
    assert (Hne : faddr (bview s1) d1 (k / BSIZE) <> 0).
    { apply Hmap; [lia|]. rewrite BSIZE_eq. Z.to_euclidean_division_equations. lia. }
    assert (E : fbyte (bview s2) d2 k = fbyte (bview s1) d1 k).
    { unfold fbyte. rewrite Hf, Hw; [done|]. pose proof (fo_range _ _ _ _ (fi_ok _ _ _ _ _ I1) _ Hkb Hne). lia. }
    rewrite E, (wt_byte _ _ _ _ _ _ _ W k Hkm).
    + rewrite Hlt. destruct (decide (off <= k < off + r)) as [Hin|Hin]; [|by rewrite !inr_false by lia].
      rewrite !inr_true by lia. apply lookup_total_take_lt. lia.
    + rewrite Hlt. destruct (decide (off <= k < off + r)); [by right|left].
      apply (fo_map _ _ _ _ (fi_ok _ _ _ _ _ I)); [lia|]. rewrite BSIZE_eq. Z.to_euclidean_division_equations. lia.
  - rewrite V2, zupd_eq. apply get_put_dinode.
    + apply (dinode_ok_finv f (bview s2)); [done|lia|done|..]; destruct Hok; cbn [d_type d_major d_minor d_nlink d2 set_size];
        by rewrite ?Et, ?Ea, ?Ei, ?En.
    + rewrite (law_len _ L [] _ T1 Hh). apply dinode_off_room.
  - intros y Hu Hy1 Hy2 Hy3 Hown. rewrite V2, zupd_ne by done. by apply (wt_frame _ _ _ _ _ _ _ W).
Qed.

Lemma writek_run (f : fsys B) L ip x off src K :
  tx (f_blk f) L [] -> geom home (f_sb f) ds -> f_itable f !! ip = Some x -> i_dev x = dev ->
  0 <= i_inum x < sb_ninodes (f_sb f) -> dinode_ok (i_data x) -> fi f (bview (f_blk f)) (i_data x) ->
  0 <= off <= d_size (i_data x) -> off + Z.of_nat (length src) <= MAXFILE * BSIZE ->
  off mod BSIZE + Z.of_nat (length src) <= Z.of_nat K * BSIZE -> (length L + (K + 2) <= 7)%nat ->
  exists r s' d' L', writek ip off src f = Ret r (set_file ip x d' s' f) /\ tx s' L' [] /\ (length L' <= length L + (K + 3))%nat /\
    stored f x off src r s' d'.
Proof.
  intros T G Hx Hd Hi Hok I Hoff Hmax Hspan HK. set (n := Z.of_nat (length src)) in *. rewrite MAXFILE_eq, BSIZE_eq in Hmax.
  assert (Hs32 : d_size (i_data x) < 2 ^ 32) by (pose proof (di_size _ Hok); lia).
  unfold writek, writei. fold n. rewrite (bind_geti ip _ f x Hx). rewrite u32_small by lia.
  rewrite (proj2 (Z.ltb_ge (d_size (i_data x)) off)), (proj2 (Z.ltb_ge (off + n) off)) by lia. cbn [orb].
  rewrite (proj2 (Z.ltb_ge (MAXFILE * BSIZE) (off + n))) by (rewrite MAXFILE_eq, BSIZE_eq; lia).
  destruct (writei_loop_run L (off / BSIZE) K (S (S (S (Z.to_nat (n / BSIZE))))) src f L ip x off 0 T G Hx Hd I)
    as (r & s1 & d1 & L1 & E1 & W1 & HL1).
  - intros y Hy. by left.
  - done.
  - lia.
  - rewrite BSIZE_eq. Z.to_euclidean_division_equations. lia.
  - lia.
  - fold n. rewrite MAXFILE_eq, BSIZE_eq. lia.
  - fold n. rewrite BSIZE_eq in *. Z.to_euclidean_division_equations. nia.
  - fold n. intros _. pose proof (Z.div_mod n BSIZE). pose proof (Z.mod_pos_bound n BSIZE). pose proof (Z.div_pos n BSIZE).
    pose proof (Z.mod_pos_bound off BSIZE). rewrite BSIZE_eq in *. lia.
  - lia.
  - fold n in E1. rewrite (bind_Ret _ _ _ _ _ E1). rewrite Z.add_0_l. cbv beta iota zeta.
    rewrite (bind_geti ip _ _ _ (lookup_set_file f ip x d1 s1 Hx)). cbn [i_data set_data_of].
    rewrite drop_0 in W1. pose proof (logged_len _ _ _ _ _ _ _ HL1 (law_nodup _ _ _ (wr_tx _ _ _ _ _ _ _ _ W1))) as Hl1.
    destruct (finish_write f L1 x ip off src r s1 d1 G Hx Hd Hi Hok I Hoff) as (s2 & E2 & T2 & S2); [fold n; rewrite MAXFILE_eq, BSIZE_eq; lia|done| |].
    { unfold add_block in Hl1. destruct (bool_decide _); rewrite ?length_app in Hl1; lia. }
    rewrite <- bind_assoc, (bind_Ret _ _ _ _ _ E2). exists r, s2. eexists _, _. split; [reflexivity|]. split; [exact T2|]. split; [|exact S2].
    pose proof (add_block_len (iblock f (i_inum x)) L1). unfold add_block in Hl1. destruct (bool_decide _); rewrite ?length_app in Hl1; lia.
Qed.

(** C5: [writei] of [src] at an offset within the file, in a transaction with
    room for the blocks it touches, always returns; it stores the first [r]
    bytes of [src] in the file and changes no other byte of it, [r] being all of
    [src] unless the disk is full; the size grows to cover them; the inode on
    disk is the inode in memory; every other block in use keeps its contents;
    and the blocks of the file stay distinct, in use and in range. *)
Theorem writei_correct (f : fsys B) L ip x off src K :
  tx (f_blk f) L [] -> geom home (f_sb f) ds -> f_itable f !! ip = Some x -> i_dev x = dev ->
  0 <= i_inum x < sb_ninodes (f_sb f) -> dinode_ok (i_data x) -> fi f (bview (f_blk f)) (i_data x) ->
  0 <= off <= d_size (i_data x) -> off + Z.of_nat (length src) <= MAXFILE * BSIZE ->
  off mod BSIZE + Z.of_nat (length src) <= Z.of_nat K * BSIZE -> (length L + (K + 2) <= 7)%nat ->
  exists r s' d' L', writek ip off src f = Ret r (set_file ip x d' s' f) /\ tx s' L' [] /\
    (length L' <= length L + (K + 3))%nat /\ stored f x off src r s' d'.
Proof. apply writek_run. Qed.

(** What [writei] stored, [readi] reads back. *)
Theorem write_read (f : fsys B) L ip x off src K :
  tx (f_blk f) L [] -> geom home (f_sb f) ds -> f_itable f !! ip = Some x -> i_dev x = dev ->
  0 <= i_inum x < sb_ninodes (f_sb f) -> dinode_ok (i_data x) -> fi f (bview (f_blk f)) (i_data x) ->
  0 <= off <= d_size (i_data x) -> off + Z.of_nat (length src) <= MAXFILE * BSIZE ->
  off mod BSIZE + Z.of_nat (length src) <= Z.of_nat K * BSIZE -> (length L + (K + 2) <= 7)%nat ->
  exists r f', (n ← writek ip off src; out ← readk ip off n; mret (n, out)) f = Ret (r, (r, take (Z.to_nat r) src)) f' /\
    (r < Z.of_nat (length src) -> forall b, 0 <= b < size f -> usedv (bm f) (bview (f_blk f')) b = true).
Proof.
  intros T G Hx Hd Hi Hok I Hoff Hmax Hspan HK.
  destruct (writek_run f L ip x off src K T G Hx Hd Hi Hok I Hoff Hmax Hspan HK) as (r & s1 & d1 & L1 & E1 & T1 & HL1 & [J1 J2 J3 J4 J5 J6 J7 J8]).
  rewrite (bind_Ret _ _ _ _ _ E1). rewrite MAXFILE_eq, BSIZE_eq in Hmax. set (x1 := set_data_of (fun _ => d1) x).
  destruct (readk_run dev ds (set_file ip x d1 s1 f) L1 ip x1 off r T1 G (lookup_set_file f ip x d1 s1 Hx) Hd (fi_ok _ _ _ _ _ J1))
    as (s2 & E2 & T2 & V2); [lia|lia|lia|].
  rewrite (bind_Ret _ _ _ _ _ E2). cbn [i_data x1 set_data_of f_blk set_file] in *. rewrite J5.
  rewrite (proj2 (Z.ltb_ge _ off)) by lia. rewrite (proj2 (Z.leb_gt (2 ^ 32) (off + r))) by lia. cbn [orb].
  rewrite (Z.min_l r) by lia. exists r, (set_blk s2 (set_file ip x d1 s1 f)). split; [|intros Hr b Hb; cbn [f_blk set_blk]; unfold usedv; rewrite V2; by apply J4].
  unfold mret, M_ret. do 3 f_equal. apply list_eq. intros i. unfold fbytes, zseq. rewrite !list_lookup_fmap.
  destruct (decide (i < Z.to_nat r)%nat) as [Hlt|Hge].
  - rewrite lookup_seq_lt, lookup_take_lt by done. cbn [fmap option_fmap option_map Nat.add].
    rewrite J6 by lia. rewrite inr_true by lia. rewrite (list_lookup_lookup_total_lt src i) by lia. do 2 f_equal. lia.
  - rewrite lookup_seq_ge, lookup_take_ge by lia. done.
Qed.
End writei.
