(* ===== verification/FsDir.v ===== *)
(** Directories and the inode table, kernel/fs.c [iget], [dirlookup], [dirlink].

    A directory is a file of 16-byte entries; [dents] is their list.  The inode
    table holds one entry per inode in use ([itable_inv]), which is what makes
    the pointer [iget] returns stand for the inode. *)
From S2P Require Import Prelude Riscv PhysMem Bytes Bio BlockIface FsIface Fs FsData FsBlocks FsContent FsGrow FsWritten FsWrite FsWritei.

Definition dent (v : Z -> list Z) (d : dinode) (k : nat) : list Z := fbytes v d (16 * Z.of_nat k) 16.
Definition dcount (d : dinode) : nat := Z.to_nat (d_size d / 16).
Definition dents (v : Z -> list Z) (d : dinode) : list (list Z) := dent v d <$> seq 0 (dcount d).

(** An entry in use with the name. *)
Definition dmatch (name : list Z) (de : list Z) : bool := negb (de_inum de =? 0) && (namecmp name (de_name de) =? 0).

Lemma length_dents v d : length (dents v d) = dcount d.
Proof. unfold dents. by rewrite length_fmap, length_seq. Qed.

Lemma lookup_dents v d k : (k < dcount d)%nat -> dents v d !! k = Some (dent v d k).
Proof. intros Hk. unfold dents. rewrite list_lookup_fmap, lookup_seq_lt by done. done. Qed.

Lemma dcount_end d : 0 <= d_size d -> d_size d mod 16 = 0 -> 16 * ((d_size d + 15) / 16) = 16 * Z.of_nat (dcount d).
Proof. unfold dcount. intros. Z.to_euclidean_division_equations. lia. Qed.

Section dir.
Context {B : Type} `{BO : !BlockOps B} (dev : Z) `{BL : !BlockLaws B dev} (ds : Z).

(** The scan from entry [k] finds the first entry accepted. *)
Lemma dir_scan_run (g : list Z -> bool) msg fuel : forall (f : fsys B) L dp x k,
  tx (f_blk f) L [] -> geom home (f_sb f) ds -> f_itable f !! dp = Some x -> i_dev x = dev ->
  file_ok (bview (f_blk f)) (i_data x) ds (sb_size (f_sb f)) -> (length L < 20)%nat ->
  d_size (i_data x) mod 16 = 0 -> (k <= dcount (i_data x))%nat -> (dcount (i_data x) - k < fuel)%nat ->
  let l := dents (bview (f_blk f)) (i_data x) in
  exists s', dir_scan fuel dp g msg (16 * Z.of_nat k) f =
      Ret ((fun j => (16 * Z.of_nat (k + j), l !!! (k + j)%nat)) <$> first_index g (drop k l)) (set_blk s' f) /\
    tx s' L [] /\ (forall y, bview s' y = bview (f_blk f) y).
Proof.
  induction fuel as [|fuel IH]; intros f L dp x k T G Hx Hd Hok HL Hmod Hk Hfuel l; [lia|].
  pose proof (fo_size _ _ _ _ Hok) as Hsz. rewrite MAXFILE_eq, BSIZE_eq in Hsz. unfold dcount in *.
  cbn [dir_scan]. rewrite (bind_geti dp _ f x Hx).
  destruct (Z.ltb_spec (16 * Z.of_nat k) (d_size (i_data x))) as [Hlt|Hge].
  2:{ exists (f_blk f). rewrite drop_ge by (unfold l; rewrite length_dents; unfold dcount; Z.to_euclidean_division_equations; lia).
      rewrite set_blk_id. done. }
  assert (Hkc : (k < dcount (i_data x))%nat) by (unfold dcount; Z.to_euclidean_division_equations; lia).
  assert (Hend : 16 * Z.of_nat k + 16 <= d_size (i_data x)) by (Z.to_euclidean_division_equations; lia).
  change (Z.of_nat sizeof_dirent) with 16.
  destruct (readk_run dev ds f L dp x (16 * Z.of_nat k) 16 T G Hx Hd Hok HL) as (s1 & E1 & T1 & V1); [lia|lia|].
  rewrite (bind_Ret _ _ _ _ _ E1).
  rewrite (proj2 (Z.ltb_ge (d_size (i_data x)) _)), (proj2 (Z.leb_gt (2 ^ 32) _)) by lia. cbn [orb].
  rewrite Z.min_l by lia. change (negb (16 =? 16)) with false. cbv beta iota.
  fold (dent (bview (f_blk f)) (i_data x) k).
  assert (El : l !! k = Some (dent (bview (f_blk f)) (i_data x) k)) by (by apply lookup_dents).
  rewrite (drop_S l _ k El). cbn [first_index]. change (Z.to_nat 16) with 16%nat. fold (dent (bview (f_blk f)) (i_data x) k).
  destruct (g (dent (bview (f_blk f)) (i_data x) k)).
  - exists s1. split; [|done]. cbn [fmap option_fmap option_map]. rewrite Nat.add_0_r. by rewrite (list_lookup_total_correct _ _ _ El).
  - destruct (IH (set_blk s1 f) L dp x (S k) T1 G Hx Hd) as (s2 & E2 & T2 & V2).
    + eapply file_ok_ext; [intros y; symmetry; apply V1|exact Hok].
    + done.
    + done.
    + unfold dcount in *. lia.
    + unfold dcount in *. lia.
    + replace (16 * Z.of_nat k + 16) with (16 * Z.of_nat (S k)) by lia. rewrite E2. exists s2.
      split; [|split; [done|intros y; rewrite V2; apply V1]]. cbn [f_blk set_blk].
      assert (Ed : dents (bview s1) (i_data x) = l).
      { unfold l, dents. apply list_fmap_ext. intros ? ? _. by apply fbytes_ext. }
      rewrite Ed. f_equal. destruct (first_index g (drop (S k) l)) as [j|]; cbn [fmap option_fmap option_map]; [|done].
      replace (S k + j)%nat with (k + S j)%nat by lia. done.
Qed.

(** ** The inode table *)
Record itable_inv (t : list inode) : Prop := {
  it_ref : forall i x, t !! i = Some x -> 0 <= i_ref x;
  it_unique : forall i j x y, t !! i = Some x -> t !! j = Some y -> 0 < i_ref x -> 0 < i_ref y ->
    i_dev x = i_dev y -> i_inum x = i_inum y -> i = j
}.

(** Entry [ip] has one more reference, to the inode. *)
Record gotten (t : list inode) (dv inum : Z) (ip : nat) (t' : list inode) : Prop := {
  gt_inv : itable_inv t';
  gt_entry : exists y, t' !! ip = Some y /\ i_dev y = dv /\ i_inum y = inum /\ 0 < i_ref y;
  gt_other : forall j, j <> ip -> t' !! j = t !! j;
  gt_live : forall x, t !! ip = Some x -> 0 < i_ref x -> i_dev x = dv /\ i_inum x = inum /\ t' !! ip = Some (set_ref (i_ref x + 1) x)
}.

Lemma itable_insert t ip y :
  itable_inv t -> 0 <= i_ref y ->
  (0 < i_ref y -> forall j x, j <> ip -> t !! j = Some x -> 0 < i_ref x -> i_dev x = i_dev y -> i_inum x = i_inum y -> False) ->
  itable_inv (<[ip := y]> t).
Proof.
  intros [R U] Hy Hu. split.
  - intros i x. destruct (decide (i = ip)) as [->|]; [|rewrite list_lookup_insert_ne by done; apply R].
    intros [[_ E]|[? _]]%list_lookup_insert_Some; naive_solver.
  - intros i j x z Hi Hj Hx Hz Ed Ei.
    apply list_lookup_insert_Some in Hi as [(-> & -> & _)|[Hni Hi]], Hj as [(-> & -> & _)|[Hnj Hj]]; try done.
    + destruct (Hu Hx j z); congruence.
    + destruct (Hu Hz i x); congruence.
    + by apply (U i j x z).
Qed.

Lemma iget_run (f : fsys B) dv inum :
  itable_inv (f_itable f) ->
  (exists ip t', iget dv inum f = Ret ip (mkFsys (f_blk f) (f_sb f) t' (f_me f)) /\ gotten (f_itable f) dv inum ip t') \/
  iget dv inum f = Panic "iget: no inodes" /\ forall x, x ∈ f_itable f -> 0 < i_ref x /\ ~ (i_dev x = dv /\ i_inum x = inum).
Proof.
  intros I. unfold iget. change ((getS ≫= ?h) f) with (h f f). cbv beta.
  set (p := fun x => (0 <? i_ref x) && (i_dev x =? dv) && (i_inum x =? inum)).
  assert (Hp : forall x, p x = true <-> 0 < i_ref x /\ i_dev x = dv /\ i_inum x = inum) by (intros x; unfold p; lia).
  destruct (first_index p (f_itable f)) as [ip|] eqn:E1.
  - apply first_index_Some in E1 as [(x & Hx & [Hr [Hxd Hxi]]%Hp) _]. left. exists ip.
    set (y := set_ref (i_ref x + 1) x). exists (<[ip := y]> (f_itable f)).
    split; [unfold modi, modS, mbind, M_bind; by rewrite (list_lookup_total_correct _ _ _ Hx)|].
    assert (Hy : <[ip := y]> (f_itable f) !! ip = Some y) by (apply list_lookup_insert_eq; by eapply lookup_lt_Some).
    split.
    + apply itable_insert; [done|cbn; lia|]. intros _ j z Hj Hz Hrz Ed Ei. cbn in Ed, Ei. by apply Hj, (it_unique _ I j ip z x).
    + exists y. split; [done|]. cbn. lia.
    + intros j Hj. by apply list_lookup_insert_ne.
    + intros x' Hx' _. assert (x' = x) as -> by congruence. done.
  - pose proof (proj1 (first_index_None _ _) E1) as Hno.
    assert (Hn : forall j z, f_itable f !! j = Some z -> 0 < i_ref z -> i_dev z = dv -> i_inum z = inum -> False).
    { intros j z Hz Hr Hzd Hzi. assert (p z = true) by (by apply Hp). by rewrite (Hno j z Hz) in H. }
    destruct (first_index (fun x => i_ref x =? 0) (f_itable f)) as [ip|] eqn:E2.
    + apply first_index_Some in E2 as [(x & Hx & Hr%Z.eqb_eq) _]. left. exists ip.
      set (y := mkInode dv inum 1 (i_locked x) (i_pid x) 0 (i_data x)). exists (<[ip := y]> (f_itable f)).
      split; [unfold modi, modS, mbind, M_bind; by rewrite (list_lookup_total_correct _ _ _ Hx)|]. split.
      * apply itable_insert; [done|cbn; lia|]. intros _ j z Hj Hz Hrz Ed Ei. by apply (Hn j z).
      * exists y. split; [apply list_lookup_insert_eq; by eapply lookup_lt_Some|]. cbn. lia.
      * intros j Hj. by apply list_lookup_insert_ne.
      * intros x' Hx'. assert (x' = x) as -> by congruence. lia.
    + right. split; [done|]. intros x [j Hx]%list_elem_of_lookup_1. pose proof (proj1 (first_index_None _ _) E2) as Hno2.
      pose proof (it_ref _ I j x Hx). pose proof (Hno2 j x Hx) as Hr%Z.eqb_neq.
      split; [lia|]. intros [? ?]. apply (Hn j x Hx); [lia|done|done].
Qed.

(** Entry [dp] is a locked directory, in a transaction. *)
Record at_dir (f : fsys B) (L : list Z) (dp : nat) (x : inode) : Prop := {
  ad_tx : tx (f_blk f) L [];
  ad_geom : geom home (f_sb f) ds;
  ad_ip : f_itable f !! dp = Some x;
  ad_dev : i_dev x = dev;
  ad_type : d_type (i_data x) = T_DIR;
  ad_file : file_ok (bview (f_blk f)) (i_data x) ds (sb_size (f_sb f));
  ad_size : d_size (i_data x) mod 16 = 0
}.

Lemma scan_run (f : fsys B) L dp x g msg :
  at_dir f L dp x -> (length L < 20)%nat ->
  let l := dents (bview (f_blk f)) (i_data x) in
  exists s', dir_scan (scan_fuel x) dp g msg 0 f =
      Ret ((fun j => (16 * Z.of_nat j, l !!! j)) <$> first_index g l) (set_blk s' f) /\
    tx s' L [] /\ (forall y, bview s' y = bview (f_blk f) y).
Proof.
  intros [T G Hx Hd Ht Hok Hm] HL. unfold scan_fuel. change (Z.of_nat sizeof_dirent) with 16. fold (dcount (i_data x)).
  destruct (dir_scan_run g msg (S (S (dcount (i_data x)))) f L dp x 0 T G Hx Hd Hok HL Hm) as (s' & E & T' & V'); [lia|lia|].
  exists s'. change (16 * Z.of_nat 0) with 0 in E. rewrite drop_0 in E. done.
Qed.

Lemma dirlookup_run (f : fsys B) L dp x name :
  at_dir f L dp x -> (length L < 20)%nat -> itable_inv (f_itable f) ->
  let l := dents (bview (f_blk f)) (i_data x) in
  match first_index (dmatch name) l with
  | None => exists s', dirlookup dp name f = Ret None (set_blk s' f) /\ tx s' L [] /\ (forall y, bview s' y = bview (f_blk f) y)
  | Some j =>
      (exists ip s' t', dirlookup dp name f = Ret (Some (ip, 16 * Z.of_nat j)) (mkFsys s' (f_sb f) t' (f_me f)) /\
         gotten (f_itable f) dev (de_inum (l !!! j)) ip t' /\ tx s' L [] /\ (forall y, bview s' y = bview (f_blk f) y)) \/
      dirlookup dp name f = Panic "iget: no inodes" /\ Forall (fun y => 0 < i_ref y) (f_itable f)
  end.
Proof.
  intros A HL I l. destruct (scan_run f L dp x (dmatch name) "dirlookup read" A HL) as (s' & E & T' & V').
  destruct A as [T G Hx Hd Ht Hok Hm]. fold l in E.
  assert (Ed : dirlookup dp name f =
    (r ← dir_scan (scan_fuel x) dp (dmatch name) "dirlookup read" 0;
     match r with Some (off, de) => ip ← iget dev (de_inum de); mret (Some (ip, off)) | None => mret None end) f).
  { unfold dirlookup. rewrite (bind_geti dp _ f x Hx), Ht, Hd. reflexivity. }
  destruct (first_index (dmatch name) l) as [j|]; rewrite Ed, (bind_Ret _ _ _ _ _ E); cbn [fmap option_fmap option_map].
  2:{ by exists s'. }
  destruct (iget_run (set_blk s' f) dev (de_inum (l !!! j)) I) as [(ip & t' & Eg & Hg)|[Eg Hall]].
  - left. exists ip, s', t'. rewrite (bind_Ret _ _ _ _ _ Eg). done.
  - right. rewrite (bind_Panic _ _ _ _ Eg). split; [done|]. apply Forall_forall. intros y Hy. by apply Hall.
Qed.

(** ** A new entry *)
Definition new_dent (inum : Z) (name : list Z) : list Z := le_bytes 2 inum ++ pad_name name.

Lemma length_new_dent inum name : length (new_dent inum name) = 16%nat.
Proof.
  unfold new_dent, pad_name. rewrite !length_app, length_le_bytes, length_replicate, length_take.
  change (Z.to_nat DIRSIZ) with 14%nat. lia.
Qed.

Lemma strncmp_pad n s : Forall (fun c => c <> 0) s -> strncmp_seq n s (take n s ++ replicate (n - length (take n s)) 0) = 0.
Proof.
  revert s. induction n as [|n IH]; intros s Hs; [done|]. destruct Hs as [|c s Hc Hs]; [done|].
  cbn [take app length strncmp_seq hd tail]. rewrite (proj2 (Z.eqb_neq c 0) Hc), Z.eqb_refl. cbn [negb andb].
  replace (S n - S (length (take n s)))%nat with (n - length (take n s))%nat by lia. by apply IH.
Qed.

Lemma dmatch_new inum name : Forall (fun c => c <> 0) name -> 0 < inum < 2 ^ 16 ->
  dmatch name (new_dent inum name) = true /\ de_inum (new_dent inum name) = inum.
Proof.
  intros Hs Hi. assert (Ei : de_inum (new_dent inum name) = inum).
  { unfold de_inum, getn, new_dent. rewrite drop_0, take_app_length' by (by rewrite length_le_bytes).
    rewrite le_val_bytes. apply Z.mod_small. change (256 ^ Z.of_nat 2) with (2 ^ 16). lia. }
  split; [|done]. unfold dmatch. rewrite Ei, (proj2 (Z.eqb_neq inum 0)) by lia. cbn [negb andb].
  assert (En : de_name (new_dent inum name) = pad_name name).
  { unfold de_name, new_dent. rewrite drop_app_length' by (by rewrite length_le_bytes). apply take_ge. unfold pad_name.
    rewrite length_app, length_replicate, length_take. lia. }
  rewrite En. unfold namecmp, pad_name. by rewrite strncmp_pad.
Qed.

(** Where [dirlink] puts the entry: the first free one, or the end. *)
Definition dslot (l : list (list Z)) : nat := default (length l) (first_index (fun de => de_inum de =? 0) l).

Lemma dents_stored (f : fsys B) x k e s' d' :
  d_size (i_data x) mod 16 = 0 -> (k <= dcount (i_data x))%nat -> length e = 16%nat -> 0 <= d_size (i_data x) ->
  stored dev ds f x (16 * Z.of_nat k) e 16 s' d' ->
  let l := dents (bview (f_blk f)) (i_data x) in
  dents (bview s') d' = take k l ++ e :: drop (S k) l.
Proof.
  intros Hm Hk He H0 [_ _ _ _ Hs Hb _ _] l. set (n := dcount (i_data x)) in *. unfold dcount in n.
  assert (Hn : d_size (i_data x) = 16 * Z.of_nat n) by (unfold n; Z.to_euclidean_division_equations; lia).
  assert (Hn' : dcount d' = Nat.max n (S k)).
  { unfold dcount. rewrite Hs, Hn. replace (Z.max _ _) with (Z.of_nat (Nat.max n (S k)) * 16) by lia. rewrite Z.div_mul by lia. lia. }
  assert (Hlen : length l = n) by (unfold l; apply length_dents).
  assert (Hlt : length (take k l) = k) by (rewrite length_take; lia).
  apply list_eq. intros i. destruct (decide (i < dcount d')%nat) as [Hi|Hi].
  2:{ rewrite !(proj2 (lookup_ge_None _ _)); [done| |rewrite length_dents; lia].
      rewrite length_app, Hlt. cbn [length]. rewrite length_drop. lia. }
  rewrite lookup_dents by done. assert (Hde : dent (bview s') d' i = if Nat.eqb i k then e else dent (bview (f_blk f)) (i_data x) i).
  { unfold dent. apply list_eq. intros j. destruct (decide (j < 16)%nat) as [Hj|Hj].
    - assert (Ef : forall v d, fbytes v d (16 * Z.of_nat i) 16 !! j = Some (fbyte v d (16 * Z.of_nat i + Z.of_nat j))).
      { intros v d. unfold fbytes, zseq. rewrite !list_lookup_fmap, lookup_seq_lt by done. cbn [fmap option_fmap option_map Nat.add].
        do 2 f_equal. lia. }
      rewrite Ef, Hb by lia. destruct (Nat.eqb_spec i k) as [->|Hne].
      + rewrite inr_true by lia. rewrite (list_lookup_lookup_total_lt e j) by lia. do 2 f_equal. lia.
      + rewrite inr_false by lia. by rewrite Ef.
    - rewrite !(proj2 (lookup_ge_None _ _)); [done| |].
      + destruct (Nat.eqb i k); [lia|]. unfold fbytes, zseq. rewrite !length_fmap, length_seq. lia.
      + unfold fbytes, zseq. rewrite !length_fmap, length_seq. lia. }
  rewrite Hde. destruct (Nat.eqb_spec i k) as [->|Hne].
  - rewrite lookup_app_r, Hlt, Nat.sub_diag by lia. done.
  - destruct (decide (i < k)%nat).
    + rewrite lookup_app_l by lia. rewrite lookup_take_lt by done. unfold l. by rewrite lookup_dents by (fold n; unfold dcount; lia).
    + rewrite lookup_app_r, Hlt by lia. replace (i - k)%nat with (S (i - S k)) by lia.
      change ((e :: drop (S k) l) !! S (i - S k)) with (drop (S k) l !! (i - S k)%nat).
      rewrite lookup_drop. unfold l. replace (S k + (i - S k))%nat with i by lia.
      by rewrite lookup_dents by (unfold dcount; lia).
Qed.

(** The entry is found again. *)
Lemma first_dmatch l k name e :
  first_index (dmatch name) l = None -> (k <= length l)%nat -> dmatch name e = true ->
  first_index (dmatch name) (take k l ++ e :: drop (S k) l) = Some k.
Proof.
  intros Hn Hk He. apply first_index_Some. pose proof (proj1 (first_index_None _ _) Hn) as Hno.
  assert (Hlt : length (take k l) = k) by (rewrite length_take; lia). split.
  - exists e. rewrite lookup_app_r, Hlt, Nat.sub_diag by lia. done.
  - intros j y Hj. rewrite lookup_app_l, lookup_take_lt by lia. apply Hno.
Qed.

Lemma dslot_le l : (dslot l <= length l)%nat.
Proof. unfold dslot. destruct (first_index _ l) eqn:E; cbn; [|lia]. apply first_index_lt in E. lia. Qed.

(** [dirlookup] returns the inode of the first entry in use whose name
    is [name], with the offset of the entry; the pointer is the one entry of the
    inode table for that inode, with one more reference.  It returns 0 when no
    entry matches, changing nothing, and panics only when all entries of the
    inode table are in use. *)
Theorem dirlookup_correct (f : fsys B) L dp x name :
  at_dir f L dp x -> (length L < 20)%nat -> itable_inv (f_itable f) ->
  let l := dents (bview (f_blk f)) (i_data x) in
  match first_index (dmatch name) l with
  | None => exists s', dirlookup dp name f = Ret None (set_blk s' f) /\ tx s' L [] /\ (forall y, bview s' y = bview (f_blk f) y)
  | Some j =>
      (exists ip s' t', dirlookup dp name f = Ret (Some (ip, 16 * Z.of_nat j)) (mkFsys s' (f_sb f) t' (f_me f)) /\
         gotten (f_itable f) dev (de_inum (l !!! j)) ip t' /\ tx s' L [] /\ (forall y, bview s' y = bview (f_blk f) y)) \/
      dirlookup dp name f = Panic "iget: no inodes" /\ Forall (fun y => 0 < i_ref y) (f_itable f)
  end.
Proof. apply dirlookup_run. Qed.

(** C30: [dirlink] of a name the directory does not have puts the entry in
    the first free slot, or at the end, and leaves the other entries alone; a
    lookup of the name then finds it.  It fails only when the disk is full. *)
Theorem dirlink_correct (f : fsys B) L dp x name inum :
  at_dir f L dp x -> (length L <= 4)%nat -> itable_inv (f_itable f) ->
  0 <= i_inum x < sb_ninodes (f_sb f) -> dinode_ok (i_data x) ->
  finv (sb_bmapstart (f_sb f)) ds (sb_size (f_sb f)) (bview (f_blk f)) (i_data x) ->
  d_size (i_data x) + 16 <= MAXFILE * BSIZE -> Forall (fun c => c <> 0) name -> 0 < inum < 2 ^ 16 ->
  let l := dents (bview (f_blk f)) (i_data x) in
  first_index (dmatch name) l = None ->
  exists s' d' L', tx s' L' [] /\
    ((dirlink dp name inum f = Ret 0 (set_file dp x d' s' f) /\
      dents (bview s') d' = take (dslot l) l ++ new_dent inum name :: drop (S (dslot l)) l /\
      first_index (dmatch name) (dents (bview s') d') = Some (dslot l) /\
      de_inum (dents (bview s') d' !!! dslot l) = inum) \/
     (dirlink dp name inum f = Ret (-1) (set_file dp x d' s' f) /\
      forall b, 0 <= b < sb_size (f_sb f) -> usedv (sb_bmapstart (f_sb f)) (bview s') b = true)).
Proof.
  intros A HL I Hi Hdo Hfi Hroom Hs Hn l Hno.
  pose proof (dirlookup_run f L dp x name A ltac:(lia) I) as D. cbv zeta in D. fold l in D. rewrite Hno in D.
  destruct D as (s1 & E1 & T1 & V1). destruct A as [T G Hx Hd Ht Hok Hm]. unfold dirlink. rewrite (bind_Ret _ _ _ _ _ E1).
  rewrite (bind_geti dp _ (set_blk s1 f) x Hx).
  assert (A1 : at_dir (set_blk s1 f) L dp x).
  { split; try done. eapply file_ok_ext; [intros y; symmetry; apply V1|exact Hok]. }
  assert (El1 : dents (bview s1) (i_data x) = l) by (unfold l, dents; apply list_fmap_ext; intros ? ? _; by apply fbytes_ext).
  destruct (scan_run (set_blk s1 f) L dp x (fun de => de_inum de =? 0) "dirlink read" A1 ltac:(lia)) as (s2 & E2 & T2 & V2).
  cbn [f_blk set_blk] in E2, V2. rewrite El1 in E2. rewrite (bind_Ret _ _ _ _ _ E2). change (set_blk s2 (set_blk s1 f)) with (set_blk s2 f).
  pose proof (fo_size _ _ _ _ Hok) as Hsz. pose proof (dslot_le l) as Hk. pose proof (length_dents (bview (f_blk f)) (i_data x)) as Hll.
  fold l in Hll.
  set (off := match (_ <$> first_index _ l) with Some _ => _ | None => _ end).
  assert (Hoff : off = 16 * Z.of_nat (dslot l)).
  { unfold off, dslot. destruct (first_index (fun de => de_inum de =? 0) l); cbn [fmap option_fmap option_map default from_option]; [done|].
    change (Z.of_nat sizeof_dirent) with 16. cbn [id]. rewrite Hll. apply dcount_end; [lia|done]. }
  clearbody off. subst off. fold (new_dent inum name). set (e := new_dent inum name).
  assert (V02 : forall y, bview s2 y = bview (f_blk f) y) by (intros y; by rewrite V2, V1).
  destruct (writek_run dev ds (set_blk s2 f) L dp x (16 * Z.of_nat (dslot l)) e 1 T2 G Hx Hd Hi Hdo) as (r & s3 & d3 & L3 & E3 & T3 & _ & S3).
  - eapply finv_ext; [intros y; symmetry; apply V02|exact Hfi].
  - rewrite Hll in Hk. unfold dcount in Hk. Z.to_euclidean_division_equations. lia.
  - rewrite (length_new_dent inum name : length e = 16%nat). rewrite Hll in Hk. unfold dcount in Hk.
    Z.to_euclidean_division_equations. lia.
  - rewrite (length_new_dent inum name : length e = 16%nat), BSIZE_eq. Z.to_euclidean_division_equations. lia.
  - lia.
  - rewrite (bind_Ret _ _ _ _ _ E3). change (set_file dp x d3 s3 (set_blk s2 f)) with (set_file dp x d3 s3 f).
    exists s3, d3, L3. split; [done|]. change (Z.of_nat sizeof_dirent) with 16. destruct (Z.eqb_spec r 16) as [->|Hr].
    + left. split; [reflexivity|].
      assert (Ed : dents (bview s3) d3 = take (dslot l) l ++ e :: drop (S (dslot l)) l).
      { assert (El2 : dents (bview s2) (i_data x) = l) by (unfold l, dents; apply list_fmap_ext; intros ? ? _; by apply fbytes_ext).
        rewrite (dents_stored (set_blk s2 f) x (dslot l) e s3 d3 Hm ltac:(lia) (length_new_dent inum name) ltac:(lia) S3).
        cbn [f_blk set_blk]. by rewrite El2. }
      rewrite Ed. destruct (dmatch_new inum name Hs Hn) as [Hmt Hin]. fold e in Hmt, Hin. split; [done|]. split.
      * by apply first_dmatch.
      * rewrite lookup_total_app_r by (rewrite length_take; lia). rewrite length_take, Nat.min_l, Nat.sub_diag by lia. exact Hin.
    + right. split; [reflexivity|]. intros b Hb. apply (st_full _ _ _ _ _ _ _ _ _ S3); [|done].
      pose proof (st_r _ _ _ _ _ _ _ _ _ S3). rewrite (length_new_dent inum name : length e = 16%nat) in *. lia.
Qed.
End dir.
