(* ===== verification/FsPath.v ===== *)
(** Paths, kernel/fs.c [skipelem] and [namex].

    [elements] splits a path at its slashes the way one would specify it;
    [skipelem] takes the elements off one by one, so that the walk of [namex]
    ends after as many steps as the path has elements. *)
From S2P Require Import Prelude Riscv PhysMem Bytes Bio BlockIface FsIface Fs FsData.

(** The pieces between slashes, and those that are not empty. *)
Fixpoint pieces (path : list Z) : list (list Z) :=
  match path with
  | [] => [[]]
  | c :: rest =>
      if c =? slash then [] :: pieces rest
      else match pieces rest with w :: ws => (c :: w) :: ws | [] => [[c]] end
  end.
Definition nonempty (w : list Z) : bool := match w with [] => false | _ => true end.
Definition elements (path : list Z) : list (list Z) := List.filter nonempty (pieces path).

Lemma elements_slash path : elements (slash :: path) = elements path.
Proof. reflexivity. Qed.

Lemma elements_skip path : elements (skip_slashes path) = elements path.
Proof.
  induction path as [|c path IH]; [done|]. cbn [skip_slashes]. destruct (Z.eqb_spec c slash) as [->|]; [|done].
  by rewrite elements_slash.
Qed.

Lemma skip_slashes_head path c rest : skip_slashes path = c :: rest -> c <> slash.
Proof.
  induction path as [|a path IH]; [done|]. cbn [skip_slashes]. destruct (Z.eqb_spec a slash); [done|]. intros [= <- <-]. done.
Qed.

Lemma skip_slashes_len path : (length (skip_slashes path) <= length path)%nat.
Proof. induction path as [|a path IH]; [done|]. cbn [skip_slashes length]. destruct (a =? slash); cbn [length]; lia. Qed.

Lemma until_slash_spec path e rest : until_slash path = (e, rest) ->
  (path = e ++ rest) /\ (slash ∉ e) /\ (rest = [] \/ (exists r, rest = slash :: r)).
Proof.
  revert e rest. induction path as [|c path IH]; intros e rest; cbn [until_slash].
  - intros [= <- <-]. set_solver.
  - destruct (Z.eqb_spec c slash) as [->|Hc].
    + intros [= <- <-]. split; [done|]. split; [set_solver|]. right. by exists path.
    + destruct (until_slash path) as [e0 r0] eqn:E. intros [= <- <-]. destruct (IH _ _ eq_refl) as (-> & Hn & Hr).
      split; [done|]. split; [|done]. rewrite elem_of_cons. intros [?|?]; congruence.
Qed.

Lemma pieces_app e r : slash ∉ e -> pieces (e ++ slash :: r) = e :: pieces r.
Proof.
  induction e as [|c e IH]; intros Hn; [done|]. cbn [app pieces]. rewrite (proj2 (Z.eqb_neq c slash)) by set_solver.
  by rewrite IH by set_solver.
Qed.
Lemma pieces_one e : slash ∉ e -> pieces e = [e].
Proof.
  induction e as [|c e IH]; intros Hn; [done|]. cbn [pieces]. rewrite (proj2 (Z.eqb_neq c slash)) by set_solver.
  by rewrite IH by set_solver.
Qed.

Lemma skip_slashes_nil path : elements path = [] -> skip_slashes path = [].
Proof.
  rewrite <- elements_skip. destruct (skip_slashes path) as [|c r] eqn:E; [done|]. pose proof (skip_slashes_head _ _ _ E) as Hc.
  unfold elements. cbn [pieces]. rewrite (proj2 (Z.eqb_neq c slash)) by done. by destruct (pieces r).
Qed.

Lemma skipelem_run path :
  match skipelem path with
  | None => elements path = []
  | Some (name, rest) => exists e, elements path = e :: elements rest /\ name = take 14 e /\
      (rest = [] <-> elements rest = []) /\ (length rest < length path)%nat
  end.
Proof.
  unfold skipelem. destruct (skip_slashes path) as [|c q] eqn:E.
  { rewrite <- elements_skip, E. done. }
  pose proof (skip_slashes_head _ _ _ E) as Hc. destruct (until_slash (c :: q)) as [e rest] eqn:Eu.
  pose proof (until_slash_spec _ _ _ Eu) as (Ep & Hn & Hr).
  assert (Hne : e <> []). { intros ->. cbn in Ep. destruct Hr as [->|[r ->]]; [done|]. injection Ep as -> _. done. }
  assert (Hlen : (length (skip_slashes rest) < length path)%nat).
  { pose proof (skip_slashes_len rest). pose proof (skip_slashes_len path) as Hl. rewrite E, Ep, length_app in Hl.
    destruct e; [done|]. cbn [length] in Hl. lia. }
  exists e. rewrite elements_skip. split; [|split; [done|split; [|done]]].
  - rewrite <- (elements_skip path), E, Ep. unfold elements at 1. destruct Hr as [->|[r ->]].
    + rewrite app_nil_r, pieces_one by done. by destruct e.
    + rewrite pieces_app by done. cbn [List.filter]. destruct e; [done|]. cbn [nonempty]. by rewrite elements_slash.
  - split; [intros H; rewrite <- elements_skip, H; done|apply skip_slashes_nil].
Qed.

(** [skipelem] takes the first element off a path, cut to the length a
    directory entry holds, and leaves a path with the remaining elements, which
    is empty exactly when no element remains; it returns 0 when the path has no
    element.  The rest is shorter than the path. *)
Theorem skipelem_correct path :
  match skipelem path with
  | None => elements path = []
  | Some (name, rest) => exists e, elements path = e :: elements rest /\ name = take 14 e /\
      (rest = [] <-> elements rest = []) /\ (length rest < length path)%nat
  end.
Proof. apply skipelem_run. Qed.

Section walk.
Context {B : Type} `{BO : !BlockOps B}.

(** The walk of a path ends: with more fuel than the path has bytes the
    loop of [namex] never runs out, whatever the directories contain, so that
    more fuel changes nothing. *)
Theorem namex_terminates path : forall fuel fuel' ip nip name (f : fsys B),
  (length path < fuel)%nat -> (length path < fuel')%nat ->
  namex_loop fuel ip path nip name f = namex_loop fuel' ip path nip name f.
Proof.
  induction path as [path IH] using (induction_ltof1 _ (@length Z)); unfold ltof in IH.
  intros [|fuel] [|fuel'] ip nip name f Hf Hf'; [lia..|]. cbn [namex_loop].
  pose proof (skipelem_run path) as H. destruct (skipelem path) as [[name' rest]|]; [|done].
  destruct H as (_ & _ & _ & _ & Hlt). unfold mbind, M_bind.
  destruct (ilock ip f) as [[] f1|e|c f1|]; try done. destruct (geti ip f1) as [x f2|e|c f2|]; try done.
  destruct (negb (d_type (i_data x) =? T_DIR)); [done|]. destruct (nip && bool_decide (rest = [])); [done|].
  destruct (dirlookup ip name' f2) as [[[next off]|] f3|e|c f3|]; try done.
  destruct (iunlockput ip f3) as [[] f4|e|c f4|]; try done. apply IH; lia.
Qed.
End walk.
