(* ===== verification/File.v ===== *)
(** Open files, kernel/file.c, and [pipealloc] of kernel/pipe.c.

    The file table is an array of [NFILE] entries with reference counts.  What
    the entries stand for - pipes, inodes, devices - is below: [FileEnv] lists
    the calls file.c makes, on the state [T] of those layers. *)
From S2P Require Import Prelude Riscv PhysMem Bytes Bio FsIface.

Inductive ftype : Type := FD_NONE | FD_PIPE | FD_INODE | FD_DEVICE.

#[global] Instance ftype_eq_dec : EqDecision ftype.
Proof. solve_decision. Defined.

Record file : Type := mkFile {
  f_type : ftype; f_ref : Z; f_readable : Z; f_writable : Z; f_pipe : Z; f_ip : Z; f_off : Z; f_major : Z }.

#[global] Instance file_inhabited : Inhabited file := populate (mkFile FD_NONE 0 0 0 0 0 0 0).

Definition NFILE : nat := 100.
Definition NDEV : Z := 10.

Class FileEnv (T : Type) : Type := {
  fe_pipeclose : Z -> bool -> M T unit;
  fe_piperead : Z -> Z -> Z -> M T Z;
  fe_pipewrite : Z -> Z -> Z -> M T Z;
  (** [kalloc] of a pipe, and its fields set to those of an empty open pipe *)
  fe_kalloc : M T Z;
  fe_pipeinit : Z -> M T unit;
  fe_begin_op : M T unit;
  fe_end_op : M T unit;
  fe_iput : Z -> M T unit;
  fe_ilock : Z -> M T unit;
  fe_iunlock : Z -> M T unit;
  (** [readi(ip, 1, addr, off, n)] and [writei(ip, 1, addr, off, n)] *)
  fe_readi : Z -> Z -> Z -> Z -> M T Z;
  fe_writei : Z -> Z -> Z -> Z -> M T Z;
  (** the bytes of the [struct stat] that [stati] fills *)
  fe_stati : Z -> M T (list Z);
  (** [copyout(myproc()->pagetable, addr, bytes)] *)
  fe_copyout : Z -> list Z -> M T Z;
  (** [devsw[major].read] and [.write], if not null *)
  fe_devread : Z -> option (Z -> Z -> M T Z);
  fe_devwrite : Z -> option (Z -> Z -> M T Z)
}.

Record fst_ (T : Type) : Type := mkFst { ftable : list file; fenv : T }.
Arguments mkFst {T}.
Arguments ftable {T}.
Arguments fenv {T}.

Definition set_fref (n : Z) (f : file) : file := mkFile (f_type f) n (f_readable f) (f_writable f) (f_pipe f) (f_ip f) (f_off f) (f_major f).
Definition set_foff (n : Z) (f : file) : file := mkFile (f_type f) (f_ref f) (f_readable f) (f_writable f) (f_pipe f) (f_ip f) n (f_major f).
(** [ref = 0] and [type = FD_NONE] *)
Definition clear_file (f : file) : file := mkFile FD_NONE 0 (f_readable f) (f_writable f) (f_pipe f) (f_ip f) (f_off f) (f_major f).
Definition pipe_end (r w pi : Z) (f : file) : file := mkFile FD_PIPE (f_ref f) r w pi (f_ip f) (f_off f) (f_major f).

Section file.
Context {T : Type} `{FE : !FileEnv T}.

Definition low {A} (m : M T A) : M (fst_ T) A := zoom fenv (fun t s => mkFst (ftable s) t) m.
Definition getf (i : nat) : M (fst_ T) file := gets (fun s => ftable s !!! i).
Definition modf (i : nat) (h : file -> file) : M (fst_ T) unit :=
  modS (fun s => mkFst (<[i := h (ftable s !!! i)]> (ftable s)) (fenv s)).

(** The loader has cleared the table. *)
Definition fileinit : M (fst_ T) unit := mret tt.

Definition filealloc : M (fst_ T) (option nat) :=
  s ← getS;
  match first_index (fun f => f_ref f =? 0) (ftable s) with
  | Some i => _ ← modf i (set_fref 1); mret (Some i)
  | None => mret None
  end.

Definition filedup (i : nat) : M (fst_ T) nat :=
  f ← getf i;
  if f_ref f <? 1 then panic "filedup" else _ ← modf i (set_fref (f_ref f + 1)); mret i.

(** What the last close gives up. *)
Definition file_release (ff : file) : M T unit :=
  match f_type ff with
  | FD_PIPE => fe_pipeclose (f_pipe ff) (negb (f_writable ff =? 0))
  | FD_INODE | FD_DEVICE => _ ← fe_begin_op; _ ← fe_iput (f_ip ff); fe_end_op
  | FD_NONE => mret tt
  end.

Definition fileclose (i : nat) : M (fst_ T) unit :=
  f ← getf i;
  if f_ref f <? 1 then panic "fileclose"
  else
    _ ← modf i (set_fref (f_ref f - 1));
    if 0 <? f_ref f - 1 then mret tt
    else
      ff ← getf i;
      _ ← modf i clear_file;
      low (file_release ff).

Definition filestat (i : nat) (addr : Z) : M (fst_ T) Z :=
  f ← getf i;
  match f_type f with
  | FD_INODE | FD_DEVICE =>
      _ ← low (fe_ilock (f_ip f));
      st ← low (fe_stati (f_ip f));
      _ ← low (fe_iunlock (f_ip f));
      r ← low (fe_copyout addr st);
      mret (if r <? 0 then -1 else 0)
  | _ => mret (-1)
  end.

Definition dev_call (f : file) (op : Z -> option (Z -> Z -> M T Z)) (addr n : Z) : M (fst_ T) Z :=
  if (f_major f <? 0) || (NDEV <=? f_major f) then mret (-1)
  else match op (f_major f) with None => mret (-1) | Some h => low (h addr n) end.

Definition fileread (i : nat) (addr n : Z) : M (fst_ T) Z :=
  f ← getf i;
  if f_readable f =? 0 then mret (-1)
  else
    match f_type f with
    | FD_PIPE => low (fe_piperead (f_pipe f) addr n)
    | FD_DEVICE => dev_call f fe_devread addr n
    | FD_INODE =>
        _ ← low (fe_ilock (f_ip f));
        r ← low (fe_readi (f_ip f) addr (f_off f) n);
        _ ← (if 0 <? r then modf i (fun f => set_foff (u32 (f_off f + r)) f) else mret tt);
        _ ← low (fe_iunlock (f_ip f));
        mret r
    | FD_NONE => panic "fileread"
    end.

(** Bytes per transaction. *)
Definition write_max : Z := ((MAXOPBLOCKS - 1 - 1 - 2) / 2) * BSIZE.

(** The loop of [filewrite], from [i] on; the result is the final [i]. *)
Fixpoint filewrite_loop (fuel : nat) (fd : nat) (addr n i : Z) : M (fst_ T) Z :=
  match fuel with
  | O => diverge
  | S fuel =>
      if i <? n then
        let n1 := if write_max <? n - i then write_max else n - i in
        f ← getf fd;
        _ ← low fe_begin_op;
        _ ← low (fe_ilock (f_ip f));
        r ← low (fe_writei (f_ip f) (u64 (addr + i)) (f_off f) n1);
        _ ← (if 0 <? r then modf fd (fun f => set_foff (u32 (f_off f + r)) f) else mret tt);
        _ ← low (fe_iunlock (f_ip f));
        _ ← low fe_end_op;
        if negb (r =? n1) then mret i else filewrite_loop fuel fd addr n (i + r)
      else mret i
  end.

Definition filewrite (fd : nat) (addr n : Z) : M (fst_ T) Z :=
  f ← getf fd;
  if f_writable f =? 0 then mret (-1)
  else
    match f_type f with
    | FD_PIPE => low (fe_pipewrite (f_pipe f) addr n)
    | FD_DEVICE => dev_call f fe_devwrite addr n
    | FD_INODE =>
        i ← filewrite_loop (S (S (Z.to_nat (n / write_max)))) fd addr n 0;
        mret (if i =? n then n else -1)
    | FD_NONE => panic "filewrite"
    end.

(** [pipealloc]: the two ends, or none. *)
Definition pipealloc : M (fst_ T) (option (nat * nat)) :=
  f0 ← filealloc;
  match f0 with
  | None => mret None
  | Some f0 =>
      f1 ← filealloc;
      match f1 with
      | None => _ ← fileclose f0; mret None
      | Some f1 =>
          pi ← low fe_kalloc;
          if pi =? 0 then _ ← fileclose f0; _ ← fileclose f1; mret None
          else
            _ ← low (fe_pipeinit pi);
            _ ← modf f0 (pipe_end 1 0 pi);
            _ ← modf f1 (pipe_end 0 1 pi);
            mret (Some (f0, f1))
      end
  end.
End file.
