(* ===== verification/FileProofs.v ===== *)
(** The theorems about kernel/file.c: reference counts under any sequence of
    operations, whatever the release of the last reference does (it may return,
    sleep or panic), and writes in several transactions, of which the last may
    stop early. *)
From S2P Require Import Prelude Riscv PhysMem Bytes Bio FsIface File.

(** ** Reference counts *)
Inductive fop : Type := OAlloc | ODup (i : nat) | OClose (i : nat).

Section refs.
Context {T : Type} `{FE : !FileEnv T}.

(** [h i]: how many references to entry [i] the kernel has.  The entry's count
    says so, and a free entry has no type. *)
Record ft_inv (s : fst_ T) (h : nat -> nat) : Prop := {
  ft_len : length (ftable s) = NFILE;
  ft_ref : forall i f, ftable s !! i = Some f -> f_ref f = Z.of_nat (h i);
  ft_out : forall i, (NFILE <= i)%nat -> h i = 0%nat;
  ft_none : forall i f, ftable s !! i = Some f -> f_ref f = 0 -> f_type f = FD_NONE
}.

Definition bump (h : nat -> nat) (i n : nat) : nat -> nat := fun j => if Nat.eqb j i then n else h j.

(** One operation; a duplicate or a close is of a reference that exists. *)
Definition fop_run (o : fop) : M (fst_ T) (option nat) :=
  match o with
  | OAlloc => filealloc
  | ODup i => j ← filedup i; mret (Some j)
  | OClose i => _ ← fileclose i; mret None
  end.
Definition fop_legal (o : fop) (h : nat -> nat) : Prop :=
  match o with OAlloc => True | ODup i | OClose i => (0 < h i)%nat end.
(** The references after it returned [r]. *)
Definition fop_refs (o : fop) (r : option nat) (h : nat -> nat) : nat -> nat :=
  match o, r with
  | OAlloc, Some i => bump h i 1
  | OAlloc, None => h
  | ODup i, _ => bump h i (h i + 1)
  | OClose i, _ => bump h i (h i - 1)
  end.

Lemma ft_set s h i f n t' :
  ft_inv s h -> (i < NFILE)%nat -> f_ref f = Z.of_nat n -> (n = 0%nat -> f_type f = FD_NONE) ->
  ft_inv (mkFst (<[i := f]> (ftable s)) t') (bump h i n).
Proof.
  intros [L R O N] Hi Hf Hn. split; cbn [ftable].
  - by rewrite length_insert.
  - intros j g. unfold bump. rewrite list_lookup_insert_Some. destruct (Nat.eqb_spec j i); naive_solver.
  - intros j Hj. unfold bump. destruct (Nat.eqb_spec j i); [lia|by apply O].
  - intros j g. rewrite list_lookup_insert_Some. intros [(-> & <- & _)|[Hne Hg]] H0; [apply Hn; lia|by eapply N].
Qed.

Lemma ft_lookup s h i : ft_inv s h -> (0 < h i)%nat -> (i < NFILE)%nat /\ ftable s !! i = Some (ftable s !!! i).
Proof.
  intros I Hh. assert (Hi : (i < NFILE)%nat) by (destruct (decide (i < NFILE)%nat); [done|]; pose proof (ft_out _ _ I i); lia).
  split; [done|]. apply list_lookup_lookup_total_lt. by rewrite (ft_len _ _ I).
Qed.

(** [filealloc] and [filedup] return; [filealloc] picks an entry nobody refers to. *)
Lemma alloc_step s h : ft_inv s h ->
  exists r tab, filealloc s = Ret r (mkFst tab (fenv s)) /\ ft_inv (mkFst tab (fenv s)) (fop_refs OAlloc r h) /\
    match r with
    | Some i => h i = 0%nat /\ (i < NFILE)%nat
    | None => forall i, (i < NFILE)%nat -> (0 < h i)%nat
    end.
Proof.
  intros I. unfold filealloc. change ((getS ≫= ?k) s) with (k s s). cbv beta. destruct (first_index _ (ftable s)) as [i|] eqn:E.
  - apply first_index_Some in E as [(f & Hf & H0%Z.eqb_eq) _]. exists (Some i). eexists. split; [reflexivity|].
    pose proof (ft_ref _ _ I i f Hf). pose proof (lookup_lt_Some _ _ _ Hf) as Hi. rewrite (ft_len _ _ I) in Hi.
    split; [|split; [lia|done]]. by apply ft_set.
  - exists None, (ftable s). split; [by destruct s|]. split; [by destruct s|]. intros i Hi. pose proof (proj1 (first_index_None _ _) E) as Hno.
    assert (Hx : ftable s !! i = Some (ftable s !!! i)) by (apply list_lookup_lookup_total_lt; by rewrite (ft_len _ _ I)).
    pose proof (Hno i _ Hx) as H0%Z.eqb_neq. rewrite (ft_ref _ _ I i _ Hx) in H0. lia.
Qed.

Lemma dup_step s h i : ft_inv s h -> (0 < h i)%nat ->
  exists tab, filedup i s = Ret i (mkFst tab (fenv s)) /\ ft_inv (mkFst tab (fenv s)) (bump h i (h i + 1)).
Proof.
  intros I Hl. destruct (ft_lookup s h i I Hl) as [Hi Hx]. pose proof (ft_ref _ _ I i _ Hx) as Hr. eexists. split.
  - unfold filedup, getf, gets, mbind, M_bind. rewrite (proj2 (Z.ltb_ge (f_ref (ftable s !!! i)) 1)) by lia. reflexivity.
  - apply ft_set; [done|done|cbn; lia|lia].
Qed.

(** The entry after a close: one reference less, and no type with the last. *)
Definition closed_entry (f : file) : file := if 0 <? f_ref f - 1 then set_fref (f_ref f - 1) f else clear_file f.

(** [fileclose] takes the reference off the table first; then, for the last one,
    it is the release of what the entry stood for. *)
Lemma close_step s h i : ft_inv s h -> (0 < h i)%nat ->
  let f := ftable s !!! i in
  let tab := <[i := closed_entry f]> (ftable s) in
  fileclose i s = (if Nat.eqb (h i) 1 then low (file_release f) (mkFst tab (fenv s)) else Ret tt (mkFst tab (fenv s))) /\
  forall t, ft_inv (mkFst tab t) (bump h i (h i - 1)).
Proof.
  intros I Hl f tab. destruct (ft_lookup s h i I Hl) as [Hi Hx]. pose proof (ft_ref _ _ I i _ Hx) as Hr. fold f in Hr, Hx.
  set (s1 := mkFst (<[i := set_fref (f_ref f - 1) f]> (ftable s)) (fenv s)).
  assert (Ef : ftable s1 !!! i = set_fref (f_ref f - 1) f) by (apply list_lookup_total_insert_eq; by rewrite (ft_len _ _ I)).
  unfold tab, closed_entry. destruct (Nat.eqb_spec (h i) 1) as [E1|E1].
  - rewrite (proj2 (Z.ltb_ge 0 (f_ref f - 1))) by lia. split; [|intros t; apply ft_set; [done|done|cbn; lia|done]].
    unfold fileclose. change ((getf i ≫= ?k) s) with (k f s). cbv beta. rewrite (proj2 (Z.ltb_ge (f_ref f) 1)) by lia.
    change ((modf i ?g ≫= ?k) s) with (k tt s1). cbv beta. rewrite (proj2 (Z.ltb_ge 0 (f_ref f - 1))) by lia.
    change ((getf i ≫= ?k) s1) with (k (ftable s1 !!! i) s1). cbv beta. rewrite Ef.
    change ((modf i clear_file ≫= ?k) s1) with (k tt (mkFst (<[i := clear_file (ftable s1 !!! i)]> (ftable s1)) (fenv s1))). cbv beta.
    rewrite Ef. unfold s1 at 1. cbn [ftable]. rewrite list_insert_insert_eq. reflexivity.
  - rewrite (proj2 (Z.ltb_lt 0 (f_ref f - 1))) by lia. split; [|intros t; apply ft_set; [done|done|cbn; lia|lia]].
    unfold fileclose. change ((getf i ≫= ?k) s) with (k f s). cbv beta. rewrite (proj2 (Z.ltb_ge (f_ref f) 1)) by lia.
    change ((modf i ?g ≫= ?k) s) with (k tt s1). cbv beta. by rewrite (proj2 (Z.ltb_lt 0 (f_ref f - 1))) by lia.
Qed.

(** Any sequence of operations that use only references that exist. A close whose
    release sleeps has already given up its reference; what it does when it goes
    on, like everything else that happens below, changes the layers below only. *)
Inductive freach (s0 : fst_ T) (h0 : nat -> nat) : fst_ T -> (nat -> nat) -> Prop :=
  | freach_refl : freach s0 h0 s0 h0
  | freach_step s h o r s' : freach s0 h0 s h -> fop_legal o h -> fop_run o s = Ret r s' -> freach s0 h0 s' (fop_refs o r h)
  | freach_sleep s h o ch s' : freach s0 h0 s h -> fop_legal o h -> fop_run o s = Block ch s' -> freach s0 h0 s' (fop_refs o None h)
  | freach_below s h t' : freach s0 h0 s h -> freach s0 h0 (mkFst (ftable s) t') h.

Lemma low_Block {A} (m : M T A) s ch s' : low m s = Block ch s' -> ftable s' = ftable s.
Proof. unfold low, zoom. destruct (m (fenv s)); try discriminate. by intros [= _ <-]. Qed.

Lemma low_Ret_table {A} (m : M T A) s a s' : low m s = Ret a s' -> ftable s' = ftable s.
Proof. unfold low, zoom. destruct (m (fenv s)); try discriminate. by intros [= _ <-]. Qed.

Lemma fop_keeps s h o : ft_inv s h -> fop_legal o h ->
  match fop_run o s with
  | Ret r s' => ft_inv s' (fop_refs o r h)
  | Block _ s' => ft_inv s' (fop_refs o None h)
  | _ => True
  end.
Proof.
  intros I Hl. destruct o as [|i|i]; cbn [fop_run fop_legal fop_refs] in *.
  - destruct (alloc_step s h I) as (r & tab & -> & I' & _). exact I'.
  - destruct (dup_step s h i I Hl) as (tab & E & I'). by rewrite (bind_Ret _ _ _ _ _ E).
  - destruct (close_step s h i I Hl) as [E I']. cbv zeta in E. unfold mbind, M_bind. rewrite E. destruct (Nat.eqb (h i) 1); [|apply I'].
    set (s1 := mkFst _ _). destruct (low (file_release (ftable s !!! i)) s1) as [[] s'|e|ch s'|] eqn:El; try done.
    + apply low_Ret_table in El. destruct s' as [tab' t']. cbn in El. subst tab'. apply I'.
    + apply low_Block in El. destruct s' as [tab' t']. cbn in El. subst tab'. apply I'.
Qed.

(** C33: However the kernel allocates, duplicates and closes open files, never
    using a reference it has given up, and whatever the layers below do, closes
    that sleep included: the count of each entry is the number of references to
    it, and an entry without references is free and has no type. In every such
    state [filealloc] returns an entry that nobody refers to, or fails when every
    entry is in use; [filedup] returns; and [fileclose] first takes the reference
    off the table, and then returns, unless it was the last one: then it is
    exactly the release of what the entry stood for, with the entry free again,
    so that it panics or sleeps only if [pipeclose], or [begin_op], [iput] and
    [end_op], do. *)
Theorem file_refs s0 h0 s h :
  ft_inv s0 h0 -> freach s0 h0 s h ->
  ft_inv s h /\
  (exists r s', filealloc s = Ret r s' /\ fenv s' = fenv s /\
     match r with
     | Some i => h i = 0%nat /\ (i < NFILE)%nat
     | None => forall i, (i < NFILE)%nat -> (0 < h i)%nat
     end) /\
  (forall i, (0 < h i)%nat -> exists s', filedup i s = Ret i s' /\ fenv s' = fenv s) /\
  (forall i, (0 < h i)%nat ->
     exists s1, fenv s1 = fenv s /\ ft_inv s1 (bump h i (h i - 1)) /\
       fileclose i s = (if Nat.eqb (h i) 1 then low (file_release (ftable s !!! i)) s1 else Ret tt s1)).
Proof.
  intros I0 H. assert (I : ft_inv s h).
  { induction H as [|s h o r s' H IH Hl E|s h o ch s' H IH Hl E|s h t' H IH]; [done|..].
    - pose proof (fop_keeps s h o IH Hl) as K. by rewrite E in K.
    - pose proof (fop_keeps s h o IH Hl) as K. by rewrite E in K.
    - destruct IH. by split. }
  split; [done|]. split; [|split].
  - destruct (alloc_step s h I) as (r & tab & E & _ & P). by exists r, (mkFst tab (fenv s)).
  - intros i Hi. destruct (dup_step s h i I Hi) as (tab & E & _). by exists (mkFst tab (fenv s)).
  - intros i Hi. destruct (close_step s h i I Hi) as [E I']. by eexists (mkFst _ (fenv s)).
Qed.
End refs.

(** ** Writing *)
(** [d'] is [d] with [bs] from [o] on; the file is extended if [bs] ends beyond it,
    and the bytes after [bs], up to the [n]th from [o], are open. *)
Record stored (d : list Z) (o n : nat) (bs d' : list Z) : Prop := {
  sd_len : length d' = Nat.max (length d) (o + length bs);
  sd_take : take (o + length bs) d' = take o d ++ bs;
  sd_drop : drop (o + n) d' = drop (o + n) d
}.

Class FileLaws (T : Type) `{!FileEnv T} : Type := {
  (** inside a transaction; holding an inode's lock *)
  fl_inv : T -> bool -> option Z -> Prop;
  (** the contents of an inode; the user's bytes from an address *)
  fl_data : T -> Z -> list Z;
  fl_user : T -> Z -> nat -> list Z;
  fl_same (t t' : T) : Prop := (forall ip, fl_data t' ip = fl_data t ip) /\ (forall a n, fl_user t' a n = fl_user t a n);
  fl_user_len : forall t a n, length (fl_user t a n) = n;
  fl_user_app : forall t a n m, 0 <= a -> a + Z.of_nat (n + m) < 2 ^ 64 -> fl_user t a (n + m) = fl_user t a n ++ fl_user t (a + Z.of_nat n) m;
  fl_begin : forall t, fl_inv t false None -> exists t', fe_begin_op t = Ret tt t' /\ fl_inv t' true None /\ fl_same t t';
  fl_end : forall t, fl_inv t true None -> exists t', fe_end_op t = Ret tt t' /\ fl_inv t' false None /\ fl_same t t';
  fl_ilock : forall t ip, fl_inv t true None -> exists t', fe_ilock ip t = Ret tt t' /\ fl_inv t' true (Some ip) /\ fl_same t t';
  fl_iunlock : forall t ip, fl_inv t true (Some ip) -> exists t', fe_iunlock ip t = Ret tt t' /\ fl_inv t' true None /\ fl_same t t';
  (** a write within the room a transaction has stores some first part of it; where
      it stops, a copy from user memory may have failed in the middle of a block, so
      that the bytes up to the end of the range may have changed *)
  fl_writei : forall t ip addr off n, fl_inv t true (Some ip) -> 0 <= off <= Z.of_nat (length (fl_data t ip)) -> 0 < n <= 3 * BSIZE ->
    exists r t', fe_writei ip addr off n t = Ret r t' /\ fl_inv t' true (Some ip) /\ -1 <= r <= n /\
      (forall a m, fl_user t' a m = fl_user t a m) /\
      (forall ip', ip' <> ip -> fl_data t' ip' = fl_data t ip') /\
      stored (fl_data t ip) (Z.to_nat off) (Z.to_nat n) (take (Z.to_nat r) (fl_user t addr (Z.to_nat n))) (fl_data t' ip)
}.

Lemma length_splice_ge l o bs : (o <= length l)%nat -> length (splice l o bs) = Nat.max (length l) (o + length bs).
Proof. intros Ho. unfold splice. rewrite !length_app, length_take, length_drop. lia. Qed.

Lemma splice_splice l o a b : (o <= length l)%nat -> splice (splice l o a) (o + length a) b = splice l o (a ++ b).
Proof.
  intros Ho. unfold splice. rewrite length_app.
  assert (E1 : take (o + length a) (take o l ++ a ++ drop (o + length a) l) = take o l ++ a).
  { rewrite app_assoc, take_app_le by (rewrite length_app, length_take; lia). apply take_ge. rewrite length_app, length_take. lia. }
  rewrite E1, <- !app_assoc. f_equal. f_equal. f_equal. rewrite app_assoc.
  replace (o + length a + length b)%nat with (length (take o l ++ a) + length b)%nat by (rewrite length_app, length_take; lia).
  rewrite drop_app_add, drop_drop. f_equal. lia.
Qed.

Lemma splice_nil l o : splice l o [] = l.
Proof. unfold splice. cbn. rewrite Nat.add_0_r. apply take_drop. Qed.

(** When all [n] bytes are stored nothing is open. *)
Lemma stored_full d o bs d' : stored d o (length bs) bs d' -> d' = splice d o bs.
Proof.
  intros [_ Ht Hd]. unfold splice. rewrite <- (take_drop (o + length bs) d'), Ht, Hd. by rewrite <- app_assoc.
Qed.

Lemma stored_splice d o bs : (o <= length d)%nat -> stored d o (length bs) bs (splice d o bs).
Proof.
  intros Ho. split; [by apply length_splice_ge| |]; unfold splice; rewrite app_assoc.
  - rewrite take_app_le by (rewrite length_app, length_take; lia). apply take_ge. rewrite length_app, length_take. lia.
  - rewrite drop_app_ge by (rewrite length_app, length_take; lia). rewrite length_app, length_take, drop_drop. f_equal. lia.
Qed.

Lemma stored_more d o n n' bs d' : (n <= n')%nat -> stored d o n bs d' -> stored d o n' bs d'.
Proof.
  intros Hn [Hl Ht Hd]. split; [done|done|]. replace (o + n')%nat with (o + n + (n' - n))%nat by lia. by rewrite <- (drop_drop d'), <- (drop_drop d), Hd.
Qed.

Lemma stored_app d o a n b d' : (o <= length d)%nat ->
  stored (splice d o a) (o + length a) n b d' -> stored d o (length a + n) (a ++ b) d'.
Proof.
  intros Ho [Hl Ht Hd]. destruct (stored_splice d o a Ho) as [Hl1 Ht1 Hd1]. split.
  - rewrite Hl, Hl1, length_app. lia.
  - by rewrite length_app, Nat.add_assoc, Ht, Ht1, app_assoc.
  - rewrite Nat.add_assoc, Hd, <- (drop_drop (splice d o a)), <- (drop_drop d), Hd1. done.
Qed.

Section write.
Context {T : Type} `{FE : !FileEnv T} `{FL : !FileLaws T}.

Lemma low_Ret {A} (m : M T A) s a t' : m (fenv s) = Ret a t' -> low m s = Ret a (mkFst (ftable s) t').
Proof. intros E. unfold low, zoom. by rewrite E. Qed.

Lemma BSIZE_eq' : BSIZE = 1024.
Proof. reflexivity. Qed.
Lemma write_max_eq : write_max = 3072.
Proof. reflexivity. Qed.

(** The file [fd] after [k] of the bytes were stored. *)
Record fwrote (s : fst_ T) (fd : nat) (addr : Z) (n k : Z) (s' : fst_ T) : Prop := {
  fw_inv : fl_inv (fenv s') false None;
  fw_file : ftable s' = <[fd := set_foff (f_off (ftable s !!! fd) + k) (ftable s !!! fd)]> (ftable s);
  fw_user : forall a m, fl_user (fenv s') a m = fl_user (fenv s) a m;
  fw_other : forall ip, ip <> f_ip (ftable s !!! fd) -> fl_data (fenv s') ip = fl_data (fenv s) ip;
  fw_data : let ip := f_ip (ftable s !!! fd) in
    stored (fl_data (fenv s) ip) (Z.to_nat (f_off (ftable s !!! fd))) (Z.to_nat n) (take (Z.to_nat k) (fl_user (fenv s) addr (Z.to_nat n)))
      (fl_data (fenv s') ip)
}.

Lemma set_foff_same f : set_foff (f_off f) f = f.
Proof. by destruct f. Qed.

(** One transaction of the loop. *)
Lemma filewrite_chunk s fd a n1 :
  (fd < length (ftable s))%nat -> fl_inv (fenv s) false None ->
  let f := ftable s !!! fd in
  0 <= f_off f <= Z.of_nat (length (fl_data (fenv s) (f_ip f))) -> f_off f + n1 < 2 ^ 32 -> 0 < n1 <= write_max ->
  exists r s1, -1 <= r <= n1 /\
    (_ ← low fe_begin_op; _ ← low (fe_ilock (f_ip f)); r ← low (fe_writei (f_ip f) a (f_off f) n1);
     _ ← (if 0 <? r then modf fd (fun f => set_foff (u32 (f_off f + r)) f) else mret tt);
     _ ← low (fe_iunlock (f_ip f)); _ ← low fe_end_op; mret r) s = Ret r s1 /\ fwrote s fd a n1 (Z.max 0 r) s1.
Proof.
  intros Hfd I f Hoff Hsum Hn1. destruct s as [tab t]. cbn [ftable fenv] in *.
  destruct (fl_begin t I) as (t1 & E1 & I1 & [D1 U1]). rewrite (bind_Ret _ _ _ _ _ (low_Ret fe_begin_op (mkFst tab t) _ _ E1)). cbn [ftable].
  destruct (fl_ilock t1 (f_ip f) I1) as (t2 & E2 & I2 & [D2 U2]). rewrite (bind_Ret _ _ _ _ _ (low_Ret _ (mkFst tab t1) _ _ E2)). cbn [ftable].
  destruct (fl_writei t2 (f_ip f) a (f_off f) n1 I2) as (r & t3 & E3 & I3 & Hr & U3 & O3 & D3); [rewrite D2, D1; exact Hoff|rewrite write_max_eq in Hn1; rewrite BSIZE_eq'; lia|].
  rewrite (bind_Ret _ _ _ _ _ (low_Ret _ (mkFst tab t2) _ _ E3)). cbn [ftable].
  set (tab' := <[fd := set_foff (f_off f + Z.max 0 r) f]> tab).
  rewrite (bind_Ret _ _ _ tt (mkFst tab' t3)).
  2:{ unfold tab'. destruct (Z.ltb_spec 0 r) as [Hp|Hp].
      - unfold modf, modS. cbn [ftable fenv]. fold f. rewrite u32_small by lia. by rewrite Z.max_r by lia.
      - rewrite Z.max_l, Z.add_0_r, set_foff_same by lia. unfold f. rewrite list_insert_id; [done|]. by apply list_lookup_lookup_total_lt. }
  destruct (fl_iunlock t3 (f_ip f) I3) as (t4 & E4 & I4 & [D4 U4]). rewrite (bind_Ret _ _ _ _ _ (low_Ret _ (mkFst tab' t3) _ _ E4)). cbn [ftable].
  destruct (fl_end t4 I4) as (t5 & E5 & I5 & [D5 U5]). rewrite (bind_Ret _ _ _ _ _ (low_Ret _ (mkFst tab' t4) _ _ E5)). cbn [ftable].
  exists r, (mkFst tab' t5). split; [done|]. split; [done|]. split; cbn [ftable fenv].
  - done.
  - done.
  - intros b m. by rewrite U5, U4, U3, U2, U1.
  - intros ip Hip. by rewrite D5, D4, O3, D2, D1.
  - fold f. cbv zeta. rewrite D5, D4. rewrite D2, D1, U2, U1 in D3. by replace (Z.to_nat (Z.max 0 r)) with (Z.to_nat r) by lia.
Qed.

Lemma fwrote_trans s fd a n n1 k s1 s2 :
  (fd < length (ftable s))%nat -> 0 <= f_off (ftable s !!! fd) <= Z.of_nat (length (fl_data (fenv s) (f_ip (ftable s !!! fd)))) ->
  0 <= a -> a + n < 2 ^ 64 -> 0 <= n1 <= n -> 0 <= k ->
  fwrote s fd a n1 n1 s1 -> fwrote s1 fd (a + n1) (n - n1) k s2 -> fwrote s fd a n (n1 + k) s2.
Proof.
  intros Hfd Hoff Ha Hn Hn1 Hk [I1 F1 U1 O1 D1] [I2 F2 U2 O2 D2]. set (f := ftable s !!! fd) in *.
  assert (Ef : ftable s1 !!! fd = set_foff (f_off f + n1) f) by (rewrite F1; by apply list_lookup_total_insert_eq).
  split.
  - done.
  - rewrite F2, Ef, F1. rewrite list_insert_insert_eq. fold f. unfold set_foff. cbn. do 2 f_equal. lia.
  - intros b m. by rewrite U2, U1.
  - intros ip Hip. rewrite O2, O1; [done|done|by rewrite Ef].
  - fold f. cbv zeta in *. rewrite Ef in D2. cbn [f_ip f_off set_foff] in D2. rewrite U1 in D2.
    set (a1 := fl_user (fenv s) a (Z.to_nat n1)) in *. assert (La : length a1 = Z.to_nat n1) by apply fl_user_len.
    rewrite (take_ge a1), <- La in D1 by lia. apply stored_full in D1. rewrite D1 in D2.
    replace (Z.to_nat (f_off f + n1)) with (Z.to_nat (f_off f) + length a1)%nat in D2 by lia. apply stored_app in D2; [|lia].
    replace (Z.to_nat n) with (length a1 + Z.to_nat (n - n1))%nat by lia. rewrite fl_user_app, La by lia. fold a1.
    rewrite (Z2Nat.id n1) by lia. rewrite La in D2. rewrite take_app, La.
    rewrite (take_ge a1 (Z.to_nat (n1 + k))) by lia. by replace (Z.to_nat (n1 + k) - Z.to_nat n1)%nat with (Z.to_nat k) by lia.
Qed.

Lemma filewrite_loop_run fuel fd : forall s addr n i,
  (fd < length (ftable s))%nat -> fl_inv (fenv s) false None ->
  let f := ftable s !!! fd in
  0 <= f_off f <= Z.of_nat (length (fl_data (fenv s) (f_ip f))) ->
  0 <= addr -> addr + n < 2 ^ 64 -> 0 <= i <= n -> f_off f + (n - i) < 2 ^ 32 -> (i < n -> n - i <= write_max * (Z.of_nat fuel - 1)) -> (0 < fuel)%nat ->
  exists j k s', filewrite_loop fuel fd addr n i s = Ret j s' /\ 0 <= k <= n - i /\ (j = n <-> k = n - i) /\ fwrote s fd (addr + i) (n - i) k s'.
Proof.
  induction fuel as [|fuel IH]; intros s addr n i Hfd I f Hoff Ha Hn Hi Hsum Hfuel Hf; [lia|]. cbn [filewrite_loop].
  destruct (Z.ltb_spec i n) as [Hlt|].
  2:{ assert (i = n) as -> by lia. exists n, 0, s. split; [done|]. split; [lia|]. split; [lia|]. rewrite Z.sub_diag.
      split; [done| |done|done|].
      - fold f. rewrite Z.add_0_r, set_foff_same. symmetry. apply list_insert_id. by apply list_lookup_lookup_total_lt.
      - fold f. cbv zeta. rewrite <- (splice_nil (fl_data (fenv s) (f_ip f)) (Z.to_nat (f_off f))) at 2. apply (stored_splice _ _ []). lia. }
  set (n1 := if write_max <? n - i then write_max else n - i).
  assert (Hn1 : 0 < n1 <= write_max /\ n1 <= n - i) by (unfold n1; rewrite write_max_eq; destruct (Z.ltb_spec 3072 (n - i)); lia).
  destruct (filewrite_chunk s fd (u64 (addr + i)) n1 Hfd I Hoff ltac:(fold f; lia) ltac:(lia)) as (r & s1 & Hr & E1 & W1). cbv zeta in E1. fold f in E1.
  change ((getf fd ≫= ?k) s) with (k f s). cbv beta.
  assert (Estep : forall C (k : Z -> M (fst_ T) C), (_ ← low fe_begin_op; _ ← low (fe_ilock (f_ip f)); r ← low (fe_writei (f_ip f) (u64 (addr + i)) (f_off f) n1);
     _ ← (if 0 <? r then modf fd (fun f => set_foff (u32 (f_off f + r)) f) else mret tt);
     _ ← low (fe_iunlock (f_ip f)); _ ← low fe_end_op; k r) s = k r s1).
  { intros C k. revert E1. unfold mbind, M_bind. 
    repeat match goal with |- context [match ?m with Ret _ _ => _ | Panic _ => _ | Block _ _ => _ | Diverge => _ end] => destruct m; try discriminate end.
    intros [= <- <-]. done. }
  rewrite Estep. clear Estep E1. unfold u64 in W1. rewrite Z.mod_small in W1 by lia.
  destruct (Z.eqb_spec r n1) as [->|Hne]; cbn [negb].
  - rewrite Z.max_r in W1 by lia.
    assert (Ef : ftable s1 !!! fd = set_foff (f_off f + n1) f) by (rewrite (fw_file _ _ _ _ _ _ W1); by apply list_lookup_total_insert_eq).
    destruct (IH s1 addr n (i + n1)) as (j & k & s' & E' & Hk & Hj & W').
    + rewrite (fw_file _ _ _ _ _ _ W1). by rewrite length_insert.
    + apply W1.
    + rewrite Ef. cbn [f_off f_ip set_foff]. pose proof (sd_len _ _ _ _ _ (fw_data _ _ _ _ _ _ W1)) as Hl. fold f in Hl. rewrite Hl.
      rewrite length_take, fl_user_len. lia.
    + done.
    + done.
    + lia.
    + rewrite Ef. cbn [f_off set_foff]. lia.
    + intros Hlt'. specialize (Hfuel Hlt). assert (n1 = write_max) by (unfold n1 in *; rewrite write_max_eq in *; destruct (Z.ltb_spec 3072 (n - i)); lia).
      rewrite write_max_eq in *. lia.
    + specialize (Hfuel Hlt). destruct fuel; [rewrite write_max_eq in *; lia|lia].
    + exists j, (n1 + k), s'. rewrite E'. split; [done|]. split; [lia|]. split; [rewrite Hj; lia|].
      apply (fwrote_trans s fd (addr + i) (n - i) n1 k s1 s'); try done; [lia|lia|lia|lia|].
      replace (addr + i + n1) with (addr + (i + n1)) by lia. replace (n - i - n1) with (n - (i + n1)) by lia. exact W'.
  - exists i, (Z.max 0 r), s1. split; [done|]. split; [lia|]. split; [lia|].
    destruct W1 as [I1 F1 U1 O1 D1]. split; [done|done|done|done|]. cbv zeta in *. fold f in D1 |- *.
    apply (stored_more _ _ _ (Z.to_nat (n - i))) in D1; [|lia].
    replace (fl_user (fenv s) (addr + i) (Z.to_nat (n - i)))
      with (fl_user (fenv s) (addr + i) (Z.to_nat n1) ++ fl_user (fenv s) (addr + i + Z.of_nat (Z.to_nat n1)) (Z.to_nat (n - i - n1))).
    + rewrite take_app_le; [done|]. rewrite fl_user_len. lia.
    + rewrite <- fl_user_app by lia. f_equal. lia.
Qed.

(** C32: A write of [n] bytes to an open file runs in transactions of at most
    three blocks and is never left inside one. It returns [n] when all the user's
    bytes are stored at the file's offset, which is the only change of any file;
    else it returns -1, with a first part of them stored. Either way the offset is
    advanced by what was stored, the file is extended only by it, no byte outside
    of the range asked for changes, and no other file does; when a write stops
    early, because of a copy from user memory that failed in the middle of a block,
    the rest of the range may have changed. *)
Theorem filewrite_correct s fd addr n :
  (fd < length (ftable s))%nat -> fl_inv (fenv s) false None ->
  let f := ftable s !!! fd in
  f_writable f <> 0 -> f_type f = FD_INODE ->
  0 <= f_off f <= Z.of_nat (length (fl_data (fenv s) (f_ip f))) ->
  0 <= addr -> addr + n < 2 ^ 64 -> 0 <= n -> f_off f + n < 2 ^ 32 ->
  exists k s', filewrite fd addr n s = Ret (if k =? n then n else -1) s' /\ 0 <= k <= n /\ fwrote s fd addr n k s' /\
    (k = n -> fl_data (fenv s') (f_ip f) = splice (fl_data (fenv s) (f_ip f)) (Z.to_nat (f_off f)) (fl_user (fenv s) addr (Z.to_nat n))).
Proof.
  intros Hfd I f Hw Ht Hoff Ha Hn H0 Hsum. unfold filewrite. change ((getf fd ≫= ?k) s) with (k f s). cbv beta.
  rewrite (proj2 (Z.eqb_neq _ _) Hw), Ht.
  destruct (filewrite_loop_run (S (S (Z.to_nat (n / write_max)))) fd s addr n 0 Hfd I Hoff Ha Hn) as (j & k & s' & E & Hk & Hj & W);
    [lia|fold f; lia|rewrite write_max_eq; intros _; Z.to_euclidean_division_equations; lia|lia|].
  rewrite (bind_Ret _ _ _ _ _ E). rewrite Z.add_0_r, Z.sub_0_r in *. exists k, s'. split; [|split; [done|split; [done|]]].
  - unfold mret, M_ret. f_equal. destruct (Z.eqb_spec j n), (Z.eqb_spec k n); tauto.
  - intros ->. pose proof (fw_data _ _ _ _ _ _ W) as D. cbv zeta in D. fold f in D. rewrite take_ge in D by (rewrite fl_user_len; lia).
    apply stored_full. by rewrite fl_user_len.
Qed.
End write.
