(* ===== verification/ProcTable.v ===== *)
(** The process table, kernel/proc.c.

    [kern] is the kernel as one CPU sees it: memory, the table [proc], the file
    system, the process it runs, the spin locks it holds and the saved contexts.
    [acquire] and [release] keep track of the locks with the panics of
    spinlock.c; the nesting depth [noff] is the number of locks held.  A routine
    runs up to its return or to [sched], where the scheduler takes over: [sched]
    ends the run ([Block]) with the CPU back in [scheduler], which has released
    the process's lock.  What a routine does after a [sleep] is a routine of its
    own ([kwait_resume], [sleep_exit]), run when the scheduler picks the process
    again.  A pointer to [proc[i]] is [proc_ptr i]; a name is its bytes before
    the terminator.  The calls into the file system that only proc.c makes are
    in the class [ProcFs]. *)
From S2P Require Import Prelude Riscv PhysMem Kalloc PageTable Memstat Proc FsIface Swap VmFault Bytes.

Class ProcFs (F : Type) : Type := {
  idup : Z -> M F Z;
  iput : Z -> M F unit;
  filedup : Z -> M F Z;
  namei : list Z -> M F Z
}.

Inductive lockid : Type := LPid | LWait | LProc (i : nat) | LCond (a : Z).

#[global] Instance lockid_eq_dec : EqDecision lockid.
Proof. solve_decision. Defined.

(** Saved registers: [ra], [sp] and the callee-saved ones. *)
Record context : Type := mkCtx { ctx_ra : Z; ctx_sp : Z; ctx_s : list Z }.

Record kern (F : Type) : Type := mkKern {
  kn_pm : pmem; kn_procs : list proc; kn_fs : F; kn_out : list (Z * vm_event);
  kn_cur : option nat; kn_held : list lockid; kn_ctx : list context; kn_nextpid : Z; kn_initproc : Z }.
Arguments mkKern {F}.
Arguments kn_pm {F}.
Arguments kn_procs {F}.
Arguments kn_fs {F}.
Arguments kn_out {F}.
Arguments kn_cur {F}.
Arguments kn_held {F}.
Arguments kn_ctx {F}.
Arguments kn_nextpid {F}.
Arguments kn_initproc {F}.

Definition proc_ptr (i : nat) : Z := Z.of_nat i + 1.
Definition nproc : nat := Z.to_nat NPROC.

Definition zero_page : page_stat := mkPageStat 0 UNMAPPED 0 0 (-1).
#[global] Instance proc_inhabited : Inhabited proc :=
  populate (mkProc (mkSched UNUSED 0 0 0 0 0) (mkSpace 0 0 0 0) (mkFiles [] 0 []) (mkSwap 0 [] 0) (mkMemStat 0 0 0 0 0 [])
    (mkExec 0 0 0 0 0 0 0 0 0 0 0 0 0 0 0) (mkCount 0 0 0 0 0 0)).

Definition state_of (p : proc) : procstate := p_state (p_sched p).
Definition chan (p : proc) : Z := p_chan (p_sched p).
Definition parent (p : proc) : Z := p_parent (p_sched p).
Definition xstate (p : proc) : Z := p_xstate (p_sched p).

Definition set_state (x : procstate) (p : proc) : proc :=
  let s := p_sched p in set_sched (mkSched x (p_chan s) (p_killed s) (p_xstate s) (p_pid s) (p_parent s)) p.
Definition set_chan (c : Z) (p : proc) : proc :=
  let s := p_sched p in set_sched (mkSched (p_state s) c (p_killed s) (p_xstate s) (p_pid s) (p_parent s)) p.
Definition set_parent (x : Z) (p : proc) : proc :=
  let s := p_sched p in set_sched (mkSched (p_state s) (p_chan s) (p_killed s) (p_xstate s) (p_pid s) x) p.
Definition set_pid (x : Z) (p : proc) : proc :=
  let s := p_sched p in set_sched (mkSched (p_state s) (p_chan s) (p_killed s) (p_xstate s) x (p_parent s)) p.
Definition set_xstate (x : Z) (p : proc) : proc :=
  let s := p_sched p in set_sched (mkSched (p_state s) (p_chan s) (p_killed s) x (p_pid s) (p_parent s)) p.

Definition set_trapframe (x : Z) (p : proc) : proc :=
  let m := p_space p in set_space (mkSpace (p_kstack m) (p_sz m) (p_pagetable m) x) p.
Definition set_pagetable (x : Z) (p : proc) : proc :=
  let m := p_space p in set_space (mkSpace (p_kstack m) (p_sz m) x (p_trapframe m)) p.
Definition set_sz (x : Z) (p : proc) : proc :=
  let m := p_space p in set_space (mkSpace (p_kstack m) x (p_pagetable m) (p_trapframe m)) p.
Definition set_kstack (x : Z) (p : proc) : proc :=
  let m := p_space p in set_space (mkSpace x (p_sz m) (p_pagetable m) (p_trapframe m)) p.
Definition set_exec (x : pexec) (p : proc) : proc :=
  mkProc (p_sched p) (p_space p) (p_files p) (p_swap p) (p_memstat p) x (p_count p).
Definition set_exec_ip (x : Z) (p : proc) : proc :=
  let e := p_exec p in
  set_exec (mkExec (text_start e) (text_end e) (data_start e) (data_end e) (heap_start e) (stack_top e) x
    (text_off e) (text_filesz e) (text_memsz e) (text_flags e) (data_off e) (data_filesz e) (data_memsz e) (data_flags e)) p.
Definition set_ofile (l : list Z) (p : proc) : proc := let f := p_files p in set_files (mkFiles l (p_cwd f) (p_name f)) p.
Definition set_cwd (x : Z) (p : proc) : proc := let f := p_files p in set_files (mkFiles (p_ofile f) x (p_name f)) p.
Definition set_name (l : list Z) (p : proc) : proc := let f := p_files p in set_files (mkFiles (p_ofile f) (p_cwd f) l) p.

(** [safestrcpy(s, t, n)] between name arrays, by their bytes before the terminator. *)
Fixpoint cstr (t : list Z) : list Z := match t with c :: t => if c =? 0 then [] else c :: cstr t | [] => [] end.
Definition copy_name (n : nat) (t : list Z) : list Z := take (n - 1) (cstr t).

Section table.
Context `{HL : Layout} {F : Type} `{FO : !FsOps F} `{PF : !ProcFs F} `{PO : !Policy}.
(** The address of [forkret]. *)
Context (forkret_addr : Z).

(** ** Parts of the state *)
Definition proc_at (s : kern F) (i : nat) : proc := kn_procs s !!! i.
Definition set_procs (l : list proc) (s : kern F) : kern F :=
  mkKern (kn_pm s) l (kn_fs s) (kn_out s) (kn_cur s) (kn_held s) (kn_ctx s) (kn_nextpid s) (kn_initproc s).
Definition put_proc (i : nat) (p : proc) (s : kern F) : kern F := set_procs (<[i := p]> (kn_procs s)) s.
Definition set_held (l : list lockid) (s : kern F) : kern F :=
  mkKern (kn_pm s) (kn_procs s) (kn_fs s) (kn_out s) (kn_cur s) l (kn_ctx s) (kn_nextpid s) (kn_initproc s).
Definition set_cur (o : option nat) (s : kern F) : kern F :=
  mkKern (kn_pm s) (kn_procs s) (kn_fs s) (kn_out s) o (kn_held s) (kn_ctx s) (kn_nextpid s) (kn_initproc s).

Definition getp (i : nat) : M (kern F) proc := gets (fun s => proc_at s i).
Definition modpr (i : nat) (h : proc -> proc) : M (kern F) unit := modS (fun s => put_proc i (h (proc_at s i)) s).

(** Code that runs on a part of the state; a wait inside it is for the disk or
    for a lock of the file system. *)
Definition inside {S A} (get : kern F -> S) (set : S -> kern F -> kern F) (m : M S A) : M (kern F) A := fun s =>
  match m (get s) with
  | Ret a x => Ret a (set x s)
  | Panic e => Panic e
  | Block _ x => Block "io" (set x s)
  | Diverge => Diverge
  end.

Definition on_proc {A} (i : nat) (m : M (kst F) A) : M (kern F) A :=
  inside (fun s => mkK (kn_pm s) (proc_at s i) (kn_fs s) (kn_out s))
         (fun k s => mkKern (k_pm k) (<[i := k_p k]> (kn_procs s)) (k_fs k) (k_out k) (kn_cur s) (kn_held s) (kn_ctx s)
            (kn_nextpid s) (kn_initproc s)) m.
Definition on_vm {A} (m : M pmem A) : M (kern F) A :=
  inside kn_pm (fun x s => mkKern x (kn_procs s) (kn_fs s) (kn_out s) (kn_cur s) (kn_held s) (kn_ctx s) (kn_nextpid s) (kn_initproc s)) m.
Definition on_fs {A} (m : M F A) : M (kern F) A :=
  inside kn_fs (fun x s => mkKern (kn_pm s) (kn_procs s) x (kn_out s) (kn_cur s) (kn_held s) (kn_ctx s) (kn_nextpid s) (kn_initproc s)) m.

(** [myproc()], for code that runs in a process. *)
Definition curproc : M (kern F) nat := fun s =>
  match kn_cur s with Some i => Ret i s | None => Panic "no process" end.

Definition acquire (l : lockid) : M (kern F) unit := fun s =>
  if bool_decide (l ∈ kn_held s) then Panic "acquire" else Ret tt (set_held (l :: kn_held s) s).
Definition release (l : lockid) : M (kern F) unit := fun s =>
  if bool_decide (l ∈ kn_held s) then Ret tt (set_held (filter (fun x => x <> l) (kn_held s)) s) else Panic "release".

(** ** Creation and removal *)
Definition procinit : M (kern F) unit :=
  modS (fun s => set_procs (imap (fun i p => set_kstack (KSTACK (Z.of_nat i)) (set_state UNUSED p)) (kn_procs s)) s).

Definition allocpid : M (kern F) Z :=
  _ ← acquire LPid;
  s ← getS;
  _ ← putS (mkKern (kn_pm s) (kn_procs s) (kn_fs s) (kn_out s) (kn_cur s) (kn_held s) (kn_ctx s) (i32 (kn_nextpid s + 1)) (kn_initproc s));
  _ ← release LPid;
  mret (kn_nextpid s).

Definition freeproc (i : nat) : M (kern F) unit :=
  p ← getp i;
  _ ← (if negb (p_trapframe (p_space p) =? 0) then on_vm (kfree (p_trapframe (p_space p))) else mret tt);
  _ ← modpr i (set_trapframe 0);
  _ ← (if negb (pagetable p =? 0) then on_vm (proc_freepagetable (pagetable p) (sz p)) else mret tt);
  _ ← modpr i (set_pagetable 0);
  _ ← (if negb (exec_ip (p_exec p) =? 0) then
         _ ← on_fs (iput (exec_ip (p_exec p))); modpr i (set_exec_ip 0)
       else mret tt);
  modpr i (fun p => set_sched (mkSched UNUSED 0 0 0 0 0) (set_name [] (set_sz 0 p))).

(** The fields that [allocproc] sets for paging. *)
Definition reset_paging (p : proc) : proc :=
  let w := p_swap p in let e := p_exec p in
  mkProc (p_sched p) (p_space p) (p_files p)
    (mkSwap 0 ((fun _ => empty_ent) <$> swap_table w) 0)
    (mkMemStat (pid p) 0 0 0 0 ((fun _ => zero_page) <$> pages (p_memstat p)))
    (mkExec 0 0 0 0 0 0 (exec_ip e) (text_off e) (text_filesz e) (text_memsz e) (text_flags e)
       (data_off e) (data_filesz e) (data_memsz e) (data_flags e))
    (mkCount 0 0 0 0 0 1).

(** The loop that looks for an [UNUSED] entry, from entry [i]; it returns with
    the lock of the entry found. *)
Fixpoint find_unused (fuel : nat) (i : nat) : M (kern F) (option nat) :=
  match fuel with
  | O => mret None
  | S fuel =>
      _ ← acquire (LProc i);
      p ← getp i;
      if bool_decide (state_of p = UNUSED) then mret (Some i)
      else _ ← release (LProc i); find_unused fuel (S i)
  end.

Definition allocproc : M (kern F) (option nat) :=
  r ← find_unused nproc 0;
  match r with
  | None => mret None
  | Some i =>
      pid ← allocpid;
      _ ← modpr i (fun p => reset_paging (set_state USED (set_pid pid p)));
      tf ← on_vm kalloc;
      _ ← modpr i (set_trapframe tf);
      if tf =? 0 then _ ← freeproc i; _ ← release (LProc i); mret None
      else
        pt ← on_vm (proc_pagetable tf);
        _ ← modpr i (set_pagetable pt);
        if pt =? 0 then _ ← freeproc i; _ ← release (LProc i); mret None
        else
          p ← getp i;
          _ ← modS (fun s => mkKern (kn_pm s) (kn_procs s) (kn_fs s) (kn_out s) (kn_cur s) (kn_held s)
                      (<[i := mkCtx forkret_addr (p_kstack (p_space p) + PGSIZE) (replicate 12 0)]> (kn_ctx s)) (kn_nextpid s) (kn_initproc s));
          mret (Some i)
  end.

(** [initproc] and the rest when [allocproc] succeeds; a null pointer is
    dereferenced otherwise. *)
Definition userinit : M (kern F) unit :=
  r ← allocproc;
  match r with
  | None => panic "null pointer"
  | Some i =>
      _ ← modS (fun s => mkKern (kn_pm s) (kn_procs s) (kn_fs s) (kn_out s) (kn_cur s) (kn_held s) (kn_ctx s) (kn_nextpid s) (proc_ptr i));
      cwd ← on_fs (namei [47]);
      _ ← modpr i (set_cwd cwd);
      _ ← modpr i (set_state RUNNABLE);
      release (LProc i)
  end.

Definition growproc (n : Z) : M (kern F) Z :=
  i ← curproc;
  p ← getp i;
  if 0 <? n then
    if TRAPFRAME <? u64 (sz p + n) then mret (-1)
    else
      r ← on_vm (uvmalloc (pagetable p) (sz p) (u64 (sz p + n)) PTE_W);
      if r =? 0 then mret (-1) else _ ← modpr i (set_sz r); mret 0
  else if n <? 0 then
    r ← on_vm (uvmdealloc (pagetable p) (sz p) (u64 (sz p + n))); _ ← modpr i (set_sz r); mret 0
  else _ ← modpr i (set_sz (sz p)); mret 0.

(** ** Sleeping and waking *)
Definition wake1 (c : Z) (p : proc) : proc :=
  if bool_decide (state_of p = SLEEPING) && (chan p =? c) then set_state RUNNABLE p else p.

Fixpoint wakeup_loop (fuel : nat) (c : Z) (i : nat) : M (kern F) unit :=
  match fuel with
  | O => mret tt
  | S fuel =>
      s ← getS;
      _ ← (if bool_decide (kn_cur s = Some i) then mret tt
           else _ ← acquire (LProc i); _ ← modpr i (wake1 c); release (LProc i));
      wakeup_loop fuel c (S i)
  end.
Definition wakeup (c : Z) : M (kern F) unit := wakeup_loop nproc c 0.

(** [sched]: the CPU goes to the scheduler with the process's lock.  Interrupts
    are off because a lock is held, so the last of the four checks cannot fail. *)
Definition sched : M (kern F) unit :=
  i ← curproc;
  s ← getS;
  if negb (bool_decide (LProc i ∈ kn_held s)) then panic "sched p->lock"
  else if negb (length (kn_held s) =? 1)%nat then panic "sched locks"
  else if bool_decide (state_of (proc_at s i) = RUNNING) then panic "sched RUNNING"
  else block "sched".

(** [yield] up to [sched] and after it. *)
Definition yield : M (kern F) unit :=
  i ← curproc; _ ← acquire (LProc i); _ ← modpr i (set_state RUNNABLE); sched.
Definition yield_exit : M (kern F) unit := i ← curproc; release (LProc i).

(** [sleep] up to [sched] and after it. *)
Definition sleep (c : Z) (lk : lockid) : M (kern F) unit :=
  i ← curproc;
  _ ← acquire (LProc i);
  _ ← release lk;
  _ ← modpr i (fun p => set_state SLEEPING (set_chan c p));
  sched.
Definition sleep_exit (lk : lockid) : M (kern F) unit :=
  i ← curproc; _ ← modpr i (set_chan 0); _ ← release (LProc i); acquire lk.

(** One pass of the scheduler over the table from entry [i]; [run j] is the CPU
    running process [j] until it comes back through [sched].  The result is
    [found]. *)
Fixpoint scheduler_pass (run : nat -> M (kern F) unit) (fuel : nat) (i : nat) (found : bool) : M (kern F) bool :=
  match fuel with
  | O => mret found
  | S fuel =>
      _ ← acquire (LProc i);
      p ← getp i;
      found ← (if bool_decide (state_of p = RUNNABLE) then
                 _ ← modpr i (set_state RUNNING);
                 _ ← modS (set_cur (Some i));
                 _ ← run i;
                 _ ← modS (set_cur None);
                 mret true
               else mret found);
      _ ← release (LProc i);
      scheduler_pass run fuel (S i) found
  end.
Definition scheduler (run : nat -> M (kern F) unit) : M (kern F) bool :=
  _ ← modS (set_cur None); scheduler_pass run nproc 0 false.

(** The scheduler's choice of process [i]: what it does before [swtch]. *)
Definition pick (i : nat) : M (kern F) unit :=
  _ ← acquire (LProc i);
  p ← getp i;
  if bool_decide (state_of p = RUNNABLE) then _ ← modpr i (set_state RUNNING); modS (set_cur (Some i))
  else panic "not runnable".

(** ** fork, exit, wait, kill *)
Definition sizeof_trapframe : Z := 288.
Definition tf_a0 : Z := 112.

(** The child's open files: [filedup] of each of the parent's. *)
Fixpoint dup_files (i : nat) (l : list Z) (k : nat) : M (kern F) unit :=
  match l with
  | [] => mret tt
  | f :: l =>
      _ ← (if negb (f =? 0) then
             g ← on_fs (filedup f); modpr i (fun p => set_ofile (<[k := g]> (p_ofile (p_files p))) p)
           else mret tt);
      dup_files i l (S k)
  end.

(** What [kfork] copies for lazy mapping, all of [pexec] but [exec_ip]. *)
Definition copy_exec (e : pexec) (p : proc) : proc :=
  set_exec (mkExec (text_start e) (text_end e) (data_start e) (data_end e) (heap_start e) (stack_top e) (exec_ip (p_exec p))
    (text_off e) (text_filesz e) (text_memsz e) (text_flags e) (data_off e) (data_filesz e) (data_memsz e) (data_flags e)) p.

Definition kfork : M (kern F) Z :=
  c ← curproc;
  r ← allocproc;
  match r with
  | None => mret (-1)
  | Some n =>
      p ← getp c;
      np ← getp n;
      rc ← on_vm (uvmcopy (pagetable p) (pagetable np) (sz p));
      if rc <? 0 then _ ← freeproc n; _ ← release (LProc n); mret (-1)
      else
        _ ← modpr n (set_sz (sz p));
        _ ← on_vm (modS (fun m => mkPmem (store64 (CString.memmove (pm_mem m) (p_trapframe (p_space np)) (p_trapframe (p_space p)) sizeof_trapframe)
                                       (p_trapframe (p_space np) + tf_a0) 0) (freelist m)));
        _ ← dup_files n (p_ofile (p_files p)) 0;
        cwd ← on_fs (idup (p_cwd (p_files p)));
        _ ← modpr n (set_cwd cwd);
        _ ← modpr n (set_name (copy_name 16 (p_name (p_files p))));
        _ ← modpr n (copy_exec (p_exec p));
        _ ← (if negb (exec_ip (p_exec p) =? 0) then
               ip ← on_fs (idup (exec_ip (p_exec p))); modpr n (set_exec_ip ip)
             else mret tt);
        np ← getp n;
        _ ← release (LProc n);
        _ ← acquire LWait;
        _ ← modpr n (set_parent (proc_ptr c));
        _ ← release LWait;
        _ ← acquire (LProc n);
        _ ← modpr n (set_state RUNNABLE);
        _ ← release (LProc n);
        mret (pid np)
  end.

Fixpoint reparent_loop (fuel : nat) (p : nat) (i : nat) : M (kern F) unit :=
  match fuel with
  | O => mret tt
  | S fuel =>
      pp ← getp i;
      _ ← (if parent pp =? proc_ptr p then
             s ← getS; _ ← modpr i (set_parent (kn_initproc s)); wakeup (kn_initproc s)
           else mret tt);
      reparent_loop fuel p (S i)
  end.
Definition reparent (p : nat) : M (kern F) unit := reparent_loop nproc p 0.

Fixpoint close_files (i : nat) (fuel : nat) (fd : nat) : M (kern F) unit :=
  match fuel with
  | O => mret tt
  | S fuel =>
      p ← getp i;
      let f := p_ofile (p_files p) !!! fd in
      _ ← (if negb (f =? 0) then
             _ ← on_fs (fileclose f); modpr i (fun p => set_ofile (<[fd := 0]> (p_ofile (p_files p))) p)
           else mret tt);
      close_files i fuel (S fd)
  end.

Definition kexit (status : Z) : M (kern F) unit :=
  i ← curproc;
  s ← getS;
  if proc_ptr i =? kn_initproc s then panic "init exiting"
  else
    _ ← close_files i NOFILE 0;
    p ← getp i;
    _ ← on_fs begin_op;
    _ ← on_fs (iput (p_cwd (p_files p)));
    _ ← on_fs end_op;
    _ ← modpr i (set_cwd 0);
    p ← getp i;
    _ ← (if negb (swapfile (p_swap p) =? 0) then
           n ← on_proc i swapfile_cleanup; on_proc i (printf (EvSwapcleanup n))
         else mret tt);
    _ ← acquire LWait;
    _ ← reparent i;
    p ← getp i;
    _ ← wakeup (parent p);
    _ ← acquire (LProc i);
    _ ← modpr i (fun p => set_state ZOMBIE (set_xstate status p));
    _ ← release LWait;
    _ ← sched;
    panic "zombie exit".

(** The scan of [kwait] for exited children: what [kwait] returns, or whether
    there are children. *)
Fixpoint kwait_scan (fuel : nat) (me : nat) (addr : Z) (j : nat) (havekids : bool) : M (kern F) (Z + bool) :=
  match fuel with
  | O => mret (Datatypes.inr havekids)
  | S fuel =>
      pp ← getp j;
      if parent pp =? proc_ptr me then
        _ ← acquire (LProc j);
        pp ← getp j;
        if bool_decide (state_of pp = ZOMBIE) then
          p ← getp me;
          rc ← (if negb (addr =? 0) then on_proc me (copyout (pagetable p) addr (le_bytes 4 (xstate pp))) else mret 0);
          if rc <? 0 then _ ← release (LProc j); _ ← release LWait; mret (inl (-1))
          else _ ← freeproc j; _ ← release (LProc j); _ ← release LWait; mret (inl (pid pp))
        else _ ← release (LProc j); kwait_scan fuel me addr (S j) true
      else kwait_scan fuel me addr (S j) havekids
  end.

(** [kwait] from the loop head. *)
Definition kwait_loop (addr : Z) : M (kern F) Z :=
  i ← curproc;
  r ← kwait_scan nproc i addr 0 false;
  match r with
  | inl v => mret v
  | Datatypes.inr havekids =>
      _ ← (if (havekids : bool) then acquire (LProc i) else mret tt);
      p ← getp i;
      _ ← (if (havekids : bool) then release (LProc i) else mret tt);
      if negb havekids || negb (p_killed (p_sched p) =? 0) then _ ← release LWait; mret (-1)
      else _ ← sleep (proc_ptr i) LWait; mret (-1)
  end.
Definition kwait (addr : Z) : M (kern F) Z := _ ← acquire LWait; kwait_loop addr.
Definition kwait_resume (addr : Z) : M (kern F) Z := _ ← sleep_exit LWait; kwait_loop addr.

Definition kill1 (p : proc) : proc :=
  let p := set_killed_flag p in if bool_decide (state_of p = SLEEPING) then set_state RUNNABLE p else p.

Fixpoint kkill_loop (fuel : nat) (pd : Z) (i : nat) : M (kern F) Z :=
  match fuel with
  | O => mret (-1)
  | S fuel =>
      _ ← acquire (LProc i);
      p ← getp i;
      if pid p =? pd then _ ← modpr i kill1; _ ← release (LProc i); mret 0
      else _ ← release (LProc i); kkill_loop fuel pd (S i)
  end.
Definition kkill (pd : Z) : M (kern F) Z := kkill_loop nproc pd 0.

(** ** Copies that may be to the kernel *)
Definition either_copyout (user_dst : bool) (dst : Z) (src : list Z) : M (kst F) Z :=
  p ← myproc;
  if user_dst then copyout (pagetable p) dst src
  else _ ← vm (modS (fun m => mkPmem (store_bytes (pm_mem m) dst src) (freelist m))); mret 0.

Definition either_copyin (user_src : bool) (src len : Z) : M (kst F) (Z * list Z) :=
  p ← myproc;
  if user_src then copyin (pagetable p) src len
  else k ← getS; mret (0, load_bytes (pm_mem (k_pm k)) src (Z.to_nat len)).

(** ** The listing of [procdump] *)
Definition state_name (x : procstate) : string :=
  match x with
  | UNUSED => "unused" | USED => "used" | SLEEPING => "sleep " | RUNNABLE => "runble" | RUNNING => "run   " | ZOMBIE => "zombie"
  end.
Definition procdump (s : kern F) : list (Z * string * list Z) :=
  (fun p => (pid p, state_name (state_of p), p_name (p_files p))) <$> filter (fun p => state_of p <> UNUSED) (kn_procs s).
End table.
