(* ===== verification/ProcInv.v ===== *)
(** The life of processes: what each routine of kernel/proc.c does to the table.

    [tab] keeps of the table the scheduling fields of each entry ([killed] among
    them), the process the CPU runs, the locks it holds, the next pid and init.
    [wp m Q B s]: if [m] returns from [s], [Q] holds; if it ends in [sched], [B]
    holds. *)
From S2P Require Import Prelude Riscv PhysMem Kalloc PageTable Memstat Proc FsIface Swap VmFault ProcTable.

Abbreviation srec := Proc.sched.

(** An entry whose process is marked as killed. *)
Definition killed_rec (x : srec) : srec := mkSched (p_state x) (p_chan x) 1 (p_xstate x) (p_pid x) (p_parent x).

Record tab : Type := mkTab {
  t_procs : list srec; t_cur : option nat; t_held : list lockid; t_next : Z; t_init : Z }.

Definition tset (i : nat) (x : srec) (t : tab) : tab := mkTab (<[i := x]> (t_procs t)) (t_cur t) (t_held t) (t_next t) (t_init t).
Definition tcur (o : option nat) (t : tab) : tab := mkTab (t_procs t) o (t_held t) (t_next t) (t_init t).
Definition theld (l : list lockid) (t : tab) : tab := mkTab (t_procs t) (t_cur t) l (t_next t) (t_init t).
Definition tnext (n : Z) (t : tab) : tab := mkTab (t_procs t) (t_cur t) (t_held t) n (t_init t).
#[global] Instance sched_inhabited : Inhabited srec := populate (mkSched UNUSED 0 0 0 0 0).
Definition tat (t : tab) (i : nat) : srec := t_procs t !!! i.

Section wp.
Context {F : Type}.

Definition tab_of (s : kern F) : tab := mkTab (p_sched <$> kn_procs s) (kn_cur s) (kn_held s) (kn_nextpid s) (kn_initproc s).

Definition wp {A} (m : M (kern F) A) (Q : A -> kern F -> Prop) (R : kern F -> Prop) (s : kern F) : Prop :=
  match m s with
  | Ret a s' => Q a s'
  | Block c s' => c = "sched" -> R s'
  | Panic _ | Diverge => True
  end.

Lemma wp_bind {A C} (m : M (kern F) A) (k : A -> M (kern F) C) Q R s :
  wp m (fun a s' => wp (k a) Q R s') R s -> wp (m ≫= k) Q R s.
Proof. unfold wp, mbind, M_bind. by destruct (m s). Qed.

Lemma wp_ret {A} (a : A) Q R s : Q a s -> wp (mret a) Q R s.
Proof. done. Qed.

Lemma wp_mono {A} (m : M (kern F) A) (Q Q' : A -> kern F -> Prop) (R R' : kern F -> Prop) s :
  wp m Q R s -> (forall a s', Q a s' -> Q' a s') -> (forall s', R s' -> R' s') -> wp m Q' R' s.
Proof. unfold wp. destruct (m s); auto. Qed.

Lemma wp_getS {A} (k : kern F -> M (kern F) A) Q R s : wp (k s) Q R s -> wp (getS ≫= k) Q R s.
Proof. done. Qed.
Lemma wp_getp {A} i (k : proc -> M (kern F) A) Q R s : wp (k (proc_at s i)) Q R s -> wp (getp i ≫= k) Q R s.
Proof. done. Qed.
Lemma wp_panic {A} e Q R s : @wp A (panic e) Q R s.
Proof. done. Qed.

(** Code inside a part of the state that is not in the table. *)
Lemma wp_vm {A} (m : M pmem A) (Q : A -> kern F -> Prop) R s :
  (forall a s', tab_of s' = tab_of s -> kn_procs s' = kn_procs s -> Q a s') -> wp (on_vm m) Q R s.
Proof. intros H. unfold wp, on_vm, inside. destruct (m (kn_pm s)); [by apply H|done..]. Qed.
Lemma wp_vm_run {A} (m : M pmem A) (Q : A -> kern F -> Prop) R s :
  (forall a s', m (kn_pm s) = Ret a (kn_pm s') -> tab_of s' = tab_of s -> kn_procs s' = kn_procs s -> Q a s') -> wp (on_vm m) Q R s.
Proof. intros H. unfold wp, on_vm, inside. destruct (m (kn_pm s)) eqn:E; [by apply H|done..]. Qed.
Lemma wp_fs {A} (m : M F A) (Q : A -> kern F -> Prop) R s :
  (forall a s', tab_of s' = tab_of s -> kn_procs s' = kn_procs s -> Q a s') -> wp (on_fs m) Q R s.
Proof. intros H. unfold wp, on_fs, inside. destruct (m (kn_fs s)); [by apply H|done..]. Qed.

Lemma lookup_tab s i : (i < length (kn_procs s))%nat -> tat (tab_of s) i = p_sched (proc_at s i).
Proof. intros Hi. unfold tat, tab_of, proc_at. cbn [t_procs]. exact (list_lookup_total_fmap p_sched (kn_procs s) i Hi). Qed.

Lemma tab_put s i p : tab_of (put_proc i p s) = tset i (p_sched p) (tab_of s).
Proof. unfold tab_of, tset, put_proc, set_procs. cbn. by rewrite list_fmap_insert. Qed.

(** A change to a process that keeps its scheduling fields. *)
Lemma tset_same t i x : t_procs t !! i = Some x -> tset i x t = t.
Proof. intros H. unfold tset. rewrite list_insert_id by done. by destruct t. Qed.

Lemma lookup_tab_Some s i : (i < length (kn_procs s))%nat -> t_procs (tab_of s) !! i = Some (p_sched (proc_at s i)).
Proof.
  intros Hi. unfold tab_of, proc_at. cbn [t_procs]. rewrite list_lookup_fmap. by rewrite (list_lookup_lookup_total_lt _ _ Hi).
Qed.

Lemma wp_modpr i h (Q : unit -> kern F -> Prop) R s : Q tt (put_proc i (h (proc_at s i)) s) -> wp (modpr i h) Q R s.
Proof. done. Qed.

Lemma put_same s i h : (forall p, p_sched (h p) = p_sched p) -> tab_of (put_proc i (h (proc_at s i)) s) = tab_of s.
Proof.
  intros Hh. rewrite tab_put, Hh. destruct (decide (i < length (kn_procs s))%nat) as [Hi|Hi].
  - apply tset_same. by apply lookup_tab_Some.
  - unfold tset. rewrite list_insert_ge by (unfold tab_of; cbn [t_procs]; rewrite length_fmap; lia). by destruct (tab_of s).
Qed.

Lemma wp_keep i h (Q : unit -> kern F -> Prop) R s : (forall p, p_sched (h p) = p_sched p) ->
  (forall s', tab_of s' = tab_of s -> Q tt s') -> wp (modpr i h) Q R s.
Proof. intros Hh H. unfold wp, modpr, modS. apply H. by apply put_same. Qed.

Lemma wp_acquire l (Q : unit -> kern F -> Prop) R s :
  (l ∉ kn_held s -> Q tt (set_held (l :: kn_held s) s)) -> wp (acquire l) Q R s.
Proof. intros H. unfold wp, acquire. destruct (bool_decide_reflect (l ∈ kn_held s)); [done|]. by apply H. Qed.
Lemma wp_release l (Q : unit -> kern F -> Prop) R s :
  (l ∈ kn_held s -> Q tt (set_held (filter (fun x => x <> l) (kn_held s)) s)) -> wp (release l) Q R s.
Proof. intros H. unfold wp, release. destruct (bool_decide_reflect (l ∈ kn_held s)); [by apply H|done]. Qed.

Lemma tab_held s l : tab_of (set_held l s) = theld l (tab_of s).
Proof. done. Qed.
Lemma tab_cur s o : tab_of (set_cur o s) = tcur o (tab_of s).
Proof. done. Qed.

Lemma filter_unlock (l : lockid) h : l ∉ h -> filter (fun x => x <> l) (l :: h) = h.
Proof.
  intros Hn. rewrite filter_cons_False by auto. induction h as [|x h IH]; [done|].
  rewrite filter_cons_True by set_solver. f_equal. apply IH. set_solver.
Qed.

(** A lock is taken around an update of one process. *)
Lemma wp_locked l i h (Q : unit -> kern F -> Prop) R s :
  Q tt (put_proc i (h (proc_at s i)) s) ->
  wp (_ ← acquire l; _ ← modpr i h; release l) Q R s.
Proof.
  intros H. apply wp_bind, wp_acquire. intros Hn. apply wp_bind, wp_modpr, wp_release. intros _. cbn [kn_held set_held put_proc set_procs].
  rewrite filter_unlock by done. destruct s. exact H.
Qed.

(** ** [wakeup] *)
Definition twake1 (c : Z) (x : srec) : srec :=
  if bool_decide (p_state x = SLEEPING) && (p_chan x =? c) then mkSched RUNNABLE (p_chan x) (p_killed x) (p_xstate x) (p_pid x) (p_parent x) else x.
Definition twake_at (c : Z) (i : nat) (t : tab) : tab :=
  if bool_decide (t_cur t = Some i) then t else tset i (twake1 c (tat t i)) t.
Fixpoint twake_loop (n : nat) (c : Z) (i : nat) (t : tab) : tab :=
  match n with O => t | S n => twake_loop n c (S i) (twake_at c i t) end.
Definition twake (c : Z) (t : tab) : tab := twake_loop nproc c 0 t.
#[local] Strategy expand [twake wakeup].

Lemma sched_wake c p : p_sched (wake1 c p) = twake1 c (p_sched p).
Proof.
  unfold wake1, twake1, state_of, chan. cbn [p_state p_chan].
  by destruct (bool_decide (p_state (p_sched p) = SLEEPING) && (p_chan (p_sched p) =? c)).
Qed.

Lemma length_tset i x t : length (t_procs (tset i x t)) = length (t_procs t).
Proof. apply length_insert. Qed.

Lemma length_tab s : length (t_procs (tab_of s)) = length (kn_procs s).
Proof. apply length_fmap. Qed.

Lemma wp_wakeup_loop n c R : forall i (Q : unit -> kern F -> Prop) s,
  (i + n <= length (kn_procs s))%nat ->
  (forall s', tab_of s' = twake_loop n c i (tab_of s) -> Q tt s') -> wp (wakeup_loop n c i) Q R s.
Proof.
  induction n as [|n IH]; intros i Q s Hl HQ; [by apply HQ|]. cbn [wakeup_loop]. apply wp_getS, wp_bind.
  set (s1 := if bool_decide (kn_cur s = Some i) then s else put_proc i (wake1 c (proc_at s i)) s).
  assert (H1 : tab_of s1 = twake_at c i (tab_of s)).
  { unfold s1, twake_at. cbn [t_cur tab_of]. destruct (bool_decide (kn_cur s = Some i)); [done|].
    rewrite tab_put, sched_wake. by rewrite lookup_tab by lia. }
  assert (L1 : length (kn_procs s1) = length (kn_procs s)).
  { unfold s1. destruct (bool_decide _); [done|]. cbn. apply length_insert. }
  assert (Hk : wp (wakeup_loop n c (S i)) Q R s1).
  { apply IH; [lia|]. intros s' E. apply HQ. cbn [twake_loop]. by rewrite E, H1. }
  unfold s1 in Hk. destruct (bool_decide (kn_cur s = Some i)); [exact Hk|]. by apply wp_locked.
Qed.

Lemma wp_wakeup c R (Q : unit -> kern F -> Prop) s :
  length (kn_procs s) = nproc -> (forall s', tab_of s' = twake c (tab_of s) -> Q tt s') -> wp (wakeup c) Q R s.
Proof. intros Hl HQ. unfold twake in HQ. unfold wakeup. apply wp_wakeup_loop; [rewrite Hl; apply le_n|exact HQ]. Qed.

Lemma wp_curproc {A} (k : nat -> M (kern F) A) Q R s :
  (forall i, kn_cur s = Some i -> wp (k i) Q R s) -> wp (curproc ≫= k) Q R s.
Proof. intros H. unfold wp, curproc, mbind, M_bind. destruct (kn_cur s) as [i|]; [by apply H|done]. Qed.
End wp.

(** ** Paging and the scheduling fields *)
(** Paging leaves them alone, but a process that gets no memory is marked as killed. *)
Definition may_kill (x y : srec) : Prop := y = x \/ y = killed_rec x.

#[global] Instance may_kill_pre : PreOrder may_kill.
Proof.
  split; [by left|]. intros x y z [->| ->] [->| ->]; [by left|by right..].
Qed.

Section calm.
Context `{HL : Layout} {F : Type} `{FO : !FsOps F} `{PO : !Policy}.
Context (Rl : srec -> srec -> Prop) `{!PreOrder Rl}.

Definition calm {A} (m : M (kst F) A) : Prop := forall k,
  match m k with Ret _ k' => Rl (p_sched (k_p k)) (p_sched (k_p k')) | _ => True end.

Lemma calm_bind {A C} (m : M (kst F) A) (h : A -> M (kst F) C) : calm m -> (forall a, calm (h a)) -> calm (m ≫= h).
Proof.
  intros Hm Hh k. unfold mbind, M_bind. specialize (Hm k). destruct (m k) as [a k1|e|c k1|]; try done.
  specialize (Hh a k1). destruct (h a k1); [by etransitivity|done..].
Qed.
Lemma calm_vm {A} (m : M pmem A) : calm (vm m).
Proof. intros k. unfold vm, zoom. by destruct (m (k_pm k)). Qed.
Lemma calm_fs {A} (m : M F A) : calm (fs m).
Proof. intros k. unfold fs, zoom. by destruct (m (k_fs k)). Qed.
Lemma calm_ret {A} (a : A) : calm (mret a).
Proof. intros k. cbn. reflexivity. Qed.
Lemma calm_panic {A} e : @calm A (panic e).
Proof. done. Qed.
Lemma calm_diverge {A} : @calm A diverge.
Proof. done. Qed.
Lemma calm_modp h : (forall p, Rl (p_sched p) (p_sched (h p))) -> calm (modp h).
Proof. intros H k. apply H. Qed.
Lemma calm_gets {A} (g : kst F -> A) : calm (gets g).
Proof. intros k. cbn. reflexivity. Qed.
Lemma calm_getS : calm getS.
Proof. intros k. cbn. reflexivity. Qed.
Lemma calm_printf e : calm (printf e).
Proof. intros k. cbn. reflexivity. Qed.
End calm.

Ltac calm1 :=
  lazymatch goal with
  | |- calm _ (let '(_, _) := ?x in _) => destruct x as [??]
  | |- calm _ (_ ≫= _) => apply calm_bind; [apply _| |intros ?]
  | |- calm _ (mret _) => apply calm_ret; apply _
  | |- calm _ (panic _) => apply calm_panic
  | |- calm _ diverge => apply calm_diverge
  | |- calm _ (vm _) => apply calm_vm; apply _
  | |- calm _ (fs _) => apply calm_fs; apply _
  | |- calm _ (printf _) => apply calm_printf; apply _
  | |- calm _ getS => apply calm_getS; apply _
  | |- calm _ myproc => apply calm_gets; apply _
  | |- calm _ setkilled => apply calm_modp; intros []; right; reflexivity
  | |- calm _ (modswap _) => apply calm_modp; intros []; reflexivity
  | |- calm _ (modmemstat _) => apply calm_modp; intros []; reflexivity
  | |- calm _ (modcount _) => apply calm_modp; intros []; reflexivity
  | |- calm _ (if ?b then _ else _) => destruct b
  | |- calm _ (match ?x with _ => _ end) => destruct x
  end.
Ltac calm_tac := repeat (cbv zeta; calm1).

Section paging.
Context `{HL : Layout} {F : Type} `{FO : !FsOps F} `{PO : !Policy}.

Lemma calm_swapfile_cleanup : calm eq swapfile_cleanup.
Proof. unfold swapfile_cleanup. calm_tac. Qed.
Lemma calm_swapfile_create : calm may_kill swapfile_create.
Proof. unfold swapfile_create. calm_tac. Qed.
Lemma calm_swapout va pa : calm may_kill (proc_swapout_page va pa).
Proof. unfold proc_swapout_page. calm_tac; apply calm_swapfile_create. Qed.
Lemma calm_evict i algo : calm may_kill (evict i algo).
Proof. unfold evict. calm_tac; apply calm_swapout. Qed.
Lemma calm_try_kalloc va : calm may_kill (try_kalloc_or_replace va).
Proof. unfold try_kalloc_or_replace. calm_tac; apply calm_evict. Qed.
Lemma calm_vmfault pt va : calm may_kill (vmfault pt va).
Proof. unfold vmfault, store_buf. calm_tac; apply calm_try_kalloc. Qed.
Lemma calm_fault_addr pt va : calm may_kill (fault_addr pt va).
Proof. unfold fault_addr. calm_tac. apply calm_vmfault. Qed.
Lemma calm_copyout pt va src : calm may_kill (copyout pt va src).
Proof.
  unfold copyout. generalize (S (S (S (length src / Z.to_nat PGSIZE)))). intros fuel. revert va src.
  induction fuel as [|fuel IH]; intros va src; cbn [copyout_loop]; [apply calm_diverge|].
  destruct src as [|b src]; [calm_tac|]. cbv zeta. destruct (MAXVA <=? PGROUNDDOWN va); [calm_tac|].
  apply calm_bind; [apply _|apply calm_fault_addr|intros pa]. unfold store_buf. calm_tac. apply IH.
Qed.
End paging.

Section ops.
Context `{HL : Layout} {F : Type} `{FO : !FsOps F} `{PF : !ProcFs F} `{PO : !Policy} (fa : Z).
Implicit Types (s : kern F) (t : tab).

Definition nlen s : Prop := length (kn_procs s) = nproc.
Lemma nlen_tab s s' : length (t_procs (tab_of s')) = length (t_procs (tab_of s)) -> nlen s -> nlen s'.
Proof. rewrite !length_tab. unfold nlen. congruence. Qed.

Lemma nlen_same s s' : tab_of s' = tab_of s -> nlen s -> nlen s'.
Proof. intros E. apply nlen_tab. by rewrite E. Qed.

(** The lock of an entry is taken and given back around a test. *)
Lemma held_back s l : l ∉ kn_held s -> set_held (filter (fun x => x <> l) (l :: kn_held s)) (set_held (l :: kn_held s) s) = s.
Proof. intros H. rewrite filter_unlock by done. by destruct s. Qed.

(** The free entry that [allocproc] takes. *)
Definition first_free (t : tab) : option nat := first_index (fun x => bool_decide (p_state x = UNUSED)) (t_procs t).

Lemma wp_find_unused n R : forall i (Q : option nat -> kern F -> Prop) s,
  (i + n = length (kn_procs s))%nat ->
  (forall j, (j < i)%nat -> state_of (proc_at s j) <> UNUSED) ->
  (first_free (tab_of s) = None -> Q None s) ->
  (forall j, first_free (tab_of s) = Some j -> LProc j ∉ kn_held s -> Q (Some j) (set_held (LProc j :: kn_held s) s)) ->
  wp (find_unused n i) Q R s.
Proof.
  assert (Hat : forall s j x, t_procs (tab_of s) !! j = Some x -> (j < length (kn_procs s))%nat /\ p_state x = state_of (proc_at s j)).
  { intros s j x Hx. pose proof (lookup_lt_Some _ _ _ Hx) as Hj. rewrite length_tab in Hj. split; [done|].
    rewrite lookup_tab_Some in Hx by done. by injection Hx as <-. }
  induction n as [|n IH]; intros i Q s Hl Hpre HN HQ.
  - apply wp_ret, HN, first_index_None. intros j x Hx. destruct (Hat s j x Hx) as [Hj E]. apply bool_decide_eq_false. rewrite E. apply Hpre. lia.
  - cbn [find_unused]. apply wp_bind, wp_acquire. intros Hn. apply wp_getp.
    change (proc_at (set_held (LProc i :: kn_held s) s) i) with (proc_at s i).
    destruct (bool_decide_reflect (state_of (proc_at s i) = UNUSED)) as [E|E].
    + apply wp_ret. apply HQ; [|done]. apply first_index_Some. split.
      * exists (p_sched (proc_at s i)). split; [apply lookup_tab_Some; lia|]. by apply bool_decide_eq_true.
      * intros j x Hj Hx. destruct (Hat s j x Hx) as [_ Ex]. apply bool_decide_eq_false. rewrite Ex. by apply Hpre.
    + apply wp_bind, wp_release. intros _. cbn [kn_held set_held]. rewrite held_back by done. apply IH; [lia| |done|done].
      intros j Hj. destruct (decide (j = i)) as [->|]; [done|]. apply Hpre. lia.
Qed.

Lemma first_free_lt s i : first_free (tab_of s) = Some i -> (i < length (kn_procs s))%nat /\ p_state (tat (tab_of s) i) = UNUSED.
Proof.
  intros H. pose proof (first_index_lt _ _ _ H) as Hi. rewrite length_tab in Hi. split; [done|].
  apply first_index_Some in H as [(x & Hx & Hu) _]. apply bool_decide_eq_true in Hu. rewrite lookup_tab by done.
  rewrite lookup_tab_Some in Hx by done. by injection Hx as <-.
Qed.

Lemma wp_allocpid R (Q : Z -> kern F -> Prop) s :
  (forall s', tab_of s' = tnext (i32 (kn_nextpid s + 1)) (tab_of s) -> kn_procs s' = kn_procs s -> kn_pm s' = kn_pm s -> Q (kn_nextpid s) s') ->
  wp allocpid Q R s.
Proof.
  intros HQ. unfold allocpid. apply wp_bind, wp_acquire. intros Hn. apply wp_getS, wp_bind. unfold wp at 1, putS. apply wp_bind, wp_release.
  intros _. cbn [kn_held set_held]. rewrite filter_unlock by done. apply wp_ret. by apply HQ.
Qed.

Definition zero_sched : srec := mkSched UNUSED 0 0 0 0 0.

Lemma tset_tset i x y t : tset i x (tset i y t) = tset i x t.
Proof. unfold tset. cbn. by rewrite list_insert_insert_eq. Qed.

(** Steps that leave the table alone. *)
Definition passes {A} (m : M (kern F) A) : Prop := forall s,
  match m s with Ret _ s' => tab_of s' = tab_of s | Block c _ => c <> "sched" | _ => True end.

Lemma wp_pass {A} (m : M (kern F) A) (Q : A -> kern F -> Prop) R s :
  passes m -> (forall a s', tab_of s' = tab_of s -> Q a s') -> wp m Q R s.
Proof. intros H HQ. unfold wp. specialize (H s). destruct (m s); [by apply HQ|done| |done]. intros ->. done. Qed.

Lemma passes_bind {A C} (m : M (kern F) A) (k : A -> M (kern F) C) : passes m -> (forall a, passes (k a)) -> passes (m ≫= k).
Proof.
  intros Hm Hk s. unfold mbind, M_bind. specialize (Hm s). destruct (m s) as [a s1|e|c s1|]; [|done|done|done].
  specialize (Hk a s1). destruct (k a s1); congruence.
Qed.
Lemma passes_ret {A} (a : A) : passes (mret a).
Proof. done. Qed.
Lemma passes_panic {A} e : @passes A (panic e).
Proof. done. Qed.
Lemma passes_vm {A} (m : M pmem A) : passes (on_vm m).
Proof. intros s. unfold on_vm, inside. by destruct (m (kn_pm s)). Qed.
Lemma passes_fs {A} (m : M F A) : passes (on_fs m).
Proof. intros s. unfold on_fs, inside. by destruct (m (kn_fs s)). Qed.
Lemma passes_modpr i h : (forall p, p_sched (h p) = p_sched p) -> passes (modpr i h).
Proof. intros Hh s. unfold modpr, modS. by apply put_same. Qed.
Lemma passes_proc {A} i (m : M (kst F) A) : calm eq m -> passes (on_proc i m).
Proof.
  intros H s. unfold on_proc, inside. specialize (H (mkK (kn_pm s) (proc_at s i) (kn_fs s) (kn_out s))).
  destruct (m _) as [a k|e|c k|]; try done. cbn [k_p] in H.
  transitivity (tab_of (put_proc i (k_p k) s)); [reflexivity|]. rewrite tab_put, <- H.
  destruct (decide (i < length (kn_procs s))%nat) as [Hi|Hi].
  - apply tset_same. by apply lookup_tab_Some.
  - unfold tset. rewrite list_insert_ge by (rewrite length_tab; lia). by destruct (tab_of s).
Qed.
Lemma passes_getp i : passes (getp i).
Proof. done. Qed.

Ltac pass1 :=
  lazymatch goal with
  | |- passes (_ ≫= _) => apply passes_bind; [|intros ?]
  | |- passes (mret _) => apply passes_ret
  | |- passes (panic _) => apply passes_panic
  | |- passes (on_vm _) => apply passes_vm
  | |- passes (on_fs _) => apply passes_fs
  | |- passes (getp _) => apply passes_getp
  | |- passes (modpr _ _) => apply passes_modpr; intros []; reflexivity
  | |- passes (if ?b then _ else _) => destruct b
  end.
Ltac pass := repeat pass1.

Lemma wp_freeproc i R (Q : unit -> kern F -> Prop) s :
  (forall s', tab_of s' = tset i zero_sched (tab_of s) -> Q tt s') -> wp (freeproc i) Q R s.
Proof.
  intros HQ. unfold freeproc. apply wp_getp.
  do 5 (apply wp_bind, wp_pass; [pass|intros [] ? ?]). apply wp_modpr, HQ. rewrite tab_put.
  change (p_sched _) with zero_sched. congruence.
Qed.

(** ** [allocproc] *)
Definition talloc (i : nat) (t : tab) : tab :=
  let x := tat t i in tset i (mkSched USED (p_chan x) (p_killed x) (p_xstate x) (t_next t) (p_parent x)) (tnext (i32 (t_next t + 1)) t).
Definition tfail (i : nat) (t : tab) : tab := tset i zero_sched (tnext (i32 (t_next t + 1)) t).

(** The memory of a new process: a trapframe and a page table, if there is room. *)
Definition alloc_mem : M pmem (option Z) :=
  tf ← kalloc;
  if tf =? 0 then mret None else pt ← proc_pagetable tf; mret (if pt =? 0 then None else Some pt).

Lemma tset_held i x l t : tset i x (theld l t) = theld l (tset i x t).
Proof. done. Qed.
Lemma tset_next i x n t : tset i x (tnext n t) = tnext n (tset i x t).
Proof. done. Qed.

Lemma proc_put s i p : (i < length (kn_procs s))%nat -> proc_at (put_proc i p s) i = p.
Proof. intros Hi. unfold proc_at. cbn. by apply list_lookup_total_insert_eq. Qed.
Lemma proc_put_ne s i j p : i <> j -> proc_at (put_proc i p s) j = proc_at s j.
Proof. intros Hi. unfold proc_at. cbn. by apply list_lookup_total_insert_ne. Qed.

(** [s'] has the processes of [s] but for [i]'s. *)
Definition others (i : nat) s s' : Prop := length (kn_procs s') = length (kn_procs s) /\ forall j, j <> i -> proc_at s' j = proc_at s j.

Lemma others_put i h s s' : others i s s' -> others i s (put_proc i h s').
Proof. intros [L H]. split; [cbn; by rewrite length_insert|]. intros j Hj. rewrite proc_put_ne by congruence. by apply H. Qed.
Lemma others_procs i s s' s'' : others i s s' -> kn_procs s'' = kn_procs s' -> others i s s''.
Proof. unfold others, proc_at. intros H ->. exact H. Qed.

Lemma wp_allocproc R (Q : option nat -> kern F -> Prop) s :
  nlen s ->
  (first_free (tab_of s) = None -> Q None s) ->
  (forall i m s', first_free (tab_of s) = Some i -> alloc_mem (kn_pm s) = Ret None m -> tab_of s' = tfail i (tab_of s) -> Q None s') ->
  (forall i s', first_free (tab_of s) = Some i -> LProc i ∉ kn_held s -> alloc_mem (kn_pm s) = Ret (Some (pagetable (proc_at s' i))) (kn_pm s') ->
     others i s s' -> tab_of s' = theld (LProc i :: kn_held s) (talloc i (tab_of s)) -> Q (Some i) s') ->
  wp (allocproc fa) Q R s.
Proof.
  intros Hl HN HF HS. unfold allocproc. apply wp_bind, wp_find_unused; [by rewrite Hl|lia|intros; by apply wp_ret, HN|].
  intros i Hfree Hn. destruct (first_free_lt s i Hfree) as [Hi Hu]. set (s1 := set_held (LProc i :: kn_held s) s).
  apply wp_bind, wp_allocpid. change (kn_nextpid s1) with (kn_nextpid s). intros s2 E2 P2 M2.
  apply wp_bind, wp_modpr. set (s3 := put_proc _ _ _).
  assert (E3 : tab_of s3 = theld (LProc i :: kn_held s) (talloc i (tab_of s))).
  { unfold s3. rewrite tab_put, E2. unfold talloc. rewrite lookup_tab by done. unfold proc_at. rewrite P2. reflexivity. }
  assert (M3 : kn_pm s3 = kn_pm s) by exact M2.
  assert (O3 : others i s s3) by (apply others_put; by eapply (others_procs i s s)).
  clearbody s3. clear s2 E2 P2 M2.
  assert (Hfail : forall m s', alloc_mem (kn_pm s) = Ret None m -> tab_of s' = tab_of s3 -> wp (_ ← freeproc i; _ ← release (LProc i); mret None) Q R s').
  { intros m s' Em E'. apply wp_bind, wp_freeproc. intros s4 E4. apply wp_bind, wp_release. intros _.
    assert (Hh : kn_held s4 = LProc i :: kn_held s) by (change (kn_held s4) with (t_held (tab_of s4)); by rewrite E4, E', E3).
    rewrite Hh, filter_unlock by done. apply wp_ret. apply (HF i m); [done|done|].
    rewrite tab_held, E4, E', E3. unfold tfail, talloc. rewrite tset_held, tset_tset. done. }
  apply wp_bind, wp_vm_run. rewrite M3. intros tf s4 R4 E4 P4. apply wp_bind, wp_modpr. set (s5 := put_proc _ _ s4).
  assert (E5 : tab_of s5 = tab_of s4) by (apply put_same; by intros []). assert (O5 : others i s s5) by (apply others_put; by eapply others_procs).
  destruct (tf =? 0) eqn:Etf.
  { apply (Hfail (kn_pm s4)); [|congruence]. unfold alloc_mem. rewrite (bind_Ret _ _ _ _ _ R4). by rewrite Etf. }
  apply wp_bind, wp_vm_run. change (kn_pm s5) with (kn_pm s4). intros pt s6 R6 E6 P6. apply wp_bind, wp_modpr. set (s7 := put_proc _ _ s6).
  assert (E7 : tab_of s7 = tab_of s6) by (apply put_same; by intros []).
  assert (O6 : others i s s6) by (by eapply others_procs). assert (O7 : others i s s7) by (by apply others_put).
  assert (Ep : pagetable (proc_at s7 i) = pt).
  { unfold s7. rewrite proc_put; [by destruct (proc_at s6 i)|]. destruct O6 as [-> _]. done. }
  assert (Em : alloc_mem (kn_pm s) = Ret (if pt =? 0 then None else Some pt) (kn_pm s7)).
  { unfold alloc_mem. rewrite (bind_Ret _ _ _ _ _ R4). rewrite Etf. by rewrite (bind_Ret _ _ _ _ _ R6). }
  destruct (pt =? 0) eqn:Ept; [apply (Hfail (kn_pm s7)); [done|congruence]|].
  apply wp_getp, wp_bind. unfold wp at 1, modS. apply wp_ret. apply (HS i); [done|done| |done|].
  - rewrite <- Ep in Em. exact Em.
  - transitivity (tab_of s7); [reflexivity|congruence].
Qed.

(** ** [kfork] *)
Lemma passes_dup_files n l k : passes (dup_files n l k).
Proof. revert k. induction l as [|f l IH]; intros k; cbn [dup_files]; pass. apply IH. Qed.

Definition tfork (c n : nat) (t : tab) : tab :=
  let x := tat t n in
  tset n (mkSched RUNNABLE (p_chan x) (p_killed x) (p_xstate x) (t_next t) (proc_ptr c)) (tnext (i32 (t_next t + 1)) t).

(** The memory a child of [p] needs, and whether there was room for all of it. *)
Definition fork_mem (p : proc) : M pmem bool :=
  r ← alloc_mem;
  match r with
  | None => mret false
  | Some pt => rc ← uvmcopy (pagetable p) pt (sz p); mret (negb (rc <? 0))
  end.

Lemma tat_tset i x t : (i < length (t_procs t))%nat -> tat (tset i x t) i = x.
Proof. intros Hi. unfold tat, tset. cbn [t_procs]. by apply list_lookup_total_insert_eq. Qed.
Lemma tat_tset_ne i j x t : i <> j -> tat (tset i x t) j = tat t j.
Proof. intros Hi. unfold tat, tset. cbn [t_procs]. by apply list_lookup_total_insert_ne. Qed.

Lemma wp_kfork R (Q : Z -> kern F -> Prop) s :
  nlen s -> kn_held s = [] -> (forall c, kn_cur s = Some c -> p_state (tat (tab_of s) c) <> UNUSED) ->
  (forall c, kn_cur s = Some c -> first_free (tab_of s) = None -> Q (-1) s) ->
  (forall c n m s', kn_cur s = Some c -> first_free (tab_of s) = Some n -> fork_mem (proc_at s c) (kn_pm s) = Ret false m ->
     tab_of s' = tfail n (tab_of s) -> Q (-1) s') ->
  (forall c n m s', kn_cur s = Some c -> first_free (tab_of s) = Some n -> fork_mem (proc_at s c) (kn_pm s) = Ret true m ->
     tab_of s' = tfork c n (tab_of s) -> Q (kn_nextpid s) s') ->
  wp (kfork fa) Q R s.
Proof.
  intros Hl Hh Hcu HN HF HS. unfold kfork. apply wp_curproc. intros c Hc. apply wp_bind, wp_allocproc; [done|intros; by eapply wp_ret, HN| |].
  { intros n m s1 Hfree Em E1. apply wp_ret, (HF c n m); [done|done| |done]. unfold fork_mem. by rewrite (bind_Ret _ _ _ _ _ Em). }
  intros n s1 Hfree _ Em O1 E1. destruct (first_free_lt s n Hfree) as [Hn' Hu]. rewrite Hh in E1. do 2 apply wp_getp.
  assert (Hcn : c <> n) by (intros ->; by apply (Hcu n Hc)). pose proof (proj2 O1 c Hcn) as Ec. rewrite Ec.
  set (p := proc_at s c) in *. set (np := proc_at s1 n) in *.
  assert (Hlt : (n < length (t_procs (tab_of s)))%nat) by (by rewrite length_tab).
  apply wp_bind, wp_vm_run. intros rc s2 R2 E2 _.
  assert (Efm : fork_mem p (kn_pm s) = Ret (negb (rc <? 0)) (kn_pm s2)).
  { unfold fork_mem. rewrite (bind_Ret _ _ _ _ _ Em). by rewrite (bind_Ret _ _ _ _ _ R2). }
  destruct (rc <? 0).
  { apply wp_bind, wp_freeproc. intros s3 E3. apply wp_bind, wp_release. intros _.
    assert (Hh3 : kn_held s3 = [LProc n]) by (change (kn_held s3) with (t_held (tab_of s3)); by rewrite E3, E2, E1).
    rewrite Hh3, filter_unlock by set_solver. apply wp_ret, (HF c n (kn_pm s2)); [done|done|done|].
    rewrite tab_held, E3, E2, E1. unfold tfail, talloc. rewrite tset_held, tset_tset. unfold theld. cbn. by rewrite <- Hh. }
  do 2 (apply wp_bind, wp_pass; [pass|intros [] ? ?]). apply wp_bind, wp_pass; [apply passes_dup_files|intros [] ? ?].
  apply wp_bind, wp_fs. intros cwd s6 E6 _. do 4 (apply wp_bind, wp_pass; [pass|intros [] ? ?]). apply wp_getp.
  match goal with |- wp _ _ _ ?x => set (s9 := x) in * end.
  assert (E9 : tab_of s9 = theld [LProc n] (talloc n (tab_of s))) by congruence.
  assert (Hp9 : pid (proc_at s9 n) = kn_nextpid s).
  { assert (L9 : (n < length (kn_procs s9))%nat) by (rewrite <- length_tab, E9; cbn; by rewrite length_insert).
    pose proof (lookup_tab s9 n L9) as H9. rewrite E9 in H9. unfold talloc in H9.
    change (tat (theld ?l ?t) n) with (tat t n) in H9. rewrite tat_tset in H9 by exact Hlt.
    apply (f_equal p_pid) in H9. cbn in H9. unfold pid. by rewrite <- H9. }
  rewrite Hp9. clearbody s9.
  assert (Hh9 : kn_held s9 = [LProc n]) by (change (kn_held s9) with (t_held (tab_of s9)); by rewrite E9).
  apply wp_bind, wp_release. intros _. rewrite Hh9, filter_unlock by set_solver.
  apply wp_bind, wp_acquire. intros _. apply wp_bind, wp_modpr, wp_bind, wp_release. intros _.
  cbn [kn_held set_held put_proc set_procs]. rewrite filter_unlock by set_solver.
  apply wp_bind, wp_acquire. intros _. apply wp_bind, wp_modpr, wp_bind, wp_release. intros _.
  cbn [kn_held set_held put_proc set_procs]. rewrite filter_unlock by set_solver. apply wp_ret.
  apply (HS c n (kn_pm s2)); [done|done|done|].
  assert (L9 : (n < length (kn_procs s9))%nat) by (rewrite <- length_tab, E9; cbn; by rewrite length_insert).
  rewrite tab_held. match goal with |- theld _ (tab_of (put_proc n ?y ?z)) = _ => rewrite (tab_put z n y) end.
  unfold proc_at. cbn [kn_procs set_held put_proc set_procs]. rewrite list_lookup_total_insert_eq by done.
  pose proof (lookup_tab s9 n L9) as H9. rewrite E9 in H9. unfold talloc in H9.
  change (tat (theld ?l ?t) n) with (tat t n) in H9. rewrite tat_tset in H9 by exact Hlt.
  match goal with |- theld [] (tset n ?x (tab_of ?z)) = _ =>
    assert (Ez : tab_of z = theld [LProc n] (tset n (p_sched (set_parent (proc_ptr c) (kn_procs s9 !!! n))) (tab_of s9)))
      by (unfold tab_of, tset, theld; cbn; by rewrite list_fmap_insert);
    rewrite Ez, E9 end.
  unfold tfork, talloc. rewrite !tset_held, !tset_tset. unfold theld, tset. cbn [t_procs t_cur t_next t_init tnext].
  unfold proc_at in H9. f_equal; [f_equal|done]. cbn. by rewrite <- H9.
Qed.
End ops.

(** Goals that a computation leaves the table alone. *)
Ltac pass1 :=
  lazymatch goal with
  | |- passes (_ ≫= _) => apply passes_bind; [|intros ?]
  | |- passes (mret _) => apply passes_ret
  | |- passes (panic _) => apply passes_panic
  | |- passes (on_vm _) => apply passes_vm
  | |- passes (on_fs _) => apply passes_fs
  | |- passes (getp _) => apply passes_getp
  | |- passes (modpr _ _) => apply passes_modpr; intros []; reflexivity
  | |- passes (if ?b then _ else _) => destruct b
  end.
Ltac pass := repeat pass1.
