(* ===== verification/ProcLife.v ===== *)
(** Sleeping, waking, exiting, waiting and killing: the effect of the remaining
    routines of kernel/proc.c on the table, each with the condition under which
    it takes one or the other way: which entry is the first with the pid, the
    first zombie child, whether there is a child at all, and what the copy of the
    exit status returned. *)
From S2P Require Import Prelude Riscv PhysMem Kalloc PageTable Memstat Proc FsIface Swap VmFault Bytes ProcTable ProcInv.

Section ops.
Context `{HL : Layout} {F : Type} `{FO : !FsOps F} `{PF : !ProcFs F} `{PO : !Policy} (fa : Z).
Implicit Types (s : kern F) (t : tab).

(** ** Giving up the CPU *)
Lemma wp_sched (Q : unit -> kern F -> Prop) (R : kern F -> Prop) s :
  (forall i, kn_cur s = Some i -> kn_held s = [LProc i] -> R s) -> wp sched Q R s.
Proof.
  intros H. unfold sched. apply wp_curproc. intros i Hc. apply wp_getS.
  destruct (bool_decide_reflect (LProc i ∈ kn_held s)) as [Hin|]; [|done]. cbn [negb].
  destruct (Nat.eqb_spec (length (kn_held s)) 1) as [Hlen|]; [|done]. cbn [negb].
  destruct (bool_decide _); [done|]. intros _. apply (H i Hc).
  destruct (kn_held s) as [|x [|y l]]; [done| |done]. by apply list_elem_of_singleton in Hin as ->.
Qed.

(** The scheduler after [swtch] comes back. *)
Definition back s : kern F := set_cur None (set_held [] s).

Definition tsleep (c : Z) (i : nat) (t : tab) : tab :=
  let x := tat t i in tcur None (tset i (mkSched SLEEPING c (p_killed x) (p_xstate x) (p_pid x) (p_parent x)) t).
Definition tyield (i : nat) (t : tab) : tab :=
  let x := tat t i in tcur None (tset i (mkSched RUNNABLE (p_chan x) (p_killed x) (p_xstate x) (p_pid x) (p_parent x)) t).

Lemma theld_id s : kn_held s = [] -> theld [] (tab_of s) = tab_of s.
Proof. intros H. unfold theld, tab_of. cbn. by rewrite H. Qed.

Lemma tab_back s : tab_of (back s) = tcur None (theld [] (tab_of s)).
Proof. done. Qed.

Lemma wp_yield (Q : unit -> kern F -> Prop) (R : kern F -> Prop) s :
  nlen s -> kn_held s = [] ->
  (forall i s', kn_cur s = Some i -> tab_of (back s') = tyield i (tab_of s) -> R s') -> wp yield Q R s.
Proof.
  intros Hl Hh HR. unfold yield. apply wp_curproc. intros i Hc. apply wp_bind, wp_acquire. intros _. apply wp_bind, wp_modpr, wp_sched.
  intros j _ _. apply (HR i); [done|]. rewrite tab_back, tab_put. unfold tyield.
  destruct (decide (i < length (kn_procs s))%nat) as [Hi|Hi].
  - rewrite lookup_tab by done. rewrite <- (theld_id s Hh) at 1. done.
  - unfold tset, theld, tcur. cbn. rewrite !list_insert_ge by (rewrite length_fmap; cbn; lia). by rewrite Hh.
Qed.

(** [sleep], called with the condition's lock only. *)
Lemma wp_sleep c lk (Q : unit -> kern F -> Prop) (R : kern F -> Prop) s :
  nlen s -> kn_held s = [lk] ->
  (forall i s', kn_cur s = Some i -> tab_of (back s') = tsleep c i (theld [] (tab_of s)) -> R s') -> wp (sleep c lk) Q R s.
Proof.
  intros Hl Hh HR. unfold sleep. apply wp_curproc. intros i Hc. apply wp_bind, wp_acquire. intros Hn. apply wp_bind, wp_release. intros _.
  apply wp_bind, wp_modpr, wp_sched. intros j _ _. apply (HR i); [done|]. rewrite tab_back, tab_put. unfold tsleep.
  destruct (decide (i < length (kn_procs s))%nat) as [Hi|Hi].
  - change (tat (theld [] (tab_of s)) i) with (tat (tab_of s) i). rewrite lookup_tab by done. done.
  - unfold tset, theld, tcur. cbn. rewrite !list_insert_ge by (rewrite length_fmap; cbn; lia). done.
Qed.

(** ** [kkill] *)
Definition tkill1 (x : srec) : srec :=
  if bool_decide (p_state x = SLEEPING) then mkSched RUNNABLE (p_chan x) 1 (p_xstate x) (p_pid x) (p_parent x) else killed_rec x.

(** The entry with the pid. *)
Definition by_pid (pd : Z) (t : tab) : option nat := first_index (fun x => p_pid x =? pd) (t_procs t).

Lemma sched_kill p : p_sched (kill1 p) = tkill1 (p_sched p).
Proof. unfold kill1, tkill1, state_of. cbn. by destruct (bool_decide _). Qed.

Lemma lookup_tab_inv s j x : t_procs (tab_of s) !! j = Some x -> (j < length (kn_procs s))%nat /\ x = p_sched (proc_at s j).
Proof.
  intros Hx. pose proof (lookup_lt_Some _ _ _ Hx) as Hj. rewrite length_tab in Hj. split; [done|].
  rewrite lookup_tab_Some in Hx by done. by injection Hx as <-.
Qed.

Lemma wp_kkill pd (Q : Z -> kern F -> Prop) R s :
  nlen s -> (by_pid pd (tab_of s) = None -> Q (-1) s) ->
  (forall i s', by_pid pd (tab_of s) = Some i -> tab_of s' = tset i (tkill1 (tat (tab_of s) i)) (tab_of s) -> Q 0 s') ->
  wp (kkill pd) Q R s.
Proof.
  intros Hl HN HS. unfold kkill.
  assert (H : forall n i, (i + n = nproc)%nat -> (forall j, (j < i)%nat -> pid (proc_at s j) <> pd) -> wp (kkill_loop n pd i) Q R s);
    [|apply H; [done|lia]].
  induction n as [|n IH]; intros i Hi Hpre.
  { apply wp_ret, HN, first_index_None. intros j x [Hj ->]%lookup_tab_inv. apply Z.eqb_neq. apply (Hpre j). unfold nlen in Hl. lia. }
  cbn [kkill_loop]. apply wp_bind, wp_acquire. intros Hn. apply wp_getp. assert (Hi' : (i < length (kn_procs s))%nat) by (unfold nlen in Hl; lia).
  change (proc_at (set_held (LProc i :: kn_held s) s) i) with (proc_at s i). destruct (Z.eqb_spec (pid (proc_at s i)) pd) as [E|E].
  - apply wp_bind, wp_modpr, wp_bind, wp_release. intros _. cbn [kn_held set_held put_proc set_procs]. rewrite filter_unlock by done.
    apply wp_ret. apply (HS i); [|rewrite tab_held, tab_put, sched_kill; rewrite lookup_tab by done; done].
    apply first_index_Some. split; [exists (p_sched (proc_at s i)); split; [by apply lookup_tab_Some|by apply Z.eqb_eq]|].
    intros j x Hj [_ ->]%lookup_tab_inv. apply Z.eqb_neq. by apply (Hpre j).
  - apply wp_bind, wp_release. intros _. cbn [kn_held set_held]. rewrite held_back by done. apply IH; [lia|].
    intros j Hj. destruct (decide (j = i)) as [->|]; [done|]. apply Hpre. lia.
Qed.

(** ** [kexit] *)
Fixpoint treparent_loop (n : nat) (p : nat) (i : nat) (t : tab) : tab :=
  match n with
  | O => t
  | S n =>
      let x := tat t i in
      let t' := if p_parent x =? proc_ptr p
                then twake (t_init t) (tset i (mkSched (p_state x) (p_chan x) (p_killed x) (p_xstate x) (p_pid x) (t_init t)) t) else t in
      treparent_loop n p (S i) t'
  end.
Definition treparent (p : nat) (t : tab) : tab := treparent_loop nproc p 0 t.
#[local] Strategy expand [treparent reparent].

Lemma length_twake_loop n c : forall i t, length (t_procs (twake_loop n c i t)) = length (t_procs t).
Proof.
  induction n as [|n IH]; intros i t; [done|]. cbn [twake_loop]. rewrite IH. unfold twake_at. destruct (bool_decide _); [done|].
  apply length_tset.
Qed.
Lemma length_twake c t : length (t_procs (twake c t)) = length (t_procs t).
Proof. apply length_twake_loop. Qed.

Lemma twake_at_held c i l t : twake_at c i (theld l t) = theld l (twake_at c i t).
Proof. unfold twake_at. cbn [t_cur theld]. by destruct (bool_decide _). Qed.
Lemma twake_loop_held n c l : forall i t, twake_loop n c i (theld l t) = theld l (twake_loop n c i t).
Proof. induction n as [|n IH]; intros i t; [done|]. cbn [twake_loop]. by rewrite twake_at_held, IH. Qed.
Lemma twake_held c l t : twake c (theld l t) = theld l (twake c t).
Proof. unfold twake. exact (twake_loop_held nproc c l 0 t). Qed.

(** [wakeup] changes only the entries. *)
Lemma twake_loop_rest n c : forall i t, let t' := twake_loop n c i t in
  t_cur t' = t_cur t /\ t_held t' = t_held t /\ t_next t' = t_next t /\ t_init t' = t_init t.
Proof.
  induction n as [|n IH]; intros i t; [done|]. cbn [twake_loop]. destruct (IH (S i) (twake_at c i t)) as (-> & -> & -> & ->).
  unfold twake_at. by destruct (bool_decide _).
Qed.

Lemma treparent_loop_held n p l : forall i t, treparent_loop n p i (theld l t) = theld l (treparent_loop n p i t).
Proof.
  induction n as [|n IH]; intros i t; [done|]. cbn [treparent_loop]. change (tat (theld l t) i) with (tat t i).
  cbv zeta. change (t_init (theld l t)) with (t_init t). destruct (p_parent (tat t i) =? proc_ptr p); [|apply IH].
  rewrite tset_held, twake_held. apply IH.
Qed.
Lemma treparent_held p l t : treparent p (theld l t) = theld l (treparent p t).
Proof. unfold treparent. exact (treparent_loop_held nproc p l 0 t). Qed.

Lemma twake_rest c t : t_cur (twake c t) = t_cur t /\ t_held (twake c t) = t_held t /\ t_next (twake c t) = t_next t /\ t_init (twake c t) = t_init t.
Proof. unfold twake. exact (twake_loop_rest nproc c 0 t). Qed.

Lemma treparent_loop_rest n p : forall i t, let t' := treparent_loop n p i t in
  t_cur t' = t_cur t /\ t_held t' = t_held t /\ t_next t' = t_next t /\ t_init t' = t_init t /\ length (t_procs t') = length (t_procs t).
Proof.
  induction n as [|n IH]; intros i t; [done|]. cbn [treparent_loop]. cbv zeta. destruct (p_parent (tat t i) =? proc_ptr p); [|apply IH].
  set (t1 := tset i _ t). destruct (IH (S i) (twake (t_init t) t1)) as (-> & -> & -> & -> & ->).
  destruct (twake_rest (t_init t) t1) as (-> & -> & -> & ->). rewrite length_twake. unfold t1. rewrite length_tset. done.
Qed.
Lemma treparent_rest p t : t_cur (treparent p t) = t_cur t /\ t_held (treparent p t) = t_held t /\ t_next (treparent p t) = t_next t /\
  t_init (treparent p t) = t_init t /\ length (t_procs (treparent p t)) = length (t_procs t).
Proof. unfold treparent. exact (treparent_loop_rest nproc p 0 t). Qed.
Lemma tat_held l t i : tat (theld l t) i = tat t i.
Proof. done. Qed.

Lemma nlen_wake c s s' : tab_of s' = twake c (tab_of s) -> nlen s -> nlen s'.
Proof. intros E. apply nlen_tab. by rewrite E, length_twake. Qed.

Lemma nlen_put i p s : nlen s -> nlen (put_proc i p s).
Proof. unfold nlen. cbn. by rewrite length_insert. Qed.

Lemma wp_reparent_loop p n R : forall i (Q : unit -> kern F -> Prop) s,
  (i + n <= nproc)%nat -> nlen s ->
  (forall s', tab_of s' = treparent_loop n p i (tab_of s) -> nlen s' -> Q tt s') -> wp (reparent_loop n p i) Q R s.
Proof.
  induction n as [|n IH]; intros i Q s Hi Hl HQ; [by apply HQ|]. cbn [reparent_loop]. apply wp_getp.
  assert (Hi' : (i < length (kn_procs s))%nat) by (unfold nlen in Hl; lia).
  assert (Ep : parent (proc_at s i) = p_parent (tat (tab_of s) i)) by (by rewrite lookup_tab by done).
  assert (Hk : forall s1, tab_of s1 = (let x := tat (tab_of s) i in
      if p_parent x =? proc_ptr p then twake (t_init (tab_of s)) (tset i (mkSched (p_state x) (p_chan x) (p_killed x) (p_xstate x) (p_pid x) (t_init (tab_of s))) (tab_of s))
      else tab_of s) -> nlen s1 -> wp (reparent_loop n p (S i)) Q R s1).
  { intros s1 E1 L1. apply IH; [lia|done|]. intros s' E' L'. apply HQ; [|done]. cbn [treparent_loop]. by rewrite E', E1. }
  rewrite Ep. cbv zeta in Hk. apply wp_bind. destruct (p_parent (tat (tab_of s) i) =? proc_ptr p).
  - apply wp_getS, wp_bind, wp_modpr. set (s1 := put_proc _ _ _). apply wp_wakeup; [by apply nlen_put|].
    intros s2 E2. apply Hk; [|eapply nlen_wake; [exact E2|by apply nlen_put]].
    assert (E1 : tab_of s1 = tset i (p_sched (set_parent (kn_initproc s) (proc_at s i))) (tab_of s)) by apply tab_put.
    rewrite E2, E1. rewrite lookup_tab by done. reflexivity.
  - apply wp_ret. by apply Hk.
Qed.

Lemma wp_reparent p R (Q : unit -> kern F -> Prop) s :
  nlen s -> (forall s', tab_of s' = treparent p (tab_of s) -> nlen s' -> Q tt s') -> wp (reparent p) Q R s.
Proof. intros Hl HQ. unfold treparent in HQ. unfold reparent. apply wp_reparent_loop; [apply le_n|done|exact HQ]. Qed.

Definition texit (i : nat) (status : Z) (t : tab) : tab :=
  let t := treparent i t in
  let t := twake (p_parent (tat t i)) t in
  let x := tat t i in
  tcur None (tset i (mkSched ZOMBIE (p_chan x) (p_killed x) status (p_pid x) (p_parent x)) t).

Lemma passes_close_files i n fd : passes (close_files i n fd).
Proof. revert fd. induction n as [|n IH]; intros fd; cbn [close_files]; [done|]. repeat pass1. apply IH. Qed.

Lemma wp_kexit status (Q : unit -> kern F -> Prop) (R : kern F -> Prop) s :
  nlen s -> kn_held s = [] ->
  (forall i s', kn_cur s = Some i -> proc_ptr i <> kn_initproc s -> (i < nproc)%nat -> tab_of (back s') = texit i status (tab_of s) -> R s') ->
  (forall i, kn_cur s = Some i -> (i < nproc)%nat) ->
  wp (kexit status) Q R s.
Proof.
  intros Hl Hh HR Hcur. unfold kexit. apply wp_curproc. intros i Hc. pose proof (Hcur i Hc) as Hi. apply wp_getS.
  destruct (Z.eqb_spec (proc_ptr i) (kn_initproc s)) as [|Hinit]; [done|].
  apply wp_bind, wp_pass; [apply passes_close_files|intros [] s1 E1]. apply wp_getp.
  do 3 (apply wp_bind, wp_pass; [pass|intros [] ? ?]). apply wp_bind, wp_pass; [pass|intros [] s2 E2]. apply wp_getp.
  apply wp_bind, wp_pass.
  { destruct (negb _); [|done]. apply passes_bind; [apply passes_proc, calm_swapfile_cleanup|intros n; apply passes_proc, calm_printf; apply _]. }
  intros [] s3 E3. assert (E : tab_of s3 = tab_of s) by congruence. clear - HR Hh Hl Hc Hinit Hi E.
  assert (Hh3 : kn_held s3 = []) by (change (kn_held s3) with (t_held (tab_of s3)); by rewrite E).
  apply wp_bind, wp_acquire. intros _. rewrite Hh3. set (s4 := set_held [LWait] s3).
  assert (L4 : nlen s4) by exact (nlen_same s s3 E Hl).
  apply wp_bind, wp_reparent; [done|]. intros s5 E5 L5. apply wp_getp. apply wp_bind, wp_wakeup; [done|]. intros s6 E6.
  pose proof (nlen_wake _ _ _ E6 L5) as L6.
  assert (Hi5 : (i < length (kn_procs s5))%nat) by (unfold nlen in L5; lia).
  assert (Hi6 : (i < length (kn_procs s6))%nat) by (unfold nlen in L6; lia).
  apply wp_bind, wp_acquire. intros _. apply wp_bind, wp_modpr, wp_bind, wp_release. intros _. apply wp_bind, wp_sched.
  intros j _ _. apply (HR i); [done|done|done|].
  rewrite tab_back. change (tab_of (set_held ?l ?x)) with (theld l (tab_of x)).
  rewrite tab_put. change (tab_of (set_held ?l ?x)) with (theld l (tab_of x)). unfold texit.
  assert (Et5 : tab_of s5 = theld [LWait] (treparent i (tab_of s))).
  { rewrite E5. unfold s4. rewrite tab_held, E. apply treparent_held. }
  assert (Ep : parent (proc_at s5 i) = p_parent (tat (treparent i (tab_of s)) i)).
  { change (parent (proc_at s5 i)) with (p_parent (p_sched (proc_at s5 i))). rewrite <- (lookup_tab s5 i Hi5). by rewrite Et5, tat_held. }
  rewrite Ep in E6. rewrite Et5, twake_held in E6.
  set (t6 := twake (p_parent (tat (treparent i (tab_of s)) i)) (treparent i (tab_of s))) in *.
  change (proc_at (set_held (LProc i :: kn_held s6) s6) i) with (proc_at s6 i).
  assert (Ex : p_sched (proc_at s6 i) = tat t6 i) by (rewrite <- (lookup_tab s6 i Hi6); by rewrite E6, tat_held).
  rewrite E6, <- Ex. unfold tcur, theld, tset. cbn [t_procs t_cur t_held t_next t_init]. f_equal. unfold t6.
  destruct (twake_rest (p_parent (tat (treparent i (tab_of s)) i)) (treparent i (tab_of s))) as (_ & -> & _).
  destruct (treparent_rest i (tab_of s)) as (_ & -> & _). done.
Qed.

(** ** [kwait] *)
Lemma held_tab s s' : tab_of s' = tab_of s -> kn_held s' = kn_held s.
Proof. intros E. change (kn_held ?x) with (t_held (tab_of x)). by rewrite E. Qed.

Lemma wp_unlock2 {A} j (a : A) (Q : A -> kern F -> Prop) R s : kn_held s = [LProc j; LWait] -> Q a (set_held [] s) ->
  wp (_ ← release (LProc j); _ ← release LWait; mret a) Q R s.
Proof.
  intros Hs HQ. apply wp_bind, wp_release. intros _. rewrite Hs, filter_unlock by set_solver. apply wp_bind, wp_release.
  intros _. cbn [kn_held set_held]. rewrite filter_unlock by set_solver. apply wp_ret. exact HQ.
Qed.

(** The children of [i]; the first that is a zombie. *)
Definition child_of (i : nat) (x : srec) : bool := p_parent x =? proc_ptr i.
Definition has_child (i : nat) (t : tab) : bool := existsb (child_of i) (t_procs t).
Definition zombie_child (i : nat) (t : tab) : option nat :=
  first_index (fun x => child_of i x && bool_decide (p_state x = ZOMBIE)) (t_procs t).

(** What copying the exit status [st] out to the process returns; when it gets no
    memory for the page, the process is marked as killed. *)
Definition copied s (i : nat) (addr st rc : Z) : Prop :=
  if addr =? 0 then rc = 0
  else exists k', copyout (pagetable (proc_at s i)) addr (le_bytes 4 st) (mkK (kn_pm s) (proc_at s i) (kn_fs s) (kn_out s)) = Ret rc k'.
Definition tkilled (i : nat) (t : tab) : tab := tset i (killed_rec (tat t i)) t.
Definition copy_kill (i : nat) (addr : Z) (t t' : tab) : Prop := t' = t \/ addr <> 0 /\ t' = tkilled i t.

Lemma wp_proc_kill {A} i (m : M (kst F) A) (Q : A -> kern F -> Prop) R s : calm may_kill m -> (i < length (kn_procs s))%nat ->
  (forall a k' s', m (mkK (kn_pm s) (proc_at s i) (kn_fs s) (kn_out s)) = Ret a k' ->
     tab_of s' = tab_of s \/ tab_of s' = tkilled i (tab_of s) -> Q a s') -> wp (on_proc i m) Q R s.
Proof.
  intros Hm Hi HQ. unfold wp, on_proc, inside. specialize (Hm (mkK (kn_pm s) (proc_at s i) (kn_fs s) (kn_out s))).
  destruct (m _) as [a k|e|c k|]; try done. apply (HQ a k); [done|]. cbn [k_p] in Hm.
  assert (E : forall x, tab_of (mkKern (k_pm k) (<[i := k_p k]> (kn_procs s)) (k_fs k) (k_out k) (kn_cur s) (kn_held s) (kn_ctx s) (kn_nextpid s) (kn_initproc s)) = x
    <-> tset i (p_sched (k_p k)) (tab_of s) = x) by (intros x; by rewrite <- tab_put).
  rewrite !E. destruct Hm as [-> | ->]; [left|right].
  - apply tset_same. by apply lookup_tab_Some.
  - unfold tkilled. by rewrite lookup_tab.
Qed.

Lemma wp_kwait_scan n me addr R : forall j hk (Q : Z + bool -> kern F -> Prop) s,
  (j + n = nproc)%nat -> nlen s -> (me < nproc)%nat -> kn_held s = [LWait] ->
  hk = existsb (child_of me) (take j (t_procs (tab_of s))) ->
  (forall k x, (k < j)%nat -> t_procs (tab_of s) !! k = Some x -> child_of me x && bool_decide (p_state x = ZOMBIE) = false) ->
  (zombie_child me (tab_of s) = None -> Q (Datatypes.inr (has_child me (tab_of s))) s) ->
  (forall c rc t1 s', zombie_child me (tab_of s) = Some c -> copied s me addr (p_xstate (tat (tab_of s) c)) rc -> rc < 0 ->
     copy_kill me addr (tab_of s) t1 -> tab_of s' = theld [] t1 -> Q (inl (-1)) s') ->
  (forall c rc t1 s', zombie_child me (tab_of s) = Some c -> copied s me addr (p_xstate (tat (tab_of s) c)) rc -> 0 <= rc ->
     copy_kill me addr (tab_of s) t1 -> tab_of s' = theld [] (tset c zero_sched t1) -> Q (inl (p_pid (tat (tab_of s) c))) s') ->
  wp (kwait_scan n me addr j hk) Q R s.
Proof.
  induction n as [|n IH]; intros j hk Q s Hj Hl Hme Hh Hhk Hpre HN HE HS.
  { apply wp_ret. rewrite Hhk, take_ge by (rewrite length_tab; unfold nlen in Hl; lia). apply HN, first_index_None.
    intros k x Hx. apply (Hpre k); [|done]. apply lookup_lt_Some in Hx. rewrite length_tab in Hx. unfold nlen in Hl. lia. }
  cbn [kwait_scan]. apply wp_getp. assert (Hj' : (j < length (kn_procs s))%nat) by (unfold nlen in Hl; lia).
  pose proof (lookup_tab_Some s j Hj') as Ej. pose proof (lookup_tab s j Hj') as Et.
  assert (Etake : existsb (child_of me) (take (S j) (t_procs (tab_of s))) = hk || child_of me (p_sched (proc_at s j))).
  { rewrite (take_S_r _ _ _ Ej), existsb_app, <- Hhk. cbn. by rewrite orb_false_r. }
  assert (Hstep : child_of me (p_sched (proc_at s j)) && bool_decide (p_state (p_sched (proc_at s j)) = ZOMBIE) = false ->
    forall hk', hk' = hk || child_of me (p_sched (proc_at s j)) -> wp (kwait_scan n me addr (S j) hk') Q R s).
  { intros Hno hk' Ehk. apply IH; [lia|done|done|done|by rewrite Etake| |done|done|done].
    intros k x Hk Hx. destruct (decide (k = j)) as [->|]; [|apply (Hpre k); [lia|done]]. rewrite Ej in Hx. by injection Hx as <-. }
  destruct (Z.eqb_spec (parent (proc_at s j)) (proc_ptr me)) as [Ep|Ep].
  2:{ assert (Ec : child_of me (p_sched (proc_at s j)) = false) by (by apply Z.eqb_neq). apply Hstep; by rewrite Ec, ?orb_false_r. }
  assert (Ec : child_of me (p_sched (proc_at s j)) = true) by (by apply Z.eqb_eq).
  apply wp_bind, wp_acquire. intros Hn. apply wp_getp. set (s1 := set_held (LProc j :: kn_held s) s). change (proc_at s1 j) with (proc_at s j).
  destruct (bool_decide_reflect (state_of (proc_at s j) = ZOMBIE)) as [Ez|Ez].
  2:{ apply wp_bind, wp_release. intros _. unfold s1. cbn [kn_held set_held]. rewrite held_back by done.
      apply Hstep; [rewrite Ec; by apply bool_decide_eq_false|by rewrite Ec, orb_true_r]. }
  assert (Hz : zombie_child me (tab_of s) = Some j).
  { apply first_index_Some. split; [|exact Hpre]. exists (p_sched (proc_at s j)). split; [done|]. rewrite Ec. by apply bool_decide_eq_true. }
  assert (Hgo : forall rc s2, copied s me addr (xstate (proc_at s j)) rc -> (exists t1, copy_kill me addr (tab_of s) t1 /\ tab_of s2 = theld [LProc j; LWait] t1) ->
    wp (if rc <? 0 then _ ← release (LProc j); _ ← release LWait; mret (inl (-1))
        else _ ← freeproc j; _ ← release (LProc j); _ ← release LWait; mret (inl (pid (proc_at s j)))) Q R s2).
  { intros rc s2 Hrc (t1 & Hk & E2). assert (Hh2 : kn_held s2 = [LProc j; LWait]) by (change (kn_held s2) with (t_held (tab_of s2)); by rewrite E2).
    assert (Hcp : copied s me addr (p_xstate (tat (tab_of s) j)) rc) by (rewrite Et; exact Hrc). destruct (Z.ltb_spec rc 0).
    - apply wp_unlock2; [done|]. apply (HE j rc t1); try done. by rewrite tab_held, E2.
    - apply wp_bind, wp_freeproc. intros s3 E3.
      assert (Hh3 : kn_held s3 = [LProc j; LWait]) by (change (kn_held s3) with (t_held (tab_of s3)); by rewrite E3, E2).
      apply wp_unlock2; [done|]. assert (Epid : pid (proc_at s j) = p_pid (tat (tab_of s) j)) by (by rewrite Et). rewrite Epid.
      apply (HS j rc t1); try done. by rewrite tab_held, E3, E2. }
  apply wp_getp, wp_bind. destruct (Z.eqb_spec addr 0) as [Ea|Ea]; cbn [negb].
  - apply wp_ret, Hgo; [unfold copied; by rewrite Ea|]. exists (tab_of s). split; [by left|]. unfold s1. by rewrite tab_held, Hh.
  - apply wp_proc_kill; [apply calm_copyout|change (kn_procs s1) with (kn_procs s); unfold nlen in Hl; by rewrite Hl|].
    intros rc k' s2 Rk E2. apply Hgo; [unfold copied; rewrite (proj2 (Z.eqb_neq _ _) Ea); by exists k'|].
    unfold s1 in E2. rewrite tab_held, Hh in E2. destruct E2 as [E2|E2].
    + exists (tab_of s). split; [by left|exact E2].
    + exists (tkilled me (tab_of s)). split; [by right|exact E2].
Qed.

Lemma wp_kwait_loop addr (Q : Z -> kern F -> Prop) (R : kern F -> Prop) s :
  nlen s -> kn_held s = [LWait] -> (forall i, kn_cur s = Some i -> (i < nproc)%nat) ->
  (forall i s', kn_cur s = Some i -> zombie_child i (tab_of s) = None -> has_child i (tab_of s) = false \/ p_killed (tat (tab_of s) i) <> 0 ->
     tab_of s' = theld [] (tab_of s) -> Q (-1) s') ->
  (forall i c rc t1 s', kn_cur s = Some i -> zombie_child i (tab_of s) = Some c -> copied s i addr (p_xstate (tat (tab_of s) c)) rc -> rc < 0 ->
     copy_kill i addr (tab_of s) t1 -> tab_of s' = theld [] t1 -> Q (-1) s') ->
  (forall i c rc t1 s', kn_cur s = Some i -> zombie_child i (tab_of s) = Some c -> copied s i addr (p_xstate (tat (tab_of s) c)) rc -> 0 <= rc ->
     copy_kill i addr (tab_of s) t1 -> tab_of s' = theld [] (tset c zero_sched t1) -> Q (p_pid (tat (tab_of s) c)) s') ->
  (forall i s', kn_cur s = Some i -> zombie_child i (tab_of s) = None -> has_child i (tab_of s) = true -> p_killed (tat (tab_of s) i) = 0 ->
     tab_of (back s') = tsleep (proc_ptr i) i (theld [] (tab_of s)) -> R s') ->
  wp (kwait_loop addr) Q R s.
Proof.
  intros Hl Hh Hcur HN HE HS HR. unfold kwait_loop. apply wp_curproc. intros i Hc. pose proof (Hcur i Hc) as Hi.
  apply wp_bind, wp_kwait_scan; [done|done|done|done|done|lia| |intros; apply wp_ret; by eapply (HE i)|intros; apply wp_ret; by eapply (HS i)].
  intros Hz. set (hk := has_child i (tab_of s)) in *. apply wp_bind.
  assert (Ek : p_killed (p_sched (proc_at s i)) = p_killed (tat (tab_of s) i)) by (rewrite lookup_tab; [done|unfold nlen in Hl; lia]).
  assert (Hlast : wp (p ← getp i; _ ← (if hk then release (LProc i) else mret tt);
      if negb hk || negb (p_killed (p_sched p) =? 0) then _ ← release LWait; mret (-1)
      else _ ← sleep (proc_ptr i) LWait; mret (-1)) Q R (if hk then set_held [LProc i; LWait] s else s)).
  { apply wp_getp.
    replace (proc_at (if hk then set_held [LProc i; LWait] s else s) i) with (proc_at s i) by (by destruct hk). rewrite Ek.
    assert (Hs : wp (if negb hk || negb (p_killed (tat (tab_of s) i) =? 0) then _ ← release LWait; mret (-1) else _ ← sleep (proc_ptr i) LWait; mret (-1)) Q R s).
    { destruct hk eqn:Ehk; cbn [negb orb]; [destruct (Z.eqb_spec (p_killed (tat (tab_of s) i)) 0) as [E0|E0]; cbn [negb]|].
      - apply wp_bind, wp_sleep; [done|done|]. intros i' s' Hc' E'. assert (i' = i) as -> by congruence. by apply (HR i).
      - apply wp_bind, wp_release. intros _. rewrite Hh, filter_unlock by set_solver. apply wp_ret, (HN i); auto.
      - apply wp_bind, wp_release. intros _. rewrite Hh, filter_unlock by set_solver. apply wp_ret, (HN i); auto. }
    apply wp_bind. destruct hk; [|exact Hs]. apply wp_release. intros _. cbn [kn_held set_held]. rewrite filter_unlock by set_solver.
    rewrite <- Hh. destruct s. exact Hs. }
  destruct hk; [|exact Hlast]. apply wp_acquire. intros _. rewrite Hh. exact Hlast.
Qed.
End ops.
