(* ===== verification/ProcRefine.v ===== *)
(** The process table as a specification, and what it keeps.

    [kevent] are the runs of the kernel, each from a process entering it, or from
    the scheduler picking a process, to the return or to the scheduler; [kstep]
    executes one, and says what it returned.  [tspec] is the specification of
    each: what the event does to the abstract table and what it returns, and when
    it may fail.  [tstep] are the single changes to the table that these consist
    of, which keep the invariant [tab_inv]. *)
From S2P Require Import Prelude Riscv PhysMem Kalloc PageTable Memstat Proc FsIface Swap VmFault Bytes ProcTable ProcInv ProcLife.

(** ** The specification *)
Definition ttidy (i : nat) (t : tab) : tab :=
  let x := tat t i in tset i (mkSched (p_state x) 0 (p_killed x) (p_xstate x) (p_pid x) (p_parent x)) t.
Definition trun (i : nat) (t : tab) : tab :=
  let x := tat t i in tcur (Some i) (tset i (mkSched RUNNING (p_chan x) (p_killed x) (p_xstate x) (p_pid x) (p_parent x)) t).

Inductive tstep (t : tab) : tab -> Prop :=
  | TFork c n : t_cur t = Some c -> (n < nproc)%nat -> p_state (tat t n) = UNUSED -> t_next t < 2 ^ 31 - 1 -> tstep t (tfork c n t)
  | TFail n : (n < nproc)%nat -> p_state (tat t n) = UNUSED -> t_next t < 2 ^ 31 - 1 -> tstep t (tfail n t)
  | TExit i status : t_cur t = Some i -> proc_ptr i <> t_init t -> (i < nproc)%nat -> tstep t (texit i status t)
  | TReap i c : t_cur t = Some i -> (c < nproc)%nat -> p_state (tat t c) = ZOMBIE -> p_parent (tat t c) = proc_ptr i ->
      tstep t (tset c zero_sched t)
  | TSleep i ch : t_cur t = Some i -> tstep t (tsleep ch i t)
  | TYield i : t_cur t = Some i -> tstep t (tyield i t)
  | TWake ch : tstep t (twake ch t)
  | TKill i : (i < nproc)%nat -> tstep t (tset i (tkill1 (tat t i)) t)
  | TOom i : t_cur t = Some i -> tstep t (tkilled i t)
  | TRun i : t_cur t = None -> (i < nproc)%nat -> p_state (tat t i) = RUNNABLE -> tstep t (trun i t)
  | TTidy i : t_cur t = Some i -> tstep t (ttidy i t).

(** An entry in use; one whose process still runs. *)
Definition live (x : srec) : Prop := p_state x <> UNUSED.
Definition alive (x : srec) : Prop := p_state x <> UNUSED /\ p_state x <> ZOMBIE.

Record tab_inv (t : tab) : Prop := {
  ti_len : length (t_procs t) = nproc;
  ti_held : t_held t = [];
  ti_next : 0 < t_next t < 2 ^ 31;
  ti_pid : forall i, (i < nproc)%nat -> live (tat t i) -> 0 < p_pid (tat t i) < t_next t;
  ti_unique : forall i j, (i < nproc)%nat -> (j < nproc)%nat -> live (tat t i) -> live (tat t j) -> p_pid (tat t i) = p_pid (tat t j) -> i = j;
  ti_cur : forall i, (i < nproc)%nat -> p_state (tat t i) = RUNNING <-> t_cur t = Some i;
  ti_cur_lt : forall i, t_cur t = Some i -> (i < nproc)%nat;
  ti_init : exists k, (k < nproc)%nat /\ t_init t = proc_ptr k /\ alive (tat t k);
  ti_parent : forall i, (i < nproc)%nat -> live (tat t i) -> proc_ptr i <> t_init t ->
    exists j, (j < nproc)%nat /\ p_parent (tat t i) = proc_ptr j /\ alive (tat t j)
}.

(** ** Pointwise *)
Lemma nproc_eq : nproc = 64%nat.
Proof. reflexivity. Qed.

Lemma proc_ptr_inj i j : proc_ptr i = proc_ptr j -> i = j.
Proof. unfold proc_ptr. lia. Qed.

Lemma tat_twake_loop n c : forall i t j, (j < length (t_procs t))%nat ->
  tat (twake_loop n c i t) j =
  if decide (i <= j < i + n)%nat then (if bool_decide (t_cur t = Some j) then tat t j else twake1 c (tat t j)) else tat t j.
Proof.
  induction n as [|n IH]; intros i t j Hj; cbn [twake_loop].
  { rewrite decide_False by lia. done. }
  assert (Hlen : length (t_procs (twake_at c i t)) = length (t_procs t)) by (unfold twake_at; destruct (bool_decide _); [done|apply length_tset]).
  assert (Hcur : t_cur (twake_at c i t) = t_cur t) by (unfold twake_at; by destruct (bool_decide _)).
  rewrite IH by (by rewrite Hlen). rewrite Hcur.
  assert (Hat : tat (twake_at c i t) j = if decide (j = i) then (if bool_decide (t_cur t = Some j) then tat t j else twake1 c (tat t j)) else tat t j).
  { unfold twake_at. destruct (decide (j = i)) as [->|Hn].
    - destruct (bool_decide (t_cur t = Some i)); [done|]. by apply tat_tset.
    - destruct (bool_decide _); [done|]. apply tat_tset_ne. congruence. }
  rewrite Hat. destruct (decide (S i <= j < S i + n)%nat), (decide (i <= j < i + S n)%nat), (decide (j = i)); try lia; done.
Qed.

Lemma tat_twake c t j : length (t_procs t) = nproc -> (j < nproc)%nat ->
  tat (twake c t) j = if bool_decide (t_cur t = Some j) then tat t j else twake1 c (tat t j).
Proof.
  intros Hl Hj. unfold twake. rewrite (tat_twake_loop nproc c 0 t j) by (by rewrite Hl). by rewrite decide_True by lia.
Qed.

(** [x] is [y], or [y] woken up. *)
Definition woken (x y : srec) : Prop :=
  p_pid x = p_pid y /\ p_xstate x = p_xstate y /\ p_chan x = p_chan y /\
  (p_state x = p_state y \/ p_state y = SLEEPING /\ p_state x = RUNNABLE).

Lemma woken_refl x : woken x x.
Proof. unfold woken. auto. Qed.
Lemma woken_trans x y z : woken x y -> woken y z -> woken x z.
Proof. intros (?&?&?&[?|[??]]) (?&?&?&[?|[??]]); split_and!; try congruence; first [left; congruence|right; split; congruence]. Qed.
Lemma twake1_woken c x : woken (twake1 c x) x /\ p_parent (twake1 c x) = p_parent x.
Proof.
  unfold twake1. destruct (bool_decide_reflect (p_state x = SLEEPING)) as [E|]; [|split; [apply woken_refl|done]].
  destruct (p_chan x =? c); [|split; [apply woken_refl|done]]. cbn. split; [|done]. split_and!; try done. by right.
Qed.
Lemma twake_woken c t j : length (t_procs t) = nproc -> (j < nproc)%nat ->
  woken (tat (twake c t) j) (tat t j) /\ p_parent (tat (twake c t) j) = p_parent (tat t j).
Proof. intros Hl Hj. rewrite tat_twake by done. destruct (bool_decide _); [split; [apply woken_refl|done]|apply twake1_woken]. Qed.

Lemma woken_live x y : woken x y -> (live x <-> live y) /\ (alive x <-> alive y) /\ (p_state x = RUNNING <-> p_state y = RUNNING).
Proof. unfold live, alive. intros (_ & _ & _ & [->|[-> ->]]); split_and!; split; try done; intros; split; done. Qed.

Definition adopt (p : nat) (init x : Z) : Z := if x =? proc_ptr p then init else x.

Lemma treparent_loop_at n p : forall i t j, length (t_procs t) = nproc -> (i + n <= nproc)%nat -> (j < nproc)%nat ->
  let t' := treparent_loop n p i t in
  woken (tat t' j) (tat t j) /\
  p_parent (tat t' j) = if decide (i <= j < i + n)%nat then adopt p (t_init t) (p_parent (tat t j)) else p_parent (tat t j).
Proof.
  induction n as [|n IH]; intros i t j Hl Hi Hj; cbn [treparent_loop]; cbv zeta.
  { rewrite decide_False by lia. split; [apply woken_refl|done]. }
  set (x := tat t i). set (t1 := if p_parent x =? proc_ptr p then _ else t).
  assert (H1 : length (t_procs t1) = nproc /\ t_init t1 = t_init t /\ woken (tat t1 j) (tat t j) /\
    p_parent (tat t1 j) = if decide (j = i) then adopt p (t_init t) (p_parent (tat t j)) else p_parent (tat t j)).
  { unfold t1, adopt. destruct (Z.eqb_spec (p_parent x) (proc_ptr p)) as [E|E].
    - set (t0 := tset i _ t). assert (L0 : length (t_procs t0) = nproc) by (unfold t0; by rewrite length_tset).
      destruct (twake_rest (t_init t) t0) as (_ & _ & _ & ->). destruct (twake_woken (t_init t) t0 j L0 Hj) as [W ->].
      split; [by rewrite length_twake|]. split; [done|]. unfold t0 in *. destruct (decide (j = i)) as [->|Hn].
      + rewrite tat_tset in W |- * by lia. cbn [p_parent]. split; [exact W|]. fold x. rewrite (proj2 (Z.eqb_eq _ _) E). done.
      + rewrite tat_tset_ne in W |- * by congruence. done.
    - split_and!; [done|done|apply woken_refl|]. destruct (decide (j = i)) as [->|]; [|done]. fold x. by rewrite (proj2 (Z.eqb_neq _ _) E). }
  destruct H1 as (L1 & I1 & W1 & P1). destruct (IH (S i) t1 j L1 ltac:(lia) Hj) as [W2 P2].
  split; [by eapply woken_trans|]. rewrite P2, P1, I1.
  destruct (decide (S i <= j < S i + n)%nat), (decide (i <= j < i + S n)%nat), (decide (j = i)); try lia; done.
Qed.

Lemma treparent_at p t j : length (t_procs t) = nproc -> (j < nproc)%nat ->
  woken (tat (treparent p t) j) (tat t j) /\ p_parent (tat (treparent p t) j) = adopt p (t_init t) (p_parent (tat t j)).
Proof.
  intros Hl Hj. unfold treparent. destruct (treparent_loop_at nproc p 0 t j Hl (le_n _) Hj) as [W P].
  rewrite decide_True in P by lia. exact (conj W P).
Qed.

(** ** The invariant is kept *)
(** No entry comes into use; entries stay alive but for those in [E]. *)
Lemma inv_keep t t' (E : nat -> Prop) :
  tab_inv t -> length (t_procs t') = nproc -> t_held t' = [] -> t_init t' = t_init t -> t_next t <= t_next t' < 2 ^ 31 ->
  (forall j, (j < nproc)%nat -> live (tat t' j) -> live (tat t j) /\ p_pid (tat t' j) = p_pid (tat t j) /\
     (p_parent (tat t' j) = p_parent (tat t j) /\ (forall e, E e -> p_parent (tat t' j) <> proc_ptr e) \/ p_parent (tat t' j) = t_init t)) ->
  (forall j, (j < nproc)%nat -> alive (tat t j) -> ~ E j -> alive (tat t' j)) ->
  (forall e, E e -> proc_ptr e <> t_init t) ->
  (forall i, (i < nproc)%nat -> p_state (tat t' i) = RUNNING <-> t_cur t' = Some i) ->
  (forall i, t_cur t' = Some i -> (i < nproc)%nat) ->
  tab_inv t'.
Proof.
  intros [I1 I2 I3 I4 I5 I6 I7 (k & Hk & Ek & Ak) I9] L H Ini Nx Hj Ha He Hc Hcl.
  assert (Hk' : alive (tat t' k)) by (apply Ha; [done|done|]; intros Hek; by apply (He k Hek)).
  split; [done|done|lia| | |done|done| |].
  - intros i Hi Hli. destruct (Hj i Hi Hli) as (Hl & -> & _). specialize (I4 i Hi Hl). lia.
  - intros i j Hi Hjj Hli Hlj. destruct (Hj i Hi Hli) as (Hl1 & -> & _), (Hj j Hjj Hlj) as (Hl2 & -> & _). by apply I5.
  - exists k. by rewrite Ini.
  - intros i Hi Hli Hni. rewrite Ini in Hni. destruct (Hj i Hi Hli) as (Hl & _ & [[-> Hne]| ->]).
    + destruct (I9 i Hi Hl Hni) as (j & Hjn & Ej & Aj). exists j. split; [done|]. split; [done|]. apply Ha; [done|done|].
      intros HEj. by apply (Hne j HEj).
    + exists k. done.
Qed.

(** One entry changes its state, and no other field but the channel and the mark. *)
Definition restate (x : procstate) (c k : Z) (y : srec) : srec := mkSched x c k (p_xstate y) (p_pid y) (p_parent y).

Lemma tat_tset_if i x t j : length (t_procs t) = nproc -> (i < nproc)%nat -> tat (tset i x t) j = if decide (j = i) then x else tat t j.
Proof. intros Hl Hi. destruct (decide (j = i)) as [->|Hn]; [apply tat_tset; by rewrite Hl|apply tat_tset_ne; congruence]. Qed.

Lemma inv_restate t i x c k o :
  tab_inv t -> (i < nproc)%nat -> alive (tat t i) -> x <> UNUSED -> x <> ZOMBIE ->
  (forall j, (j < nproc)%nat -> (if decide (j = i) then x else p_state (tat t j)) = RUNNING <-> o = Some j) ->
  (forall j, o = Some j -> (j < nproc)%nat) ->
  tab_inv (tcur o (tset i (restate x c k (tat t i)) t)).
Proof.
  intros I Hi Ai Hx Hx' Hc Ho. pose proof (ti_len _ I) as Hl.
  apply (inv_keep t _ (fun _ => False) I); try done.
  - cbn. by rewrite length_insert.
  - apply I.
  - cbn. pose proof (ti_next _ I). lia.
  - intros j Hj. change (tat (tcur o ?y) j) with (tat y j). rewrite tat_tset_if by done. destruct (decide (j = i)) as [->|].
    2:{ intros Hlv. split; [done|]. split; [done|]. left. by split. }
    intros _. split; [apply Ai|]. split; [done|]. left. by split.
  - intros j Hj Aj _. change (tat (tcur o ?y) j) with (tat y j). rewrite tat_tset_if by done. by destruct (decide (j = i)).
  - intros j Hj. change (tat (tcur o ?y) j) with (tat y j). rewrite tat_tset_if by done. rewrite <- Hc by done. by destruct (decide (j = i)).
Qed.

Lemma inv_wake t c : tab_inv t -> tab_inv (twake c t).
Proof.
  intros I. pose proof (ti_len _ I) as Hl. destruct (twake_rest c t) as (Rc & Rh & Rn & Ri).
  assert (W : forall j, (j < nproc)%nat -> woken (tat (twake c t) j) (tat t j) /\ p_parent (tat (twake c t) j) = p_parent (tat t j))
    by (intros j Hj; by apply twake_woken).
  apply (inv_keep t _ (fun _ => False) I).
  - by rewrite length_twake.
  - rewrite Rh. apply I.
  - done.
  - rewrite Rn. pose proof (ti_next _ I). lia.
  - intros j Hj Hlj. destruct (W j Hj) as [Wj Pj]. split; [by apply (proj1 (woken_live _ _ Wj))|]. split; [apply Wj|]. left. by split.
  - intros j Hj Aj _. destruct (W j Hj) as [Wj _]. by apply (proj1 (proj2 (woken_live _ _ Wj))).
  - done.
  - intros j Hj. destruct (W j Hj) as [Wj _]. rewrite Rc. rewrite (proj2 (proj2 (woken_live _ _ Wj))). by apply I.
  - rewrite Rc. apply I.
Qed.

Lemma inv_exited t t2 i status c k :
  tab_inv t -> t_cur t = Some i -> proc_ptr i <> t_init t -> (i < nproc)%nat ->
  t_held t2 = t_held t -> t_next t2 = t_next t -> t_init t2 = t_init t -> length (t_procs t2) = nproc ->
  (forall j, (j < nproc)%nat -> woken (tat t2 j) (tat t j) /\ p_parent (tat t2 j) = adopt i (t_init t) (p_parent (tat t j))) ->
  tab_inv (tcur None (tset i (mkSched ZOMBIE c k status (p_pid (tat t2 i)) (p_parent (tat t2 i))) t2)).
Proof.
  intros I Hc Hini Hi Sh Sn Si L2 W. pose proof (ti_len _ I) as Hl. pose proof (proj2 (ti_cur _ I i Hi) Hc) as Hrun.
  set (x := mkSched ZOMBIE c k status _ _).
  assert (Hne : forall j, (j < nproc)%nat -> p_parent (tat t2 j) <> proc_ptr i).
  { intros j Hj. destruct (W j Hj) as [_ ->]. unfold adopt. destruct (Z.eqb_spec (p_parent (tat t j)) (proc_ptr i)); congruence. }
  assert (Hpar : forall j, (j < nproc)%nat -> p_parent (tat t2 j) = p_parent (tat t j) \/ p_parent (tat t2 j) = t_init t).
  { intros j Hj. destruct (W j Hj) as [_ ->]. unfold adopt. destruct (p_parent (tat t j) =? proc_ptr i); auto. }
  apply (inv_keep t _ (eq i) I).
  - cbn. by rewrite length_insert.
  - cbn. rewrite Sh. apply I.
  - exact Si.
  - cbn. rewrite Sn. pose proof (ti_next _ I). lia.
  - intros j Hj. change (tat (tcur None ?y) j) with (tat y j). rewrite tat_tset_if by done. destruct (decide (j = i)) as [->|Hn].
    + intros _. cbn. split; [unfold live; by rewrite Hrun|]. split; [apply (W i Hi)|].
      destruct (Hpar i Hi) as [E|E]; [left|by right]. split; [done|]. intros e <-. by apply Hne.
    + intros Hlv. split; [by apply (proj1 (woken_live _ _ (proj1 (W j Hj))))|]. split; [apply (W j Hj)|].
      destruct (Hpar j Hj) as [E|E]; [left|by right]. split; [done|]. intros e <-. by apply Hne.
  - intros j Hj Aj Hn. change (tat (tcur None ?y) j) with (tat y j). rewrite tat_tset_if by done. destruct (decide (j = i)) as [->|]; [done|].
    by apply (proj1 (proj2 (woken_live _ _ (proj1 (W j Hj))))).
  - intros e <-. done.
  - intros j Hj. change (tat (tcur None ?y) j) with (tat y j). rewrite tat_tset_if by done. cbn [t_cur tcur]. destruct (decide (j = i)) as [->|Hn].
    + by split.
    + rewrite (proj2 (proj2 (woken_live _ _ (proj1 (W j Hj))))). rewrite (ti_cur _ I j Hj), Hc. split; [congruence|done].
  - done.
Qed.

Lemma exited_at t i : length (t_procs t) = nproc ->
  let t1 := treparent i t in let t2 := twake (p_parent (tat t1 i)) t1 in
  (t_held t2 = t_held t /\ t_next t2 = t_next t /\ t_init t2 = t_init t /\ length (t_procs t2) = nproc) /\
  (forall j, (j < nproc)%nat -> woken (tat t2 j) (tat t j) /\ p_parent (tat t2 j) = adopt i (t_init t) (p_parent (tat t j))).
Proof.
  intros Hl t1 t2. destruct (treparent_rest i t) as (_ & Rh & Rn & Ri & Rl). fold t1 in Rh, Rn, Ri, Rl.
  assert (W1 : forall j, (j < nproc)%nat -> woken (tat t1 j) (tat t j) /\ p_parent (tat t1 j) = adopt i (t_init t) (p_parent (tat t j)))
    by exact (fun j => treparent_at i t j Hl).
  clearbody t1. destruct (twake_rest (p_parent (tat t1 i)) t1) as (_ & Sh & Sn & Si). fold t2 in Sh, Sn, Si.
  assert (L2 : length (t_procs t2) = nproc) by (unfold t2; by rewrite length_twake, Rl).
  assert (W2 : forall j, (j < nproc)%nat -> woken (tat t2 j) (tat t1 j) /\ p_parent (tat t2 j) = p_parent (tat t1 j)).
  { intros j. apply (twake_woken (p_parent (tat t1 i)) t1 j). congruence. }
  clearbody t2. split; [split_and!; congruence|]. intros j Hj. destruct (W1 j Hj) as [V1 P1], (W2 j Hj) as [V2 P2].
  split; [by eapply woken_trans|congruence].
Qed.

Lemma inv_exit t i status : tab_inv t -> t_cur t = Some i -> proc_ptr i <> t_init t -> (i < nproc)%nat -> tab_inv (texit i status t).
Proof.
  intros I Hc Hini Hi. destruct (exited_at t i (ti_len _ I)) as [(Sh & Sn & Si & L2) W]. unfold texit. cbv zeta.
  exact (inv_exited t _ i status _ _ I Hc Hini Hi Sh Sn Si L2 W).
Qed.

Lemma i32_next n : 0 < n < 2 ^ 31 - 1 -> i32 (n + 1) = n + 1.
Proof. intros Hn. unfold i32, u32. rewrite Z.mod_small by lia. destruct (Z.ltb_spec (n + 1) (2 ^ 31)); lia. Qed.

Lemma inv_fork t c n : tab_inv t -> t_cur t = Some c -> (n < nproc)%nat -> p_state (tat t n) = UNUSED -> t_next t < 2 ^ 31 - 1 ->
  tab_inv (tfork c n t).
Proof.
  intros I Hc Hn Hu Hx. pose proof (ti_next _ I) as Hnx. destruct I as [I1 I2 I3 I4 I5 I6 I7 (k & Hk & Ek & Ak) I9].
  assert (At : forall j, tat (tfork c n t) j = if decide (j = n) then mkSched RUNNABLE (p_chan (tat t n)) (p_killed (tat t n)) (p_xstate (tat t n)) (t_next t) (proc_ptr c)
    else tat t j) by (intros j; unfold tfork; cbv zeta; by rewrite tat_tset_if).
  assert (Hnn : ~ alive (tat t n)) by (intros [H _]; done).
  assert (Hkn : k <> n) by (intros ->; done).
  assert (Hal : forall j, alive (tat t j) -> alive (tat (tfork c n t) j)) by (intros j Aj; rewrite At; destruct (decide (j = n)) as [->|]; done).
  pose proof (proj2 (I6 c (I7 c Hc)) Hc) as Hrun.
  assert (Enx : t_next (tfork c n t) = t_next t + 1) by (apply i32_next; lia).
  split.
  - unfold tfork. cbn. by rewrite length_insert.
  - exact I2.
  - rewrite Enx. lia.
  - intros i Hi. rewrite Enx, At. destruct (decide (i = n)); cbn [p_pid]; intros Hl; [lia|].
    specialize (I4 i Hi Hl). lia.
  - intros i j Hi Hj. rewrite !At. destruct (decide (i = n)) as [->|], (decide (j = n)) as [->|]; cbn [p_pid]; try done.
    + intros _ Hl E. specialize (I4 j Hj Hl). lia.
    + intros Hl _ E. specialize (I4 i Hi Hl). lia.
    + by apply I5.
  - intros i Hi. rewrite At. change (t_cur (tfork c n t)) with (t_cur t). destruct (decide (i = n)) as [->|]; [|by apply I6].
    cbn [p_state]. rewrite <- I6 by done. rewrite Hu. done.
  - exact I7.
  - exists k. split; [done|]. split; [done|]. by apply Hal.
  - intros i Hi. change (t_init (tfork c n t)) with (t_init t). rewrite At. destruct (decide (i = n)) as [->|].
    + intros _ _. exists c. split; [by apply I7|]. split; [done|]. apply Hal. split; by rewrite Hrun.
    + intros Hl Hni. destruct (I9 i Hi Hl Hni) as (j & Hj & Ej & Aj). exists j. split; [done|]. split; [done|]. by apply Hal.
Qed.

(** An entry is freed. *)
Lemma inv_free t n nx : tab_inv t -> (n < nproc)%nat -> ~ alive (tat t n) -> t_next t <= nx < 2 ^ 31 ->
  tab_inv (tset n zero_sched (tnext nx t)).
Proof.
  intros I Hn Hu Hx. pose proof (ti_len _ I) as Hl.
  assert (At : forall j, tat (tset n zero_sched (tnext nx t)) j = if decide (j = n) then zero_sched else tat t j)
    by (intros j; by rewrite tat_tset_if).
  apply (inv_keep t _ (fun _ => False) I); try done.
  - cbn. by rewrite length_insert.
  - apply I.
  - intros j Hj. rewrite At. destruct (decide (j = n)) as [->|]; [done|]. intros Hlv. split; [done|]. split; [done|]. left. by split.
  - intros j Hj Aj _. rewrite At. destruct (decide (j = n)) as [->|]; done.
  - intros j Hj. rewrite At. change (t_cur (tset n zero_sched (tnext nx t))) with (t_cur t). destruct (decide (j = n)) as [->|]; [|by apply I].
    split; [done|]. rewrite <- (ti_cur _ I n Hn). intros E. exfalso. apply Hu. split; by rewrite E.
  - apply I.
Qed.

Lemma tnext_id t : tnext (t_next t) t = t.
Proof. by destruct t. Qed.
Lemma tcur_id t : tcur (t_cur t) t = t.
Proof. by destruct t. Qed.

Lemma cur_running t i : tab_inv t -> t_cur t = Some i -> (i < nproc)%nat /\ alive (tat t i) /\
  forall j, (j < nproc)%nat -> p_state (tat t j) = RUNNING -> j = i.
Proof.
  intros I Hc. pose proof (ti_cur_lt _ I i Hc) as Hi. pose proof (proj2 (ti_cur _ I i Hi) Hc) as Hr.
  split; [done|]. split; [split; by rewrite Hr|]. intros j Hj H. apply (ti_cur _ I j Hj) in H. congruence.
Qed.

(** A mark changes nothing else. *)
Lemma inv_killed t i : tab_inv t -> (i < nproc)%nat -> tab_inv (tset i (killed_rec (tat t i)) t).
Proof.
  intros I Hi. pose proof (ti_len _ I) as Hl. apply (inv_keep t _ (fun _ => False) I); try done.
  - cbn. by rewrite length_insert.
  - apply I.
  - cbn. pose proof (ti_next _ I). lia.
  - intros j Hj. rewrite tat_tset_if by done. destruct (decide (j = i)) as [->|]; intros Hlv; (split; [exact Hlv|]); (split; [done|]); left; by split.
  - intros j Hj Aj _. rewrite tat_tset_if by done. by destruct (decide (j = i)) as [->|].
  - intros j Hj. rewrite tat_tset_if by done. change (t_cur (tset i ?x t)) with (t_cur t). rewrite <- (ti_cur _ I j Hj). by destruct (decide (j = i)) as [->|].
  - apply I.
Qed.

Lemma inv_step t t' : tab_inv t -> tstep t t' -> tab_inv t'.
Proof.
  intros I [c n Hc Hn Hu Hx|n Hn Hu Hx|i st Hc Hni Hi|i c Hc Hn Hz Hp|i ch Hc|i Hc|ch|i Hi|i Hc|i Hc Hi Hr|i Hc].
  - by apply inv_fork.
  - unfold tfail. pose proof (ti_next _ I). rewrite i32_next by lia. apply inv_free; [done|done|intros [? _]; done|lia].
  - by apply inv_exit.
  - rewrite <- (tnext_id t) at 1. apply inv_free; [done|done|intros [_ ?]; done|pose proof (ti_next _ I); lia].
  - destruct (cur_running t i I Hc) as (Hi & Ai & Hu). apply inv_restate; try done.
    intros j Hj. destruct (decide (j = i)) as [->|Hn]; [done|]. split; [|done]. intros H. by destruct (Hn (Hu j Hj H)).
  - destruct (cur_running t i I Hc) as (Hi & Ai & Hu). apply (inv_restate t i RUNNABLE); try done.
    intros j Hj. destruct (decide (j = i)) as [->|Hn]; [done|]. split; [|done]. intros H. by destruct (Hn (Hu j Hj H)).
  - by apply inv_wake.
  - unfold tkill1. destruct (bool_decide_reflect (p_state (tat t i) = SLEEPING)) as [E|E].
    + assert (Ai : alive (tat t i)) by (split; by rewrite E). pose proof (inv_restate t i RUNNABLE (p_chan (tat t i)) 1 (t_cur t) I Hi Ai) as H.
      apply H; [done|done| |apply I]. intros j Hj. rewrite <- (ti_cur _ I j Hj). destruct (decide (j = i)) as [->|]; [|done].
      by rewrite E.
    + by apply inv_killed.
  - apply inv_killed; [done|]. by apply (ti_cur_lt _ I).
  - assert (Ai : alive (tat t i)) by (split; by rewrite Hr). apply (inv_restate t i RUNNING); try done.
    + intros j Hj. destruct (decide (j = i)) as [->|Hn]; [done|]. rewrite (ti_cur _ I j Hj), Hc. split; congruence.
    + intros j [= <-]. done.
  - destruct (cur_running t i I Hc) as (Hi & Ai & Hu). unfold ttidy. cbv zeta.
    pose proof (inv_restate t i (p_state (tat t i)) 0 (p_killed (tat t i)) (t_cur t) I Hi Ai) as H. destruct Ai as [A1 A2].
    apply H; [done|done| |apply I]. intros j Hj. rewrite <- (ti_cur _ I j Hj). by destruct (decide (j = i)) as [->|].
Qed.

Lemma inv_steps t t' : tab_inv t -> rtc tstep t t' -> tab_inv t'.
Proof. intros I. induction 1 as [|t t1 t' H1 _ IH]; [done|]. apply IH. by eapply inv_step. Qed.

(** ** The events and their specification *)
Inductive kevent : Type :=
  | KFork | KExit (status : Z) | KWait (addr : Z) | KKill (pd : Z) | KYield | KSleep (c a : Z) | KWakeup (c : Z)
  (** the scheduler picks a process that was preempted or is new, that slept in
      [sleep] with the lock [a], or that slept in [kwait] *)
  | KUser (i : nat) | KWoken (i : nat) (a : Z) | KWaitAgain (i : nat) (addr : Z).

Section spec.
(** What the table does not say: whether there is memory for a child of process
    [c], and what copying an exit status out to process [i] returns. *)
Context (room : nat -> bool -> Prop) (copy : nat -> Z -> Z -> Z -> Prop).

(** [kwait] by [i]: the first zombie child is reaped and its pid returned, unless
    its status cannot be copied out; without a zombie child it fails when there is
    no child or the process is killed, and else the process sleeps on itself. *)
Inductive twait (i : nat) (addr : Z) (t : tab) : option Z -> tab -> Prop :=
  | tw_reap c rc t1 : zombie_child i t = Some c -> copy i addr (p_xstate (tat t c)) rc -> 0 <= rc -> copy_kill i addr t t1 ->
      twait i addr t (Some (p_pid (tat t c))) (tset c zero_sched t1)
  | tw_fault c rc t1 : zombie_child i t = Some c -> copy i addr (p_xstate (tat t c)) rc -> rc < 0 -> copy_kill i addr t t1 ->
      twait i addr t (Some (-1)) t1
  | tw_none : zombie_child i t = None -> has_child i t = false \/ p_killed (tat t i) <> 0 -> twait i addr t (Some (-1)) t
  | tw_sleep : zombie_child i t = None -> has_child i t = true -> p_killed (tat t i) = 0 ->
      twait i addr t None (tsleep (proc_ptr i) i t).

(** What an event returns ([None]: the CPU goes to the scheduler) and the table
    after it. *)
Inductive tspec (t : tab) : kevent -> option Z -> tab -> Prop :=
  | sp_fork_full c : t_cur t = Some c -> first_free t = None -> tspec t KFork (Some (-1)) t
  | sp_fork_fail c n : t_cur t = Some c -> first_free t = Some n -> room c false -> tspec t KFork (Some (-1)) (tfail n t)
  | sp_fork c n : t_cur t = Some c -> first_free t = Some n -> room c true -> tspec t KFork (Some (t_next t)) (tfork c n t)
  | sp_exit i status : t_cur t = Some i -> proc_ptr i <> t_init t -> tspec t (KExit status) None (texit i status t)
  | sp_wait i addr r t' : t_cur t = Some i -> twait i addr t r t' -> tspec t (KWait addr) r t'
  | sp_kill pd i : by_pid pd t = Some i -> tspec t (KKill pd) (Some 0) (tset i (tkill1 (tat t i)) t)
  | sp_kill_none pd : by_pid pd t = None -> tspec t (KKill pd) (Some (-1)) t
  | sp_yield i : t_cur t = Some i -> tspec t KYield None (tyield i t)
  | sp_sleep c a i : t_cur t = Some i -> tspec t (KSleep c a) None (tsleep c i t)
  | sp_wakeup c : tspec t (KWakeup c) (Some 0) (twake c t)
  | sp_user i : t_cur t = None -> p_state (tat t i) = RUNNABLE -> tspec t (KUser i) (Some 0) (trun i t)
  | sp_woken i a : t_cur t = None -> p_state (tat t i) = RUNNABLE -> tspec t (KWoken i a) (Some 0) (ttidy i (trun i t))
  | sp_again i addr r t' : t_cur t = None -> p_state (tat t i) = RUNNABLE -> twait i addr (ttidy i (trun i t)) r t' ->
      tspec t (KWaitAgain i addr) r t'.

Lemma first_lt (f : srec -> bool) t i : length (t_procs t) = nproc -> first_index f (t_procs t) = Some i ->
  (i < nproc)%nat /\ f (tat t i) = true.
Proof.
  intros Hl H. pose proof (first_index_lt _ _ _ H) as Hi. rewrite Hl in Hi. split; [done|].
  apply first_index_Some in H as [(x & Hx & Hf) _]. unfold tat. by rewrite (list_lookup_total_correct _ _ _ Hx).
Qed.

Lemma twait_steps i addr t r t' : length (t_procs t) = nproc -> t_cur t = Some i -> p_state (tat t i) <> ZOMBIE ->
  twait i addr t r t' -> rtc tstep t t'.
Proof.
  intros Hl Hc Hnz.
  assert (Hk : forall t1, copy_kill i addr t t1 -> rtc tstep t t1 /\ t_cur t1 = Some i /\
    forall j, j <> i -> tat t1 j = tat t j).
  { intros t1 [->|[_ ->]]; [split; [apply rtc_refl|done]|]. split; [apply rtc_once; by apply TOom|]. split; [done|]. intros j Hj. by apply tat_tset_ne. }
  intros [c rc t1 Hz _ _ K|c rc t1 Hz _ _ K| |]; try (by apply Hk).
  - destruct (first_lt _ t c Hl Hz) as [Hcn [Hp%Z.eqb_eq Hs%bool_decide_eq_true]%andb_true_iff].
    destruct (Hk t1 K) as (R & Hc1 & Ho). assert (Hne : c <> i) by (intros ->; done).
    eapply rtc_r; [exact R|]. apply (TReap _ i); [done|done|by rewrite Ho|by rewrite Ho].
  - apply rtc_refl.
  - apply rtc_once. by apply TSleep.
Qed.

(** Each event is a sequence of steps. *)
Lemma tspec_steps t e r t' : tab_inv t -> t_next t < 2 ^ 31 - 1 ->
  match e with KUser i | KWoken i _ | KWaitAgain i _ => (i < nproc)%nat | _ => True end -> tspec t e r t' -> rtc tstep t t'.
Proof.
  intros I Hn He. pose proof (ti_len _ I) as Hl.
  assert (Hff : forall n, first_free t = Some n -> (n < nproc)%nat /\ p_state (tat t n) = UNUSED).
  { intros n H. destruct (first_lt _ t n Hl H) as [Hi Hu%bool_decide_eq_true]. done. }
  assert (Hrz : forall i, t_cur t = Some i -> p_state (tat t i) <> ZOMBIE).
  { intros i Hc. by rewrite (proj2 (ti_cur _ I i (ti_cur_lt _ I i Hc)) Hc). }
  destruct 1 as [c Hc Hf|c n Hc Hf _|c n Hc Hf _|i st Hc Hi|i addr r t' Hc W|pd i Hp|pd Hp|i Hc|c a i Hc|c|i Hc Hr|i a Hc Hr|i addr r t' Hc Hr W].
  - apply rtc_refl.
  - destruct (Hff n Hf). apply rtc_once. by apply TFail.
  - destruct (Hff n Hf). apply rtc_once. by apply TFork.
  - apply rtc_once. apply TExit; [done|done|by apply (ti_cur_lt _ I)].
  - eapply twait_steps; [done|exact Hc|by apply Hrz|exact W].
  - apply rtc_once. apply TKill. by apply (first_lt _ t i Hl Hp).
  - apply rtc_refl.
  - apply rtc_once. by apply TYield.
  - apply rtc_once. by apply TSleep.
  - apply rtc_once. apply TWake.
  - apply rtc_once. by apply TRun.
  - eapply rtc_l; [by apply TRun|]. apply rtc_once. by apply TTidy.
  - eapply rtc_l; [by apply TRun|]. eapply rtc_l; [by apply (TTidy (trun i t) i)|].
    assert (L1 : length (t_procs (ttidy i (trun i t))) = nproc) by (cbn; by rewrite !length_insert).
    eapply twait_steps; [exact L1|done| |exact W]. unfold ttidy. cbv zeta. rewrite tat_tset by (cbn; rewrite length_insert; lia).
    cbn [p_state]. unfold trun. cbv zeta. change (tat (tcur ?o ?x) i) with (tat x i). by rewrite tat_tset by lia.
Qed.
End spec.

(** ** The kernel's runs *)
Section runs.
Context `{HL : Layout} {F : Type} `{FO : !FsOps F} `{PF : !ProcFs F} `{PO : !Policy} (fa : Z).
Implicit Types (s : kern F) (t : tab).

Definition krun (e : kevent) : M (kern F) Z :=
  match e with
  | KFork => kfork fa
  | KExit status => _ ← kexit status; mret 0
  | KWait addr => kwait addr
  | KKill pd => kkill pd
  | KYield => _ ← yield; mret 0
  | KSleep c a => _ ← acquire (LCond a); _ ← sleep c (LCond a); mret 0
  | KWakeup c => _ ← wakeup c; mret 0
  | KUser i => _ ← pick i; _ ← yield_exit; mret 0
  | KWoken i a => _ ← pick i; _ ← sleep_exit (LCond a); _ ← release (LCond a); mret 0
  | KWaitAgain i addr => _ ← pick i; kwait_resume addr
  end.

(** The scheduler runs when no process does. *)
Definition enabled (e : kevent) s : Prop :=
  match e with
  | KUser i | KWoken i _ | KWaitAgain i _ => kn_cur s = None /\ (i < nproc)%nat
  | _ => True
  end.

(** One event, with what it returns when it does not end in the scheduler. *)
Definition kstep (e : kevent) (r : option Z) s s' : Prop :=
  enabled e s /\ kn_nextpid s < 2 ^ 31 - 1 /\
  match r with
  | Some v => krun e s = Ret v s'
  | None => exists s1, krun e s = Block "sched" s1 /\ s' = back s1
  end.

Lemma wp_kstep e r s s' (P : option Z -> tab -> Prop) :
  wp (krun e) (fun v x => P (Some v) (tab_of x)) (fun x => P None (tab_of (back x))) s -> kstep e r s s' -> P r (tab_of s').
Proof.
  intros H (_ & _ & K). unfold wp in H. destruct r as [v|]; [by rewrite K in H|]. destruct K as (s1 & E & ->). rewrite E in H. by apply H.
Qed.

Lemma wp_pick i (Q : unit -> kern F -> Prop) R s :
  nlen s -> kn_held s = [] -> (i < nproc)%nat ->
  (forall s', p_state (tat (tab_of s) i) = RUNNABLE -> nlen s' -> tab_of s' = theld [LProc i] (trun i (tab_of s)) ->
     (exists x, proc_at s' i = set_sched x (proc_at s i)) -> kn_pm s' = kn_pm s /\ kn_fs s' = kn_fs s /\ kn_out s' = kn_out s -> Q tt s') ->
  wp (pick i) Q R s.
Proof.
  intros Hl Hh Hi HQ. unfold pick. apply wp_bind, wp_acquire. intros _. rewrite Hh. apply wp_getp.
  change (proc_at (set_held [LProc i] s) i) with (proc_at s i).
  destruct (bool_decide_reflect (state_of (proc_at s i) = RUNNABLE)) as [E|]; [|done].
  assert (Hi' : (i < length (kn_procs s))%nat) by (unfold nlen in Hl; by rewrite Hl).
  apply wp_bind, wp_modpr. unfold wp, modS. apply HQ.
  - rewrite lookup_tab by done. exact E.
  - unfold nlen. cbn. by rewrite length_insert.
  - rewrite tab_cur, tab_put. unfold trun. rewrite lookup_tab by done. done.
  - eexists. unfold proc_at. cbn. by rewrite list_lookup_total_insert_eq by done.
  - done.
Qed.

Lemma tidy_tab i s : (i < length (kn_procs s))%nat -> tset i (p_sched (set_chan 0 (proc_at s i))) (tab_of s) = ttidy i (tab_of s).
Proof. intros Hi. unfold ttidy. rewrite lookup_tab by done. done. Qed.

(** Back from [sched], with the process's lock. *)
Lemma wp_sleep_exit i lk (Q : unit -> kern F -> Prop) R s t :
  nlen s -> (i < nproc)%nat -> tab_of s = theld [LProc i] (trun i t) -> t_held t = [] ->
  (forall s', nlen s' -> tab_of s' = theld [lk] (ttidy i (trun i t)) ->
     (exists x, proc_at s' i = set_sched x (proc_at s i)) -> kn_pm s' = kn_pm s /\ kn_fs s' = kn_fs s /\ kn_out s' = kn_out s -> Q tt s') ->
  wp (sleep_exit lk) Q R s.
Proof.
  intros Hl Hi E Ht HQ. unfold sleep_exit. apply wp_curproc. intros j Hj.
  assert (j = i) as ->. { change (kn_cur s) with (t_cur (tab_of s)) in Hj. rewrite E in Hj. cbn in Hj. congruence. }
  assert (Hh : kn_held s = [LProc i]) by (change (kn_held s) with (t_held (tab_of s)); by rewrite E).
  assert (Hi' : (i < length (kn_procs s))%nat) by (unfold nlen in Hl; by rewrite Hl).
  apply wp_bind, wp_modpr, wp_bind, wp_release. intros _. cbn [kn_held put_proc set_procs]. rewrite Hh, filter_unlock by set_solver.
  apply wp_acquire. intros _. cbn [kn_held set_held]. apply HQ.
  - unfold nlen. cbn. by rewrite length_insert.
  - rewrite tab_held. change (tab_of (set_held ?l ?x)) with (theld l (tab_of x)). rewrite tab_put, tidy_tab, E by done. done.
  - eexists. unfold proc_at. cbn. by rewrite list_lookup_total_insert_eq by done.
  - done.
Qed.

(** The room for a child, and the copy of an exit status, in the state [s]; the
    scheduling fields of the process do not matter for the copy. *)
Definition room s (c : nat) (b : bool) : Prop := exists m, fork_mem (proc_at s c) (kn_pm s) = Ret b m.
Definition copies s (i : nat) (addr st rc : Z) : Prop :=
  if addr =? 0 then rc = 0
  else exists x k', copyout (pagetable (proc_at s i)) addr (le_bytes 4 st)
         (mkK (kn_pm s) (set_sched x (proc_at s i)) (kn_fs s) (kn_out s)) = Ret rc k'.

Lemma copied_copies s s' i addr st rc :
  (exists x, proc_at s' i = set_sched x (proc_at s i)) -> kn_pm s' = kn_pm s /\ kn_fs s' = kn_fs s /\ kn_out s' = kn_out s ->
  copied s' i addr st rc -> copies s i addr st rc.
Proof.
  intros [x Ex] (Ep & Ef & Eo). unfold copied, copies. destruct (addr =? 0); [done|]. intros [k' R]. rewrite Ex, Ep, Ef, Eo in R.
  exists x, k'. exact R.
Qed.

Lemma set_sched_id p : set_sched (p_sched p) p = p.
Proof. by destruct p. Qed.

(** [kwait] from its loop, with [s0] the state the event started in. *)
Lemma wp_kwait_spec s0 i addr s t :
  nlen s -> kn_held s = [LWait] -> kn_cur s = Some i -> (i < nproc)%nat -> theld [] (tab_of s) = t ->
  (exists x, proc_at s i = set_sched x (proc_at s0 i)) -> kn_pm s = kn_pm s0 /\ kn_fs s = kn_fs s0 /\ kn_out s = kn_out s0 ->
  wp (kwait_loop addr) (fun v x => twait (copies s0) i addr t (Some v) (tab_of x)) (fun x => twait (copies s0) i addr t None (tab_of (back x))) s.
Proof.
  intros Hl Hh Hc Hi Et Hx Hm. apply wp_kwait_loop; [done|done|intros j Hj; congruence|..].
  - intros j s' Hj Hz Hk E. assert (j = i) as -> by congruence. rewrite E, Et. subst t. by apply tw_none.
  - intros j c rc t1 s' Hj Hz Hcp Hrc K E. assert (j = i) as -> by congruence. rewrite E. subst t.
    apply (tw_fault _ _ _ _ c rc); [done|by eapply copied_copies|done|]. destruct K as [->|[Ha ->]]; [by left|by right].
  - intros j c rc t1 s' Hj Hz Hcp Hrc K E. assert (j = i) as -> by congruence. rewrite E. subst t.
    change (theld [] (tset c zero_sched t1)) with (tset c zero_sched (theld [] t1)). change (tat (tab_of s) c) with (tat (theld [] (tab_of s)) c).
    apply (tw_reap _ _ _ _ c rc); [done|by eapply copied_copies|done|]. destruct K as [->|[Ha ->]]; [by left|by right].
  - intros j s' Hj Hz Hk Hkl E. assert (j = i) as -> by congruence. rewrite E. subst t. by apply tw_sleep.
Qed.

(** A run from [s] is what its event is specified to be. *)
Definition meets (e : kevent) s : Prop :=
  wp (krun e) (fun v x => tspec (room s) (copies s) (tab_of s) e (Some v) (tab_of x))
    (fun x => tspec (room s) (copies s) (tab_of s) e None (tab_of (back x))) s.

(** The scheduler resumes a process. *)
Lemma meets_user s i : nlen s -> kn_held s = [] -> kn_cur s = None -> (i < nproc)%nat -> meets (KUser i) s.
Proof.
  intros Hl Hh Hc Hi. unfold meets. cbn [krun]. apply wp_bind, wp_pick; [done|done|done|]. intros s1 Hr L1 E1 _ _. apply wp_bind. unfold yield_exit. apply wp_curproc. intros j _.
  apply wp_release. intros Hj. apply wp_ret. rewrite tab_held, E1.
  assert (H1 : kn_held s1 = [LProc i]) by (change (kn_held s1) with (t_held (tab_of s1)); by rewrite E1).
  rewrite H1 in *. apply list_elem_of_singleton in Hj as ->. rewrite filter_unlock by set_solver.
  change (theld [] (theld ?l (trun i ?t))) with (trun i (theld [] t)). rewrite theld_id by done. by apply sp_user.
Qed.

Lemma meets_woken s i a : nlen s -> kn_held s = [] -> kn_cur s = None -> (i < nproc)%nat -> meets (KWoken i a) s.
Proof.
  intros Hl Hh Hc Hi. unfold meets. cbn [krun]. apply wp_bind, wp_pick; [done|done|done|]. intros s1 Hr L1 E1 _ _.
  apply wp_bind, (wp_sleep_exit i _ _ _ _ (tab_of s)); [done|done|done|done|]. intros s2 L2 E2 _ _. apply wp_bind, wp_release. intros _. apply wp_ret.
  assert (H2 : kn_held s2 = [LCond a]) by (change (kn_held s2) with (t_held (tab_of s2)); by rewrite E2).
  rewrite H2, filter_unlock, tab_held, E2 by set_solver.
  assert (theld [] (theld [LCond a] (ttidy i (trun i (tab_of s)))) = ttidy i (trun i (tab_of s))) as ->.
  { rewrite <- (theld_id s Hh). done. }
  by apply sp_woken.
Qed.

Lemma meets_again s i addr : nlen s -> kn_held s = [] -> kn_cur s = None -> (i < nproc)%nat -> meets (KWaitAgain i addr) s.
Proof.
  intros Hl Hh Hc Hi. unfold meets. cbn [krun]. apply wp_bind, wp_pick; [done|done|done|]. intros s1 Hr L1 E1 [x1 X1] (M1 & M1' & M1''). unfold kwait_resume. apply wp_bind.
  apply (wp_sleep_exit i _ _ _ _ (tab_of s)); [done|done|done|done|]. intros s2 L2 E2 [x2 X2] (M2 & M2' & M2'').
  assert (H2 : kn_held s2 = [LWait]) by (change (kn_held s2) with (t_held (tab_of s2)); by rewrite E2).
  assert (Et : theld [] (tab_of s2) = ttidy i (trun i (tab_of s))) by (rewrite E2; rewrite <- (theld_id s Hh) at 2; done).
  assert (Hc2 : kn_cur s2 = Some i) by (change (kn_cur s2) with (t_cur (tab_of s2)); by rewrite E2).
  eapply wp_mono; [apply (wp_kwait_spec s i addr s2 _ L2 H2 Hc2 Hi Et)|..].
  + exists x2. rewrite X2, X1. by destruct (proc_at s i).
  + split_and!; congruence.
  + intros v x W. by apply sp_again.
  + intros x W. by apply sp_again.
Qed.

(** Every run is what its event is specified to be. *)
Lemma kstep_spec e r s s' : tab_inv (tab_of s) -> kstep e r s s' -> tspec (room s) (copies s) (tab_of s) e r (tab_of s').
Proof.
  intros I K. pose proof K as (En & _ & _). revert K. apply (wp_kstep e r s s' (fun r t' => tspec (room s) (copies s) (tab_of s) e r t')).
  assert (Hl : nlen s) by (unfold nlen; rewrite <- length_tab; apply I). pose proof (ti_held _ I : kn_held s = []) as Hh.
  assert (Hcur : forall i, kn_cur s = Some i -> (i < nproc)%nat) by exact (ti_cur_lt _ I).
  assert (Hrun : forall i, kn_cur s = Some i -> p_state (tat (tab_of s) i) <> UNUSED).
  { intros i Hc. by rewrite (proj2 (ti_cur _ I i (Hcur i Hc)) Hc). }
  destruct e as [|st|addr|pd| |c a|c|i|i a|i addr]; cbn [krun enabled] in *.
  - apply wp_kfork; [done|done|done|..].
    + intros c Hc Hf. by eapply sp_fork_full.
    + intros c n m s1 Hc Hf Em E. rewrite E. eapply sp_fork_fail; [exact Hc|done|by exists m].
    + intros c n m s1 Hc Hf Em E. rewrite E. change (kn_nextpid s) with (t_next (tab_of s)). eapply sp_fork; [exact Hc|done|by exists m].
  - apply wp_bind, wp_kexit; [done|done| |done]. intros i s1 Hc Hni Hi E. rewrite E. by apply sp_exit.
  - unfold kwait. apply wp_bind, wp_acquire. intros _. rewrite Hh.
    destruct (kn_cur s) as [i|] eqn:Hc.
    2:{ unfold wp, kwait_loop, curproc, mbind, M_bind. cbn [kn_cur set_held]. by rewrite Hc. }
    eapply wp_mono; [apply (wp_kwait_spec s i addr (set_held [LWait] s) (tab_of s)); try done|..].
    + by apply Hcur.
    + rewrite tab_held. change (theld [] (theld ?l ?t)) with (theld [] t). by apply theld_id.
    + exists (p_sched (proc_at s i)). change (proc_at (set_held [LWait] s) i) with (proc_at s i). by rewrite set_sched_id.
    + intros v x W. by apply (sp_wait _ _ _ i).
    + intros x W. by apply (sp_wait _ _ _ i).
  - apply wp_kkill; [done|by apply sp_kill_none|]. intros i s1 Hp E. rewrite E. by apply sp_kill.
  - apply wp_bind, wp_yield; [done|done|]. intros i s1 Hc E. rewrite E. by apply sp_yield.
  - apply wp_bind, wp_acquire. intros _. rewrite Hh. apply wp_bind, wp_sleep; [done|done|]. intros i s1 Hc E. rewrite E, tab_held.
    change (theld [] (theld ?l ?t)) with (theld [] t). rewrite theld_id by done. by apply sp_sleep.
  - apply wp_bind, wp_wakeup; [done|]. intros s1 E. apply wp_ret. rewrite E. apply sp_wakeup.
  - destruct En as [Hc Hi]. by apply meets_user.
  - destruct En as [Hc Hi]. by apply meets_woken.
  - destruct En as [Hc Hi]. by apply meets_again.
Qed.

Lemma kstep_steps e r s s' : tab_inv (tab_of s) -> kstep e r s s' -> rtc tstep (tab_of s) (tab_of s').
Proof.
  intros I K. pose proof K as (En & Hn & _). eapply tspec_steps; [exact I|exact Hn| |by apply (kstep_spec e r s s')].
  destruct e; try done; apply En.
Qed.
End runs.
