(* ===== verification/ProcSched.v ===== *)
(** What the process table guarantees: the theorems about kernel/proc.c. *)
From S2P Require Import Prelude Riscv PhysMem Kalloc PageTable Memstat Proc FsIface Swap VmFault ProcTable ProcInv ProcLife ProcRefine.

Section claims.
Context `{HL : Layout} {F : Type} `{FO : !FsOps F} `{PF : !ProcFs F} `{PO : !Policy} (fa : Z).
Implicit Types (s : kern F) (t : tab).

Lemma inv_nlen s : tab_inv (tab_of s) -> nlen s.
Proof. intros I. unfold nlen. rewrite <- length_tab. apply I. Qed.

Lemma inv_cur_lt s : tab_inv (tab_of s) -> forall i, kn_cur s = Some i -> (i < nproc)%nat.
Proof. intros I. exact (ti_cur_lt _ I). Qed.

(** Any sequence of runs. *)
Definition kany s s' : Prop := exists e r, kstep fa e r s s'.

Lemma kany_inv s s' : tab_inv (tab_of s) -> kany s s' -> tab_inv (tab_of s').
Proof. intros I (e & r & K). eapply inv_steps; [exact I|]. by eapply kstep_steps. Qed.

(** ** Runs that need nothing but the table *)
(** [kkill] and [wakeup] at any time, [yield] and [sleep] by the process that
    runs, the scheduler picking a process that can run. *)
Definition prompt (e : kevent) (t : tab) : Prop :=
  match e with
  | KKill _ | KWakeup _ => True
  | KYield | KSleep _ _ => is_Some (t_cur t)
  | KUser i | KWoken i _ => t_cur t = None /\ (i < nproc)%nat /\ p_state (tat t i) = RUNNABLE
  | _ => False
  end.

Lemma acquire_run l s : kn_held s = [] -> acquire l s = Ret tt (set_held [l] s).
Proof. intros H. unfold acquire. rewrite H. by rewrite bool_decide_eq_false_2 by set_solver. Qed.
Lemma release_run l s : kn_held s = [l] -> release l s = Ret tt (set_held [] s).
Proof. intros H. unfold release. rewrite H. rewrite bool_decide_eq_true_2 by set_solver. by rewrite filter_unlock by set_solver. Qed.

Lemma bind_acquire {A} l (h : unit -> M (kern F) A) s : l ∉ kn_held s -> (acquire l ≫= h) s = h tt (set_held (l :: kn_held s) s).
Proof. intros H. unfold mbind, M_bind, acquire. by rewrite bool_decide_eq_false_2. Qed.

Lemma bind_release {A} l (h : unit -> M (kern F) A) s : l ∈ kn_held s ->
  (release l ≫= h) s = h tt (set_held (filter (fun x => x <> l) (kn_held s)) s).
Proof. intros H. unfold mbind, M_bind, release. by rewrite bool_decide_eq_true_2. Qed.

Lemma bind_modpr {A} i g (h : unit -> M (kern F) A) s : (modpr i g ≫= h) s = h tt (put_proc i (g (proc_at s i)) s).
Proof. done. Qed.

Lemma bind_cur {A} i (h : nat -> M (kern F) A) s : kn_cur s = Some i -> (curproc ≫= h) s = h i s.
Proof. intros H. unfold mbind, M_bind, curproc. by rewrite H. Qed.

(** One entry of the loop of [wakeup]. *)
Lemma locked_run l i g s : l ∉ kn_held s ->
  (_ ← acquire l; _ ← modpr i g; release l) s = Ret tt (put_proc i (g (proc_at s i)) s).
Proof.
  intros H. rewrite bind_acquire by done. rewrite bind_modpr. unfold release.
  rewrite bool_decide_eq_true_2 by (cbn; set_solver). cbn [kn_held put_proc set_procs set_held].
  rewrite filter_unlock by done. by destruct s.
Qed.

(** [sleep] with only [lk] held. *)
Lemma sleep_run c lk i s : kn_cur s = Some i -> kn_held s = [lk] -> lk <> LProc i -> (i < length (kn_procs s))%nat ->
  sleep c lk s = Block "sched" (set_held [LProc i] (put_proc i (set_state SLEEPING (set_chan c (proc_at s i))) s)).
Proof.
  intros Hc Hh Hl Hi. unfold sleep. rewrite (bind_cur i) by done. rewrite bind_acquire by (rewrite Hh; set_solver).
  rewrite Hh. rewrite bind_release by (cbn; set_solver). rewrite bind_modpr. unfold ProcTable.sched. rewrite (bind_cur i) by done.
  unfold mbind, M_bind, getS. cbn [kn_held put_proc set_procs set_held kn_procs].
  assert (Hf : filter (fun x => x <> lk) [LProc i; lk] = [LProc i]).
  { rewrite filter_cons_True by done. rewrite filter_cons_False by tauto. done. }
  rewrite Hf. rewrite bool_decide_eq_true_2 by set_solver. cbn [negb length Nat.eqb].
  rewrite (bool_decide_eq_false_2 (state_of _ = RUNNING)); [done|].
  unfold proc_at at 1. cbn. by rewrite list_lookup_total_insert_eq.
Qed.

Lemma kkill_runs pd n : forall i s, kn_held s = [] -> exists r s', kkill_loop n pd i s = Ret r s'.
Proof.
  induction n as [|n IH]; intros i s Hh; cbn [kkill_loop]; [by eexists _, _|].
  rewrite bind_acquire by (rewrite Hh; set_solver). rewrite Hh. change ((getp i ≫= ?h) ?x) with (h (proc_at x i) x). cbv beta.
  destruct (pid _ =? pd).
  - rewrite bind_modpr, bind_release by (cbn; set_solver). by eexists _, _.
  - rewrite bind_release by (cbn; set_solver). apply IH. cbn [kn_held set_held]. by rewrite filter_unlock by set_solver.
Qed.

Lemma wakeup_runs c n : forall i s, kn_held s = [] -> exists s', wakeup_loop n c i s = Ret tt s'.
Proof.
  induction n as [|n IH]; intros i s Hh; cbn [wakeup_loop]; [by eexists|].
  change ((getS ≫= ?h) s) with (h s s). cbv beta. destruct (bool_decide _); [rewrite bind_mret; by apply IH|].
  erewrite bind_Ret by (apply locked_run; rewrite Hh; set_solver). by apply IH.
Qed.

Lemma yield_run i s : kn_cur s = Some i -> kn_held s = [] -> (i < length (kn_procs s))%nat ->
  yield s = Block "sched" (put_proc i (set_state RUNNABLE (proc_at s i)) (set_held [LProc i] s)).
Proof.
  intros Hc Hh Hi. unfold yield. rewrite (bind_cur i) by done. rewrite bind_acquire by (rewrite Hh; set_solver). rewrite Hh, bind_modpr.
  unfold ProcTable.sched. rewrite (bind_cur i) by done. unfold mbind, M_bind, getS. cbn [kn_held put_proc set_procs set_held kn_procs].
  rewrite bool_decide_eq_true_2 by set_solver. cbn [negb length Nat.eqb]. rewrite (bool_decide_eq_false_2 (state_of _ = RUNNING)); [done|].
  unfold proc_at at 1. cbn. by rewrite list_lookup_total_insert_eq.
Qed.

Lemma pick_run i s : kn_held s = [] -> state_of (proc_at s i) = RUNNABLE ->
  pick i s = Ret tt (set_cur (Some i) (put_proc i (set_state RUNNING (proc_at s i)) (set_held [LProc i] s))).
Proof.
  intros Hh Hr. unfold pick. rewrite bind_acquire by (rewrite Hh; set_solver). rewrite Hh. change ((getp i ≫= ?h) ?x) with (h (proc_at x i) x). cbv beta.
  by rewrite bool_decide_eq_true_2 by exact Hr.
Qed.

Lemma kstep_runs e s : tab_inv (tab_of s) -> kn_nextpid s < 2 ^ 31 - 1 -> prompt e (tab_of s) -> exists r s', kstep fa e r s s'.
Proof.
  intros I Hn. pose proof (ti_held _ I : kn_held s = []) as Hh. pose proof (inv_nlen s I) as Hl.
  assert (Hb : forall e s1, enabled e s -> krun fa e s = Block "sched" s1 -> exists r s', kstep fa e r s s').
  { intros e0 s1 En E. exists None, (back s1). split; [done|]. split; [done|]. by exists s1. }
  assert (Hr : forall e v s1, enabled e s -> krun fa e s = Ret v s1 -> exists r s', kstep fa e r s s').
  { intros e0 v s1 En E. exists (Some v), s1. by split_and!. }
  destruct e as [|st|addr|pd| |c a|c|i|i a|i addr]; cbn [prompt]; try done.
  - intros _. destruct (kkill_runs pd nproc 0 s Hh) as (r & s' & E). by apply (Hr (KKill pd) r s').
  - intros [i Hc]. eapply (Hb KYield); [done|]. cbn [krun]. apply bind_Block, (yield_run i); [done|done|]. rewrite Hl. exact (inv_cur_lt s I i Hc).
  - intros [i Hc]. eapply (Hb (KSleep c a)); [done|]. cbn [krun]. rewrite bind_acquire by (rewrite Hh; set_solver). rewrite Hh.
    apply bind_Block, (sleep_run c (LCond a) i); [done|done|done|]. change (kn_procs (set_held ?x s)) with (kn_procs s). rewrite Hl. exact (inv_cur_lt s I i Hc).
  - intros _. destruct (wakeup_runs c nproc 0 s Hh) as (s' & E). apply (Hr (KWakeup c) 0 s'); [done|]. cbn [krun]. by rewrite (bind_Ret _ _ _ _ _ E).
  - intros (Hc & Hi & Hru). rewrite lookup_tab in Hru by (rewrite Hl; done). eapply (Hr (KUser i)); [done|]. cbn [krun].
    rewrite (bind_Ret _ _ _ _ _ (pick_run i s Hh Hru)). unfold yield_exit. rewrite bind_assoc, (bind_cur i) by done.
    by rewrite bind_release by (cbn; set_solver).
  - intros (Hc & Hi & Hru). rewrite lookup_tab in Hru by (rewrite Hl; done). eapply (Hr (KWoken i a)); [done|]. cbn [krun].
    rewrite (bind_Ret _ _ _ _ _ (pick_run i s Hh Hru)). unfold sleep_exit. rewrite bind_assoc, (bind_cur i) by done. rewrite bind_assoc, bind_modpr, bind_assoc.
    rewrite bind_release by (cbn; set_solver). cbn [kn_held set_held set_cur put_proc set_procs]. rewrite filter_unlock by set_solver.
    rewrite bind_acquire by (cbn; set_solver). by rewrite bind_release by (cbn; set_solver).
Qed.

(** C17: Every run of the kernel on behalf of a process does to the process table,
    and returns, what its event is specified to. [fork] takes the first free entry
    and gives it the next pid, the caller as parent and [RUNNABLE], and returns the
    pid; it fails only when there is no free entry or no memory for the child.
    [exit] leaves a zombie with the status, its children given to init and its
    parent awake. [wait] reaps the first zombie child and returns its pid, fails
    without children, when killed or when the status cannot be copied out, and
    else sleeps on the caller. [kill] marks the entry with the pid as killed and
    makes it runnable if it sleeps, or returns -1. [sleep] sleeps on the channel
    given, [wakeup] wakes exactly the sleepers on it, and only a runnable process
    gets the CPU. And [kill], [wakeup], [yield], [sleep] and the scheduler's
    resumption of a process do run to their end. *)
Theorem proc_refines e s :
  tab_inv (tab_of s) ->
  (forall r s', kstep fa e r s s' -> tspec (room s) (copies s) (tab_of s) e r (tab_of s')) /\
  (kn_nextpid s < 2 ^ 31 - 1 -> prompt e (tab_of s) -> exists r s', kstep fa e r s s').
Proof. intros I. split; [intros r s'; by apply kstep_spec|]. intros Hn. by apply kstep_runs. Qed.

(** C7: In every state the kernel reaches, the processes have distinct pids
    below the next pid, the CPU runs exactly the process that is [RUNNING], init
    is alive, every other process has a parent that is alive, neither free nor a
    zombie, and no lock is held between the runs. *)
Theorem proc_inv s0 s :
  tab_inv (tab_of s0) -> rtc kany s0 s -> tab_inv (tab_of s).
Proof. intros I. induction 1 as [|s1 s2 s3 H1 _ IH]; [done|]. apply IH. by eapply kany_inv. Qed.

(** The run of [kexit] as a step. *)
Lemma tspec_exit rm cp t status r t' : tspec rm cp t (KExit status) r t' -> exists i, t_cur t = Some i /\ t' = texit i status t.
Proof. inversion 1 as [| | |i st Hi Hni| | | | | | | | |]. by exists i. Qed.

Lemma kexit_step s s' i status :
  tab_inv (tab_of s) -> kn_cur s = Some i -> kstep fa (KExit status) None s s' -> tab_of s' = texit i status (tab_of s).
Proof.
  intros I Hc K. destruct (tspec_exit _ _ _ _ _ _ (kstep_spec _ _ _ _ _ I K)) as (j & Hj & ->).
  change (t_cur (tab_of s)) with (kn_cur s) in Hj. congruence.
Qed.

(** Nobody but the running process stays asleep on the channel woken up. *)
Lemma twake_clears c t j : length (t_procs t) = nproc -> (j < nproc)%nat -> t_cur t <> Some j ->
  ~ (p_state (tat (twake c t) j) = SLEEPING /\ p_chan (tat (twake c t) j) = c).
Proof.
  intros Hl Hj Hc. rewrite (tat_twake c t j Hl Hj). rewrite bool_decide_eq_false_2 by exact Hc. unfold twake1.
  destruct (bool_decide_reflect (p_state (tat t j) = SLEEPING)); [|tauto].
  cbn [andb]. destruct (Z.eqb_spec (p_chan (tat t j)) c) as [|Hch]; [intros [? _]; done|tauto].
Qed.

Lemma woken_parent t1 i j : length (t_procs t1) = nproc -> (j < nproc)%nat -> t_cur t1 = Some i -> j <> i -> p_parent (tat t1 i) = proc_ptr j ->
  let x := tat (twake (p_parent (tat t1 i)) t1) j in ~ (p_state x = SLEEPING /\ p_chan x = proc_ptr j).
Proof. intros Hl Hj Hc Hne Hp. rewrite Hp. apply twake_clears; [done|done|]. rewrite Hc. congruence. Qed.

Lemma exit_parent t i j : length (t_procs t) = nproc -> (i < nproc)%nat -> (j < nproc)%nat -> t_cur t = Some i -> j <> i -> p_parent (tat t i) = proc_ptr j ->
  let t1 := treparent i t in
  let x := tat (twake (p_parent (tat t1 i)) t1) j in ~ (p_state x = SLEEPING /\ p_chan x = proc_ptr j).
Proof.
  intros Hl Hi Hj Hc Hne Hp. destruct (treparent_rest i t) as (Rc & _ & _ & _ & Rl). destruct (treparent_at i t i Hl Hi) as [_ Pi].
  apply woken_parent; [exact (eq_trans Rl Hl)|exact Hj|exact (eq_trans Rc Hc)|exact Hne|]. rewrite Pi, Hp. unfold adopt.
  by rewrite (proj2 (Z.eqb_neq _ _) (fun e => Hne (proc_ptr_inj _ _ e))).
Qed.

(** [kexit], said of the table after it, [t2] being the table once the children
    have a new parent and the sleepers are awake. *)
Definition exit_post (i : nat) (status : Z) (t t' : tab) : Prop :=
  t_cur t' = None /\ p_state (tat t' i) = ZOMBIE /\ p_xstate (tat t' i) = status /\ p_pid (tat t' i) = p_pid (tat t i) /\
  (forall j, (j < nproc)%nat -> p_parent (tat t' j) = adopt i (t_init t) (p_parent (tat t j))) /\
  (forall j, (j < nproc)%nat -> j <> i -> woken (tat t' j) (tat t j)) /\
  (forall j, (j < nproc)%nat -> j <> i -> p_parent (tat t i) = proc_ptr j ->
     ~ (p_state (tat t' j) = SLEEPING /\ p_chan (tat t' j) = proc_ptr j)).

Lemma exited_facts t t2 i status c k : (i < nproc)%nat -> length (t_procs t2) = nproc ->
  (forall j, (j < nproc)%nat -> woken (tat t2 j) (tat t j) /\ p_parent (tat t2 j) = adopt i (t_init t) (p_parent (tat t j))) ->
  (forall j, (j < nproc)%nat -> j <> i -> p_parent (tat t i) = proc_ptr j -> ~ (p_state (tat t2 j) = SLEEPING /\ p_chan (tat t2 j) = proc_ptr j)) ->
  exit_post i status t (tcur None (tset i (mkSched ZOMBIE c k status (p_pid (tat t2 i)) (p_parent (tat t2 i))) t2)).
Proof.
  intros Hi L2 W Hw. unfold exit_post.
  assert (At : forall j x, tat (tcur None (tset i x t2)) j = if decide (j = i) then x else tat t2 j)
    by (intros j x; change (tat (tcur None ?y) j) with (tat y j); by apply tat_tset_if).
  rewrite !At. rewrite decide_True by done. split_and!; [done|done|done|apply (W i Hi)|..].
  - intros j Hj. rewrite At. destruct (decide (j = i)) as [->|]; by apply W.
  - intros j Hj Hn. rewrite At, decide_False by done. by apply W.
  - intros j Hj Hn Hp. rewrite At, decide_False by done. by apply Hw.
Qed.

Lemma texit_post t i status : length (t_procs t) = nproc -> (i < nproc)%nat -> t_cur t = Some i -> exit_post i status t (texit i status t).
Proof.
  intros Hl Hi Hc. destruct (exited_at t i Hl) as [(_ & _ & _ & L2) W]. unfold texit. cbv zeta.
  exact (exited_facts t _ i status _ _ Hi L2 W (fun j Hj Hne Hp => exit_parent t i j Hl Hi Hj Hc Hne Hp)).
Qed.

(** When a process exits, it is a zombie with its status, its children
    are now children of init, its parent is not asleep in [wait], and nothing
    else changes but processes being woken up. *)
Theorem kexit_correct s s' i status :
  tab_inv (tab_of s) -> kn_cur s = Some i -> kstep fa (KExit status) None s s' -> exit_post i status (tab_of s) (tab_of s').
Proof.
  intros I Hc K. rewrite (kexit_step s s' i status I Hc K). apply texit_post; [exact (ti_len _ I)|exact (ti_cur_lt _ I i Hc)|exact Hc].
Qed.

(** ** The scheduler is fair *)
(** What the scheduler relies on of a process it runs: it comes back through
    [sched], with its lock and no other, and does not stop process [i]. *)
Definition comes_back (run : nat -> M (kern F) unit) (i : nat) : Prop := forall j s,
  j <> i -> kn_held s = [LProc j] -> state_of (proc_at s i) = RUNNABLE ->
  exists s', run j s = Ret tt s' /\ kn_held s' = [LProc j] /\ state_of (proc_at s' i) = RUNNABLE /\ length (kn_procs s') = length (kn_procs s).

Lemma state_put_ne s i j p : i <> j -> proc_at (put_proc j p s) i = proc_at s i.
Proof. intros Hn. unfold proc_at, put_proc, set_procs. cbn [kn_procs]. apply list_lookup_total_insert_ne. congruence. Qed.

Lemma scheduler_reaches run i n : forall k f s,
  comes_back run i -> (k <= i < k + n)%nat -> (i < length (kn_procs s))%nat -> kn_held s = [] -> state_of (proc_at s i) = RUNNABLE ->
  exists m s1, scheduler_pass run n k f s = (_ ← run i; _ ← modS (set_cur None); _ ← release (LProc i); scheduler_pass run m (S i) true) s1 /\
    kn_cur s1 = Some i /\ state_of (proc_at s1 i) = RUNNING /\ kn_held s1 = [LProc i].
Proof.
  induction n as [|n IH]; intros k f s Hb Hk Hlen Hh Hr; [lia|]. cbn [scheduler_pass].
  rewrite (bind_Ret _ _ _ _ _ (acquire_run (LProc k) s Hh)). set (s0 := set_held [LProc k] s).
  change ((getp k ≫= ?h) s0) with (h (proc_at s k) s0). cbv beta. destruct (decide (k = i)) as [->|Hne].
  - rewrite bool_decide_eq_true_2 by done. rewrite bind_assoc.
    change ((modpr i ?g ≫= ?h) s0) with (h tt (put_proc i (g (proc_at s i)) s0)). cbv beta. rewrite bind_assoc.
    change ((modS (set_cur (Some i)) ≫= ?h) ?x) with (h tt (set_cur (Some i) x)). cbv beta.
    set (s1 := set_cur (Some i) _). exists n, s1. rewrite bind_assoc. split; [|split; [done|split; [|done]]].
    + unfold mbind, M_bind. destruct (run i s1); reflexivity.
    + unfold s1, proc_at, put_proc, set_procs. cbn [kn_procs set_cur]. rewrite list_lookup_total_insert_eq by done. done.
  - assert (Hnext : forall f' s', kn_held s' = [LProc k] -> state_of (proc_at s' i) = RUNNABLE -> length (kn_procs s') = length (kn_procs s) ->
      exists m s1, (_ ← release (LProc k); scheduler_pass run n (S k) f') s' =
        (_ ← run i; _ ← modS (set_cur None); _ ← release (LProc i); scheduler_pass run m (S i) true) s1 /\
        kn_cur s1 = Some i /\ state_of (proc_at s1 i) = RUNNING /\ kn_held s1 = [LProc i]).
    { intros f' s' Hh' Hr' Hl'. rewrite (bind_Ret _ _ _ _ _ (release_run (LProc k) s' Hh')).
      apply (IH (S k) f' (set_held [] s') Hb); [lia|change (kn_procs (set_held [] s')) with (kn_procs s'); lia|done|exact Hr']. }
    destruct (bool_decide_reflect (state_of (proc_at s k) = RUNNABLE)) as [Ek|Ek].
    + rewrite bind_assoc. change ((modpr k ?g ≫= ?h) s0) with (h tt (put_proc k (g (proc_at s k)) s0)). cbv beta. rewrite bind_assoc.
      change ((modS (set_cur (Some k)) ≫= ?h) ?x) with (h tt (set_cur (Some k) x)). cbv beta. set (s1 := set_cur (Some k) _).
      assert (Er : state_of (proc_at s1 i) = RUNNABLE).
      { change (proc_at s1 i) with (proc_at (put_proc k (set_state RUNNING (proc_at s k)) s0) i). by rewrite state_put_ne by congruence. }
      destruct (Hb k s1 Hne eq_refl Er) as (s2 & E2 & Hh2 & Hr2 & Hl2). rewrite bind_assoc, (bind_Ret _ _ _ _ _ E2), bind_assoc.
      change ((modS (set_cur None) ≫= ?h) ?x) with (h tt (set_cur None x)). cbv beta. rewrite bind_mret. apply Hnext; [done|done|].
      change (kn_procs (set_cur None s2)) with (kn_procs s2). rewrite Hl2. unfold s1. cbn. by rewrite length_insert.
    + rewrite bind_mret. by apply Hnext.
Qed.

(** C34: A process that is [RUNNABLE] when the scheduler starts a pass over the
    table gets the CPU in that pass, as [RUNNING] and with its lock held by the
    scheduler, whatever the processes before it do, if each gives the CPU back
    and none stops it. *)
Theorem scheduler_fair run i s :
  comes_back run i -> (i < nproc)%nat -> length (kn_procs s) = nproc -> kn_held s = [] -> state_of (proc_at s i) = RUNNABLE ->
  exists m s1, scheduler run s = (_ ← run i; _ ← modS (set_cur None); _ ← release (LProc i); scheduler_pass run m (S i) true) s1 /\
    kn_cur s1 = Some i /\ state_of (proc_at s1 i) = RUNNING /\ kn_held s1 = [LProc i].
Proof.
  intros Hb Hi Hl Hh Hr. unfold scheduler. change ((modS (set_cur None) ≫= ?h) s) with (h tt (set_cur None s)). cbv beta.
  apply scheduler_reaches; [done|lia|change (kn_procs (set_cur None s)) with (kn_procs s); lia|done|done].
Qed.
End claims.
