(* ===== verification/DemoFs.v ===== *)
(** A small file system, on which the theorems about files and directories are
    applied: the geometry mkfs computes, a root directory with three entries and
    a file of five bytes.  Open files are on a simpler one in memory. *)
From S2P Require Import Prelude Riscv PhysMem Bytes Bio BlockIface FsIface Log LogCrash LogTx.
From S2P Require Import Fs FsData FsBlocks FsContent FsGrow FsWritten FsWrite FsWritei FsDir FsPath.

(** 2000 blocks: the log at 2, 200 inodes at 33, the free map at 46, data from 47. *)
Definition sb0 : superblock := mkSb FSMAGIC 2000 1953 200 31 2 33 46.

Definition din_dir : dinode := mkDinode T_DIR 0 0 1 48 (47 :: replicate 12 0).
Definition din_file : dinode := mkDinode T_FILE 0 0 1 5 (48 :: replicate 12 0).
Definition zeros : list Z := replicate 1024 0.

(** "a" and "hello" *)
Definition dir_block : list Z :=
  splice zeros 0 (new_dent 1 [46] ++ new_dent 1 [46; 46] ++ new_dent 2 [97]).

Definition disk0 (b : Z) : list Z :=
  if b =? 33 then put_dinode (put_dinode zeros 64 din_dir) 128 din_file
  else if b =? 46 then splice zeros 0 (replicate 6 255 ++ [1])
  else if b =? 47 then dir_block
  else if b =? 48 then splice zeros 0 [104; 101; 108; 108; 111]
  else zeros.

Definition ino_root : inode := mkInode 1 1 1 1 5 1 din_dir.
Definition ino_file : inode := mkInode 1 2 1 1 5 1 din_file.
Definition ino_free : inode := mkInode 0 0 0 0 0 0 (mkDinode 0 0 0 0 0 (replicate 13 0)).
Definition itable0 : list inode := ino_root :: ino_file :: replicate 48 ino_free.

Lemma disk0_len b : length (disk0 b) = 1024%nat.
Proof. unfold disk0. repeat (case_match; [vm_compute; reflexivity|]). reflexivity. Qed.

Lemma disk0_ok : disk_ok 2 disk0.
Proof.
  split; [vm_compute; reflexivity|vm_compute; discriminate|]. assert (hd_list (disk0 2) = []) as -> by (vm_compute; reflexivity).
  split; [done|constructor|set_solver].
Qed.

Lemma recovered0 x : recovered 2 disk0 x = disk0 x.
Proof. unfold recovered. assert (hd_list (disk0 2) = []) as -> by (vm_compute; reflexivity). reflexivity. Qed.

#[local] Existing Instance log_ops.
#[local] Instance laws0 : BlockLaws lst 1 := log_laws 1 2 ltac:(lia) ltac:(lia).

Lemma home0 b : 32 < b < 2 ^ 31 -> is_home 2 b.
Proof. intros Hb. split; [|lia]. unfold in_log. rewrite LOGBLOCKS_eq. lia. Qed.

Lemma geom0 : geom home sb0 47.
Proof.
  split.
  - cbn. lia.
  - cbn. rewrite BPB_eq. lia.
  - cbn. lia.
  - intros inum Hi. cbn in *. rewrite IPB_eq. Z.to_euclidean_division_equations. lia.
  - intros b ->. apply home0. cbn. lia.
  - intros inum Hi. apply home0. cbn in *. rewrite IPB_eq. Z.to_euclidean_division_equations. lia.
  - intros b Hb. apply home0. cbn in Hb. lia.
Qed.

(** The state after a boot, in a transaction. *)
Lemma boot0 : exists s, tx s [] [] /\ forall b, 32 < b < 2 ^ 31 -> bview s b = disk0 b.
Proof.
  destruct (reboot_idle 1 2 ltac:(lia) ltac:(lia) disk0 5 disk0_ok) as (s0 & _ & I & V0).
  { intros x _. rewrite recovered0. apply disk0_len. }
  destruct (log_begin 1 2 ltac:(lia) ltac:(lia) s0 I) as (s1 & _ & T1 & V1). exists s1. split; [exact T1|].
  intros b Hb. change (bview s1 b) with (view 1 (l_bc s1) b). rewrite V1, V0 by (by apply home0). apply recovered0.
Qed.

(** Files of one block. *)
Lemma one_block v d a bn : d_addrs d = a :: replicate 12 0 -> 0 <= bn < MAXFILE -> faddr v d bn = if bn =? 0 then a else 0.
Proof.
  intros E Hb. unfold faddr. rewrite E, NDIRECT_eq. change ((a :: replicate 12 0) !!! Z.to_nat 12) with 0. change (0 =? 0) with true. cbv iota.
  destruct (Z.eqb_spec bn 0) as [->|Hn]; [done|]. destruct (Z.ltb_spec bn 12); [|done].
  destruct (Z.to_nat bn) as [|n] eqn:En; [lia|]. change (replicate 12 0 !!! n = 0). apply lookup_total_replicate_2. lia.
Qed.

Lemma used0 (v : Z -> list Z) b : v 46 = disk0 46 -> 0 <= b < 49 -> usedv 46 v b = true.
Proof.
  intros E Hb. unfold usedv. rewrite E.
  assert (H : forallb (fun k => negb (bit_free (disk0 46) k)) (seq 0 49) = true) by (vm_compute; reflexivity).
  rewrite forallb_forall in H. apply H. apply in_seq. lia.
Qed.

Lemma finv_one v d a : v 46 = disk0 46 -> d_addrs d = a :: replicate 12 0 -> 47 <= a < 49 -> 0 <= d_size d <= 1024 ->
  finv 46 47 2000 v d.
Proof.
  intros E Ea Ha Hs. pose proof MAXFILE_eq as Hm. pose proof BSIZE_eq as Hbs. assert (Hi : d_addrs d !!! Z.to_nat NDIRECT = 0) by (by rewrite Ea).
  split; [split|..].
  - by rewrite Ea.
  - lia.
  - intros bn Hb Hl. rewrite (one_block v d a) by (done || lia). destruct (Z.eqb_spec bn 0); lia.
  - intros bn Hb. rewrite (one_block v d a) by done. destruct (bn =? 0); lia.
  - done.
  - intros bn bn' Hb Hb'. rewrite !(one_block v d a) by done. destruct (Z.eqb_spec bn 0), (Z.eqb_spec bn' 0); lia.
  - intros bn Hb. rewrite (one_block v d a) by done. rewrite Hi. done.
  - intros bn Hb. rewrite (one_block v d a) by done. destruct (bn =? 0); [|done]. intros _. apply used0; [done|lia].
  - unfold ind. by rewrite Hi.
  - intros b Hb. apply used0; [done|lia].
Qed.

Lemma dinode_ok_one d a : d_addrs d = a :: replicate 12 0 -> 0 <= a < 100 -> 0 <= d_size d < 2000 -> d_type d ∈ [T_DIR; T_FILE] ->
  d_major d = 0 -> d_minor d = 0 -> d_nlink d = 1 -> dinode_ok d.
Proof.
  intros Ea Ha Hs Ht Hma Hmi Hn. assert (0 < d_type d < 10) by (rewrite elem_of_cons, list_elem_of_singleton in Ht; destruct Ht as [->| ->]; vm_compute; done).
  split; [lia..| |].
  - by rewrite Ea.
  - rewrite Ea. constructor; [lia|]. apply Forall_replicate. lia.
Qed.

Definition fsys0 (s : lst) : fsys lst := mkFsys s sb0 itable0 5.

Lemma fbytes_one s (d : dinode) a off n : d_addrs d = a :: replicate 12 0 -> bview s a = disk0 a -> 0 <= off -> off + Z.of_nat n <= 1024 ->
  (0 < n)%nat -> fbytes (bview s) d off n = take n (drop (Z.to_nat off) (disk0 a)).
Proof.
  intros Ea Ev Ho Hn Hpos. pose proof (piece (bview s) d off (Z.of_nat n)) as P. rewrite BSIZE_eq, Nat2Z.id in P.
  rewrite Z.div_small, Z.mod_small, (one_block (bview s) d a 0) in P by (done || lia). cbn [Z.eqb] in P. rewrite Ev in P.
  symmetry. apply P; [lia|lia|lia|]. apply disk0_len.
Qed.

Lemma dents0 s : bview s 47 = disk0 47 -> dents (bview s) din_dir = [new_dent 1 [46]; new_dent 1 [46; 46]; new_dent 2 [97]].
Proof.
  intros V. unfold dents. change (dcount din_dir) with 3%nat. cbn [seq fmap list_fmap]. unfold dent.
  rewrite !(fbytes_one s din_dir 47) by (done || lia). vm_compute. reflexivity.
Qed.

Lemma finv_file s : bview s 46 = disk0 46 -> finv 46 47 2000 (bview s) din_file.
Proof. intros V. apply (finv_one _ _ 48); [done|done|lia|cbn; lia]. Qed.
Lemma finv_dir s : bview s 46 = disk0 46 -> finv 46 47 2000 (bview s) din_dir.
Proof. intros V. apply (finv_one _ _ 47); [done|done|lia|cbn; lia]. Qed.

Lemma at_dir0 s : tx s [] [] -> bview s 46 = disk0 46 -> at_dir 1 47 (fsys0 s) [] 0 ino_root.
Proof. intros T V. split; [exact T|exact geom0|done..|exact (fi_ok _ _ _ _ _ (finv_dir s V))|done]. Qed.

Lemma lookup_itable0 i x : itable0 !! i = Some x -> i = 0%nat /\ x = ino_root \/ i = 1%nat /\ x = ino_file \/ x = ino_free.
Proof.
  destruct i as [|[|i]]; [naive_solver..|]. intros H. right. right.
  change (replicate 48 ino_free !! i = Some x) in H. by apply lookup_replicate in H as [-> _].
Qed.

Lemma itable0_inv : itable_inv itable0.
Proof.
  split.
  - intros i x [[_ ->]|[[_ ->]| ->]]%lookup_itable0; vm_compute; done.
  - intros i j x y Hi Hj. apply lookup_itable0 in Hi, Hj.
    destruct Hi as [[-> ->]|[[-> ->]| ->]], Hj as [[-> ->]|[[-> ->]| ->]]; cbn; lia.
Qed.

Lemma readi_witness : exists s s', bview s 48 = disk0 48 /\
  readk 1 2 100 (fsys0 s) = Ret (3, [108; 108; 111]) (fsys0 s').
Proof.
  destruct boot0 as (s & T & V). exists s. pose proof (finv_file s (V 46 ltac:(lia))) as I.
  destruct (readi_correct 1 47 (fsys0 s) [] 1 ino_file 2 100 T geom0 eq_refl eq_refl (fi_ok _ _ _ _ _ I)) as (s' & E & _);
    [cbn; lia|lia|lia|].
  exists s'. split; [apply V; lia|]. etransitivity; [exact E|]. f_equal. f_equal.
  change (Z.to_nat _) with 3%nat. cbn [f_blk fsys0 i_data ino_file].
  rewrite (fbytes_one s din_file 48) by (done || lia || (apply V; lia)). vm_compute. reflexivity.
Defined.

Lemma dinode_ok0 : dinode_ok din_file /\ dinode_ok din_dir.
Proof.
  split; [apply (dinode_ok_one _ 48)|apply (dinode_ok_one _ 47)]; try done; cbn; try lia; rewrite elem_of_cons; [right|left]; [|done].
  by apply list_elem_of_singleton.
Qed.

Lemma writei_witness : exists s r s' d', bview s 48 = disk0 48 /\
  writek 1 5 (replicate 1000 7 ++ replicate 1000 8) (fsys0 s) = Ret r (set_file 1 ino_file d' s' (fsys0 s)) /\
  (r = 2000 -> d_size d' = 2005 /\ fbyte (bview s') d' 1500 = 8).
Proof.
  destruct boot0 as (s & T & V). exists s. pose proof (finv_file s (V 46 ltac:(lia))) as I.
  destruct (writei_correct 1 47 (fsys0 s) [] 1 ino_file 5 (replicate 1000 7 ++ replicate 1000 8) 2 T geom0 eq_refl eq_refl)
    as (r & s' & d' & L' & E & _ & _ & [_ _ _ _ Hs Hb _ _]).
  - cbn. lia.
  - apply dinode_ok0.
  - exact I.
  - cbn. lia.
  - rewrite length_app, !length_replicate, MAXFILE_eq, BSIZE_eq. lia.
  - rewrite length_app, !length_replicate, BSIZE_eq. change (5 mod 1024) with 5. lia.
  - cbn. lia.
  - exists r, s', d'. split; [apply V; lia|]. split; [exact E|]. intros ->. cbn in Hs. split; [exact Hs|].
    rewrite Hb by lia. vm_compute. reflexivity.
Defined.

Lemma write_read_witness : exists s r f',
  (n ← writek 1 5 [1; 2; 3]; out ← readk 1 5 n; mret (n, out)) (fsys0 s) = Ret (r, (r, take (Z.to_nat r) [1; 2; 3])) f'.
Proof.
  destruct boot0 as (s & T & V). exists s. pose proof (finv_file s (V 46 ltac:(lia))) as I.
  destruct (write_read 1 47 (fsys0 s) [] 1 ino_file 5 [1; 2; 3] 1 T geom0 eq_refl eq_refl) as (r & f' & E & _).
  - cbn. lia.
  - apply dinode_ok0.
  - exact I.
  - cbn. lia.
  - cbn [length]. rewrite MAXFILE_eq, BSIZE_eq. lia.
  - cbn [length]. rewrite BSIZE_eq. change (5 mod 1024) with 5. lia.
  - cbn. lia.
  - by exists r, f'.
Defined.

(** Looking up "a" in the root directory. *)
Lemma dirlookup_witness : exists s ip s' t', bview s 47 = disk0 47 /\
  dirlookup 0 [97] (fsys0 s) = Ret (Some (ip, 32)) (mkFsys s' sb0 t' 5) /\
  exists y, t' !! ip = Some y /\ i_inum y = 2.
Proof.
  destruct boot0 as (s & T & V). exists s.
  pose proof (dirlookup_correct 1 47 (fsys0 s) [] 0 ino_root [97] (at_dir0 s T (V 46 ltac:(lia))) ltac:(cbn; lia) itable0_inv) as D.
  cbv zeta in D. cbn [f_blk fsys0 i_data ino_root] in D. rewrite (dents0 s (V 47 ltac:(lia))) in D.
  assert (Ei : first_index (dmatch [97]) [new_dent 1 [46]; new_dent 1 [46; 46]; new_dent 2 [97]] = Some 2%nat) by (vm_compute; reflexivity).
  rewrite Ei in D. destruct D as [(ip & s' & t' & E & [_ (y & Hy & _ & Hyi & _) _ _] & _)|[_ Hall]].
  - exists ip, s', t'. split; [apply V; lia|]. split; [exact E|]. exists y. split; [exact Hy|]. rewrite Hyi. vm_compute. reflexivity.
  - exfalso. cbn [f_itable fsys0] in Hall. pose proof (proj1 (Forall_lookup _ _) Hall 2%nat ino_free eq_refl) as H. vm_compute in H. done.
Defined.

(** Linking "b" there. *)
Lemma dirlink_witness : exists s r s' d', bview s 47 = disk0 47 /\
  dirlink 0 [98] 9 (fsys0 s) = Ret r (set_file 0 ino_root d' s' (fsys0 s)) /\
  (r = 0 -> dents (bview s') d' = [new_dent 1 [46]; new_dent 1 [46; 46]; new_dent 2 [97]; new_dent 9 [98]]).
Proof.
  destruct boot0 as (s & T & V). exists s.
  destruct (dirlink_correct 1 47 (fsys0 s) [] 0 ino_root [98] 9 (at_dir0 s T (V 46 ltac:(lia))) ltac:(cbn; lia) itable0_inv)
    as (s' & d' & L' & _ & D).
  - cbn. lia.
  - apply dinode_ok0.
  - exact (finv_dir s (V 46 ltac:(lia))).
  - cbn. rewrite MAXFILE_eq, BSIZE_eq. lia.
  - constructor; [lia|constructor].
  - lia.
  - cbn [f_blk fsys0 i_data ino_root]. rewrite (dents0 s (V 47 ltac:(lia))). vm_compute. reflexivity.
  - cbn [f_blk fsys0 i_data ino_root] in D. rewrite (dents0 s (V 47 ltac:(lia))) in D. destruct D as [(E & Ed & _)|[E _]].
    + exists 0, s', d'. split; [apply V; lia|]. split; [exact E|]. intros _. rewrite Ed. vm_compute. reflexivity.
    + exists (-1), s', d'. split; [apply V; lia|]. split; [exact E|]. done.
Defined.

(** Walking "/a" takes at most three steps. *)
Lemma namex_witness : (length [47; 97] < 3)%nat /\
  forall s, namex_loop 3 0 [47; 97] false [] (fsys0 s) = namex_loop 9 0 [47; 97] false [] (fsys0 s).
Proof. split; [cbn; lia|]. intros s. apply (namex_terminates [47; 97] 3 9 0 false [] (fsys0 s)); cbn; lia. Defined.

(** ** Open files *)
From S2P Require Import Prelude Riscv PhysMem Bytes Bio FsIface File FileProofs.

(** Inodes by number, whether a transaction is open, and the inode locked; the
    user's byte at [a] is [a mod 256], but there is no user memory from 8000 on: a
    write of bytes from there stops at that address, having stored zeros for the
    rest of its range within the file. *)
Record memfs : Type := mkMem { mf_data : Z -> list Z; mf_tx : bool; mf_lock : option Z }.

Definition mf_user (a : Z) (n : nat) : list Z := (fun k => (a + Z.of_nat k) mod 256) <$> seq 0 n.

(** The bytes [bs], and zeros up to [n] bytes where the file already had some. *)
Definition mf_write (d : list Z) (o n : nat) (bs : list Z) : list Z :=
  take o d ++ bs ++ replicate (Nat.min (n - length bs) (length d - (o + length bs))) 0 ++ drop (o + n) d.

Lemma mf_write_stored d o n bs : (o <= length d)%nat -> (length bs <= n)%nat -> stored d o n bs (mf_write d o n bs).
Proof.
  intros Ho Hn. unfold mf_write. split.
  - rewrite !length_app, length_take, length_replicate, length_drop. lia.
  - rewrite app_assoc, take_app_le by (rewrite length_app, length_take; lia). apply take_ge. rewrite length_app, length_take. lia.
  - set (z := replicate _ 0). assert (Lz : length z = Nat.min (n - length bs) (length d - (o + length bs))) by apply length_replicate.
    destruct (decide (o + n <= length d)%nat) as [Hl|Hl].
    + rewrite !app_assoc, drop_app_length'; [done|]. rewrite !length_app, length_take, Lz. lia.
    + rewrite (drop_ge d) by lia. apply drop_ge. rewrite !length_app, length_take, Lz. cbn. lia.
Qed.

#[local] Instance mem_env : FileEnv memfs := {|
  fe_pipeclose := fun _ _ => mret tt; fe_piperead := fun _ _ _ => mret 0; fe_pipewrite := fun _ _ _ => mret (-1);
  fe_kalloc := mret 0; fe_pipeinit := fun _ => mret tt;
  fe_begin_op := modS (fun s => mkMem (mf_data s) true (mf_lock s));
  fe_end_op := modS (fun s => mkMem (mf_data s) false (mf_lock s));
  fe_iput := fun _ => mret tt;
  fe_ilock := fun ip => modS (fun s => mkMem (mf_data s) (mf_tx s) (Some ip));
  fe_iunlock := fun _ => modS (fun s => mkMem (mf_data s) (mf_tx s) None);
  fe_readi := fun _ _ _ _ => mret 0;
  fe_writei := fun ip addr off n s =>
    let r := if addr + n <=? 8000 then n else Z.max 0 (8000 - addr) in
    Ret r (mkMem (zupd (mf_data s) ip (mf_write (mf_data s ip) (Z.to_nat off) (Z.to_nat n) (take (Z.to_nat r) (mf_user addr (Z.to_nat n))))) (mf_tx s) (mf_lock s));
  fe_stati := fun _ => mret []; fe_copyout := fun _ _ => mret 0; fe_devread := fun _ => None; fe_devwrite := fun _ => None |}.

Lemma mf_user_len a n : length (mf_user a n) = n.
Proof. unfold mf_user. by rewrite length_fmap, length_seq. Qed.

#[local] Program Instance mem_laws : FileLaws memfs := {|
  fl_inv := fun s b o => mf_tx s = b /\ mf_lock s = o; fl_data := mf_data; fl_user := fun _ a n => mf_user a n |}.
Next Obligation. intros t a n. apply mf_user_len. Qed.
Next Obligation.
  intros t a n m Ha _. unfold mf_user. rewrite seq_app, fmap_app. f_equal. cbn [Nat.add]. apply list_eq. intros i. rewrite !list_lookup_fmap.
  destruct (decide (i < m)%nat) as [Hi|Hi]; [|by rewrite !lookup_seq_ge by lia]. rewrite !lookup_seq_lt by done. cbn. do 2 f_equal. lia.
Qed.
Next Obligation. intros [d b o] [Eb Eo]. cbn in Eb, Eo. subst b o. eexists. split; [reflexivity|]. done. Qed.
Next Obligation. intros [d b o] [Eb Eo]. cbn in Eb, Eo. subst b o. eexists. split; [reflexivity|]. done. Qed.
Next Obligation. intros [d b o] ip [Eb Eo]. cbn in Eb, Eo. subst b o. eexists. split; [reflexivity|]. done. Qed.
Next Obligation. intros [d b o] ip [Eb Eo]. cbn in Eb, Eo. subst b o. eexists. split; [reflexivity|]. done. Qed.
Next Obligation.
  intros [d b o] ip addr off n [Eb Eo] Hoff Hn. cbn in Eb, Eo. subst b o. cbn [fl_data mf_data] in Hoff.
  set (r := if addr + n <=? 8000 then n else Z.max 0 (8000 - addr)). assert (Hr : 0 <= r <= n) by (unfold r; destruct (Z.leb_spec (addr + n) 8000); lia).
  exists r. eexists. split; [reflexivity|]. split; [done|]. split; [lia|]. split; [done|]. cbn [mf_data]. split.
  - intros ip' Hip. unfold zupd. by rewrite (proj2 (Z.eqb_neq _ _)).
  - unfold zupd. rewrite Z.eqb_refl. fold r. apply mf_write_stored; [lia|]. rewrite length_take, mf_user_len. lia.
Qed.

Definition open_one : file := mkFile FD_INODE 1 1 1 0 7 3 0.
Definition files0 : fst_ memfs := mkFst (<[0%nat := open_one]> (replicate 100 (mkFile FD_NONE 0 0 0 0 0 0 0))) (mkMem (fun _ => [1; 2; 3]) false None).

(** 4000 bytes after the first three, in two transactions; and 4000 bytes of which
    the user has 3500. *)
Lemma filewrite_witness :
  (exists s', filewrite 0 1000 4000 files0 = Ret 4000 s' /\
     mf_data (fenv s') 7 = splice [1; 2; 3] 3 (mf_user 1000 (Z.to_nat 4000))) /\
  (exists s', filewrite 0 4500 4000 files0 = Ret (-1) s' /\ f_off (ftable s' !!! 0%nat) = 3503 /\
     stored [1; 2; 3] 3 4000 (take 3500 (mf_user 4500 4000)) (mf_data (fenv s') 7)).
Proof.
  split.
  - destruct (filewrite_correct files0 0 1000 4000) as (k & s' & E & Hk & W & D);
      [vm_compute; lia|split; reflexivity|vm_compute; done|reflexivity|vm_compute; done|lia|lia|lia|vm_compute; done|].
    assert (Er : exists x, filewrite 0 1000 4000 files0 = Ret 4000 x) by (eexists; vm_compute; reflexivity).
    destruct Er as [x Ex]. rewrite Ex in E. injection E as E1 E2. destruct (Z.eqb_spec k 4000) as [->|]; [|done].
    exists s'. split; [congruence|]. exact (D eq_refl).
  - destruct (filewrite_correct files0 0 4500 4000) as (k & s' & E & Hk & [_ Fl _ _ D] & _);
      [vm_compute; lia|split; reflexivity|vm_compute; done|reflexivity|vm_compute; done|lia|lia|lia|vm_compute; done|].
    assert (Er : exists x, filewrite 0 4500 4000 files0 = Ret (-1) x /\ f_off (ftable x !!! 0%nat) = 3503) by (eexists; split; vm_compute; reflexivity).
    destruct Er as (x & Ex & Eo). rewrite Ex in E. injection E as E1 E2. subst x.
    assert (Hk' : k = 3500).
    { rewrite Fl in Eo. rewrite list_lookup_total_insert_eq in Eo by (vm_compute; lia). change (3 + k = 3503) in Eo. lia. }
    subst k. exists s'. split; [exact Ex|]. split; [exact Eo|]. exact D.
Defined.

(** Entry 0 duplicated, closed twice; the second close releases the inode. *)
Lemma file_refs_witness :
  let h := fun i => if Nat.eqb i 0 then 1%nat else 0%nat in
  exists s', freach files0 h s' (bump (bump h 0 2) 0 1) /\ ft_inv s' (bump (bump h 0 2) 0 1) /\
    exists s1, ft_inv s1 (bump (bump (bump h 0 2) 0 1) 0 0) /\ fileclose 0 s' = low (file_release (ftable s' !!! 0%nat)) s1 /\
      f_type (ftable s' !!! 0%nat) = FD_INODE.
Proof.
  intros h. assert (I : ft_inv files0 h).
  { split; [reflexivity|..].
    - intros i f H. apply list_lookup_insert_Some in H as [(<- & <- & _)|[Hi Hf]]; [done|]. apply lookup_replicate in Hf as [-> _]. unfold h.
      by destruct (Nat.eqb_spec i 0); [congruence|].
    - intros i Hi. unfold h, NFILE in *. destruct (Nat.eqb_spec i 0); lia.
    - intros i f H. apply list_lookup_insert_Some in H as [(<- & <- & _)|[Hi Hf]]; [done|]. by apply lookup_replicate in Hf as [-> _]. }
  assert (R : exists s', freach files0 h s' (bump (bump h 0 2) 0 1) /\ f_type (ftable s' !!! 0%nat) = FD_INODE).
  { eexists. split.
    - eapply (freach_step files0 h ?[s1] (bump h 0 2) (OClose 0) None); [|unfold h; cbn; lia|].
      + apply (freach_step _ _ files0 h (ODup 0) (Some 0%nat)); [constructor|unfold h; cbn; lia|vm_compute; reflexivity].
      + vm_compute. reflexivity.
    - reflexivity. }
  destruct R as (s' & R & Et). exists s'. split; [exact R|].
  destruct (file_refs files0 h s' (bump (bump h 0 2) 0 1) I R) as (I' & _ & _ & Hc). split; [exact I'|].
  destruct (Hc 0%nat) as (s1 & _ & I1 & E); [unfold bump; cbn; lia|]. exists s1. split; [exact I1|]. split; [exact E|exact Et].
Defined.
