(* ===== verification/DemoProc.v ===== *)
(** A process table with init asleep in [wait] and one child running, on which
    the theorems about processes are applied. *)
From S2P Require Import Prelude Riscv PhysMem Kalloc PageTable Memstat Proc FsIface Swap VmFault Demo.
From S2P Require Import ProcTable ProcInv ProcLife ProcRefine ProcSched.

#[local] Existing Instance fifo.

(** A file system without files. *)
#[local] Instance no_fs : FsOps unit := {|
  begin_op := mret tt; end_op := mret tt; ilock := fun _ => mret tt; iunlock := fun _ => mret tt; iunlockput := fun _ => mret tt;
  iupdate := fun _ => mret tt; readi := fun _ _ _ => mret []; writei := fun _ _ _ => mret (-1); nameiparent := fun _ => mret (0, []);
  dirlookup := fun _ _ => mret (0, 0); dirlink := fun _ _ _ => mret (-1); ialloc := fun _ _ => mret 0; i_dev := fun _ => mret 0;
  i_inum := fun _ => mret 0; i_type := fun _ => mret 0; i_nlink := fun _ => mret 0; set_major_minor := fun _ _ _ => mret tt;
  set_nlink := fun _ _ => mret tt; filealloc := mret 0; file_open := fun _ _ _ _ => mret tt; file_ip := fun _ => mret 0;
  fileclose := fun _ => mret tt |}.
#[local] Instance no_procfs : ProcFs unit := {| idup := fun x => mret x; iput := fun _ => mret tt; filedup := fun x => mret x; namei := fun _ => mret 1 |}.

Definition a_proc (x : procstate) (ch pd par : Z) : proc :=
  mkProc (mkSched x ch 0 0 pd par) (mkSpace 0 0 0 0) (mkFiles (replicate 16 0) 1 []) (mkSwap 0 [] 0) (mkMemStat 0 0 0 0 0 [])
    (mkExec 0 0 0 0 0 0 0 0 0 0 0 0 0 0 0) (mkCount 0 0 0 0 0 0).

Definition table0 : list proc := a_proc SLEEPING 1 1 0 :: a_proc RUNNING 0 2 1 :: replicate 62 (a_proc UNUSED 0 0 0).
Definition kern0 : kern unit := mkKern (mkPmem (fun _ => 0) 0) table0 tt [] (Some 1%nat) [] [] 3 (proc_ptr 0).

Lemma tat0 j : (j < nproc)%nat -> tat (tab_of kern0) j =
  match j with O => mkSched SLEEPING 1 0 0 1 0 | S O => mkSched RUNNING 0 0 0 2 1 | _ => zero_sched end.
Proof.
  rewrite nproc_eq. intros Hj. destruct j as [|[|j]]; [reflexivity..|].
  unfold tat, tab_of. cbn [t_procs kn_procs kern0]. unfold table0. rewrite !fmap_cons, fmap_replicate.
  change ((?a :: ?b :: ?l) !!! S (S j)) with (l !!! j). apply lookup_total_replicate_2. lia.
Qed.

Lemma kern0_inv : tab_inv (tab_of kern0).
Proof.
  assert (L : forall j, (j < nproc)%nat -> live (tat (tab_of kern0) j) -> j = 0%nat \/ j = 1%nat).
  { intros j Hj. rewrite tat0 by done. destruct j as [|[|j]]; auto. intros H. by destruct H. }
  split.
  - reflexivity.
  - reflexivity.
  - vm_compute. done.
  - intros i Hi Hl. destruct (L i Hi Hl) as [-> | ->]; vm_compute; done.
  - intros i j Hi Hj Hli Hlj. destruct (L i Hi Hli) as [-> | ->], (L j Hj Hlj) as [-> | ->]; vm_compute; done.
  - intros i Hi. rewrite tat0 by done. destruct i as [|[|i]]; split; done.
  - intros i [= <-]. rewrite nproc_eq. lia.
  - exists 0%nat. split; [rewrite nproc_eq; lia|]. split; [done|]. vm_compute. done.
  - intros i Hi Hl. destruct (L i Hi Hl) as [-> | ->]; [intros H; by destruct H|]. intros _. exists 0%nat.
    split; [rewrite nproc_eq; lia|]. split; [done|]. vm_compute. done.
Qed.

(** The child exits with status 7. *)
Lemma exit0 : exists s', kstep 0 (KExit 7) None kern0 s'.
Proof. eexists. split; [exact I|]. split; [vm_compute; done|]. eexists. split; [vm_compute; reflexivity|reflexivity]. Qed.

Definition spec0 : kevent -> option Z -> tab -> Prop := tspec (room kern0) (copies kern0) (tab_of kern0).

(** It exits, or it kills init: the sleeper can run again, with the mark;
    there is no process with the pid 9; a child does not get any memory. *)
Lemma proc_refines_witness :
  (exists s', kstep 0 (KExit 7) None kern0 s' /\ spec0 (KExit 7) None (tab_of s')) /\
  (exists s', kstep 0 (KKill 1) (Some 0) kern0 s' /\ spec0 (KKill 1) (Some 0) (tab_of s') /\
     tat (tab_of s') 0 = mkSched RUNNABLE 1 1 0 1 0) /\
  (exists s', kstep 0 (KKill 9) (Some (-1)) kern0 s' /\ spec0 (KKill 9) (Some (-1)) (tab_of s')) /\
  (exists s', kstep 0 KFork (Some (-1)) kern0 s' /\ spec0 KFork (Some (-1)) (tab_of s')) /\
  (exists r s', kstep 0 (KSleep 5 8) r kern0 s').
Proof.
  assert (R : forall e v s', enabled e kern0 -> krun 0 e kern0 = Ret v s' -> kstep 0 e (Some v) kern0 s')
    by (intros e v s' En E; split; [exact En|]; split; [reflexivity|exact E]).
  split_and!.
  - destruct exit0 as [s' K]. exists s'. split; [exact K|]. exact (proj1 (proc_refines 0 (KExit 7) kern0 kern0_inv) None s' K).
  - eexists. assert (K : kstep 0 (KKill 1) (Some 0) kern0 _) by (apply R; [exact I|vm_compute; reflexivity]).
    split; [exact K|]. split; [exact (proj1 (proc_refines 0 (KKill 1) kern0 kern0_inv) (Some 0) _ K)|vm_compute; reflexivity].
  - eexists. assert (K : kstep 0 (KKill 9) (Some (-1)) kern0 _) by (apply R; [exact I|vm_compute; reflexivity]).
    split; [exact K|]. exact (proj1 (proc_refines 0 (KKill 9) kern0 kern0_inv) (Some (-1)) _ K).
  - eexists. assert (K : kstep 0 KFork (Some (-1)) kern0 _) by (apply R; [exact I|vm_compute; reflexivity]).
    split; [exact K|]. exact (proj1 (proc_refines 0 KFork kern0 kern0_inv) (Some (-1)) _ K).
  - apply (proj2 (proc_refines 0 (KSleep 5 8) kern0 kern0_inv)); [reflexivity|by exists 1%nat].
Defined.

Lemma proc_inv_witness : exists s', rtc (kany 0) kern0 s' /\ tab_inv (tab_of s').
Proof.
  destruct exit0 as [s' K]. exists s'. assert (R : rtc (kany 0) kern0 s') by (apply rtc_once; by exists (KExit 7), None).
  split; [exact R|]. exact (proc_inv 0 kern0 s' kern0_inv R).
Defined.

(** Init is not asleep any more. *)
Lemma kexit_witness : exists s', kstep 0 (KExit 7) None kern0 s' /\
  ~ (p_state (tat (tab_of s') 0) = SLEEPING /\ p_chan (tat (tab_of s') 0) = proc_ptr 0).
Proof.
  destruct exit0 as [s' K]. exists s'. split; [exact K|].
  destruct (kexit_correct 0 kern0 s' 1 7 kern0_inv eq_refl K) as (_ & _ & _ & _ & _ & _ & Hw).
  apply Hw; [rewrite nproc_eq; lia|lia|reflexivity].
Defined.

(** The CPU is idle and the second process of the table can run. *)
Definition kern1 : kern unit :=
  mkKern (mkPmem (fun _ => 0) 0) (a_proc RUNNABLE 0 1 0 :: a_proc RUNNABLE 0 2 1 :: replicate 62 (a_proc UNUSED 0 0 0)) tt [] None [] [] 3 (proc_ptr 0).

Lemma scheduler_witness : exists m s1,
  scheduler (fun j => modpr j (set_state RUNNABLE)) kern1 =
    (_ ← modpr 1 (set_state RUNNABLE); _ ← modS (set_cur None); _ ← release (LProc 1);
     scheduler_pass (fun j => modpr j (set_state RUNNABLE)) m 2 true) s1 /\ kn_cur s1 = Some 1%nat.
Proof.
  destruct (scheduler_fair (fun j => modpr j (set_state RUNNABLE)) 1 kern1) as (m & s1 & E & Hc & _).
  - intros j s Hj Hh Hr. eexists. split; [reflexivity|]. split; [exact Hh|]. split; [by rewrite state_put_ne by congruence|].
    cbn. apply length_insert.
  - rewrite nproc_eq. lia.
  - reflexivity.
  - reflexivity.
  - reflexivity.
  - exists m, s1. split; [exact E|exact Hc].
Defined.
