(* ===== verification/UserGrep.v ===== *)
(** The regular-expression matcher and the filter loop of user/grep.c.

    A C string is the list of its bytes before the terminator, so the character
    at the end of the list is 0.  [regexp] is what a pattern means: a list of
    items, each a character class or its repetition, between two optional anchors;
    [match_] is proved to decide it.  [grep] reads its input in pieces of any
    size: [rd] is the number of bytes each [read] returns. *)
From S2P Require Import Prelude Riscv PhysMem Bytes.

Definition c_star : Z := 42.
Definition c_dollar : Z := 36.
Definition c_dot : Z := 46.
Definition c_caret : Z := 94.
Definition c_nl : Z := 10.

(** [*text == c || c == '.'] *)
Definition char_ok (c x : Z) : bool := (x =? c) || (c =? c_dot).

(** [matchstar(c, re, text)], [here] being [matchhere(re, .)]. *)
Fixpoint matchstar (here : list Z -> bool) (c : Z) (text : list Z) : bool :=
  if here text then true
  else match text with
       | [] => false
       | x :: text => if char_ok c x then matchstar here c text else false
       end.

Fixpoint matchhere (re text : list Z) : bool :=
  match re with
  | [] => true
  | c :: re1 =>
      match re1 with
      | d :: re2 =>
          if d =? c_star then matchstar (matchhere re2) c text
          else match text with
               | x :: text => if char_ok c x then matchhere re1 text else false
               | [] => false
               end
      | [] =>
          if c =? c_dollar then bool_decide (text = [])
          else match text with
               | x :: text => if char_ok c x then matchhere re1 text else false
               | [] => false
               end
      end
  end.

(** The loop of [match], over the suffixes of [text]. *)
Fixpoint match_loop (re text : list Z) : bool :=
  if matchhere re text then true else match text with [] => false | _ :: text => match_loop re text end.

Definition match_ (re text : list Z) : bool :=
  match re with
  | c :: re1 => if c =? c_caret then matchhere re1 text else match_loop re text
  | [] => match_loop re text
  end.

(** ** [grep] *)
Definition BUF_SIZE : nat := 1024.

(** [strchr(p, '\n')]: the bytes before the newline and those after it. *)
Fixpoint strchr_nl (p : list Z) : option (list Z * list Z) :=
  match p with
  | [] => None
  | c :: p => if c =? c_nl then Some ([], p) else if c =? 0 then None
              else '(l, r) ← strchr_nl p; Some (c :: l, r)
  end.

(** The inner loop: what it writes, and the rest of the buffer. *)
Fixpoint grep_lines (fuel : nat) (pattern p : list Z) : option (list Z * list Z) :=
  match fuel with
  | O => None
  | S fuel =>
      match strchr_nl p with
      | None => Some ([], p)
      | Some (l, r) =>
          '(o, r) ← grep_lines fuel pattern r;
          Some ((if match_ pattern l then l ++ [c_nl] else []) ++ o, r)
      end
  end.

(** [buf] is [buf[0..m)], [input] what is left of the file; the result is what
    has been written to the standard output. *)
Fixpoint grep_loop (fuel : nat) (rd : nat -> nat) (pattern buf input : list Z) : option (list Z) :=
  match fuel with
  | O => None
  | S fuel =>
      let n := Nat.min (rd (length input)) (Nat.min (BUF_SIZE - length buf - 1) (length input)) in
      if (n =? 0)%nat then Some []
      else
        let buf := buf ++ take n input in
        '(o, rest) ← grep_lines (S (length buf)) pattern buf;
        o' ← grep_loop fuel rd pattern rest (drop n input);
        Some (o ++ o')
  end.

Definition grep (rd : nat -> nat) (pattern input : list Z) : option (list Z) :=
  grep_loop (S (length input)) rd pattern [] input.

(** ** What a pattern means *)
Inductive class : Type := Any | Lit (c : Z).
Inductive item : Type := One (k : class) | Rep (k : class).
Record regexp : Type := mkRe { re_start : bool; re_items : list item; re_end : bool }.

Definition class_of (c : Z) : class := if c =? c_dot then Any else Lit c.
Definition in_class (k : class) (x : Z) : Prop := match k with Any => True | Lit c => x = c end.

(** The items of a pattern, and whether it ends in an anchor. *)
Fixpoint items (re : list Z) : list item * bool :=
  match re with
  | [] => ([], false)
  | c :: re1 =>
      match re1 with
      | d :: re2 =>
          if d =? c_star then let '(l, e) := items re2 in (Rep (class_of c) :: l, e)
          else let '(l, e) := items re1 in (One (class_of c) :: l, e)
      | [] => if c =? c_dollar then ([], true) else ([One (class_of c)], false)
      end
  end.

Definition parse_re (re : list Z) : regexp :=
  match re with
  | c :: re1 => if c =? c_caret then let '(l, e) := items re1 in mkRe true l e
                else let '(l, e) := items re in mkRe false l e
  | [] => mkRe false [] false
  end.

(** The words of a list of items. *)
Fixpoint lang (l : list item) (w : list Z) : Prop :=
  match l with
  | [] => w = []
  | One k :: l => exists x v, w = x :: v /\ in_class k x /\ lang l v
  | Rep k :: l => exists u v, w = u ++ v /\ Forall (in_class k) u /\ lang l v
  end.

(** [r] matches somewhere in [text]. *)
Definition occurs (r : regexp) (text : list Z) : Prop :=
  exists pre w post, text = pre ++ w ++ post /\ lang (re_items r) w /\
    (re_start r = true -> pre = []) /\ (re_end r = true -> post = []).

(** ** Correctness of the matcher *)
Definition prefix_of_text (le : list item * bool) (text : list Z) : Prop :=
  exists w post, text = w ++ post /\ lang le.1 w /\ (le.2 = true -> post = []).

Lemma char_ok_class c x : char_ok c x = true <-> in_class (class_of c) x.
Proof. unfold char_ok, class_of. destruct (Z.eqb_spec c c_dot); destruct (Z.eqb_spec x c); simpl; naive_solver. Qed.

Lemma matchstar_spec here c text :
  matchstar here c text = true <->
  exists u v, text = u ++ v /\ Forall (in_class (class_of c)) u /\ here v = true.
Proof.
  induction text as [|x text IH]; cbn [matchstar].
  - destruct (here []) eqn:E; [split; [by exists [], []|done]|]. split; [done|]. intros (u & v & Huv & _ & Hv).
    symmetry in Huv. apply app_eq_nil in Huv as [-> ->]. congruence.
  - destruct (here (x :: text)) eqn:E; [split; [by exists [], (x :: text)|done]|].
    destruct (char_ok c x) eqn:Hc.
    + rewrite IH. apply char_ok_class in Hc. split.
      * intros (u & v & -> & Hu & Hv). exists (x :: u), v. by repeat constructor.
      * intros ([|y u] & v & Huv & Hu & Hv); simplify_eq/=; [congruence|].
        inversion Hu; subst. by exists u, v.
    + split; [done|]. intros ([|y u] & v & Huv & Hu & Hv); simplify_eq/=; [congruence|].
      inversion Hu as [|? ? Hy]; subst. apply char_ok_class in Hy. congruence.
Qed.

Lemma prefix_rep k l e text :
  prefix_of_text (Rep k :: l, e) text <->
  exists u v, text = u ++ v /\ Forall (in_class k) u /\ prefix_of_text (l, e) v.
Proof.
  unfold prefix_of_text. cbn [fst snd lang]. split.
  - intros (w & post & -> & (u & v & -> & Hu & Hv) & He). exists u, (v ++ post). rewrite app_assoc. eauto 10.
  - intros (u & v & -> & Hu & w & post & -> & Hw & He). exists (u ++ w), post. rewrite app_assoc. eauto 10.
Qed.

Lemma prefix_one k l e text :
  prefix_of_text (One k :: l, e) text <->
  exists x v, text = x :: v /\ in_class k x /\ prefix_of_text (l, e) v.
Proof.
  unfold prefix_of_text. cbn [fst snd lang]. split.
  - intros (w & post & -> & (x & v & -> & Hx & Hv) & He). exists x, (v ++ post). eauto 10.
  - intros (x & v & -> & Hx & w & post & -> & Hw & He). exists (x :: w), post. eauto 10.
Qed.

(** One character of the pattern against one of the text. *)
Lemma one_spec (c : Z) le text (rest : bool) :
  (forall x t, text = x :: t -> rest = true <-> prefix_of_text le t) ->
  match text with x :: _ => if char_ok c x then rest else false | [] => false end = true <->
  prefix_of_text (One (class_of c) :: le.1, le.2) text.
Proof.
  intros H. rewrite prefix_one. rewrite <- surjective_pairing. destruct text as [|x t]; [split; [done|naive_solver]|].
  specialize (H x t eq_refl). pose proof (char_ok_class c x) as Hc. destruct (char_ok c x).
  - rewrite H. split; [exists x, t; naive_solver|naive_solver].
  - split; [done|]. intros (y & v & [= <- <-] & Hx & _). by apply Hc.
Qed.

Lemma items_cons2 c d re2 :
  items (c :: d :: re2) =
  if d =? c_star then let '(l, e) := items re2 in (Rep (class_of c) :: l, e)
  else let '(l, e) := items (d :: re2) in (One (class_of c) :: l, e).
Proof. done. Qed.

Lemma matchhere_cons2 c d re2 text :
  matchhere (c :: d :: re2) text =
  if d =? c_star then matchstar (matchhere re2) c text
  else match text with x :: text => if char_ok c x then matchhere (d :: re2) text else false | [] => false end.
Proof. done. Qed.

Lemma matchhere_spec n : forall re text, (length re <= n)%nat ->
  matchhere re text = true <-> prefix_of_text (items re) text.
Proof.
  induction n as [|n IH]; intros re text Hn.
  { destruct re; simpl in Hn; [|lia]. split; [|done]. intros _. by exists [], text. }
  destruct re as [|c [|d re2]].
  - split; [|done]. intros _. by exists [], text.
  - cbn [matchhere items]. destruct (Z.eqb_spec c c_dollar) as [->|Hc].
    + rewrite bool_decide_eq_true. unfold prefix_of_text. cbn [fst snd lang].
      split; [intros ->; by exists [], []|]. intros (w & post & -> & -> & He). by rewrite He.
    + assert (H : forall x t, text = x :: t -> true = true <-> prefix_of_text ([], false) t)
        by (intros x t _; split; [intros _; by exists [], t|done]).
      apply (one_spec c _ text true) in H. destruct text; [exact H|]. simpl in H |- *. by destruct (char_ok c z).
  - rewrite items_cons2, matchhere_cons2. destruct (Z.eqb_spec d c_star) as [->|Hd].
    + rewrite matchstar_spec. destruct (items re2) as [l e] eqn:El. rewrite prefix_rep.
      assert (IH2 : forall t, matchhere re2 t = true <-> prefix_of_text (l, e) t)
        by (intros t; rewrite IH, El by (simpl in Hn; lia); done).
      naive_solver.
    + cbn [length] in Hn. pose proof (fun t => IH (d :: re2) t ltac:(simpl; lia)) as IH2.
      destruct (items (d :: re2)) as [l e] eqn:El.
      pose proof (one_spec c (l, e) text (match text with _ :: t => matchhere (d :: re2) t | [] => false end)) as H.
      cbn [fst snd] in H. rewrite <- H; [|by intros x t ->]. clear. by destruct text.
Qed.

Lemma match_loop_spec re text :
  match_loop re text = true <-> exists pre v, text = pre ++ v /\ prefix_of_text (items re) v.
Proof.
  assert (Hs : forall t, matchhere re t = true <-> prefix_of_text (items re) t)
    by (intros t; by apply (matchhere_spec (length re))).
  induction text as [|x text IH]; cbn [match_loop]; destruct (matchhere re _) eqn:E.
  - split; [|done]. intros _. exists [], []. by rewrite <- Hs.
  - split; [done|]. intros (pre & v & Hv & Hp). symmetry in Hv. apply app_eq_nil in Hv as [-> ->].
    apply Hs in Hp. congruence.
  - split; [|done]. intros _. exists [], (x :: text). by rewrite <- Hs.
  - rewrite IH. split; [intros (pre & v & -> & Hv); by exists (x :: pre), v|].
    intros ([|y pre] & v & Hv & Hp); simplify_eq/=; [apply Hs in Hp; congruence|eauto].
Qed.

(** C29: [match] of grep.c finds the pattern in the text exactly when
    some part of the text - starting where the text starts if the pattern begins
    with a caret, ending where it ends if it ends with a dollar sign - is a word
    of the pattern's items. *)
Theorem match_correct re text : match_ re text = true <-> occurs (parse_re re) text.
Proof.
  assert (Hf : forall le, (exists pre v, text = pre ++ v /\ prefix_of_text le v) <->
    occurs (mkRe false le.1 le.2) text).
  { intros le. unfold occurs, prefix_of_text. cbn [re_items re_start re_end]. split.
    - intros (pre & v & -> & w & post & -> & Hw & He). exists pre, w, post. naive_solver.
    - intros (pre & w & post & -> & Hw & _ & He). exists pre, (w ++ post). eauto 10. }
  destruct re as [|c re1]; cbn [match_ parse_re].
  { rewrite match_loop_spec. apply (Hf ([], false)). }
  destruct (Z.eqb_spec c c_caret) as [->|Hc].
  - rewrite (matchhere_spec (length re1)) by done. destruct (items re1) as [l e].
    unfold occurs, prefix_of_text. cbn [re_items re_start re_end fst snd]. split.
    + intros (w & post & -> & Hw & He). exists [], w, post. naive_solver.
    + intros (pre & w & post & -> & Hw & Hs & He). rewrite Hs by done. simpl. eauto 10.
  - rewrite match_loop_spec, Hf. by destruct (items (c :: re1)) as [l e].
Qed.

(** ** Correctness of the filter *)

(** The complete lines of a file, without their newlines. *)
Fixpoint lines_of (s : list Z) (acc : list Z) : list (list Z) :=
  match s with
  | [] => []
  | c :: s => if c =? c_nl then acc :: lines_of s [] else lines_of s (acc ++ [c])
  end.

Definition print_matching (pattern : list Z) (ls : list (list Z)) : list Z :=
  concat ((fun l => if match_ pattern l then l ++ [c_nl] else []) <$> ls).

Lemma lines_of_app s acc l : Forall (fun c => c <> c_nl) l -> lines_of (l ++ s) acc = lines_of s (acc ++ l).
Proof.
  revert acc. induction l as [|c l IH]; intros acc Hl; [by rewrite app_nil_r|].
  inversion Hl; subst. cbn [app lines_of]. rewrite (proj2 (Z.eqb_neq c c_nl)) by done.
  rewrite IH by done. by rewrite <- app_assoc.
Qed.

Lemma strchr_nl_Some p l r : strchr_nl p = Some (l, r) -> p = l ++ c_nl :: r /\ Forall (fun c => c <> c_nl) l.
Proof.
  revert l r. induction p as [|c p IH]; intros l r H; [done|]. cbn [strchr_nl] in H.
  destruct (Z.eqb_spec c c_nl) as [->|Hc]; [simplify_eq; by split|].
  destruct (c =? 0); [done|]. destruct (strchr_nl p) as [[l' r']|] eqn:E; simplify_eq/=.
  destruct (IH _ _ eq_refl) as [-> Hl]. split; [done|]. by constructor.
Qed.

Lemma strchr_nl_None p : Forall (fun c => c <> 0) p -> strchr_nl p = None -> Forall (fun c => c <> c_nl) p.
Proof.
  induction p as [|c p IH]; intros H0 H; [constructor|]. inversion H0; subst. cbn [strchr_nl] in H.
  destruct (Z.eqb_spec c c_nl); [done|]. rewrite (proj2 (Z.eqb_neq c 0)) in H by done.
  destruct (strchr_nl p) as [[]|]; [done|]. constructor; [done|]. by apply IH.
Qed.

(** The inner loop prints the matching lines of the buffer and leaves the part
    after the last newline. *)
Lemma grep_lines_spec fuel pattern p : (length p < fuel)%nat -> Forall (fun c => c <> 0) p ->
  exists o q rest, grep_lines fuel pattern p = Some (o, rest) /\ p = q ++ rest /\
    Forall (fun c => c <> c_nl) rest /\
    forall s, print_matching pattern (lines_of (p ++ s) []) = o ++ print_matching pattern (lines_of (rest ++ s) []).
Proof.
  revert p. induction fuel as [|fuel IH]; intros p Hp H0; [lia|]. cbn [grep_lines].
  destruct (strchr_nl p) as [[l r]|] eqn:E.
  - apply strchr_nl_Some in E as [-> Hl]. rewrite length_app in Hp. cbn [length] in Hp.
    apply Forall_app in H0 as [H0l H0r]. inversion H0r as [|? ? _ H0r']; subst.
    destruct (IH r ltac:(lia) H0r') as (o & q & rest & -> & -> & Hr & Hs). cbn [mbind option_bind].
    eexists _, (l ++ c_nl :: q), rest. split; [done|]. split; [by rewrite <- app_assoc|]. split; [done|].
    intros s. rewrite <- app_assoc, lines_of_app by done. cbn [app lines_of]. rewrite Z.eqb_refl.
    unfold print_matching. cbn [fmap list_fmap concat]. fold (print_matching pattern (lines_of ((q ++ rest) ++ s) [])).
    rewrite Hs. by rewrite <- app_assoc.
  - exists [], [], p. split; [done|]. split; [done|]. split; [by apply strchr_nl_None|done].
Qed.

(** Every line fits in the buffer with its newline and a terminator. *)
Definition short_lines (s : list Z) : Prop :=
  forall a l b, s = a ++ l ++ b -> Forall (fun c => c <> c_nl) l -> (length l + 1 < BUF_SIZE)%nat.

Lemma grep_loop_spec fuel rd pattern : (forall k, (0 < rd k)%nat) ->
  forall buf input, (length input < fuel)%nat -> Forall (fun c => c <> 0) (buf ++ input) ->
  Forall (fun c => c <> c_nl) buf -> short_lines (buf ++ input) ->
  grep_loop fuel rd pattern buf input = Some (print_matching pattern (lines_of (buf ++ input) [])).
Proof.
  intros Hrd. induction fuel as [|fuel IH]; intros buf input Hf H0 Hb Hs; [lia|]. cbn [grep_loop].
  assert (Hlb : (length buf + 1 < BUF_SIZE)%nat) by (by apply (Hs [] buf input)).
  destruct (Nat.eqb_spec (Nat.min (rd (length input)) (Nat.min (BUF_SIZE - length buf - 1) (length input))) 0) as [Hn|Hn].
  - specialize (Hrd (length input)). assert (input = []) as -> by (destruct input; [done|simpl in *; lia]).
    by rewrite lines_of_app by done.
  - remember (Nat.min (rd (length input)) _) as n eqn:En.
    assert (Hd : (length (drop n input) < fuel)%nat) by (rewrite length_drop; lia). clear En.
    rewrite <- (take_drop n input) in H0, Hs. rewrite app_assoc in H0, Hs.
    destruct (grep_lines_spec (S (length (buf ++ take n input))) pattern (buf ++ take n input) ltac:(lia))
      as (o & q & rest & -> & Eq & Hr & Hp); [by apply Forall_app in H0 as [? _]|].
    cbn [mbind option_bind]. rewrite Eq in H0, Hs. rewrite <- app_assoc in H0, Hs.
    rewrite IH; [|done| |done|].
    + specialize (Hp (drop n input)). rewrite <- app_assoc, take_drop in Hp. rewrite Hp. done.
    + by apply Forall_app in H0 as [_ ?].
    + intros a l b E. apply (Hs (q ++ a) l b). by rewrite <- app_assoc, E.
Qed.

(** however [read] cuts up its input, [grep] ends and writes exactly
    the complete lines that match the pattern, in order, provided no line is too
    long for its buffer and the input has no null bytes. *)
Theorem grep_correct rd pattern input : (forall k, (0 < rd k)%nat) ->
  Forall (fun c => c <> 0) input -> short_lines input ->
  grep rd pattern input = Some (print_matching pattern (lines_of input [])).
Proof. intros. apply (grep_loop_spec _ _ _ ltac:(done) []); [lia|done|done|done]. Qed.

(** grep ^a.*b$ on "acb", "cab", "ab". *)
Example grep_witness : grep (fun _ => 2%nat) [94; 97; 46; 42; 98; 36] [97; 99; 98; 10; 99; 97; 98; 10; 97; 98; 10] =
  Some [97; 99; 98; 10; 97; 98; 10].
Proof.
  rewrite (grep_correct (fun _ => 2%nat) [94; 97; 46; 42; 98; 36] [97; 99; 98; 10; 99; 97; 98; 10; 97; 98; 10]).
  - vm_compute. reflexivity.
  - lia.
  - repeat constructor; lia.
  - intros a l b E _. apply (f_equal length) in E. rewrite !length_app in E. cbn in E. unfold BUF_SIZE. lia.
Defined.
