(* ===== verification/Syscall.v ===== *)
(** System-call arguments, kernel/syscall.c.

    The arguments are registers saved in the trapframe page of the process; the
    strings and arrays they point to are in user memory, fetched with [copyin]
    and [copyinstr].  A string that reached a kernel buffer is the list of its
    bytes before the terminator. *)
From S2P Require Import Prelude Riscv PhysMem Kalloc PageTable Memstat Proc FsIface Swap VmFault Bytes ProcTable.

(** Offsets in [struct trapframe]; [tf_a0] is in [ProcTable]. *)
Definition tf_kernel_satp : Z := 0.
Definition tf_kernel_sp : Z := 8.
Definition tf_kernel_trap : Z := 16.
Definition tf_epc : Z := 24.
Definition tf_kernel_hartid : Z := 32.
Definition tf_sp : Z := 48.
Definition tf_a1 : Z := 120.
Definition tf_a7 : Z := 168.
Definition MAXPATH : Z := 128.

Section args.
Context `{HL : Layout} {F : Type} `{FO : !FsOps F} `{PO : !Policy}.

(** A field of [p->trapframe]. *)
Definition tf_get (off : Z) : M (kst F) Z := p ← myproc; vm (mem_load (p_trapframe (p_space p) + off)).
Definition tf_put (off v : Z) : M (kst F) unit := p ← myproc; vm (mem_store (p_trapframe (p_space p) + off) v).

Definition argraw (n : Z) : M (kst F) Z :=
  if (0 <=? n) && (n <=? 5) then tf_get (tf_a0 + 8 * n) else panic "argraw".

Definition argint (n : Z) : M (kst F) Z := v ← argraw n; mret (i32 v).
Definition argaddr (n : Z) : M (kst F) Z := argraw n.

(** [None] is the result -1. *)
Definition fetchaddr (addr : Z) : M (kst F) (option Z) :=
  p ← myproc;
  if (sz p <=? addr) || (sz p <? u64 (addr + 8)) then mret None
  else
    r ← copyin (pagetable p) addr 8;
    let '(rc, bs) := r in
    if negb (rc =? 0) then mret None else mret (Some (le_val bs)).

(** The result and the string in the buffer. *)
Definition fetchstr (addr max : Z) : M (kst F) (Z * list Z) :=
  p ← myproc;
  r ← copyinstr (pagetable p) addr max;
  let '(rc, buf) := r in
  if rc <? 0 then mret (-1, buf) else mret (Z.of_nat (length (cstr buf)), cstr buf).

Definition argstr (n max : Z) : M (kst F) (Z * list Z) := addr ← argaddr n; fetchstr addr max.
End args.
