(* ===== verification/Exec.v ===== *)
(** The exec system call, kernel/exec.c.

    [kexec] reads the program headers of the file, records where its segments
    are, allocates the user stack and puts the arguments on it; the pages of the
    program come in on demand.  The headers are read from the file's bytes at
    the offsets of elf.h. *)
From S2P Require Import Prelude Riscv PhysMem Kalloc PageTable Memstat Proc FsIface Swap VmFault Bytes ProcTable Syscall.

Definition ELF_MAGIC : Z := 0x464C457F.
Definition ELF_PROG_LOAD : Z := 1.
Definition sizeof_elfhdr : Z := 64.
Definition sizeof_proghdr : Z := 56.

Record elfhdr : Type := mkElf { elf_magic : Z; elf_entry : Z; elf_phoff : Z; elf_phnum : Z }.
Record proghdr : Type := mkPh { ph_type : Z; ph_flags : Z; ph_off : Z; ph_vaddr : Z; ph_filesz : Z; ph_memsz : Z }.

Definition get_elfhdr (bs : list Z) : elfhdr := mkElf (getn 4 bs 0) (getn 8 bs 24) (getn 8 bs 32) (getn 2 bs 56).
Definition get_proghdr (bs : list Z) : proghdr :=
  mkPh (getn 4 bs 0) (getn 4 bs 4) (getn 8 bs 8) (getn 8 bs 16) (getn 8 bs 32) (getn 8 bs 40).

(** What the loop over the program headers has recorded: the executable segment
    and the other one, and the size of the image so far. *)
Record segment : Type := mkSeg { g_start : Z; g_end : Z; g_off : Z; g_filesz : Z; g_memsz : Z; g_flags : Z }.
Record image : Type := mkImage { im_text : segment; im_data : segment; im_sz : Z }.

Definition no_segment : segment := mkSeg 0 0 0 0 0 0.
Definition no_image : image := mkImage no_segment no_segment 0.

Definition set_segment (g : segment) (h : proghdr) : segment :=
  mkSeg (if g_start g =? 0 then ph_vaddr h else g_start g) (u64 (ph_vaddr h + ph_memsz h))
    (u32 (ph_off h)) (u32 (ph_filesz h)) (u32 (ph_memsz h)) (ph_flags h).

(** One [LOAD] header that has passed the checks. *)
Definition add_segment (im : image) (h : proghdr) : image :=
  let e := u64 (ph_vaddr h + ph_memsz h) in
  let sz := if im_sz im <? e then e else im_sz im in
  if negb (Z.land (ph_flags h) 1 =? 0) then mkImage (set_segment (im_text im) h) (im_data im) sz
  else mkImage (im_text im) (set_segment (im_data im) h) sz.

Definition bad_proghdr (h : proghdr) : bool :=
  (ph_memsz h <? ph_filesz h) || (u64 (ph_vaddr h + ph_memsz h) <? ph_vaddr h) || negb (ph_vaddr h mod PGSIZE =? 0).

(** The part of [path] after the last slash. *)
Fixpoint base_name (path last : list Z) : list Z :=
  match path with [] => last | c :: r => base_name r (if c =? 47 then r else last) end.

Section exec.
Context `{HL : Layout} {F : Type} `{FO : !FsOps F} `{PF : !ProcFs F} `{PO : !Policy}.

(** The loop over the program headers, [n] more of them, the next at [off]; the
    result is whether it went through, and the image so far. *)
Fixpoint read_segments (n : nat) (ip off : Z) (im : image) : M F (bool * image) :=
  match n with
  | O => mret (true, im)
  | S n =>
      bs ← readi ip (u32 off) sizeof_proghdr;
      if negb (Z.of_nat (length bs) =? sizeof_proghdr) then mret (false, im)
      else
        let h := get_proghdr bs in
        if negb (ph_type h =? ELF_PROG_LOAD) then read_segments n ip (i32 (off + sizeof_proghdr)) im
        else if bad_proghdr h then mret (false, im)
        else read_segments n ip (i32 (off + sizeof_proghdr)) (add_segment im h)
  end.

(** The argument strings go on the stack below [sp]; [ustack] collects their
    addresses.  [None] is a jump to [bad]. *)
Fixpoint push_args (pt stackbase : Z) (argv : list (list Z)) (argc sp : Z) (ustack : list Z) : M (kst F) (option (Z * list Z)) :=
  match argv with
  | [] => mret (Some (sp, ustack))
  | a :: argv =>
      if MAXARG <=? argc then mret None
      else
        let sp := u64 (sp - (Z.of_nat (length a) + 1)) in
        let sp := sp - sp mod 16 in
        if sp <? stackbase then mret None
        else
          rc ← copyout pt sp (a ++ [0]);
          if rc <? 0 then mret None else push_args pt stackbase argv (argc + 1) sp (ustack ++ [sp])
  end.

(** The array of argument pointers goes below the strings; its address. *)
Definition push_ustack (pt stackbase sp : Z) (ustack : list Z) : M (kst F) (option Z) :=
  let sp := u64 (sp - Z.of_nat (length ustack + 1) * 8) in
  let sp := sp - sp mod 16 in
  if sp <? stackbase then mret None
  else
    rc ← copyout pt sp (concat (le_bytes 8 <$> (ustack ++ [0])));
    mret (if rc <? 0 then None else Some sp).

(** The label [bad]. *)
Definition exec_bad (pt sz ip : Z) : M (kst F) Z :=
  _ ← (if negb (pt =? 0) then vm (proc_freepagetable pt sz) else mret tt);
  _ ← (if negb (ip =? 0) then _ ← fs (ilock ip); _ ← fs (iunlockput ip); fs end_op else mret tt);
  mret (-1).

(** What the process remembers of its image. *)
Definition exec_record (im : image) (sp exec_ip : Z) : pexec :=
  let t := im_text im in let d := im_data im in
  let seg_end := if negb (g_end d =? 0) then g_end d else g_end t in
  mkExec (g_start t) (g_end t) (g_start d) (g_end d) (PGROUNDUP seg_end) sp exec_ip
    (g_off t) (g_filesz t) (g_memsz t) (g_flags t) (g_off d) (g_filesz d) (g_memsz d) (g_flags d).

(** From the commit to the new image on. *)
Definition exec_commit (path : list Z) (ip pt sz sp entry argc : Z) (im : image) : M (kst F) Z :=
  _ ← tf_put tf_a1 sp;
  _ ← modp (set_name (copy_name 16 (base_name path path)));
  p ← myproc;
  let oldpt := pagetable p in
  let oldsz := Proc.sz p in
  _ ← modp (fun p => set_sz sz (set_pagetable pt p));
  _ ← tf_put tf_epc entry;
  _ ← tf_put tf_sp sp;
  _ ← vm (proc_freepagetable oldpt oldsz);
  _ ← modp (fun p => set_exec (exec_record im sp (exec_ip (p_exec p))) p);
  _ ← fs (ilock ip);
  ip' ← fs (idup ip);
  _ ← modp (set_exec_ip ip');
  _ ← fs (iunlockput ip);
  _ ← fs end_op;
  p ← myproc;
  let e := p_exec p in
  _ ← printf (EvLazymap (text_start e) (text_end e) (data_start e) (data_end e) (heap_start e) (stack_top e));
  r ← swapfile_create;
  _ ← printf (EvSwapfile (r =? 0));
  mret (i32 argc).

(** From the stack allocation on, the file being unlocked. *)
Definition exec_stack (path : list Z) (argv : list (list Z)) (ip pt entry : Z) (im : image) : M (kst F) Z :=
  let sz := PGROUNDUP (im_sz im) in
  sz1 ← vm (uvmalloc pt sz (u64 (sz + (USERSTACK + 1) * PGSIZE)) PTE_W);
  if sz1 =? 0 then exec_bad pt sz ip
  else
    _ ← vm (uvmclear pt (u64 (sz1 - (USERSTACK + 1) * PGSIZE)));
    let stackbase := u64 (sz1 - USERSTACK * PGSIZE) in
    r ← push_args pt stackbase argv 0 sz1 [];
    match r with
    | None => exec_bad pt sz1 ip
    | Some (sp, ustack) =>
        r ← push_ustack pt stackbase sp ustack;
        match r with
        | None => exec_bad pt sz1 ip
        | Some sp => exec_commit path ip pt sz1 sp entry (Z.of_nat (length ustack)) im
        end
    end.

Definition kexec (path : list Z) (argv : list (list Z)) : M (kst F) Z :=
  _ ← fs begin_op;
  ip ← fs (namei path);
  if ip =? 0 then _ ← fs end_op; mret (-1)
  else
    _ ← fs (ilock ip);
    bs ← fs (readi ip 0 sizeof_elfhdr);
    if negb (Z.of_nat (length bs) =? sizeof_elfhdr) then exec_bad 0 0 ip
    else
      let elf := get_elfhdr bs in
      if negb (elf_magic elf =? ELF_MAGIC) then exec_bad 0 0 ip
      else
        p ← myproc;
        pt ← vm (proc_pagetable (p_trapframe (p_space p)));
        if pt =? 0 then exec_bad 0 0 ip
        else
          r ← fs (read_segments (Z.to_nat (elf_phnum elf)) ip (i32 (elf_phoff elf)) no_image);
          let '(ok, im) := r in
          if negb ok then exec_bad pt (im_sz im) ip
          else
            _ ← fs (iunlock ip);
            exec_stack path argv ip pt (elf_entry elf) im.
End exec.
