(* ===== verification/SysFile.v ===== *)
(** File-system calls, kernel/sysfile.c.

    The calls run on [kst], the state of the calling process; a pointer to a
    [struct file] or an inode is a number, 0 for null.  [SysFs] are the calls
    into file.c, fs.c and pipe.c that no other part makes.  [create] is the same
    code as [kcreate] of swap.c. *)
From S2P Require Import Prelude Riscv PhysMem Kalloc PageTable Memstat Proc FsIface Swap VmFault Bytes ProcTable Syscall Exec.

Definition O_RDONLY : Z := 0.
Definition O_WRONLY : Z := 1.
Definition O_RDWR : Z := 2.
Definition O_CREATE : Z := 0x200.
Definition O_TRUNC : Z := 0x400.
Definition NDEV_MAX : Z := 10.

Class SysFs (F : Type) : Type := {
  i_major : Z -> M F Z;
  i_size : Z -> M F Z;
  itrunc : Z -> M F unit;
  (** [f->type = FD_DEVICE; f->major = major; f->ip = ip; f->readable = r; f->writable = w] *)
  file_dev : Z -> Z -> Z -> Z -> Z -> M F unit;
  (** the two ends of a new pipe; null when the call fails *)
  pipealloc : M F (Z * Z);
  fileread : Z -> Z -> Z -> M (kst F) Z;
  filewrite : Z -> Z -> Z -> M (kst F) Z;
  filestat : Z -> Z -> M (kst F) Z
}.

(** [omode & bit] *)
Definition mode_has (omode bit : Z) : bool := negb (Z.land omode bit =? 0).

(** [strncmp(s, t, DIRSIZ) == 0] for a name [s] and a string [t]. *)
Fixpoint same_name (n : nat) (s t : list Z) : bool :=
  match n with
  | O => true
  | S n => let a := hd 0 s in let b := hd 0 t in
           (a =? b) && ((a =? 0) || same_name n (tail s) (tail t))
  end.
Definition is_dot (name : list Z) : bool := same_name (Z.to_nat DIRSIZ) name dot || same_name (Z.to_nat DIRSIZ) name dotdot.

Section sysfile.
Context `{HL : Layout} {F : Type} `{FO : !FsOps F} `{PF : !ProcFs F} `{SF : !SysFs F} `{PO : !Policy}.

(** The descriptor and the file; [None] is the result -1. *)
Definition argfd (n : Z) : M (kst F) (option (nat * Z)) :=
  fd ← argint n;
  p ← myproc;
  if (fd <? 0) || (Z.of_nat NOFILE <=? fd) then mret None
  else
    let f := p_ofile (p_files p) !!! Z.to_nat fd in
    mret (if f =? 0 then None else Some (Z.to_nat fd, f)).

Definition put_ofile (fd : nat) (f : Z) : M (kst F) unit :=
  modp (fun p => set_ofile (<[fd := f]> (p_ofile (p_files p))) p).

Definition fdalloc (f : Z) : M (kst F) Z :=
  p ← myproc;
  match first_index (fun g => g =? 0) (p_ofile (p_files p)) with
  | Some fd => _ ← put_ofile fd f; mret (Z.of_nat fd)
  | None => mret (-1)
  end.

Definition sys_dup : M (kst F) Z :=
  r ← argfd 0;
  match r with
  | None => mret (-1)
  | Some (_, f) =>
      fd ← fdalloc f;
      if fd <? 0 then mret (-1) else _ ← fs (filedup f); mret fd
  end.

Definition sys_read : M (kst F) Z :=
  p ← argaddr 1;
  n ← argint 2;
  r ← argfd 0;
  match r with None => mret (-1) | Some (_, f) => fileread f p n end.

Definition sys_write : M (kst F) Z :=
  p ← argaddr 1;
  n ← argint 2;
  r ← argfd 0;
  match r with None => mret (-1) | Some (_, f) => filewrite f p n end.

Definition sys_close : M (kst F) Z :=
  r ← argfd 0;
  match r with
  | None => mret (-1)
  | Some (fd, f) => _ ← put_ofile fd 0; _ ← fs (fileclose f); mret 0
  end.

Definition sys_fstat : M (kst F) Z :=
  st ← argaddr 1;
  r ← argfd 0;
  match r with None => mret (-1) | Some (_, f) => filestat f st end.

(** The label [bad] of [sys_link]. *)
Definition link_bad (ip : Z) : M F Z :=
  _ ← ilock ip;
  n ← i_nlink ip;
  _ ← set_nlink ip (i16 (n - 1));
  _ ← iupdate ip;
  _ ← iunlockput ip;
  _ ← end_op;
  mret (-1).

Definition link_ (old new : list Z) : M F Z :=
  _ ← begin_op;
  ip ← namei old;
  if ip =? 0 then _ ← end_op; mret (-1)
  else
    _ ← ilock ip;
    t ← i_type ip;
    if t =? T_DIR then _ ← iunlockput ip; _ ← end_op; mret (-1)
    else
      n ← i_nlink ip;
      _ ← set_nlink ip (i16 (n + 1));
      _ ← iupdate ip;
      _ ← iunlock ip;
      r ← nameiparent new;
      let '(dp, name) := r in
      if dp =? 0 then link_bad ip
      else
        _ ← ilock dp;
        dd ← i_dev dp;
        di ← i_dev ip;
        inum ← i_inum ip;
        r ← (if negb (dd =? di) then mret (-1) else dirlink dp name inum);
        if r <? 0 then _ ← iunlockput dp; link_bad ip
        else
          _ ← iunlockput dp;
          _ ← iput ip;
          _ ← end_op;
          mret 0.

Definition sys_link : M (kst F) Z :=
  r ← argstr 0 MAXPATH;
  let '(n, old) := r in
  if n <? 0 then mret (-1)
  else
    r ← argstr 1 MAXPATH;
    let '(n, new) := r in
    if n <? 0 then mret (-1) else fs (link_ old new).

(** The loop of [isdirempty] from [off]. *)
Fixpoint isdirempty_loop (fuel : nat) (dp off : Z) : M F bool :=
  match fuel with
  | O => diverge
  | S fuel =>
      size ← i_size dp;
      if off <? size then
        de ← readi dp off (Z.of_nat sizeof_dirent);
        if negb (length de =? sizeof_dirent)%nat then panic "isdirempty: readi"
        else if negb (getn 2 de 0 =? 0) then mret false
        else isdirempty_loop fuel dp (off + Z.of_nat sizeof_dirent)
      else mret true
  end.
Definition isdirempty (dp : Z) : M F bool :=
  size ← i_size dp;
  isdirempty_loop (S (Z.to_nat (size / Z.of_nat sizeof_dirent))) dp (2 * Z.of_nat sizeof_dirent).

(** The label [bad] of [sys_unlink]. *)
Definition unlink_bad (dp : Z) : M F Z := _ ← iunlockput dp; _ ← end_op; mret (-1).

Definition unlink_ (path : list Z) : M F Z :=
  _ ← begin_op;
  r ← nameiparent path;
  let '(dp, name) := r in
  if dp =? 0 then _ ← end_op; mret (-1)
  else
    _ ← ilock dp;
    if is_dot name then unlink_bad dp
    else
      r ← dirlookup dp name;
      let '(ip, off) := r in
      if ip =? 0 then unlink_bad dp
      else
        _ ← ilock ip;
        n ← i_nlink ip;
        if n <? 1 then panic "unlink: nlink < 1"
        else
          t ← i_type ip;
          full ← (if t =? T_DIR then e ← isdirempty ip; mret (negb e) else mret false);
          if (full : bool) then _ ← iunlockput ip; unlink_bad dp
          else
            w ← writei dp off (replicate sizeof_dirent 0);
            if negb (w =? Z.of_nat sizeof_dirent) then panic "unlink: writei"
            else
              _ ← (if t =? T_DIR then
                     m ← i_nlink dp; _ ← set_nlink dp (i16 (m - 1)); iupdate dp
                   else mret tt);
              _ ← iunlockput dp;
              n ← i_nlink ip;
              _ ← set_nlink ip (i16 (n - 1));
              _ ← iupdate ip;
              _ ← iunlockput ip;
              _ ← end_op;
              mret 0.

Definition sys_unlink : M (kst F) Z :=
  r ← argstr 0 MAXPATH;
  let '(n, path) := r in
  if n <? 0 then mret (-1) else fs (unlink_ path).

Definition create (path : list Z) (type major minor : Z) : M F Z := kcreate path type major minor.

(** The inode to open, locked; null when the call fails, the transaction being
    closed then. *)
Definition open_inode (path : list Z) (omode : Z) : M F Z :=
  if mode_has omode O_CREATE then
    ip ← create path T_FILE 0 0;
    if ip =? 0 then _ ← end_op; mret 0 else mret ip
  else
    ip ← namei path;
    if ip =? 0 then _ ← end_op; mret 0
    else
      _ ← ilock ip;
      t ← i_type ip;
      if (t =? T_DIR) && negb (omode =? O_RDONLY) then _ ← iunlockput ip; _ ← end_op; mret 0
      else mret ip.

(** The locked inode becomes the file [f] of descriptor [fd]. *)
Definition open_file_as (ip f fd omode : Z) : M F Z :=
  t ← i_type ip;
  let r := if mode_has omode O_WRONLY then 0 else 1 in
  let w := if mode_has omode O_WRONLY || mode_has omode O_RDWR then 1 else 0 in
  _ ← (if t =? T_DEVICE then mj ← i_major ip; file_dev f ip mj r w else file_open f ip r w);
  _ ← (if mode_has omode O_TRUNC && (t =? T_FILE) then itrunc ip else mret tt);
  _ ← iunlock ip;
  _ ← end_op;
  mret fd.

Definition sys_open : M (kst F) Z :=
  omode ← argint 1;
  r ← argstr 0 MAXPATH;
  let '(n, path) := r in
  if n <? 0 then mret (-1)
  else
    _ ← fs begin_op;
    ip ← fs (open_inode path omode);
    if ip =? 0 then mret (-1)
    else
      t ← fs (i_type ip);
      mj ← fs (i_major ip);
      if (t =? T_DEVICE) && ((mj <? 0) || (NDEV_MAX <=? mj)) then
        _ ← fs (iunlockput ip); _ ← fs end_op; mret (-1)
      else
        f ← fs filealloc;
        fd ← (if f =? 0 then mret (-1) else fdalloc f);
        if fd <? 0 then
          _ ← (if negb (f =? 0) then fs (fileclose f) else mret tt);
          _ ← fs (iunlockput ip);
          _ ← fs end_op;
          mret (-1)
        else fs (open_file_as ip f fd omode).

(** [create] and nothing else, for [sys_mkdir] and [sys_mknod]. *)
Definition make_node (n : Z) (path : list Z) (type major minor : Z) : M F Z :=
  ip ← (if n <? 0 then mret 0 else create path type major minor);
  if ip =? 0 then _ ← end_op; mret (-1)
  else _ ← iunlockput ip; _ ← end_op; mret 0.

Definition sys_mkdir : M (kst F) Z :=
  _ ← fs begin_op;
  r ← argstr 0 MAXPATH;
  let '(n, path) := r in
  fs (make_node n path T_DIR 0 0).

Definition sys_mknod : M (kst F) Z :=
  _ ← fs begin_op;
  major ← argint 1;
  minor ← argint 2;
  r ← argstr 0 MAXPATH;
  let '(n, path) := r in
  fs (make_node n path T_DEVICE (i16 major) (i16 minor)).

Definition sys_chdir : M (kst F) Z :=
  _ ← fs begin_op;
  r ← argstr 0 MAXPATH;
  let '(n, path) := r in
  ip ← (if n <? 0 then mret 0 else fs (namei path));
  if ip =? 0 then _ ← fs end_op; mret (-1)
  else
    _ ← fs (ilock ip);
    t ← fs (i_type ip);
    if negb (t =? T_DIR) then _ ← fs (iunlockput ip); _ ← fs end_op; mret (-1)
    else
      _ ← fs (iunlock ip);
      p ← myproc;
      _ ← fs (iput (p_cwd (p_files p)));
      _ ← fs end_op;
      _ ← modp (set_cwd ip);
      mret 0.

(** The loop of [sys_exec] that fetches the arguments, each into a page of its
    own; the result is the pages taken, and the strings unless it failed. *)
Fixpoint fetch_argv (fuel : nat) (uargv i : Z) (pages : list Z) (argv : list (list Z)) :
    M (kst F) (list Z * option (list (list Z))) :=
  match fuel with
  | O => mret (pages, None)
  | S fuel =>
      uarg ← fetchaddr (u64 (uargv + 8 * i));
      match uarg with
      | None => mret (pages, None)
      | Some uarg =>
          if uarg =? 0 then mret (pages, Some argv)
          else
            page ← vm kalloc;
            if page =? 0 then mret (pages, None)
            else
              r ← fetchstr uarg PGSIZE;
              let '(n, s) := r in
              _ ← store_buf page (if n <? 0 then s else s ++ [0]);
              if n <? 0 then mret (pages ++ [page], None)
              else fetch_argv fuel uargv (i + 1) (pages ++ [page]) (argv ++ [s])
      end
  end.

Fixpoint free_pages (pages : list Z) : M (kst F) unit :=
  match pages with [] => mret tt | a :: pages => _ ← vm (kfree a); free_pages pages end.

Definition sys_exec : M (kst F) Z :=
  uargv ← argaddr 1;
  r ← argstr 0 MAXPATH;
  let '(n, path) := r in
  if n <? 0 then mret (-1)
  else
    r ← fetch_argv (Z.to_nat MAXARG) uargv 0 [] [];
    let '(pages, argv) := r in
    match argv with
    | None => _ ← free_pages pages; mret (-1)
    | Some argv => ret ← kexec path argv; _ ← free_pages pages; mret ret
    end.

Definition sys_pipe : M (kst F) Z :=
  fdarray ← argaddr 0;
  r ← fs pipealloc;
  let '(rf, wf) := r in
  if rf =? 0 then mret (-1)
  else
    fd0 ← fdalloc rf;
    fd1 ← (if fd0 <? 0 then mret (-1) else fdalloc wf);
    if (fd0 <? 0) || (fd1 <? 0) then
      _ ← (if 0 <=? fd0 then put_ofile (Z.to_nat fd0) 0 else mret tt);
      _ ← fs (fileclose rf);
      _ ← fs (fileclose wf);
      mret (-1)
    else
      p ← myproc;
      r0 ← copyout (pagetable p) fdarray (le_bytes 4 fd0);
      r1 ← (if r0 <? 0 then mret (-1) else copyout (pagetable p) (u64 (fdarray + 4)) (le_bytes 4 fd1));
      if r1 <? 0 then
        _ ← put_ofile (Z.to_nat fd0) 0;
        _ ← put_ofile (Z.to_nat fd1) 0;
        _ ← fs (fileclose rf);
        _ ← fs (fileclose wf);
        mret (-1)
      else mret 0.
End sysfile.
