(* ===== verification/SysProc.v ===== *)
(** Process system calls, kernel/sysproc.c; the dispatch of kernel/syscall.c; the
    clock, and the trap handlers of kernel/trap.c around the page-fault branch.

    [sysst] is the kernel as one CPU sees it with the clock, [ticks].  A call that
    sleeps ends its run in [sched]; [sys_pause_resume] is what it does when it is
    picked again.  A process's call into the file system or the paging code runs
    on its part of the state ([as_me]). *)
From S2P Require Import Prelude Riscv PhysMem Kalloc PageTable Memstat Proc FsIface Swap VmFault Trap Bytes ProcTable Syscall Exec SysFile.

Definition SBRK_EAGER : Z := 1.
Definition SBRK_LAZY : Z := 2.

Record sysst (F : Type) : Type := mkSys { ss_kern : kern F; ss_ticks : Z }.
Arguments mkSys {F}.
Arguments ss_kern {F}.
Arguments ss_ticks {F}.

Section sysproc.
Context `{HL : Layout} {F : Type} `{FO : !FsOps F} `{PF : !ProcFs F} `{SF : !SysFs F} `{PO : !Policy}.
(** The address of [forkret], of [ticks] (the channel of [sys_pause]) and of [tickslock]. *)
Context (forkret_addr ticks_addr tickslock : Z).

Definition onk {A} (m : M (kern F) A) : M (sysst F) A := zoom ss_kern (fun k s => mkSys k (ss_ticks s)) m.
Definition as_me {A} (m : M (kst F) A) : M (sysst F) A := onk (i ← curproc; on_proc i m).

Definition sys_exit : M (sysst F) Z := n ← as_me (argint 0); _ ← onk (kexit n); mret 0.
Definition sys_getpid : M (sysst F) Z := as_me (p ← myproc; mret (pid p)).
Definition sys_fork : M (sysst F) Z := onk (kfork forkret_addr).
Definition sys_wait : M (sysst F) Z := p ← as_me (argaddr 0); onk (kwait p).

Definition sys_sbrk : M (sysst F) Z :=
  n ← as_me (argint 0);
  t ← as_me (argint 1);
  p ← as_me myproc;
  let addr := sz p in
  if (t =? SBRK_EAGER) || (n <? 0) then
    r ← onk (growproc n);
    if r <? 0 then mret (-1) else mret addr
  else if u64 (addr + n) <? addr then mret (-1)
  else if TRAPFRAME <? u64 (addr + n) then mret (-1)
  else _ ← as_me (modp (fun p => set_sz (u64 (sz p + n)) p)); mret addr.

(** The loop of [sys_pause], with [tickslock] held. *)
Definition pause_loop (n ticks0 : Z) : M (sysst F) Z :=
  s ← getS;
  if u32 (ss_ticks s - ticks0) <? n then
    p ← as_me myproc;
    if negb (p_killed (p_sched p) =? 0) then _ ← onk (release (LCond tickslock)); mret (-1)
    else _ ← onk (sleep ticks_addr (LCond tickslock)); mret (-1)
  else _ ← onk (release (LCond tickslock)); mret 0.

Definition sys_pause : M (sysst F) Z :=
  n ← as_me (argint 0);
  let n := if n <? 0 then 0 else n in
  _ ← onk (acquire (LCond tickslock));
  s ← getS;
  pause_loop n (ss_ticks s).

(** Back from [sleep]; [n] and [ticks0] are the locals of the call. *)
Definition sys_pause_resume (n ticks0 : Z) : M (sysst F) Z :=
  _ ← onk (sleep_exit (LCond tickslock)); pause_loop n ticks0.

Definition sys_kill : M (sysst F) Z := pd ← as_me (argint 0); onk (kkill pd).

Definition sys_uptime : M (sysst F) Z :=
  _ ← onk (acquire (LCond tickslock));
  s ← getS;
  _ ← onk (release (LCond tickslock));
  mret (ss_ticks s).

Definition sys_memstat : M (sysst F) Z :=
  _ ← as_me (p ← myproc;
             printf (EvMemstat (p_name (p_files p)) (resident_pages (p_count p)) (swapped_pages (p_count p))
                       (next_fifo_seq (p_memstat p)) (pagefault_count (p_count p)) (swapin_count (p_count p))
                       (swapout_count (p_count p))));
  mret 0.

(** The table [syscalls], by the numbers of syscall.h. *)
Definition syscalls (num : Z) : option (M (sysst F) Z) :=
  match num with
  | 1 => Some sys_fork | 2 => Some sys_exit | 3 => Some sys_wait | 4 => Some (as_me sys_pipe)
  | 5 => Some (as_me sys_read) | 6 => Some sys_kill | 7 => Some (as_me sys_exec) | 8 => Some (as_me sys_fstat)
  | 9 => Some (as_me sys_chdir) | 10 => Some (as_me sys_dup) | 11 => Some sys_getpid | 12 => Some sys_sbrk
  | 13 => Some sys_pause | 14 => Some sys_uptime | 15 => Some (as_me sys_open) | 16 => Some (as_me sys_write)
  | 17 => Some (as_me sys_mknod) | 18 => Some (as_me sys_unlink) | 19 => Some (as_me sys_link)
  | 20 => Some (as_me sys_mkdir) | 21 => Some (as_me sys_close) | 22 => Some sys_memstat
  | _ => None
  end.

Definition syscall : M (sysst F) unit :=
  num ← as_me (v ← tf_get tf_a7; mret (i32 v));
  match syscalls num with
  | Some h => r ← h; as_me (tf_put tf_a0 (u64 r))
  | None =>
      _ ← as_me (p ← myproc; printf (EvUnknownSyscall (p_name (p_files p)) num));
      as_me (tf_put tf_a0 (u64 (-1)))
  end.

(** ** The clock and the trap handlers *)
(** [hart] is [cpuid()]; the timer is set for the next interrupt. *)
Definition clockintr (hart : Z) : M (sysst F) unit :=
  if hart =? 0 then
    _ ← onk (acquire (LCond tickslock));
    _ ← modS (fun s => mkSys (ss_kern s) (u32 (ss_ticks s + 1)));
    _ ← onk (wakeup ticks_addr);
    onk (release (LCond tickslock))
  else mret tt.

Definition IRQ_EXTERNAL : Z := 0x8000000000000009.
Definition IRQ_TIMER : Z := 0x8000000000000005.
Definition UART0_IRQ : Z := 10.
Definition VIRTIO0_IRQ : Z := 1.

(** The interrupt controller and the devices' handlers: [irq] is what
    [plic_claim] returns. *)
Context (uartintr virtio_disk_intr : M (sysst F) unit) (plic_complete : Z -> M (sysst F) unit).

(** A message of the kernel itself. *)
Definition log_irq (irq : Z) (s : kern F) : kern F :=
  mkKern (kn_pm s) (kn_procs s) (kn_fs s) (kn_out s ++ [(0, EvUnexpectedIrq irq)]) (kn_cur s) (kn_held s) (kn_ctx s) (kn_nextpid s) (kn_initproc s).

Definition devintr (scause irq hart : Z) : M (sysst F) Z :=
  if scause =? IRQ_EXTERNAL then
    _ ← (if irq =? UART0_IRQ then uartintr else if irq =? VIRTIO0_IRQ then virtio_disk_intr
         else if negb (irq =? 0) then onk (modS (log_irq irq)) else mret tt);
    _ ← (if negb (irq =? 0) then plic_complete irq else mret tt);
    mret 1
  else if scause =? IRQ_TIMER then _ ← clockintr hart; mret 2
  else mret 0.

Definition SSTATUS_SPP : Z := 256.
Definition SSTATUS_SPIE : Z := 32.
Definition SSTATUS_SIE : Z := 2.
(** [kernel_satp], the hart id, and the address of [usertrap]. *)
Context (kernel_satp hartid usertrap_addr : Z).

(** The trapframe part, and the value of [sstatus] that [sret] uses. *)
Definition prepare_return : M (sysst F) unit :=
  p ← as_me myproc;
  _ ← as_me (tf_put tf_kernel_satp kernel_satp);
  _ ← as_me (tf_put tf_kernel_sp (u64 (p_kstack (p_space p) + PGSIZE)));
  _ ← as_me (tf_put tf_kernel_trap usertrap_addr);
  as_me (tf_put tf_kernel_hartid hartid).
Definition return_sstatus (x : Z) : Z := Z.lor (Z.land x (Z.lnot SSTATUS_SPP)) SSTATUS_SPIE.

(** After the trap has been handled: a killed process exits, a timer interrupt
    gives up the CPU.  [MAKE_SATP(p->pagetable)] is returned. *)
Definition usertrap_exit : M (sysst F) Z :=
  _ ← prepare_return; p ← as_me myproc; mret (Z.lor (Z.shiftl 8 60) (Z.shiftr (pagetable p) 12)).
Definition usertrap_tail (which_dev : Z) : M (sysst F) Z :=
  p ← as_me myproc;
  _ ← (if negb (p_killed (p_sched p) =? 0) then onk (kexit (-1)) else mret tt);
  _ ← (if which_dev =? 2 then onk yield else mret tt);
  usertrap_exit.

Definition usertrap (sstatus scause sepc stval irq hart : Z) : M (sysst F) Z :=
  if negb (Z.land sstatus SSTATUS_SPP =? 0) then panic "usertrap: not from user mode"
  else
    _ ← as_me (tf_put tf_epc sepc);
    if scause =? 8 then
      p ← as_me myproc;
      _ ← (if negb (p_killed (p_sched p) =? 0) then onk (kexit (-1)) else mret tt);
      _ ← as_me (e ← tf_get tf_epc; tf_put tf_epc (u64 (e + 4)));
      _ ← syscall;
      usertrap_tail 0
    else
      which_dev ← devintr scause irq hart;
      if negb (which_dev =? 0) then usertrap_tail which_dev
      else if (scause =? 15) || (scause =? 13) || (scause =? 12) then
        _ ← as_me (pagefault scause stval); usertrap_tail 0
      else
        _ ← as_me (_ ← printf (EvUnexpectedTrap scause sepc stval); setkilled);
        usertrap_tail 0.

(** [intr] is [intr_get()]. *)
Definition kerneltrap (sstatus scause irq hart : Z) (intr : bool) : M (sysst F) unit :=
  if Z.land sstatus SSTATUS_SPP =? 0 then panic "kerneltrap: not from supervisor mode"
  else if intr then panic "kerneltrap: interrupts enabled"
  else
    which_dev ← devintr scause irq hart;
    if which_dev =? 0 then panic "kerneltrap"
    else
      s ← getS;
      if (which_dev =? 2) && bool_decide (kn_cur (ss_kern s) <> None) then onk yield else mret tt.
End sysproc.
