(* ===== verification/SysProcProofs.v ===== *)
(** The theorems about kernel/sysproc.c: what [sys_pause] waits for and what
    [sys_sbrk] does to the size of a process. *)
From S2P Require Import Prelude Riscv PhysMem Kalloc PageTable PtTree PtMap PtUser Memstat Proc FsIface Swap SwapProofs VmFault Evict Trap TrapProofs Bytes ProcTable ProcInv ProcLife ProcRefine ProcSched Syscall Exec SysFile SysProc.

Section pause.
Context `{HL : Layout} {F : Type} `{FO : !FsOps F} `{PF : !ProcFs F} `{SF : !SysFs F} `{PO : !Policy}.
Context (ticks_addr tickslock : Z).
Implicit Types s : kern F.

Lemma wakeup_loop_run n c : forall i s, kn_cur s = None -> (forall j, LProc j ∉ kn_held s) -> length (kn_procs s) = (i + n)%nat ->
  wakeup_loop n c i s = Ret tt (set_procs (take i (kn_procs s) ++ (wake1 c <$> drop i (kn_procs s))) s).
Proof.
  induction n as [|n IH]; intros i s Hc Hh Hn; cbn [wakeup_loop].
  - rewrite take_ge, drop_ge by lia. rewrite app_nil_r. by destruct s.
  - unfold mbind at 1, M_bind at 1, getS. rewrite bool_decide_eq_false_2 by congruence.
    erewrite bind_Ret by (by apply locked_run). rewrite IH; [|done|done|].
    2:{ cbn. rewrite length_insert. lia. }
    f_equal. unfold put_proc, set_procs. cbn [kn_procs kn_pm kn_fs kn_out kn_cur kn_held kn_ctx kn_nextpid kn_initproc]. f_equal.
    unfold proc_at. assert (Hi : (i < length (kn_procs s))%nat) by lia.
    rewrite (drop_S (kn_procs s) (kn_procs s !!! i) i) by (by apply list_lookup_lookup_total_lt).
    rewrite insert_take_drop by done. rewrite cons_middle, app_assoc.
    assert (Hl : length (take i (kn_procs s) ++ [wake1 c (kn_procs s !!! i)]) = S i) by (rewrite length_app, length_take; cbn; lia).
    rewrite take_app_length', drop_app_length' by done. by rewrite <- app_assoc.
Qed.

Lemma wakeup_run c s : kn_cur s = None -> (forall j, LProc j ∉ kn_held s) -> nlen s ->
  wakeup c s = Ret tt (set_procs (wake1 c <$> kn_procs s) s).
Proof. intros Hc Hh Hn. unfold wakeup. by rewrite wakeup_loop_run. Qed.

#[local] Abbreviation sys_pause := (sys_pause ticks_addr tickslock).
#[local] Abbreviation sys_pause_resume := (sys_pause_resume ticks_addr tickslock).
#[local] Abbreviation pause_loop := (pause_loop ticks_addr tickslock).
#[local] Abbreviation clockintr := (clockintr ticks_addr tickslock).

(** ** Running and sleeping *)
(** Process [i] runs in the kernel with no lock held, or sleeps in [sys_pause]
    while the CPU is in the scheduler. *)
Definition runs (i : nat) (t : Z) (x : sysst F) : Prop :=
  kn_cur (ss_kern x) = Some i /\ kn_held (ss_kern x) = [] /\ nlen (ss_kern x) /\ (i < nproc)%nat /\
  p_killed (p_sched (proc_at (ss_kern x) i)) = 0 /\ ss_ticks x = t.
Definition pauses (i : nat) (t : Z) (x : sysst F) : Prop :=
  kn_cur (ss_kern x) = None /\ kn_held (ss_kern x) = [] /\ nlen (ss_kern x) /\ (i < nproc)%nat /\
  p_killed (p_sched (proc_at (ss_kern x) i)) = 0 /\ ss_ticks x = t /\
  state_of (proc_at (ss_kern x) i) = SLEEPING /\ chan (proc_at (ss_kern x) i) = ticks_addr.
(** The scheduler has the CPU again. *)
Definition idle (x : sysst F) : sysst F := mkSys (back (ss_kern x)) (ss_ticks x).

Lemma as_me_myproc i (x : sysst F) : kn_cur (ss_kern x) = Some i -> (i < length (kn_procs (ss_kern x)))%nat ->
  as_me myproc x = Ret (proc_at (ss_kern x) i) x.
Proof.
  intros Hc Hi. unfold as_me, onk, zoom. rewrite (bind_cur i) by done. unfold on_proc, inside, myproc, gets. cbn [k_p k_pm k_fs k_out].
  rewrite list_insert_id by (by apply list_lookup_lookup_total_lt). destruct x as [[] ?]. done.
Qed.

Lemma lcond_lproc a i : LCond a <> LProc i.
Proof. done. Qed.

(** The loop, entered with [tickslock]. *)
Lemma pause_loop_run i n t0 t s : runs i t (mkSys s t) ->
  let x := mkSys (set_held [LCond tickslock] s) t in
  (u32 (t - t0) < n -> exists x', pause_loop n t0 x = Block "sched" x' /\ pauses i t (idle x')) /\
  (n <= u32 (t - t0) -> pause_loop n t0 x = Ret 0 (mkSys s t)).
Proof.
  intros (Hc & Hh & Hn & Hi & Hk & _). cbn [ss_kern] in *. cbv zeta.
  assert (Hil : (i < length (kn_procs s))%nat) by (rewrite Hn; done). split; intros Ht.
  - unfold SysProc.pause_loop. unfold mbind at 1, M_bind at 1, getS. cbn [ss_ticks].
    rewrite (proj2 (Z.ltb_lt _ _)) by done. erewrite bind_Ret by (by apply (as_me_myproc i)).
    change (proc_at (ss_kern (mkSys (set_held [LCond tickslock] s) t)) i) with (proc_at s i). rewrite Hk. cbn [Z.eqb negb].
    eexists. split.
    { apply bind_Block. unfold onk, zoom. cbn [ss_kern]. rewrite (sleep_run _ _ i); [reflexivity|done|done|done|done]. }
    unfold pauses, idle, back, proc_at. cbn. rewrite list_lookup_total_insert_eq by done. split_and!; try done.
    unfold nlen in *. cbn. by rewrite length_insert.
  - unfold SysProc.pause_loop. unfold mbind at 1, M_bind at 1, getS. cbn [ss_ticks].
    rewrite (proj2 (Z.ltb_ge _ _)) by done. erewrite bind_Ret; [done|]. unfold onk, zoom. cbn [ss_kern].
    rewrite (release_run (LCond tickslock)) by done. cbn. destruct s. cbn in *. by rewrite Hh.
Qed.

(** A tick of the clock, then the scheduler picks the process. *)
Definition round (i : nat) (n t0 : Z) : M (sysst F) Z :=
  _ ← clockintr 0; _ ← onk (pick i); sys_pause_resume n t0.

Lemma bind_onk {A C} (m : M (kern F) A) (h : A -> M (sysst F) C) x a s :
  m (ss_kern x) = Ret a s -> (onk m ≫= h) x = h a (mkSys s (ss_ticks x)).
Proof. intros E. apply bind_Ret. unfold onk, zoom. by rewrite E. Qed.

Lemma clock_run i t x : pauses i t x ->
  exists s, clockintr 0 x = Ret tt (mkSys s (u32 (t + 1))) /\ kn_cur s = None /\ kn_held s = [] /\ nlen s /\
    p_killed (p_sched (proc_at s i)) = 0 /\ state_of (proc_at s i) = RUNNABLE.
Proof.
  intros (Hc & Hh & Hn & Hi & Hk & Ht & Hs & Hch). destruct x as [s t']. cbn [ss_kern ss_ticks] in *. subst t'.
  exists (set_procs (wake1 ticks_addr <$> kn_procs s) s). split.
  - unfold SysProc.clockintr. cbn [Z.eqb]. erewrite bind_onk by (by apply acquire_run). cbn [ss_ticks].
    unfold mbind at 1, M_bind at 1, modS. cbn [ss_kern ss_ticks].
    erewrite bind_onk by (apply wakeup_run; [done|cbn; set_solver|done]). cbn [ss_ticks].
    unfold onk, zoom. cbn [ss_kern]. rewrite (release_run (LCond tickslock)) by done. cbn. destruct s. cbn in *. by subst.
  - assert (E : proc_at (set_procs (wake1 ticks_addr <$> kn_procs s) s) i = wake1 ticks_addr (proc_at s i)).
    { unfold proc_at. cbn. apply list_lookup_total_correct. rewrite list_lookup_fmap, list_lookup_lookup_total_lt by (rewrite Hn; done). done. }
    rewrite E. unfold wake1. rewrite Hs, Hch, Z.eqb_refl. rewrite bool_decide_eq_true_2 by done. cbn [andb].
    split_and!; try done. unfold nlen in *. cbn. by rewrite length_fmap.
Qed.

Lemma round_run i n t0 t x : pauses i t x ->
  (u32 (u32 (t + 1) - t0) < n -> exists x', round i n t0 x = Block "sched" x' /\ pauses i (u32 (t + 1)) (idle x')) /\
  (n <= u32 (u32 (t + 1) - t0) -> exists x', round i n t0 x = Ret 0 x' /\ ss_ticks x' = u32 (t + 1)).
Proof.
  intros Hp. destruct (clock_run i t x Hp) as (s & E & Hc & Hh & Hn & Hk & Hs). destruct Hp as (_ & _ & _ & Hi & _).
  unfold round. rewrite !(bind_Ret _ _ _ _ _ E). set (t' := u32 (t + 1)).
  assert (Hil : (i < length (kn_procs s))%nat) by (rewrite Hn; done).
  set (s1 := set_cur (Some i) (put_proc i (set_state RUNNING (proc_at s i)) (set_held [LProc i] s))).
  assert (Ep : pick i s = Ret tt s1).
  { unfold pick. rewrite bind_acquire by (rewrite Hh; set_solver). rewrite Hh. unfold mbind, M_bind, getp, gets.
    rewrite bool_decide_eq_true_2 by done. done. }
  rewrite !(bind_onk _ _ (mkSys s t') _ _ Ep). cbn [ss_ticks].
  set (s2 := put_proc i (set_chan 0 (proc_at s1 i)) (set_held [] s1)).
  assert (Ee : sleep_exit (LCond tickslock) s1 = Ret tt (set_held [LCond tickslock] s2)).
  { unfold sleep_exit. rewrite (bind_cur i) by done. rewrite bind_modpr. rewrite bind_release by (cbn; set_solver).
    change (kn_held (put_proc i (set_chan 0 (proc_at s1 i)) s1)) with [LProc i].
    rewrite (filter_unlock (LProc i) []) by set_solver. by rewrite acquire_run. }
  unfold SysProc.sys_pause_resume. rewrite !(bind_onk _ _ (mkSys s1 t') _ _ Ee). cbn [ss_ticks].
  assert (Hr : runs i t' (mkSys s2 t')).
  { assert (E2 : proc_at s2 i = set_chan 0 (set_state RUNNING (proc_at s i))).
    { unfold s2, s1, proc_at. cbn. by rewrite !list_lookup_total_insert_eq by (rewrite ?length_insert; done). }
    unfold runs. cbn [ss_kern ss_ticks]. rewrite E2. split_and!; try done. unfold nlen in *. cbn. by rewrite !length_insert. }
  pose proof (pause_loop_run i n t0 t' s2 Hr) as [P1 P2]. split; [exact P1|]. intros Hle.
  exists (mkSys s2 t'). split; [by apply P2|done].
Qed.

(** [k] ticks; the process gets the CPU after each. *)
Fixpoint rounds (k : nat) (i : nat) (n t0 : Z) (x : sysst F) : outcome (sysst F) Z :=
  match k with
  | O => Block "sched" x
  | S k => match round i n t0 x with Block _ x' => rounds k i n t0 (idle x') | o => o end
  end.

Lemma rounds_run k i n t0 : 0 <= t0 < 2 ^ 32 -> 0 <= n < 2 ^ 32 -> forall d x, pauses i (u32 (t0 + d)) x -> 0 <= d < n ->
  (d + Z.of_nat k < n -> exists x', rounds k i n t0 x = Block "sched" x') /\
  (d + Z.of_nat k = n -> exists x', rounds k i n t0 x = Ret 0 x' /\ ss_ticks x' = u32 (t0 + n)).
Proof.
  intros Ht Hn. induction k as [|k IH]; intros d x Hp Hd; cbn [rounds]; [split; [by eexists|lia]|].
  assert (E1 : u32 (u32 (t0 + d) + 1) = u32 (t0 + (d + 1))).
  { unfold u32. rewrite Zplus_mod_idemp_l. f_equal. lia. }
  assert (E2 : d + 1 < 2 ^ 32 -> u32 (u32 (t0 + (d + 1)) - t0) = d + 1).
  { intros H. unfold u32. rewrite Zminus_mod_idemp_l. replace (t0 + (d + 1) - t0) with (d + 1) by lia. by apply Z.mod_small; lia. }
  destruct (round_run i n t0 _ x Hp) as [R1 R2]. rewrite E1 in R1, R2. destruct (decide (d + 1 < n)) as [Hlt|Hge].
  - destruct R1 as (x' & -> & Hp'); [rewrite E2; lia|]. destruct (IH (d + 1) (idle x') Hp' ltac:(lia)) as [I1 I2].
    split; intros; [apply I1|apply I2]; lia.
  - split; [lia|]. intros Hk. destruct R2 as (x' & -> & Hx); [rewrite E2; lia|]. exists x'. split; [done|].
    rewrite Hx. f_equal. lia.
Qed.

(** The [k]th integer argument of the call process [i] makes. *)
Definition arg_int (i : nat) (k : Z) (x : sysst F) : Z :=
  i32 (load64 (pm_mem (kn_pm (ss_kern x))) (p_trapframe (p_space (proc_at (ss_kern x) i)) + (tf_a0 + 8 * k))).

Lemma argint_run i k x : 0 <= k <= 5 -> kn_cur (ss_kern x) = Some i -> (i < length (kn_procs (ss_kern x)))%nat ->
  as_me (argint k) x = Ret (arg_int i k x) x.
Proof.
  intros Hk Hc Hi. unfold as_me, onk, zoom. rewrite (bind_cur i) by done. unfold on_proc, inside, argint, argraw, tf_get.
  rewrite (proj2 (Z.leb_le 0 k)), (proj2 (Z.leb_le k 5)) by lia. cbn [andb].
  unfold mbind, M_bind, myproc, gets, vm, zoom, mem_load, mret, M_ret. unfold gets. cbn [k_p k_pm k_fs k_out set_pm].
  rewrite list_insert_id by (by apply list_lookup_lookup_total_lt). destruct x as [[] ?]. done.
Qed.

(** C20: [sys_pause(n)] waits for exactly [n] ticks of the clock: the call
    puts the process to sleep; picked after each tick, it goes back to sleep until
    the [n]th, and then returns 0.  The tick counter may wrap around. *)
Theorem sys_pause_correct i n t0 x : runs i t0 x -> 0 <= t0 < 2 ^ 32 -> arg_int i 0 x = n -> 0 < n < 2 ^ 31 ->
  exists x', sys_pause x = Block "sched" x' /\
    (forall k, Z.of_nat k < n -> exists y, rounds k i n t0 (idle x') = Block "sched" y) /\
    exists y, rounds (Z.to_nat n) i n t0 (idle x') = Ret 0 y /\ ss_ticks y = u32 (t0 + n).
Proof.
  intros Hr Ht Ea Hn. unfold SysProc.sys_pause. pose proof Hr as (Hc & Hh & Hnl & Hi & _).
  rewrite (bind_Ret _ _ _ _ _ (argint_run i 0 x ltac:(lia) Hc ltac:(rewrite Hnl; done))), Ea.
  destruct (Z.ltb_spec n 0); [lia|]. destruct x as [s t]. assert (t = t0) as -> by apply Hr.
  erewrite bind_onk by (by apply acquire_run). cbn [ss_ticks]. unfold mbind at 1, M_bind at 1, getS. cbn [ss_ticks].
  destruct (pause_loop_run i n t0 t0 s Hr) as [P1 _]. destruct P1 as (x' & E & Hp).
  { rewrite Z.sub_diag. unfold u32. rewrite Z.mod_0_l; lia. }
  exists x'. split; [exact E|].
  assert (Hp0 : pauses i (u32 (t0 + 0)) (idle x')) by (rewrite Z.add_0_r; unfold u32; rewrite Z.mod_small by lia; done).
  split; [intros k Hk; apply (rounds_run k i n t0 Ht ltac:(lia) 0 (idle x') Hp0); lia|].
  apply (rounds_run _ i n t0 Ht ltac:(lia) 0 (idle x') Hp0); lia.
Qed.
End pause.

(** ** Growing the heap *)
Section sbrk.
Context `{HL : Layout} {F : Type} `{FO : !FsOps F} `{PF : !ProcFs F} `{SF : !SysFs F} `{PO : !Policy}.

(** Process [i]'s part of the kernel. *)
Definition kview (i : nat) (x : sysst F) : kst F :=
  let s := ss_kern x in mkK (kn_pm s) (proc_at s i) (kn_fs s) (kn_out s).

Definition grow (i : nat) (n : Z) (x : sysst F) : sysst F :=
  mkSys (put_proc i (set_sz (sz (proc_at (ss_kern x) i) + n) (proc_at (ss_kern x) i)) (ss_kern x)) (ss_ticks x).

(** The lazy branch: only the size changes. *)
Lemma sys_sbrk_lazy i t n x : runs i t x -> arg_int i 0 x = n -> arg_int i 1 x = SBRK_LAZY -> 0 <= n ->
  0 <= sz (proc_at (ss_kern x) i) -> sz (proc_at (ss_kern x) i) + n <= TRAPFRAME ->
  sys_sbrk x = Ret (sz (proc_at (ss_kern x) i)) (grow i n x).
Proof.
  intros (Hc & Hh & Hn & Hi & _) E0 E1 Hn0 Hs Hmax.
  assert (Hil : (i < length (kn_procs (ss_kern x)))%nat) by (rewrite Hn; done).
  assert (HT : TRAPFRAME < 2 ^ 64) by (vm_compute; reflexivity).
  unfold sys_sbrk. rewrite (bind_Ret _ _ _ _ _ (argint_run i 0 x ltac:(lia) Hc Hil)), E0.
  rewrite (bind_Ret _ _ _ _ _ (argint_run i 1 x ltac:(lia) Hc Hil)), E1.
  rewrite (bind_Ret _ _ _ _ _ (as_me_myproc i x Hc Hil)). cbv zeta. change (SBRK_LAZY =? SBRK_EAGER) with false.
  rewrite (u64_small (_ + n)) by lia.
  rewrite (proj2 (Z.ltb_ge n 0)), (proj2 (Z.ltb_ge (_ + n) _)), (proj2 (Z.ltb_ge TRAPFRAME _)) by lia. cbn [orb].
  assert (Em : as_me (modp (fun p => set_sz (u64 (sz p + n)) p)) x = Ret tt (grow i n x)).
  { unfold as_me, onk, zoom. rewrite (bind_cur i) by done. unfold on_proc, inside, modp, modS.
    cbn [k_p k_pm k_fs k_out set_p]. rewrite (u64_small (_ + n)) by lia. by destruct x as [[] ?]. }
  by rewrite (bind_Ret _ _ _ _ _ Em).
Qed.

Context `{!LayoutOk} `{FL : !FsLaws F} `{!PolicyOk PO}.

Lemma grow_inv i n x ip Fr lim : (i < length (kn_procs (ss_kern x)))%nat ->
  pg_inv (kview i x) ip Fr lim -> pg_inv (kview i (grow i n x)) ip Fr lim.
Proof.
  intros Hi [Has Hlim Htbl Hva Hsw Hse]. unfold kview, grow, proc_at in *. cbn in *.
  split; cbn; rewrite ?list_lookup_total_insert_eq by done; try done. destruct Hsw. split; cbn; rewrite ?list_lookup_total_insert_eq by done; done.
Qed.

(** [va] is in no other region of the process. *)
Definition plain (p : proc) (va : Z) : Prop :=
  ~ (stack_guard p <= va < stack_base p) /\ ~ (stack_base p <= va < PGROUNDUP (stack_top (p_exec p))) /\
  ~ (text_start (p_exec p) <= va < text_end (p_exec p)) /\ ~ (data_start (p_exec p) <= va < data_end (p_exec p)).

Lemma heap_cause p sc va : plain p va -> sc <> 12 -> va < sz p ->
  pf_cause p sc va = Some (if pf_was_swapped p va then Cswap else Cheap).
Proof.
  intros (Hg & Hs & Ht & Hd) Hsc Hsz. unfold pf_cause. rewrite (proj2 (Z.eqb_neq sc 12)) by done.
  rewrite (proj2 (Z.ltb_lt va (sz p))) by done. cbn [andb negb].
  destruct (Z.leb_spec (stack_guard p) va), (Z.ltb_spec va (stack_base p)); cbn [andb]; try lia;
  destruct (pf_was_swapped p va); try done;
  destruct (Z.leb_spec (text_start (p_exec p)) va), (Z.ltb_spec va (text_end (p_exec p))); cbn [andb]; try lia;
  destruct (Z.leb_spec (data_start (p_exec p)) va), (Z.ltb_spec va (data_end (p_exec p))); cbn [andb orb negb]; try lia;
  destruct (Z.leb_spec (stack_base p) va), (Z.ltb_spec va (PGROUNDUP (stack_top (p_exec p)))); cbn [andb orb negb]; try done; lia.
Qed.

(** C18: [sbrk(n)] in its lazy mode returns the old size and changes the size
    of the process and nothing else - no page is allocated. The first access to a
    page of the new memory then brings that page in, or, when memory has run out,
    kills the process: with zeros when the process has no copy of the page in its
    swap area, and with the bytes of that copy when it has one, which is so for a
    page that was swapped out before the process gave it up with a negative
    [sbrk], since shrinking does not clear the page's entries. The address is
    below 2^32 and in none of the regions of the program's text, data and stack. *)
Theorem lazy_sbrk_correct i t n x ip Fr lim : runs i t x -> pg_inv (kview i x) ip Fr lim ->
  arg_int i 0 x = n -> arg_int i 1 x = SBRK_LAZY -> 0 <= n ->
  let p := proc_at (ss_kern x) i in 0 <= sz p -> sz p + n <= TRAPFRAME ->
  sys_sbrk x = Ret (sz p) (grow i n x) /\
  forall sc va, sc <> 12 -> sz p <= va < sz p + n -> va < 2 ^ 32 -> plain p va ->
    ~ mapped (pm_mem (kn_pm (ss_kern x))) (pagetable p) (PGROUNDDOWN va) ->
    exists k', pagefault sc va (kview i (grow i n x)) = Ret tt k' /\ (exists Fr', pg_inv k' ip Fr' lim) /\
      (starved Fr k' \/
       match swap_view (kview i x) ip (PGROUNDDOWN va) with
       | None => brought sc (PGROUNDDOWN va) rwu zeros (pf_enter sc va (kview i (grow i n x))) k'
       | Some bs => brought sc (PGROUNDDOWN va) rwu (bytes_at bs) (pf_enter sc va (kview i (grow i n x))) k' /\
           swap_view k' ip (PGROUNDDOWN va) = None
       end).
Proof.
  intros Hr Hi E0 E1 Hn p Hs Hmax. split; [by eapply sys_sbrk_lazy|]. intros sc va Hsc Hva H32 Hp Hm.
  assert (Hil : (i < length (kn_procs (ss_kern x)))%nat) by (destruct Hr as (_ & _ & -> & ? & _); done).
  assert (Ek : k_p (kview i (grow i n x)) = set_sz (sz p + n) p).
  { unfold kview, grow, proc_at. cbn. by rewrite list_lookup_total_insert_eq. }
  assert (Ev : swap_view (kview i (grow i n x)) ip (PGROUNDDOWN va) = swap_view (kview i x) ip (PGROUNDDOWN va)).
  { unfold swap_view. by rewrite Ek. }
  rewrite <- Ev. eapply fault_serves; [by apply grow_inv| | |done|lia|by rewrite Ek].
  - rewrite Ek. apply (heap_cause (set_sz (sz p + n) p)); [exact Hp|done|cbn; lia].
  - unfold anon. destruct (pf_was_swapped _ va); tauto.
Qed.
End sbrk.
