(* ===== verification/Ledger.v ===== *)
(** The discipline of the file-system interface: transactions, inode locks and
    references, as a ledger of what the running system call holds.

    [ledger] lists what a process holds: the transactions it has open, the inode
    locks, the references to inodes and to open files.  [LedgerLaws] says which
    calls of fs.c, file.c and log.c are allowed when, and what they change: an
    inode is locked only by one who has a reference and not the lock, references
    are put inside a transaction, paths are walked without holding a lock.  A call
    that keeps to the rules does not wait for its own process and does not hit the
    panics that report misuse; [wpf] and [wpk] are the corresponding rules for
    code. *)
From stdpp Require Import gmultiset.
From S2P Require Import Prelude Riscv PhysMem Kalloc PageTable Memstat Proc FsIface Swap VmFault Bytes ProcTable Syscall Exec SysFile.

Record ledger : Type := mkLed {
  l_tx : nat; l_locks : gset Z; l_refs : gmultiset Z; l_files : gmultiset Z; l_fresh : gset Z }.

Definition tx_up (L : ledger) : ledger := mkLed (S (l_tx L)) (l_locks L) (l_refs L) (l_files L) (l_fresh L).
Definition tx_down (L : ledger) : ledger := mkLed (pred (l_tx L)) (l_locks L) (l_refs L) (l_files L) (l_fresh L).
Definition locked (ip : Z) (L : ledger) : ledger := mkLed (l_tx L) ({[ip]} ∪ l_locks L) (l_refs L) (l_files L) (l_fresh L).
Definition unlocked (ip : Z) (L : ledger) : ledger := mkLed (l_tx L) (l_locks L ∖ {[ip]}) (l_refs L) (l_files L) (l_fresh L).
Definition gained (ip : Z) (L : ledger) : ledger := mkLed (l_tx L) (l_locks L) ({[+ ip +]} ⊎ l_refs L) (l_files L) (l_fresh L).
Definition dropped (ip : Z) (L : ledger) : ledger := mkLed (l_tx L) (l_locks L) (l_refs L ∖ {[+ ip +]}) (l_files L) (l_fresh L).
Definition fgained (x : Z) (L : ledger) : ledger := mkLed (l_tx L) (l_locks L) (l_refs L) ({[+ x +]} ⊎ l_files L) (l_fresh L).
Definition fdropped (x : Z) (L : ledger) : ledger :=
  mkLed (l_tx L) (l_locks L) (l_refs L) (l_files L ∖ {[+ x +]}) (l_fresh L ∖ {[x]}).
Definition freshened (x : Z) (L : ledger) : ledger := mkLed (l_tx L) (l_locks L) (l_refs L) (l_files L) ({[x]} ∪ l_fresh L).
Definition opened (x : Z) (L : ledger) : ledger := mkLed (l_tx L) (l_locks L) (l_refs L) (l_files L) (l_fresh L ∖ {[x]}).
(** A reference that may be null. *)
Definition gained0 (ip : Z) (L : ledger) : ledger := if ip =? 0 then L else gained ip L.

(** The panics that report a wrong use of the interface. *)
Definition misuse (msg : string) : bool :=
  bool_decide (msg ∈ ["ilock"; "iunlock"; "filedup"; "fileclose"; "protocol"]).

(** ** The rules *)
Section rules.
Context {S : Type}.

(** [m] returns with [Q], or ends in a panic that is no misuse; it does not wait. *)
Definition safe {A} (m : M S A) (Q : A -> S -> Prop) (s : S) : Prop :=
  match m s with Ret a s' => Q a s' | Panic e => misuse e = false | Block _ _ => False | Diverge => True end.

Lemma safe_bind {A C} (m : M S A) (k : A -> M S C) Q s : safe m (fun a => safe (k a) Q) s -> safe (m ≫= k) Q s.
Proof. unfold safe, mbind, M_bind. by destruct (m s). Qed.

Lemma safe_ret {A} (a : A) (Q : A -> S -> Prop) s : Q a s -> safe (mret a) Q s.
Proof. done. Qed.

Lemma safe_mono {A} (m : M S A) (Q Q' : A -> S -> Prop) s : safe m Q s -> (forall a s', Q a s' -> Q' a s') -> safe m Q' s.
Proof. unfold safe. destruct (m s); naive_solver. Qed.

Lemma safe_panic {A} e (Q : A -> S -> Prop) s : misuse e = false -> safe (panic e) Q s.
Proof. done. Qed.

(** Code with no rule to obey: it neither waits nor misuses anything. *)
Definition tame {A} (m : M S A) : Prop := forall s, safe m (fun _ _ => True) s.

Lemma tame_bind {A C} (m : M S A) (k : A -> M S C) : tame m -> (forall a, tame (k a)) -> tame (m ≫= k).
Proof. intros Hm Hk s. apply safe_bind. eapply safe_mono; [apply Hm|]. intros a s' _. apply Hk. Qed.

Lemma tame_ret {A} (a : A) : tame (mret a).
Proof. done. Qed.

Lemma tame_panic {A} e : misuse e = false -> @tame A (panic e).
Proof. by intros H s. Qed.

Lemma tame_diverge {A} : @tame A diverge.
Proof. done. Qed.

Lemma tame_gets {A} (g : S -> A) : tame (gets g).
Proof. done. Qed.

Lemma tame_getS : tame getS.
Proof. done. Qed.

Lemma tame_modS g : tame (modS g).
Proof. done. Qed.
End rules.

Lemma safe_zoom {S T A} (get : T -> S) (set : S -> T -> T) (m : M S A) (Q : A -> T -> Prop) t :
  safe m (fun a s' => Q a (set s' t)) (get t) -> safe (zoom get set m) Q t.
Proof. unfold safe, zoom. by destruct (m (get t)). Qed.

(** ** The interface *)
Class LedgerLaws (F : Type) `{!FsOps F, !ProcFs F, !SysFs F} : Type := {
  led : F -> ledger -> Prop;
  (** the inode of an open file of the process *)
  pinned : F -> Z -> Prop;
  ok_begin : forall f L, led f L -> (l_tx L < 2)%nat -> safe begin_op (fun _ f' => led f' (tx_up L)) f;
  ok_end : forall f L, led f L -> (0 < l_tx L)%nat -> safe end_op (fun _ f' => led f' (tx_down L)) f;
  ok_ilock : forall f L ip, led f L -> ip ∈ l_refs L \/ pinned f ip -> ip ∉ l_locks L ->
    safe (ilock ip) (fun _ f' => led f' (locked ip L)) f;
  (** locking an inode one has locked is waiting for oneself *)
  ilock_twice : forall f L ip, led f L -> ip ∈ l_locks L -> exists c, ilock ip f = Block c f;
  ok_iunlock : forall f L ip, led f L -> ip ∈ l_locks L -> safe (iunlock ip) (fun _ f' => led f' (unlocked ip L)) f;
  ok_iput : forall f L ip, led f L -> ip ∈ l_refs L -> ip ∉ l_locks L -> (0 < l_tx L)%nat ->
    safe (iput ip) (fun _ f' => led f' (dropped ip L)) f;
  ok_iunlockput : forall f L ip, led f L -> ip ∈ l_refs L -> ip ∈ l_locks L -> (0 < l_tx L)%nat ->
    safe (iunlockput ip) (fun _ f' => led f' (dropped ip (unlocked ip L))) f;
  ok_idup : forall f L ip, led f L -> ip ∈ l_refs L -> safe (idup ip) (fun r f' => r = ip /\ led f' (gained ip L)) f;
  ok_iupdate : forall f L ip, led f L -> ip ∈ l_locks L -> (0 < l_tx L)%nat -> safe (iupdate ip) (fun _ f' => led f' L) f;
  ok_itrunc : forall f L ip, led f L -> ip ∈ l_locks L -> (0 < l_tx L)%nat -> safe (itrunc ip) (fun _ f' => led f' L) f;
  ok_readi : forall f L ip off n, led f L -> ip ∈ l_locks L -> safe (readi ip off n) (fun _ f' => led f' L) f;
  ok_writei : forall f L ip off bs, led f L -> ip ∈ l_locks L -> (0 < l_tx L)%nat ->
    safe (writei ip off bs) (fun _ f' => led f' L) f;
  ok_namei : forall f L path, led f L -> l_locks L = ∅ -> (0 < l_tx L)%nat ->
    safe (namei path) (fun r f' => led f' (gained0 r L)) f;
  ok_nameiparent : forall f L path, led f L -> l_locks L = ∅ -> (0 < l_tx L)%nat ->
    safe (nameiparent path) (fun r f' => led f' (gained0 (fst r) L)) f;
  ok_dirlookup : forall f L dp name, led f L -> dp ∈ l_locks L ->
    safe (dirlookup dp name) (fun r f' => led f' (gained0 (fst r) L) /\ (fst r <> 0 -> is_dot name = false -> fst r ∉ l_locks L)) f;
  ok_dirlink : forall f L dp name inum, led f L -> dp ∈ l_locks L -> (0 < l_tx L)%nat ->
    safe (dirlink dp name inum) (fun _ f' => led f' L) f;
  ok_ialloc : forall f L dev type, led f L -> (0 < l_tx L)%nat ->
    safe (ialloc dev type) (fun r f' => led f' (gained0 r L) /\ (r <> 0 -> r ∉ l_locks L)) f;
  ok_i_dev : forall f L ip, led f L -> safe (i_dev ip) (fun _ f' => led f' L) f;
  ok_i_inum : forall f L ip, led f L -> safe (i_inum ip) (fun _ f' => led f' L) f;
  ok_i_type : forall f L ip, led f L -> safe (i_type ip) (fun _ f' => led f' L) f;
  ok_i_major : forall f L ip, led f L -> safe (i_major ip) (fun _ f' => led f' L) f;
  ok_i_size : forall f L ip, led f L -> safe (i_size ip) (fun _ f' => led f' L) f;
  ok_i_nlink : forall f L ip, led f L -> safe (i_nlink ip) (fun _ f' => led f' L) f;
  ok_set_nlink : forall f L ip n, led f L -> ip ∈ l_locks L -> safe (set_nlink ip n) (fun _ f' => led f' L) f;
  ok_set_major_minor : forall f L ip a b, led f L -> ip ∈ l_locks L -> safe (set_major_minor ip a b) (fun _ f' => led f' L) f;
  ok_filealloc : forall f L, led f L ->
    safe filealloc (fun r f' => led f' (if r =? 0 then L else freshened r (fgained r L)) /\ (r <> 0 -> r ∉ l_fresh L)) f;
  ok_file_open : forall f L x ip r w, led f L -> x ∈ l_files L -> x ∈ l_fresh L -> ip ∈ l_refs L ->
    safe (file_open x ip r w) (fun _ f' => led f' (opened x (dropped ip L))) f;
  ok_file_dev : forall f L x ip mj r w, led f L -> x ∈ l_files L -> x ∈ l_fresh L -> ip ∈ l_refs L ->
    safe (file_dev x ip mj r w) (fun _ f' => led f' (opened x (dropped ip L))) f;
  ok_file_ip : forall f L x, led f L -> x ∈ l_files L -> safe (file_ip x) (fun ip f' => led f' L /\ pinned f' ip) f;
  ok_fileclose : forall f L x, led f L -> x ∈ l_files L -> x ∈ l_fresh L \/ (l_locks L = ∅ /\ (l_tx L < 2)%nat) ->
    safe (fileclose x) (fun _ f' => led f' (fdropped x L)) f;
  ok_filedup : forall f L x, led f L -> x ∈ l_files L -> safe (filedup x) (fun r f' => led f' (fgained x L)) f;
  ok_pipealloc : forall f L, led f L ->
    safe pipealloc (fun r f' => if fst r =? 0 then led f' L else snd r <> 0 /\ led f' (fgained (fst r) (fgained (snd r) L))) f
}.

(** ** The ledger of a process *)
Definition ref1 (x : Z) : gmultiset Z := if x =? 0 then ∅ else {[+ x +]}.
Definition refs_of (l : list Z) : gmultiset Z := foldr (fun x m => ref1 x ⊎ m) ∅ l.

(** What the process owns between system calls: references to its directory and
    its executable, and to its open files and its swap file. *)
Definition p_refs (p : proc) : gmultiset Z := ref1 (p_cwd (p_files p)) ⊎ ref1 (exec_ip (p_exec p)).
Definition p_filerefs (p : proc) : gmultiset Z := refs_of (p_ofile (p_files p)) ⊎ ref1 (swapfile (p_swap p)).

(** The ledger of a process that holds [E] beyond what it owns. *)
Definition with_proc (p : proc) (E : ledger) : ledger :=
  mkLed (l_tx E) (l_locks E) (p_refs p ⊎ l_refs E) (p_filerefs p ⊎ l_files E) (l_fresh E).

Definition nothing : ledger := mkLed 0 ∅ ∅ ∅ ∅.

(** A process that makes system calls has its descriptors and a directory. *)
Definition fds_ok (p : proc) : Prop := length (p_ofile (p_files p)) = NOFILE /\ p_cwd (p_files p) <> 0.

(** It runs in the kernel and holds [E] beyond what is its own. *)
Definition bal {F} `{LedgerLaws F} (k : kst F) (E : ledger) : Prop :=
  led (k_fs k) (with_proc (k_p k) E) /\ fds_ok (k_p k).

(** The parts of a process that paging does not touch. *)
Definition same_files (p p' : proc) : Prop := p_files p' = p_files p /\ p_exec p' = p_exec p /\ p_space p' = p_space p.

(** ** Rules for the calls of sysfile.c into file.c that copy user memory *)
Class FileCallLaws (F : Type) `{LedgerLaws F} : Type := {
  ok_fileread : forall k E x a n, bal k E -> l_locks E = ∅ -> l_tx E = 0%nat -> x ∈ p_filerefs (k_p k) ->
    safe (fileread x a n) (fun _ k' => bal k' E) k;
  ok_filewrite : forall k E x a n, bal k E -> l_locks E = ∅ -> l_tx E = 0%nat -> x ∈ p_filerefs (k_p k) ->
    safe (filewrite x a n) (fun _ k' => bal k' E) k;
  ok_filestat : forall k E x a, bal k E -> l_locks E = ∅ -> l_tx E = 0%nat -> x ∈ p_filerefs (k_p k) ->
    safe (filestat x a) (fun _ k' => bal k' E) k
}.
