(* ===== verification/LedgerVm.v ===== *)
(** The paging code keeps the discipline of [Ledger]: it takes transactions,
    locks and references only to give them back, and what it adds to the process
    (a swap file) is the process's own. *)
From stdpp Require Import gmultiset.
From S2P Require Import Prelude Riscv PhysMem Kalloc PageTable Memstat Proc FsIface Swap VmFault Bytes ProcTable Syscall Exec SysFile Ledger.

(** Changes to a ledger, reduced to its fields. *)
Ltac lcbn := cbv beta iota delta [l_tx l_locks l_refs l_files l_fresh tx_up tx_down locked unlocked gained dropped fgained fdropped
  freshened opened with_proc nothing pred fst snd] in *.

Lemma ms_rem_head (x : Z) (X : gmultiset Z) : ({[+ x +]} ⊎ X) ∖ {[+ x +]} = X.
Proof. multiset_solver. Qed.

Lemma ms_rem_next (x : Z) (X Y : gmultiset Z) : x ∈ X -> (Y ⊎ X) ∖ {[+ x +]} = Y ⊎ (X ∖ {[+ x +]}).
Proof. multiset_solver. Qed.

Lemma ms_in_l (x : Z) (X Y : gmultiset Z) : x ∈ X -> x ∈ X ⊎ Y.
Proof. multiset_solver. Qed.

Lemma ms_in_r (x : Z) (X Y : gmultiset Z) : x ∈ Y -> x ∈ X ⊎ Y.
Proof. multiset_solver. Qed.

Lemma ms_in_1 (x : Z) : x ∈ ({[+ x +]} : gmultiset Z).
Proof. multiset_solver. Qed.

Lemma set_rem_head (x : Z) (X : gset Z) : x ∉ X -> ({[x]} ∪ X) ∖ {[x]} = X.
Proof. set_solver. Qed.

Lemma set_rem_next (x y : Z) (X : gset Z) : x <> y -> ({[y]} ∪ X) ∖ {[x]} = {[y]} ∪ (X ∖ {[x]}).
Proof. set_solver. Qed.

Lemma set_in_head (x : Z) (X : gset Z) : x ∈ ({[x]} ∪ X : gset Z).
Proof. set_solver. Qed.

Lemma set_in_next (x y : Z) (X : gset Z) : x ∈ X -> x ∈ ({[y]} ∪ X : gset Z).
Proof. set_solver. Qed.

Lemma set_not_in (x y : Z) (X : gset Z) : x <> y -> x ∉ X -> x ∉ ({[y]} ∪ X : gset Z).
Proof. set_solver. Qed.

Lemma set_not_in_inv (x y : Z) (X : gset Z) : x ∉ ({[y]} ∪ X : gset Z) -> x <> y /\ x ∉ X.
Proof. set_solver. Qed.

(** Membership and its negation, by the shape of the set. *)
Ltac mem_ms := first [ assumption | apply ms_in_1 | apply ms_in_l; mem_ms | apply ms_in_r; mem_ms ].
Ltac mem_set := first [ assumption | apply set_in_head | apply set_in_next; mem_set ].
Ltac not_in_set :=
  repeat match goal with H : _ ∉ {[_]} ∪ _ |- _ => apply set_not_in_inv in H as [? ?] end;
  repeat first [ assumption | apply not_elem_of_empty | apply set_not_in; [first [assumption | done | by apply not_eq_sym]|] ].

Ltac lside :=
  lcbn;
  lazymatch goal with
  | |- (_ < _)%nat => lia
  | |- @elem_of _ (gmultiset _) _ _ _ => mem_ms
  | |- @elem_of _ (gset _) _ _ _ => mem_set
  | |- ~ @elem_of _ (gset _) _ _ _ => not_in_set
  | |- _ \/ _ => first [assumption | left; mem_ms]
  | |- _ => first [assumption | reflexivity]
  end.

(** Two ledgers with equal fields. *)
Ltac lsame :=
  match goal with
  | H : led ?f ?L |- led ?f ?L' =>
      replace L' with L; [exact H|]; lcbn;
      f_equal; first [ reflexivity | assumption | lia | clear; multiset_solver | clear; set_solver ]
  end.

Lemma gained0_0 L : gained0 0 L = L.
Proof. done. Qed.

Lemma gained0_ne ip L : ip <> 0 -> gained0 ip L = gained ip L.
Proof. intros. unfold gained0. by rewrite (proj2 (Z.eqb_neq ip 0)). Qed.

Ltac lnorm :=
  repeat match goal with
  | H : 0 <> 0 -> _ |- _ => clear H
  | N : ?x <> 0, H : ?x <> 0 -> _ |- _ => specialize (H N)
  | H : context [gained0 0 _] |- _ => rewrite gained0_0 in H
  | H : led _ (if 0 =? 0 then _ else _) |- _ => rewrite Z.eqb_refl in H
  | N : ?ip <> 0, H : led _ (if ?ip =? 0 then _ else _) |- _ => rewrite (proj2 (Z.eqb_neq ip 0) N) in H
  | N : ?ip <> 0, H : context [gained0 ?ip _] |- _ => rewrite (gained0_ne ip _ N) in H
  end; lcbn;
  repeat match goal with
  | H : led _ (mkLed _ _ (_ ∖ _) _ _) |- _ => progress (repeat first [rewrite ms_rem_head in H | rewrite ms_rem_next in H by mem_ms])
  | H : led _ (mkLed _ _ _ (_ ∖ _) _) |- _ => progress (repeat first [rewrite ms_rem_head in H | rewrite ms_rem_next in H by mem_ms])
  | H : led _ (mkLed _ _ _ _ (_ ∖ _)) |- _ =>
      progress (repeat first [rewrite set_rem_head in H by not_in_set | rewrite set_rem_next in H by (first [assumption | by apply not_eq_sym])])
  | H : led _ (mkLed _ (_ ∖ _) _ _ _) |- _ =>
      progress (repeat first [rewrite set_rem_head in H by not_in_set | rewrite set_rem_next in H by (first [assumption | by apply not_eq_sym])])
  end.

(** Rules for functions, added as they are proved. *)
Ltac fextra := fail.

(** One call, its rule chosen by its head. *)
Ltac frule :=
  first [ fextra | eapply ok_begin | eapply ok_end | eapply ok_ilock | eapply ok_iunlock | eapply ok_iput | eapply ok_iunlockput
        | eapply ok_idup | eapply ok_iupdate | eapply ok_itrunc | eapply ok_readi | eapply ok_writei | eapply ok_namei
        | eapply ok_nameiparent | eapply ok_dirlookup | eapply ok_dirlink | eapply ok_ialloc | eapply ok_i_dev
        | eapply ok_i_inum | eapply ok_i_type | eapply ok_i_major | eapply ok_i_size | eapply ok_i_nlink
        | eapply ok_set_nlink | eapply ok_set_major_minor | eapply ok_filealloc | eapply ok_file_open | eapply ok_file_dev
        | eapply ok_file_ip | eapply ok_fileclose | eapply ok_filedup | eapply ok_pipealloc ].

Ltac fcall := frule; [eassumption|..]; try lside.
Ltac fpure := frule.

Ltac fstep :=
  lazymatch goal with
  | |- safe (_ ≫= _) _ _ => apply safe_bind; eapply safe_mono; [first [fcall | fpure]|]; cbv beta; intros; destruct_and?; subst; lnorm
  | |- safe (mret _) _ _ => apply safe_ret
  | |- safe (panic _) _ _ => apply safe_panic; reflexivity
  | |- safe (if ?b then _ else _) _ _ =>
      lazymatch b with
      | ?x =? 0 => destruct (Z.eqb_spec x 0); subst; lnorm
      | negb (?x =? 0) => destruct (Z.eqb_spec x 0); subst; cbn [negb]; lnorm
      | _ => destruct b
      end
  | |- safe (let '(_, _) := ?r in _) _ _ => destruct r; lnorm
  | |- safe _ _ _ => eapply safe_mono; [first [fcall | fpure]|]; cbv beta; intros; destruct_and?; subst; lnorm
  end.

Section fs.
Context {F : Type} `{FO : !FsOps F} `{PF : !ProcFs F} `{SF : !SysFs F} `{LL : !LedgerLaws F}.

Lemma safe_make_dots f L type ip dp : led f L -> ip ∈ l_locks L -> (0 < l_tx L)%nat ->
  safe (make_dots type ip dp) (fun _ f' => led f' L) f.
Proof. intros H Hi Ht. unfold make_dots. do 10 (try fstep); done. Qed.

Lemma safe_fail_create f dp ip t X R Fi Fr : ip <> dp ->
  led f (mkLed (S t) ({[ip]} ∪ ({[dp]} ∪ X)) ({[+ ip +]} ⊎ ({[+ dp +]} ⊎ R)) Fi Fr) -> ip ∉ X -> dp ∉ X ->
  safe (fail_create dp ip) (fun r f' => r = 0 /\ led f' (mkLed (S t) X R Fi Fr)) f.
Proof. intros Hne H Hi Hd. unfold fail_create. do 5 fstep. done. Qed.

(** [create] returns a locked inode the caller has a reference to, or null. *)
Lemma safe_kcreate f t R Fi Fr path type mj mn : led f (mkLed (S t) ∅ R Fi Fr) ->
  safe (kcreate path type mj mn)
    (fun r f' => led f' (if r =? 0 then mkLed (S t) ∅ R Fi Fr else mkLed (S t) ({[r]} ∪ ∅) ({[+ r +]} ⊎ R) Fi Fr)) f.
Proof.
  intros H. unfold kcreate. fstep. fstep. fstep; [fstep; done|]. fstep. fstep. fstep. fstep.
  - (* no entry of that name *)
    fstep. fstep. fstep; [fstep; fstep; done|]. do 4 fstep.
    apply safe_bind. eapply safe_mono; [eapply safe_make_dots; [eassumption|lside..]|]. intros bad fb Hfb.
    assert (Hne : a1 <> z) by set_solver.
    assert (Hbad : forall g, led g (mkLed (S t) ({[a1]} ∪ ({[z]} ∪ ∅)) ({[+ a1 +]} ⊎ ({[+ z +]} ⊎ R)) Fi Fr) ->
      safe (fail_create z a1) (fun r f' => led f' (if r =? 0 then mkLed (S t) ∅ R Fi Fr else mkLed (S t) ({[r]} ∪ ∅) ({[+ r +]} ⊎ R) Fi Fr)) g).
    { intros g Hg. eapply safe_mono; [eapply (safe_fail_create g); [done|exact Hg|lside..]|]. by intros r fr [-> Hr]. }
    fstep; [by apply Hbad|]. fstep. fstep. fstep; [by apply Hbad|].
    apply safe_bind.
    apply (safe_mono _ (fun _ f' => led f' (mkLed (S t) ({[a1]} ∪ ({[z]} ∪ ∅)) ({[+ a1 +]} ⊎ ({[+ z +]} ⊎ R)) Fi Fr))).
    { fstep; [fstep; fstep; fstep; done|fstep; done]. }
    intros _ fu Hfu. fstep. fstep. rewrite (proj2 (Z.eqb_neq a1 0)) by done. done.
  - do 3 fstep. fstep; fstep; [by rewrite (proj2 (Z.eqb_neq z0 0))|]. fstep. done.
Qed.
End fs.

(** ** Memory code obeys trivially *)
Create HintDb tame.
Create HintDb paging.
#[export] Hint Resolve tame_ret tame_diverge tame_gets tame_getS tame_modS : tame.
#[export] Hint Extern 1 (tame (panic _)) => (apply tame_panic; reflexivity) : tame.

Ltac solve_tame :=
  repeat (cbv zeta; first
    [ solve [eauto 2 with tame]
    | apply tame_bind; [|intros]
    | lazymatch goal with
      | |- tame (if ?b then _ else _) => destruct b
      | |- tame (match ?x with _ => _ end) => destruct x
      end ]).

Section pmem.
Context `{HL : Layout}.

Lemma tame_kalloc : tame kalloc.
Proof. unfold kalloc. solve_tame. Qed.
#[local] Hint Resolve tame_kalloc : tame.

Lemma tame_kfree a : tame (kfree a).
Proof. unfold kfree. solve_tame. Qed.
#[local] Hint Resolve tame_kfree : tame.

Lemma tame_load a : tame (mem_load a).
Proof. apply tame_gets. Qed.
Lemma tame_store a v : tame (mem_store a v).
Proof. apply tame_modS. Qed.
Lemma tame_fill a c n : tame (mem_fill a c n).
Proof. apply tame_modS. Qed.
#[local] Hint Resolve tame_load tame_store tame_fill : tame.

Lemma tame_walk pt va alloc : tame (walk pt va alloc).
Proof.
  unfold walk. destruct (MAXVA <=? va); [solve_tame|]. revert pt. generalize 2%nat as n.
  induction n as [|n IH]; intros pt; cbn [walk_levels]; solve_tame; apply IH.
Qed.
#[local] Hint Resolve tame_walk : tame.

Lemma tame_walkaddr pt va : tame (walkaddr pt va).
Proof. unfold walkaddr. solve_tame. Qed.

Lemma tame_ismapped pt va : tame (ismapped pt va).
Proof. unfold ismapped. solve_tame. Qed.

Lemma tame_mappages_loop fuel : forall pt a last pa perm, tame (mappages_loop fuel pt a last pa perm).
Proof. induction fuel as [|n IH]; intros; cbn [mappages_loop]; solve_tame; apply IH. Qed.

Lemma tame_mappages pt va n pa perm : tame (mappages pt va n pa perm).
Proof. unfold mappages. solve_tame. apply tame_mappages_loop. Qed.
#[local] Hint Resolve tame_mappages : tame.

Lemma tame_uvmunmap pt va n b : tame (uvmunmap pt va n b).
Proof.
  unfold uvmunmap. solve_tame. generalize (u64 (va + n * PGSIZE)) as bound. generalize (S (Z.to_nat n)) as fuel. intros fuel bound. revert va.
  induction fuel as [|fuel IH]; intros; cbn [uvmunmap_loop]; solve_tame; apply IH.
Qed.
#[local] Hint Resolve tame_uvmunmap : tame.

Lemma tame_uvmdealloc pt a b : tame (uvmdealloc pt a b).
Proof. unfold uvmdealloc. solve_tame. Qed.
#[local] Hint Resolve tame_uvmdealloc : tame.

Lemma tame_uvmalloc_loop fuel : forall pt a o n x, tame (uvmalloc_loop fuel pt a o n x).
Proof. induction fuel as [|fuel IH]; intros; cbn [uvmalloc_loop]; solve_tame; apply IH. Qed.

Lemma tame_uvmalloc pt a b x : tame (uvmalloc pt a b x).
Proof. unfold uvmalloc. solve_tame. apply tame_uvmalloc_loop. Qed.

Lemma tame_freewalk_entries rec n : (forall a, tame (rec a)) -> forall pt i, tame (freewalk_entries rec n pt i).
Proof. intros Hr. induction n as [|n IH]; intros; cbn [freewalk_entries]; solve_tame. Qed.

Lemma tame_freewalk d : forall pt, tame (freewalk d pt).
Proof.
  induction d as [|d IH]; intros; cbn [freewalk]; [apply tame_diverge|].
  apply tame_bind; [apply tame_freewalk_entries, IH|intros; apply tame_kfree].
Qed.
#[local] Hint Resolve tame_freewalk : tame.

Lemma tame_uvmfree pt n : tame (uvmfree pt n).
Proof. unfold uvmfree. solve_tame. Qed.
#[local] Hint Resolve tame_uvmfree : tame.

Lemma tame_uvmclear pt va : tame (uvmclear pt va).
Proof. unfold uvmclear. solve_tame. Qed.

Lemma tame_proc_pagetable tf : tame (proc_pagetable tf).
Proof. unfold proc_pagetable, uvmcreate. solve_tame. Qed.

Lemma tame_proc_freepagetable pt n : tame (proc_freepagetable pt n).
Proof. unfold proc_freepagetable. solve_tame. Qed.
End pmem.
#[export] Hint Resolve tame_kalloc tame_kfree tame_load tame_store tame_fill tame_walk tame_walkaddr tame_ismapped
  tame_mappages tame_uvmunmap tame_uvmdealloc tame_uvmalloc tame_freewalk tame_uvmfree tame_uvmclear
  tame_proc_pagetable tame_proc_freepagetable : tame.

(** ** Code of a process *)
Lemma safe_vm {F A} (m : M pmem A) (Q : A -> kst F -> Prop) k :
  tame m -> (forall a s, Q a (set_pm s k)) -> safe (vm m) Q k.
Proof. intros Hm HQ. apply safe_zoom. eapply safe_mono; [apply Hm|]. auto. Qed.

Lemma safe_fs {F A} (m : M F A) (Q : A -> kst F -> Prop) k :
  safe m (fun a f => Q a (set_fs f k)) (k_fs k) -> safe (fs m) Q k.
Proof. apply safe_zoom. Qed.

Lemma safe_gets {S A} (g : S -> A) (Q : A -> S -> Prop) s : Q (g s) s -> safe (gets g) Q s.
Proof. done. Qed.

Lemma safe_modS {S} (g : S -> S) (Q : unit -> S -> Prop) s : Q tt (g s) -> safe (modS g) Q s.
Proof. done. Qed.

Ltac fextra ::= eapply safe_kcreate.

(** One step of a process: a call on the file system, on memory, or on its own
    structure. *)
Ltac kcall := apply safe_fs; kcbn; eapply safe_mono; [first [fcall | fpure]|]; cbv beta; intros; destruct_and?; subst; kcbn; lnorm.
Ltac kprim :=
  lazymatch goal with
  | |- safe (fs _) _ _ => kcall
  | |- safe (vm _) _ _ => apply safe_vm; [solve_tame|intros; kcbn]
  | |- safe myproc _ _ => apply safe_gets; kcbn
  | |- safe killed _ _ => apply safe_gets; kcbn
  | |- safe getS _ _ => apply (safe_gets id); unfold id; kcbn
  | |- safe (printf _) _ _ => apply safe_modS; kcbn
  | |- safe (modp _) _ _ => apply safe_modS; kcbn
  | |- safe (modswap _) _ _ => apply safe_modS; kcbn
  end.
Ltac kstep :=
  lazymatch goal with
  | |- safe (_ ≫= _) _ _ => apply safe_bind; try kprim
  | |- safe (mret _) _ _ => apply safe_ret; kcbn
  | |- safe (panic _) _ _ => apply safe_panic; reflexivity
  | |- safe (if ?b then _ else _) _ _ =>
      lazymatch b with
      | ?x =? 0 => destruct (Z.eqb_spec x 0); subst; lnorm
      | negb (?x =? 0) => destruct (Z.eqb_spec x 0); subst; cbn [negb]; lnorm
      | _ => destruct b
      end
  | |- safe (let '(_, _) := ?r in _) _ _ => destruct r; lnorm
  | |- safe _ _ _ => kprim
  end.

Section paging.
Context `{HL : Layout} {F : Type} `{FO : !FsOps F} `{PF : !ProcFs F} `{SF : !SysFs F} `{LL : !LedgerLaws F} `{PO : !Policy}.

Lemma same_files_refl p : same_files p p.
Proof. done. Qed.

Lemma same_files_trans p p' p'' : same_files p p' -> same_files p' p'' -> same_files p p''.
Proof. unfold same_files. intros (?&?&?) (?&?&?). repeat split; congruence. Qed.

(** Paging code of a process that holds no inode lock and at most one transaction. *)
Definition paging {A} (m : M (kst F) A) : Prop := forall k E, bal k E -> l_locks E = ∅ -> (l_tx E < 2)%nat ->
  safe m (fun _ k' => bal k' E /\ same_files (k_p k) (k_p k')) k.

Lemma paging_bind {A C} (m : M (kst F) A) (h : A -> M (kst F) C) : paging m -> (forall a, paging (h a)) -> paging (m ≫= h).
Proof.
  intros Hm Hh k E Hk Hl Ht. apply safe_bind. eapply safe_mono; [by apply Hm|]. cbv beta. intros a k1 [H1 S1].
  eapply safe_mono; [by apply Hh|]. cbv beta. intros c k2 [H2 S2]. split; [done|]. by eapply same_files_trans.
Qed.

Lemma paging_ret {A} (a : A) : paging (mret a).
Proof. intros k E Hk _ _. by apply safe_ret. Qed.

Lemma paging_vm {A} (m : M pmem A) : tame m -> paging (vm m).
Proof. intros Hm k E Hk _ _. by apply safe_vm. Qed.

Lemma paging_getS : paging getS.
Proof. intros k E Hk _ _. done. Qed.

Lemma paging_myproc : paging myproc.
Proof. intros k E Hk _ _. done. Qed.

Lemma paging_panic {A} e : misuse e = false -> @paging A (panic e).
Proof. intros He k E Hk _ _. done. Qed.

Lemma paging_diverge {A} : @paging A diverge.
Proof. intros k E Hk _ _. done. Qed.

Lemma paging_printf e : paging (printf e).
Proof. intros k E Hk _ _. done. Qed.

Lemma paging_modp h : (forall p, p_files (h p) = p_files p /\ p_exec (h p) = p_exec p /\ p_space (h p) = p_space p /\
  swapfile (p_swap (h p)) = swapfile (p_swap p)) -> paging (modp h).
Proof.
  intros Hh k E [Hk Hn] _ _. destruct (Hh (k_p k)) as (H1 & H2 & H3 & H4). split; [|done]. split; kcbn.
  - replace (with_proc (h (k_p k)) E) with (with_proc (k_p k) E); [done|].
    unfold with_proc, p_refs, p_filerefs. by rewrite H1, H2, H4.
  - unfold fds_ok. by rewrite H1.
Qed.

(** What a new swap file adds to the process. *)
Lemma filerefs_swap p x w : swapfile (p_swap p) = 0 -> x <> 0 -> swapfile w = x ->
  p_filerefs (set_swap w p) = {[+ x +]} ⊎ p_filerefs p.
Proof.
  intros H0 Hx Hw. unfold p_filerefs, ref1. kcbn. rewrite Hw, H0, (proj2 (Z.eqb_neq x 0)) by done.
  rewrite Z.eqb_refl. multiset_solver.
Qed.

Ltac start_bal := intros k E [Hk Hn] Hl Ht; destruct k as [pm p f out], E as [t X R Fi Fr]; kcbn; lcbn; subst X.

(** The end of a piece of code: the ledger is what it was. *)
Ltac kdone := split; [split; kcbn; lcbn; [lsame|assumption]|done].

Lemma safe_swapfile_create k E : bal k E -> l_locks E = ∅ -> (l_tx E < 2)%nat ->
  safe swapfile_create (fun r k' => bal k' E /\ same_files (k_p k) (k_p k') /\ (0 <= r -> swapfile (p_swap (k_p k')) <> 0)) k.
Proof.
  revert k E. start_bal. unfold swapfile_create. kstep. kstep; [|kstep; split_and!; [split; done|done|done]].
  kstep. kstep. kstep.
  { kstep. kstep. split_and!; [split; kcbn; lcbn; [lsame|done]|done|lia]. }
  kstep. kstep.
  { kstep. kstep. kstep. split_and!; [split; kcbn; lcbn; [lsame|done]|done|lia]. }
  kstep. kstep. kstep. kstep. kstep. split_and!; [split; kcbn; lcbn|done|done]; [|done].
  rewrite (filerefs_swap p a1) by done. lsame.
Qed.

Lemma paging_swapfile_create : paging swapfile_create.
Proof. intros k E Hk Hl Ht. eapply safe_mono; [by apply safe_swapfile_create|]. naive_solver. Qed.

Lemma paging_modswap g : (forall w, swapfile (g w) = swapfile w) -> paging (modswap g).
Proof. intros Hg. apply paging_modp. intros p. repeat split. apply Hg. Qed.

Lemma paging_modmemstat g : paging (modmemstat g).
Proof. by apply paging_modp. Qed.

Lemma paging_modcount g : paging (modcount g).
Proof. by apply paging_modp. Qed.

Lemma paging_setkilled : paging setkilled.
Proof. by apply paging_modp. Qed.

Lemma paging_if {A} (b : bool) (m m' : M (kst F) A) : paging m -> paging m' -> paging (if b then m else m').
Proof. by destruct b. Qed.

Lemma paging_store_buf a bs : paging (store_buf a bs).
Proof. apply paging_vm, tame_modS. Qed.

Hint Resolve paging_ret paging_getS paging_myproc paging_diverge paging_printf paging_modmemstat paging_modcount
  paging_setkilled paging_swapfile_create paging_store_buf : paging.
Hint Extern 1 (paging (panic _)) => (apply paging_panic; reflexivity) : paging.
Hint Extern 1 (paging (vm _)) => (apply paging_vm; solve_tame) : paging.
Hint Extern 1 (paging (modswap _)) => (apply paging_modswap; reflexivity) : paging.
Ltac solve_paging :=
  repeat (cbv zeta; first
    [ solve [eauto 2 with paging]
    | apply paging_bind; [|intros]
    | lazymatch goal with
      | |- paging (if ?b then _ else _) => destruct b
      | |- paging (match ?x with _ => _ end) => destruct x
      end ]).

Lemma swapfile_ref p : swapfile (p_swap p) <> 0 -> swapfile (p_swap p) ∈ p_filerefs p.
Proof.
  intros H. unfold p_filerefs, ref1. rewrite (proj2 (Z.eqb_neq _ 0)) by done. apply ms_in_r, ms_in_1.
Qed.

(** [paging] after a step that has run. *)
Lemma paging_from {A} (m : M (kst F) A) p k E : paging m -> bal k E -> l_locks E = ∅ -> (l_tx E < 2)%nat ->
  same_files p (k_p k) -> safe m (fun _ k' => bal k' E /\ same_files p (k_p k')) k.
Proof.
  intros Hm Hk Hl Ht Hs. eapply safe_mono; [by apply Hm|]. cbv beta. intros a k' [H1 H2]. split; [done|].
  by eapply same_files_trans.
Qed.

Lemma paging_swapout va pa : paging (proc_swapout_page va pa).
Proof.
  intros k E Hk Hl Ht. unfold proc_swapout_page. kstep.
  apply safe_bind. apply (safe_mono _ (fun r k' => bal k' E /\ same_files (k_p k) (k_p k') /\ (0 <= r -> swapfile (p_swap (k_p k')) <> 0))).
  { destruct (Z.eqb_spec (swapfile (p_swap (k_p k))) 0); [by apply safe_swapfile_create|].
    apply safe_ret. by split_and!. }
  intros r k1 (Hk1 & S1 & Hr). destruct (Z.ltb_spec r 0) as [|Hr0]; [kstep; done|]. kstep.
  destruct (free_slot (swap_table (p_swap (k_p k1)))) as [slot|]; [|kstep; done].
  pose proof (swapfile_ref _ (Hr Hr0)) as Hx. generalize dependent (k_p k). clear Hr Hr0 Hk k. intros p0 S0.
  destruct k1 as [pm p f out], E as [t X R Fi Fr], Hk1 as [Hk Hn]. kcbn. lcbn. subst X.
  kstep. kstep. kstep; [by right|]. kstep. kstep. kstep. kstep.
  apply paging_from; kcbn; [solve_paging|split; done|done|done|done].
Qed.

Lemma paging_swapin va dst : paging (swapin_page va dst).
Proof.
  start_bal. unfold swapin_page. kstep. kstep; [kstep; done|].
  destruct (first_index _ _) as [slot|]; [|kstep; done].
  pose proof (swapfile_ref _ ltac:(eassumption)) as Hx.
  kstep. kstep. kstep; [by right|]. kstep. kstep. kstep. kstep.
  apply paging_from; kcbn; [solve_paging|split; done|done|done|done].
Qed.
Hint Resolve paging_swapout paging_swapin : paging.

Lemma paging_evict i algo : paging (evict i algo).
Proof. unfold evict. solve_paging. Qed.
Hint Resolve paging_evict : paging.

Lemma paging_try_kalloc va : paging (try_kalloc_or_replace va).
Proof. unfold try_kalloc_or_replace. solve_paging. Qed.
Hint Resolve paging_try_kalloc : paging.

(** The same for a process whose executable is known. *)
Definition paging_e (e : pexec) {A} (m : M (kst F) A) : Prop := forall k E, bal k E -> p_exec (k_p k) = e ->
  l_locks E = ∅ -> (l_tx E < 2)%nat -> safe m (fun _ k' => bal k' E /\ same_files (k_p k) (k_p k')) k.

Lemma paging_to_e e {A} (m : M (kst F) A) : paging m -> paging_e e m.
Proof. intros Hm k E Hk _. by apply Hm. Qed.

Lemma paging_e_bind e {A C} (m : M (kst F) A) (h : A -> M (kst F) C) :
  paging_e e m -> (forall a, paging_e e (h a)) -> paging_e e (m ≫= h).
Proof.
  intros Hm Hh k E Hk He Hl Ht. apply safe_bind. eapply safe_mono; [by apply Hm|]. cbv beta. intros a k1 [H1 S1].
  eapply safe_mono; [apply Hh; [done|by rewrite (proj1 (proj2 S1))|done|done]|].
  cbv beta. intros c k2 [H2 S2]. split; [done|]. by eapply same_files_trans.
Qed.

Ltac solve_paging_e :=
  repeat (cbv zeta; first
    [ solve [eauto 2 with paging]
    | apply paging_to_e; solve [eauto 2 with paging]
    | apply paging_e_bind; [|intros]
    | lazymatch goal with
      | |- paging_e _ (if ?b then _ else _) => destruct b
      | |- paging_e _ (match ?x with _ => _ end) => destruct x
      end ]).

(** The executable is read under its lock. *)
Lemma paging_read_exec e buf off n (b : bool) : paging_e e (if negb (exec_ip e =? 0) && b then
    _ ← fs (ilock (exec_ip e)); bs ← fs (readi (exec_ip e) off n); _ ← store_buf buf bs; _ ← fs (iunlock (exec_ip e));
    mret (Z.of_nat (length bs) =? n)
  else mret true).
Proof.
  intros k E Hk He. revert k E Hk He. intros [pm p f out] [t X R Fi Fr] [Hk Hn] He Hl Ht. kcbn. lcbn. subst X.
  destruct (Z.eqb_spec (exec_ip e) 0) as [|Hx]; cbn [negb andb]; [by kstep|]. destruct b; [|by kstep].
  assert (exec_ip e ∈ p_refs p).
  { unfold p_refs, ref1. rewrite He, (proj2 (Z.eqb_neq (exec_ip e) 0)) by done. apply ms_in_r, ms_in_1. }
  kstep. kstep. unfold store_buf. kstep. kstep. by kstep.
Qed.
Hint Resolve paging_read_exec : paging.

Lemma paging_with_proc {A} (h : proc -> M (kst F) A) : (forall p, paging_e (p_exec p) (h p)) -> paging (myproc ≫= h).
Proof. intros Hh k E Hk Hl Ht. kstep. by apply Hh. Qed.

Lemma paging_vmfault pt va : paging (vmfault pt va).
Proof. apply paging_with_proc. intros p. solve_paging_e. Qed.
Hint Resolve paging_vmfault : paging.

Lemma paging_fault_addr pt va : paging (fault_addr pt va).
Proof. unfold fault_addr. solve_paging. Qed.
Hint Resolve paging_fault_addr : paging.

Lemma paging_copyout pt va src : paging (copyout pt va src).
Proof.
  unfold copyout. generalize (S (S (S (length src / Z.to_nat PGSIZE)))) as fuel. intros fuel. revert va src.
  induction fuel as [|fuel IH]; intros; cbn [copyout_loop]; solve_paging; apply IH.
Qed.

Lemma paging_copyin pt va n : paging (copyin pt va n).
Proof.
  unfold copyin. generalize (S (S (S (Z.to_nat (n / PGSIZE))))) (@nil Z). intros fuel. revert va n.
  induction fuel as [|fuel IH]; intros; cbn [copyin_loop]; solve_paging; apply IH.
Qed.

Lemma paging_copyinstr pt va n : paging (copyinstr pt va n).
Proof.
  unfold copyinstr. generalize (S (S (S (Z.to_nat (n / PGSIZE))))) (@nil Z). intros fuel. revert va n.
  induction fuel as [|fuel IH]; intros; cbn [copyinstr_loop]; solve_paging; apply IH.
Qed.
Hint Resolve paging_copyout paging_copyin paging_copyinstr : paging.

(** ** System-call arguments *)
Lemma paging_tf_get off : paging (tf_get off).
Proof. unfold tf_get. solve_paging. Qed.
Lemma paging_tf_put off v : paging (tf_put off v).
Proof. unfold tf_put. solve_paging. Qed.
Hint Resolve paging_tf_get paging_tf_put : paging.

Lemma paging_argint n : paging (argint n).
Proof. unfold argint, argraw. solve_paging. Qed.
Lemma paging_argaddr n : paging (argaddr n).
Proof. unfold argaddr, argraw. solve_paging. Qed.
Hint Resolve paging_argint paging_argaddr : paging.

Lemma paging_fetchaddr a : paging (fetchaddr a).
Proof. unfold fetchaddr. solve_paging. Qed.
Lemma paging_fetchstr a n : paging (fetchstr a n).
Proof. unfold fetchstr. solve_paging. Qed.
Hint Resolve paging_fetchaddr paging_fetchstr : paging.

Lemma paging_argstr i n : paging (argstr i n).
Proof. unfold argstr. solve_paging. Qed.
End paging.
