(* ===== verification/LedgerSys.v ===== *)
(** Every file-system call keeps the discipline of [Ledger]: on each path through
    it, error paths included, it ends the transactions it began, releases the
    inode locks it took, and gives back every reference that has not become part
    of the process. *)
From stdpp Require Import gmultiset.
From S2P Require Import Prelude Riscv PhysMem Kalloc PageTable Memstat Proc FsIface Swap VmFault Bytes ProcTable Syscall Exec SysFile Ledger LedgerVm.

Section calls.
Context {F : Type} `{FO : !FsOps F} `{PF : !ProcFs F} `{SF : !SysFs F} `{LL : !LedgerLaws F}.

Lemma safe_link_bad f R Fi Fr ip : led f (mkLed 1 ∅ ({[+ ip +]} ⊎ R) Fi Fr) ->
  safe (link_bad ip) (fun _ f' => led f' (mkLed 0 ∅ R Fi Fr)) f.
Proof. intros H. unfold link_bad. do 7 fstep. done. Qed.

Lemma safe_link f R Fi Fr old new : led f (mkLed 0 ∅ R Fi Fr) ->
  safe (link_ old new) (fun _ f' => led f' (mkLed 0 ∅ R Fi Fr)) f.
Proof.
  intros H. unfold link_. fstep. fstep. fstep; [fstep; fstep; done|]. fstep. fstep.
  fstep; [do 3 fstep; done|]. do 5 fstep. fstep. fstep; [by apply safe_link_bad|]. fstep. fstep. fstep. fstep.
  apply safe_bind. eapply (safe_mono _ (fun _ f' => led f' _)).
  { destruct (negb _); [fstep; eassumption|]. fstep. eassumption. }
  cbv beta. intros r g Hg. fstep; [fstep; by apply safe_link_bad|]. do 4 fstep. done.
Qed.

Lemma safe_isdirempty f L dp : led f L -> dp ∈ l_locks L -> safe (isdirempty dp) (fun _ f' => led f' L) f.
Proof.
  intros H Hd. unfold isdirempty. fstep. generalize (S (Z.to_nat (a / Z.of_nat sizeof_dirent))) (2 * Z.of_nat sizeof_dirent).
  clear f H. intros fuel. revert s' H0. induction fuel as [|fuel IH]; intros f H off; cbn [isdirempty_loop]; [done|].
  fstep. fstep; [|by fstep]. fstep. fstep; [fstep|]. fstep; [by apply IH|by fstep].
Qed.

Lemma safe_unlink f R Fi Fr path : led f (mkLed 0 ∅ R Fi Fr) ->
  safe (unlink_ path) (fun _ f' => led f' (mkLed 0 ∅ R Fi Fr)) f.
Proof.
  intros H. unfold unlink_, unlink_bad. fstep. fstep. fstep. fstep; [fstep; fstep; done|]. fstep.
  destruct (is_dot l) eqn:Ed; [do 3 fstep; done|]. fstep. fstep. fstep; [do 3 fstep; done|].
  match goal with H : is_dot l = false -> _ |- _ => specialize (H Ed) end.
  assert (z0 <> z) by set_solver.
  fstep. fstep. fstep; [fstep|]. fstep.
  apply safe_bind. eapply (safe_mono _ (fun _ f' => led f' _)).
  { fstep; [|fstep; eassumption]. apply safe_bind. eapply safe_mono; [eapply safe_isdirempty; [eassumption|lside]|].
    cbv beta. intros. fstep. eassumption. }
  cbv beta. intros full g Hg. fstep; [do 4 fstep; done|]. fstep. fstep; [fstep|].
  apply safe_bind. eapply (safe_mono _ (fun _ f' => led f' _)).
  { fstep; [do 3 fstep; eassumption|fstep; eassumption]. }
  cbv beta. intros _ g2 Hg2. do 7 fstep. done.
Qed.

(** The inode to open: locked, and referenced. *)
Lemma safe_open_inode f R Fi Fr path omode : led f (mkLed 1 ∅ R Fi Fr) ->
  safe (open_inode path omode)
    (fun r f' => led f' (if r =? 0 then mkLed 0 ∅ R Fi Fr else mkLed 1 ({[r]} ∪ ∅) ({[+ r +]} ⊎ R) Fi Fr)) f.
Proof.
  intros H. unfold open_inode, create. fstep.
  - fstep. fstep; fstep; [fstep; done|]. by rewrite (proj2 (Z.eqb_neq a 0)).
  - fstep. fstep; [fstep; fstep; done|]. fstep. fstep. fstep; [do 3 fstep; done|]. fstep.
    by rewrite (proj2 (Z.eqb_neq a 0)).
Qed.

Lemma safe_open_file_as f R Fi Fr ip x fd omode : x ∉ Fr ->
  led f (mkLed 1 ({[ip]} ∪ ∅) ({[+ ip +]} ⊎ R) ({[+ x +]} ⊎ Fi) ({[x]} ∪ Fr)) ->
  safe (open_file_as ip x fd omode) (fun r f' => r = fd /\ led f' (mkLed 0 ∅ R ({[+ x +]} ⊎ Fi) Fr)) f.
Proof.
  intros Hx H. unfold open_file_as. fstep. cbv zeta. apply safe_bind.
  apply (safe_mono _ (fun _ f' => led f' (mkLed 1 ({[ip]} ∪ ∅) R ({[+ x +]} ⊎ Fi) Fr))).
  { fstep; [fstep; fstep; done|]. fstep. done. }
  intros _ g Hg. apply safe_bind. apply (safe_mono _ (fun _ f' => led f' (mkLed 1 ({[ip]} ∪ ∅) R ({[+ x +]} ⊎ Fi) Fr))).
  { fstep; fstep; done. }
  intros _ g2 Hg2. do 3 fstep. done.
Qed.

Lemma safe_make_node f R Fi Fr n path type mj mn : led f (mkLed 1 ∅ R Fi Fr) ->
  safe (make_node n path type mj mn) (fun _ f' => led f' (mkLed 0 ∅ R Fi Fr)) f.
Proof.
  intros H. unfold make_node, create. apply safe_bind.
  apply (safe_mono _ (fun r f' => led f' (if r =? 0 then mkLed 1 ∅ R Fi Fr else mkLed 1 ({[r]} ∪ ∅) ({[+ r +]} ⊎ R) Fi Fr))).
  { fstep; [by fstep|]. fstep. done. }
  intros r g Hg. fstep; [fstep; fstep; done|]. do 3 fstep. done.
Qed.
End calls.

(** ** Descriptors *)
Lemma refs_of_cons x l : refs_of (x :: l) = ref1 x ⊎ refs_of l.
Proof. done. Qed.

Lemma refs_of_insert l i x : (i < length l)%nat -> refs_of (<[i := x]> l) ⊎ ref1 (l !!! i) = refs_of l ⊎ ref1 x.
Proof.
  revert i. induction l as [|y l IH]; intros i Hi; [cbn in Hi; lia|]. destruct i as [|i].
  - change (refs_of (x :: l) ⊎ ref1 y = refs_of (y :: l) ⊎ ref1 x). rewrite !refs_of_cons. multiset_solver.
  - change (refs_of (y :: <[i := x]> l) ⊎ ref1 (l !!! i) = refs_of (y :: l) ⊎ ref1 x). rewrite !refs_of_cons.
    specialize (IH i ltac:(cbn in Hi; lia)). multiset_solver.
Qed.

Lemma refs_of_elem l i : (i < length l)%nat -> l !!! i <> 0 -> l !!! i ∈ refs_of l.
Proof.
  revert i. induction l as [|y l IH]; intros i Hi Hx; [cbn in Hi; lia|]. rewrite refs_of_cons. destruct i as [|i].
  - change (y ∈ ref1 y ⊎ refs_of l). change (y <> 0) in Hx. unfold ref1. rewrite (proj2 (Z.eqb_neq y 0)) by done.
    apply ms_in_l, ms_in_1.
  - apply ms_in_r, IH; [cbn in Hi; lia|done].
Qed.

Definition put_fd (fd : nat) (x : Z) (p : proc) : proc := set_ofile (<[fd := x]> (p_ofile (p_files p))) p.

Lemma filerefs_put p fd x : fds_ok p -> (fd < NOFILE)%nat ->
  p_filerefs (put_fd fd x p) ⊎ ref1 (p_ofile (p_files p) !!! fd) = ref1 x ⊎ p_filerefs p.
Proof.
  intros [Hn _] Hfd. unfold p_filerefs, put_fd, set_ofile, set_files. cbn [p_files p_ofile p_swap].
  pose proof (refs_of_insert (p_ofile (p_files p)) fd x ltac:(lia)). multiset_solver.
Qed.

(** A descriptor that gets the file [x], and one that loses it. *)
Lemma filerefs_new p fd x : fds_ok p -> (fd < NOFILE)%nat ->
  p_ofile (p_files p) !!! fd = 0 -> x <> 0 -> p_filerefs (put_fd fd x p) = {[+ x +]} ⊎ p_filerefs p.
Proof.
  intros Hn Hfd H0 Hx. pose proof (filerefs_put p fd x Hn Hfd) as H. rewrite H0 in H. unfold ref1 in H.
  rewrite (proj2 (Z.eqb_neq x 0)), Z.eqb_refl in H by done. multiset_solver.
Qed.

Lemma filerefs_old p fd x : fds_ok p -> (fd < NOFILE)%nat ->
  p_ofile (p_files p) !!! fd = x -> x <> 0 -> p_filerefs p = {[+ x +]} ⊎ p_filerefs (put_fd fd 0 p).
Proof.
  intros Hn Hfd H0 Hx. pose proof (filerefs_put p fd 0 Hn Hfd) as H. rewrite H0 in H. unfold ref1 in H.
  rewrite (proj2 (Z.eqb_neq x 0)), Z.eqb_refl in H by done. multiset_solver.
Qed.

Lemma refs_put p fd x : p_refs (put_fd fd x p) = p_refs p.
Proof. done. Qed.

Lemma put_fd_ok p fd x : fds_ok p -> fds_ok (put_fd fd x p).
Proof. intros [Hn Hc]. split; [|done]. cbn. by rewrite length_insert. Qed.

Section sys.
Context `{HL : Layout} {F : Type} `{FO : !FsOps F} `{PF : !ProcFs F} `{SF : !SysFs F} `{LL : !LedgerLaws F}
  `{FL : !FileCallLaws F} `{PO : !Policy}.

Lemma safe_fdalloc x (Q : Z -> kst F -> Prop) k : fds_ok (k_p k) -> Q (-1) k ->
  (forall fd, (fd < NOFILE)%nat -> p_ofile (p_files (k_p k)) !!! fd = 0 ->
     Q (Z.of_nat fd) (set_p (put_fd fd x (k_p k)) k)) -> safe (fdalloc x) Q k.
Proof.
  intros [Hn _] HQ1 HQ. unfold safe, fdalloc. rewrite bind_myproc. destruct (first_index _ _) as [fd|] eqn:E; [|done].
  apply first_index_Some in E as [(g & Hg & Hz) _]. apply HQ.
  - rewrite <- Hn. by eapply lookup_lt_Some.
  - apply list_lookup_total_correct in Hg. rewrite Hg. lia.
Qed.

(** A paging step in the middle of a call that holds [E]. *)
Lemma safe_paging {A} (m : M (kst F) A) (Q : A -> kst F -> Prop) k E : paging m -> bal k E -> l_locks E = ∅ -> (l_tx E < 2)%nat ->
  (forall a k', bal k' E -> same_files (k_p k) (k_p k') -> Q a k') -> safe m Q k.
Proof. intros Hm Hk Hl Ht HQ. eapply safe_mono; [by apply Hm|]. cbv beta. intros a k' [? ?]. by apply HQ. Qed.

Definition open_fd (k : kst F) (r : option (nat * Z)) : Prop :=
  match r with None => True | Some (fd, f) => (fd < NOFILE)%nat /\ p_ofile (p_files (k_p k)) !!! fd = f /\ f <> 0 end.

Lemma safe_argfd n k E : bal k E -> l_locks E = ∅ -> (l_tx E < 2)%nat ->
  safe (argfd n) (fun r k' => bal k' E /\ open_fd k' r) k.
Proof.
  intros Hk Hl Ht. unfold argfd. apply safe_bind. eapply (safe_paging _ _ _ E); [apply paging_argint|done..|].
  intros fd k1 Hk1 _. kstep. destruct (Z.ltb_spec fd 0); cbn [orb]; [by kstep|].
  destruct (Z.leb_spec (Z.of_nat NOFILE) fd); [by kstep|]. kstep. split; [done|].
  destruct (Z.eqb_spec (p_ofile (p_files (k_p k1)) !!! Z.to_nat fd) 0); [done|]. cbn. split; [lia|done].
Qed.

(** What a system call must do. *)
Definition keeps {A} (m : M (kst F) A) : Prop := forall k, bal k nothing -> safe m (fun _ k' => bal k' nothing) k.

Lemma keeps_fs {A} (m : M F A) : (forall f R Fi Fr, led f (mkLed 0 ∅ R Fi Fr) -> safe m (fun _ f' => led f' (mkLed 0 ∅ R Fi Fr)) f) ->
  keeps (fs m).
Proof.
  intros Hm k [Hk Hn]. apply safe_fs. eapply safe_mono; [by apply Hm|]. cbv beta. intros a f' Hf. by split.
Qed.

Lemma keeps_paging {A C} (m : M (kst F) A) (h : A -> M (kst F) C) : paging m -> (forall a, keeps (h a)) -> keeps (m ≫= h).
Proof.
  intros Hm Hh k Hk. apply safe_bind. eapply (safe_paging _ _ _ nothing); [done|done|done|cbn; lia|].
  intros a k' Hk' _. by apply Hh.
Qed.

Lemma keeps_ret {A} (a : A) : keeps (mret a).
Proof. intros k Hk. done. Qed.

Lemma put_ofile_modp fd x : @put_ofile F fd x = modp (put_fd fd x).
Proof. done. Qed.

Lemma keeps_sys_dup : keeps sys_dup.
Proof.
  intros k Hk. unfold sys_dup. apply safe_bind. eapply safe_mono; [by apply (safe_argfd 0 k nothing); [|done|cbn; lia]|].
  cbv beta. intros [[fd f]|] [pm p fs out] [[Hk1 Hn1] Hf]; [|by kstep]. destruct Hf as (Hfd & Hf & Hf0). kcbn. lcbn.
  apply safe_bind, safe_fdalloc; [done|by apply (safe_ret (-1))|]. kcbn. intros d Hd Hd0. destruct (Z.ltb_spec (Z.of_nat d) 0); [lia|].
  assert (f ∈ p_filerefs p) by (rewrite (filerefs_old p fd f) by done; apply ms_in_l, ms_in_1).
  kstep. kstep. split; kcbn; lcbn; [|by apply put_fd_ok]. rewrite refs_put, (filerefs_new p d) by done. lsame.
Qed.

Lemma keeps_sys_close : keeps sys_close.
Proof.
  intros k Hk. unfold sys_close. apply safe_bind. eapply safe_mono; [by apply (safe_argfd 0 k nothing); [|done|cbn; lia]|].
  cbv beta. intros [[fd f]|] [pm p fs out] [[Hk1 Hn1] Hf]; [|by kstep]. destruct Hf as (Hfd & Hf & Hf0). kcbn. lcbn.
  rewrite (filerefs_old p fd f) in Hk1 by done. rewrite put_ofile_modp. kstep.
  kstep; [by right; split; [|lia]|]. kstep. split; kcbn; lcbn; [|by apply put_fd_ok].
  rewrite refs_put. lsame.
Qed.

(** The calls that leave the work to file.c. *)
Lemma keeps_file_call (m : Z -> M (kst F) Z) :
  (forall k x, bal k nothing -> x ∈ p_filerefs (k_p k) -> safe (m x) (fun _ k' => bal k' nothing) k) ->
  keeps (r ← argfd 0; match r with None => mret (-1) | Some (_, f) => m f end).
Proof.
  intros Hm k Hk. apply safe_bind. eapply safe_mono; [by apply (safe_argfd 0 k nothing); [|done|cbn; lia]|].
  cbv beta. intros [[fd f]|] k1 [Hk1 Hf]; [|by kstep]. destruct Hf as (Hfd & Hf & Hf0). apply Hm; [done|].
  rewrite (filerefs_old (k_p k1) fd f); [apply ms_in_l, ms_in_1|apply Hk1|done|done|done].
Qed.

Lemma keeps_sys_read : keeps sys_read.
Proof.
  apply keeps_paging; [apply paging_argaddr|]. intros p. apply keeps_paging; [apply paging_argint|]. intros n.
  apply keeps_file_call. intros k x Hk Hx. by apply ok_fileread.
Qed.

Lemma keeps_sys_write : keeps sys_write.
Proof.
  apply keeps_paging; [apply paging_argaddr|]. intros p. apply keeps_paging; [apply paging_argint|]. intros n.
  apply keeps_file_call. intros k x Hk Hx. by apply ok_filewrite.
Qed.

Lemma keeps_sys_fstat : keeps sys_fstat.
Proof.
  apply keeps_paging; [apply paging_argaddr|]. intros p.
  apply keeps_file_call. intros k x Hk Hx. by apply ok_filestat.
Qed.

Lemma keeps_sys_link : keeps sys_link.
Proof.
  apply keeps_paging; [apply paging_argstr|]. intros [n old]. destruct (n <? 0); [apply keeps_ret|].
  apply keeps_paging; [apply paging_argstr|]. intros [n' new]. destruct (n' <? 0); [apply keeps_ret|].
  apply keeps_fs. intros. by apply safe_link.
Qed.

Lemma keeps_sys_unlink : keeps sys_unlink.
Proof.
  apply keeps_paging; [apply paging_argstr|]. intros [n path]. destruct (n <? 0); [apply keeps_ret|].
  apply keeps_fs. intros. by apply safe_unlink.
Qed.

(** The rest of a call, inside its transaction. *)
Definition in_op : ledger := mkLed 1 ∅ ∅ ∅ ∅.
Definition closes {A} (m : M (kst F) A) : Prop := forall k, bal k in_op -> safe m (fun _ k' => bal k' nothing) k.

Lemma keeps_begin {A} (m : M (kst F) A) : closes m -> keeps (_ ← fs begin_op; m).
Proof. intros Hm [pm p f out] [Hk Hn]. kcbn. lcbn. kstep. apply Hm. split; kcbn; lcbn; done. Qed.

Lemma closes_paging {A C} (m : M (kst F) A) (h : A -> M (kst F) C) : paging m -> (forall a, closes (h a)) -> closes (m ≫= h).
Proof.
  intros Hm Hh k Hk. apply safe_bind. eapply (safe_paging _ _ _ in_op); [done|done|done|cbn; lia|].
  intros a k' Hk' _. by apply Hh.
Qed.

Lemma closes_make_node n path type mj mn : closes (fs (make_node n path type mj mn)).
Proof.
  intros k [Hk Hn]. apply safe_fs. eapply safe_mono; [by apply safe_make_node|]. cbv beta. intros. by split.
Qed.

Lemma keeps_sys_mkdir : keeps sys_mkdir.
Proof. apply keeps_begin, closes_paging; [apply paging_argstr|]. intros [n path]. apply closes_make_node. Qed.

Lemma keeps_sys_mknod : keeps sys_mknod.
Proof.
  apply keeps_begin. do 2 (apply closes_paging; [apply paging_argint|]; intros ?).
  apply closes_paging; [apply paging_argstr|]. intros [n path]. apply closes_make_node.
Qed.

(** The working directory changes hands. *)
Lemma refs_cwd p : p_cwd (p_files p) <> 0 -> p_refs p = {[+ p_cwd (p_files p) +]} ⊎ ref1 (exec_ip (p_exec p)).
Proof. intros H. unfold p_refs, ref1. by rewrite (proj2 (Z.eqb_neq (p_cwd (p_files p)) 0)). Qed.

Lemma closes_chdir n path : closes (ip ← (if n <? 0 then mret 0 else fs (namei path));
  if ip =? 0 then _ ← fs end_op; mret (-1)
  else
    _ ← fs (ilock ip);
    t ← fs (i_type ip);
    if negb (t =? T_DIR) then _ ← fs (iunlockput ip); _ ← fs end_op; mret (-1)
    else
      _ ← fs (iunlock ip); p ← myproc; _ ← fs (iput (p_cwd (p_files p))); _ ← fs end_op; _ ← modp (set_cwd ip); mret 0).
Proof.
  intros [pm p f out] [Hk Hn]. unfold in_op in Hk. kcbn. lcbn. apply safe_bind.
  apply (safe_mono _ (fun r k' => k_p k' = p /\ led (k_fs k') (gained0 r (mkLed 1 ∅ (p_refs p ⊎ ∅) (p_filerefs p ⊎ ∅) ∅)))).
  { destruct (n <? 0); [kstep; done|]. kstep. done. }
  intros ip [pm1 p1 f1 out1] [Hp Hf]. kcbn. subst p1. kstep; [do 2 kstep; by split|]. kstep. kstep.
  destruct (negb _); [do 3 kstep; by split|]. kstep. kstep.
  match goal with H : led _ (mkLed 1 ∅ _ _ _) |- _ => rewrite (refs_cwd p (proj2 Hn)) in H end.
  kstep. kstep. kstep. kstep. split; kcbn; lcbn; [|split; [apply Hn|done]].
  rewrite refs_cwd by done. cbn [p_files p_cwd p_exec set_cwd set_files]. lsame.
Qed.

Lemma keeps_sys_chdir : keeps sys_chdir.
Proof. apply keeps_begin, closes_paging; [apply paging_argstr|]. intros [n path]. apply closes_chdir. Qed.

(** A test of the result -1. *)
Ltac neg1 := cbv beta; change (-1 <? 0) with true; cbv iota; cbn [negb].

(** The locked inode [ip] of an open call, with nothing else held. *)
Definition opening (ip : Z) : ledger := mkLed 1 ({[ip]} ∪ ∅) {[+ ip +]} ∅ ∅.

Lemma safe_open_rest ip omode k : bal k (opening ip) ->
  safe (f ← fs filealloc;
        fd ← (if f =? 0 then mret (-1) else fdalloc f);
        if fd <? 0 then
          _ ← (if negb (f =? 0) then fs (fileclose f) else mret tt);
          _ ← fs (iunlockput ip); _ ← fs end_op; mret (-1)
        else fs (open_file_as ip f fd omode)) (fun _ k' => bal k' nothing) k.
Proof.
  destruct k as [pm p f out]. intros [Hk Hn]. unfold opening in Hk. kcbn. lcbn.
  rewrite (comm_L (⊎) (p_refs p)) in Hk. kstep. apply safe_bind. kstep.
  { kstep. neg1. kstep. kstep. kstep. kstep. kstep. split; kcbn; lcbn; [lsame|done]. }
  apply safe_fdalloc; [done| |].
  { neg1. kstep; [left; lside|]. kstep. kstep. kstep. split; kcbn; lcbn; [lsame|done]. }
  kcbn. intros fd Hfd Hfd0. destruct (Z.ltb_spec (Z.of_nat fd) 0); [lia|].
  apply safe_fs. kcbn. eapply safe_mono; [eapply safe_open_file_as; [|eassumption]; set_solver|].
  cbv beta. intros r f' [_ Hf]. split; kcbn; lcbn; [|by apply put_fd_ok]. rewrite refs_put, (filerefs_new p fd) by done. lsame.
Qed.

Lemma keeps_sys_open : keeps sys_open.
Proof.
  apply keeps_paging; [apply paging_argint|]. intros omode. apply keeps_paging; [apply paging_argstr|]. intros [n path].
  destruct (n <? 0); [apply keeps_ret|]. apply keeps_begin. intros [pm p f out] [Hk Hn]. unfold in_op in Hk. kcbn. lcbn.
  apply safe_bind, safe_fs. kcbn. eapply safe_mono; [eapply safe_open_inode; eassumption|].
  cbv beta. intros ip f1 Hf1. kcbn. kstep; [kstep; by split|]. kstep. kstep. kstep.
  - kstep. kstep. kstep. split; kcbn; lcbn; [lsame|done].
  - apply (safe_open_rest ip omode). split; kcbn; unfold opening; lcbn; [lsame|done].
Qed.

(** Two descriptors are taken back. *)
Lemma safe_pipe_undo d0 d1 rf wf k : bal k nothing -> d0 <> d1 -> rf <> 0 -> wf <> 0 -> (d0 < NOFILE)%nat -> (d1 < NOFILE)%nat ->
  p_ofile (p_files (k_p k)) !!! d0 = rf -> p_ofile (p_files (k_p k)) !!! d1 = wf ->
  safe (_ ← put_ofile d0 0; _ ← put_ofile d1 0; _ ← fs (fileclose rf); _ ← fs (fileclose wf); mret (-1))
    (fun _ k' => bal k' nothing) k.
Proof.
  destruct k as [pm p f out]. intros [Hk Hn] Hd Hr Hw H0 H1 E0 E1. kcbn. lcbn. rewrite !put_ofile_modp. kstep. kstep.
  pose proof (put_fd_ok p d0 0 Hn) as Hn0.
  assert (E1' : p_ofile (p_files (put_fd d0 0 p)) !!! d1 = wf) by (cbn; by rewrite list_lookup_total_insert_ne).
  rewrite (filerefs_old p d0 rf Hn H0 E0 Hr), (filerefs_old _ d1 wf Hn0 H1 E1' Hw), <- !(assoc_L (⊎)) in Hk.
  clear E0 E1 E1'. kstep; [by right; split; [|lia]|]. kstep; [by right; split; [|lia]|]. kstep. split; kcbn; lcbn; [|by apply put_fd_ok].
  rewrite !refs_put. lsame.
Qed.

Lemma safe_pipe_copy (d0 d1 : nat) a rf wf k : bal k nothing -> d0 <> d1 -> rf <> 0 -> wf <> 0 -> (d0 < NOFILE)%nat -> (d1 < NOFILE)%nat ->
  p_ofile (p_files (k_p k)) !!! d0 = rf -> p_ofile (p_files (k_p k)) !!! d1 = wf ->
  safe (p ← myproc;
        r0 ← copyout (pagetable p) a (le_bytes 4 (Z.of_nat d0));
        r1 ← (if r0 <? 0 then mret (-1) else copyout (pagetable p) (u64 (a + 4)) (le_bytes 4 (Z.of_nat d1)));
        if r1 <? 0 then
          _ ← put_ofile (Z.to_nat (Z.of_nat d0)) 0; _ ← put_ofile (Z.to_nat (Z.of_nat d1)) 0; _ ← fs (fileclose rf); _ ← fs (fileclose wf); mret (-1)
        else mret 0) (fun _ k' => bal k' nothing) k.
Proof.
  intros Hk Hd Hr Hw H0 H1 E0 E1. kstep. apply safe_bind. eapply (safe_paging _ _ _ nothing); [apply paging_copyout|done|done|cbn; lia|].
  intros r0 k1 Hk1 S1. apply safe_bind. eapply (safe_paging _ _ _ nothing); [|done|done|cbn; lia|].
  { destruct (r0 <? 0); [apply paging_ret|apply paging_copyout]. }
  intros r1 k2 Hk2 S2. rewrite !Nat2Z.id. destruct (r1 <? 0); [|by kstep].
  apply safe_pipe_undo; try done; rewrite (proj1 S2), (proj1 S1); done.
Qed.

Lemma keeps_sys_pipe : keeps sys_pipe.
Proof.
  apply keeps_paging; [apply paging_argaddr|]. intros a [pm p f out] [Hk Hn]. kcbn. lcbn.
  apply safe_bind, safe_fs. kcbn. eapply safe_mono; [eapply ok_pipealloc; eassumption|].
  cbv beta. intros [rf wf] f1 Hf1. kcbn. lcbn. kstep; [kstep; by split|]. destruct Hf1 as [Hw Hf1].
  apply safe_bind, safe_fdalloc; [done| |].
  { neg1. kstep. kstep. neg1. change (0 <=? -1) with false. cbn [orb]. kstep. kstep. kstep; [by right; split; [|lia]|].
    kstep; [by right; split; [|lia]|]. kstep. split; kcbn; lcbn; [lsame|done]. }
  kcbn. intros d0 H0 Z0. destruct (Z.ltb_spec (Z.of_nat d0) 0); [lia|]. cbn [orb].
  pose proof (put_fd_ok p d0 rf Hn) as Hn0.
  assert (E0 : p_ofile (p_files (put_fd d0 rf p)) !!! d0 = rf).
  { cbn. apply list_lookup_total_insert_eq. rewrite (proj1 Hn). done. }
  apply safe_bind, safe_fdalloc; [done| |].
  { neg1. destruct (Z.leb_spec 0 (Z.of_nat d0)); [|lia]. rewrite Nat2Z.id, put_ofile_modp. kstep.
    pose proof (filerefs_old _ d0 rf Hn0 H0 E0 ltac:(done)) as Hold. rewrite (filerefs_new p d0 rf Hn H0 Z0 ltac:(done)) in Hold.
    clear E0. kstep; [by right; split; [|lia]|]. kstep; [by right; split; [|lia]|]. kstep.
    split; kcbn; lcbn; [|by apply put_fd_ok]. rewrite !refs_put.
    replace (p_filerefs (put_fd d0 0 (put_fd d0 rf p))) with (p_filerefs p) by multiset_solver. lsame. }
  kcbn. intros d1 H1 Z1. destruct (Z.ltb_spec (Z.of_nat d1) 0); [lia|].
  assert (Hd : d0 <> d1) by (intros ->; congruence).
  apply safe_pipe_copy; kcbn; try done.
  - split; kcbn; lcbn; [|by apply put_fd_ok]. rewrite !refs_put.
    rewrite (filerefs_new _ d1 wf), (filerefs_new p d0 rf) by done. lsame.
  - cbn. rewrite list_lookup_total_insert_ne by done. done.
  - cbn. apply list_lookup_total_insert_eq. rewrite length_insert, (proj1 Hn). done.
Qed.
End sys.
