(* ===== verification/LedgerExec.v ===== *)
(** The discipline of [Ledger] in exec.c: two places where [kexec] departs from
    it, a lock taken twice and a reference that is never put. *)
From stdpp Require Import gmultiset.
From S2P Require Import Prelude Riscv PhysMem Kalloc PageTable Memstat Proc FsIface Swap VmFault Bytes ProcTable Syscall Exec SysFile Ledger LedgerVm LedgerSys.

Section exec.
Context `{HL : Layout} {F : Type} `{FO : !FsOps F} `{PF : !ProcFs F} `{SF : !SysFs F} `{LL : !LedgerLaws F} `{PO : !Policy}.

Lemma paging_push_args pt sb argv : forall argc sp us, paging (push_args pt sb argv argc sp us).
Proof.
  induction argv as [|a argv IH]; intros; cbn [push_args]; [apply paging_ret|]. cbv zeta.
  destruct (_ <=? _); [apply paging_ret|]. destruct (_ <? _); [apply paging_ret|].
  apply paging_bind; [apply paging_copyout|]. intros rc. destruct (rc <? 0); [apply paging_ret|apply IH].
Qed.

Lemma paging_push_ustack pt sb sp us : paging (push_ustack pt sb sp us).
Proof.
  unfold push_ustack. cbv zeta. destruct (_ <? _); [apply paging_ret|].
  apply paging_bind; [apply paging_copyout|]. intros. apply paging_ret.
Qed.

(** The executable open and unlocked, in the transaction of the call. *)
Definition executing (ip : Z) : ledger := mkLed 1 ∅ {[+ ip +]} ∅ ∅.

(** What the process holds after the call: the executable it had before is still
    referenced, and no longer by the process. *)
Definition exec_result (old : Z) (r : Z) (k : kst F) : Prop :=
  (r = -1 /\ bal k nothing) \/ bal k (mkLed 0 ∅ (ref1 old) ∅ ∅).

Lemma safe_exec_bad pt n ip k : ip <> 0 -> bal k (executing ip) -> safe (exec_bad pt n ip) (fun r k' => r = -1 /\ bal k' nothing) k.
Proof.
  intros Hip Hk. unfold exec_bad. apply safe_bind. eapply (safe_paging _ _ _ (executing ip)); [|done|done|cbn; lia|].
  { destruct (negb _); [apply paging_vm, tame_proc_freepagetable|apply paging_ret]. }
  intros _ [pm p f out] [Hk1 Hn] _. unfold executing in Hk1. kcbn. lcbn. apply safe_bind. rewrite (proj2 (Z.eqb_neq ip 0)) by done. cbn [negb].
  kstep. kstep. kstep. kstep. split; [done|]. split; kcbn; lcbn; [lsame|done].
Qed.

(** Code that changes neither the ledger nor the executable. *)
Definition steady {A} (m : M (kst F) A) : Prop := forall k E, bal k E -> l_locks E = ∅ -> (l_tx E < 2)%nat ->
  safe m (fun _ k' => bal k' E /\ exec_ip (p_exec (k_p k')) = exec_ip (p_exec (k_p k))) k.

Lemma steady_paging {A} (m : M (kst F) A) : paging m -> steady m.
Proof.
  intros Hm k E Hk Hl Ht. eapply safe_mono; [by apply Hm|]. cbv beta. intros a k' [H1 S]. split; [done|].
  by rewrite (proj1 (proj2 S)).
Qed.

Lemma steady_modp h : (forall p, p_ofile (p_files (h p)) = p_ofile (p_files p) /\ p_cwd (p_files (h p)) = p_cwd (p_files p) /\
  exec_ip (p_exec (h p)) = exec_ip (p_exec p) /\ p_swap (h p) = p_swap p) -> steady (modp h).
Proof.
  intros Hh k E [Hk [Hn Hc]] _ _. destruct (Hh (k_p k)) as (H1 & H2 & H3 & H4). split; [|done]. split; kcbn.
  - replace (with_proc (h (k_p k)) E) with (with_proc (k_p k) E); [done|].
    unfold with_proc, p_refs, p_filerefs. by rewrite H1, H2, H3, H4.
  - split; congruence.
Qed.

Lemma safe_steady {A C} (m : M (kst F) A) (h : A -> M (kst F) C) Q old k E : steady m -> bal k E -> l_locks E = ∅ -> (l_tx E < 2)%nat ->
  exec_ip (p_exec (k_p k)) = old ->
  (forall a k', bal k' E -> exec_ip (p_exec (k_p k')) = old -> safe (h a) Q k') -> safe (m ≫= h) Q k.
Proof.
  intros Hm Hk Hl Ht Ho HQ. apply safe_bind. eapply safe_mono; [by apply Hm|]. cbv beta. intros a k' [H1 H2].
  apply HQ; [done|]. congruence.
Qed.

Ltac quiet_step E := eapply (safe_steady _ _ _ _ _ E); [|eassumption|reflexivity|cbn; lia|eassumption|intros ? ? ? ?];
  [first [apply steady_paging; eauto with paging; fail
         | apply steady_paging, paging_tf_put
         | apply steady_paging, paging_myproc
         | apply steady_paging, paging_printf
         | apply steady_paging, paging_vm; solve_tame
         | by apply steady_modp]|].

(** The new executable replaces the old one, which is not put. *)
Lemma safe_exec_swap {C} (h : M (kst F) C) Q ip old k : bal k (executing ip) -> exec_ip (p_exec (k_p k)) = old -> ip <> 0 ->
  (forall k', bal k' (mkLed 0 ∅ (ref1 old) ∅ ∅) -> safe h Q k') ->
  safe (_ ← fs (ilock ip); ip' ← fs (idup ip); _ ← modp (set_exec_ip ip'); _ ← fs (iunlockput ip); _ ← fs end_op; h) Q k.
Proof.
  destruct k as [pm p f out]. intros [Hk Hn] Ho Hip HQ. unfold executing in Hk. kcbn. lcbn.
  kstep. kstep. kstep. kstep. kstep. apply HQ. split; kcbn; lcbn; [|done].
  replace (p_refs (set_exec_ip ip p) ⊎ ref1 (exec_ip (p_exec p))) with (p_refs p ⊎ {[+ ip +]}); [done|].
  unfold p_refs. cbn [p_files p_exec set_exec_ip set_exec exec_ip]. unfold ref1 at 4.
  rewrite (proj2 (Z.eqb_neq ip 0)) by done. multiset_solver.
Qed.

Lemma safe_exec_commit path ip pt n sp entry argc im old k : ip <> 0 -> bal k (executing ip) -> exec_ip (p_exec (k_p k)) = old ->
  safe (exec_commit path ip pt n sp entry argc im) (fun _ k' => bal k' (mkLed 0 ∅ (ref1 old) ∅ ∅)) k.
Proof.
  intros Hip Hk Ho. unfold exec_commit. do 8 quiet_step (executing ip).
  apply (safe_exec_swap _ _ ip old); [done|done|done|]. intros k1 Hk1.
  assert (Hpaging : paging (p ← myproc; _ ← printf (EvLazymap (text_start (p_exec p)) (text_end (p_exec p)) (data_start (p_exec p))
     (data_end (p_exec p)) (heap_start (p_exec p)) (stack_top (p_exec p))); r ← swapfile_create; _ ← printf (EvSwapfile (r =? 0)); mret (i32 argc))).
  { repeat (apply paging_bind; [first [apply paging_myproc | apply paging_printf | apply paging_swapfile_create]|intros]). apply paging_ret. }
  eapply (safe_paging _ _ _ (mkLed 0 ∅ (ref1 old) ∅ ∅)); [exact Hpaging|done|done|cbn; lia|done].
Qed.

Lemma safe_exec_stack path argv ip pt entry im k : ip <> 0 -> bal k (executing ip) ->
  safe (exec_stack path argv ip pt entry im) (exec_result (exec_ip (p_exec (k_p k)))) k.
Proof.
  intros Hip Hk. remember (exec_ip (p_exec (k_p k))) as old eqn:Ho. symmetry in Ho. unfold exec_stack. cbv zeta.
  assert (Hbad : forall q n k, bal k (executing ip) -> safe (exec_bad q n ip) (exec_result old) k).
  { intros q n k0 Hk0. eapply safe_mono; [by apply safe_exec_bad|]. intros r k1 Hr. by left. }
  quiet_step (executing ip). destruct (_ =? 0); [by apply Hbad|]. quiet_step (executing ip).
  eapply (safe_steady _ _ _ _ _ (executing ip)); [apply steady_paging, paging_push_args|eassumption|done|cbn; lia|eassumption|].
  intros [[sp us]|] k2 Hk2 Ho2; [|by apply Hbad].
  eapply (safe_steady _ _ _ _ _ (executing ip)); [apply steady_paging, paging_push_ustack|eassumption|done|cbn; lia|eassumption|].
  intros [sp'|] k3 Hk3 Ho3; [|by apply Hbad]. eapply safe_mono; [by apply safe_exec_commit|]. intros r k4 Hr. by right.
Qed.

(** ** The whole call *)
(** Like [safe], for code that may wait. *)
Definition ends {A} (m : M (kst F) A) (Q : A -> kst F -> Prop) (B : kst F -> Prop) (k : kst F) : Prop :=
  match m k with Ret a k' => Q a k' | Panic e => misuse e = false | Block _ k' => B k' | Diverge => True end.

Lemma ends_bind {A C} (m : M (kst F) A) (h : A -> M (kst F) C) Q B k : safe m (fun a => ends (h a) Q B) k -> ends (m ≫= h) Q B k.
Proof. unfold safe, ends, mbind, M_bind. by destruct (m k). Qed.

Lemma ends_safe {A} (m : M (kst F) A) Q B k : safe m Q k -> ends m Q B k.
Proof. unfold safe, ends. by destruct (m k). Qed.

(** Waiting for the lock of [ip] while holding it. *)
Definition self_lock (k : kst F) : Prop := exists ip, bal k (mkLed 1 ({[ip]} ∪ ∅) {[+ ip +]} ∅ ∅).

Lemma ends_exec_bad pt n ip Q k : ip <> 0 -> bal k (mkLed 1 ({[ip]} ∪ ∅) {[+ ip +]} ∅ ∅) -> ends (exec_bad pt n ip) Q self_lock k.
Proof.
  intros Hip Hk. unfold exec_bad. apply ends_bind.
  assert (Hfree : safe (if negb (pt =? 0) then vm (proc_freepagetable pt n) else mret tt)
    (fun _ k' => bal k' (mkLed 1 ({[ip]} ∪ ∅) {[+ ip +]} ∅ ∅)) k).
  { destruct (negb _); [apply safe_vm; [apply tame_proc_freepagetable|done]|done]. }
  eapply safe_mono; [exact Hfree|]. cbv beta. intros _ [pm p f out] [Hk1 Hn]. rewrite (proj2 (Z.eqb_neq ip 0)) by done. cbn [negb].
  destruct (ilock_twice f _ ip Hk1) as [c Hc]; [lcbn; kcbn; set_solver|].
  unfold ends, mbind, M_bind, fs at 1, zoom. kcbn. rewrite Hc. exists ip. by split.
Qed.

(** The file is an executable. *)
Definition is_elf (bs : list Z) : bool :=
  (Z.of_nat (length bs) =? sizeof_elfhdr) && (elf_magic (get_elfhdr bs) =? ELF_MAGIC).

Lemma safe_read_segments n f L ip off im : led f L -> ip ∈ l_locks L -> safe (read_segments n ip off im) (fun _ f' => led f' L) f.
Proof.
  revert f off im. induction n as [|n IH]; intros f off im H Hl; cbn [read_segments]; [done|].
  fstep. fstep; [by fstep|]. cbv zeta. fstep; [by apply IH|]. fstep; [by fstep|by apply IH].
Qed.

(** C21: a run of [kexec] ends in one of three ways: it returns -1
    and holds nothing more than before; it returns with the new image, and the
    reference to the executable of the old image is left over; or it waits for
    ever for the lock of the new executable, which it holds itself. *)
Theorem kexec_outcomes path argv k : bal k nothing ->
  ends (kexec path argv) (exec_result (exec_ip (p_exec (k_p k)))) self_lock k.
Proof.
  destruct k as [pm p f out]. intros [Hk Hn]. kcbn. lcbn. unfold kexec. apply ends_bind. kcall. apply ends_bind. kcall.
  destruct (Z.eqb_spec a0 0); subst; lnorm; cbn [Z.eqb].
  { apply ends_safe. kstep. kstep. left. split; [done|]. split; done. }
  apply ends_bind. kcall. apply ends_bind. kcall.
  assert (Hbad : forall pt n k0, k_p k0 = p -> led (k_fs k0) (mkLed 1 ({[a0]} ∪ ∅) ({[+ a0 +]} ⊎ (p_refs p ⊎ ∅)) (p_filerefs p ⊎ ∅) ∅) ->
    ends (exec_bad pt n a0) (exec_result (exec_ip (p_exec p))) self_lock k0).
  { intros pt n0 k0 Hp Hl. apply ends_exec_bad; [done|]. split; rewrite Hp; [|done]. lcbn. lsame. }
  destruct (negb _); [by apply Hbad|]. destruct (negb _); [by apply Hbad|]. apply ends_bind, safe_gets. kcbn.
  apply ends_bind, safe_vm; [apply tame_proc_pagetable|]. intros pt pm'. kcbn. destruct (pt =? 0); [by apply Hbad|].
  apply ends_bind, safe_fs. kcbn. eapply safe_mono; [eapply safe_read_segments; [eassumption|lside]|].
  cbv beta. intros [ok im] f5 H5. destruct ok; cbn [negb]; [|by apply Hbad].
  apply ends_safe. kstep. eapply safe_mono; [apply safe_exec_stack; [done|]|done].
  split; kcbn; unfold executing; lcbn; [lsame|done].
Qed.

(** What [kexec] does with a file that is no executable. *)
Lemma kexec_no_elf path argv k f1 f2 f3 f4 ip bs : bal k nothing ->
  begin_op (k_fs k) = Ret tt f1 -> namei path f1 = Ret ip f2 -> ip <> 0 -> ilock ip f2 = Ret tt f3 ->
  readi ip 0 sizeof_elfhdr f3 = Ret bs f4 -> is_elf bs = false ->
  kexec path argv k = exec_bad 0 0 ip (set_fs f4 (set_fs f3 (set_fs f2 (set_fs f1 k)))) /\
  led f4 (mkLed 1 ({[ip]} ∪ ∅) ({[+ ip +]} ⊎ (p_refs (k_p k) ⊎ ∅)) (p_filerefs (k_p k) ⊎ ∅) ∅).
Proof.
  destruct k as [pm p f out]. intros [Hk Hn] E1 E2 Hip E3 E4 Hb. kcbn. lcbn. split.
  - unfold kexec. erewrite bind_Ret by (apply fs_Ret; exact E1). erewrite bind_Ret by (apply fs_Ret; exact E2).
    rewrite (proj2 (Z.eqb_neq ip 0)) by done. erewrite bind_Ret by (apply fs_Ret; exact E3).
    erewrite bind_Ret by (apply fs_Ret; exact E4). kcbn. unfold is_elf in Hb. destruct (Z.of_nat (length bs) =? sizeof_elfhdr); [|done].
    cbn [andb negb] in *. by rewrite Hb.
  - pose proof (ok_begin f _ Hk ltac:(cbn; lia)) as S1. unfold safe in S1. rewrite E1 in S1. lcbn.
    pose proof (ok_namei f1 _ path S1 eq_refl ltac:(cbn; lia)) as S2. unfold safe in S2. rewrite E2 in S2. lnorm.
    assert (S3 : safe (ilock ip) (fun _ f' => led f' (locked ip (mkLed 1 ∅ ({[+ ip +]} ⊎ (p_refs p ⊎ ∅)) (p_filerefs p ⊎ ∅) ∅))) f2) by fcall.
    unfold safe in S3. rewrite E3 in S3. lcbn.
    assert (S4 : safe (readi ip 0 sizeof_elfhdr) (fun _ f' => led f' (mkLed 1 ({[ip]} ∪ ∅) ({[+ ip +]} ⊎ (p_refs p ⊎ ∅)) (p_filerefs p ⊎ ∅) ∅)) f3) by fcall.
    unfold safe in S4. by rewrite E4 in S4.
Qed.

(** C22: [exec] of a file that is not an executable never returns: the
    error path locks the file's inode again while the call holds its lock, in an
    open transaction. *)
Theorem kexec_hangs path argv k f1 f2 f3 f4 ip bs : bal k nothing ->
  begin_op (k_fs k) = Ret tt f1 -> namei path f1 = Ret ip f2 -> ip <> 0 -> ilock ip f2 = Ret tt f3 ->
  readi ip 0 sizeof_elfhdr f3 = Ret bs f4 -> is_elf bs = false ->
  exists c k', kexec path argv k = Block c k' /\ self_lock k'.
Proof.
  intros Hk E1 E2 Hip E3 E4 Hb. destruct (kexec_no_elf path argv k f1 f2 f3 f4 ip bs Hk E1 E2 Hip E3 E4 Hb) as [-> Hl].
  unfold exec_bad. cbn [Z.eqb negb]. rewrite bind_mret. rewrite (proj2 (Z.eqb_neq ip 0)) by done. cbn [negb].
  destruct (ilock_twice f4 _ ip Hl) as [c Hc]; [lcbn; set_solver|].
  exists c, (set_fs f4 (set_fs f4 (set_fs f3 (set_fs f2 (set_fs f1 k))))). split.
  - apply bind_Block. apply bind_Block. unfold fs, zoom. kcbn. by rewrite Hc.
  - exists ip. destruct k as [pm p f out]. destruct Hk as [_ Hn]. split; kcbn; lcbn; [lsame|done].
Qed.
End exec.
