(* ===== verification/Monitor.v ===== *)
(** The discipline as an automaton: an implementation of the file-system
    interface that checks every call against the ledger.

    Its answers - which inode a path names, what a file contains, whether there
    is room - come from a stream, so that a theorem about all streams is about
    every behaviour of the file system.  A call against the rules ends in a panic;
    locking an inode twice waits, as it does in the kernel. *)
From stdpp Require Import gmultiset.
From S2P Require Import Prelude Riscv PhysMem Kalloc PageTable Memstat Proc FsIface Swap VmFault Bytes ProcTable Syscall Exec SysFile Ledger LedgerVm LedgerSys LedgerExec.

Record mon : Type := mkMon { m_led : ledger; m_pin : option Z; m_ora : nat -> Z * list Z; m_tick : nat }.

(** The next answer. *)
Definition draw : M mon (Z * list Z) := fun m =>
  Ret (m_ora m (m_tick m)) (mkMon (m_led m) (m_pin m) (m_ora m) (S (m_tick m))).
(** A call that is allowed when [P], and its effect. *)
Definition obey (P : bool) (g : ledger -> ledger) : M mon unit := fun m =>
  if P then Ret tt (mkMon (g (m_led m)) (m_pin m) (m_ora m) (m_tick m)) else Panic "protocol".
Definition the (g : ledger -> bool) : M mon bool := gets (fun m => g (m_led m)).

Definition has_ref (ip : Z) (L : ledger) : bool := bool_decide (ip ∈ l_refs L).
Definition has_lock (ip : Z) (L : ledger) : bool := bool_decide (ip ∈ l_locks L).
Definition in_tx (L : ledger) : bool := (0 <? l_tx L)%nat.
Definition no_locks (L : ledger) : bool := bool_decide (l_locks L = ∅).
Definition has_file (x : Z) (L : ledger) : bool := bool_decide (x ∈ l_files L).
Definition is_fresh (x : Z) (L : ledger) : bool := bool_decide (x ∈ l_fresh L).

(** A call that changes nothing, and an answer. *)
Definition ask {A} (P : ledger -> bool) (answer : Z * list Z -> A) : M mon A :=
  b ← the P; _ ← obey b id; r ← draw; mret (answer r).
Definition tell (P : ledger -> bool) (g : ledger -> ledger) : M mon unit := b ← the P; obey b g.

(** An answer that the environment can give. *)
Definition allowed (P : Z -> ledger -> bool) (r : Z) : M mon Z := b ← the (P r); mret (if (b : bool) then r else 0).
Definition gain (r : Z) : M mon Z := _ ← obey true (gained0 r); mret r.

#[export] Instance mon_ops : FsOps mon := {
  begin_op := tell (fun L => (l_tx L <? 2)%nat) tx_up;
  end_op := tell in_tx tx_down;
  ilock := fun ip m =>
    if has_lock ip (m_led m) then Block "inode" m
    else tell (fun L => has_ref ip L || bool_decide (m_pin m = Some ip)) (locked ip) m;
  iunlock := fun ip => tell (has_lock ip) (unlocked ip);
  iunlockput := fun ip => tell (fun L => has_lock ip L && has_ref ip L && in_tx L) (fun L => dropped ip (unlocked ip L));
  iupdate := fun ip => tell (fun L => has_lock ip L && in_tx L) id;
  readi := fun ip _ _ => ask (has_lock ip) snd;
  writei := fun ip _ _ => ask (fun L => has_lock ip L && in_tx L) fst;
  nameiparent := fun _ =>
    r ← ask (fun L => no_locks L && in_tx L) id; dp ← gain (fst r); mret (dp, snd r);
  dirlookup := fun dp name =>
    r ← ask (has_lock dp) id;
    ip ← allowed (fun ip L => is_dot name || negb (has_lock ip L)) (fst r);
    ip ← gain ip; mret (ip, 0);
  dirlink := fun dp _ _ => ask (fun L => has_lock dp L && in_tx L) fst;
  ialloc := fun _ _ => r ← ask in_tx fst; r ← allowed (fun ip L => negb (has_lock ip L)) r; gain r;
  FsIface.i_dev := fun _ => ask (fun _ => true) fst;
  FsIface.i_inum := fun _ => ask (fun _ => true) fst;
  i_type := fun _ => ask (fun _ => true) fst;
  i_nlink := fun _ => ask (fun _ => true) fst;
  set_major_minor := fun ip _ _ => tell (has_lock ip) id;
  set_nlink := fun ip _ => tell (has_lock ip) id;
  filealloc := r ← ask (fun _ => true) fst;
    r ← allowed (fun x L => negb (is_fresh x L)) r;
    _ ← obey true (fun L => if r =? 0 then L else freshened r (fgained r L)); mret r;
  file_open := fun x ip _ _ => tell (fun L => has_file x L && is_fresh x L && has_ref ip L) (fun L => opened x (dropped ip L));
  file_ip := fun x => ip ← ask (has_file x) fst; _ ← modS (fun m => mkMon (m_led m) (Some ip) (m_ora m) (m_tick m)); mret ip;
  fileclose := fun x => tell (fun L => has_file x L && (is_fresh x L || (no_locks L && (l_tx L <? 2)%nat))) (fdropped x)
}.

#[export] Instance mon_procfs : ProcFs mon := {
  idup := fun ip => _ ← tell (has_ref ip) (gained ip); mret ip;
  iput := fun ip => tell (fun L => has_ref ip L && negb (has_lock ip L) && in_tx L) (dropped ip);
  filedup := fun x => _ ← tell (has_file x) (fgained x); mret x;
  namei := fun _ => r ← ask (fun L => no_locks L && in_tx L) fst; gain r
}.

(** A call of file.c that copies user memory: no lock, no transaction. *)
Definition file_call (x : Z) : M (kst mon) Z :=
  fs (ask (fun L => has_file x L && no_locks L && (l_tx L =? 0)%nat) fst).

#[export] Instance mon_sysfs : SysFs mon := {
  i_major := fun _ => ask (fun _ => true) fst;
  i_size := fun _ => ask (fun _ => true) fst;
  itrunc := fun ip => tell (fun L => has_lock ip L && in_tx L) id;
  file_dev := fun x ip _ _ _ => tell (fun L => has_file x L && is_fresh x L && has_ref ip L) (fun L => opened x (dropped ip L));
  pipealloc := r ← ask (fun _ => true) fst; w ← ask (fun _ => true) fst;
    if (r =? 0) || (w =? 0) then mret (0, 0)
    else _ ← obey true (fun L => fgained r (fgained w L)); mret (r, w);
  fileread := fun x _ _ => file_call x;
  filewrite := fun x _ _ => file_call x;
  filestat := fun x _ => file_call x
}.

(** ** The monitor keeps the rules it checks *)
Lemma mon_tell P g m L : m_led m = L -> P L = true -> safe (tell P g) (fun _ m' => m_led m' = g L) m.
Proof. intros <- HP. unfold safe, tell, the, obey, gets, mbind, M_bind. by rewrite HP. Qed.

Lemma mon_ask {A} P (h : Z * list Z -> A) m L : m_led m = L -> P L = true -> safe (ask P h) (fun _ m' => m_led m' = L) m.
Proof. intros <- HP. unfold safe, ask, the, obey, draw, gets, mbind, M_bind. by rewrite HP. Qed.

Lemma mon_allowed P r m L : m_led m = L ->
  safe (allowed P r) (fun x m' => m_led m' = L /\ (x <> 0 -> P x L = true)) m.
Proof. intros <-. unfold safe, allowed, the, gets, mbind, M_bind, mret, M_ret. destruct (P r (m_led m)) eqn:E; naive_solver. Qed.

Lemma mon_gain r m L : m_led m = L -> safe (gain r) (fun x m' => x = r /\ m_led m' = gained0 r L) m.
Proof. by intros <-. Qed.

Ltac mon_true :=
  unfold has_ref, has_lock, in_tx, no_locks, has_file, is_fresh in *;
  repeat match goal with
  | H : ?P |- context [bool_decide ?P] => rewrite (bool_decide_eq_true_2 P H)
  | H : ~ ?P |- context [bool_decide ?P] => rewrite (bool_decide_eq_false_2 P H)
  | H : (?a < ?b)%nat |- context [(?a <? ?b)%nat] => rewrite (proj2 (Nat.ltb_lt a b) H)
  end; cbn [andb orb negb]; try done.

Ltac mon_step :=
  lazymatch goal with
  | |- safe (_ ≫= _) _ _ => apply safe_bind; eapply safe_mono; [mon_step|]; cbv beta; intros; destruct_and?; subst
  | |- safe (tell _ _) _ _ => eapply mon_tell; [done|mon_true]
  | |- safe (ask _ _) _ _ => eapply mon_ask; [done|mon_true]
  | |- safe (allowed _ _) _ _ => eapply mon_allowed; done
  | |- safe (gain _) _ _ => eapply mon_gain; done
  end.

Ltac mon_open := cbv beta iota delta [begin_op end_op ilock iunlock iunlockput iupdate readi writei nameiparent dirlookup dirlink
  ialloc FsIface.i_dev FsIface.i_inum i_type i_nlink set_major_minor set_nlink filealloc file_open file_ip fileclose mon_ops
  idup iput filedup namei mon_procfs i_major i_size itrunc file_dev pipealloc mon_sysfs].

Ltac mon_eq := repeat match goal with H : m_led _ = _ |- _ => rewrite H; clear H end; try done.

Lemma not_locked ip L : negb (has_lock ip L) = true -> ip ∉ l_locks L.
Proof. unfold has_lock. intros H. by apply negb_true_iff, bool_decide_eq_false in H. Qed.

Lemma not_fresh x L : negb (is_fresh x L) = true -> x ∉ l_fresh L.
Proof. unfold is_fresh. intros H. by apply negb_true_iff, bool_decide_eq_false in H. Qed.

#[export] Instance mon_laws : LedgerLaws mon.
Proof.
  refine {| led := fun m L => m_led m = L; pinned := fun m ip => m_pin m = Some ip |}.
  all: intros m L **; subst; mon_open.
  all: try solve [eapply safe_mono; [mon_step|]; cbv beta; intros; destruct_and?; subst; done].
  all: try solve [repeat mon_step; apply safe_ret; done].
  - unfold safe. unfold has_lock. rewrite bool_decide_eq_false_2 by done. apply mon_tell; [done|].
    unfold has_ref. rewrite orb_true_iff, !bool_decide_eq_true. done.
  - unfold has_lock. rewrite bool_decide_eq_true_2 by done. by eexists.
  - repeat mon_step. apply safe_ret. cbn [fst]. split; [congruence|]. intros Hr Hd.
    match goal with H : _ <> 0 -> _ |- _ => specialize (H Hr); rewrite Hd in H end. cbn [orb] in *. by apply not_locked.
  - do 2 mon_step. eapply safe_mono; [mon_step|]. cbv beta. intros x m1 [-> Hm]. split; [congruence|]. intros Hr. apply not_locked. auto.
  - do 2 mon_step. unfold safe, obey, mbind, M_bind, mret, M_ret. cbn [m_led]. split; [by mon_eq|]. intros Hr. apply not_fresh. auto.
  - apply mon_tell; [done|]. unfold has_file, is_fresh, no_locks. rewrite bool_decide_eq_true_2 by done. cbn [andb].
    rewrite orb_true_iff, andb_true_iff, !bool_decide_eq_true, Nat.ltb_lt. done.
  - do 2 mon_step. destruct (Z.eqb_spec a 0) as [->|Ha]; cbn [orb]; [apply safe_ret; cbn; congruence|].
    destruct (Z.eqb_spec a0 0) as [->|Hw]; [apply safe_ret; cbn; congruence|].
    unfold safe, obey, mbind, M_bind, mret, M_ret. cbn [m_led fst snd]. rewrite (proj2 (Z.eqb_neq a 0)) by done.
    split; [done|]. congruence.
Defined.

Lemma file_call_ok k E x : bal k E -> l_locks E = ∅ -> l_tx E = 0%nat -> x ∈ p_filerefs (k_p k) ->
  safe (file_call x) (fun _ k' => bal k' E) k.
Proof.
  destruct k as [pm p m out], E as [t X R Fi Fr]. intros [Hk Hn] Hl Ht Hx. cbn in Hl, Ht, Hx. subst X t.
  apply safe_fs. eapply safe_mono; [eapply mon_ask; [exact Hk|]|].
  - unfold has_file, no_locks. cbn [with_proc l_files l_locks l_tx k_p]. rewrite !bool_decide_eq_true_2 by (done || by apply ms_in_l). done.
  - cbv beta. intros a m' Hm. split; [exact Hm|exact Hn].
Qed.

#[export] Instance mon_calls : FileCallLaws mon.
Proof. split; intros; by apply file_call_ok. Qed.

(** ** The theorems *)
Section disciplined.
Context `{HL : Layout} `{PO : !Policy}.

(** The calls of sysfile.c, [sys_exec] aside. *)
Definition file_calls : list (M (kst mon) Z) :=
  [sys_dup; sys_read; sys_write; sys_close; sys_fstat; sys_link; sys_unlink; sys_open; sys_mkdir; sys_mknod; sys_chdir; sys_pipe].

(** C19: whatever the file system answers and whatever is in memory,
    each call of sysfile.c keeps the discipline on every path, errors included: it
    never locks an inode it has locked or lacks a reference to, puts references and
    updates inodes only inside a transaction, and when it returns, no transaction
    is open, no inode is locked, and every reference it has gained or given up is
    one of the process's descriptors, directory, executable or swap file. *)
Theorem file_calls_disciplined m k : m ∈ file_calls -> bal k nothing -> safe m (fun _ k' => bal k' nothing) k.
Proof.
  intros Hm Hk. revert k Hk. change (keeps m). unfold file_calls in Hm. revert m Hm. apply Forall_forall.
  repeat constructor; [apply keeps_sys_dup|apply keeps_sys_read|apply keeps_sys_write|apply keeps_sys_close|apply keeps_sys_fstat
    |apply keeps_sys_link|apply keeps_sys_unlink|apply keeps_sys_open|apply keeps_sys_mkdir|apply keeps_sys_mknod
    |apply keeps_sys_chdir|apply keeps_sys_pipe].
Qed.
End disciplined.
