(* ===== verification/DemoSys.v ===== *)
(** Processes that make system calls: one that pauses for three ticks, one that
    asks for a page of heap in the lazy mode, and one with two open files. *)
From S2P Require Import Prelude Riscv PhysMem Kalloc PageTable PtTree PtMap PtUser PtFree PtCopy Memstat Proc FsIface Swap SwapProofs VmFault Evict Trap TrapProofs Bytes.
From S2P Require Import ProcTable ProcInv ProcRefine Syscall Exec SysFile SysProc SysProcProofs Demo DemoPaging.

#[local] Existing Instance fifo.
#[local] Existing Instance fifo_ok.

#[local] Instance flat_proc : ProcFs flat := {| idup := fun x => mret x; iput := fun _ => mret tt; filedup := fun x => mret x; namei := fun _ => mret 0 |}.
#[local] Instance flat_sys : SysFs flat := {|
  i_major := fun _ => mret 0; i_size := fun ip f => Ret (Z.of_nat (length (fl_data f ip))) f; itrunc := fun _ => mret tt;
  file_dev := fun _ _ _ _ _ => mret tt; pipealloc := mret (0, 0); fileread := fun _ _ _ => mret (-1); filewrite := fun _ _ _ => mret (-1);
  filestat := fun _ _ => mret (-1) |}.

(** The registers [a0] and [a1] of the trapframe at address 0. *)
Definition regs (a0 a1 : Z) : mem := store64 (store64 (fun _ => 0) tf_a0 a0) (tf_a0 + 8) a1.

Definition idle_proc : proc :=
  mkProc (mkSched UNUSED 0 0 0 0 0) (mkSpace 0 0 0 0) (mkFiles [] 0 []) (mkSwap 0 [] 0) (mkMemStat 0 0 0 0 0 [])
    (mkExec 0 0 0 0 0 0 0 0 0 0 0 0 0 0 0) (mkCount 0 0 0 0 0 0).
Definition one_proc (pm : pmem) (t : Z) : sysst flat :=
  mkSys (mkKern pm (demo_proc ms0 empty_table :: replicate 63 idle_proc) (flat0 []) [] (Some 0%nat) [] [] 2 (proc_ptr 0)) t.

Lemma one_proc_runs pm t : runs 0 t (one_proc pm t).
Proof. split_and!; try reflexivity. rewrite nproc_eq. lia. Qed.

(** The counter wraps around while the process sleeps. *)
Lemma sys_pause_witness : exists x', sys_pause 7 8 (one_proc (mkPmem (regs 3 0) 0) (2 ^ 32 - 2)) = Block "sched" x' /\
  exists y, rounds 7 8 3 0 3 (2 ^ 32 - 2) (idle x') = Ret 0 y /\ ss_ticks y = 1.
Proof.
  destruct (sys_pause_correct 7 8 0 3 (2 ^ 32 - 2) (one_proc (mkPmem (regs 3 0) 0) (2 ^ 32 - 2))) as (x' & E & _ & y & R & T);
    [apply one_proc_runs|lia|vm_compute; reflexivity|lia|].
  exists x'. split; [exact E|]. exists y. split; [exact R|exact T].
Defined.

(** The demo process, started in a machine whose trapframe holds the arguments
    of [sbrk(PGSIZE, SBRK_LAZY)]. *)
Definition sbrk_boot : pmem := after (kinit (mkPmem (regs PGSIZE SBRK_LAZY) 0)) mem0.
Definition sbrk_pm : pmem := after (uvmcreate sbrk_boot) mem0.

Lemma sbrk_pm_as : as_inv sbrk_pm root free0 MAXVA /\ forall va, pte_of (pm_mem sbrk_pm) root va = 0.
Proof.
  destruct (kinit_run (mkPmem (regs PGSIZE SBRK_LAZY) 0) eq_refl) as (s' & R & I & _).
  assert (sbrk_boot = s') as E by (unfold sbrk_boot; by rewrite R). rewrite boot_pages_eq in I.
  destruct (uvmcreate_run s' root free0 I) as (s2 & R2 & _ & Has & Hp & _).
  unfold sbrk_pm. rewrite E, R2. split; [exact Has|exact Hp].
Qed.

Lemma kview_one pm t : kview 0 (one_proc pm t) = set_pm pm k0.
Proof. reflexivity. Qed.

(** The bookkeeping does not look at the memory. *)
Lemma pg_inv_pm (k : kst flat) pm ip Fr Fr' lim : as_inv pm (pagetable (k_p k)) Fr' lim -> pg_inv k ip Fr lim -> pg_inv (set_pm pm k) ip Fr' lim.
Proof.
  intros H [_ H1 H2 H3 [S1 S2 S3 S4 S5 S6] H5]. destruct k.
  split; [exact H|exact H1|exact H2|exact H3| |exact H5].
  split; [exact S1|exact S2|exact S3|exact S4|exact S5|exact S6].
Qed.

Lemma sbrk_inv : pg_inv (kview 0 (one_proc sbrk_pm 0)) swap_ip free0 MAXVA.
Proof. rewrite kview_one. apply (pg_inv_pm k0 sbrk_pm swap_ip free0); [apply sbrk_pm_as|exact k0_inv]. Qed.

Lemma plain_heap : plain (demo_proc ms0 empty_table) (5 * PGSIZE + 24).
Proof.
  split_and!; intros [A B]; vm_compute in A, B; first [discriminate B | by destruct A].
Qed.

(** The same process after it swapped out the heap page at [heap_va] and then gave
    it up: the size is smaller, the copy in the swap area is still there. *)
Definition shrunk_proc : proc := set_sz heap_va (demo_proc ms_swapped table_one).
Definition shrunk : sysst flat :=
  mkSys (mkKern sbrk_pm (shrunk_proc :: replicate 63 idle_proc) (flat0 swapped_data) [] (Some 0%nat) [] [] 2 (proc_ptr 0)) 0.

Lemma shrunk_inv : pg_inv (kview 0 shrunk) swap_ip free0 MAXVA.
Proof.
  destruct k_swapped_inv as [_ H1 H2 H3 [S1 S2 S3 S4 S5 S6] H5].
  split; [apply sbrk_pm_as|exact H1|exact H2|exact H3| |exact H5].
  split; [exact S1|exact S2|exact S3|exact S4|exact S5|exact S6].
Qed.

Lemma plain_shrunk : plain shrunk_proc (heap_va + 20).
Proof.
  split_and!; intros [A B]; vm_compute in A, B; first [discriminate B | by destruct A].
Qed.

(** New memory reads as zeros; the page that was given up comes back with its old
    bytes. *)
Lemma lazy_sbrk_witness :
  (sys_sbrk (one_proc sbrk_pm 0) = Ret (5 * PGSIZE) (grow 0 PGSIZE (one_proc sbrk_pm 0)) /\
   exists k', pagefault 15 (5 * PGSIZE + 24) (kview 0 (grow 0 PGSIZE (one_proc sbrk_pm 0))) = Ret tt k' /\
     brought 15 (5 * PGSIZE) rwu zeros (pf_enter 15 (5 * PGSIZE + 24) (kview 0 (grow 0 PGSIZE (one_proc sbrk_pm 0)))) k') /\
  (sys_sbrk shrunk = Ret heap_va (grow 0 PGSIZE shrunk) /\
   exists k', pagefault 13 (heap_va + 20) (kview 0 (grow 0 PGSIZE shrunk)) = Ret tt k' /\
     brought 13 heap_va rwu (bytes_at swapped_data) (pf_enter 13 (heap_va + 20) (kview 0 (grow 0 PGSIZE shrunk))) k').
Proof.
  split.
  - destruct (lazy_sbrk_correct 0 0 PGSIZE (one_proc sbrk_pm 0) swap_ip free0 MAXVA) as [E H];
      [apply one_proc_runs|exact sbrk_inv|vm_compute; reflexivity|vm_compute; reflexivity|by compute_now|by compute_now|by compute_now|].
    split; [exact E|]. destruct (H 15 (5 * PGSIZE + 24)) as (k' & R & _ & Hb);
      [discriminate|by compute_now|by compute_now| | |].
    + exact plain_heap.
    + unfold mapped. destruct sbrk_pm_as as [_ Hp]. change (pm_mem (kn_pm (ss_kern (one_proc sbrk_pm 0)))) with (pm_mem sbrk_pm).
      change (pagetable (proc_at (ss_kern (one_proc sbrk_pm 0)) 0)) with root. rewrite Hp. done.
    + exists k'. split; [exact R|]. destruct Hb as [[_ Hs]|Hb]; [destruct (enough_pages Hs)|exact Hb].
  - destruct (lazy_sbrk_correct 0 0 PGSIZE shrunk swap_ip free0 MAXVA) as [E H];
      [split_and!; try reflexivity; rewrite nproc_eq; lia|exact shrunk_inv|vm_compute; reflexivity|vm_compute; reflexivity|by compute_now|by compute_now|by compute_now|].
    split; [exact E|]. destruct (H 13 (heap_va + 20)) as (k' & R & _ & Hb);
      [discriminate|by compute_now|by compute_now|exact plain_shrunk| |].
    + unfold mapped. destruct sbrk_pm_as as [_ Hp]. change (pm_mem (kn_pm (ss_kern shrunk))) with (pm_mem sbrk_pm).
      change (pagetable (proc_at (ss_kern shrunk) 0)) with root. rewrite Hp. done.
    + exists k'. split; [exact R|]. destruct Hb as [[_ Hs]|Hb]; [destruct (enough_pages Hs)|].
      assert (Ev : swap_view (kview 0 shrunk) swap_ip (PGROUNDDOWN (heap_va + 20)) = Some swapped_data) by (vm_compute; reflexivity).
      rewrite Ev in Hb. exact (proj1 Hb).
Defined.

(** ** A process with two open files *)
From stdpp Require Import gmultiset.
From S2P Require Import Prelude Riscv PhysMem Kalloc PageTable Memstat Proc FsIface Swap VmFault Bytes ProcTable Syscall Exec SysFile Ledger LedgerVm LedgerSys LedgerExec Monitor Demo.

Definition caller : proc :=
  mkProc (mkSched RUNNING 0 0 0 4 1) (mkSpace 0 4096 0 0) (mkFiles (7 :: 8 :: replicate 14 0) 3 []) (mkSwap 0 [] 0)
    (mkMemStat 0 0 0 0 0 []) (mkExec 0 0 0 0 0 0 5 0 0 0 0 0 0 0 0) (mkCount 0 0 0 0 0 0).

(** The file system answers [9] and a file of 64 zeroes to everything. *)
Definition answers : nat -> Z * list Z := fun _ => (9, replicate 64 0).
Definition calling : kst mon :=
  mkK (mkPmem (fun _ => 0) 0) caller (mkMon (with_proc caller nothing) None answers 0) [].

Lemma calling_bal : bal calling nothing.
Proof. done. Qed.

Lemma file_calls_witness : safe sys_dup (fun _ k' => bal k' nothing) calling.
Proof. apply (file_calls_disciplined sys_dup calling); [by left|exact calling_bal]. Defined.

Lemma kexec_outcomes_witness : ends (kexec [47; 97] []) (exec_result 5) self_lock calling.
Proof. apply (kexec_outcomes [47; 97] [] calling). exact calling_bal. Defined.

Definition mon_after {A} (m : M mon A) (s : mon) : mon := match m s with Ret _ s' => s' | _ => s end.
Definition h1 : mon := mon_after begin_op (k_fs calling).
Definition h2 : mon := mon_after (namei [47; 97]) h1.
Definition h3 : mon := mon_after (ilock 9) h2.
Definition h4 : mon := mon_after (readi 9 0 sizeof_elfhdr) h3.

Lemma kexec_hangs_witness : exists c k', kexec [47; 97] [[97]] calling = Block c k' /\ self_lock k'.
Proof.
  apply (kexec_hangs [47; 97] [[97]] calling h1 h2 h3 h4 9 (replicate 64 0)); [exact calling_bal|reflexivity|reflexivity|lia| |reflexivity|reflexivity].
  unfold h3, mon_after. destruct (ilock 9 h2) as [[] s| | |] eqn:E; [done|vm_compute in E; discriminate..].
Defined.
