(* ===== verification/Printf.v ===== *)
(** Formatted output: kernel/printf.c, user/printf.c, and [atoi] of user/ulib.c.

    A string is the list of its bytes before the terminator; the variable
    arguments are a list, and reading past its end or at the wrong type, which is
    undefined in C, is [None].  What [consputc] or [putc] would send is returned
    as a list of bytes.  The kernel's [printf] reads ahead of a [%]; the user's
    [vprintf] is a machine with two states. *)
From S2P Require Import Prelude Riscv PhysMem.

Definition bytes_of (s : string) : list Z := (fun a => Z.of_nat (Ascii.nat_of_ascii a)) <$> String.list_ascii_of_string s.
Definition digits : list Z := bytes_of "0123456789abcdef".
Definition user_digits : list Z := bytes_of "0123456789ABCDEF".
Definition chr (s : string) : Z := hd 0 (bytes_of s).

Inductive varg : Type := VNum (z : Z) | VStr (s : option (list Z)).

Definition va_num (ap : list varg) : option (Z * list varg) :=
  match ap with VNum z :: ap => Some (z, ap) | _ => None end.
Definition va_str (ap : list varg) : option (option (list Z) * list varg) :=
  match ap with VStr s :: ap => Some (s, ap) | _ => None end.

Definition i64 (x : Z) : Z := (x + 2 ^ 63) mod 2 ^ 64 - 2 ^ 63.

(** ** Numbers *)
(** [do { buf[i++] = digits[x % base]; } while((x /= base) != 0);] *)
Fixpoint digit_loop (fuel : nat) (ds : list Z) (x base : Z) : option (list Z) :=
  match fuel with
  | O => None
  | S fuel =>
      let d := ds !!! Z.to_nat (x mod base) in
      if x / base =? 0 then Some [d] else cons d <$> digit_loop fuel ds (x / base) base
  end.

(** Every pass divides [x] by two at least. *)
Definition printint (ds : list Z) (xx base : Z) (sign : bool) : option (list Z) :=
  let neg := sign && (xx <? 0) in
  let x := if neg then u64 (- xx) else u64 xx in
  buf ← digit_loop 64 ds x base;
  Some (rev (if neg then buf ++ [chr "-"] else buf)).

(** [for(i = 0; i < 16; i++, x <<= 4) consputc(digits[x >> 60]);] *)
Fixpoint ptr_loop (n : nat) (ds : list Z) (x : Z) : list Z :=
  match n with
  | O => []
  | S n => ds !!! Z.to_nat (Z.shiftr x 60) :: ptr_loop n ds (u64 (Z.shiftl x 4))
  end.
Definition printptr (ds : list Z) (x : Z) : list Z := chr "0" :: chr "x" :: ptr_loop 16 ds (u64 x).

(** ** The kernel's [printf] *)
Definition null_text : list Z := bytes_of "(null)".

(** [consputc] of the bytes [o], then the rest of the loop. *)
Definition emit (o : option (list Z)) (rest : option (list Z)) : option (list Z) :=
  x ← o; y ← rest; Some (x ++ y).

Section formats.
Variable ds : list Z.

Fixpoint printf_loop (fmt : list Z) (ap : list varg) : option (list Z) :=
  match fmt with
  | [] => Some []
  | cx :: fmt1 =>
      if negb (cx =? chr "%") then emit (Some [cx]) (printf_loop fmt1 ap)
      else
        match fmt1 with
        | [] => Some []
        | c0 :: fmt2 =>
            let c1 := hd 0 fmt2 in
            let c2 := if c1 =? 0 then 0 else hd 0 (tl fmt2) in
            (* the loop goes on one, two or three characters further *)
            let go0 := printf_loop fmt2 in
            let go1 ap := match fmt2 with _ :: f => printf_loop f ap | [] => Some [] end in
            let go2 ap := match fmt2 with _ :: (_ :: f) => printf_loop f ap | _ => Some [] end in
            let num cast base sign go := '(v, ap) ← va_num ap; emit (printint ds (i64 (cast v)) base sign) (go ap) in
            if c0 =? chr "d" then num i32 10 true go0
            else if (c0 =? chr "l") && (c1 =? chr "d") then num u64 10 true go1
            else if (c0 =? chr "l") && (c1 =? chr "l") && (c2 =? chr "d") then num u64 10 true go2
            else if c0 =? chr "u" then num u32 10 false go0
            else if (c0 =? chr "l") && (c1 =? chr "u") then num u64 10 false go1
            else if (c0 =? chr "l") && (c1 =? chr "l") && (c2 =? chr "u") then num u64 10 false go2
            else if c0 =? chr "x" then num u32 16 false go0
            else if (c0 =? chr "l") && (c1 =? chr "x") then num u64 16 false go1
            else if (c0 =? chr "l") && (c1 =? chr "l") && (c2 =? chr "x") then num u64 16 false go2
            else if c0 =? chr "p" then '(v, ap) ← va_num ap; emit (Some (printptr ds v)) (go0 ap)
            else if c0 =? chr "c" then '(v, ap) ← va_num ap; emit (Some [v mod 256]) (go0 ap)
            else if c0 =? chr "s" then '(s, ap) ← va_str ap; emit (Some (default null_text s)) (go0 ap)
            else if c0 =? chr "%" then emit (Some [chr "%"]) (go0 ap)
            else emit (Some [chr "%"; c0]) (go0 ap)
        end
  end.

(** [vprintf]: [state] is whether a [%] has been read. *)
Fixpoint vprintf_loop (fmt : list Z) (state : bool) (ap : list varg) : option (list Z) :=
  match fmt with
  | [] => Some []
  | c0 :: fmt1 =>
      if negb state then
        if c0 =? chr "%" then vprintf_loop fmt1 true ap
        else emit (Some [c0]) (vprintf_loop fmt1 false ap)
      else
        let c1 := hd 0 fmt1 in
        let c2 := if c1 =? 0 then 0 else hd 0 (tl fmt1) in
        let go0 := vprintf_loop fmt1 false in
        let go1 ap := match fmt1 with _ :: f => vprintf_loop f false ap | [] => Some [] end in
        let go2 ap := match fmt1 with _ :: (_ :: f) => vprintf_loop f false ap | _ => Some [] end in
        let num cast base sign go := '(v, ap) ← va_num ap; emit (printint ds (i64 (cast v)) base sign) (go ap) in
        if c0 =? chr "d" then num i32 10 true go0
        else if (c0 =? chr "l") && (c1 =? chr "d") then num u64 10 true go1
        else if (c0 =? chr "l") && (c1 =? chr "l") && (c2 =? chr "d") then num u64 10 true go2
        else if c0 =? chr "u" then num u32 10 false go0
        else if (c0 =? chr "l") && (c1 =? chr "u") then num u64 10 false go1
        else if (c0 =? chr "l") && (c1 =? chr "l") && (c2 =? chr "u") then num u64 10 false go2
        else if c0 =? chr "x" then num u32 16 false go0
        else if (c0 =? chr "l") && (c1 =? chr "x") then num u64 16 false go1
        else if (c0 =? chr "l") && (c1 =? chr "l") && (c2 =? chr "x") then num u64 16 false go2
        else if c0 =? chr "p" then '(v, ap) ← va_num ap; emit (Some (printptr ds v)) (go0 ap)
        else if c0 =? chr "c" then '(v, ap) ← va_num ap; emit (Some [v mod 256]) (go0 ap)
        else if c0 =? chr "s" then '(s, ap) ← va_str ap; emit (Some (default null_text s)) (go0 ap)
        else if c0 =? chr "%" then emit (Some [chr "%"]) (go0 ap)
        else emit (Some [chr "%"; c0]) (go0 ap)
  end.
End formats.

Definition printf (fmt : list Z) (ap : list varg) : option (list Z) := printf_loop digits fmt ap.
Definition vprintf (fmt : list Z) (ap : list varg) : option (list Z) := vprintf_loop user_digits fmt false ap.

(** What [panic(s)] sends before it stops the machine. *)
Definition panic_message (s : list Z) : option (list Z) :=
  emit (printf (bytes_of "panic: ") []) (printf (bytes_of "%s" ++ [10]) [VStr (Some s)]).

(** ulib.c: [atoi]. *)
Fixpoint atoi_loop (s : list Z) (n : Z) : Z :=
  match s with
  | c :: s => if (chr "0" <=? c) && (c <=? chr "9") then atoi_loop s (i32 (n * 10 + c - chr "0")) else n
  | [] => n
  end.
Definition atoi (s : list Z) : Z := atoi_loop s 0.

Example printf_example : printf (bytes_of "pid %d %s: %lx%%") [VNum (-7); VStr (Some (bytes_of "sh")); VNum 255] = Some (bytes_of "pid -7 sh: ff%").
Proof. vm_compute. reflexivity. Qed.

Example vprintf_example : vprintf (bytes_of "%p %c%q") [VNum 48879; VNum 65] = Some (bytes_of "0x000000000000BEEF A%q").
Proof. vm_compute. reflexivity. Qed.

(** ** What a numeral is *)
(** The value of digits, least significant first; and most significant first. *)
Fixpoint value_le (base : Z) (ks : list Z) : Z := match ks with [] => 0 | k :: ks => k + base * value_le base ks end.
Definition value (base : Z) (ks : list Z) : Z := foldl (fun n k => n * base + k) 0 ks.

Lemma value_rev base ks : value base (rev ks) = value_le base ks.
Proof.
  induction ks as [|k ks IH]; [done|]. cbn [rev value_le]. unfold value in *. rewrite foldl_app, IH. cbn [foldl]. lia.
Qed.

Lemma rev_fmap {A B} (f : A -> B) l : rev (f <$> l) = f <$> rev l.
Proof. induction l as [|x l IH]; [done|]. cbn [rev fmap list_fmap]. rewrite fmap_app. by rewrite <- IH. Qed.

(** The digits of [x]: in range, no zero in front, at least one. *)
Record numeral (base x : Z) (ks : list Z) : Prop := {
  nu_value : value base ks = x;
  nu_range : Forall (fun k => 0 <= k < base) ks;
  nu_some : ks <> [];
  nu_lead : hd 1 ks = 0 -> ks = [0]
}.

Lemma digit_loop_spec base fuel x : 2 <= base -> 0 <= x < 2 ^ Z.of_nat fuel -> (0 < fuel)%nat ->
  exists ks, (forall ds, digit_loop fuel ds x base = Some ((fun k => ds !!! Z.to_nat k) <$> ks)) /\ numeral base x (rev ks) /\
    (ks = [0] \/ base ^ (Z.of_nat (length ks) - 1) <= x).
Proof.
  intros Hb. revert x. induction fuel as [|fuel IH]; intros x Hx Hf; [lia|]. cbn [digit_loop].
  pose proof (Z.mod_pos_bound x base ltac:(lia)) as Hm. pose proof (Z.div_mod x base ltac:(lia)) as Hd.
  destruct (Z.eqb_spec (x / base) 0) as [E|E].
  - exists [x mod base]. split; [done|]. rewrite E in Hd. split.
    + split; [cbn; lia|repeat constructor; lia|done|]. cbn. intros ->. done.
    + destruct (decide (x mod base = 0)) as [->|]; [by left|]. right. cbn. lia.
  - rewrite Nat2Z.inj_succ, Z.pow_succ_r in Hx by lia.
    assert (0 <= x / base < 2 ^ Z.of_nat fuel) as Hq.
    { split; [apply Z.div_pos; lia|]. apply Z.div_lt_upper_bound; [lia|]. nia. }
    destruct (IH _ Hq) as (ks & R & [Hv Hr Hn Hl] & Hlen); [destruct fuel; [rewrite Z.pow_0_r in Hq; lia|lia]|].
    exists (x mod base :: ks). split; [intros ds; by rewrite R|]. rewrite value_rev in Hv. split.
    + split; [rewrite value_rev; cbn [value_le]; rewrite Hv; lia| | |]; cbn [rev].
      * apply Forall_app. split; [done|repeat constructor; lia].
      * by destruct (rev ks).
      * destruct (rev ks) as [|k ks'] eqn:Ek; [done|]. cbn [hd app]. intros ->. specialize (Hl eq_refl) as [= ->].
        rewrite <- (rev_involutive ks), Ek in Hv. cbn in Hv. lia.
    + right. destruct Hlen as [->|Hlen]; [cbn in Hv |- *; lia|]. destruct ks as [|k ks']; [done|].
      replace (Z.of_nat (length (x mod base :: k :: ks')) - 1) with (Z.succ (Z.of_nat (length (k :: ks')) - 1)) by (cbn [length]; lia).
      rewrite Z.pow_succ_r by (cbn [length]; lia). nia.
Qed.

(** The number that is written: [xx], or its absolute value after a sign. *)
Definition magnitude (xx : Z) (neg : bool) : Z := if neg then - xx else u64 xx.

Lemma printint_run xx base sign : 2 <= base -> - 2 ^ 63 <= xx < 2 ^ 63 ->
  exists ks, let neg := sign && (xx <? 0) in
    numeral base (magnitude xx neg) ks /\
    (forall ds, printint ds xx base sign = Some ((if neg then [chr "-"] else []) ++ ((fun k => ds !!! Z.to_nat k) <$> ks))) /\
    (ks = [0] \/ base ^ (Z.of_nat (length ks) - 1) <= magnitude xx neg).
Proof.
  intros Hb Hx. cbv zeta. unfold printint. set (neg := sign && (xx <? 0)).
  assert ((if neg then u64 (- xx) else u64 xx) = magnitude xx neg /\ 0 <= magnitude xx neg < 2 ^ 64) as (-> & Hx64).
  { unfold magnitude, neg. destruct sign, (Z.ltb_spec xx 0); cbn [andb]; unfold u64; split_and!; try done;
      rewrite ?(Z.mod_small (- xx)) by lia; try lia; apply Z.mod_pos_bound; lia. }
  destruct (digit_loop_spec base 64 _ ltac:(lia) Hx64 ltac:(lia)) as (ks & R & Hn & Hlen). exists (rev ks). split; [done|]. split.
  - intros ds. rewrite R. cbn [mbind option_bind]. f_equal. destruct neg; [rewrite rev_app_distr|]; cbn [rev app]; f_equal; apply rev_fmap.
  - destruct Hlen as [->|Hlen]; [by left|right]. by rewrite length_rev.
Qed.

(** A number below ten to the [d]+1 has at most that many digits, in base ten or above. *)
Lemma pow10_length (ks : list Z) x (d : Z) base : 10 <= base -> 0 <= d -> base ^ (Z.of_nat (length ks) - 1) <= x -> x < 10 ^ (d + 1) ->
  Z.of_nat (length ks) <= d + 1.
Proof.
  intros Hb Hd Hl Hx. destruct (decide (Z.of_nat (length ks) <= d + 1)); [done|].
  assert (10 ^ (d + 1) <= 10 ^ (Z.of_nat (length ks) - 1)) by (apply Z.pow_le_mono_r; lia).
  assert (10 ^ (Z.of_nat (length ks) - 1) <= base ^ (Z.of_nat (length ks) - 1)) by (apply Z.pow_le_mono_l; lia). lia.
Qed.

(** C39: [printint] writes the number: a minus sign if it is negative and [sign]
    is set, then its digits in the base without zeros in front; and it never
    overruns its buffer of 20 characters, for every 64-bit value. *)
Theorem printint_correct xx base sign : base = 10 \/ base = 16 -> - 2 ^ 63 <= xx < 2 ^ 63 ->
  exists ks, let neg := sign && (xx <? 0) in
    numeral base (magnitude xx neg) ks /\
    (forall ds, printint ds xx base sign = Some ((if neg then [chr "-"] else []) ++ ((fun k => ds !!! Z.to_nat k) <$> ks))) /\
    (length (if neg then [chr "-"] else []) + length ks <= 20)%nat.
Proof.
  intros Hb Hx. destruct (printint_run xx base sign ltac:(lia) Hx) as (ks & Hn & E & Hlen). exists ks. cbv zeta in *. split; [done|]. split; [done|].
  assert (Hm : 0 <= magnitude xx (sign && (xx <? 0)) < 2 ^ 64 /\ (sign && (xx <? 0) = true -> magnitude xx (sign && (xx <? 0)) <= 2 ^ 63)).
  { unfold magnitude, u64. destruct sign, (Z.ltb_spec xx 0); cbn [andb]; split; (lia || (apply Z.mod_pos_bound; lia) || done). }
  destruct Hm as [Hm Hneg]. destruct (sign && (xx <? 0)); (destruct Hlen as [->|Hlen]; [cbn; lia|]); cbn [length].
  - apply (pow10_length ks _ 18 base) in Hlen; [lia..].
  - apply (pow10_length ks _ 19 base) in Hlen; [lia..].
Qed.

(** ** The two formatters agree *)
(** the user's [vprintf], a machine with two states, and the kernel's
    [printf], which reads ahead, print the same for every format and every list of
    arguments, up to the letters used for digits above nine. *)
Theorem vprintf_printf ds fmt ap : vprintf_loop ds fmt false ap = printf_loop ds fmt ap.
Proof.
  revert ap. induction fmt as [fmt IH] using (Wf_nat.induction_ltof1 _ length). intros ap. unfold Wf_nat.ltof in IH.
  destruct fmt as [|cx fmt1]; [done|]. cbn [vprintf_loop printf_loop negb].
  destruct (Z.eqb_spec cx (chr "%")) as [->|]; cbn [negb]; [|by rewrite IH by (cbn; lia)].
  destruct fmt1 as [|c0 fmt2]; [done|]. cbn [vprintf_loop negb].
  assert (E0 : forall ap, vprintf_loop ds fmt2 false ap = printf_loop ds fmt2 ap) by (intros; apply IH; cbn; lia).
  assert (E1 : forall ap, match fmt2 with _ :: f => vprintf_loop ds f false ap | [] => Some [] end =
                          match fmt2 with _ :: f => printf_loop ds f ap | [] => Some [] end).
  { intros. destruct fmt2; [done|]. apply IH. cbn. lia. }
  assert (E2 : forall ap, match fmt2 with _ :: (_ :: f) => vprintf_loop ds f false ap | _ => Some [] end =
                          match fmt2 with _ :: (_ :: f) => printf_loop ds f ap | _ => Some [] end).
  { intros. destruct fmt2 as [|? []]; [done..|]. apply IH. cbn. lia. }
  cbv zeta. destruct (va_num ap) as [[v apn]|], (va_str ap) as [[sv aps]|]; cbn [mbind option_bind]; by rewrite ?E0, ?E1, ?E2.
Qed.

(** ** Reading a number back *)
Definition decimal (ds : list Z) : Prop := forall k, 0 <= k < 10 -> ds !!! Z.to_nat k = chr "0" + k.

Lemma digits_decimal : decimal digits /\ decimal user_digits.
Proof.
  split; intros k Hk; assert (k = 0 \/ k = 1 \/ k = 2 \/ k = 3 \/ k = 4 \/ k = 5 \/ k = 6 \/ k = 7 \/ k = 8 \/ k = 9) as Hc by lia;
    repeat destruct Hc as [->|Hc]; subst; reflexivity.
Qed.

Lemma value_mono base ks n : 1 <= base -> 0 <= n -> Forall (fun k => 0 <= k < base) ks -> n <= foldl (fun n k => n * base + k) n ks.
Proof.
  intros Hb. revert n. induction ks as [|k ks IH]; intros n Hn Hf; cbn [foldl]; [lia|]. apply Forall_cons in Hf as [Hk Hf].
  etransitivity; [|apply IH; [nia|done]]. nia.
Qed.

Lemma atoi_loop_spec ds ks n rest : decimal ds -> Forall (fun k => 0 <= k < 10) ks -> 0 <= n ->
  foldl (fun n k => n * 10 + k) n ks < 2 ^ 31 -> (hd 0 rest < chr "0" \/ chr "9" < hd 0 rest) ->
  atoi_loop (((fun k => ds !!! Z.to_nat k) <$> ks) ++ rest) n = foldl (fun n k => n * 10 + k) n ks.
Proof.
  intros Hd Hf. revert n. induction Hf as [|k ks Hk Hf IH]; intros n Hn Hlt Hr; cbn [foldl fmap list_fmap app atoi_loop] in *.
  - destruct rest as [|c rest]; [done|]. cbn [hd] in Hr. cbn [atoi_loop].
    destruct (Z.leb_spec (chr "0") c), (Z.leb_spec c (chr "9")); cbn [andb]; (done || lia).
  - rewrite Hd by done. assert (chr "0" = 48 /\ chr "9" = 57) as [E0 E9] by done.
    rewrite (proj2 (Z.leb_le (chr "0") _)), (proj2 (Z.leb_le _ (chr "9"))) by lia. cbn [andb].
    pose proof (value_mono 10 ks (n * 10 + k) ltac:(lia) ltac:(lia) Hf).
    replace (n * 10 + (chr "0" + k) - chr "0") with (n * 10 + k) by lia.
    rewrite i32_small by lia. apply IH; [lia|done|done].
Qed.

(** [atoi] reads back what [printf("%d")] wrote, in the kernel and in user
    programs, for every int that is not negative, whatever follows the digits. *)
Theorem atoi_printint n rest : 0 <= n < 2 ^ 31 -> (hd 0 rest < chr "0" \/ chr "9" < hd 0 rest) ->
  exists l, vprintf (bytes_of "%d") [VNum n] = Some l /\ printf (bytes_of "%d") [VNum n] = Some l /\ atoi (l ++ rest) = n.
Proof.
  intros Hn Hr. destruct digits_decimal as [D1 D2].
  destruct (printint_run n 10 true ltac:(lia) ltac:(lia)) as (ks & [Hv Hk _ _] & E & _).
  cbv zeta in *. rewrite (proj2 (Z.ltb_ge n 0)) in * by lia. cbn [andb app] in *. unfold magnitude, u64 in *. rewrite (Z.mod_small n) in * by lia.
  assert (Ei : i64 (i32 n) = n) by (rewrite i32_small by lia; unfold i64; rewrite Z.mod_small; lia).
  assert (Ed : forall ds, printf_loop ds (bytes_of "%d") [VNum n] = Some ((fun k => ds !!! Z.to_nat k) <$> ks)).
  { intros ds. change (bytes_of "%d") with [chr "%"; chr "d"]. cbn [printf_loop negb]. rewrite !Z.eqb_refl. cbn [mbind option_bind va_num].
    rewrite Ei, E. cbn. by rewrite app_nil_r. }
  assert (Eu : forall ds, vprintf_loop ds (bytes_of "%d") false [VNum n] = Some ((fun k => ds !!! Z.to_nat k) <$> ks)).
  { intros ds. change (bytes_of "%d") with [chr "%"; chr "d"]. cbn [vprintf_loop negb]. rewrite !Z.eqb_refl. cbn [mbind option_bind va_num].
    rewrite Ei, E. cbn. by rewrite app_nil_r. }
  exists ((fun k => digits !!! Z.to_nat k) <$> ks). split_and!.
  - unfold vprintf. rewrite Eu. f_equal. apply list_fmap_ext. intros i k Hi.
    eapply Forall_lookup in Hk; [|done]. cbn beta in Hk. by rewrite D1, D2.
  - apply Ed.
  - unfold atoi. rewrite (atoi_loop_spec digits ks 0 rest D1 Hk); [exact Hv|lia|unfold value in Hv; lia|done].
Qed.

Lemma printint_witness : exists ks, printint digits (- 2 ^ 63) 10 true = Some (chr "-" :: ((fun k => digits !!! Z.to_nat k) <$> ks)) /\ (length ks <= 19)%nat.
Proof.
  destruct (printint_correct (- 2 ^ 63) 10 true) as (ks & _ & E & Hl); [by left|lia|]. exists ks. split; [exact (E digits)|]. change (1 + length ks <= 20)%nat in Hl. lia.
Defined.

Lemma atoi_witness : exists l, printf (bytes_of "%d") [VNum 2147483647] = Some l /\ atoi (l ++ bytes_of " pages") = 2147483647.
Proof.
  destruct (atoi_printint 2147483647 (bytes_of " pages")) as (l & _ & E & R); [lia|left; vm_compute; reflexivity|]. exists l. split; [exact E|exact R].
Defined.
