(* ===== verification/Console.v ===== *)
(** The console, kernel/console.c, and the serial line below it, kernel/uart.c.

    Input is a ring of 128 bytes with three 32-bit counters: the bytes up to [r]
    have been read, those up to [w] belong to finished lines, those up to [e] to
    the line being edited.  [sent] is what has been written to the transmit
    register.  A call that sleeps is cut there; the part that follows starts from
    the state the console then has.  Locks are held from one cut to the next. *)
From S2P Require Import Prelude Riscv PhysMem Kalloc PageTable PtTree PtMap PtUser.
From S2P Require Import Memstat Proc FsIface Swap VmFault UserCopy Bytes ProcTable.

Definition BACKSPACE : Z := 0x100.
Definition INPUT_BUF_SIZE : Z := 128.
(** [C(x)] for a letter, and the other characters the switch names. *)
Definition ctrl (x : Z) : Z := x - 64.
Definition ctrl_D : Z := ctrl 68.
Definition ctrl_H : Z := ctrl 72.
Definition ctrl_P : Z := ctrl 80.
Definition ctrl_U : Z := ctrl 85.
Definition DEL : Z := 127.
Definition NL : Z := 10.
Definition CR : Z := 13.

Record cons : Type := mkCons { cbuf : list Z; cr : Z; cw : Z; ce : Z }.

(** The channels [&cons.r] and [&tx_chan]. *)
Inductive con_chan : Type := ConsR | TxChan.

Record cst (F : Type) : Type := mkCst {
  ck : kst F; con : cons; sent : list Z; tx_busy : Z; cwoken : list con_chan; panicked : bool }.
Arguments mkCst {F}.
Arguments ck {F}.
Arguments con {F}.
Arguments sent {F}.
Arguments tx_busy {F}.
Arguments cwoken {F}.
Arguments panicked {F}.

(** How a part of a read ends: it returns, or sleeps with [n] bytes to go. *)
Inductive read_part : Type := RReturns (r : Z) | RSleeps (dst n : Z).
(** How a part of a write ends: it returns, or sleeps with [rest] of the chunk at
    [i] still to send. *)
Inductive write_part : Type := WReturns (r : Z) | WSleeps (i nn : Z) (rest : list Z).

Section console.
Context `{HL : Layout} {F : Type} `{FO : !FsOps F} `{PO : !Policy}.
(** What [procdump] prints. *)
Context (listing : list Z).

Definition on_ck {A} (m : M (kst F) A) : M (cst F) A :=
  zoom ck (fun k s => mkCst k (con s) (sent s) (tx_busy s) (cwoken s) (panicked s)) m.
Definition set_con (c : cons) : M (cst F) unit :=
  modS (fun s => mkCst (ck s) c (sent s) (tx_busy s) (cwoken s) (panicked s)).
(** [WriteReg(THR, c)] *)
Definition write_thr (c : Z) : M (cst F) unit :=
  modS (fun s => mkCst (ck s) (con s) (sent s ++ [c mod 256]) (tx_busy s) (cwoken s) (panicked s)).
Definition set_busy (b : Z) : M (cst F) unit :=
  modS (fun s => mkCst (ck s) (con s) (sent s) b (cwoken s) (panicked s)).
Definition wake (c : con_chan) : M (cst F) unit :=
  modS (fun s => mkCst (ck s) (con s) (sent s) (tx_busy s) (cwoken s ++ [c]) (panicked s)).

(** ** uart.c *)
(** The wait for the transmit register to be empty is not seen. *)
Definition uartputc_sync (c : Z) : M (cst F) unit :=
  s ← getS; if panicked s then diverge else write_thr c.

(** The bytes that are left when the call sleeps on [tx_chan]; none when it
    returns. *)
Fixpoint uartwrite (buf : list Z) : M (cst F) (list Z) :=
  match buf with
  | [] => mret []
  | b :: rest =>
      s ← getS;
      if negb (tx_busy s =? 0) then mret buf
      else _ ← write_thr b; _ ← set_busy 1; uartwrite rest
  end.

(** ** console.c *)
Definition consputc (c : Z) : M (cst F) unit :=
  if c =? BACKSPACE then _ ← uartputc_sync 8; _ ← uartputc_sync 32; uartputc_sync 8
  else uartputc_sync c.

(** [while(cons.e != cons.w && cons.buf[(cons.e-1) % INPUT_BUF_SIZE] != '\n')] *)
Fixpoint kill_line (fuel : nat) : M (cst F) unit :=
  match fuel with
  | O => diverge
  | S fuel =>
      s ← getS;
      let c := con s in
      if negb (ce c =? cw c) && negb (cbuf c !!! Z.to_nat (u32 (ce c - 1) mod INPUT_BUF_SIZE) =? NL) then
        _ ← set_con (mkCons (cbuf c) (cr c) (cw c) (u32 (ce c - 1)));
        _ ← consputc BACKSPACE;
        kill_line fuel
      else mret tt
  end.

Definition consoleintr (c : Z) : M (cst F) unit :=
  if c =? ctrl_P then modS (fun s => mkCst (ck s) (con s) (sent s ++ listing) (tx_busy s) (cwoken s) (panicked s))
  else if c =? ctrl_U then kill_line (S (Z.to_nat INPUT_BUF_SIZE))
  else
    s ← getS;
    let k := con s in
    if (c =? ctrl_H) || (c =? DEL) then
      if negb (ce k =? cw k) then
        _ ← set_con (mkCons (cbuf k) (cr k) (cw k) (u32 (ce k - 1))); consputc BACKSPACE
      else mret tt
    else if negb (c =? 0) && (u32 (ce k - cr k) <? INPUT_BUF_SIZE) then
      let c := if c =? CR then NL else c in
      _ ← consputc c;
      let e := u32 (ce k + 1) in
      let buf := <[Z.to_nat (ce k mod INPUT_BUF_SIZE) := c]> (cbuf k) in
      if (c =? NL) || (c =? ctrl_D) || (u32 (e - cr k) =? INPUT_BUF_SIZE) then
        _ ← set_con (mkCons buf (cr k) e e); wake ConsR
      else set_con (mkCons buf (cr k) (cw k) e)
    else mret tt.

(** [consoleread] from the head of its loop, [n] bytes to go. *)
Fixpoint consoleread_loop (fuel : nat) (user_dst : bool) (target dst n : Z) : M (cst F) read_part :=
  match fuel with
  | O => diverge
  | S fuel =>
      if 0 <? n then
        s ← getS;
        let k := con s in
        if cr k =? cw k then
          kl ← on_ck killed;
          if negb (kl =? 0) then mret (RReturns (-1)) else mret (RSleeps dst n)
        else
          let c := cbuf k !!! Z.to_nat (cr k mod INPUT_BUF_SIZE) in
          let k' := mkCons (cbuf k) (u32 (cr k + 1)) (cw k) (ce k) in
          if c =? ctrl_D then
            _ ← set_con (if n <? target then mkCons (cbuf k) (u32 (cr k' - 1)) (cw k) (ce k) else k');
            mret (RReturns (target - n))
          else
            _ ← set_con k';
            rc ← on_ck (either_copyout user_dst dst [c]);
            if rc =? -1 then mret (RReturns (target - n))
            else if c =? NL then mret (RReturns (target - (n - 1)))
            else consoleread_loop fuel user_dst target (u64 (dst + 1)) (n - 1)
      else mret (RReturns (target - n))
  end.
Definition consoleread (user_dst : bool) (target dst n : Z) : M (cst F) read_part :=
  consoleread_loop (S (Z.to_nat n)) user_dst target dst n.

(** [consolewrite] from the head of its loop, [i] bytes sent. *)
Fixpoint consolewrite_loop (fuel : nat) (user_src : bool) (src n i : Z) : M (cst F) write_part :=
  match fuel with
  | O => diverge
  | S fuel =>
      if i <? n then
        let nn := if n - i <? 32 then n - i else 32 in
        r ← on_ck (either_copyin user_src (u64 (src + i)) nn);
        let '(rc, buf) := r in
        if rc =? -1 then mret (WReturns i)
        else
          rest ← uartwrite buf;
          if bool_decide (rest = []) then consolewrite_loop fuel user_src src n (i + nn)
          else mret (WSleeps i nn rest)
      else mret (WReturns i)
  end.
Definition consolewrite (user_src : bool) (src n : Z) : M (cst F) write_part :=
  consolewrite_loop (S (Z.to_nat n)) user_src src n 0.
(** Woken up, with [rest] of the chunk to send. *)
Definition consolewrite_resume (user_src : bool) (src n i nn : Z) (rest : list Z) : M (cst F) write_part :=
  rest ← uartwrite rest;
  if bool_decide (rest = []) then consolewrite_loop (S (Z.to_nat (n - i))) user_src src n (i + nn)
  else mret (WSleeps i nn rest).

(** The loop over [uartgetc]: [input] is what it returns until the receiver is
    empty. *)
Fixpoint uart_input (input : list Z) : M (cst F) unit :=
  match input with [] => mret tt | c :: input => _ ← consoleintr c; uart_input input end.

(** The interrupt: [idle] is the transmit-idle bit of the line status register. *)
Definition uartintr (idle : bool) (input : list Z) : M (cst F) unit :=
  _ ← (if idle then _ ← set_busy 0; wake TxChan else mret tt);
  uart_input input.
End console.
