(* ===== verification/ConsoleProofs.v ===== *)
(** What the console promises: a line discipline.

    [term] is what a terminal is to its user: the bytes of finished lines that
    nobody has read yet, and the line being typed.  The ring with its three
    counters implements it. *)
From S2P Require Import Prelude Riscv PhysMem Kalloc PageTable PtTree PtMap PtUser.
From S2P Require Import Memstat Proc FsIface Swap VmFault UserCopy Bytes ProcTable Console.

Record term : Type := mkTerm { ready : list Z; line : list Z }.

Definition size (a : term) : Z := Z.of_nat (length (ready a) + length (line a)).
Definition rubout : list Z := [8; 32; 8].

(** A key: the new state, the echo, and whether readers are woken. *)
Definition key (listing : list Z) (a : term) (c : Z) : term * list Z * list con_chan :=
  if c =? ctrl_P then (a, listing, [])
  else if c =? ctrl_U then (mkTerm (ready a) [], concat (replicate (length (line a)) rubout), [])
  else if (c =? ctrl_H) || (c =? DEL) then
    (mkTerm (ready a) (removelast (line a)), match line a with [] => [] | _ => rubout end, [])
  else if (c =? 0) || (INPUT_BUF_SIZE <=? size a) then (a, [], [])
  else
    let c := if c =? CR then NL else c in
    if (c =? NL) || (c =? ctrl_D) || (size a + 1 =? INPUT_BUF_SIZE) then (mkTerm (ready a ++ line a ++ [c]) [], [c], [ConsR])
    else (mkTerm (ready a) (line a ++ [c]), [c], []).

Fixpoint keys (listing : list Z) (a : term) (cs : list Z) : term * list Z * list con_chan :=
  match cs with
  | [] => (a, [], [])
  | c :: cs => let '(a1, o1, w1) := key listing a c in
               let '(a2, o2, w2) := keys listing a1 cs in (a2, o1 ++ o2, w1 ++ w2)
  end.

(** A read of [n] bytes, [n] out of [target]: what it gets, what is left, and
    whether the call is over. *)
Fixpoint take_line (n target : nat) (rd : list Z) : list Z * list Z * bool :=
  match n, rd with
  | O, _ => ([], rd, true)
  | S _, [] => ([], [], false)
  | S n', c :: rd' =>
      if c =? ctrl_D then ([], if (n <? target)%nat then rd else rd', true)
      else if c =? NL then ([c], rd', true)
      else let '(got, rest, over) := take_line n' target rd' in (c :: got, rest, over)
  end.

(** ** The ring *)
Definition window (buf : list Z) (i : Z) (n : nat) : list Z :=
  (fun k => buf !!! Z.to_nat ((i + k) mod INPUT_BUF_SIZE)) <$> zseq 0 n 1.

Lemma length_window buf i n : length (window buf i n) = n.
Proof. unfold window. by rewrite length_fmap, length_zseq. Qed.

Lemma u32_ring x : u32 x mod INPUT_BUF_SIZE = x mod INPUT_BUF_SIZE.
Proof.
  unfold u32, INPUT_BUF_SIZE. replace (2 ^ 32) with (128 * 33554432) by done.
  rewrite Z.rem_mul_r by lia. rewrite Z.mul_comm, Z.mod_add by lia. apply Z.mod_mod. lia.
Qed.

Lemma window_u32 buf i n : window buf (u32 i) n = window buf i n.
Proof.
  unfold window. apply list_fmap_ext. intros ? k _. do 2 f_equal.
  by rewrite <- Zplus_mod_idemp_l, u32_ring, Zplus_mod_idemp_l.
Qed.

Lemma window_app buf i n m : window buf i (n + m) = window buf i n ++ window buf (i + Z.of_nat n) m.
Proof.
  unfold window. rewrite zseq_app, fmap_app. f_equal. unfold zseq. rewrite <- !list_fmap_compose.
  apply list_fmap_ext. intros ? k _. unfold compose. do 3 f_equal. lia.
Qed.

Lemma window_S buf i n : window buf i (S n) = buf !!! Z.to_nat (i mod INPUT_BUF_SIZE) :: window buf (i + 1) n.
Proof. change (S n) with (1 + n)%nat. rewrite window_app. cbn. by rewrite Z.add_0_r. Qed.

(** The byte at [j] is outside the window. *)
Lemma window_insert buf i j n c : i + Z.of_nat n <= j < i + INPUT_BUF_SIZE ->
  window (<[Z.to_nat (j mod INPUT_BUF_SIZE) := c]> buf) i n = window buf i n.
Proof.
  intros Hj. unfold window. apply list_fmap_ext. intros ? k Hk. apply list_elem_of_lookup_2, elem_of_zseq in Hk as (q & Hq & ->).
  apply list_lookup_total_insert_ne. rewrite Z2Nat.inj_iff by (apply Z.mod_pos_bound; done).
  unfold INPUT_BUF_SIZE in *. Z.to_euclidean_division_equations. lia.
Qed.

Record con_rel (k : cons) (a : term) : Prop := {
  cn_len : length (cbuf k) = Z.to_nat INPUT_BUF_SIZE;
  cn_r : 0 <= cr k < 2 ^ 32;
  cn_w : cw k = u32 (cr k + Z.of_nat (length (ready a)));
  cn_e : ce k = u32 (cr k + size a);
  cn_bytes : window (cbuf k) (cr k) (length (ready a) + length (line a)) = ready a ++ line a;
  cn_size : size a <= INPUT_BUF_SIZE;
  cn_line : Forall (fun c => c <> NL) (line a);
  cn_byte : is_bytes (cbuf k)
}.

Lemma con_rel_used k a : con_rel k a -> u32 (ce k - cr k) = size a.
Proof.
  intros [_ Hr _ -> _ Hs _ _]. revert Hs. unfold size, u32, INPUT_BUF_SIZE. intros.
  rewrite Zminus_mod_idemp_l. rewrite Z.mod_small; lia.
Qed.

Lemma con_rel_editing k a : con_rel k a -> (ce k =? cw k) = bool_decide (line a = []).
Proof.
  intros [_ Hr -> -> _ Hs _ _]. apply eq_true_iff_eq. rewrite Z.eqb_eq, bool_decide_eq_true, <- length_zero_iff_nil.
  revert Hs. unfold size, u32, INPUT_BUF_SIZE. intros. rewrite Nat2Z.inj_add in *. split; intros H; [|rewrite H; f_equal; lia].
  Z.to_euclidean_division_equations. lia.
Qed.

Lemma con_rel_waiting k a : con_rel k a -> (cr k =? cw k) = bool_decide (ready a = []).
Proof.
  intros [_ Hr -> _ _ Hs _ _]. apply eq_true_iff_eq. rewrite Z.eqb_eq, bool_decide_eq_true, <- length_zero_iff_nil.
  revert Hs. unfold size, u32, INPUT_BUF_SIZE. intros. rewrite Nat2Z.inj_add in *. split; intros H.
  - Z.to_euclidean_division_equations. lia.
  - rewrite H. rewrite Z.mod_small; lia.
Qed.

(** A byte typed. *)
Lemma con_rel_type k a c (fin : bool) : con_rel k a -> size a < INPUT_BUF_SIZE -> 0 <= c < 256 -> (fin = false -> c <> NL) ->
  let e := u32 (ce k + 1) in
  con_rel (mkCons (<[Z.to_nat (ce k mod INPUT_BUF_SIZE) := c]> (cbuf k)) (cr k) (if fin then e else cw k) e)
    (if fin then mkTerm (ready a ++ line a ++ [c]) [] else mkTerm (ready a) (line a ++ [c])).
Proof.
  intros [Hl Hr Hw He Hb Hs Hn Hy] Hlt Hby Hc e.
  assert (Ee : e = u32 (cr k + (size a + 1))).
  { unfold e, u32. rewrite He. unfold u32. rewrite Zplus_mod_idemp_l. f_equal. lia. }
  assert (Hwin : window (<[Z.to_nat (ce k mod INPUT_BUF_SIZE) := c]> (cbuf k)) (cr k) (length (ready a) + length (line a) + 1) =
                 (ready a ++ line a) ++ [c]).
  { rewrite He, u32_ring, window_app, window_insert by (unfold size in *; lia). rewrite Hb. f_equal.
    rewrite window_S. cbn [window zseq seq fmap list_fmap]. f_equal. unfold size. apply list_lookup_total_insert_eq.
    rewrite Hl. pose proof (Z.mod_pos_bound (cr k + Z.of_nat (length (ready a) + length (line a))) INPUT_BUF_SIZE ltac:(done)). lia. }
  unfold size in *. destruct fin; split; cbn [cbuf cr cw ce ready line]; rewrite ?length_insert; try done;
    unfold size; cbn [ready line]; rewrite ?length_app; cbn [length].
  - rewrite Ee. f_equal. lia.
  - rewrite Ee. f_equal. lia.
  - rewrite Nat.add_0_r, app_nil_r. rewrite Nat.add_assoc, Hwin. by rewrite <- app_assoc.
  - lia.
  - by apply Forall_insert.
  - rewrite Ee. f_equal. lia.
  - rewrite Nat.add_assoc, Hwin. by rewrite <- app_assoc.
  - lia.
  - apply Forall_app. split; [done|]. repeat constructor. by apply Hc.
  - by apply Forall_insert.
Qed.

(** The last byte of the line rubbed out. *)
Lemma con_rel_rubout k a l c : con_rel k a -> line a = l ++ [c] ->
  cbuf k !!! Z.to_nat (u32 (ce k - 1) mod INPUT_BUF_SIZE) = c /\
  con_rel (mkCons (cbuf k) (cr k) (cw k) (u32 (ce k - 1))) (mkTerm (ready a) l).
Proof.
  intros [Hl Hr Hw He Hb Hs Hn Hy] El. unfold size in *. rewrite El, length_app in *. cbn [length] in *.
  rewrite Nat.add_assoc, window_app, app_assoc in Hb. apply app_inj_2 in Hb as [Hb1 Hb2]; [|by rewrite length_window].
  assert (Ee : u32 (ce k - 1) = u32 (cr k + Z.of_nat (length (ready a) + length l))).
  { rewrite He. unfold u32. rewrite Zminus_mod_idemp_l. f_equal. lia. }
  split.
  - rewrite Ee, u32_ring. rewrite window_S in Hb2. by injection Hb2.
  - split; cbn [cbuf cr cw ce ready line]; unfold size; cbn [ready line]; try done; [lia|]. apply Forall_app in Hn. apply Hn.
Qed.

Section intr.
Context `{HL : Layout} {F : Type} `{FO : !FsOps F} `{PO : !Policy}.
Context (listing : list Z).
Implicit Types s : cst F.

(** [s] with another ring, more output and more wakeups. *)
Definition moved s (k : cons) (o : list Z) (w : list con_chan) : cst F :=
  mkCst (ck s) k (sent s ++ o) (tx_busy s) (cwoken s ++ w) (panicked s).

Lemma moved_moved s k o w k' o' w' : moved (moved s k o w) k' o' w' = moved s k' (o ++ o') (w ++ w').
Proof. unfold moved. cbn. by rewrite <- !app_assoc. Qed.

Lemma moved_nil s : moved s (con s) [] [] = s.
Proof. unfold moved. rewrite !app_nil_r. by destruct s. Qed.

Lemma consputc_run s c : panicked s = false -> consputc c s = Ret tt (moved s (con s) (if c =? BACKSPACE then rubout else [c mod 256]) []).
Proof.
  intros Hp. unfold consputc, uartputc_sync, write_thr, moved, mbind, M_bind, getS, modS.
  destruct (c =? BACKSPACE); rewrite Hp; cbn; rewrite ?Hp; cbn; rewrite ?Hp, ?app_nil_r, <- ?app_assoc; done.
Qed.

Lemma kill_line_run fuel s a : con_rel (con s) a -> panicked s = false -> (length (line a) < fuel)%nat ->
  exists k, kill_line fuel s = Ret tt (moved s k (concat (replicate (length (line a)) rubout)) []) /\ con_rel k (mkTerm (ready a) []).
Proof.
  revert s a. induction fuel as [|fuel IH]; intros s a Hrel Hp Hf; [lia|]. cbn [kill_line].
  unfold mbind at 1, M_bind at 1, getS. rewrite (con_rel_editing _ _ Hrel).
  destruct (line a) as [|x l0] eqn:El0.
  { cbn. exists (con s). rewrite moved_nil. split; [done|]. destruct a. cbn in *. by subst. }
  rewrite bool_decide_eq_false_2 by done. rewrite <- El0 in *. cbn [negb andb].
  destruct (exists_last (l := line a)) as (l & c & El); [by rewrite El0|].
  destruct (con_rel_rubout _ _ _ _ Hrel El) as [Hc Hrel'].
  assert (c <> NL). { pose proof (cn_line _ _ Hrel) as Hn. rewrite El in Hn. apply Forall_app in Hn as [_ Hn]. by inversion Hn. }
  rewrite Hc, (proj2 (Z.eqb_neq c NL)) by done. cbn [negb]. unfold set_con. unfold mbind at 1, M_bind at 1, modS.
  erewrite bind_Ret by (by apply consputc_run). cbn [con].
  set (s1 := mkCst _ _ _ _ _ _). change (BACKSPACE =? BACKSPACE) with true. cbn match.
  destruct (IH (moved s1 (con s1) rubout []) (mkTerm (ready a) l) Hrel' Hp) as (k & R & Hk).
  { cbn [line]. rewrite El, length_app in Hf. cbn in Hf. lia. }
  exists k. change (con s1) with (mkCons (cbuf (con s)) (cr (con s)) (cw (con s)) (u32 (ce (con s) - 1))) in R. rewrite R. split; [|done].
  rewrite moved_moved. unfold moved, s1. cbn [ck sent tx_busy cwoken panicked line]. do 3 f_equal.
  rewrite El, length_app, Nat.add_comm. done.
Qed.

Definition is_byte (c : Z) : Prop := 0 <= c < 256.

(** One key. *)
Lemma consoleintr_run s a c : con_rel (con s) a -> panicked s = false -> is_byte c ->
  let '(a', o, w) := key listing a c in
  exists k, consoleintr listing c s = Ret tt (moved s k o w) /\ con_rel k a'.
Proof.
  intros Hrel Hp Hc. unfold key, consoleintr.
  destruct (c =? ctrl_P). { exists (con s). split; [|done]. unfold modS, moved. by rewrite app_nil_r. }
  destruct (c =? ctrl_U).
  { apply kill_line_run; [done|done|]. pose proof (cn_size _ _ Hrel). unfold size, INPUT_BUF_SIZE in *. lia. }
  unfold mbind at 1, M_bind at 1, getS. rewrite (con_rel_editing _ _ Hrel), (con_rel_used _ _ Hrel).
  destruct ((c =? ctrl_H) || (c =? DEL)).
  - destruct (line a) as [|x l0] eqn:El0.
    { rewrite bool_decide_eq_true_2 by done. exists (con s). rewrite moved_nil. split; [done|]. destruct a. cbn in *. by subst. }
    rewrite bool_decide_eq_false_2 by done. cbn [negb]. rewrite <- El0.
    destruct (exists_last (l := line a)) as (l & d & El); [by rewrite El0|].
    destruct (con_rel_rubout _ _ _ _ Hrel El) as [_ Hrel']. eexists. split.
    + unfold set_con. unfold mbind at 1, M_bind at 1, modS. rewrite consputc_run by done. reflexivity.
    + rewrite El, removelast_last. exact Hrel'.
  - destruct (Z.eqb_spec c 0) as [->|Hc0]; cbn [negb andb orb]; [exists (con s); by rewrite moved_nil|].
    rewrite Z.leb_antisym. destruct (Z.ltb_spec (size a) INPUT_BUF_SIZE) as [Hlt|]; cbn [negb]; [|exists (con s); by rewrite moved_nil].
    set (c' := if c =? CR then NL else c).
    assert (Hb : is_byte c') by (unfold c', is_byte in *; destruct (c =? CR); unfold NL; lia).
    rewrite (bind_Ret _ _ _ _ _ (consputc_run s c' Hp)). unfold is_byte in Hb.
    rewrite (proj2 (Z.eqb_neq c' BACKSPACE)) by (unfold BACKSPACE; lia). rewrite (Z.mod_small c' 256) by lia.
    replace (u32 (u32 (ce (con s) + 1) - cr (con s))) with (size a + 1).
    2:{ pose proof (con_rel_used _ _ Hrel) as Hu. pose proof (cn_size _ _ Hrel) as Hs. unfold INPUT_BUF_SIZE in *.
        unfold u32 in *. rewrite Zminus_mod_idemp_l. replace (ce (con s) + 1 - cr (con s)) with (ce (con s) - cr (con s) + 1) by lia.
        rewrite <- Zplus_mod_idemp_l, Hu. rewrite Z.mod_small; [lia|]. unfold size in *. lia. }
    destruct ((c' =? NL) || (c' =? ctrl_D) || (size a + 1 =? INPUT_BUF_SIZE)) eqn:Ef.
    + eexists. split; [|by apply (con_rel_type (con s) a c' true Hrel)].
      unfold set_con, wake, mbind, M_bind, modS, moved. cbn. by rewrite app_nil_r.
    + eexists. split; [reflexivity|]. apply (con_rel_type (con s) a c' false Hrel); [done|done|]. intros _ ->. done.
Qed.

Lemma uart_input_run cs s a : con_rel (con s) a -> panicked s = false -> Forall is_byte cs ->
  let '(a', o, w) := keys listing a cs in
  exists k, uart_input listing cs s = Ret tt (moved s k o w) /\ con_rel k a'.
Proof.
  revert s a. induction cs as [|c cs IH]; intros s a Hrel Hp Hcs; cbn [keys].
  { exists (con s). by rewrite moved_nil. }
  apply Forall_cons in Hcs as [Hc Hcs]. pose proof (consoleintr_run s a c Hrel Hp Hc) as H1.
  destruct (key listing a c) as [[a1 o1] w1]. destruct H1 as (k1 & R1 & Hrel1).
  specialize (IH (moved s k1 o1 w1) a1 Hrel1 Hp Hcs). destruct (keys listing a1 cs) as [[a2 o2] w2].
  destruct IH as (k2 & R2 & Hrel2). exists k2. split; [|done]. cbn [uart_input]. rewrite (bind_Ret _ _ _ _ _ R1), R2. by rewrite moved_moved.
Qed.

(** C26: the ring implements the line discipline: after an interrupt that
    brings any bytes, the bytes for the readers, the line being edited, the echo
    and the wakeups are those of [keys]: backspace and control-U work on the line
    being typed and nothing else, a line becomes readable whole, on newline,
    control-D or when the ring is full, and what does not fit is dropped. *)
Theorem console_input_correct idle s a cs : con_rel (con s) a -> panicked s = false -> Forall is_byte cs ->
  let '(a', o, w) := keys listing a cs in
  exists k, uartintr listing idle cs s =
      Ret tt (mkCst (ck s) k (sent s ++ o) (if idle then 0 else tx_busy s) (cwoken s ++ (if idle then [TxChan] else []) ++ w) false) /\
    con_rel k a'.
Proof.
  intros Hrel Hp Hcs. unfold uartintr.
  set (s0 := mkCst (ck s) (con s) (sent s) (if idle then 0 else tx_busy s) (cwoken s ++ (if idle then [TxChan] else [])) false).
  assert (E0 : (if idle then _ ← set_busy 0; wake TxChan else mret tt) s = Ret tt s0).
  { unfold s0. destruct idle; [by rewrite <- Hp|]. rewrite app_nil_r, <- Hp. by destruct s. }
  rewrite (bind_Ret _ _ _ _ _ E0).
  pose proof (uart_input_run cs s0 a Hrel eq_refl Hcs) as G. destruct (keys listing a cs) as [[a' o] w]. destruct G as (k & R & Hk).
  exists k. split; [|done]. rewrite R. unfold moved, s0. cbn. by rewrite app_assoc.
Qed.
End intr.

(** ** Reading *)
(** The first readable byte taken. *)
Lemma con_rel_take k a c rd : con_rel k a -> ready a = c :: rd ->
  cbuf k !!! Z.to_nat (cr k mod INPUT_BUF_SIZE) = c /\ 0 <= c < 256 /\
  con_rel (mkCons (cbuf k) (u32 (cr k + 1)) (cw k) (ce k)) (mkTerm rd (line a)) /\
  u32 (u32 (cr k + 1) - 1) = cr k.
Proof.
  intros [Hl Hr Hw He Hb Hs Hn Hy] Er. unfold size in *. rewrite Er in *. cbn [length app Nat.add] in *.
  rewrite window_S in Hb. injection Hb as Hc Hb.
  assert (Eu : forall x, u32 (u32 (cr k + 1) + x) = u32 (cr k + (1 + x))) by (intros; unfold u32; rewrite Zplus_mod_idemp_l; f_equal; lia).
  split_and!; [done| | | |].
  1-2: rewrite <- Hc; pose proof (Z.mod_pos_bound (cr k) INPUT_BUF_SIZE ltac:(done));
    destruct (lookup_lt_is_Some_2 (cbuf k) (Z.to_nat (cr k mod INPUT_BUF_SIZE))) as [x Hx]; [lia|];
    rewrite (list_lookup_total_correct _ _ _ Hx); by apply (Forall_lookup_1 _ _ _ _ Hy Hx).
  - split; cbn [cbuf cr cw ce ready line]; unfold size; cbn [ready line]; rewrite ?Eu, ?window_u32; try done.
    + apply u32_range.
    + rewrite Hw. f_equal. lia.
    + rewrite He. f_equal. lia.
    + lia.
  - rewrite <- Z.add_opp_r, Eu. unfold u32. rewrite Z.mod_small; lia.
Qed.

Section read.
Context `{HL : Layout} `{!LayoutOk} {F : Type} `{FO : !FsOps F} {PO : Policy}.
Implicit Types s : cst F.

Lemma on_ck_Ret {A} (m : M (kst F) A) s a k' :
  m (ck s) = Ret a k' -> on_ck m s = Ret a (mkCst k' (con s) (sent s) (tx_busy s) (cwoken s) (panicked s)).
Proof. intros E. unfold on_ck. by rewrite (zoom_Ret _ _ _ _ _ _ E). Qed.

(** [s'] is [s] with the bytes [got] in the memory of the process at [dst] and
    [a] in the ring. *)
Record delivered (root lim : Z) (Fr : list Z) (dst : Z) (got : list Z) (a : term) s s' : Prop := {
  de_wrote : wrote root lim Fr dst got (k_pm (ck s)) (k_pm (ck s'));
  de_con : con_rel (con s') a;
  de_rest : s' = mkCst (set_pm (k_pm (ck s')) (ck s)) (con s') (sent s) (tx_busy s) (cwoken s) (panicked s)
}.

Lemma delivered_nil root lim Fr dst a k s : as_inv (k_pm (ck s)) root Fr lim -> con_rel k a ->
  delivered root lim Fr dst [] a s (mkCst (ck s) k (sent s) (tx_busy s) (cwoken s) (panicked s)).
Proof. intros Has Hk. split; [by apply wrote_nil|done|]. by destruct s as [[]]. Qed.

Lemma consoleread_run n (target : nat) fuel dst s a Fr lim :
  as_inv (k_pm (ck s)) (pagetable (k_p (ck s))) Fr lim -> p_killed (p_sched (k_p (ck s))) = 0 -> con_rel (con s) a ->
  0 <= dst -> dst + Z.of_nat n <= lim -> (n < fuel)%nat ->
  (forall x, dst <= x < dst + Z.of_nat n -> writable (pm_mem (k_pm (ck s))) (pagetable (k_p (ck s))) x) ->
  let '(got, rest, over) := take_line n target (ready a) in
  let m := Z.of_nat (length got) in
  exists s', consoleread_loop fuel true (Z.of_nat target) dst (Z.of_nat n) s =
      Ret (if over then RReturns (Z.of_nat target - Z.of_nat n + m) else RSleeps (dst + m) (Z.of_nat n - m)) s' /\
    delivered (pagetable (k_p (ck s))) lim Fr dst got (mkTerm rest (line a)) s s'.
Proof.
  revert n dst s a. induction fuel as [|fuel IH]; intros n dst s a Has Hk Hrel Hd Hlim Hf Hwr; [lia|].
  pose proof (as_lim _ _ _ _ Has). pose proof MAXVA_eq.
  assert (Es : s = mkCst (ck s) (con s) (sent s) (tx_busy s) (cwoken s) (panicked s)) by (by destruct s).
  assert (Ea : a = mkTerm (ready a) (line a)) by (by destruct a).
  cbn [consoleread_loop]. destruct n as [|n].
  { cbn. exists (mkCst (ck s) (con s) (sent s) (tx_busy s) (cwoken s) (panicked s)). rewrite <- Ea.
    split; [rewrite <- Es; by rewrite Z.sub_0_r, Z.add_0_r|]. by apply delivered_nil. }
  rewrite (proj2 (Z.ltb_lt 0 (Z.of_nat (S n)))) by lia. unfold mbind at 1, M_bind at 1, getS. rewrite (con_rel_waiting _ _ Hrel).
  destruct (ready a) as [|c rd] eqn:Er; cbn [take_line].
  { rewrite bool_decide_eq_true_2 by done. assert (Hkill : killed (ck s) = Ret 0 (ck s)) by (unfold killed, gets; by rewrite Hk).
    rewrite (bind_Ret _ _ _ _ _ (on_ck_Ret killed s 0 (ck s) Hkill)). cbn. eexists. split; [do 2 f_equal; lia|].
    apply delivered_nil; [done|]. by rewrite <- Ea. }
  rewrite bool_decide_eq_false_2 by done. destruct (con_rel_take _ _ _ _ Hrel Er) as (Hc & Hby & Hrel' & Hback).
  rewrite Hc. destruct (Z.eqb_spec c ctrl_D) as [->|Hcd].
  { eexists. split; [cbn [length]; rewrite Z.add_0_r; reflexivity|].
    replace (Z.of_nat (S n) <? Z.of_nat target) with (S n <? target)%nat by (apply eq_true_iff_eq; rewrite Nat.ltb_lt, Z.ltb_lt; lia).
    apply delivered_nil; [done|]. destruct (S n <? target)%nat; [|done]. cbn [cr]. rewrite Hback, <- Ea.
    assert (mkCons (cbuf (con s)) (cr (con s)) (cw (con s)) (ce (con s)) = con s) as -> by (by destruct (con s)). done. }
  set (k' := mkCons _ _ _ _) in *. set (s1 := mkCst (ck s) k' (sent s) (tx_busy s) (cwoken s) (panicked s)).
  unfold set_con. unfold mbind at 1, M_bind at 1, modS. fold s1.
  destruct (copyout_run (ck s) (pagetable (k_p (ck s))) Fr lim dst [c] Has ltac:(lia)) as (pm' & R & W); [cbn; lia| | |].
  { constructor; [done|constructor]. }
  { intros x Hx. apply Hwr. cbn in Hx. lia. }
  assert (R' : either_copyout true dst [c] (ck s1) = Ret 0 (set_pm pm' (ck s1))) by (unfold either_copyout; exact R).
  rewrite (bind_Ret _ _ _ _ _ (on_ck_Ret _ s1 _ _ R')). cbn [Z.eqb]. set (s2 := mkCst (set_pm pm' (ck s1)) (con s1) _ _ _ _).
  destruct (Z.eqb_spec c NL) as [->|Hnl].
  { exists s2. split; [cbn [length]; do 2 f_equal; lia|]. split; [exact W|exact Hrel'|done]. }
  rewrite u64_small by lia. replace (Z.of_nat (S n) - 1) with (Z.of_nat n) by lia.
  specialize (IH n (dst + 1) s2 (mkTerm rd (line a))). cbn [ready line] in IH.
  destruct (take_line n target rd) as [[got rest] over]. cbn [length].
  destruct IH as (s' & R2 & [HW HC HR]).
  - apply W.
  - done.
  - done.
  - lia.
  - lia.
  - lia.
  - intros x Hx. destruct (Hwr x ltac:(lia)) as [[? ?] ?]. unfold writable, readable. cbn [s2 ck k_pm set_pm]. by rewrite !(wr_pte _ _ _ _ _ _ _ W).
  - exists s'. split; [rewrite R2; destruct over; do 2 f_equal; lia|]. split; [|done|].
    + eapply (wrote_trans _ _ _ _ 1%nat); [cbn; lia|exact W|]. cbn [drop]. exact HW.
    + rewrite HR. done.
Qed.

(** a read of [n] bytes takes from the finished lines, in order, up to
    [n] bytes and not beyond a newline, which it keeps, or a control-D, which ends
    it; a control-D after other bytes stays for the next read, which then returns
    0.  If the lines run out first it has stored what it got and sleeps.  The line
    being edited is not touched. *)
Theorem consoleread_correct (n target : nat) dst s a Fr lim :
  as_inv (k_pm (ck s)) (pagetable (k_p (ck s))) Fr lim -> p_killed (p_sched (k_p (ck s))) = 0 -> con_rel (con s) a ->
  0 <= dst -> dst + Z.of_nat n <= lim ->
  (forall x, dst <= x < dst + Z.of_nat n -> writable (pm_mem (k_pm (ck s))) (pagetable (k_p (ck s))) x) ->
  let '(got, rest, over) := take_line n target (ready a) in
  let m := Z.of_nat (length got) in
  exists s', consoleread true (Z.of_nat target) dst (Z.of_nat n) s =
      Ret (if over then RReturns (Z.of_nat target - Z.of_nat n + m) else RSleeps (dst + m) (Z.of_nat n - m)) s' /\
    delivered (pagetable (k_p (ck s))) lim Fr dst got (mkTerm rest (line a)) s s'.
Proof. intros. unfold consoleread. apply consoleread_run; (done || lia). Qed.

(** ** Writing *)
(** The transmitter finishes a byte. *)
Definition tx_done s : cst F := mkCst (ck s) (con s) (sent s) 0 (cwoken s ++ [TxChan]) (panicked s).

(** [k] times, the transmitter finishes and the writer runs again. *)
Fixpoint write_rounds (k : nat) (src n i nn : Z) (rest : list Z) s : outcome (cst F) write_part :=
  match k with
  | O => Ret (WSleeps i nn rest) s
  | S k => match consolewrite_resume true src n i nn rest (tx_done s) with
           | Ret (WSleeps i nn rest) s' => write_rounds k src n i nn rest s'
           | o => o
           end
  end.

Definition after_tx s (o : list Z) : cst F := mkCst (ck s) (con s) (sent s ++ o) 1 (cwoken s) (panicked s).

Lemma uartwrite_idle s b rest : tx_busy s = 0 -> uartwrite (b :: rest) s = Ret rest (after_tx s [b mod 256]).
Proof.
  intros Hb. cbn [uartwrite]. unfold mbind at 1, M_bind at 1, getS. rewrite Hb. cbn [Z.eqb negb].
  unfold write_thr, set_busy, modS, mbind, M_bind. destruct rest; done.
Qed.

Lemma uartwrite_busy s buf : tx_busy s = 1 -> uartwrite buf s = Ret buf s.
Proof. intros Hb. destruct buf; [done|]. cbn [uartwrite]. unfold mbind, M_bind, getS. by rewrite Hb. Qed.

End read.

Section write.
Context `{HL : Layout} `{!LayoutOk} {F : Type} `{FO : !FsOps F} {PO : Policy}.
Context (k0 : kst F) (Fr : list Z) (lim src n : Z).
Context (Has : as_inv (k_pm k0) (pagetable (k_p k0)) Fr lim) (Hsrc : 0 <= src) (Hlim : src + n <= lim).
Context (Hread : forall x, src <= x < src + n -> readable (pm_mem (k_pm k0)) (pagetable (k_p k0)) x).
Implicit Types s : cst F.

(** What the process writes. *)
Definition text : list Z := ubytes (pm_mem (k_pm k0)) (pagetable (k_p k0)) src (Z.to_nat n).

Lemma text_chunk i nn : 0 <= i -> 0 <= nn -> i + nn <= n ->
  ubytes (pm_mem (k_pm k0)) (pagetable (k_p k0)) (src + i) (Z.to_nat nn) = take (Z.to_nat nn) (drop (Z.to_nat i) text).
Proof.
  intros Hi Hn Hle. unfold text, ubytes.
  replace (Z.to_nat n) with (Z.to_nat i + (Z.to_nat nn + Z.to_nat (n - i - nn)))%nat by lia.
  rewrite !zseq_app, !fmap_app. rewrite drop_app_length' by (by rewrite length_fmap, length_zseq).
  rewrite take_app_length' by (by rewrite length_fmap, length_zseq). do 2 f_equal. lia.
Qed.

Lemma text_length : 0 <= n -> length text = Z.to_nat n.
Proof. intros. unfold text, ubytes. by rewrite length_fmap, length_zseq. Qed.

Lemma text_byte b j : text !! j = Some b -> b mod 256 = b.
Proof.
  unfold text, ubytes. rewrite list_lookup_fmap. destruct (zseq _ _ _ !! j); [|done]. intros [= <-]. apply Z.mod_mod. lia.
Qed.

(** [j] bytes have been sent and the rest of the chunk at [i] waits. *)
Record waiting (j i nn : Z) (rest : list Z) : Prop := {
  wt_i : 0 <= i <= j;
  wt_nn : j < i + nn <= n;
  wt_rest : rest = take (Z.to_nat (i + nn - j)) (drop (Z.to_nat j) text)
}.

(** The head of the loop copies the next chunk in. *)
Lemma consolewrite_loop_head fuel i s : ck s = k0 -> 0 <= i < n ->
  let nn := if n - i <? 32 then n - i else 32 in
  consolewrite_loop (S fuel) true src n i s =
    (rest ← uartwrite (take (Z.to_nat nn) (drop (Z.to_nat i) text));
     if bool_decide (rest = []) then consolewrite_loop fuel true src n (i + nn) else mret (WSleeps i nn rest)) s.
Proof.
  intros Ek Hi nn. assert (Hnn : 0 < nn <= n - i) by (unfold nn; destruct (Z.ltb_spec (n - i) 32); lia).
  pose proof (as_lim _ _ _ _ Has). pose proof MAXVA_eq.
  cbn [consolewrite_loop]. rewrite (proj2 (Z.ltb_lt i n)) by lia. fold nn. rewrite u64_small by lia.
  assert (R : either_copyin true (src + i) nn (ck s) = Ret (0, take (Z.to_nat nn) (drop (Z.to_nat i) text)) (ck s)).
  { rewrite Ek. unfold either_copyin. change ((myproc ≫= ?h) k0) with (h (k_p k0) k0). cbv beta.
    rewrite (copyin_run k0 _ Fr lim (src + i) nn Has) by (try lia; intros; apply Hread; lia). rewrite text_chunk by lia. done. }
  rewrite (bind_Ret _ _ _ _ _ (on_ck_Ret _ s _ _ R)). cbn [Z.eqb]. by destruct s.
Qed.

(** The end of a chunk, or the loop again, the transmitter being busy. *)
Lemma chunk_end fuel j i nn s : ck s = k0 -> tx_busy s = 1 -> 0 <= i <= j -> j <= i + nn <= n -> 0 < nn -> (0 < fuel)%nat ->
  let rest := take (Z.to_nat (i + nn - j)) (drop (Z.to_nat j) text) in
  let o := (if bool_decide (rest = []) then consolewrite_loop fuel true src n (i + nn) else mret (WSleeps i nn rest)) s in
  if j =? n then o = Ret (WReturns n) s else exists i' nn' rest', o = Ret (WSleeps i' nn' rest') s /\ waiting j i' nn' rest'.
Proof.
  intros Ek Hb Hi Hj Hnn Hf rest o.
  assert (Hlen : length rest = Z.to_nat (i + nn - j)) by (unfold rest; rewrite length_take, length_drop, text_length; lia).
  destruct fuel as [|fuel]; [lia|]. destruct (decide (j = i + nn)) as [Ej|Ne].
  - assert (rest = []) as Er by (apply nil_length_inv; lia). unfold o. rewrite Er, bool_decide_eq_true_2 by done. rewrite <- Ej.
    destruct (Z.eqb_spec j n) as [->|Hn]; [cbn [consolewrite_loop]; by rewrite (proj2 (Z.ltb_ge n n)) by lia|].
    rewrite consolewrite_loop_head by (done || lia). set (nn' := if n - j <? 32 then n - j else 32).
    assert (Hnn' : 0 < nn' <= n - j) by (unfold nn'; destruct (Z.ltb_spec (n - j) 32); lia).
    rewrite (bind_Ret _ _ _ _ _ (uartwrite_busy s _ Hb)). rewrite bool_decide_eq_false_2.
    2:{ intros E%(f_equal length). rewrite length_take, length_drop, text_length in E by lia. cbn in E. lia. }
    eexists _, _, _. split; [reflexivity|]. split; [lia|lia|]. by replace (j + nn' - j) with nn' by lia.
  - rewrite (proj2 (Z.eqb_neq j n)) by lia. unfold o. rewrite bool_decide_eq_false_2 by (intros E; rewrite E in Hlen; cbn in Hlen; lia).
    eexists _, _, _. split; [reflexivity|]. split; [lia|lia|done].
Qed.

(** One byte goes out. *)
Lemma chunk_step fuel j i nn rest s : ck s = k0 -> tx_busy s = 0 -> waiting j i nn rest -> (0 < fuel)%nat ->
  let o := (rest ← uartwrite rest;
            if bool_decide (rest = []) then consolewrite_loop fuel true src n (i + nn) else mret (WSleeps i nn rest)) s in
  exists b, text !! Z.to_nat j = Some b /\
    if j + 1 =? n then o = Ret (WReturns n) (after_tx s [b])
    else exists i' nn' rest', o = Ret (WSleeps i' nn' rest') (after_tx s [b]) /\ waiting (j + 1) i' nn' rest'.
Proof.
  intros Ek Hb [Hi Hn ->] Hf o. destruct (lookup_lt_is_Some_2 text (Z.to_nat j)) as [b Eb]; [rewrite text_length; lia|].
  exists b. split; [done|]. unfold o. rewrite (drop_S text b) by done.
  replace (Z.to_nat (i + nn - j)) with (S (Z.to_nat (i + nn - (j + 1)))) by lia. cbn [take].
  rewrite (bind_Ret _ _ _ _ _ (uartwrite_idle s _ _ Hb)), (text_byte _ _ Eb).
  replace (S (Z.to_nat j)) with (Z.to_nat (j + 1)) by lia.
  apply (chunk_end fuel (j + 1) i nn (after_tx s [b])); (done || lia).
Qed.

Lemma write_rounds_run m : forall j i nn rest s, ck s = k0 -> waiting j i nn rest -> j + Z.of_nat (S m) = n ->
  exists s', write_rounds (S m) src n i nn rest s = Ret (WReturns n) s' /\ sent s' = sent s ++ drop (Z.to_nat j) text /\ con s' = con s /\ ck s' = k0.
Proof.
  induction m as [|m IH]; intros j i nn rest s Ek Hw Hj; pose proof (wt_i _ _ _ _ Hw) as Hij; cbn [write_rounds]; unfold consolewrite_resume;
    destruct (chunk_step (S (Z.to_nat (n - i))) j i nn rest (tx_done s) Ek eq_refl Hw ltac:(lia)) as (b & Eb & R);
    rewrite (drop_S text b) by done; replace (S (Z.to_nat j)) with (Z.to_nat (j + 1)) by lia.
  - rewrite (proj2 (Z.eqb_eq _ _)) in R by lia. rewrite R. eexists. split; [reflexivity|].
    rewrite drop_ge by (rewrite text_length; lia). done.
  - rewrite (proj2 (Z.eqb_neq _ _)) in R by lia. destruct R as (i' & nn' & rest' & -> & Hw').
    destruct (IH (j + 1) i' nn' rest' (after_tx (tx_done s) [b])) as (s' & R' & Hs & Hc & Hk); [done|done|lia|].
    exists s'. cbn [write_rounds] in R'. split; [exact R'|]. split; [|done]. rewrite Hs. cbn. by rewrite <- app_assoc.
Qed.
End write.

Section write_claim.
Context `{HL : Layout} `{!LayoutOk} {F : Type} `{FO : !FsOps F} {PO : Policy}.
Implicit Types s : cst F.

(** a write to the console sends the bytes of the process, all of
    them, once and in order: with the transmitter idle the call sends the first
    and sleeps, each interrupt lets the next one out, and after the last the call
    returns their number. *)
Theorem consolewrite_correct s Fr lim src (m : nat) :
  let n := Z.of_nat (S m) in
  as_inv (k_pm (ck s)) (pagetable (k_p (ck s))) Fr lim -> 0 <= src -> src + n <= lim -> tx_busy s = 0 ->
  (forall x, src <= x < src + n -> readable (pm_mem (k_pm (ck s))) (pagetable (k_p (ck s))) x) ->
  exists s', match consolewrite true src n s with
             | Ret (WSleeps i nn rest) s1 => write_rounds m src n i nn rest s1
             | o => o
             end = Ret (WReturns n) s' /\
    sent s' = sent s ++ ubytes (pm_mem (k_pm (ck s))) (pagetable (k_p (ck s))) src (S m) /\ con s' = con s /\ ck s' = ck s.
Proof.
  intros n Has Hsrc Hlim Hb Hread. assert (Hn : 0 < n) by lia. unfold consolewrite.
  rewrite (consolewrite_loop_head (ck s) Fr lim src n Has Hsrc Hlim Hread) by (done || lia). rewrite Z.sub_0_r.
  set (nn := if n <? 32 then n else 32). assert (Hnn : 0 < nn <= n) by (unfold nn; destruct (Z.ltb_spec n 32); lia).
  destruct (chunk_step (ck s) Fr lim src n Has Hsrc Hlim Hread (Z.to_nat n) 0 0 nn (take (Z.to_nat nn) (drop (Z.to_nat 0) (text (ck s) src n))) s)
    as (b & Eb & R); [done|done|split; [lia|lia|by rewrite Z.add_0_l, Z.sub_0_r]|lia|].
  replace (S m) with (Z.to_nat n) by lia. fold (text (ck s) src n).
  assert (Et : text (ck s) src n = b :: drop 1 (text (ck s) src n)) by (rewrite <- (drop_S (text (ck s) src n) b 0) by done; by rewrite drop_0).
  destruct m as [|m].
  - rewrite (proj2 (Z.eqb_eq _ _)) in R by done. rewrite R. eexists. split; [reflexivity|]. split; [|done].
    rewrite Et, drop_ge; [done|]. rewrite text_length; lia.
  - rewrite (proj2 (Z.eqb_neq _ _)) in R by lia. destruct R as (i' & nn' & rest' & -> & Hw).
    destruct (write_rounds_run (ck s) Fr lim src n Has Hsrc Hlim Hread m (0 + 1) i' nn' rest' (after_tx s [b])) as (s' & R' & Hs & Hc & Hk);
      [done|done|lia|]. exists s'. split; [exact R'|]. split; [|done]. rewrite Hs, Et. cbn [after_tx sent]. by rewrite <- app_assoc.
Qed.
End write_claim.
