(* ===== verification/DemoDev.v ===== *)
(** A pipe whose counters are about to wrap around, and a console with a line typed
    into it while its counters pass 2^32, used by a process with two pages of
    memory. *)
From S2P Require Import Prelude Riscv PhysMem Kalloc PageTable PtTree PtMap PtUser Memstat.
From S2P Require Import Proc FsIface Swap VmFault UserCopy Demo DemoPaging Pipe.

#[local] Existing Instance fifo.

(** ** A pipe whose counters are about to wrap around, with two bytes in transit *)
Definition pipe0 : pipe := mkPipe (<[510%nat := 1]> (<[511%nat := 2]> (replicate 512 0))) (2 ^ 32 - 2) 0 1 1.
Definition ps0 : pst flat := mkPst k_user (fun _ => pipe0) [].

Lemma pipe0_inv : pipe_inv pipe0.
Proof.
  split; [vm_compute; reflexivity|by compute_now..|].
  unfold pipe0. cbn [data]. apply Forall_insert; [|lia]. apply Forall_insert; [|lia]. apply Forall_replicate. lia.
Qed.

Lemma pipewrite_witness : exists s', pipewrite 0 4094 4 1 ps0 = Ret (Returns 4) s' /\ length (queue (pipes s' 0)) = 5%nat.
Proof.
  destruct user1_run as (F' & _ & G).
  assert (T := pipewrite_correct 0 4094 4 1 ps0 F' MAXVA). cbv zeta in T.
  destruct T as (s' & R & _ & _ & _ & Q).
  - apply G.
  - reflexivity.
  - exact pipe0_inv.
  - lia.
  - lia.
  - by compute_now.
  - intros x Hx. apply user1_writable. unfold PGSIZE. lia.
  - exists s'. split; [exact R|]. rewrite Q. reflexivity.
Defined.

Lemma piperead_witness : exists s', piperead 0 4095 7 ps0 = Ret (Returns 2) s' /\
  ubyte (pm_mem (k_pm (pk s'))) root 4096 = 2 /\ queue (pipes s' 0) = [].
Proof.
  destruct user1_run as (F' & _ & G).
  assert (T := piperead_correct 0 4095 7 ps0 F' MAXVA). cbv zeta in T.
  destruct T as (s' & R & _ & Q & W & _).
  - apply G.
  - reflexivity.
  - exact pipe0_inv.
  - lia.
  - lia.
  - by compute_now.
  - intros x Hx. apply user1_writable. unfold PGSIZE. lia.
  - exists s'. split; [exact R|]. split; [|rewrite Q; reflexivity].
    exact (wr_byte _ _ _ _ _ _ _ W 4096 ltac:(by compute_now) (user1_mapped 4096 ltac:(by compute_now))).
Defined.

(** ** The console *)
From S2P Require Import Prelude Riscv PhysMem Kalloc PageTable PtTree PtMap PtUser PtFree PtCopy Memstat Proc FsIface Swap SwapProofs VmFault Evict UserCopy Bytes.
From S2P Require Import ProcTable Demo DemoPaging Console ConsoleProofs.

(** The ring with the bytes [l] at the counter 2^32 - 2. *)
Definition ring_start : Z := 2 ^ 32 - 2.
Definition ring : list Z := <[126%nat := 104]> (<[127%nat := 105]> (<[0%nat := NL]> (<[1%nat := 111]> (replicate 128 0)))).
Definition cons_line : cons := mkCons ring ring_start 1 2.
Definition tty : cst flat := mkCst k_user cons_line [] 0 [] false.

(** "hi" with its newline is ready, "o" is being typed. *)
Lemma cons_line_rel : con_rel cons_line (mkTerm [104; 105; NL] [111]).
Proof.
  split; try reflexivity; try (by compute_now).
  - repeat constructor; discriminate.
  - unfold is_bytes, cons_line, ring, cbuf. repeat apply Forall_insert; try apply Forall_replicate; unfold NL; lia.
Qed.

(** A rubout, "k" and a newline are typed. *)
Lemma console_input_witness : exists k, uartintr [] true [DEL; 107; CR] tty =
  Ret tt (mkCst k_user k [8; 32; 8; 107; NL] 0 [TxChan; ConsR] false) /\ con_rel k (mkTerm [104; 105; NL; 107; NL] []).
Proof.
  refine (console_input_correct [] true tty (mkTerm [104; 105; NL] [111]) [DEL; 107; CR] cons_line_rel eq_refl _).
  repeat constructor; discriminate.
Defined.

(** A read of ten bytes gets the line. *)
Lemma consoleread_witness : exists s' F', consoleread true 10 4094 10 tty = Ret (RReturns 3) s' /\
  delivered root MAXVA F' 4094 [104; 105; NL] (mkTerm [] [111]) tty s'.
Proof.
  destruct user1_run as (F' & _ & G).
  destruct (consoleread_correct 10 10 4094 tty (mkTerm [104; 105; NL] [111]) F' MAXVA) as (s' & R & D);
    [apply G|reflexivity|exact cons_line_rel|by compute_now..|intros x Hx; apply user1_writable; cbn in Hx; unfold PGSIZE; lia|].
  exists s', F'. split; [exact R|exact D].
Defined.

(** A write of forty zero bytes, in two chunks. *)
Lemma consolewrite_witness : exists s', match consolewrite true 100 (Z.of_nat 40) tty with
    | Ret (WSleeps i nn rest) s1 => write_rounds 39 100 (Z.of_nat 40) i nn rest s1
    | o => o
    end = Ret (WReturns (Z.of_nat 40)) s' /\ sent s' = sent tty ++ ubytes (pm_mem user1) root 100 40.
Proof.
  destruct user1_run as (F' & _ & G).
  destruct (consolewrite_correct tty F' MAXVA 100 39) as (s' & R & E & _);
    [apply G|by compute_now..|intros x Hx; apply (user1_writable x); cbn in Hx; unfold PGSIZE; lia|].
  exists s'. split; [exact R|exact E].
Defined.
