(* ===== verification/UserSh.v ===== *)
(** The shell's parser, user/sh.c.

    A command line is the list of its bytes; a pointer into it is an index, and
    reading at the end gives the terminator.  The parser keeps its place in [ps],
    the state of the monad; [panic], which prints and exits, is [Panic].  A word
    is the pair of pointers [q] and [eq] to its first byte and past its last; when
    the whole line has been parsed [nulterminate] puts a zero after every word.

    [parseexec] makes the [execcmd] first and fills it while redirections are
    wrapped around it; as the node is the same one, the tree it returns is the
    redirections around the [EXEC] with all the words, which is what [wrap]
    builds. *)
From S2P Require Import Prelude Riscv PhysMem SysFile Printf.

Definition MAXARGS : nat := 10.

(** A word of the line. *)
Definition word : Type := nat * nat.

(** [W] is what stands for a word: the two pointers, or its bytes. *)
Inductive tree (W : Type) : Type :=
  | EXEC (argv : list W)
  | REDIR (c : tree W) (file : W) (mode fd : Z)
  | PIPE (left right : tree W)
  | LIST (left right : tree W)
  | BACK (c : tree W).
Arguments EXEC {W}.
Arguments REDIR {W}.
Arguments PIPE {W}.
Arguments LIST {W}.
Arguments BACK {W}.
Definition cmd : Type := tree word.

Definition whitespace : list Z := [32; 9; 13; 10; 11].
Definition symbols : list Z := bytes_of "<|>&;()".

(** [strchr(l, c) != 0] *)
Definition strchr (l : list Z) (c : Z) : bool := existsb (Z.eqb c) l.

Record redir : Type := mkRedir { rd_file : word; rd_mode : Z; rd_fd : Z }.
Definition redircmd (c : cmd) (r : redir) : cmd := REDIR c (rd_file r) (rd_mode r) (rd_fd r).
Definition wrap (c : cmd) (rs : list redir) : cmd := foldl redircmd c rs.

Section parser.
(** The line, and [es]. *)
Variable buf : list Z.
Definition es : nat := length buf.
Definition ch (s : nat) : Z := default 0 (buf !! s).

(** [while(s < es && p( *s )) s++;], [n] is [es - s]. *)
Fixpoint scan (p : Z -> bool) (n s : nat) : nat :=
  match n with O => s | S n => if p (ch s) then scan p n (S s) else s end.
Definition skip (s : nat) : nat := scan (strchr whitespace) (es - s) s.
Definition plain (c : Z) : bool := negb (strchr whitespace c) && negb (strchr symbols c).

(** The token's kind, [q] and [eq]. *)
Definition gettoken : M nat (Z * nat * nat) :=
  s ← getS;
  let q := skip s in
  let c := ch q in
  let '(ret, eq) :=
    if c =? 0 then (c, q)
    else if strchr (bytes_of "|();&<") c then (c, S q)
    else if c =? chr ">" then (if ch (S q) =? chr ">" then (chr "+", S (S q)) else (c, S q))
    else (chr "a", scan plain (es - q) q) in
  _ ← putS (skip eq);
  mret (ret, q, eq).

Definition peek (toks : list Z) : M nat bool :=
  s ← getS;
  let s := skip s in
  _ ← putS s;
  mret (negb (ch s =? 0) && strchr toks (ch s)).

(** The loop of [parseredirs]; each turn reads two tokens. *)
Fixpoint redirs_loop (fuel : nat) : M nat (list redir) :=
  match fuel with
  | O => diverge
  | S fuel =>
      b ← peek (bytes_of "<>");
      if negb b then mret []
      else
        t ← gettoken;
        let '(tok, _, _) := t in
        f ← gettoken;
        let '(k, q, eq) := f in
        if negb (k =? chr "a") then panic "missing file for redirection"
        else
          rs ← redirs_loop fuel;
          mret (if tok =? chr "<" then mkRedir (q, eq) O_RDONLY 0 :: rs
                else if tok =? chr ">" then mkRedir (q, eq) (Z.lor (Z.lor O_WRONLY O_CREATE) O_TRUNC) 1 :: rs
                else if tok =? chr "+" then mkRedir (q, eq) (Z.lor O_WRONLY O_CREATE) 1 :: rs
                else rs)
  end.
Definition parseredirs : M nat (list redir) := s ← getS; redirs_loop (S (es - s)).

(** The loop of [parseexec], with the words and redirections so far. *)
Fixpoint args_loop (fuel : nat) (argv : list word) (rs : list redir) : M nat (list word * list redir) :=
  match fuel with
  | O => diverge
  | S fuel =>
      b ← peek (bytes_of "|)&;");
      if (b : bool) then mret (argv, rs)
      else
        t ← gettoken;
        let '(tok, q, eq) := t in
        if tok =? 0 then mret (argv, rs)
        else if negb (tok =? chr "a") then panic "syntax"
        else
          let argv := argv ++ [(q, eq)] in
          if (MAXARGS <=? length argv)%nat then panic "too many args"
          else
            rs' ← parseredirs;
            args_loop fuel argv (rs ++ rs')
  end.

(** The loop of [parseline] over [&]. *)
Fixpoint back_loop (fuel : nat) (c : cmd) : M nat cmd :=
  match fuel with
  | O => diverge
  | S fuel =>
      b ← peek (bytes_of "&");
      if (b : bool) then _ ← gettoken; back_loop fuel (BACK c) else mret c
  end.

Fixpoint parseline (fuel : nat) : M nat cmd :=
  match fuel with
  | O => diverge
  | S fuel =>
      c ← parsepipe fuel;
      s ← getS;
      c ← back_loop (S (es - s)) c;
      b ← peek (bytes_of ";");
      if (b : bool) then _ ← gettoken; r ← parseline fuel; mret (LIST c r) else mret c
  end
with parsepipe (fuel : nat) : M nat cmd :=
  match fuel with
  | O => diverge
  | S fuel =>
      c ← parseexec fuel;
      b ← peek (bytes_of "|");
      if (b : bool) then _ ← gettoken; r ← parsepipe fuel; mret (PIPE c r) else mret c
  end
with parseexec (fuel : nat) : M nat cmd :=
  match fuel with
  | O => diverge
  | S fuel =>
      b ← peek (bytes_of "(");
      if (b : bool) then parseblock fuel
      else
        rs ← parseredirs;
        s ← getS;
        r ← args_loop (S (es - s)) [] rs;
        let '(argv, rs) := r in
        mret (wrap (EXEC argv) rs)
  end
with parseblock (fuel : nat) : M nat cmd :=
  match fuel with
  | O => diverge
  | S fuel =>
      b ← peek (bytes_of "(");
      if negb b then panic "parseblock"
      else
        _ ← gettoken;
        c ← parseline fuel;
        b ← peek (bytes_of ")");
        if negb b then panic "syntax - missing )"
        else
          _ ← gettoken;
          rs ← parseredirs;
          mret (wrap c rs)
  end.

(** At most four calls between two bytes of the line. *)
Definition fuel_for (s : nat) : nat := 4 * (es - s).

(** [*eq = 0] for every word; the terminator of the line is at [es]. *)
Fixpoint nulterminate (c : cmd) (b : list Z) : list Z :=
  match c with
  | EXEC argv => foldl (fun b w => <[snd w := 0]> b) b argv
  | REDIR c f _ _ => <[snd f := 0]> (nulterminate c b)
  | PIPE l r | LIST l r => nulterminate r (nulterminate l b)
  | BACK c => nulterminate c b
  end.
End parser.

(** The command, and the line with its words terminated. *)
Definition parsecmd (buf : list Z) : outcome nat (cmd * list Z) :=
  (c ← parseline buf (4 + fuel_for buf 0);
   _ ← peek buf [];
   s ← getS;
   if negb (s =? es buf)%nat then panic "syntax" else mret (c, nulterminate c (buf ++ [0]))) 0%nat.

Example parse_example : exists b, parsecmd (bytes_of " (echo hi >f;ls) | wc>>g&" ++ [10]) =
  Ret (BACK (PIPE (LIST (REDIR (EXEC [(2%nat, 6%nat); (7%nat, 9%nat)]) (11%nat, 12%nat) 1537 1) (EXEC [(13%nat, 15%nat)])) (REDIR (EXEC [(19%nat, 21%nat)]) (23%nat, 24%nat) 513 1)), b) 26%nat.
Proof. eexists. vm_compute. reflexivity. Qed.
