(* ===== verification/UserShProofs.v ===== *)
(** The parser of the shell: it reads every line to the end or reports an error,
    the words it returns are C strings after [nulterminate], and every command can
    be written so that it is read back. *)
From S2P Require Import Prelude Riscv PhysMem ProcTable SysFile Printf UserSh.

(** ** Partial results
    [m] ends, and if it returns, [Q] holds. *)
Definition post {S A} (m : M S A) (s : S) (Q : A -> S -> Prop) : Prop :=
  match m s with Ret a s' => Q a s' | Panic _ => True | _ => False end.

Lemma post_bind {S A B} (m : M S A) (f : A -> M S B) s (Q : A -> S -> Prop) (R : B -> S -> Prop) :
  post m s Q -> (forall a s', Q a s' -> post (f a) s' R) -> post (m ≫= f) s R.
Proof. unfold post, mbind, M_bind. intros H1 H2. destruct (m s) as [a s'| | |]; [by apply H2|done..]. Qed.

Lemma post_ret {S A} (a : A) (s : S) (Q : A -> S -> Prop) : Q a s -> post (mret a) s Q.
Proof. done. Qed.

Lemma post_get {S B} (f : S -> M S B) s (R : B -> S -> Prop) : post (f s) s R -> post (s ← getS; f s) s R.
Proof. done. Qed.

Lemma post_mono {S A} (m : M S A) s (Q R : A -> S -> Prop) : post m s Q -> (forall a s', Q a s' -> R a s') -> post m s R.
Proof. unfold post. destruct (m s); naive_solver. Qed.

Section tokens.
Variable buf : list Z.
#[local] Abbreviation ch := (ch buf).
#[local] Abbreviation es := (es buf).
#[local] Abbreviation skip := (skip buf).

Lemma ch_in s : ch s <> 0 -> (s < es)%nat.
Proof. unfold UserSh.ch, UserSh.es. intros H. destruct (buf !! s) eqn:E; [by eapply lookup_lt_Some|done]. Qed.

Lemma scan_spec p n s : (s <= scan buf p n s <= s + n)%nat /\ (forall i, (s <= i < scan buf p n s)%nat -> p (ch i) = true) /\
  ((scan buf p n s < s + n)%nat -> p (ch (scan buf p n s)) = false).
Proof.
  revert s. induction n as [|n IH]; intros s; cbn [scan]; [split_and!; [lia|lia|intros; lia|intros; lia]|].
  destruct (p (ch s)) eqn:E.
  - destruct (IH (S s)) as (H1 & H2 & H3). split_and!; [lia|lia| |intros; apply H3; lia].
    intros i Hi. destruct (decide (i = s)) as [->|]; [done|]. apply H2. lia.
  - split_and!; [lia|lia|intros; lia|done].
Qed.

Lemma skip_spec s : (s <= es)%nat -> (s <= skip s <= es)%nat /\ ((skip s < es)%nat -> strchr whitespace (ch (skip s)) = false).
Proof. intros Hs. destruct (scan_spec (strchr whitespace) (es - s) s) as (H1 & _ & H3). unfold UserSh.skip. split; [lia|]. intros. apply H3. lia. Qed.

Lemma skip_stay s : strchr whitespace (ch s) = false -> skip s = s.
Proof. intros H. unfold UserSh.skip. destruct (es - s)%nat; [done|]. cbn [scan]. by rewrite H. Qed.

Lemma skip_es : skip es = es.
Proof. unfold UserSh.skip. by rewrite Nat.sub_diag. Qed.

Lemma skip_skip s : (s <= es)%nat -> skip (skip s) = skip s.
Proof.
  intros [H1 H2]%skip_spec. destruct (decide (skip s = es)) as [->|]; [apply skip_es|]. apply skip_stay, H2. lia.
Qed.

(** A word: bytes that are neither blank nor symbols, as many as there are. *)
Record word_ok (w : word) : Prop := {
  wo_range : (fst w < snd w <= es)%nat;
  wo_plain : forall i, (fst w <= i < snd w)%nat -> plain (ch i) = true;
  wo_end : snd w = es \/ plain (ch (snd w)) = false
}.

Lemma symbols_split c : strchr symbols c = strchr (bytes_of "|();&<") c || (c =? chr ">").
Proof.
  change symbols with [60; 124; 62; 38; 59; 40; 41]. change (bytes_of "|();&<") with [124; 40; 41; 59; 38; 60]. change (chr ">") with 62.
  unfold strchr. cbn [existsb]. repeat match goal with |- context [c =? ?k] => destruct (c =? k) end; reflexivity.
Qed.

Lemma gettoken_post s : (s <= es)%nat -> post (gettoken buf) s (fun '(k, q, eq) s' =>
  q = skip s /\ (s <= q <= eq)%nat /\ (eq <= s' <= es)%nat /\ (k = chr "a" -> word_ok (q, eq)) /\ (k <> 0 -> (q < eq)%nat) /\ (ch q <> 0 -> k <> 0)).
Proof.
  intros Hs. destruct (skip_spec s Hs) as [H1 H2]. unfold gettoken. apply post_get. set (q := skip s) in *.
  assert (Hin : ch q <> 0 -> (q < es)%nat) by apply ch_in.
  destruct (Z.eqb_spec (ch q) 0) as [E0|E0].
  { unfold post. cbn. rewrite E0. destruct (skip_spec q ltac:(lia)) as [H3 _]. split_and!; try done; lia. }
  destruct (strchr (bytes_of "|();&<") (ch q)) eqn:E1.
  { unfold post. cbn. destruct (skip_spec (S q) ltac:(specialize (Hin E0); lia)) as [H3 _]. split_and!; try done; try lia.
    intros Ea. rewrite Ea in E1. vm_compute in E1. done. }
  destruct (Z.eqb_spec (ch q) (chr ">")) as [E2|E2].
  { destruct (Z.eqb_spec (ch (S q)) (chr ">")) as [E3|E3].
    - assert (Hin2 : (S q < es)%nat) by (apply ch_in; by rewrite E3). unfold post. cbn. destruct (skip_spec (S (S q)) ltac:(lia)) as [H3 _].
      split_and!; try done; lia.
    - unfold post. cbn. destruct (skip_spec (S q) ltac:(specialize (Hin E0); lia)) as [H3 _]. rewrite E2. split_and!; try done; lia. }
  destruct (scan_spec plain (es - q) q) as (S1 & S2 & S3). set (e := scan buf plain (es - q) q) in *. specialize (Hin E0).
  assert (Hpl : plain (ch q) = true).
  { unfold plain. rewrite (H2 Hin), symbols_split, E1, (proj2 (Z.eqb_neq _ _) E2). done. }
  assert (He : (q < e)%nat) by (destruct (decide (e = q)) as [Ee|]; [|lia]; rewrite Ee in S3; rewrite S3 in Hpl by lia; done).
  unfold post. cbn. fold e. destruct (skip_spec e ltac:(lia)) as [H3 _]. split_and!; try done; try lia.
  intros _. split; cbn [fst snd]; [lia|done|]. destruct (decide (e = es)); [by left|right]. apply S3. lia.
Qed.

Lemma peek_post toks s : (s <= es)%nat -> post (peek buf toks) s (fun b s' =>
  s' = skip s /\ (s <= s' <= es)%nat /\ b = negb (ch s' =? 0) && strchr toks (ch s')).
Proof. intros Hs. destruct (skip_spec s Hs) as [H1 _]. unfold post. cbn. done. Qed.

(** A token that [peek] has seen. *)
Lemma peeked_token s : (s <= es)%nat -> skip s = s -> ch s <> 0 -> post (gettoken buf) s (fun '(k, q, eq) s' => (s < s' <= es)%nat).
Proof.
  intros Hs Hk Hc. eapply post_mono; [by apply gettoken_post|]. intros [[k q] eq] s' (-> & H1 & H2 & _ & H3 & H4).
  rewrite Hk in *. specialize (H3 (H4 Hc)). lia.
Qed.
End tokens.

(** The words of a command. *)
Fixpoint words (c : cmd) : list word :=
  match c with
  | EXEC argv => argv
  | REDIR c f _ _ => words c ++ [f]
  | PIPE l r | LIST l r => words l ++ words r
  | BACK c => words c
  end.

(** Every [EXEC] has room for its terminating null pointer. *)
Fixpoint args_fit (c : cmd) : Prop :=
  match c with
  | EXEC argv => (length argv < MAXARGS)%nat
  | REDIR c _ _ _ | BACK c => args_fit c
  | PIPE l r | LIST l r => args_fit l /\ args_fit r
  end.

Section grammar.
Variable buf : list Z.
#[local] Abbreviation ch := (ch buf).
#[local] Abbreviation es := (es buf).
#[local] Abbreviation skip := (skip buf).

Definition cmd_ok (c : cmd) : Prop := Forall (word_ok buf) (words c) /\ args_fit c.
Definition redirs_ok (rs : list redir) : Prop := Forall (word_ok buf) (rd_file <$> rs).

Lemma wrap_ok c rs : cmd_ok c -> redirs_ok rs -> cmd_ok (wrap c rs).
Proof.
  revert c. induction rs as [|r rs IH]; intros c Hc Hr; [done|]. apply Forall_cons in Hr as [H1 H2]. apply IH; [|done].
  destruct Hc as [Hw Ha]. split; [|done]. cbn. apply Forall_app. by split; [|constructor].
Qed.

(** The place moves forward. *)
Definition ahead {A} (P : A -> Prop) (s : nat) (a : A) (s' : nat) : Prop := (s <= s' <= es)%nat /\ P a.

(** A [peek] that says yes, then the token. *)
Lemma peek_yes {A} toks s (yes no : M nat A) (Q : A -> nat -> Prop) : (s <= es)%nat ->
  (forall s1, (s < s1 <= es)%nat -> post yes s1 Q) -> (forall s1, (s <= s1 <= es)%nat -> post no s1 Q) ->
  post (b ← peek buf toks; if (b : bool) then _ ← gettoken buf; yes else no) s Q.
Proof.
  intros Hs Hy Hn. eapply post_bind; [by apply peek_post|]. intros b s1 (-> & Hs1 & ->).
  destruct (Z.eqb_spec (ch (skip s)) 0) as [E|E]; cbn [negb andb]; [by apply Hn|].
  destruct (strchr toks (ch (skip s))); [|by apply Hn]. eapply post_bind; [apply peeked_token; [lia|by apply skip_skip|done]|].
  intros [[k q] eq] s2 Hs2. apply Hy. lia.
Qed.

Lemma redirs_post fuel s : (s <= es)%nat -> (es - s < fuel)%nat -> post (redirs_loop buf fuel) s (ahead redirs_ok s).
Proof.
  revert s. induction fuel as [|fuel IH]; intros s Hs Hf; [lia|]. cbn [redirs_loop].
  eapply post_bind; [by apply peek_post|]. intros b s1 (-> & Hs1 & ->).
  destruct (Z.eqb_spec (ch (skip s)) 0) as [E|E]; cbn [negb andb]; [by split; [|constructor]|].
  destruct (strchr _ (ch (skip s))); cbn [negb]; [|by split; [|constructor]].
  eapply post_bind; [apply peeked_token; [lia|by apply skip_skip|done]|]. intros [[tok q0] e0] s2 Hs2.
  eapply post_bind; [apply gettoken_post; lia|]. intros [[k q] eq] s3 (_ & H1 & H2 & Hw & _).
  destruct (Z.eqb_spec k (chr "a")) as [Ek|]; cbn [negb]; [|done]. specialize (Hw Ek).
  eapply post_bind; [apply IH; lia|]. intros rs s4 [Hs4 Hrs]. apply post_ret. split; [lia|].
  repeat (case_match; try (constructor; done)). done.
Qed.

Lemma parseredirs_post s : (s <= es)%nat -> post (parseredirs buf) s (ahead redirs_ok s).
Proof. intros Hs. apply post_get. apply redirs_post; [done|lia]. Qed.

Definition args_ok (x : list word * list redir) : Prop :=
  Forall (word_ok buf) (fst x) /\ (length (fst x) < MAXARGS)%nat /\ redirs_ok (snd x).

Lemma args_post fuel s argv rs : (s <= es)%nat -> (es - s < fuel)%nat -> args_ok (argv, rs) ->
  post (args_loop buf fuel argv rs) s (ahead args_ok s).
Proof.
  revert s argv rs. induction fuel as [|fuel IH]; intros s argv rs Hs Hf Ha; [lia|]. cbn [args_loop].
  eapply post_bind; [by apply peek_post|]. intros b s1 (-> & Hs1 & ->). destruct (_ && _); [done|].
  eapply post_bind; [apply gettoken_post; lia|]. intros [[tok q] eq] s2 (_ & H1 & H2 & Hw & Hp & _).
  destruct (Z.eqb_spec tok 0) as [|Ht]; [split; [lia|done]|]. specialize (Hp Ht).
  destruct (Z.eqb_spec tok (chr "a")) as [Ek|]; cbn [negb]; [|done]. specialize (Hw Ek).
  destruct (Nat.leb_spec MAXARGS (length (argv ++ [(q, eq)]))); [done|]. destruct Ha as (A1 & A2 & A3).
  eapply post_bind; [apply parseredirs_post; lia|]. intros rs' s3 [Hs3 Hr]. eapply post_mono; [apply IH; [lia|lia|]|].
  - split_and!; [apply Forall_app; by split; [|constructor]|done|]. unfold redirs_ok in *. cbn. rewrite fmap_app. by apply Forall_app.
  - intros x s4 [Hs4 Hx]. split; [lia|done].
Qed.

Lemma back_post fuel s c : (s <= es)%nat -> (es - s < fuel)%nat -> cmd_ok c -> post (back_loop buf fuel c) s (ahead cmd_ok s).
Proof.
  revert s c. induction fuel as [|fuel IH]; intros s c Hs Hf Hc; [lia|]. cbn [back_loop]. apply peek_yes; [done| |].
  - intros s1 Hs1. eapply post_mono; [apply IH; [lia|lia|exact Hc]|]. intros x s2 [? ?]. split; [lia|done].
  - intros s1 Hs1. by apply post_ret.
Qed.

(** A function of the grammar with fuel for the rest of the line ends. *)
Definition total (f : nat -> M nat cmd) (k fuel : nat) : Prop :=
  forall s, (s <= es)%nat -> (4 * (es - s) + k <= fuel)%nat -> post (f fuel) s (ahead cmd_ok s).

Lemma grammar_total fuel :
  total (parseline buf) 4 fuel /\ total (parsepipe buf) 3 fuel /\ total (parseexec buf) 2 fuel /\ total (parseblock buf) 1 fuel.
Proof.
  induction fuel as [|fuel (IHl & IHp & IHe & IHb)]; [split_and!; intros s Hs Hf; lia|]. split_and!; intros s Hs Hf; cbn [parseline parsepipe parseexec parseblock].
  - eapply post_bind; [apply IHp; lia|]. intros c s1 [Hs1 Hc]. apply post_get.
    eapply post_bind; [apply back_post; [lia|lia|exact Hc]|]. intros c2 s2 [Hs2 Hc2]. apply peek_yes; [lia| |].
    + intros s3 Hs3. eapply post_bind; [apply IHl; lia|]. intros r s4 [Hs4 [Hr1 Hr2]]. apply post_ret. split; [lia|].
      destruct Hc2. split; [by apply Forall_app|done].
    + intros s3 Hs3. apply post_ret. split; [lia|done].
  - eapply post_bind; [apply IHe; lia|]. intros c s1 [Hs1 Hc]. apply peek_yes; [lia| |].
    + intros s3 Hs3. eapply post_bind; [apply IHp; lia|]. intros r s4 [Hs4 [Hr1 Hr2]]. apply post_ret. split; [lia|].
      destruct Hc. split; [by apply Forall_app|done].
    + intros s3 Hs3. apply post_ret. split; [lia|done].
  - eapply post_bind; [by apply peek_post|]. intros b s1 (-> & Hs1 & ->). destruct (_ && _).
    + eapply post_mono; [apply IHb; lia|]. intros x s2 [? ?]. split; [lia|done].
    + eapply post_bind; [apply parseredirs_post; lia|]. intros rs s2 [Hs2 Hrs]. apply post_get.
      eapply post_bind; [apply args_post; [lia|lia|by split_and!; [constructor|unfold MAXARGS; cbn; lia|]]|].
      intros [argv rs'] s3 [Hs3 (A1 & A2 & A3)]. apply post_ret. split; [lia|]. by apply wrap_ok.
  - eapply post_bind; [by apply peek_post|]. intros b s1 (-> & Hs1 & ->).
    destruct (Z.eqb_spec (ch (skip s)) 0) as [E|E]; cbn [negb andb]; [done|]. destruct (strchr _ (ch (skip s))); cbn [negb]; [|done].
    eapply post_bind; [apply peeked_token; [lia|by apply skip_skip|done]|]. intros [[k0 q0] e0] s2 Hs2.
    eapply post_bind; [apply IHl; lia|]. intros c s3 [Hs3 Hc].
    eapply post_bind; [apply peek_post; lia|]. intros b s4 (-> & Hs4 & ->).
    destruct (Z.eqb_spec (ch (skip s3)) 0) as [E'|E']; cbn [negb andb]; [done|]. destruct (strchr _ (ch (skip s3))); cbn [negb]; [|done].
    eapply post_bind; [apply peeked_token; [lia|by apply skip_skip; lia|done]|]. intros [[k1 q1] e1] s5 Hs5.
    eapply post_bind; [apply parseredirs_post; lia|]. intros rs s6 [Hs6 Hrs]. apply post_ret. split; [lia|]. by apply wrap_ok.
Qed.
End grammar.

(** ** Words as C strings *)
Lemma zeros_at (ws : list word) (b : list Z) i :
  foldl (fun b w => <[snd w := 0]> b) b ws !! i = if decide (i ∈ snd <$> ws) then (fun _ => 0) <$> b !! i else b !! i.
Proof.
  revert b. induction ws as [|w ws IH]; intros b; [done|]. cbn [foldl]. rewrite IH.
  destruct (decide (i ∈ snd <$> ws)) as [Hi|Hi], (decide (i ∈ snd <$> w :: ws)) as [Hi'|Hi']; try (rewrite fmap_cons in Hi'; set_solver).
  - destruct (decide (i = snd w)) as [->|]; [|by rewrite list_lookup_insert_ne by done]. rewrite list_lookup_insert.
    destruct (decide _) as [[_ Hlt]|Hge]; [by destruct (lookup_lt_is_Some_2 b (snd w) Hlt) as [? ->]|done].
  - rewrite fmap_cons in Hi'. assert (i = snd w) as -> by set_solver. rewrite list_lookup_insert.
    destruct (decide _) as [[_ Hlt]|Hge]; [by destruct (lookup_lt_is_Some_2 b (snd w) Hlt) as [? ->]|]. by rewrite lookup_ge_None_2 by (destruct (decide (snd w < length b)%nat); [destruct Hge; done|lia]).
  - rewrite fmap_cons in Hi'. apply list_lookup_insert_ne. set_solver.
Qed.

Lemma nulterminate_words c b : nulterminate c b = foldl (fun b w => <[snd w := 0]> b) b (words c).
Proof.
  revert b. induction c as [argv|c IH f m d|l IHl r IHr|l IHl r IHr|c IH]; intros b; cbn [nulterminate words]; rewrite ?foldl_app; try done.
  - by rewrite IH.
  - by rewrite IHl, IHr.
  - by rewrite IHl, IHr.
Qed.

(** The string a pointer to a word gives after [nulterminate]. *)
Definition c_string (b : list Z) (q : nat) : list Z := cstr (drop q b).
(** The bytes of a word in the line. *)
Definition word_text (buf : list Z) (w : word) : list Z := take (snd w - fst w) (drop (fst w) buf).

Lemma cstr_app l rest : Forall (fun c => c <> 0) l -> cstr (l ++ 0 :: rest) = l.
Proof. induction 1 as [|c l Hc _ IH]; [done|]. cbn [app cstr]. by rewrite (proj2 (Z.eqb_neq c 0)), IH. Qed.

Lemma terminated_word buf ws w : Forall (fun c => c <> 0) buf -> Forall (word_ok buf) ws -> w ∈ ws ->
  c_string (foldl (fun b w => <[snd w := 0]> b) (buf ++ [0]) ws) (fst w) = word_text buf w.
Proof.
  intros Hz Hok Hw. pose proof (proj1 (list.Forall_forall _ _) Hok _ Hw) as [Hr Hp He]. unfold es in *.
  set (b := foldl _ _ _). assert (Hb : forall i, b !! i = if decide (i ∈ snd <$> ws) then (fun _ => 0) <$> (buf ++ [0]) !! i else (buf ++ [0]) !! i) by apply zeros_at.
  assert (Hin : forall i, (fst w <= i < snd w)%nat -> b !! i = buf !! i).
  { intros i Hi. rewrite Hb, decide_False; [by rewrite lookup_app_l by lia|]. intros (w' & -> & Hw')%list_elem_of_fmap.
    destruct (proj1 (list.Forall_forall _ _) Hok _ Hw') as [_ _ [E|E]]; unfold es in *; [lia|]. rewrite (Hp (snd w') Hi) in E. done. }
  assert (Hend : b !! snd w = Some 0).
  { rewrite Hb, decide_True by (apply list_elem_of_fmap; by exists w). destruct (lookup_lt_is_Some_2 (buf ++ [0]) (snd w)) as [x ->]; [|done].
    rewrite length_app. cbn. lia. }
  assert (Hl : (snd w < length b)%nat) by (by eapply lookup_lt_Some).
  assert (Es : drop (fst w) b = word_text buf w ++ 0 :: drop (S (snd w)) b).
  { rewrite <- (take_drop (snd w - fst w) (drop (fst w) b)). rewrite drop_drop. replace (fst w + (snd w - fst w))%nat with (snd w) by lia.
    rewrite (drop_S b 0 _ Hend). f_equal. unfold word_text. apply list_eq. intros i.
    destruct (decide (i < snd w - fst w)%nat); [rewrite !lookup_take_lt, !lookup_drop by done; apply Hin; lia|].
    by rewrite !lookup_take_ge by lia. }
  unfold c_string. rewrite Es. apply cstr_app. unfold word_text. by apply Forall_take, Forall_drop.
Qed.

(** C28: the parser reads any line: it either reports an error and exits or
    returns a command in which no [argv] overflows, and every word of it is, once
    [nulterminate] has run, a C string with exactly the bytes of the word in the
    line.  It never loops. *)
Theorem parsecmd_total buf : Forall (fun c => c <> 0) buf ->
  match parsecmd buf with
  | Ret (c, b) _ => args_fit c /\ forall w, w ∈ words c -> c_string b (fst w) = word_text buf w
  | Panic _ => True
  | _ => False
  end.
Proof.
  intros Hz. unfold parsecmd.
  pose proof (proj1 (grammar_total buf (4 + fuel_for buf 0)) 0%nat ltac:(lia)) as H.
  enough (P : post (c ← parseline buf (4 + fuel_for buf 0); _ ← peek buf []; s ← getS;
    if negb (s =? es buf)%nat then panic "syntax" else mret (c, nulterminate c (buf ++ [0]))) 0%nat
    (fun r _ => args_fit (fst r) /\ forall w, w ∈ words (fst r) -> c_string (snd r) (fst w) = word_text buf w)).
  { unfold post in P. match type of P with match ?o with _ => _ end => destruct o as [[c b] s| | |] end; exact P. }
  eapply post_bind; [apply H; unfold fuel_for; lia|]. intros c s [Hs [Hw Ha]].
  eapply post_bind; [apply peek_post; lia|]. intros _ s1 _. apply post_get. destruct (s1 =? es buf)%nat; [|done]. cbn [negb].
  apply post_ret. split; [done|]. intros w Hin. cbn [snd]. rewrite nulterminate_words. by apply terminated_word.
Qed.

(** ** Writing a command down *)
Fixpoint tree_map {V W} (f : V -> W) (c : tree V) : tree W :=
  match c with
  | EXEC argv => EXEC (f <$> argv)
  | REDIR c w m d => REDIR (tree_map f c) (f w) m d
  | PIPE l r => PIPE (tree_map f l) (tree_map f r)
  | LIST l r => LIST (tree_map f l) (tree_map f r)
  | BACK c => BACK (tree_map f c)
  end.

Definition sp : Z := 32.
Fixpoint join (ws : list (list Z)) : list Z :=
  match ws with [] => [] | [w] => w | w :: ws => w ++ sp :: join ws end.
Definition O_OVER : Z := Z.lor (Z.lor O_WRONLY O_CREATE) O_TRUNC.
Definition O_MORE : Z := Z.lor O_WRONLY O_CREATE.
Definition redir_sign (mode : Z) : list Z :=
  if mode =? O_RDONLY then bytes_of "<" else if mode =? O_OVER then bytes_of ">" else bytes_of ">>".

(** A command in the notation of the shell, with every part in parentheses. *)
Fixpoint show (c : tree (list Z)) : list Z :=
  match c with
  | EXEC argv => join argv
  | REDIR c f m _ => bytes_of "(" ++ show c ++ bytes_of ")" ++ redir_sign m ++ f
  | PIPE l r => bytes_of "(" ++ show l ++ bytes_of ")" ++ bytes_of "|" ++ bytes_of "(" ++ show r ++ bytes_of ")"
  | LIST l r => bytes_of "(" ++ show l ++ bytes_of ")" ++ bytes_of ";" ++ bytes_of "(" ++ show r ++ bytes_of ")"
  | BACK c => bytes_of "(" ++ show c ++ bytes_of ")" ++ bytes_of "&"
  end.

Definition a_word (w : list Z) : Prop := w <> [] /\ Forall (fun c => plain c = true /\ c <> 0) w.
Definition a_redir (m d : Z) : Prop := (m = O_RDONLY /\ d = 0) \/ (m = O_OVER /\ d = 1) \/ (m = O_MORE /\ d = 1).

Fixpoint writable_cmd (c : tree (list Z)) : Prop :=
  match c with
  | EXEC argv => Forall a_word argv /\ (length argv < MAXARGS)%nat
  | REDIR c f m d => writable_cmd c /\ a_word f /\ a_redir m d
  | PIPE l r | LIST l r => writable_cmd l /\ writable_cmd r
  | BACK c => writable_cmd c
  end.

Section read_back.
Variable buf : list Z.
#[local] Abbreviation ch := (ch buf).
#[local] Abbreviation es := (es buf).
#[local] Abbreviation skip := (skip buf).

(** The rest of the line from [s] is [l]. *)
Definition at_ (s : nat) (l : list Z) : Prop := drop s buf = l /\ (s <= es)%nat.

Lemma at_ch s l : at_ s l -> ch s = hd 0 l.
Proof.
  intros [<- _]. unfold UserSh.ch. destruct (buf !! s) eqn:E; [by rewrite (drop_S _ _ _ E)|].
  apply lookup_ge_None in E. by rewrite drop_ge.
Qed.

Lemma at_length s l : at_ s l -> (es - s = length l)%nat.
Proof. intros [<- _]. unfold UserSh.es. by rewrite length_drop. Qed.

Lemma at_app s a l : at_ s (a ++ l) -> at_ (s + length a) l.
Proof.
  intros [E Hs]. split; [by rewrite <- drop_drop, E, drop_app_length|].
  pose proof (at_length s (a ++ l) (conj E Hs)) as Hl. rewrite length_app in Hl. lia.
Qed.

Lemma at_cons s c l : at_ s (c :: l) -> at_ (S s) l.
Proof. intros H. rewrite <- Nat.add_1_r. by apply (at_app s [c]). Qed.

(** The next byte is not blank. *)
Definition inked (l : list Z) : Prop := strchr whitespace (hd 0 l) = false.

Lemma at_skip s l : at_ s l -> inked l -> skip s = s.
Proof. intros H Hi. apply skip_stay. by rewrite (at_ch _ _ H). Qed.

Lemma tok_peek_run s l toks : at_ s l -> inked l -> peek buf toks s = Ret (negb (hd 0 l =? 0) && strchr toks (hd 0 l)) s.
Proof. intros H Hi. unfold peek, mbind, M_bind, getS, putS, mret, M_ret. by rewrite (at_skip _ _ H Hi), (at_ch _ _ H). Qed.

(** Tokens of one byte; [>] and [>>]. *)
Lemma symbol_run s c l : at_ s (c :: l) -> inked l -> strchr (bytes_of "|();&<") c = true -> gettoken buf s = Ret (c, s, S s) (S s).
Proof.
  intros H Hi Hc. assert (Hk : inked (c :: l)).
  { unfold strchr in Hc. apply existsb_exists in Hc as (x & Hx & ->%Z.eqb_eq).
    change (bytes_of "|();&<") with [124; 40; 41; 59; 38; 60] in Hx. repeat (destruct Hx as [<-|Hx]; [reflexivity|]). done. }
  assert (c <> 0) by (intros ->; done).
  unfold gettoken, mbind, M_bind, getS, putS. rewrite (at_skip _ _ H Hk), (at_ch _ _ H). cbn [hd].
  rewrite (proj2 (Z.eqb_neq c 0)), Hc by done. by rewrite (at_skip _ _ (at_cons _ _ _ H) Hi).
Qed.

Lemma greater_run s l : at_ s (chr ">" :: l) -> inked l -> hd 0 l <> chr ">" -> gettoken buf s = Ret (chr ">", s, S s) (S s).
Proof.
  intros H Hi Hc. unfold gettoken, mbind, M_bind, getS, putS. rewrite (at_skip _ _ H eq_refl), (at_ch _ _ H). cbn [hd].
  change (chr ">" =? 0) with false. change (strchr (bytes_of "|();&<") (chr ">")) with false. rewrite Z.eqb_refl.
  rewrite (at_ch _ _ (at_cons _ _ _ H)), (proj2 (Z.eqb_neq _ _) Hc). by rewrite (at_skip _ _ (at_cons _ _ _ H) Hi).
Qed.

Lemma append_run s l : at_ s (chr ">" :: chr ">" :: l) -> inked l -> gettoken buf s = Ret (chr "+", s, S (S s)) (S (S s)).
Proof.
  intros H Hi. unfold gettoken, mbind, M_bind, getS, putS. rewrite (at_skip _ _ H eq_refl), (at_ch _ _ H). cbn [hd].
  change (chr ">" =? 0) with false. change (strchr (bytes_of "|();&<") (chr ">")) with false. rewrite Z.eqb_refl.
  rewrite (at_ch _ _ (at_cons _ _ _ H)). cbn [hd]. rewrite Z.eqb_refl. by rewrite (at_skip _ _ (at_cons _ _ _ (at_cons _ _ _ H)) Hi).
Qed.

(** A word and what ends it. *)
Definition stops (l : list Z) : Prop := l = [] \/ plain (hd 0 l) = false.

Lemma plain_split c : plain c = true -> strchr whitespace c = false /\ strchr (bytes_of "|();&<") c = false /\ c <> chr ">".
Proof.
  unfold plain. rewrite symbols_split. destruct (strchr whitespace c), (strchr _ c), (Z.eqb_spec c (chr ">")); done.
Qed.

Lemma scan_word s w l : at_ s (w ++ l) -> Forall (fun c => plain c = true /\ c <> 0) w -> stops l -> scan buf plain (es - s) s = (s + length w)%nat.
Proof.
  intros H Hw Hl. destruct (scan_spec buf plain (es - s) s) as (S1 & S2 & S3). set (r := scan buf plain (es - s) s) in *.
  pose proof (at_length _ _ H) as Hn. rewrite length_app in Hn. destruct H as [E Hs]. destruct (lt_eq_lt_dec r (s + length w)) as [[Hlt| ->]|Hgt]; [|done|].
  - assert (Hp : plain (ch r) = true).
    { unfold UserSh.ch. replace r with (s + (r - s))%nat by lia. rewrite <- lookup_drop, E.
      destruct (lookup_lt_is_Some_2 w (r - s)) as [c Ec]; [lia|]. rewrite lookup_app_l by lia. rewrite Ec. cbn.
      by apply (Forall_lookup_1 _ _ _ _ Hw Ec). }
    rewrite S3 in Hp by lia. done.
  - pose proof (S2 (s + length w)%nat ltac:(lia)) as Hp. rewrite (at_ch _ _ (at_app s w l (conj E Hs))) in Hp.
    destruct Hl as [->|Hl]; [cbn in Hn; lia|]. by rewrite Hl in Hp.
Qed.

Lemma word_run s w l : at_ s (w ++ l) -> a_word w -> stops l ->
  gettoken buf s = Ret (chr "a", s, (s + length w)%nat) (skip (s + length w)) /\ word_text buf (s, (s + length w)%nat) = w.
Proof.
  intros H [Hne Hw] Hl. destruct w as [|c w]; [done|]. pose proof Hw as [[Hp Hc] _]%Forall_cons.
  destruct (plain_split c Hp) as (W1 & W2 & W3). split.
  - unfold gettoken, mbind, M_bind, getS, putS. rewrite (at_skip _ _ H W1), (at_ch _ _ H). cbn [hd app].
    rewrite (proj2 (Z.eqb_neq c 0)), W2, (proj2 (Z.eqb_neq c _)) by done. by rewrite (scan_word s (c :: w) l).
  - unfold word_text. cbn [fst snd]. destruct H as [-> _]. replace (s + length (c :: w) - s)%nat with (length (c :: w)) by lia.
    by rewrite take_app_length.
Qed.

(** A part of a command is followed by the end or by a symbol. *)
Definition closed (l : list Z) : Prop := l = [] \/ strchr (bytes_of "|);&") (hd 0 l) = true.

Lemma closed_stops l : closed l -> stops l /\ inked l /\ strchr (bytes_of "<>") (hd 0 l) = false.
Proof.
  intros [->|Hc]; [split; [by left|done]|]. unfold strchr in Hc. apply existsb_exists in Hc as (x & Hx & E%Z.eqb_eq).
  unfold stops, inked. rewrite E. change (bytes_of "|);&") with [124; 41; 59; 38] in Hx. repeat (destruct Hx as [<-|Hx]; [split; [by right|done]|]). done.
Qed.

Lemma no_redirs s l : at_ s l -> inked l -> strchr (bytes_of "<>") (hd 0 l) = false -> parseredirs buf s = Ret [] s.
Proof.
  intros H Hi Hn. unfold parseredirs. unfold mbind at 1, M_bind at 1, getS. cbn [redirs_loop].
  rewrite (bind_Ret _ _ _ _ _ (tok_peek_run s l _ H Hi)), Hn, andb_false_r. done.
Qed.

Lemma word_head w l : a_word w -> inked (w ++ l) /\ strchr (bytes_of "<>") (hd 0 (w ++ l)) = false /\
  strchr (bytes_of "|)&;") (hd 0 (w ++ l)) = false /\ strchr (bytes_of "(") (hd 0 (w ++ l)) = false /\ hd 0 (w ++ l) <> chr ">".
Proof.
  intros [Hne Hw]. destruct w as [|c w]; [done|]. apply Forall_cons in Hw as [[Hp Hc] _]. unfold inked. cbn [app hd].
  destruct (plain_split c Hp) as (W1 & W2 & W3). split; [done|]. change (chr ">") with 62 in *.
  change (bytes_of "|();&<") with [124; 40; 41; 59; 38; 60] in W2. change (bytes_of "<>") with [60; 62].
  change (bytes_of "|)&;") with [124; 41; 38; 59]. change (bytes_of "(") with [40]. unfold strchr in *. cbn [existsb] in *.
  rewrite !orb_false_iff in W2. destruct W2 as (-> & -> & -> & -> & -> & -> & _). by rewrite (proj2 (Z.eqb_neq c 62) W3).
Qed.

(** The words of a simple command. *)
Lemma args_run ws : forall fuel s l argv, at_ s (join ws ++ l) -> closed l -> Forall a_word ws -> (length argv + length ws < MAXARGS)%nat -> (es - s < fuel)%nat ->
  exists argv', args_loop buf fuel argv [] s = Ret (argv ++ argv', []) (s + length (join ws))%nat /\ word_text buf <$> argv' = ws.
Proof.
  induction ws as [|w ws IH]; intros fuel s l argv H Hl Hws Hn Hf; destruct fuel as [|fuel]; try lia; cbn [args_loop].
  - cbn [join app length] in *. destruct (closed_stops l Hl) as (_ & Hi & _). rewrite (bind_Ret _ _ _ _ _ (tok_peek_run s l _ H Hi)).
    exists []. rewrite app_nil_r, Nat.add_0_r. split; [|done]. destruct Hl as [->|Hc].
    + cbn [hd Z.eqb negb andb]. unfold gettoken, mbind, M_bind, getS, putS. rewrite (at_skip _ _ H eq_refl), (at_ch _ _ H).
      cbn [hd Z.eqb]. by rewrite (at_skip _ _ H eq_refl).
    + assert (negb (hd 0 l =? 0) && strchr (bytes_of "|)&;") (hd 0 l) = true) as ->; [|done].
      unfold strchr in Hc. apply existsb_exists in Hc as (x & Hx & ->%Z.eqb_eq). change (bytes_of "|);&") with [124; 41; 59; 38] in Hx.
      repeat (destruct Hx as [<-|Hx]; [done|]). done.
  - apply Forall_cons in Hws as [Hw Hws]. cbn [length] in Hn.
    assert (Ej : exists t, join (w :: ws) ++ l = w ++ t /\ stops t /\
      ((ws = [] /\ t = l) \/ (ws <> [] /\ t = sp :: join ws ++ l)) /\ length (join (w :: ws)) = (length w + (if decide (ws = []) then 0 else 1 + length (join ws)))%nat).
    { destruct ws as [|w' ws]; [exists l; split; [done|]; split; [by apply closed_stops|]; split; [by left|]; rewrite decide_True by done; cbn [join]; lia|].
      exists (sp :: join (w' :: ws) ++ l). split; [cbn [join]; by rewrite <- app_assoc|]. split; [by right|]. split; [by right|].
      rewrite decide_False by done. cbn [join]. rewrite length_app. cbn [length]. lia. }
    destruct Ej as (t & Ej & Ht & Hcase & Hlen). rewrite Ej in H. destruct (word_head w t Hw) as (Hi & _ & Hs & _).
    rewrite (bind_Ret _ _ _ _ _ (tok_peek_run s _ _ H Hi)), Hs, andb_false_r.
    destruct (word_run s w t H Hw Ht) as [R Et]. rewrite (bind_Ret _ _ _ _ _ R). change (chr "a" =? 0) with false. rewrite Z.eqb_refl. cbn [negb].
    assert ((MAXARGS <=? length (argv ++ [(s, (s + length w)%nat)]))%nat = false) as -> by (apply Nat.leb_gt; rewrite length_app; cbn; lia).
    pose proof (at_app _ _ _ H) as H1. pose proof (at_length _ _ H) as Hle. rewrite length_app in Hle.
    assert (Hwne : (0 < length w)%nat) by (destruct Hw as [Hw _]; destruct w; [done|cbn; lia]).
    destruct Hcase as [[-> ->]|[Hne ->]].
    + destruct (closed_stops l Hl) as (_ & Hil & Hrl). rewrite (at_skip _ _ H1 Hil). rewrite (bind_Ret _ _ _ _ _ (no_redirs _ _ H1 Hil Hrl)).
      destruct (IH fuel (s + length w)%nat l (argv ++ [(s, (s + length w)%nat)])) as (argv' & R' & E'); [done|done|done|rewrite length_app; cbn; lia|lia|].
      exists ((s, (s + length w)%nat) :: argv'). change (@nil redir ++ @nil redir) with (@nil redir). rewrite R'. rewrite Hlen, decide_True by done. split; [rewrite <- app_assoc; f_equal; cbn; lia|].
      cbn [fmap list_fmap]. by rewrite Et, E'.
    + destruct ws as [|w' ws']; [done|]. pose proof (at_cons _ _ _ H1) as H2. pose proof Hws as [Hw' _]%Forall_cons.
      assert (Hi2 : inked (join (w' :: ws') ++ l) /\ strchr (bytes_of "<>") (hd 0 (join (w' :: ws') ++ l)) = false).
      { cbn [join]. destruct ws'; [by destruct (word_head w' l Hw') as (? & ? & _)|]. rewrite <- app_assoc.
        by destruct (word_head w' ((sp :: join (l0 :: ws')) ++ l) Hw') as (? & ? & _). }
      destruct Hi2 as [Hi2 Hr2].
      assert (Esk : skip (s + length w) = S (s + length w)).
      { unfold UserSh.skip. rewrite (at_length _ _ H1). cbn [length scan]. rewrite (at_ch _ _ H1). cbn [hd].
        change (strchr whitespace sp) with true. pose proof (at_skip _ _ H2 Hi2) as Hk. unfold UserSh.skip in Hk. by rewrite (at_length _ _ H2) in Hk. }
      rewrite Esk. rewrite (bind_Ret _ _ _ _ _ (no_redirs _ _ H2 Hi2 Hr2)).
      destruct (IH fuel (S (s + length w)) l (argv ++ [(s, (s + length w)%nat)])) as (argv' & R' & E'); [done|done|done|rewrite length_app; cbn [length] in *; lia|lia|].
      exists ((s, (s + length w)%nat) :: argv'). change (@nil redir ++ @nil redir) with (@nil redir). rewrite R'. rewrite Hlen, decide_False by done. split; [rewrite <- app_assoc; f_equal; lia|].
      cbn [fmap list_fmap]. by rewrite Et, E'.
Qed.

(** A command ends the line or is followed by a closing parenthesis. *)
Definition closing (l : list Z) : Prop := l = [] \/ hd 0 l = chr ")".

Lemma closing_head l : closing l -> closed l /\ inked l /\
  forall toks, (negb (hd 0 l =? 0) && strchr toks (hd 0 l)) = negb (bool_decide (l = [])) && strchr toks (chr ")").
Proof.
  intros [->|E]; [split; [by left|done]|]. unfold closed, inked. rewrite E. split; [by right|]. split; [done|]. intros toks.
  rewrite bool_decide_eq_false_2; [done|]. by intros ->.
Qed.

Lemma show_inked c l : writable_cmd c -> inked (show c ++ bytes_of ")" ++ l).
Proof.
  destruct c as [argv|c f m d|a b|a b|c]; intros Hc; try done. cbn [show]. destruct Hc as [Hw _]. destruct argv as [|w ws]; [done|].
  apply Forall_cons in Hw as [Hw _]. cbn [join]. destruct ws; [by apply word_head|]. rewrite <- app_assoc. by apply word_head.
Qed.

Lemma peek_sym s c l toks : at_ s (c :: l) -> strchr whitespace c = false -> c <> 0 -> peek buf toks s = Ret (strchr toks c) s.
Proof. intros H Hi Hc. rewrite (tok_peek_run s (c :: l) toks H Hi). cbn [hd]. by rewrite (proj2 (Z.eqb_neq c 0)). Qed.

(** [parsecmd] reads [c] where it is written. *)
Definition reads (c : tree (list Z)) : Prop := forall fuel s l,
  at_ s (show c ++ l) -> closing l -> (4 * (es - s) + 4 <= fuel)%nat ->
  exists c', parseline buf fuel s = Ret c' (s + length (show c))%nat /\ tree_map (word_text buf) c' = c.

Lemma block_run c fuel s l : reads c -> writable_cmd c -> at_ s (bytes_of "(" ++ show c ++ bytes_of ")" ++ l) -> inked l ->
  (4 * (es - s) + 2 <= fuel)%nat ->
  exists c', tree_map (word_text buf) c' = c /\ at_ (s + 2 + length (show c)) l /\
    parseexec buf fuel s = (rs ← parseredirs buf; mret (wrap c' rs)) (s + 2 + length (show c))%nat.
Proof.
  intros IH Hc H Hi Hf. destruct fuel as [|[|fuel]]; [lia..|]. change (bytes_of "(") with [40] in H. cbn [app] in H.
  pose proof (at_cons _ _ _ H) as H1. pose proof (at_app _ _ _ H1) as H2. change (bytes_of ")") with [41] in H2. cbn [app] in H2.
  pose proof (at_cons _ _ _ H2) as H3. pose proof (at_length _ _ H) as Hn. cbn [length] in Hn.
  destruct (IH fuel (S s) _ H1 ltac:(by right)) as (c' & R & E). { rewrite (at_length _ _ H1). lia. }
  exists c'. split; [done|]. replace (s + 2 + length (show c))%nat with (S (S s + length (show c))) by lia. split; [done|].
  cbn [parseexec parseblock]. rewrite (bind_Ret _ _ _ _ _ (peek_sym s 40 _ _ H eq_refl ltac:(done))). change (strchr (bytes_of "(") 40) with true. cbn match.
  rewrite (bind_Ret _ _ _ _ _ (peek_sym s 40 _ _ H eq_refl ltac:(done))). change (strchr (bytes_of "(") 40) with true. cbn [negb].
  rewrite (bind_Ret _ _ _ _ _ (symbol_run s 40 _ H (show_inked c l Hc) eq_refl)). rewrite (bind_Ret _ _ _ _ _ R).
  rewrite (bind_Ret _ _ _ _ _ (peek_sym _ 41 _ _ H2 eq_refl ltac:(done))). change (strchr (bytes_of ")") 41) with true. cbn [negb].
  by rewrite (bind_Ret _ _ _ _ _ (symbol_run _ 41 _ H2 Hi eq_refl)).
Qed.

(** ... with nothing redirected. *)
Lemma block_plain c fuel s l : reads c -> writable_cmd c -> at_ s (bytes_of "(" ++ show c ++ bytes_of ")" ++ l) -> closed l ->
  (4 * (es - s) + 2 <= fuel)%nat ->
  exists c', tree_map (word_text buf) c' = c /\ at_ (s + 2 + length (show c)) l /\ parseexec buf fuel s = Ret c' (s + 2 + length (show c))%nat.
Proof.
  intros IH Hc H Hl Hf. destruct (closed_stops l Hl) as (_ & Hi & Hr).
  destruct (block_run c fuel s l IH Hc H Hi Hf) as (c' & E & H1 & R). exists c'. split; [done|]. split; [done|].
  by rewrite R, (bind_Ret _ _ _ _ _ (no_redirs _ _ H1 Hi Hr)).
Qed.

Lemma pipe_end fuel s c s1 l : parseexec buf fuel s = Ret c s1 -> at_ s1 l -> inked l -> strchr (bytes_of "|") (hd 0 l) = false ->
  parsepipe buf (S fuel) s = Ret c s1.
Proof.
  intros R H Hi Hn. cbn [parsepipe]. rewrite (bind_Ret _ _ _ _ _ R), (bind_Ret _ _ _ _ _ (tok_peek_run _ _ _ H Hi)), Hn, andb_false_r. done.
Qed.

Lemma line_end fuel s c s1 l : parsepipe buf fuel s = Ret c s1 -> at_ s1 l -> closing l -> parseline buf (S fuel) s = Ret c s1.
Proof.
  intros R H Hl. destruct (closing_head l Hl) as (_ & Hi & Ht). cbn [parseline]. rewrite (bind_Ret _ _ _ _ _ R).
  unfold mbind at 1, M_bind at 1, getS. cbn [back_loop]. rewrite bind_assoc, (bind_Ret _ _ _ _ _ (tok_peek_run _ _ _ H Hi)), Ht, andb_false_r.
  rewrite bind_mret, (bind_Ret _ _ _ _ _ (tok_peek_run _ _ _ H Hi)), Ht, andb_false_r. done.
Qed.

(** One redirection. *)
Lemma redir_run s f m d l : at_ s (redir_sign m ++ f ++ l) -> a_word f -> a_redir m d -> closing l ->
  exists w, parseredirs buf s = Ret [mkRedir w m d] (s + length (redir_sign m) + length f)%nat /\ word_text buf w = f.
Proof.
  intros H Hf Hm Hl. destruct (closing_head l Hl) as (Hcl & Hil & Ht). destruct (closed_stops l Hcl) as (Hst & _ & Hrl).
  pose proof (at_app _ _ _ H) as H1. pose proof (at_app _ _ _ H1) as H2. set (s1 := (s + length (redir_sign m))%nat) in *.
  destruct (word_run s1 f l H1 Hf Hst) as [Rw Ew]. rewrite (at_skip _ _ H2 Hil) in Rw.
  destruct (word_head f l Hf) as (Hif & _ & _ & _ & Hgt).
  assert (Hlen : exists n, (es - s = S n)%nat).
  { rewrite (at_length _ _ H), length_app. unfold redir_sign. repeat case_match; cbn; by eexists. }
  destruct Hlen as [n Hn].
  assert (Hend : redirs_loop buf (S n) (s1 + length f)%nat = Ret [] (s1 + length f)%nat).
  { cbn [redirs_loop]. rewrite (bind_Ret _ _ _ _ _ (tok_peek_run _ _ _ H2 Hil)), Hrl, andb_false_r. done. }
  exists (s1, (s1 + length f)%nat). split; [|done]. unfold parseredirs. unfold mbind at 1, M_bind at 1, getS. rewrite Hn. remember (S n) as k. cbn [redirs_loop].
  destruct Hm as [[-> ->]|[[-> ->]|[-> ->]]]; unfold redir_sign in H; cbn [app] in H.
  - change (bytes_of "<") with [60] in H. cbn [app] in H. rewrite (bind_Ret _ _ _ _ _ (peek_sym s 60 _ _ H eq_refl ltac:(done))).
    change (strchr (bytes_of "<>") 60) with true. cbn [negb]. rewrite (bind_Ret _ _ _ _ _ (symbol_run s 60 _ H Hif eq_refl)).
    change (S s) with (1 + s)%nat. rewrite Nat.add_comm. fold s1. rewrite (bind_Ret _ _ _ _ _ Rw), Z.eqb_refl. cbn [negb].
    by rewrite (bind_Ret _ _ _ _ _ Hend).
  - change (bytes_of ">") with [chr ">"] in H. cbn [app] in H. rewrite (bind_Ret _ _ _ _ _ (peek_sym s (chr ">") _ _ H eq_refl ltac:(done))).
    change (strchr (bytes_of "<>") (chr ">")) with true. cbn [negb]. rewrite (bind_Ret _ _ _ _ _ (greater_run s _ H Hif Hgt)).
    change (S s) with (1 + s)%nat. rewrite Nat.add_comm. fold s1. rewrite (bind_Ret _ _ _ _ _ Rw), Z.eqb_refl. cbn [negb].
    by rewrite (bind_Ret _ _ _ _ _ Hend).
  - change (bytes_of ">>") with [chr ">"; chr ">"] in H. cbn [app] in H. rewrite (bind_Ret _ _ _ _ _ (peek_sym s (chr ">") _ _ H eq_refl ltac:(done))).
    change (strchr (bytes_of "<>") (chr ">")) with true. cbn [negb]. rewrite (bind_Ret _ _ _ _ _ (append_run s _ H Hif)).
    change (S (S s)) with (2 + s)%nat. rewrite Nat.add_comm. fold s1. rewrite (bind_Ret _ _ _ _ _ Rw), Z.eqb_refl. cbn [negb].
    by rewrite (bind_Ret _ _ _ _ _ Hend).
Qed.

Lemma length_paren (a : list Z) l : length (bytes_of "(" ++ a ++ bytes_of ")" ++ l) = (2 + length a + length l)%nat.
Proof. rewrite !length_app. cbn. lia. Qed.

Ltac shown H := cbn [show] in H; rewrite <- ?app_assoc in H.

Lemma reads_exec argv : writable_cmd (EXEC argv) -> reads (EXEC argv).
Proof.
  intros [Hw Hn] fuel s l H Hl Hf. destruct fuel as [|[|[|fuel]]]; [lia..|]. cbn [show] in *. destruct (closing_head l Hl) as (Hcl & Hil & Ht).
  assert (Hhead : inked (join argv ++ l) /\ strchr (bytes_of "<>") (hd 0 (join argv ++ l)) = false /\
    negb (hd 0 (join argv ++ l) =? 0) && strchr (bytes_of "(") (hd 0 (join argv ++ l)) = false).
  { destruct argv as [|w ws]; [destruct (closed_stops l Hcl) as (_ & ? & ?); cbn [join app]; by rewrite Ht, andb_false_r|].
    apply Forall_cons in Hw as [Hw _]. cbn [join]. destruct ws as [|w' ws].
    - destruct (word_head w l Hw) as (? & ? & _ & -> & _). by rewrite andb_false_r.
    - rewrite <- app_assoc. destruct (word_head w ((sp :: join (w' :: ws)) ++ l) Hw) as (? & ? & _ & -> & _). by rewrite andb_false_r. }
  destruct Hhead as (Hi & Hr & Hp).
  destruct (args_run argv (S (es - s)) s l [] H Hcl Hw) as (argv' & R & E); [cbn; lia|lia|].
  pose proof (at_app _ _ _ H) as H1. exists (EXEC argv'). split; [|cbn; by rewrite E].
  apply (line_end _ _ _ _ l); [|done|done]. apply (pipe_end _ _ _ _ l); [|done|done|].
  - cbn [parseexec]. rewrite (bind_Ret _ _ _ _ _ (tok_peek_run _ _ _ H Hi)), Hp. rewrite (bind_Ret _ _ _ _ _ (no_redirs _ _ H Hi Hr)).
    unfold mbind at 1, M_bind at 1, getS. by rewrite (bind_Ret _ _ _ _ _ R).
  - destruct Hl as [->| ->]; done.
Qed.

Lemma bar_closed a l : closed (bytes_of "|" ++ a ++ l) /\ closed (bytes_of ";" ++ a ++ l) /\ closed (bytes_of "&" ++ a).
Proof. split_and!; by right. Qed.

Lemma show_reads c : writable_cmd c -> reads c.
Proof.
  induction c as [argv|c IH f m d|a IHa b IHb|a IHa b IHb|c IH]; intros Hc; [by apply reads_exec| | | |];
    intros fuel s l H Hl Hf; pose proof (closing_head l Hl) as (Hcl & Hil & Ht); pose proof (at_length _ _ H) as Hn;
    (destruct fuel as [|[|fuel]]; [lia..|]); shown H.
  - destruct Hc as (Hc & Hw & Hm). cbn [show]. rewrite length_paren, length_app.
    assert (Hi : inked (redir_sign m ++ f ++ l)) by (destruct Hm as [[-> ->]|[[-> ->]|[-> ->]]]; done).
    destruct (block_run c fuel s _ (IH Hc) Hc H Hi ltac:(lia)) as (c' & E & H1 & R).
    destruct (redir_run _ f m d l H1 Hw Hm Hl) as (w & Rr & Ew). pose proof (at_app _ _ _ (at_app _ _ _ H1)) as H2.
    exists (REDIR c' w m d). split; [|cbn; by rewrite E, Ew].
    replace (s + (2 + length (show c) + (length (redir_sign m) + length f)))%nat with (s + 2 + length (show c) + length (redir_sign m) + length f)%nat by lia.
    apply (line_end _ _ _ _ l); [|done|done]. apply (pipe_end _ _ _ _ l); [|done|done|destruct Hl as [->| ->]; done].
    by rewrite R, (bind_Ret _ _ _ _ _ Rr).
  - destruct Hc as [Ha Hb]. cbn [show]. rewrite length_paren, length_app, !length_app. cbn [length].
    destruct (block_plain a fuel s _ (IHa Ha) Ha H ltac:(by right) ltac:(lia)) as (a' & Ea & H1 & Ra).
    change (bytes_of "|") with [124] in H1. cbn [app] in H1. pose proof (at_cons _ _ _ H1) as H2. pose proof (at_length _ _ H1) as Hn1.
    cbn [length] in Hn1. assert (Hlt : (es - S (s + 2 + length (show a)) < es - s)%nat) by lia.
    destruct fuel as [|fuel]; [lia|].
    destruct (block_plain b fuel _ l (IHb Hb) Hb H2 Hcl ltac:(lia)) as (b' & Eb & H3 & Rb).
    exists (PIPE a' b'). split; [|cbn; by rewrite Ea, Eb].
    apply (line_end _ _ _ _ l); [|replace (s + _)%nat with (S (s + 2 + length (show a)) + 2 + length (show b))%nat by (cbn; lia); done|done].
    cbn [parsepipe]. rewrite (bind_Ret _ _ _ _ _ Ra). rewrite (bind_Ret _ _ _ _ _ (peek_sym _ 124 _ _ H1 eq_refl ltac:(done))).
    change (strchr (bytes_of "|") 124) with true. cbn match. rewrite (bind_Ret _ _ _ _ _ (symbol_run _ 124 _ H1 eq_refl eq_refl)).
    assert (Rp : parsepipe buf (S fuel) (S (s + 2 + length (show a))) = Ret b' (S (s + 2 + length (show a)) + 2 + length (show b))%nat).
    { apply (pipe_end _ _ _ _ l); [exact Rb|done|done|destruct Hl as [->| ->]; done]. }
    cbn [parsepipe] in Rp. rewrite (bind_Ret _ _ _ _ _ Rp). unfold mret, M_ret. f_equal. cbn. lia.
  - destruct Hc as [Ha Hb]. cbn [show]. rewrite length_paren, length_app, !length_app. cbn [length].
    destruct (block_plain a fuel s _ (IHa Ha) Ha H ltac:(by right) ltac:(lia)) as (a' & Ea & H1 & Ra).
    change (bytes_of ";") with [59] in H1. cbn [app] in H1. pose proof (at_cons _ _ _ H1) as H2. pose proof (at_length _ _ H1) as Hn1.
    cbn [length] in Hn1. destruct fuel as [|fuel]; [lia|].
    destruct (block_plain b fuel _ l (IHb Hb) Hb H2 Hcl ltac:(lia)) as (b' & Eb & H3 & Rb).
    exists (LIST a' b'). split; [|cbn; by rewrite Ea, Eb].
    assert (Rp : parseline buf (S (S fuel)) (S (s + 2 + length (show a))) = Ret b' (S (s + 2 + length (show a)) + 2 + length (show b))%nat).
    { apply (line_end _ _ _ _ l); [|done|done]. apply (pipe_end _ _ _ _ l); [exact Rb|done|done|destruct Hl as [->| ->]; done]. }
    assert (Rq : parsepipe buf (S (S fuel)) s = Ret a' (s + 2 + length (show a))%nat) by (eapply pipe_end; [exact Ra|exact H1|done|done]).
    change (parseline buf (S (S (S fuel))) s) with ((c ← parsepipe buf (S (S fuel)); s ← getS; c ← back_loop buf (S (es - s)) c;
      b ← peek buf (bytes_of ";"); if (b : bool) then _ ← gettoken buf; r ← parseline buf (S (S fuel)); mret (LIST c r) else mret c) s).
    rewrite (bind_Ret _ _ _ _ _ Rq). unfold mbind at 1, M_bind at 1, getS. cbn [back_loop].
    rewrite bind_assoc, (bind_Ret _ _ _ _ _ (peek_sym _ 59 _ _ H1 eq_refl ltac:(done))). change (strchr (bytes_of "&") 59) with false. cbn match.
    rewrite bind_mret, (bind_Ret _ _ _ _ _ (peek_sym _ 59 _ _ H1 eq_refl ltac:(done))). change (strchr (bytes_of ";") 59) with true. cbn match.
    rewrite (bind_Ret _ _ _ _ _ (symbol_run _ 59 _ H1 eq_refl eq_refl)), (bind_Ret _ _ _ _ _ Rp). unfold mret, M_ret. f_equal. cbn. lia.
  - cbn [show]. rewrite length_paren. destruct (block_plain c fuel s _ (IH Hc) Hc H ltac:(by right) ltac:(lia)) as (c' & Ec & H1 & Rc).
    change (bytes_of "&") with [38] in H1. cbn [app] in H1. pose proof (at_cons _ _ _ H1) as H2. pose proof (at_length _ _ H1) as Hn1.
    assert (Rq : parsepipe buf (S fuel) s = Ret c' (s + 2 + length (show c))%nat) by (eapply pipe_end; [exact Rc|exact H1|done|done]).
    exists (BACK c'). split; [|cbn; by rewrite Ec]. cbn [length] in Hn1. cbn [parseline]. rewrite (bind_Ret _ _ _ _ _ Rq).
    unfold mbind at 1, M_bind at 1, getS. rewrite Hn1. cbn [back_loop].
    rewrite bind_assoc, (bind_Ret _ _ _ _ _ (peek_sym _ 38 _ _ H1 eq_refl ltac:(done))). change (strchr (bytes_of "&") 38) with true. cbn match.
    rewrite bind_assoc, (bind_Ret _ _ _ _ _ (symbol_run _ 38 _ H1 Hil eq_refl)).
    rewrite bind_assoc, (bind_Ret _ _ _ _ _ (tok_peek_run _ _ _ H2 Hil)), Ht, andb_false_r, bind_mret.
    rewrite (bind_Ret _ _ _ _ _ (tok_peek_run _ _ _ H2 Hil)), Ht, andb_false_r. unfold mret, M_ret. f_equal. cbn. lia.
Qed.
End read_back.

Lemma tree_map_ext {V} (f g : word -> V) c : (forall w, w ∈ words c -> f w = g w) -> tree_map f c = tree_map g c.
Proof.
  induction c as [argv|c IH w m d|l IHl r IHr|l IHl r IHr|c IH]; intros H; cbn [tree_map words] in *.
  - f_equal. apply list_fmap_ext. intros i w Hw. apply H. by eapply list_elem_of_lookup_2.
  - rewrite IH, (H w) by set_solver. done.
  - rewrite IHl, IHr by set_solver. done.
  - rewrite IHl, IHr by set_solver. done.
  - by rewrite IH.
Qed.

Lemma join_nonzero ws : Forall a_word ws -> Forall (fun c => c <> 0) (join ws).
Proof.
  assert (H1 : forall w, a_word w -> Forall (fun c => c <> 0) w) by (intros w [_ H]; by eapply Forall_impl; [exact H|intros ? []]).
  induction 1 as [|w ws Hw Hws IH]; [constructor|]. cbn [join]. destruct ws; [by apply H1|]. apply Forall_app. split; [by apply H1|]. by constructor.
Qed.

Lemma show_nonzero c : writable_cmd c -> Forall (fun c => c <> 0) (show c).
Proof.
  induction c as [argv|c IH w m d|l IHl r IHr|l IHl r IHr|c IH]; intros Hc; cbn [show writable_cmd] in *.
  - apply join_nonzero, Hc.
  - destruct Hc as (Hc & [_ Hw] & _). rewrite !Forall_app. split_and!; [by repeat constructor|by apply IH|by repeat constructor| |].
    + unfold redir_sign. repeat case_match; by repeat constructor.
    + eapply Forall_impl; [exact Hw|]. by intros ? [].
  - rewrite !Forall_app. split_and!; try (by repeat constructor); [apply IHl|apply IHr]; apply Hc.
  - rewrite !Forall_app. split_and!; try (by repeat constructor); [apply IHl|apply IHr]; apply Hc.
  - rewrite !Forall_app. split_and!; try (by repeat constructor). by apply IH.
Qed.

(** C23: every command can be typed: the shell reads [show c], in which the
    parts of [c] are in parentheses, as the command [c] - the same tree, with the
    same strings as arguments and file names and the same modes. *)
Theorem parse_show c : writable_cmd c ->
  exists c' b, parsecmd (show c) = Ret (c', b) (length (show c)) /\ tree_map (fun w => c_string b (fst w)) c' = c.
Proof.
  intros Hc. set (buf := show c). assert (H0 : at_ buf 0 (show c ++ [])) by (rewrite app_nil_r; split; [done|lia]).
  destruct (show_reads buf c Hc (4 + fuel_for buf 0)%nat 0%nat [] H0 ltac:(by left)) as (c' & R & E); [unfold fuel_for; lia|].
  pose proof (proj1 (grammar_total buf (4 + fuel_for buf 0)) 0%nat ltac:(lia) ltac:(unfold fuel_for; lia)) as P.
  unfold post in P. rewrite R in P. destruct P as [_ [Hw _]].
  exists c', (nulterminate c' (buf ++ [0])). split.
  - unfold parsecmd. rewrite (bind_Ret _ _ _ _ _ R).
    rewrite (bind_Ret _ _ _ _ _ (tok_peek_run buf _ [] [] (at_app buf 0%nat (show c) [] H0) eq_refl)).
    unfold mbind, M_bind, getS. cbn [Nat.add]. change (length (show c)) with (es buf) at 1. by rewrite Nat.eqb_refl.
  - rewrite <- E. apply tree_map_ext. intros w Hin. rewrite nulterminate_words. apply terminated_word; [by apply show_nonzero|done|done].
Qed.

Lemma parsecmd_witness : exists c b, parsecmd (bytes_of "ls|wc") = Ret (c, b) 5%nat /\ (forall w, w ∈ words c -> c_string b (fst w) = word_text (bytes_of "ls|wc") w).
Proof.
  pose proof (parsecmd_total (bytes_of "ls|wc")) as H. destruct (parsecmd (bytes_of "ls|wc")) as [[c b] s| | |] eqn:E; [|vm_compute in E; discriminate..].
  exists c, b. split; [vm_compute in E; injection E as <- <- <-; reflexivity|]. apply H. vm_compute. repeat constructor; discriminate.
Defined.

Lemma parse_show_witness : exists c' b, parsecmd (bytes_of "((a b)|(cc))&") = Ret (c', b) 13%nat /\
  tree_map (fun w => c_string b (fst w)) c' = BACK (PIPE (EXEC [bytes_of "a"; bytes_of "b"]) (EXEC [bytes_of "cc"])).
Proof.
  apply (parse_show (BACK (PIPE (EXEC [bytes_of "a"; bytes_of "b"]) (EXEC [bytes_of "cc"])))).
  split; (split; [repeat constructor; discriminate|vm_compute; lia]).
Defined.
