(* ===== verification/UserShRun.v ===== *)
(** The shell's [runcmd], user/sh.c.

    A user program is the tree of system calls it makes: a call, and what follows
    for each result.  [runcmd] turns a command into such a program.  [launch] runs
    one on a table of descriptors, with calls that do not fail, and gives the
    history of its process: the processes it forks, the waits, and the program it
    becomes or its exit, each with the descriptors open at that moment; a
    descriptor is given out as [fdalloc] of kernel/sysfile.c does, the lowest that
    is free.  The theorem says that every program of a command line gets the
    descriptors the notation promises, that the shell's own processes have closed
    what they do not use when they wait and exit, and that they wait for the
    processes they started. *)
From S2P Require Import Prelude Riscv PhysMem Proc SysFile Printf UserSh.

Definition str : Type := list Z.

(** ** Programs *)
Inductive uprog : Type :=
  | UExit (status : Z)
  | UExec (argv : list str) (failed : uprog)
  | UClose (fd : Z) (k : uprog)
  | UDup (fd : Z) (k : uprog)
  | UOpen (file : str) (mode : Z) (k : Z -> uprog)
  | UPipe (k : Z -> Z -> Z -> uprog)
  | UFork (child : uprog) (parent : Z -> uprog)
  | UWait (k : uprog)
  | UPrint (fd : Z) (msg : str) (k : uprog).

Definition sh_panic (s : string) : uprog := UPrint 2 (bytes_of s ++ [10]) (UExit 1).

(** [if(fork1() == 0) child; k] *)
Definition fork1 (child k : uprog) : uprog := UFork child (fun pid => if pid =? -1 then sh_panic "fork" else k).

Fixpoint runcmd (c : tree str) : uprog :=
  match c with
  | EXEC [] => UExit 1
  | EXEC ((a :: _) as argv) => UExec argv (UPrint 2 (bytes_of "exec " ++ a ++ bytes_of " failed" ++ [10]) (UExit 0))
  | REDIR c file mode fd =>
      UClose fd (UOpen file mode (fun r =>
        if r <? 0 then UPrint 2 (bytes_of "open " ++ file ++ bytes_of " failed" ++ [10]) (UExit 1) else runcmd c))
  | LIST l r => fork1 (runcmd l) (UWait (runcmd r))
  | PIPE l r =>
      UPipe (fun rc p0 p1 =>
        if rc <? 0 then sh_panic "pipe"
        else
          fork1 (UClose 1 (UDup p1 (UClose p0 (UClose p1 (runcmd l)))))
          (fork1 (UClose 0 (UDup p0 (UClose p0 (UClose p1 (runcmd r)))))
          (UClose p0 (UClose p1 (UWait (UWait (UExit 0)))))))
  | BACK c => fork1 (runcmd c) (UExit 0)
  end.

(** ** Running them *)
(** What a descriptor refers to; a pipe is named by the place of the process that
    made it and a number. *)
Definition place : Type := list bool.
Inductive fobj : Type := Inherited (n : nat) | Opened (file : str) (mode : Z) | ReadEnd (p : place * nat) | WriteEnd (p : place * nat).
Definition fds : Type := list (option fobj).

Definition low (T : fds) : nat := default NOFILE (first_index (fun x => match x with None => true | _ => false end) T).
Definition give (o : fobj) (T : fds) : fds := <[low T := Some o]> T.
Definition drop_fd (fd : Z) (T : fds) : fds := <[Z.to_nat fd := None]> T.
Definition object (fd : Z) (T : fds) : option fobj := mjoin (T !! Z.to_nat fd).

(** The history of a process: it forks another, waits for a child, becomes a
    program, or exits; [T] are its open descriptors then. *)
Inductive hist : Type :=
  | HFork (child rest : hist)
  | HWait (T : fds) (rest : hist)
  | HExec (argv : list str) (T : fds)
  | HExit (status : Z) (T : fds).

(** [p] when no call fails: [exec] does not return, [open], [dup] and [pipe] take
    the lowest free descriptors, [fork] copies the table. *)
Fixpoint launch (p : uprog) (T : fds) (w : place) (n : nat) : hist :=
  match p with
  | UExit st => HExit st T
  | UExec argv _ => HExec argv T
  | UClose fd k => launch k (drop_fd fd T) w n
  | UDup fd k => launch k (match object fd T with Some o => give o T | None => T end) w n
  | UOpen f m k => launch (k (Z.of_nat (low T))) (give (Opened f m) T) w n
  | UPipe k =>
      let T1 := give (ReadEnd (w, n)) T in
      launch (k 0 (Z.of_nat (low T)) (Z.of_nat (low T1))) (give (WriteEnd (w, n)) T1) w (S n)
  | UFork c k => HFork (launch c T (true :: w) n) (launch (k 1) T (false :: w) n)
  | UWait k => HWait T (launch k T w n)
  | UPrint _ _ k => launch k T w n
  end.

(** The programs that are executed; all the tables of descriptors; and that each
    process has waited for each child it forked when it becomes a program or
    exits, with [k] children outstanding. *)
Fixpoint programs (h : hist) : list (list str * fds) :=
  match h with
  | HFork c r => programs c ++ programs r
  | HWait _ r => programs r
  | HExec argv T => [(argv, T)]
  | HExit _ _ => []
  end.
Fixpoint tables (h : hist) : list fds :=
  match h with
  | HFork c r => tables c ++ tables r
  | HWait T r => T :: tables r
  | HExec _ T | HExit _ T => [T]
  end.
Fixpoint waited (k : nat) (h : hist) : bool :=
  match h with
  | HFork c r => waited 0 c && waited (S k) r
  | HWait _ r => match k with O => false | S k => waited k r end
  | HExec _ _ | HExit _ _ => match k with O => true | S _ => false end
  end.

(** ** What the notation promises *)
(** The table with standard input, output and error output only. *)
Definition std (i o e : fobj) : fds := [Some i; Some o; Some e] ++ replicate (NOFILE - 3) None.

(** [a | b]: the output of [a] is the input of [b], and the shell waits for both
    with neither end of the pipe open; [a ; b]: the shell waits for [a] before it
    goes on with [b]; [a &]: it does not wait; [a < f] and [a > f]: the file is the
    input, the output. *)
Fixpoint promised (c : tree str) (i o e : fobj) (w : place) (n : nat) : hist :=
  match c with
  | EXEC [] => HExit 1 (std i o e)
  | EXEC argv => HExec argv (std i o e)
  | REDIR c f m fd => if fd =? 0 then promised c (Opened f m) o e w n else promised c i (Opened f m) e w n
  | LIST l r => HFork (promised l i o e (true :: w) n) (HWait (std i o e) (promised r i o e (false :: w) n))
  | PIPE l r =>
      HFork (promised l i (WriteEnd (w, n)) e (true :: w) (S n))
        (HFork (promised r (ReadEnd (w, n)) o e (true :: false :: w) (S n))
           (HWait (std i o e) (HWait (std i o e) (HExit 0 (std i o e)))))
  | BACK c => HFork (promised c i o e (true :: w) n) (HExit 0 (std i o e))
  end.

(** The words of the command's programs, and whether a part of it runs in the
    background. *)
Fixpoint argvs (c : tree str) : list (list str) :=
  match c with
  | EXEC [] => []
  | EXEC argv => [argv]
  | REDIR c _ _ _ | BACK c => argvs c
  | LIST l r | PIPE l r => argvs l ++ argvs r
  end.
Fixpoint foreground (c : tree str) : bool :=
  match c with
  | EXEC _ => true
  | REDIR c _ _ _ => foreground c
  | LIST l r | PIPE l r => foreground l && foreground r
  | BACK _ => false
  end.

(** Redirections are of standard input or output, as the parser makes them. *)
Fixpoint std_redirs (c : tree str) : Prop :=
  match c with
  | EXEC _ => True
  | REDIR c _ _ fd => (fd = 0 \/ fd = 1) /\ std_redirs c
  | PIPE l r | LIST l r => std_redirs l /\ std_redirs r
  | BACK c => std_redirs c
  end.

Lemma launch_std c : std_redirs c -> forall i o e w n, launch (runcmd c) (std i o e) w n = promised c i o e w n.
Proof.
  induction c as [argv|c IH f m fd|l IHl r IHr|l IHl r IHr|c IH]; intros Hc i o e w n; cbn [runcmd promised std_redirs] in *.
  - destruct argv; reflexivity.
  - destruct Hc as [[-> | ->] Hc]; cbn [launch Z.eqb].
    + change (drop_fd 0 (std i o e)) with ([None; Some o; Some e] ++ replicate (NOFILE - 3) (None (A := fobj))).
      change (Z.of_nat (low ([None; Some o; Some e] ++ _)) <? 0) with false. cbn match.
      change (give (Opened f m) ([None; Some o; Some e] ++ _)) with (std (Opened f m) o e). by apply IH.
    + change (drop_fd 1 (std i o e)) with ([Some i; None; Some e] ++ replicate (NOFILE - 3) (None (A := fobj))).
      change (Z.of_nat (low ([Some i; None; Some e] ++ _)) <? 0) with false. cbn match.
      change (give (Opened f m) ([Some i; None; Some e] ++ _)) with (std i (Opened f m) e). by apply IH.
  - destruct Hc as [Hl Hr]. cbn [launch]. change (low (std i o e)) with 3%nat.
    change (low (give (ReadEnd (w, n)) (std i o e))) with 4%nat. change (0 <? 0) with false. cbn match. unfold fork1. cbn [launch].
    change (1 =? -1) with false. cbn match. cbn [launch]. change (1 =? -1) with false. cbn match. cbn [launch]. f_equal; [|f_equal].
    + rewrite <- (IHl Hl). reflexivity.
    + rewrite <- (IHr Hr). reflexivity.
  - destruct Hc as [Hl Hr]. unfold fork1. cbn [launch]. change (1 =? -1) with false. cbn match. cbn [launch]. by rewrite (IHl Hl), (IHr Hr).
  - unfold fork1. cbn [launch]. change (1 =? -1) with false. cbn match. cbn [launch]. by rewrite (IH Hc).
Qed.

Lemma promised_programs c : forall i o e w n, (programs (promised c i o e w n)).*1 = argvs c.
Proof.
  induction c as [[|a argv]|c IH f m fd|l IHl r IHr|l IHl r IHr|c IH]; intros i o e w n; cbn [promised programs argvs]; try done.
  - by destruct (fd =? 0).
  - by rewrite !app_nil_r, fmap_app, IHl, IHr.
  - by rewrite fmap_app, IHl, IHr.
  - by rewrite app_nil_r.
Qed.

Lemma promised_tables c : forall i o e w n, Forall (fun T => exists i' o', T = std i' o' e) (tables (promised c i o e w n)).
Proof.
  induction c as [[|a argv]|c IH f m fd|l IHl r IHr|l IHl r IHr|c IH]; intros i o e w n; cbn [promised tables];
    try (destruct (fd =? 0); by apply IH); repeat first [apply Forall_app; split | apply Forall_cons; split | apply Forall_nil; done]; eauto.
Qed.

Lemma promised_waited c : foreground c = true -> forall i o e w n, waited 0 (promised c i o e w n) = true.
Proof.
  induction c as [[|a argv]|c IH f m fd|l IHl r IHr|l IHl r IHr|c IH]; intros Hf i o e w n; cbn [promised waited foreground] in *; try done.
  - destruct (fd =? 0); by apply IH.
  - apply andb_true_iff in Hf as [Hl Hr]. by rewrite IHl, IHr.
  - apply andb_true_iff in Hf as [Hl Hr]. by rewrite IHl, IHr.
Qed.

(** C27: a command started with standard input, output and error output, in which
    no call fails, runs exactly the programs written in it, in order, each with its
    own three descriptors and no other: redirected to the file, or joined by the
    pipe, where the command says so. No end of a pipe, and nothing else beyond
    three descriptors, is open in any process of the shell while it waits or when
    it exits; it waits for both sides of a pipe, and for the left side of a list
    before it starts the right one; and without [&] every process waits for each
    child it started. *)
Theorem runcmd_plumbing c : std_redirs c -> forall i o e w n,
  launch (runcmd c) (std i o e) w n = promised c i o e w n /\
  (programs (launch (runcmd c) (std i o e) w n)).*1 = argvs c /\
  Forall (fun T => exists i' o', T = std i' o' e) (tables (launch (runcmd c) (std i o e) w n)) /\
  (foreground c = true -> waited 0 (launch (runcmd c) (std i o e) w n) = true).
Proof.
  intros Hc i o e w n. rewrite launch_std by done. split; [done|]. split; [apply promised_programs|].
  split; [apply promised_tables|]. intros Hf. by apply promised_waited.
Qed.

(** [ls | wc > f] *)
Lemma runcmd_witness :
  let h := launch (runcmd (PIPE (EXEC [bytes_of "ls"]) (REDIR (EXEC [bytes_of "wc"]) (bytes_of "f") 1537 1)))
    (std (Inherited 0) (Inherited 1) (Inherited 2)) [] 0 in
  programs h =
    [([bytes_of "ls"], std (Inherited 0) (WriteEnd ([], 0%nat)) (Inherited 2));
     ([bytes_of "wc"], std (ReadEnd ([], 0%nat)) (Opened (bytes_of "f") 1537) (Inherited 2))] /\
  drop 2 (tables h) = replicate 3 (std (Inherited 0) (Inherited 1) (Inherited 2)) /\ waited 0 h = true.
Proof.
  intros h.
  destruct (runcmd_plumbing (PIPE (EXEC [bytes_of "ls"]) (REDIR (EXEC [bytes_of "wc"]) (bytes_of "f") 1537 1))
    (conj I (conj (or_intror eq_refl) I)) (Inherited 0) (Inherited 1) (Inherited 2) [] 0%nat) as (E & _ & _ & W).
  split; [unfold h; rewrite E; reflexivity|]. split; [unfold h; rewrite E; reflexivity|]. exact (W eq_refl).
Defined.

(** ** The loop of [main] *)
(** What it does with a line that [getcmd] read. *)
Inductive action : Type := Blank | Chdir (dir : str) | Run (line : str).

Fixpoint skip_blanks (l : str) : str :=
  match l with c :: l' => if (c =? 32) || (c =? 9) then skip_blanks l' else l | [] => [] end.

Definition handle_line (buf : str) : action :=
  let cmd := skip_blanks buf in
  if hd 0 cmd =? 10 then Blank
  else if (hd 0 cmd =? chr "c") && (hd 0 (tl cmd) =? chr "d") && (hd 0 (tl (tl cmd)) =? 32) then Chdir (drop 3 (removelast cmd))
  else Run cmd.
