(* ===== verification/Umalloc.v ===== *)
(** The allocator of user programs, user/umalloc.c.

    A block starts with a header of 16 bytes: a pointer and a size in units of 16
    bytes.  Free blocks are on a circular list in the order of their addresses,
    through the static header [base]; [freep] points at one of them.  The heap is
    the two fields of the headers by address, [freep], and the program break; the
    data of the blocks is not seen.  [sbrk] is the system call: [grants] says
    whether the kernel moves the break, the rest is what user/ulib.c passes it. *)
From S2P Require Import Prelude Riscv.

Definition HDR : Z := 16.

Record heap : Type := mkHeap { ptr : Z -> Z; hsize : Z -> Z; freep : Z; brk : Z }.

Section umalloc.
(** The address of [base], and whether the kernel grants [sbrk(n)] at a break. *)
Context (base : Z) (grants : Z -> Z -> bool).

Definition set_ptr (a v : Z) : M heap unit :=
  modS (fun h => mkHeap (fun x => if x =? a then v else ptr h x) (hsize h) (freep h) (brk h)).
Definition set_size (a v : Z) : M heap unit :=
  modS (fun h => mkHeap (ptr h) (fun x => if x =? a then u32 v else hsize h x) (freep h) (brk h)).
Definition set_freep (p : Z) : M heap unit := modS (fun h => mkHeap (ptr h) (hsize h) p (brk h)).

(** The break moves by an [int]; -1 when it does not. *)
Definition sbrk (n : Z) : M heap Z :=
  h ← getS;
  if grants (brk h) (i32 n) then _ ← putS (mkHeap (ptr h) (hsize h) (freep h) (brk h + i32 n)); mret (brk h) else mret (-1).

(** [for(p = freep; !(bp > p && bp < p->s.ptr); p = p->s.ptr)
       if(p >= p->s.ptr && (bp > p || bp < p->s.ptr)) break;] *)
Fixpoint free_scan (fuel : nat) (bp p : Z) : M heap Z :=
  match fuel with
  | O => diverge
  | S fuel =>
      h ← getS;
      let q := ptr h p in
      if (p <? bp) && (bp <? q) then mret p
      else if (q <=? p) && ((p <? bp) || (bp <? q)) then mret p
      else free_scan fuel bp q
  end.

(** Headers are 16 bytes apart at least. *)
Definition max_blocks (h : heap) : nat := Z.to_nat ((brk h - base) / HDR + 2).

Definition free (ap : Z) : M heap unit :=
  h ← getS;
  let bp := ap - HDR in
  p ← free_scan (2 * max_blocks h) bp (freep h);
  h ← getS;
  _ ← (if bp + HDR * hsize h bp =? ptr h p then
         _ ← set_size bp (hsize h bp + hsize h (ptr h p)); set_ptr bp (ptr h (ptr h p))
       else set_ptr bp (ptr h p));
  h ← getS;
  _ ← (if p + HDR * hsize h p =? bp then
         _ ← set_size p (hsize h p + hsize h bp); set_ptr p (ptr h bp)
       else set_ptr p bp);
  set_freep p.

(** 0 is the null pointer. *)
Definition morecore (nu : Z) : M heap Z :=
  let nu := if nu <? 4096 then 4096 else nu in
  hp ← sbrk (nu * HDR);
  if hp =? -1 then mret 0
  else
    _ ← set_size hp nu;
    _ ← free (hp + HDR);
    h ← getS; mret (freep h).

(** The loop of [malloc]. *)
Fixpoint malloc_loop (fuel : nat) (nunits prevp p : Z) : M heap Z :=
  match fuel with
  | O => diverge
  | S fuel =>
      h ← getS;
      if nunits <=? hsize h p then
        if hsize h p =? nunits then
          _ ← set_ptr prevp (ptr h p); _ ← set_freep prevp; mret (p + HDR)
        else
          _ ← set_size p (hsize h p - nunits);
          h ← getS;
          let p := p + HDR * hsize h p in
          _ ← set_size p nunits; _ ← set_freep prevp; mret (p + HDR)
      else if p =? freep h then
        p ← morecore nunits;
        if p =? 0 then mret 0 else h ← getS; malloc_loop fuel nunits p (ptr h p)
      else malloc_loop fuel nunits p (ptr h p)
  end.

Definition units (nbytes : Z) : Z := (nbytes + HDR - 1) / HDR + 1.

Definition malloc (nbytes : Z) : M heap Z :=
  let nunits := u32 (units nbytes) in
  h ← getS;
  _ ← (if freep h =? 0 then _ ← set_ptr base base; _ ← set_freep base; set_size base 0 else mret tt);
  h ← getS;
  let prevp := freep h in
  malloc_loop (2 * max_blocks h + 4) nunits prevp (ptr h prevp).
End umalloc.
