(* ===== verification/UmallocProofs.v ===== *)
(** The allocator of user programs: its blocks never overlap, nothing is lost, and
    its searches end. *)
From S2P Require Import Prelude Riscv Umalloc.

(** ** Blocks
    A block is its address and its size in units. *)
Abbreviation block := (Z * Z)%type.
Definition bend (b : block) : Z := fst b + HDR * snd b.
Definition apart (x y : block) : Prop := bend x <= fst y \/ bend y <= fst x.

Fixpoint all_apart (l : list block) : Prop :=
  match l with [] => True | x :: l => Forall (apart x) l /\ all_apart l end.

Lemma apart_sym x y : apart x y -> apart y x.
Proof. unfold apart. tauto. Qed.

Lemma all_apart_app l1 l2 : all_apart (l1 ++ l2) <-> all_apart l1 /\ all_apart l2 /\ forall x y, x ∈ l1 -> y ∈ l2 -> apart x y.
Proof.
  induction l1 as [|x l1 IH]; cbn [app all_apart]; [set_solver|]. rewrite IH, Forall_app, !list.Forall_forall. set_solver.
Qed.

Lemma all_apart_perm l1 l2 : l1 ≡ₚ l2 -> all_apart l1 -> all_apart l2.
Proof.
  induction 1 as [|x l1 l2 Hp IH|x y l|l1 l2 l3 _ IH1 _ IH2]; cbn [all_apart]; [done| | |by auto].
  - intros [H1 H2]. split; [by rewrite <- Hp|by apply IH].
  - rewrite !Forall_cons. intros ([Hxy Hy] & Hx & Hl). repeat split; try assumption; by apply apart_sym.
Qed.

Definition total_units (l : list block) : Z := foldr (fun b n => snd b + n) 0 l.

Lemma total_app l1 l2 : total_units (l1 ++ l2) = total_units l1 + total_units l2.
Proof. unfold total_units. rewrite foldr_app. generalize (foldr (fun (b : block) n => snd b + n) 0 l2). intros t. induction l1 as [|x l1 IH]; [done|]. cbn [foldr]. rewrite IH. lia. Qed.

Lemma total_perm l1 l2 : l1 ≡ₚ l2 -> total_units l1 = total_units l2.
Proof. unfold total_units. induction 1 as [|x l1 l2 _ IH|x y l|l1 l2 l3 _ IH1 _ IH2]; cbn [foldr]; [done|by rewrite IH|lia|by rewrite IH1]. Qed.

(** ** The free list *)
(** From [a] the pointers go through [ns] to [z], and the headers hold the sizes. *)
Fixpoint links (h : heap) (a : Z) (ns : list block) (z : Z) : Prop :=
  match ns with [] => ptr h a = z | b :: ns => ptr h a = fst b /\ hsize h (fst b) = snd b /\ links h (fst b) ns z end.

Lemma links_app h a l1 b l2 z : links h a (l1 ++ b :: l2) z <-> links h a l1 (fst b) /\ hsize h (fst b) = snd b /\ links h (fst b) l2 z.
Proof. revert a. induction l1 as [|c l1 IH]; intros a; cbn [app links]; [tauto|]. rewrite IH. tauto. Qed.

(** Writing the pointer or the size of another header changes nothing. *)
Lemma links_ext h h' a ns z : (forall x, x = a \/ x ∈ fst <$> ns -> ptr h' x = ptr h x) -> (forall x, x ∈ fst <$> ns -> hsize h' x = hsize h x) ->
  links h a ns z -> links h' a ns z.
Proof.
  revert a. induction ns as [|b ns IH]; intros a Hp Hs; cbn [links].
  - intros <-. apply Hp. by left.
  - intros (H1 & H2 & H3). rewrite fmap_cons in *. split_and!; [rewrite Hp by (by left); done|rewrite Hs by set_solver; done|].
    apply IH; [|intros; apply Hs; set_solver|done]. intros x [->|Hx]; apply Hp; set_solver.
Qed.

(** Addresses go up from [lo], with room between a block and the next. *)
Fixpoint ascending (lo : Z) (ns : list block) : Prop :=
  match ns with [] => True | b :: ns => lo < fst b /\ 0 < snd b /\ ascending (bend b) ns end.

Definition end_of (lo : Z) (ns : list block) : Z := foldl (fun _ b => bend b) lo ns.

Lemma end_of_app lo l1 l2 : end_of lo (l1 ++ l2) = end_of (end_of lo l1) l2.
Proof. apply foldl_app. Qed.

Lemma ascending_app lo l1 l2 : ascending lo (l1 ++ l2) <-> ascending lo l1 /\ ascending (end_of lo l1) l2.
Proof. revert lo. induction l1 as [|b l1 IH]; intros lo; cbn; [tauto|]. unfold end_of in IH. rewrite IH. tauto. Qed.

Lemma bend_pos b : 0 < snd b -> fst b < bend b.
Proof. unfold bend, HDR. lia. Qed.

Lemma ascending_end lo ns : ascending lo ns -> lo <= end_of lo ns.
Proof. revert lo. induction ns as [|b ns IH]; intros lo; cbn; [lia|]. intros (H1 & H2 & H3). specialize (IH _ H3). apply bend_pos in H2. unfold end_of in IH. lia. Qed.

Lemma ascending_in lo ns b : ascending lo ns -> b ∈ ns -> lo < fst b /\ 0 < snd b /\ bend b <= end_of lo ns.
Proof.
  revert lo. induction ns as [|c ns IH]; intros lo; [by intros _ ?%elem_of_nil|]. cbn. intros (H1 & H2 & H3) [->|Hb]%elem_of_cons.
  - split_and!; [done|done|]. by apply ascending_end.
  - destruct (IH _ H3 Hb) as (H4 & H5 & H6). apply bend_pos in H2. unfold end_of in H6. lia.
Qed.

Lemma ascending_all_apart lo ns : ascending lo ns -> all_apart ns.
Proof.
  revert lo. induction ns as [|b ns IH]; intros lo; [done|]. cbn. intros (_ & _ & H). split; [|by eapply IH].
  apply list.Forall_forall. intros c Hc. left. destruct (ascending_in _ _ _ H Hc) as [? _]. lia.
Qed.

(** The last header of a chain from [a]. *)
Definition at_end (a : Z) (l : list block) : Z := foldl (fun _ b => fst b) a l.

Lemma at_end_snoc a l b : at_end a (l ++ [b]) = fst b.
Proof. unfold at_end. by rewrite foldl_app. Qed.

Lemma at_end_cases a l : (l = [] /\ at_end a l = a) \/ exists l' c, l = l' ++ [c] /\ at_end a l = fst c.
Proof. destruct l as [|c l _] using rev_ind; [by left|]. right. exists l, c. by rewrite at_end_snoc. Qed.

Section proofs.
Context (base heap0 top : Z) (grants : Z -> Z -> bool).
Context (Hbase : 0 < base) (Hheap : base + HDR <= heap0) (Htop : top < base + HDR * 2 ^ 32).
Context (Hgrants : forall b n, grants b n = true -> b + n <= top).
Implicit Types h : heap.

(** [ns] are the free blocks, [A] those in use. *)
Record heap_inv h (ns A : list block) : Prop := {
  hi_links : links h base ns base;
  hi_base : hsize h base = 0;
  hi_asc : ascending (heap0 - 1) ns;
  hi_freep : freep h = base \/ freep h ∈ fst <$> ns;
  hi_live : forall b, b ∈ A -> hsize h (fst b) = snd b;
  hi_in : forall b, b ∈ ns ++ A -> 0 < snd b /\ heap0 <= fst b /\ bend b <= brk h;
  hi_apart : all_apart (ns ++ A);
  hi_brk : heap0 <= brk h <= top;
  hi_total : HDR * total_units (ns ++ A) = brk h - heap0
}.

(** ** The scan of [free] *)
Lemma free_scan_S fuel bp p h : free_scan (S fuel) bp p h =
  if (p <? bp) && (bp <? ptr h p) then Ret p h
  else if (ptr h p <=? p) && ((p <? bp) || (bp <? ptr h p)) then Ret p h else free_scan fuel bp (ptr h p) h.
Proof. cbn [free_scan]. unfold mbind at 1, M_bind at 1, getS. repeat case_match; done. Qed.

(** From a header below [bp]. *)
Lemma scan_up l2 : forall fuel p lo bp h, links h p l2 base -> base <= p <= lo -> ascending lo l2 -> p < bp -> base < bp ->
  (forall b, b ∈ l2 -> fst b <> bp) -> (length l2 < fuel)%nat ->
  exists la lb, l2 = la ++ lb /\ free_scan fuel bp p h = Ret (at_end p la) h /\
    (forall b, b ∈ la -> fst b < bp) /\ (forall b, b ∈ lb -> bp < fst b).
Proof.
  induction l2 as [|b l2 IH]; intros fuel p lo bp h Hl Hp Ha Hlt Hb Hne Hf; (destruct fuel as [|fuel]; [lia|]); rewrite free_scan_S; cbn [links ascending] in *.
  - rewrite Hl. exists [], []. rewrite (proj2 (Z.ltb_lt p bp)), (proj2 (Z.ltb_ge bp base)), (proj2 (Z.leb_le base p)) by lia. cbn.
    split_and!; try done; by intros ? ?%elem_of_nil.
  - destruct Hl as (-> & Hs & Hl). destruct Ha as (H1 & H2 & H3). rewrite (proj2 (Z.ltb_lt p bp)) by lia. cbn [andb orb].
    destruct (Z.ltb_spec bp (fst b)) as [Hbp|Hbp].
    + exists [], (b :: l2). split_and!; try done; [by intros ? ?%elem_of_nil|]. intros c [->|Hc]%elem_of_cons; [done|].
      destruct (ascending_in _ _ _ H3 Hc) as [? _]. apply bend_pos in H2. lia.
    + rewrite (proj2 (Z.leb_gt (fst b) p)) by lia. cbn [andb]. pose proof (bend_pos _ H2).
      destruct (IH fuel (fst b) (bend b) bp h Hl ltac:(lia) H3) as (la & lb & -> & R & Ha & Hbb);
        [specialize (Hne b ltac:(set_solver)); lia|done|set_solver|cbn in Hf; lia|].
      exists (b :: la), lb. split; [done|]. split; [exact R|]. split; [|done]. intros c [->|Hc]%elem_of_cons; [|by apply Ha].
      specialize (Hne b ltac:(set_solver)). lia.
Qed.

(** From a header above [bp], round to [base]. *)
Lemma scan_wrap l2 : forall fuel p lo bp h, links h p l2 base -> base < bp -> bp < p -> p <= lo -> ascending lo l2 ->
  free_scan (S (length l2 + fuel)) bp p h = free_scan fuel bp base h.
Proof.
  induction l2 as [|b l2 IH]; intros fuel p lo bp h Hl Hb Hlt Hp Ha; cbn [length Nat.add]; rewrite free_scan_S; cbn [links ascending] in *;
    rewrite (proj2 (Z.ltb_ge p bp)) by lia; cbn [andb orb].
  - rewrite Hl, (proj2 (Z.ltb_ge bp base)) by lia. by rewrite andb_false_r.
  - destruct Hl as (-> & Hs & Hl). destruct Ha as (H1 & H2 & H3). rewrite (proj2 (Z.leb_gt (fst b) p)) by lia. cbn [andb].
    apply (IH fuel (fst b) (bend b) bp h Hl Hb); [lia|apply bend_pos in H2; lia|done].
Qed.

Lemma length_ns h ns A : heap_inv h ns A -> (length ns + 2 <= max_blocks base h)%nat.
Proof.
  intros [_ _ _ _ _ Hin _ Hb Ht]. rewrite total_app in Ht.
  assert (Hpos : forall l, (forall b, b ∈ l -> 0 < snd b) -> Z.of_nat (length l) <= total_units l).
  { induction l as [|b l IH]; intros H; [done|]. cbn [length total_units foldr]. specialize (H b ltac:(set_solver)) as Hb'.
    specialize (IH ltac:(set_solver)). unfold total_units in IH. lia. }
  pose proof (Hpos ns ltac:(intros b Hb'; apply (Hin b); set_solver)). pose proof (Hpos A ltac:(intros b Hb'; apply (Hin b); set_solver)).
  unfold max_blocks, HDR in *. assert (Z.of_nat (length ns) <= (brk h - base) / 16) by (apply Z.div_le_lower_bound; lia). lia.
Qed.

(** A block that is apart from the free ones lies between two of them. *)
Lemma place_scan_run h ns A bp : heap_inv h ns A -> heap0 <= bp -> (forall b, b ∈ ns -> fst b <> bp) ->
  exists l1 l2, ns = l1 ++ l2 /\ free_scan (2 * max_blocks base h) bp (freep h) h = Ret (at_end base l1) h /\
    (forall b, b ∈ l1 -> fst b < bp) /\ (forall b, b ∈ l2 -> bp < fst b).
Proof.
  intros I Hbp Hne. pose proof (length_ns _ _ _ I) as Hlen. unfold HDR in *.
  assert (Hup : forall fuel, (length ns < fuel)%nat -> exists l1 l2, ns = l1 ++ l2 /\ free_scan fuel bp base h = Ret (at_end base l1) h /\
    (forall b, b ∈ l1 -> fst b < bp) /\ (forall b, b ∈ l2 -> bp < fst b)).
  { intros fuel Hf. apply (scan_up ns fuel base (heap0 - 1) bp h); try done; try lia; apply I. }
  destruct (hi_freep _ _ _ I) as [->|(b & -> & Hb)%list_elem_of_fmap]; [apply Hup; lia|].
  apply list_elem_of_split in Hb as (k1 & k2 & E). pose proof (hi_links _ _ _ I) as Hl. pose proof (hi_asc _ _ _ I) as Ha.
  rewrite E in Hl, Ha. apply links_app in Hl as (_ & _ & Hl). apply ascending_app in Ha as [Ha1 Ha]. cbn [ascending] in Ha. destruct Ha as (H1 & H2 & H3).
  pose proof (bend_pos _ H2). pose proof (ascending_end _ _ Ha1). destruct (decide (fst b < bp)) as [Hlt|Hge].
  - destruct (scan_up k2 (2 * max_blocks base h) (fst b) (bend b) bp h Hl) as (la & lb & -> & R & Hla & Hlb); try done; try lia.
    { intros c Hc. apply Hne. rewrite E. set_solver. }
    { rewrite E, length_app in Hlen. cbn [length] in Hlen. lia. }
    exists (k1 ++ b :: la), lb. split; [by rewrite E, <- app_assoc|]. split; [rewrite R; f_equal; unfold at_end; by rewrite foldl_app|].
    split; [|done]. intros c [Hc|[->|Hc]%elem_of_cons]%elem_of_app; [|done|by apply Hla].
    destruct (ascending_in _ _ _ Ha1 Hc) as (_ & H4 & H5). apply bend_pos in H4. lia.
  - assert (Hk : (length k2 < length ns)%nat) by (rewrite E, length_app; cbn; lia).
    replace (2 * max_blocks base h)%nat with (S (length k2 + (2 * max_blocks base h - 1 - length k2))) by lia.
    assert (fst b <> bp) by (apply Hne; rewrite E; set_solver).
    rewrite (scan_wrap k2 _ (fst b) (bend b) bp h Hl) by (done || lia). apply Hup. lia.
Qed.

(** ** Joining blocks *)
Definition spaced (hi : Z) (l : list block) : Prop := all_apart l /\ forall b, b ∈ l -> 0 < snd b /\ heap0 <= fst b /\ bend b <= hi.
(** The blocks of [l'] cover what those of [l] cover. *)
Definition same_space (l l' : list block) : Prop := total_units l = total_units l' /\ forall hi, spaced hi l -> spaced hi l'.

Lemma same_space_trans l1 l2 l3 : same_space l1 l2 -> same_space l2 l3 -> same_space l1 l3.
Proof. intros [E1 H1] [E2 H2]. split; [congruence|]. auto. Qed.

Lemma same_space_perm l l' : l ≡ₚ l' -> same_space l l'.
Proof.
  intros Hp. split; [by apply total_perm|]. intros hi [Ha Hin]. split; [by eapply all_apart_perm|]. intros b Hb. apply Hin. by rewrite Hp.
Qed.

Definition merged (x y : block) : block := (fst x, snd x + snd y).

Lemma bend_merged x y : bend x = fst y -> bend (merged x y) = bend y.
Proof. unfold bend, merged, HDR. cbn. lia. Qed.

Lemma same_space_merge x y l : bend x = fst y -> same_space (x :: y :: l) (merged x y :: l).
Proof.
  intros E. split; [unfold total_units, merged; cbn; lia|]. intros hi [Ha Hin]. pose proof (bend_merged x y E) as Eb.
  pose proof (Hin x ltac:(set_solver)) as Hx. pose proof (Hin y ltac:(set_solver)) as Hy. cbn [all_apart] in Ha.
  destruct Ha as (Hax & Hay & Hl). apply Forall_cons in Hax as [_ Hax]. split.
  - split; [|done]. apply list.Forall_forall. intros z Hz. pose proof (Hin z ltac:(set_solver)) as (Hz0 & _).
    pose proof (proj1 (list.Forall_forall _ _) Hax z Hz) as H1. pose proof (proj1 (list.Forall_forall _ _) Hay z Hz) as H2.
    unfold apart in *. rewrite Eb. cbn [merged fst]. apply bend_pos in Hz0. lia.
  - intros b [->|Hb]%elem_of_cons; [|apply Hin; set_solver]. rewrite Eb. cbn [merged fst snd]. lia.
Qed.

(** ** Changing headers *)
Definition with_ptr (a v : Z) h : heap := mkHeap (fun x => if x =? a then v else ptr h x) (hsize h) (freep h) (brk h).
Definition with_size (a v : Z) h : heap := mkHeap (ptr h) (fun x => if x =? a then u32 v else hsize h x) (freep h) (brk h).

(** [h'] is [h] but for the header at [a]. *)
Definition only (a : Z) h h' : Prop :=
  (forall x, x <> a -> ptr h' x = ptr h x /\ hsize h' x = hsize h x) /\ freep h' = freep h /\ brk h' = brk h.

Lemma only_with a v w h : only a h (with_ptr a v h) /\ only a h (with_ptr a v (with_size a w h)).
Proof. split; (split; [|done]); intros x Hx; cbn; by rewrite (proj2 (Z.eqb_neq x a)). Qed.

Lemma links_only a h h' p ns z : only a h h' -> p <> a -> a ∉ fst <$> ns -> links h p ns z -> links h' p ns z.
Proof.
  intros [Ho _] Hp Hn. apply links_ext.
  - intros x [->|Hx]; apply Ho; [done|]. by intros ->.
  - intros x Hx. apply Ho. by intros ->.
Qed.

(** The last pointer of a chain is changed. *)
Lemma links_retarget h h' p ns x v : links h p ns x -> NoDup (p :: (fst <$> ns)) -> only (at_end p ns) h h' -> ptr h' (at_end p ns) = v ->
  (ns <> [] -> hsize h' (at_end p ns) = hsize h (at_end p ns)) -> links h' p ns v.
Proof.
  intros Hl Hnd Ho Hv Hs. destruct (at_end_cases p ns) as [[-> _]|(l & c & -> & E)]; [exact Hv|]. rewrite E in *.
  apply links_app in Hl as (H1 & H2 & H3). rewrite fmap_app in Hnd. cbn [fmap list_fmap] in Hnd.
  apply NoDup_cons in Hnd as [Hp Hnd]. apply NoDup_app in Hnd as (_ & Hd & _).
  apply links_app. split_and!; [eapply links_only; [exact Ho| | |exact H1]|rewrite Hs; [done|by destruct l]|exact Hv].
  - intros ->. apply Hp. set_solver.
  - intros Hin. apply (Hd _ Hin). set_solver.
Qed.

Lemma ascending_nodup lo ns p : ascending lo ns -> p <= lo -> NoDup (p :: (fst <$> ns)).
Proof.
  revert lo p. induction ns as [|b ns IH]; intros lo p; cbn [ascending fmap list_fmap]; [intros; apply NoDup_singleton|].
  intros (H1 & H2 & H3) Hp. apply NoDup_cons. split; [|apply (IH (bend b)); [done|by apply Z.lt_le_incl, bend_pos]].
  intros [E|(c & E & Hc)%list_elem_of_fmap]%elem_of_cons; [lia|]. destruct (ascending_in _ _ _ H3 Hc) as [? _]. apply bend_pos in H2. lia.
Qed.

Lemma size_fits hi l b : spaced hi l -> hi <= top -> b ∈ l -> u32 (snd b) = snd b.
Proof.
  intros [_ Hin] Hhi (H1 & H2 & H3)%Hin. unfold bend, HDR in *. unfold u32. apply Z.mod_small. lia.
Qed.

(** The first half of [free]: the block is joined with the one after it, if they
    touch, and linked to what follows. *)
Definition join_next (bp p : Z) : M heap unit :=
  h ← getS;
  if bp + HDR * hsize h bp =? ptr h p then _ ← set_size bp (hsize h bp + hsize h (ptr h p)); set_ptr bp (ptr h (ptr h p))
  else set_ptr bp (ptr h p).

Lemma join_next_run h l1 l2 B rest : spaced (brk h) (l1 ++ l2 ++ B :: rest) -> brk h <= top -> links h base (l1 ++ l2) base ->
  hsize h (fst B) = snd B -> ascending (end_of (heap0 - 1) l1) l2 -> (forall b, b ∈ l2 -> fst B < fst b) ->
  exists h1 B1 l3, join_next (fst B) (at_end base l1) h = Ret tt h1 /\ only (fst B) h h1 /\ fst B1 = fst B /\ snd B <= snd B1 /\
    hsize h1 (fst B) = snd B1 /\ links h1 (fst B) l3 base /\ ascending (bend B1) l3 /\ same_space (l1 ++ l2 ++ B :: rest) (l1 ++ B1 :: l3 ++ rest) /\
    (length l3 <= length l2)%nat.
Proof.
  intros Hsp Htp Hl Hs Ha Hgt. unfold join_next, mbind at 1, M_bind at 1, getS. rewrite Hs.
  pose proof (proj2 Hsp B ltac:(set_solver)) as (HB0 & HB1 & HB2). fold (bend B).
  destruct l2 as [|b l2].
  - rewrite app_nil_r in Hl. assert (Eq : ptr h (at_end base l1) = base).
    { destruct (at_end_cases base l1) as [[-> ->]|(l & c & -> & ->)]; [exact Hl|]. apply links_app in Hl. apply Hl. }
    rewrite Eq. assert (bend B <> base) by (apply bend_pos in HB0; unfold HDR in *; lia). rewrite (proj2 (Z.eqb_neq _ _)) by done.
    exists (with_ptr (fst B) base h), B, []. split; [done|]. split; [apply (only_with _ _ 0)|]. split_and!; try done.
    cbn. by rewrite Z.eqb_refl.
  - cbn [ascending] in Ha. destruct Ha as (Ha1 & Ha2 & Ha3). apply links_app in Hl as (Hl1 & Hsb & Hl2).
    assert (Eq : ptr h (at_end base l1) = fst b).
    { destruct (at_end_cases base l1) as [[-> ->]|(l & c & -> & ->)]; [exact Hl1|]. apply links_app in Hl1. apply Hl1. }
    rewrite Eq, Hsb.
    assert (Hle : bend B <= fst b).
    { destruct Hsp as [Hap _]. apply all_apart_app in Hap as (_ & Hap & _). cbn [app all_apart] in Hap. destruct Hap as [Hb _].
      pose proof (proj1 (list.Forall_forall _ _) Hb B ltac:(set_solver)) as [?|?]; [|done]. specialize (Hgt b ltac:(set_solver)). apply bend_pos in Ha2. lia. }
    assert (HnB : fst B ∉ fst <$> l2).
    { intros (c & Ec & Hc)%list_elem_of_fmap. specialize (Hgt c ltac:(set_solver)). lia. }
    specialize (Hgt b ltac:(set_solver)) as Hgb.
    destruct (Z.eqb_spec (bend B) (fst b)) as [E|Hne].
    + assert (Hss : same_space (l1 ++ (b :: l2) ++ B :: rest) (l1 ++ merged B b :: l2 ++ rest)).
      { eapply same_space_trans; [apply (same_space_perm _ (B :: b :: l1 ++ l2 ++ rest)); solve_Permutation|].
        eapply same_space_trans; [by apply same_space_merge|]. apply same_space_perm. solve_Permutation. }
      exists (with_ptr (fst B) (ptr h (fst b)) (with_size (fst B) (snd B + snd b) h)), (merged B b), l2.
      split; [done|]. split; [apply only_with|]. split; [done|]. split; [cbn; lia|]. split.
      { cbn. rewrite Z.eqb_refl. apply (size_fits (brk h) (l1 ++ merged B b :: l2 ++ rest) (merged B b)); [by apply Hss|done|set_solver]. }
      split; [|split; [by rewrite bend_merged|split; [done|cbn; lia]]].
      destruct l2 as [|c l2]; cbn [links] in *; [cbn; by rewrite Z.eqb_refl|].
      destruct Hl2 as (E1 & E2 & E3). split; [cbn; by rewrite Z.eqb_refl|].
      pose proof (only_with (fst B) (ptr h (fst b)) (snd B + snd b) h) as [_ Ho].
      assert (fst c <> fst B) by (intros Ec; apply HnB; rewrite fmap_cons; set_solver).
      split; [rewrite (proj2 (proj1 Ho (fst c) ltac:(done))); done|]. eapply links_only; [exact Ho|done| |exact E3]. rewrite fmap_cons in HnB. set_solver.
    + exists (with_ptr (fst B) (fst b) h), B, (b :: l2). split; [done|]. pose proof (only_with (fst B) (fst b) 0 h) as [Ho _].
      split; [exact Ho|]. split; [done|]. split; [lia|]. split; [exact Hs|]. split.
      { cbn [links]. split; [cbn; by rewrite Z.eqb_refl|]. split; [exact Hsb|]. eapply links_only; [exact Ho|lia|exact HnB|exact Hl2]. }
      split; [cbn [ascending]; split_and!; [lia|done|done]|]. split; [apply same_space_perm; solve_Permutation|lia].
Qed.

(** The second half: with the one before it. *)
Definition join_prev (bp p : Z) : M heap unit :=
  h ← getS;
  if p + HDR * hsize h p =? bp then _ ← set_size p (hsize h p + hsize h bp); set_ptr p (ptr h bp) else set_ptr p bp.

Lemma ascending_snoc lo l c : ascending lo (l ++ [c]) <-> ascending lo l /\ end_of lo l < fst c /\ 0 < snd c.
Proof. rewrite ascending_app. cbn [ascending]. tauto. Qed.

Lemma join_prev_run h l1 x B l3 rest : spaced (brk h) (l1 ++ B :: l3 ++ rest) -> brk h <= top -> links h base l1 x -> hsize h base = 0 ->
  links h (fst B) l3 base -> hsize h (fst B) = snd B -> ascending (heap0 - 1) l1 -> ascending (bend B) l3 -> (forall b, b ∈ l1 -> fst b < fst B) ->
  exists h2 ns, join_prev (fst B) (at_end base l1) h = Ret tt h2 /\ only (at_end base l1) h h2 /\ hsize h2 base = 0 /\
    links h2 base ns base /\ ascending (heap0 - 1) ns /\ same_space (l1 ++ B :: l3 ++ rest) (ns ++ rest) /\
    (at_end base l1 = base \/ at_end base l1 ∈ fst <$> ns) /\ (length ns <= length l1 + 1 + length l3)%nat /\ exists b, b ∈ ns /\ snd B <= snd b.
Proof.
  intros Hsp Htp Hl1 Hb0 Hl3 Hs Ha1 Ha3 Hlt. unfold join_prev, mbind at 1, M_bind at 1, getS. rewrite Hs.
  pose proof (proj2 Hsp B ltac:(set_solver)) as (HB0 & HB1 & HB2).
  assert (HBn : fst B ∉ fst <$> l1) by (intros (c & Ec & Hc)%list_elem_of_fmap; specialize (Hlt c Hc); lia).
  assert (HBb : fst B <> base) by (unfold HDR in *; lia).
  assert (Hn3 : forall y, y < bend B -> y ∉ fst <$> l3).
  { intros y Hy (c & -> & Hc)%list_elem_of_fmap. destruct (ascending_in _ _ _ Ha3 Hc) as [? _]. lia. }
  pose proof (bend_pos _ HB0) as HBp.
  (* not joined: the pointer of the header before goes to [B] *)
  assert (Keep : forall q, q = at_end base l1 -> end_of (heap0 - 1) l1 < fst B -> exists h2 ns, set_ptr q (fst B) h = Ret tt h2 /\ only q h h2 /\ hsize h2 base = 0 /\
    links h2 base ns base /\ ascending (heap0 - 1) ns /\ same_space (l1 ++ B :: l3 ++ rest) (ns ++ rest) /\
    (q = base \/ q ∈ fst <$> ns) /\ (length ns <= length l1 + 1 + length l3)%nat /\ exists b, b ∈ ns /\ snd B <= snd b).
  { intros q -> Hend. set (q := at_end base l1). pose proof (only_with q (fst B) 0 h) as [Ho _].
    assert (Hq : q < bend B /\ q <> fst B /\ (q = base \/ q ∈ fst <$> l1)).
    { unfold q. destruct (at_end_cases base l1) as [[_ ->]|(l & c & -> & ->)]; [unfold HDR in *; split_and!; [lia|done|by left]|].
      specialize (Hlt c ltac:(set_solver)). split_and!; [lia|lia|right; rewrite fmap_app; set_solver]. }
    destruct Hq as (Hq1 & Hq2 & Hq3).
    exists (with_ptr q (fst B) h), (l1 ++ B :: l3). split; [done|]. split; [exact Ho|]. split; [done|]. split.
    { apply links_app. split_and!; [|exact Hs|eapply links_only; [exact Ho|done|by apply Hn3|exact Hl3]].
      eapply links_retarget; [exact Hl1|by apply (ascending_nodup (heap0 - 1)); [|unfold HDR in *; lia]|exact Ho|cbn; fold q; by rewrite Z.eqb_refl|done]. }
    split; [apply ascending_app; split; [done|]; cbn [ascending]; done|]. split; [apply same_space_perm; solve_Permutation|].
    split; [destruct Hq3; [by left|right; rewrite fmap_app; set_solver]|]. split; [rewrite length_app; cbn; lia|]. exists B. split; [set_solver|lia]. }
  destruct (at_end_cases base l1) as [[El1 Eq]|(l & c & El1 & Eq)].
  { rewrite Eq, Hb0, Z.mul_0_r, Z.add_0_r, (proj2 (Z.eqb_neq base (fst B))) by done.
    destruct (Keep base) as (h2 & ns & R); [done|rewrite El1; cbn; lia|]. exists h2, ns. exact R. }
  pose proof Hl1 as Hl1'. rewrite El1 in Hl1'. apply links_app in Hl1' as (Hla & Hsc & Hpc). rewrite Eq, Hsc. fold (bend c).
  rewrite El1 in Ha1. apply ascending_snoc in Ha1 as (Hal & Hec & Hc0).
  assert (Hle : bend c <= fst B).
  { destruct Hsp as [Hap _]. apply all_apart_app in Hap as (_ & _ & Hap). destruct (Hap c B) as [?|?]; [rewrite El1; set_solver|set_solver|done|].
    specialize (Hlt c ltac:(rewrite El1; set_solver)). lia. }
  destruct (Z.eqb_spec (bend c) (fst B)) as [E|Hne].
  2:{ destruct (Keep (fst c)) as (h2 & ns & R); [done|rewrite El1, end_of_app; cbn; lia|]. exists h2, ns. exact R. }
  clear Keep. specialize (Hlt c ltac:(rewrite El1; set_solver)).
  assert (Hss : same_space (l1 ++ B :: l3 ++ rest) ((l ++ merged c B :: l3) ++ rest)).
  { rewrite El1. eapply same_space_trans; [apply (same_space_perm _ (c :: B :: l ++ l3 ++ rest)); solve_Permutation|].
    eapply same_space_trans; [by apply same_space_merge|]. apply same_space_perm. solve_Permutation. }
  pose proof (only_with (fst c) (ptr h (fst B)) (snd c + snd B) h) as [_ Ho]. set (h2 := with_ptr _ _ _) in *.
  assert (Hcb : fst c <> base).
  { pose proof (proj2 Hsp c ltac:(rewrite El1; set_solver)) as (_ & ? & _). unfold HDR in *. lia. }
  exists h2, (l ++ merged c B :: l3). split; [done|]. split; [exact Ho|]. split; [unfold h2; cbn; by rewrite (proj2 (Z.eqb_neq base (fst c)))|]. split.
  { apply links_app. cbn [merged fst snd]. split_and!.
    - eapply links_only; [exact Ho|done| |exact Hla]. intros (d & Ed & Hd)%list_elem_of_fmap.
      destruct (ascending_in _ _ _ Hal Hd) as (_ & H1 & H2). apply bend_pos in H1. lia.
    - unfold h2. cbn. rewrite Z.eqb_refl. apply (size_fits (brk h) ((l ++ merged c B :: l3) ++ rest) (merged c B)); [by apply Hss|done|set_solver].
    - destruct l3 as [|d l3]; cbn [links] in *; [unfold h2; cbn; by rewrite Z.eqb_refl|]. destruct Hl3 as (E1 & E2 & E3).
      assert (Hdc : fst d <> fst c) by (intros Ed; apply (Hn3 (fst c) ltac:(lia)); rewrite fmap_cons; set_solver).
      split; [unfold h2; cbn; by rewrite Z.eqb_refl|]. split; [rewrite (proj2 (proj1 Ho (fst d) ltac:(done))); done|].
      eapply links_only; [exact Ho|done| |exact E3]. specialize (Hn3 (fst c) ltac:(lia)). rewrite fmap_cons in Hn3. set_solver. }
  split; [apply ascending_app; split; [done|]; cbn [ascending merged fst snd]; split_and!; [done|lia|by rewrite bend_merged]|]. split; [exact Hss|].
  split; [right; rewrite fmap_app, fmap_cons; set_solver|]. split; [rewrite El1, !length_app; cbn; lia|]. exists (merged c B). split; [set_solver|cbn; lia].
Qed.

Lemma heap_spaced h ns A : heap_inv h ns A -> spaced (brk h) (ns ++ A).
Proof. intros I. split; [apply I|apply (hi_in _ _ _ I)]. Qed.

Lemma free_run h ns bp n A : heap_inv h ns ((bp, n) :: A) ->
  exists h' ns', free base (bp + HDR) h = Ret tt h' /\ heap_inv h' ns' A /\ brk h' = brk h /\ (length ns' <= length ns + 1)%nat /\ exists b, b ∈ ns' /\ n <= snd b.
Proof.
  intros I. pose proof (heap_spaced _ _ _ I) as Hsp. pose proof (hi_brk _ _ _ I) as Hbrk.
  pose proof (hi_in _ _ _ I (bp, n) ltac:(set_solver)) as (Hn & Hbp & Hbe). cbn [fst snd] in *.
  assert (Hne : forall b, b ∈ ns -> fst b <> bp).
  { intros b Hb Eb. pose proof (hi_apart _ _ _ I) as Hap. apply all_apart_app in Hap as (_ & _ & Hap).
    specialize (Hap b (bp, n) Hb ltac:(set_solver)). pose proof (hi_in _ _ _ I b ltac:(set_solver)) as (H1 & _).
    unfold apart, bend, HDR in *. cbn [fst snd] in *. lia. }
  destruct (place_scan_run _ _ _ bp I Hbp Hne) as (l1 & l2 & Ens & R & Hl1 & Hl2). set (q := at_end base l1) in *.
  set (p2 := (_ ← join_next bp q; _ ← join_prev bp q; set_freep q)).
  assert (EF : free base (bp + HDR) h = p2 h).
  { unfold free. unfold mbind at 1, M_bind at 1, getS. replace (bp + HDR - HDR) with bp by lia. rewrite (bind_Ret _ _ _ _ _ R). reflexivity. }
  rewrite EF. clear EF. subst ns. rewrite <- app_assoc in Hsp. pose proof (hi_asc _ _ _ I) as Ha. apply ascending_app in Ha as [Ha1 Ha2].
  assert (HqB : q <> bp).
  { unfold q. destruct (at_end_cases base l1) as [[_ ->]|(l & c & -> & ->)]; [unfold HDR in *; lia|]. specialize (Hl1 c ltac:(set_solver)). lia. }
  destruct (join_next_run h l1 l2 (bp, n) A Hsp ltac:(lia) (hi_links _ _ _ I) (hi_live _ _ _ I (bp, n) ltac:(set_solver)) Ha2 Hl2)
    as (h1 & B1 & l3 & R1 & O1 & EB & HnB & Hs1 & Hk1 & Ha3 & Hss1 & Hlen3). cbn [fst snd] in *.
  assert (Hx : exists x, links h1 base l1 x).
  { pose proof (hi_links _ _ _ I) as Hl. assert (Hl0 : exists x, links h base l1 x).
    { destruct l2 as [|b l2]; [exists base; by rewrite app_nil_r in Hl|]. apply links_app in Hl as [Hl _]. by exists (fst b). }
    destruct Hl0 as [x Hl0]. exists x. eapply links_only; [exact O1|unfold HDR in *; lia| |exact Hl0].
    intros (c & Ec & Hc)%list_elem_of_fmap. specialize (Hl1 c Hc). lia. }
  destruct Hx as [x Hx]. destruct O1 as (O1 & Ofp & Obrk).
  assert (Hsp1 : spaced (brk h1) (l1 ++ B1 :: l3 ++ A)) by (rewrite Obrk; by apply Hss1).
  assert (Hb1 : hsize h1 base = 0) by (rewrite (proj2 (O1 base ltac:(unfold HDR in *; lia))); apply I).
  rewrite <- EB in Hs1, Hk1. assert (Hl1' : forall c, c ∈ l1 -> fst c < fst B1) by (intros c Hc; rewrite EB; by apply Hl1).
  destruct (join_prev_run h1 l1 x B1 l3 A Hsp1 ltac:(lia) Hx Hb1 Hk1 Hs1 Ha1 Ha3 Hl1')
    as (h2 & ns & R2 & O2 & Hb2 & Hk2 & Ha4 & Hss2 & Hq & Hlen2 & b & Hb & Hnb).
  rewrite EB in R2. destruct O2 as (O2 & Ofp2 & Obrk2). unfold p2. rewrite (bind_Ret _ _ _ _ _ R1), (bind_Ret _ _ _ _ _ R2).
  eexists _, ns. split; [reflexivity|]. pose proof (same_space_trans _ _ _ Hss1 Hss2) as [Etot Hsp2].
  specialize (Hsp2 (brk h) Hsp) as [Hap Hin]. split; [|split; [cbn; congruence|split; [rewrite length_app; lia|exists b; split; [done|lia]]]].
  split; cbn [ptr hsize freep brk]; try done.
  - by apply (links_ext h2).
  - intros c Hc. assert (Hcb : fst c <> bp /\ fst c <> q).
    { pose proof (hi_apart _ _ _ I) as Hap0. apply all_apart_app in Hap0 as (_ & HapA & Hap0). cbn [all_apart] in HapA.
      pose proof (proj1 (list.Forall_forall _ _) (proj1 HapA) c Hc) as Hx1. pose proof (hi_in _ _ _ I c ltac:(set_solver)) as (Hc0 & Hc1 & _).
      split; [intros Ec; unfold apart, bend, HDR in Hx1; cbn [fst snd] in Hx1; lia|].
      unfold q. destruct (at_end_cases base l1) as [[_ ->]|(l & d & El & ->)]; [unfold HDR in *; lia|]. intros Ec.
      specialize (Hap0 d c ltac:(rewrite El; set_solver) ltac:(set_solver)). pose proof (hi_in _ _ _ I d ltac:(rewrite El; set_solver)) as (Hd0 & _).
      unfold apart, bend, HDR in Hap0. lia. }
    destruct Hcb as [Hc1 Hc2]. rewrite (proj2 (O2 _ Hc2)), (proj2 (O1 _ Hc1)). apply (hi_live _ _ _ I). set_solver.
  - intros c Hc. rewrite Obrk2, Obrk. by apply Hin.
  - by rewrite Obrk2, Obrk.
  - rewrite Obrk2, Obrk, <- (hi_total _ _ _ I). rewrite <- app_assoc. lia.
Qed.

(** ** Asking for more memory *)
Definition core_units (nu : Z) : Z := if nu <? 4096 then 4096 else nu.

Lemma sbrk_run h n : sbrk grants n h =
  if grants (brk h) (i32 n) then Ret (brk h) (mkHeap (ptr h) (hsize h) (freep h) (brk h + i32 n)) else Ret (-1) h.
Proof. unfold sbrk, mbind, M_bind, getS. by destruct (grants _ _). Qed.

Lemma morecore_run h ns A nu : heap_inv h ns A -> 0 < nu -> HDR * core_units nu < 2 ^ 31 ->
  if grants (brk h) (HDR * core_units nu)
  then exists h' ns', morecore base grants nu h = Ret (freep h') h' /\ heap_inv h' ns' A /\ (length ns' <= length ns + 1)%nat /\ exists b, b ∈ ns' /\ nu <= snd b
  else morecore base grants nu h = Ret 0 h.
Proof.
  intros I Hnu Hlt. assert (Hc : nu <= core_units nu /\ 4096 <= core_units nu) by (unfold core_units; destruct (Z.ltb_spec nu 4096); lia).
  set (k := core_units nu) in *. unfold morecore. fold (core_units nu). fold k. rewrite (Z.mul_comm k HDR).
  pose proof (sbrk_run h (HDR * k)) as Es. rewrite i32_small in Es by (unfold HDR in *; lia).
  destruct (grants (brk h) (HDR * k)) eqn:Eg; rewrite (bind_Ret _ _ _ _ _ Es); [|done]. pose proof (Hgrants _ _ Eg) as Htp. pose proof (hi_brk _ _ _ I) as Hbrk.
  rewrite (proj2 (Z.eqb_neq (brk h) (-1))) by (unfold HDR in *; lia).
  set (h1 := mkHeap (ptr h) (fun x => if x =? brk h then u32 k else hsize h x) (freep h) (brk h + HDR * k)).
  change ((set_size (brk h) k ≫= ?f) _) with (f tt h1). cbv beta.
  assert (Hnew : forall b, b ∈ ns ++ A -> fst b <> brk h).
  { intros b Hb. pose proof (hi_in _ _ _ I b Hb) as (H1 & _ & H2). apply bend_pos in H1. lia. }
  assert (Hk32 : u32 k = k) by (unfold u32; apply Z.mod_small; unfold HDR in *; lia).
  assert (I1 : heap_inv h1 ns ((brk h, k) :: A)).
  { destruct I as [Hl Hb0 Ha Hf Hlv Hin Hap _ Ht]. split; try done.
    - eapply links_ext; [| |exact Hl]; [done|]. intros x (b & -> & Hb)%list_elem_of_fmap. cbn. rewrite (proj2 (Z.eqb_neq _ _)); [done|]. apply Hnew. set_solver.
    - cbn. rewrite (proj2 (Z.eqb_neq base (brk h))) by (unfold HDR in *; lia). done.
    - intros b [->|Hb]%elem_of_cons; cbn [h1 hsize fst snd]; [by rewrite Z.eqb_refl|]. rewrite (proj2 (Z.eqb_neq _ _)) by (apply Hnew; set_solver). by apply Hlv.
    - intros b Hb. assert (b = (brk h, k) \/ b ∈ ns ++ A) as [->|Hb'] by set_solver; cbn [h1 brk].
      + unfold bend. cbn [fst snd]. lia.
      + specialize (Hin b Hb'). unfold HDR in *. lia.
    - apply (all_apart_perm ((brk h, k) :: ns ++ A)); [solve_Permutation|]. split; [|done]. apply list.Forall_forall. intros b Hb. right.
      cbn [fst]. by apply Hin.
    - cbn. unfold HDR in *. lia.
    - cbn [h1 brk]. rewrite (total_perm _ ((brk h, k) :: ns ++ A)) by solve_Permutation. unfold total_units in *. cbn [foldr snd]. lia. }
  destruct (free_run h1 ns (brk h) k A I1) as (h' & ns' & R & I' & Eb & Hlen & b & Hb & Hnb). rewrite (bind_Ret _ _ _ _ _ R).
  exists h', ns'. split; [done|]. split; [done|]. split; [done|]. exists b. split; [done|lia].
Qed.

(** ** The search *)
Definition next_of (l : list block) : Z := match l with [] => base | b :: _ => fst b end.

Lemma next_ptr h l1 l2 : links h base (l1 ++ l2) base -> ptr h (at_end base l1) = next_of l2.
Proof.
  intros Hl. destruct l2 as [|b l2].
  - rewrite app_nil_r in Hl. destruct (at_end_cases base l1) as [[-> ->]|(l & c & -> & ->)]; [exact Hl|]. apply links_app in Hl. apply Hl.
  - apply links_app in Hl as [Hl _]. destruct (at_end_cases base l1) as [[-> ->]|(l & c & -> & ->)]; [exact Hl|]. apply links_app in Hl. apply Hl.
Qed.

Lemma node_size h l1 c l2 : links h base (l1 ++ c :: l2) base -> hsize h (fst c) = snd c.
Proof. intros Hl. apply links_app in Hl. apply Hl. Qed.

(** A header that does not fit and is not [freep] is passed by. *)
Lemma loop_skip fuel nunits prevp p h : hsize h p < nunits -> p <> freep h ->
  malloc_loop base grants (S fuel) nunits prevp p h = malloc_loop base grants fuel nunits p (ptr h p) h.
Proof.
  intros H1 H2. cbn [malloc_loop]. unfold mbind at 1, M_bind at 1, getS. by rewrite (proj2 (Z.leb_gt _ _) H1), (proj2 (Z.eqb_neq _ _) H2).
Qed.

(** At [freep] more memory is asked for. *)
Lemma loop_more fuel nunits prevp h : hsize h (freep h) < nunits ->
  malloc_loop base grants (S fuel) nunits prevp (freep h) h =
  (p ← morecore base grants nunits; if p =? 0 then mret 0 else h ← getS; malloc_loop base grants fuel nunits p (ptr h p)) h.
Proof. intros H1. cbn [malloc_loop]. unfold mbind at 1, M_bind at 1, getS at 1. by rewrite (proj2 (Z.leb_gt _ _) H1), Z.eqb_refl. Qed.

Lemma walk_up la : forall fuel nunits l1 l2 h, links h base (l1 ++ la ++ l2) base -> (forall c, c ∈ la -> snd c < nunits /\ fst c <> freep h) ->
  malloc_loop base grants (length la + fuel) nunits (at_end base l1) (next_of (la ++ l2)) h =
  malloc_loop base grants fuel nunits (at_end base (l1 ++ la)) (next_of l2) h.
Proof.
  induction la as [|c la IH]; intros fuel nunits l1 l2 h Hl Hc; [by rewrite app_nil_r|]. cbn [length Nat.add app next_of].
  pose proof (Hc c ltac:(set_solver)) as [H1 H2]. rewrite loop_skip; [|by rewrite (node_size h l1 c (la ++ l2) Hl)|done].
  assert (E : ptr h (fst c) = next_of (la ++ l2)).
  { rewrite <- (at_end_snoc base l1 c). apply next_ptr. by rewrite <- app_assoc. }
  rewrite E, <- (at_end_snoc base l1 c). rewrite (IH fuel nunits (l1 ++ [c]) l2 h); [by rewrite <- app_assoc|by rewrite <- app_assoc|]. intros d Hd. apply Hc. set_solver.
Qed.

Lemma split_fit nunits (l : list block) : (exists la c lb, l = la ++ c :: lb /\ (forall d, d ∈ la -> snd d < nunits) /\ nunits <= snd c) \/ (forall d, d ∈ l -> snd d < nunits).
Proof.
  induction l as [|c l IH]; [right; by intros ? ?%elem_of_nil|]. destruct (decide (nunits <= snd c)) as [H|H].
  - left. exists [], c, l. split_and!; [done|by intros ? ?%elem_of_nil|done].
  - destruct IH as [(la & d & lb & -> & Ha & Hd)|IH]; [left; exists (c :: la), d, lb|right].
    + split_and!; [done| |done]. intros e [->|He]%elem_of_cons; [lia|by apply Ha].
    + intros e [->|He]%elem_of_cons; [lia|by apply IH].
Qed.

(** The search from [freep] comes to a block that fits, or to [freep], when none does. *)
Lemma search_run h ns A nunits fuel : heap_inv h ns A -> 0 < nunits -> (length ns + 2 <= fuel)%nat ->
  exists fuel' prevp, (fuel - (length ns + 2) <= fuel')%nat /\
    ((exists l1 c l2, ns = l1 ++ c :: l2 /\ nunits <= snd c /\ prevp = at_end base l1 /\
       malloc_loop base grants fuel nunits (freep h) (ptr h (freep h)) h = malloc_loop base grants (S fuel') nunits prevp (fst c) h) \/
     ((forall c, c ∈ ns -> snd c < nunits) /\ hsize h (freep h) < nunits /\
       malloc_loop base grants fuel nunits (freep h) (ptr h (freep h)) h = malloc_loop base grants (S fuel') nunits prevp (freep h) h)).
Proof.
  intros I Hn Hf. pose proof (hi_links _ _ _ I) as Hl. pose proof (hi_base _ _ _ I) as Hb0. pose proof (hi_asc _ _ _ I) as Ha.
  pose proof (ascending_nodup _ _ base Ha ltac:(unfold HDR in *; lia)) as Hnd.
  destruct (hi_freep _ _ _ I) as [Ef|(f & Ef & Hfin)%list_elem_of_fmap]; rewrite Ef.
  - assert (Hne : forall c, c ∈ ns -> fst c <> freep h).
    { intros c Hc E. apply NoDup_cons in Hnd as [Hnd _]. apply Hnd, list_elem_of_fmap. exists c. by rewrite <- Ef. }
    pose proof (next_ptr h [] ns Hl) as Ep. cbn [at_end foldl] in Ep. rewrite Ep.
    destruct (split_fit nunits ns) as [(la & c & lb & -> & Hla & Hc)|Hno].
    + pose proof (walk_up la (fuel - length la) nunits [] (c :: lb) h Hl ltac:(intros d Hd; split; [by apply Hla|apply Hne; set_solver])) as W.
      rewrite length_app in Hf. cbn [length] in Hf. replace (length la + (fuel - length la))%nat with fuel in W by lia.
      exists (fuel - length la - 1)%nat, (at_end base la). split; [rewrite length_app; cbn; lia|]. left. exists la, c, lb.
      split_and!; try done. etransitivity; [exact W|]. cbn [app next_of]. f_equal. lia.
    + pose proof (walk_up ns (fuel - length ns) nunits [] [] h) as W. rewrite app_nil_r in W. specialize (W Hl ltac:(intros d Hd; split; [by apply Hno|by apply Hne])).
      replace (length ns + (fuel - length ns))%nat with fuel in W by lia. exists (fuel - length ns - 1)%nat, (at_end base ns). split; [lia|]. right.
      split; [done|]. split; [by rewrite Hb0|]. etransitivity; [exact W|]. cbn [app next_of]. f_equal. lia.
  - apply list_elem_of_split in Hfin as (k1 & k2 & ->). rewrite length_app in *. cbn [length] in *.
    assert (Hne : forall c, c ∈ k1 ++ k2 -> fst c <> freep h).
    { intros c Hc E. apply NoDup_cons in Hnd as [_ Hnd]. rewrite fmap_app, fmap_cons in Hnd. apply NoDup_app in Hnd as (_ & Hd & Hnd).
      apply NoDup_cons in Hnd as [Hnd _]. rewrite Ef in E. apply elem_of_app in Hc as [Hc|Hc].
      - apply (Hd (fst f)); [rewrite <- E; by apply list_elem_of_fmap_2|set_solver].
      - apply Hnd. rewrite <- E. by apply list_elem_of_fmap_2. }
    assert (Hfb : fst f <> base).
    { intros E. apply NoDup_cons in Hnd as [Hnd _]. apply Hnd. rewrite <- E, fmap_app, fmap_cons. set_solver. }
    assert (Hl' : links h base ((k1 ++ [f]) ++ k2) base) by (by rewrite <- app_assoc).
    pose proof (next_ptr h (k1 ++ [f]) k2 Hl') as Ep. rewrite at_end_snoc in Ep. rewrite Ep.
    destruct (split_fit nunits k2) as [(la & c & lb & -> & Hla & Hc)|Hno2].
    { pose proof (walk_up la (fuel - length la) nunits (k1 ++ [f]) (c :: lb) h Hl' ltac:(intros d Hd; split; [by apply Hla|apply Hne; set_solver])) as W.
      rewrite length_app in Hf. cbn [length] in Hf. rewrite at_end_snoc in W. replace (length la + (fuel - length la))%nat with fuel in W by lia.
      exists (fuel - length la - 1)%nat, (at_end base (k1 ++ f :: la)). split; [rewrite length_app; cbn; lia|]. left. exists (k1 ++ f :: la), c, lb.
      split_and!; try done; [by rewrite <- app_assoc|]. etransitivity; [exact W|]. rewrite <- app_assoc. cbn [app next_of]. f_equal. lia. }
    pose proof (walk_up k2 (fuel - length k2) nunits (k1 ++ [f]) [] h) as W. rewrite app_nil_r in W.
    specialize (W Hl' ltac:(intros d Hd; split; [by apply Hno2|apply Hne; set_solver])). rewrite at_end_snoc in W.
    replace (length k2 + (fuel - length k2))%nat with fuel in W by lia. rewrite W. clear W. cbn [next_of].
    replace (fuel - length k2)%nat with (S (fuel - length k2 - 1)) by lia. rewrite loop_skip by (rewrite ?Hb0, ?Ef; done || congruence).
    pose proof (next_ptr h [] (k1 ++ f :: k2) Hl) as Eb. cbn [at_end foldl] in Eb. rewrite Eb.
    destruct (split_fit nunits k1) as [(la & c & lb & -> & Hla & Hc)|Hno1].
    { rewrite <- app_assoc in *. cbn [app] in *.
      pose proof (walk_up la (fuel - length k2 - 1 - length la) nunits [] (c :: lb ++ f :: k2) h Hl ltac:(intros d Hd; split; [by apply Hla|apply Hne; set_solver])) as W.
      rewrite length_app in Hf. cbn [length] in Hf. replace (length la + (fuel - length k2 - 1 - length la))%nat with (fuel - length k2 - 1)%nat in W by lia.
      exists (fuel - length k2 - 1 - length la - 1)%nat, (at_end base la). split; [rewrite length_app; cbn; lia|]. left. exists la, c, (lb ++ f :: k2).
      split_and!; try done. etransitivity; [exact W|]. cbn [app next_of]. f_equal. lia. }
    pose proof (walk_up k1 (fuel - length k2 - 1 - length k1) nunits [] (f :: k2) h Hl ltac:(intros d Hd; split; [by apply Hno1|apply Hne; set_solver])) as W.
    replace (length k1 + (fuel - length k2 - 1 - length k1))%nat with (fuel - length k2 - 1)%nat in W by lia. cbn [app next_of at_end foldl] in W.
    exists (fuel - length k2 - 1 - length k1 - 1)%nat, (at_end base k1). split; [lia|].
    change (foldl (fun (_ : Z) (b : Z * Z) => fst b) base k1) with (at_end base k1) in W.
    replace (fuel - length k2 - 1 - length k1)%nat with (S (fuel - length k2 - 1 - length k1 - 1)) in W by lia.
    destruct (decide (nunits <= snd f)) as [Hff|Hff].
    + left. exists k1, f, k2. split_and!; try done.
    + right. split; [intros c Hc; assert (c ∈ k1 \/ c = f \/ c ∈ k2) as [?|[->|?]] by set_solver; [by apply Hno1|lia|by apply Hno2]|].
      split; [rewrite (node_size h k1 f k2 Hl); lia|]. done.
Qed.

(** ** Taking a block *)
Lemma same_space_split x y l : 0 < snd x -> 0 < snd y -> bend x = fst y -> same_space (merged x y :: l) (x :: y :: l).
Proof.
  intros Hx Hy E. split; [unfold total_units, merged; cbn; lia|]. intros hi [Ha Hin]. pose proof (bend_merged x y E) as Eb.
  pose proof (Hin (merged x y) ltac:(set_solver)) as Hz. rewrite Eb in Hz. cbn [merged fst snd] in Hz. cbn [all_apart] in Ha. destruct Ha as (Hax & Hl).
  apply bend_pos in Hx as Hx', Hy as Hy'. split.
  - cbn [all_apart]. rewrite Forall_cons. split_and!; [left; lia| | |done]; apply list.Forall_forall; intros z Hzl;
      pose proof (proj1 (list.Forall_forall _ _) Hax z Hzl) as H1; unfold apart in *; rewrite Eb in H1; cbn [merged fst] in H1; lia.
  - intros b [->|[->|Hb]%elem_of_cons]%elem_of_cons; [lia|lia|apply Hin; set_solver].
Qed.

(** An address inside the extent of one block is no header of another. *)
Lemma apart_inside l b c x : all_apart (c :: l) -> b ∈ l -> fst c <= x < bend c -> 0 < snd b -> fst b <> x.
Proof.
  intros [H _] Hb Hx Hpos E. pose proof (proj1 (list.Forall_forall _ _) H b Hb) as H1. unfold apart in H1. apply bend_pos in Hpos. lia.
Qed.

Lemma take_run h l1 c l2 A nunits fuel : heap_inv h (l1 ++ c :: l2) A -> 0 < nunits <= snd c ->
  exists p h' ns', malloc_loop base grants (S fuel) nunits (at_end base l1) (fst c) h = Ret (p + HDR) h' /\
    heap_inv h' ns' ((p, nunits) :: A) /\ brk h' = brk h.
Proof.
  intros I Hn. pose proof (heap_spaced _ _ _ I) as Hsp. pose proof (hi_links _ _ _ I) as Hl. pose proof (hi_brk _ _ _ I) as Hbrk.
  pose proof (hi_asc _ _ _ I) as Ha. pose proof (ascending_nodup _ _ base Ha ltac:(unfold HDR in *; lia)) as Hnd.
  pose proof (proj2 Hsp c ltac:(set_solver)) as (Hc0 & Hc1 & Hc2). pose proof (bend_pos _ Hc0) as Hcp.
  assert (Hperm : (l1 ++ c :: l2) ++ A ≡ₚ c :: l1 ++ l2 ++ A) by solve_Permutation.
  assert (Hap : all_apart (c :: l1 ++ l2 ++ A)) by (eapply all_apart_perm; [exact Hperm|apply Hsp]).
  assert (Hins : forall b x, b ∈ l1 ++ l2 ++ A -> fst c <= x < bend c -> fst b <> x).
  { intros b x Hb Hx. apply (apart_inside (l1 ++ l2 ++ A) b c x Hap Hb Hx). apply (proj2 Hsp). set_solver. }
  pose proof Hl as Hl0. apply links_app in Hl as (Hl1 & Hs & Hl2). apply ascending_app in Ha as [Ha1 Ha2]. cbn [ascending] in Ha2. destruct Ha2 as (Ha2 & _ & Ha3).
  set (q := at_end base l1).
  assert (Hq : (q = base \/ q ∈ fst <$> l1) /\ q <> fst c /\ q ∉ fst <$> l2).
  { unfold q. rewrite fmap_app, fmap_cons in Hnd. destruct (at_end_cases base l1) as [[-> ->]|(l & d & -> & ->)].
    - cbn [app fmap list_fmap] in Hnd. apply NoDup_cons in Hnd as [Hnd _]. split; [by left|]. set_solver.
    - apply NoDup_cons in Hnd as [_ Hnd]. rewrite fmap_app in *. apply NoDup_app in Hnd as (_ & Hd & _). specialize (Hd (fst d) ltac:(set_solver)).
      split; [right; set_solver|]. set_solver. }
  destruct Hq as (Hq1 & Hq2 & Hq3). cbn [malloc_loop]. unfold mbind at 1, M_bind at 1, getS. rewrite Hs, (proj2 (Z.leb_le _ _)) by lia.
  destruct (Z.eqb_spec (snd c) nunits) as [E|Hne].
  - set (h' := mkHeap (ptr (with_ptr q (ptr h (fst c)) h)) (hsize h) q (brk h)). exists (fst c), h', (l1 ++ l2).
    split; [done|]. split; [|done]. pose proof (only_with q (ptr h (fst c)) 0 h) as [Ho _].
    assert (Hk : links (with_ptr q (ptr h (fst c)) h) base (l1 ++ l2) base).
    { assert (Hr : links (with_ptr q (ptr h (fst c)) h) base l1 (next_of l2)).
      { eapply links_retarget; [exact Hl1| |exact Ho| |done].
        - rewrite fmap_app in Hnd. apply NoDup_cons in Hnd as [Hx Hnd]. apply NoDup_cons. split; [set_solver|]. by apply NoDup_app in Hnd as [? _].
        - fold q. cbn. rewrite Z.eqb_refl. rewrite <- (at_end_snoc base l1 c). apply next_ptr. by rewrite <- app_assoc. }
      destruct l2 as [|b l2]; [by rewrite app_nil_r|]. cbn [links] in Hl2. destruct Hl2 as (E1 & E2 & E3). apply links_app. split_and!; [exact Hr|exact E2|].
      rewrite fmap_cons in Hq3. eapply links_only; [exact Ho|set_solver|set_solver|exact E3]. }
    destruct I as [_ Hb0 _ _ Hlv Hin _ _ Htot]. split; cbn [h' ptr hsize freep brk]; try done.
    + by apply (links_ext (with_ptr q (ptr h (fst c)) h)).
    + apply ascending_app. split; [done|]. destruct l2 as [|b l2]; [done|]. cbn [ascending] in *. split_and!; [lia|apply Ha3|apply Ha3].
    + destruct Hq1; [by left|right]. rewrite fmap_app. set_solver.
    + intros b [->|Hb]%elem_of_cons; [by rewrite <- E|by apply Hlv].
    + intros b Hb. apply Hin. assert (b = (fst c, nunits) \/ b ∈ (l1 ++ l2) ++ A) as [->|Hb'] by set_solver; [rewrite <- E; destruct c; set_solver|set_solver].
    + eapply all_apart_perm; [|exact Hap]. rewrite <- E. destruct c. solve_Permutation.
    + rewrite <- Htot. f_equal. apply total_perm. rewrite <- E. destruct c. solve_Permutation.
  - set (d := snd c - nunits). set (x := (fst c, d) : block). set (y := (fst c + HDR * d, nunits) : block).
    assert (Em : merged x y = c) by (unfold merged, x, y, d; cbn; destruct c; cbn; f_equal; lia).
    assert (Hd32 : u32 d = d).
    { unfold d, u32. apply Z.mod_small. unfold bend, HDR in *. lia. }
    assert (Hn32 : u32 nunits = nunits) by (unfold u32; apply Z.mod_small; unfold bend, HDR in *; lia).
    assert (Hyin : fst c <= fst y < bend c /\ fst y <> fst c) by (unfold y, d, bend, HDR in *; cbn; lia).
    set (h1 := with_size (fst c) d h). assert (Ey : fst c + HDR * hsize h1 (fst c) = fst y) by (unfold h1, y; cbn; rewrite Z.eqb_refl, Hd32; done).
    set (h2 := with_size (fst y) nunits h1). set (h' := mkHeap (ptr h2) (hsize h2) q (brk h2)). exists (fst y), h', (l1 ++ x :: l2).
    assert (Hsz : forall z, z <> fst c -> z <> fst y -> hsize h' z = hsize h z).
    { intros z H1 H2. unfold h', h2, h1, with_size. cbn [hsize]. by rewrite (proj2 (Z.eqb_neq _ _) H1), (proj2 (Z.eqb_neq _ _) H2). }
    assert (Hyb : forall b, b ∈ l1 ++ l2 ++ A -> hsize h' (fst b) = hsize h (fst b)).
    { intros b Hb. apply Hsz; apply Hins; (done || lia). }
    split.
    { unfold mbind at 1, M_bind at 1, set_size at 1, modS. fold h1. unfold mbind at 1, M_bind at 1. fold (with_size (fst c) d h). fold h1. rewrite Ey. reflexivity. }
    split; [|done].
    assert (Hss : same_space ((l1 ++ c :: l2) ++ A) ((l1 ++ x :: l2) ++ y :: A)).
    { eapply same_space_trans; [apply same_space_perm, Hperm|]. rewrite <- Em.
      eapply same_space_trans; [apply same_space_split; [unfold x, d; cbn; lia|unfold y; cbn; lia|done]|]. apply same_space_perm. solve_Permutation. }
    destruct Hss as [Etot Hss]. specialize (Hss _ Hsp) as [Hap' Hin'].
    destruct I as [_ Hb0 _ _ Hlv _ _ _ Htot]. split; cbn [brk]; try done.
    + apply links_app. split_and!.
      * eapply links_ext; [| |exact Hl1]; [done|]. intros z (b & -> & Hb)%list_elem_of_fmap. apply Hyb. set_solver.
      * cbn. rewrite Z.eqb_refl. unfold y in Hyin. cbn in Hyin. rewrite (proj2 (Z.eqb_neq (fst c) _)) by lia. exact Hd32.
      * eapply links_ext; [| |exact Hl2]; [done|]. intros z (b & -> & Hb)%list_elem_of_fmap. apply Hyb. set_solver.
    + rewrite Hsz; [done|unfold HDR in *; lia|unfold HDR in *; lia].
    + apply ascending_app. split; [done|]. cbn [ascending]. split_and!; [done|unfold x, d; cbn; lia|]. destruct l2 as [|b l2]; [done|]. cbn [ascending] in *.
      split_and!; [unfold x, d, bend, HDR in *; cbn; lia|apply Ha3|apply Ha3].
    + rewrite fmap_app, fmap_cons. destruct Hq1; [by left|right; set_solver].
    + intros b [->|Hb]%elem_of_cons; [cbn; by rewrite Z.eqb_refl|]. rewrite Hyb by set_solver. by apply Hlv.
    + change ((fst y, nunits) :: A) with (y :: A). rewrite <- Etot. exact Htot.
Qed.

(** ** The two operations *)
(** The heap before the first call, or with free blocks [ns]. *)
Definition heap_ok h (A : list block) : Prop := (freep h = 0 /\ A = [] /\ brk h = heap0) \/ exists ns, heap_inv h ns A.

(** The first call makes the empty list. *)
Definition start (h : heap) : heap :=
  if freep h =? 0 then mkHeap (ptr (with_ptr base base h)) (hsize (with_size base 0 h)) base (brk h) else h.

Lemma start_inv h A : heap_ok h A -> heap0 <= top -> exists ns, heap_inv (start h) ns A /\ brk (start h) = brk h.
Proof.
  intros [(Ef & -> & Eb)|[ns I]] Ht.
  - exists []. unfold start. rewrite Ef. cbn [Z.eqb]. split; [|done]. split; cbn; try done.
    + by rewrite Z.eqb_refl.
    + by rewrite Z.eqb_refl.
    + by left.
    + by intros ? ?%elem_of_nil.
    + by intros ? ?%elem_of_nil.
    + lia.
    + lia.
  - exists ns. unfold start. rewrite (proj2 (Z.eqb_neq (freep h) 0)); [done|].
    destruct (hi_freep _ _ _ I) as [->|(b & -> & Hb)%list_elem_of_fmap]; [lia|]. pose proof (hi_in _ _ _ I b ltac:(set_solver)). unfold HDR in *. lia.
Qed.

(** C24: [malloc(n)] returns a pointer to a block of its own, with room for [n]
    bytes after the header: apart from every block in use and from the free
    list; or null, exactly when no free block is large enough and the kernel does
    not move the break.  Every byte of the heap stays either in a block in use or
    in a free one.  The search ends.  This holds for requests below 2^31 - 65552 bytes. *)
Theorem malloc_correct h A nbytes : heap_ok h A -> heap0 <= top -> 0 <= nbytes < 2 ^ 31 - 65552 ->
  let nunits := units nbytes in
  exists h', (exists p, malloc base grants nbytes h = Ret (p + HDR) h' /\ heap_ok h' ((p, nunits) :: A) /\ nbytes <= HDR * nunits - HDR) \/
    (malloc base grants nbytes h = Ret 0 h' /\ heap_ok h' A /\ grants (brk h) (HDR * core_units nunits) = false).
Proof.
  intros Hok Ht Hn nunits. destruct (start_inv h A Hok Ht) as (ns & I & Eb).
  assert (Hu : 0 < nunits /\ nbytes <= HDR * nunits - HDR /\ HDR * core_units nunits < 2 ^ 31 /\ u32 nunits = nunits).
  { unfold nunits, core_units, units, HDR, u32. pose proof (Z.div_mod (nbytes + 16 - 1) 16 ltac:(lia)). pose proof (Z.mod_pos_bound (nbytes + 16 - 1) 16 ltac:(lia)).
    split; [lia|]. split; [lia|]. split; [destruct (Z.ltb_spec ((nbytes + 16 - 1) / 16 + 1) 4096); lia|]. apply Z.mod_small. lia. }
  destruct Hu as (Hu0 & Hfit & Hu31 & Hu32).
  assert (E : malloc base grants nbytes h =
    malloc_loop base grants (2 * max_blocks base (start h) + 4) nunits (freep (start h)) (ptr (start h) (freep (start h))) (start h)).
  { unfold malloc. fold nunits. rewrite Hu32. unfold mbind at 1, M_bind at 1, getS, start. destruct (freep h =? 0); reflexivity. }
  rewrite E. clear E. pose proof (length_ns _ _ _ I) as Hlen. set (s := start h) in *.
  destruct (search_run s ns A nunits (2 * max_blocks base s + 4) I Hu0 ltac:(lia)) as (fuel & prevp & Hfuel & [(l1 & c & l2 & -> & Hc & -> & ->)|(Hno & Hsm & ->)]).
  - destruct (take_run s l1 c l2 A nunits fuel I ltac:(lia)) as (p & h' & ns' & R & I' & Eb'). exists h'. left. exists p. split; [done|]. split; [right; by exists ns'|done].
  - rewrite loop_more by done. pose proof (morecore_run s ns A nunits I Hu0 Hu31) as HM. rewrite Eb in HM. destruct (grants (brk h) (HDR * core_units nunits)) eqn:Eg.
    + destruct HM as (h1 & ns1 & R & I1 & Hl1 & b & Hb & Hnb). rewrite (bind_Ret _ _ _ _ _ R).
      rewrite (proj2 (Z.eqb_neq (freep h1) 0)).
      2:{ destruct (hi_freep _ _ _ I1) as [->|(d & -> & Hd)%list_elem_of_fmap]; [lia|]. pose proof (hi_in _ _ _ I1 d ltac:(set_solver)). unfold HDR in *. lia. }
      change ((getS ≫= ?f) h1) with (f h1 h1). cbv beta.
      assert (Hlen1 : (length ns1 + 2 <= fuel)%nat) by lia.
      destruct (search_run h1 ns1 A nunits fuel I1 Hu0 Hlen1) as (fuel2 & prevp2 & _ & [(l1 & c & l2 & -> & Hc & -> & R2)|(Hno2 & _)]).
      2:{ specialize (Hno2 b Hb). lia. }
      destruct (take_run h1 l1 c l2 A nunits fuel2 I1 ltac:(lia)) as (p & h' & ns' & R3 & I' & Eb').
      exists h'. left. exists p. split; [by rewrite R2|]. split; [right; by exists ns'|done].
    + rewrite (bind_Ret _ _ _ _ _ HM). exists s. right. split; [done|]. split; [right; by exists ns|done].
Qed.

Lemma heap_inv_perm h ns A A' : A ≡ₚ A' -> heap_inv h ns A -> heap_inv h ns A'.
Proof.
  intros Hp [H1 H2 H3 H4 H5 H6 H7 H8 H9]. assert (Hp' : ns ++ A ≡ₚ ns ++ A') by (by rewrite Hp). split; try done.
  - intros b Hb. apply H5. by rewrite Hp.
  - intros b Hb. apply H6. by rewrite Hp'.
  - by eapply all_apart_perm.
  - rewrite <- H9. f_equal. by apply total_perm.
Qed.

(** C25: [free] of a pointer that [malloc] returned takes the block out of use and
    puts it on the free list, joined with its neighbours where they touch; the
    other blocks in use are not touched, and nothing is lost or overlaps.  The
    search for its place ends. *)
Theorem free_correct h A A' p n : heap_ok h A -> A ≡ₚ (p, n) :: A' ->
  exists h', free base (p + HDR) h = Ret tt h' /\ heap_ok h' A' /\ brk h' = brk h.
Proof.
  intros [(_ & -> & _)|[ns I]] Hp; [by apply Permutation_nil_cons in Hp|].
  destruct (free_run h ns p n A' (heap_inv_perm _ _ _ _ Hp I)) as (h' & ns' & R & I' & Eb & _). exists h'. split; [done|]. split; [right; by exists ns'|done].
Qed.
End proofs.

(** ** Witnesses *)
Definition fresh_heap : heap := mkHeap (fun _ => 0) (fun _ => 0) 0 8192.
Definition kernel_grants (b n : Z) : bool := b + n <=? 2 ^ 30.

Lemma kernel_grants_top b n : kernel_grants b n = true -> b + n <= 2 ^ 30.
Proof. apply Z.leb_le. Qed.

Lemma malloc_witness : exists h' p, malloc 4096 kernel_grants 100 fresh_heap = Ret (p + HDR) h' /\ heap_ok 4096 8192 (2 ^ 30) h' [(p, 8)].
Proof.
  destruct (malloc_correct 4096 8192 (2 ^ 30) kernel_grants eq_refl ltac:(unfold HDR; lia) ltac:(unfold HDR; lia) kernel_grants_top fresh_heap [] 100)
    as (h' & [(p & R & H & _)|(_ & _ & H)]); [left; split_and!; reflexivity|lia|lia| |vm_compute in H; discriminate].
  exists h', p. split; [exact R|exact H].
Defined.

(** A heap with one block in use and none free. *)
Definition one_block : heap := mkHeap (fun x => if x =? 4096 then 4096 else 0) (fun x => if x =? 8192 then 8 else 0) 4096 (8192 + 128).

Lemma one_block_inv : heap_inv 4096 8192 (2 ^ 30) one_block [] [(8192, 8)].
Proof.
  split; try done; try (cbn; lia).
  - intros b ->%list_elem_of_singleton. done.
  - intros b ->%list_elem_of_singleton. vm_compute. repeat split; discriminate.
Qed.

Lemma free_witness : exists h', free 4096 (8192 + HDR) one_block = Ret tt h' /\ heap_ok 4096 8192 (2 ^ 30) h' [].
Proof.
  destruct (free_correct 4096 8192 (2 ^ 30) kernel_grants eq_refl ltac:(unfold HDR; lia) ltac:(unfold HDR; lia) kernel_grants_top one_block [(8192, 8)] [] 8192 8)
    as (h' & R' & H' & _); [right; exists []; exact one_block_inv|reflexivity|].
  exists h'. split; [exact R'|exact H'].
Defined.

(** a request of 2^32 - 1 bytes succeeds although the break moved by 16
    bytes only: the size that [morecore] asks for, 2^32 + 16, does not fit the
    [int] argument of [sbrk]. *)
Theorem malloc_overflow : exists h', malloc 4096 kernel_grants (2 ^ 32 - 1) fresh_heap = Ret (8192 + HDR) h' /\
  hsize h' 8192 = 2 ^ 28 + 1 /\ brk h' = brk fresh_heap + 16.
Proof. eexists. vm_compute. split_and!; reflexivity. Qed.
