(* ===== verification/UserLib.v ===== *)
(** Routines of user/ulib.c, the loops of user/wc.c and user/cat.c, [fmtname] of
    user/ls.c, and the rest of [main] of user/sh.c.

    A C string is the list of its bytes before the terminator; [memmove] and
    [strcpy] work on memory.  What successive calls of [read] return is a list:
    the bytes, none at the end of the file, or [None] for an error. *)
From S2P Require Import Prelude Riscv PhysMem Proc ProcTable SysFile FsIface Fs FsData Printf UserSh UserShRun.

(** ** ulib.c *)
Fixpoint strcmp (p q : list Z) : Z :=
  match p, q with
  | a :: p', b :: q' => if a =? b then strcmp p' q' else a - b
  | _, _ => hd 0 p - hd 0 q
  end.

Fixpoint strcpy_loop (fuel : nat) (m : mem) (s t : Z) : option mem :=
  match fuel with
  | O => None
  | S fuel => let c := rd8 m t in let m := wr8 m s c in if c =? 0 then Some m else strcpy_loop fuel m (s + 1) (t + 1)
  end.
Definition strcpy (fuel : nat) (m : mem) (s t : Z) : option mem := strcpy_loop fuel m s t.

Definition umemmove (m : mem) (dst src n : Z) : mem :=
  if dst <? src then CString.move_up (Z.to_nat n) m dst src else CString.move_down (Z.to_nat n) m (dst + n) (src + n).

(** The loop of [gets], with [room] bytes left, on what can still be read: what it
    stores before the terminator, and what is left. *)
Fixpoint gets_loop (room : nat) (input : list Z) : list Z * list Z :=
  match room, input with
  | S room, c :: input =>
      if (c =? 10) || (c =? 13) then ([c], input) else let '(buf, rest) := gets_loop room input in (c :: buf, rest)
  | _, _ => ([], input)
  end.
Definition gets_line (max : nat) (input : list Z) : list Z * list Z := gets_loop (max - 1) input.

(** ** sh.c *)
Definition SH_BUF : nat := 100.

(** The line, unless its first byte is the terminator. *)
Definition getcmd (nbuf : nat) (input : list Z) : option (list Z * list Z) :=
  let '(buf, rest) := gets_line nbuf input in if hd 0 buf =? 0 then None else Some (buf, rest).

(** What [main] does with its input; each line has a byte at least. *)
Fixpoint main_loop (fuel : nat) (input : list Z) : option (list action) :=
  match fuel with
  | O => None
  | S fuel =>
      match getcmd SH_BUF input with
      | None => Some []
      | Some (buf, rest) => cons (handle_line (ProcTable.cstr buf)) <$> main_loop fuel rest
      end
  end.

(** [while((fd = open("console", O_RDWR)) >= 0) if(fd >= 3){ close(fd); break; }] *)
Fixpoint open_console (fuel : nat) (T : fds) : option fds :=
  match fuel with
  | O => None
  | S fuel =>
      if (low T =? NOFILE)%nat then Some T
      else
        let T' := give (Opened (bytes_of "console") O_RDWR) T in
        if (3 <=? low T)%nat then Some (drop_fd (Z.of_nat (low T)) T') else open_console fuel T'
  end.

(** ** wc.c *)
Definition wc_space : list Z := [32; 13; 9; 10; 11].
Record counts : Type := mkCounts { cl : Z; cw : Z; cc : Z; inword : bool }.

Definition wc_byte (s : counts) (b : Z) : counts :=
  let c := i32 (cc s + 1) in
  let l := if b =? 10 then i32 (cl s + 1) else cl s in
  if strchr wc_space b then mkCounts l (cw s) c false
  else if inword s then mkCounts l (cw s) c true else mkCounts l (i32 (cw s + 1)) c true.

(** [None] is a read error. *)
Fixpoint wc_loop (rs : list (option (list Z))) (s : counts) : option counts :=
  match rs with
  | Some (b :: bs) :: rs => wc_loop rs (foldl wc_byte s (b :: bs))
  | None :: _ => None
  | _ => Some s
  end.
(** The bytes written and whether it exits with an error. *)
Definition wc (rs : list (option (list Z))) (name : list Z) : option (list Z) * bool :=
  match wc_loop rs (mkCounts 0 0 0 false) with
  | None => (Some (bytes_of "wc: read error" ++ [10]), true)
  | Some s => (vprintf (bytes_of "%d %d %d %s" ++ [10]) [VNum (cl s); VNum (cw s); VNum (cc s); VStr (Some name)], false)
  end.

(** ** cat.c *)
(** [wr] is what [write] returns; the bytes given to [write] and how it ends. *)
Inductive cat_end : Type := CatDone | CatWriteError | CatReadError.
Fixpoint cat (wr : list Z -> Z) (rs : list (option (list Z))) : list Z * cat_end :=
  match rs with
  | Some (b :: bs) :: rs =>
      if wr (b :: bs) =? Z.of_nat (length (b :: bs)) then let '(o, e) := cat wr rs in (b :: bs ++ o, e) else (b :: bs, CatWriteError)
  | None :: _ => ([], CatReadError)
  | _ => ([], CatDone)
  end.

(** ** ls.c *)
(** [for(p = path + strlen(path); p >= path && *p != '/'; p--); p++] *)
Fixpoint after_slash (path : list Z) (p : nat) : nat :=
  if default 0 (path !! p) =? chr "/" then S p else match p with O => O | S p => after_slash path p end.
Definition fmtname (path : list Z) : list Z :=
  let p := drop (after_slash path (length path)) path in
  if DIRSIZ <=? Z.of_nat (length p) then p else p ++ replicate (Z.to_nat DIRSIZ - length p) 32.

(** ** Strings *)
(** The order of a dictionary. *)
Fixpoint before (p q : list Z) : Prop :=
  match p, q with
  | [], q => q <> []
  | a :: p, b :: q => a < b \/ a = b /\ before p q
  | _, [] => False
  end.

(** [strcmp] is 0 exactly for equal strings, and negative exactly when the
    first comes before the second in the dictionary. *)
Theorem strcmp_correct p q : Forall (fun c => 0 < c < 256) p -> Forall (fun c => 0 < c < 256) q ->
  (strcmp p q = 0 <-> p = q) /\ (strcmp p q < 0 <-> before p q).
Proof.
  intros Hp. revert q. induction Hp as [|a p Ha Hp IH]; intros q Hq; destruct Hq as [|b q Hb Hq]; cbn [strcmp before hd].
  - split; split; done || lia.
  - split; split; done || lia.
  - split; split; done || lia.
  - destruct (Z.eqb_spec a b) as [->|Hne].
    + destruct (IH q Hq) as [-> ->]. split; split; [congruence|congruence|by right|]. intros [?|[_ ?]]; [lia|done].
    + split; split; [lia|congruence|intros; left; lia|]. intros [?|[? _]]; lia.
Qed.

Lemma strcmp_witness : strcmp (bytes_of "echo") (bytes_of "exit") < 0 /\ before (bytes_of "echo") (bytes_of "exit").
Proof.
  assert (H : (strcmp (bytes_of "echo") (bytes_of "exit") < 0 <-> before (bytes_of "echo") (bytes_of "exit"))).
  { apply strcmp_correct; repeat constructor. }
  split; [reflexivity|]. apply H. reflexivity.
Defined.

(** The [memmove] of user programs, which chooses the direction by the
    order of the two addresses alone, does what the kernel's does. *)
Theorem umemmove_memmove m dst src n x : 0 <= n < 2 ^ 31 -> rd8 (umemmove m dst src n) x = rd8 (CString.memmove m dst src n) x.
Proof.
  intros Hn. rewrite CString.memmove_correct by lia. unfold umemmove. destruct (Z.ltb_spec dst src).
  - rewrite CString.move_up_spec by lia. by rewrite Z2Nat.id by lia.
  - rewrite CString.move_down_spec by lia. rewrite Z2Nat.id by lia. do 2 f_equal; lia.
Qed.

(** ** Lines *)
Definition line_end (c : Z) : bool := (c =? 10) || (c =? 13).

(** [gets] takes the first bytes of the input, at most [max] - 1: up to and
    with the first line end, or as many as fit, or all. *)
Lemma gets_line_spec max input : forall buf rest, gets_line max input = (buf, rest) ->
  input = buf ++ rest /\ (length buf <= max - 1)%nat /\ Forall (fun c => line_end c = false) (removelast buf) /\
  ((exists b c, buf = b ++ [c] /\ line_end c = true) \/ Forall (fun c => line_end c = false) buf /\ (length buf = (max - 1)%nat \/ rest = [])).
Proof.
  unfold gets_line. generalize (max - 1)%nat as room. revert max. intros _ room. revert input.
  induction room as [|room IH]; intros [|c input] buf rest; cbn [gets_loop]; try (intros [= <- <-]; split_and!; [done|cbn; lia|constructor|right; split; [constructor|by (left + right)]]).
  fold (line_end c). destruct (line_end c) eqn:Ec.
  - intros [= <- <-]. split_and!; [done|cbn; lia|constructor|left; by exists [], c].
  - destruct (gets_loop room input) as [buf1 rest1] eqn:E. intros [= <- <-]. destruct (IH input buf1 rest1 E) as (-> & Hl & Hb & Hx). split_and!; [done|cbn; lia| |].
    + destruct buf1; [constructor|]. change (removelast (c :: z :: buf1)) with (c :: removelast (z :: buf1)). by constructor.
    + destruct Hx as [(b & c' & -> & Hc')|[Hf Hx]]; [left; by exists (c :: b), c'|right]. split; [by constructor|]. destruct Hx as [?|?]; [left; cbn; lia|by right].
Qed.

Lemma gets_line_exact l rest room : Forall (fun c => line_end c = false) l -> (length l < room)%nat -> gets_loop room (l ++ 10 :: rest) = (l ++ [10], rest).
Proof.
  intros Hl. revert room. induction Hl as [|c l Hc Hl IH]; intros [|room] Hr; cbn in Hr; try lia; [done|]. cbn [app gets_loop].
  fold (line_end c). rewrite Hc, IH by lia. done.
Qed.

Definition typed (l : list Z) : Prop := Forall (fun c => line_end c = false) l /\ (length l + 1 < SH_BUF)%nat /\ Forall (fun c => c <> 0) l.

Lemma cstr_id l : Forall (fun c => c <> 0) l -> ProcTable.cstr l = l.
Proof. induction 1 as [|c l Hc Hl IH]; [done|]. cbn. rewrite (proj2 (Z.eqb_neq _ _) Hc). by f_equal. Qed.

Lemma main_loop_S n input : main_loop (S n) input =
  match getcmd SH_BUF input with None => Some [] | Some (buf, rest) => cons (handle_line (ProcTable.cstr buf)) <$> main_loop n rest end.
Proof. done. Qed.

(** The shell handles every line that was typed, in order, each as a
    whole, and then ends. *)
Theorem main_loop_lines ls : Forall typed ls ->
  main_loop (S (length ls)) (concat ((fun l => l ++ [10]) <$> ls)) = Some ((fun l => handle_line (l ++ [10])) <$> ls).
Proof.
  induction 1 as [|l ls (Hl & Hn & Hh) Hls IH]; [done|]. rewrite main_loop_S. cbn [fmap list_fmap concat length]. rewrite <- app_assoc. cbn [app].
  unfold getcmd at 1, gets_line. rewrite gets_line_exact by (done || unfold SH_BUF in *; lia).
  rewrite (proj2 (Z.eqb_neq _ _)) by (by destruct Hh). rewrite cstr_id by (apply Forall_app_2; [done|by repeat constructor]). fold (fmap (M := list) (fun l => l ++ [10]) ls). rewrite IH. done.
Qed.

Lemma main_loop_witness : main_loop 3 (bytes_of "cd /" ++ [10] ++ bytes_of "ls" ++ [10]) = Some [Chdir (bytes_of "/"); Run (bytes_of "ls" ++ [10])].
Proof.
  apply (main_loop_lines [bytes_of "cd /"; bytes_of "ls"]). repeat constructor; try discriminate; unfold SH_BUF; cbn; lia.
Defined.

(** ** Descriptors *)
Lemma low_open T fd : (fd < low T)%nat -> (fd < length T)%nat -> exists o, T !! fd = Some (Some o).
Proof.
  intros Hf Hl. destruct (lookup_lt_is_Some_2 T fd Hl) as [[o|] Hx]; [by exists o|]. exfalso. unfold low in Hf.
  destruct (first_index _ T) as [i|] eqn:E; cbn in Hf.
  - apply first_index_Some in E as [_ E]. specialize (E fd None Hf Hx). done.
  - pose proof (proj1 (first_index_None _ _) E fd None Hx). done.
Qed.

Lemma low_free T : (low T < length T)%nat -> length T = NOFILE -> T !! low T = Some None.
Proof.
  unfold low. intros H Hl. destruct (first_index _ T) as [i|] eqn:E; cbn in *; [|lia].
  apply first_index_Some in E as [([o|] & Hx & Hn) _]; [done|done].
Qed.

Lemma low_max T : length T = NOFILE -> (low T <= NOFILE)%nat.
Proof. intros Hl. unfold low. destruct (first_index _ T) as [i|] eqn:E; cbn; [|done]. apply first_index_lt in E. lia. Qed.

Lemma length_give o T : length (give o T) = length T.
Proof. apply length_insert. Qed.

Lemma give_low o T : (low T < length T)%nat -> give o T !! low T = Some (Some o).
Proof. apply list_lookup_insert_eq. Qed.

Lemma give_other o T i : i <> low T -> give o T !! i = T !! i.
Proof. intros H. apply list_lookup_insert_ne. done. Qed.

Lemma low_give_lt o T : length T = NOFILE -> (low T < NOFILE)%nat -> (low T < low (give o T))%nat.
Proof.
  intros Hl Hlow. destruct (decide (low T < low (give o T))%nat) as [|Hn]; [done|]. exfalso.
  set (T' := give o T) in *. assert (Hl' : length T' = NOFILE) by (unfold T'; by rewrite length_give).
  assert (Hlt : (low T' < length T')%nat) by (rewrite Hl'; lia).
  pose proof (low_free T' Hlt Hl') as F. destruct (decide (low T' = low T)) as [E|E].
  - rewrite E in F. unfold T' in F. rewrite give_low in F by lia. done.
  - assert (F' : T !! low T' = Some None) by (rewrite <- F; symmetry; by apply give_other). destruct (low_open T (low T')) as [o' Ho]; [lia|lia|]. by assert (Some (Some o') = Some None) by (rewrite <- Ho; exact F').
Qed.

(** Before its first prompt the shell has its three standard descriptors
    open, those that were open before are as they were, and so is the rest of the
    table. *)
Theorem open_console_std T n : length T = NOFILE -> (4 <= n + low T)%nat -> (0 < n)%nat ->
  exists R, open_console n T = Some R /\ length R = NOFILE /\ (forall fd, (fd < 3)%nat -> exists o, R !! fd = Some (Some o)) /\
    (forall fd, (3 <= fd)%nat -> R !! fd = T !! fd) /\ forall fd o, T !! fd = Some (Some o) -> R !! fd = Some (Some o).
Proof.
  revert T. induction n as [|n IH]; intros T Hl Hn Hp; [lia|]. cbn [open_console].
  assert (N16 : NOFILE = 16%nat) by done. pose proof (low_max T Hl) as Hm.
  destruct (Nat.eqb_spec (low T) NOFILE) as [E|E].
  { exists T. split_and!; try done. intros fd Hfd. apply low_open; lia. }
  pose proof (low_free T ltac:(lia) Hl) as F. set (T' := give _ T). assert (Hl' : length T' = NOFILE) by (unfold T'; by rewrite length_give).
  destruct (Nat.leb_spec 3 (low T)) as [H3|H3].
  - exists T. assert (drop_fd (Z.of_nat (low T)) T' = T) as ->.
    { unfold drop_fd, T', give. rewrite Nat2Z.id. etransitivity; [apply list_insert_insert_eq|by apply list_insert_id]. }
    split_and!; try done.
    intros fd Hfd. apply low_open; lia.
  - pose proof (low_give_lt (Opened (bytes_of "console") O_RDWR) T Hl ltac:(lia)) as Hlt. fold T' in Hlt.
    destruct (IH T' Hl' ltac:(lia) ltac:(lia)) as (R & ER & HlR & HR & Hrest & Hold). exists R. split_and!; try done.
    + intros fd Hfd. rewrite Hrest by done. unfold T'. by rewrite give_other by lia.
    + intros fd o Ho. apply Hold. unfold T'. rewrite give_other; [done|]. intros ->. by assert (Some (Some o) = Some None) by (rewrite <- Ho; exact F).
Qed.

Lemma open_console_witness : exists R, open_console 4 (None :: Some (Inherited 1) :: replicate 14 None) = Some R /\ exists o, R !! 2%nat = Some (Some o).
Proof.
  destruct (open_console_std (None :: Some (Inherited 1) :: replicate 14 None) 4) as (R & E & _ & H & _); [reflexivity|vm_compute; lia|lia|].
  exists R. split; [exact E|]. apply H. lia.
Defined.

(** ** wc *)
Fixpoint fields (l : list Z) : list (list Z) :=
  match l with
  | [] => [[]]
  | c :: l => if strchr wc_space c then [] :: fields l else match fields l with f :: fs => (c :: f) :: fs | [] => [[c]] end
  end.
(** The words of a text: its longest parts without white space. *)
Definition words_of (l : list Z) : list (list Z) := filter (fun f => f <> []) (fields l).
Definition newlines (l : list Z) : Z := Z.of_nat (length (filter (fun c => c = 10) l)).

Lemma fields_cons l : exists f fs, fields l = f :: fs.
Proof. destruct l as [|c l]; cbn [fields]; [by eexists _, _|]. destruct (strchr wc_space c); [by eexists _, _|]. destruct (fields l); by eexists _, _. Qed.

(** Words begun in the rest of the text, when it starts inside a word or not. *)
Definition begun (b : bool) (l : list Z) : Z :=
  Z.of_nat (length (words_of l)) - (if b then match fields l with (_ :: _) :: _ => 1 | _ => 0 end else 0).

Lemma begun_cons b c l : begun b (c :: l) =
  if strchr wc_space c then begun false l else (if b then 0 else 1) + begun true l.
Proof.
  unfold begun, words_of. cbn [fields]. destruct (strchr wc_space c).
  - rewrite filter_cons_False by (intros H; by apply H). destruct b; lia.
  - destruct (fields_cons l) as (f & fs & ->). rewrite filter_cons_True by done. cbn [length]. destruct f as [|x f].
    + rewrite filter_cons_False by (intros H; by apply H). destruct b; lia.
    + rewrite filter_cons_True by done. cbn [length]. destruct b; lia.
Qed.

Lemma begun_nil b : begun b [] = 0.
Proof. by destruct b. Qed.

Lemma newlines_cons c l : newlines (c :: l) = (if c =? 10 then 1 else 0) + newlines l.
Proof.
  unfold newlines. destruct (Z.eqb_spec c 10) as [->|]; [rewrite filter_cons_True by done; cbn [length]; lia|by rewrite filter_cons_False].
Qed.

Lemma i32_id x : 0 <= x < 2 ^ 31 -> i32 x = x.
Proof. intros H. apply i32_small. lia. Qed.

Lemma begun_bounds b l : 0 <= begun b l <= Z.of_nat (length l) /\ 0 <= newlines l <= Z.of_nat (length l).
Proof.
  revert b. induction l as [|c l IH]; intros b; [destruct b; done|]. rewrite begun_cons, newlines_cons. cbn [length].
  destruct (IH false) as [? ?], (IH true) as [? _]. destruct (strchr wc_space c), b, (c =? 10); lia.
Qed.

Lemma wc_bytes l : forall s, 0 <= cl s -> 0 <= cw s -> 0 <= cc s -> cl s + Z.of_nat (length l) < 2 ^ 31 -> cw s + Z.of_nat (length l) < 2 ^ 31 ->
  cc s + Z.of_nat (length l) < 2 ^ 31 ->
  let s' := foldl wc_byte s l in
  cl s' = cl s + newlines l /\ cw s' = cw s + begun (inword s) l /\ cc s' = cc s + Z.of_nat (length l).
Proof.
  induction l as [|c l IH]; intros s H1 H2 H3 H4 H5 H6; cbn [foldl length] in *; [rewrite begun_nil; change (newlines []) with 0; lia|].
  rewrite begun_cons, newlines_cons. set (s1 := wc_byte s c).
  assert (E : cl s1 = cl s + (if c =? 10 then 1 else 0) /\ cw s1 = cw s + (if strchr wc_space c then 0 else if inword s then 0 else 1) /\
              cc s1 = cc s + 1 /\ inword s1 = negb (strchr wc_space c)).
  { unfold s1, wc_byte. rewrite !i32_id by lia. destruct (c =? 10), (strchr wc_space c), (inword s); cbn [cl cw cc inword negb]; split_and!; (done || lia). }
  destruct E as (E1 & E2 & E3 & E4). destruct (IH s1) as (I1 & I2 & I3); try (rewrite ?E1, ?E2, ?E3; destruct (c =? 10), (strchr wc_space c), (inword s); lia).
  cbv zeta in *. rewrite I1, I2, I3, E1, E2, E3, E4. destruct (strchr wc_space c), (inword s); cbn [negb]; lia.
Qed.

(** However the reads cut up a text of less than 2 GB, [wc] counts its
    lines, its words and its bytes. *)
Theorem wc_correct (cs : list (list Z)) rest : Forall (fun c => c <> []) cs -> Z.of_nat (length (concat cs)) < 2 ^ 31 -> rest = [] \/ hd None rest = Some [] ->
  exists b, wc_loop ((Some <$> cs) ++ rest) (mkCounts 0 0 0 false) =
    Some (mkCounts (newlines (concat cs)) (Z.of_nat (length (words_of (concat cs)))) (Z.of_nat (length (concat cs))) b).
Proof.
  intros Hcs Hlen Hr. assert (R : forall s, wc_loop ((Some <$> cs) ++ rest) s = Some (foldl wc_byte s (concat cs))).
  { clear Hlen. induction Hcs as [|[|x c] cs Hc Hcs IH]; intros s; [|done|].
    - destruct Hr as [->|Hr]; [done|]. destruct rest as [|[[|]|] rest]; done.
    - change (concat ((x :: c) :: cs)) with ((x :: c) ++ concat cs). rewrite foldl_app. apply IH. }
  rewrite R. set (s' := foldl wc_byte _ _). exists (inword s').
  destruct (wc_bytes (concat cs) (mkCounts 0 0 0 false)) as (E1 & E2 & E3); cbn [cl cw cc inword] in *; try lia.
  fold s' in E1, E2, E3. unfold begun in E2. rewrite Z.sub_0_r in E2. destruct s' as [x y z b]. cbn in *. subst. done.
Qed.

Lemma wc_witness : exists b, wc_loop [Some (bytes_of "one tw"); Some (bytes_of "o" ++ [10])] (mkCounts 0 0 0 false) = Some (mkCounts 1 2 8 b).
Proof. apply (wc_correct [bytes_of "one tw"; bytes_of "o" ++ [10]] []); [repeat constructor; discriminate|reflexivity|by left]. Defined.

(** ** cat and ls *)
(** However the reads cut up a file, [cat] writes it out whole, in order. *)
Theorem cat_correct wr (cs : list (list Z)) rest : (forall c, wr c = Z.of_nat (length c)) -> Forall (fun c => c <> []) cs -> rest = [] \/ hd None rest = Some [] ->
  cat wr ((Some <$> cs) ++ rest) = (concat cs, CatDone).
Proof.
  intros Hw Hcs Hr. induction Hcs as [|[|x c] cs Hc Hcs IH]; [|done|].
  - destruct Hr as [->|Hr]; [done|]. destruct rest as [|[[|]|] rest]; done.
  - cbn [fmap list_fmap app cat]. rewrite Hw, Z.eqb_refl. fold (fmap (M := list) (@Some (list Z)) cs). rewrite IH. done.
Qed.

Lemma cat_witness : cat (fun c => Z.of_nat (length c)) [Some [1; 2]; Some [3]; Some []] = ([1; 2; 3], CatDone).
Proof. apply (cat_correct (fun c => Z.of_nat (length c)) [[1; 2]; [3]] [Some []]); [done|repeat constructor; discriminate|by right]. Defined.

Lemma after_slash_spec path p : let k := after_slash path p in
  (k <= S p)%nat /\ (k = 0%nat \/ path !! (k - 1)%nat = Some (chr "/")) /\ forall i, (k <= i <= p)%nat -> path !! i <> Some (chr "/").
Proof.
  induction p as [|p IH]; cbn [after_slash]; match goal with |- context [default 0 (path !! ?q)] => destruct (Z.eqb_spec (default 0 (path !! q)) (chr "/")) as [E|E] end.
  - split; [lia|]. split; [right|intros; lia]. cbn. destruct (path !! 0%nat); cbn in E; [by rewrite E|discriminate].
  - split; [lia|]. split; [by left|]. intros i Hi Hx. assert (i = 0%nat) as -> by lia. by rewrite Hx in E.
  - split; [lia|]. split; [right|intros; lia]. replace (S (S p) - 1)%nat with (S p) by lia. destruct (path !! S p); cbn in E; [by rewrite E|discriminate].
  - cbv zeta in IH. destruct IH as (H1 & H2 & H3). split; [lia|]. split; [done|]. intros i Hi Hx. destruct (decide (i = S p)) as [->|]; [by rewrite Hx in E|]. apply (H3 i); [lia|done].
Qed.

(** [fmtname] shows the part of the path after its last slash, filled up
    with blanks to the length of a directory entry. *)
Theorem fmtname_correct path : exists dir name, path = dir ++ name /\ (dir = [] \/ last dir = Some (chr "/")) /\ Forall (fun c => c <> chr "/") name /\
  fmtname path = name ++ replicate (Z.to_nat DIRSIZ - length name) 32.
Proof.
  destruct (after_slash_spec path (length path)) as (H1 & H2 & H3). set (k := after_slash path (length path)) in *.
  exists (take k path), (drop k path). split; [by rewrite take_drop|]. split; [|split].
  - destruct H2 as [->|H2]; [by left|right]. destruct (decide (k = 0)%nat) as [E|E]; [rewrite E in H2|].
    + rewrite E. exfalso. assert (0 < length path)%nat by (eapply lookup_lt_Some; exact H2). apply (H3 0%nat); [lia|done].
    + rewrite last_lookup, length_take. assert (k - 1 < length path)%nat by (by eapply lookup_lt_Some). rewrite lookup_take_lt by lia.
      replace (Init.Nat.pred (k `min` length path)) with (k - 1)%nat by lia. done.
  - apply Forall_lookup. intros i x Hx E. rewrite lookup_drop in Hx. subst x. apply (H3 (k + i)%nat); [|done]. apply lookup_lt_Some in Hx. lia.
  - unfold fmtname. fold k. destruct (Z.leb_spec DIRSIZ (Z.of_nat (length (drop k path)))); [|done].
    replace (Z.to_nat DIRSIZ - length (drop k path))%nat with 0%nat by lia. by rewrite app_nil_r.
Qed.

(** [strcpy] of a string of [k] bytes to memory apart from it copies the bytes and
    the terminator, and nothing else. *)
Theorem strcpy_correct k : forall fuel m s t, (k < fuel)%nat -> (forall i, 0 <= i < Z.of_nat k -> rd8 m (t + i) <> 0) -> rd8 m (t + Z.of_nat k) = 0 ->
  s + Z.of_nat k < t \/ t + Z.of_nat k < s -> exists m', strcpy fuel m s t = Some m' /\ forall x, rd8 m' x = rd8 (copy m s t (Z.of_nat k + 1)) x.
Proof.
  unfold strcpy. induction k as [|k IH]; intros [|fuel] m s t Hf Hn Hz Hd; try lia; cbn [strcpy_loop].
  - rewrite Z.add_0_r in Hz. rewrite Hz. eexists. split; [reflexivity|]. intros x. unfold rd8, wr8, copy. destruct (Z.eqb_spec x s) as [->|Hne].
    + rewrite inr_true by lia. replace (t + (s - s)) with t by lia. unfold rd8. unfold rd8 in Hz. by rewrite Hz.
    + by rewrite inr_false by lia.
  - assert (H0 : rd8 m t <> 0) by (specialize (Hn 0 ltac:(lia)); by rewrite Z.add_0_r in Hn). rewrite (proj2 (Z.eqb_neq _ _)) by done.
    set (m1 := wr8 m s (rd8 m t)). assert (Hm : forall x, x <> s -> m1 x = m x) by (intros x Hx; unfold m1, wr8; by rewrite (proj2 (Z.eqb_neq _ _))).
    assert (Hr : forall x, x <> s -> rd8 m1 x = rd8 m x) by (intros; unfold rd8; by rewrite Hm).
    destruct (IH fuel m1 (s + 1) (t + 1)) as (m' & E & Hx); [lia| | |lia|].
    + intros i Hi. rewrite Hr by lia. replace (t + 1 + i) with (t + (i + 1)) by lia. apply Hn. lia.
    + rewrite Hr by lia. rewrite <- Hz. f_equal. lia.
    + exists m'. split; [done|]. intros x. rewrite Hx. unfold rd8 at 1 2, copy. destruct (Z.eqb_spec x s) as [->|Hne].
      * rewrite inr_false, inr_true by lia. unfold m1, wr8. rewrite Z.eqb_refl. replace (t + (s - s)) with t by lia. unfold rd8. by rewrite ?Zmod_mod.
      * destruct (decide (s + 1 <= x < s + 1 + (Z.of_nat k + 1))) as [Hin|Hout].
        -- rewrite !inr_true by lia. f_equal. replace (t + 1 + (x - (s + 1))) with (t + (x - s)) by lia. apply Hm. lia.
        -- rewrite !inr_false by lia. by rewrite Hm.
Qed.
