(* ===== verification/Virtio.v ===== *)
(** The disk driver, kernel/virtio_disk.c, and the device it talks to.

    Driver and device share a table of descriptors, the avail ring, in which the
    driver puts the first descriptor of each request, and the used ring, in which
    the device puts it back.  Each piece of the driver between [acquire] or a
    return from [sleep] and the next [sleep] or [release] runs under
    [vdisk_lock] and is one step; a piece that sleeps leaves its process at a
    [vplace].  An address in a descriptor is the object it points to.

    The device is not part of the source: [dev_rule] is what the virtio
    specification lets it do, answering a request with an error included, and
    [BlockDevice] is any device that does that.  Its steps come between the
    pieces of the driver, although it does not take [vdisk_lock]: while a request
    is being filled in, up to the store to [avail->idx] that ends [submit], nothing
    that the device may read is changed ([VirtioProofs.fill_unseen]). *)
From S2P Require Import Prelude Riscv PhysMem Spinlock Bio.

Definition NUM : Z := 8.
Definition VRING_DESC_F_NEXT : Z := 1.
Definition VRING_DESC_F_WRITE : Z := 2.
Definition VIRTIO_BLK_T_IN : Z := 0.
Definition VIRTIO_BLK_T_OUT : Z := 1.

(** [&disk.ops[i]], [b->data], [&disk.info[i].status] *)
Inductive vaddr : Type := ANull | AReq (i : Z) | AData (b : nat) | AStatus (i : Z).

Record virtq_desc : Type := mkDesc { addr : vaddr; len : Z; flags : Z; next : Z }.
Record virtio_blk_req : Type := mkReq { type : Z; reserved : Z; sector : Z }.

(** The fields of [struct buf] the driver uses. *)
Record vbuf : Type := mkVb { vb_blockno : Z; vb_disk : Z; vb_data : list Z }.

(** A process elsewhere, asleep for want of descriptors, and asleep until its
    request, with first descriptor [h], is done. *)
Inductive vplace : Type := VOut | VStart (b : nat) (write : bool) | VWait (b : nat) (write : bool) (h : Z).

#[global] Instance vplace_eq_dec : EqDecision vplace.
Proof. solve_decision. Defined.

(** The channels [&disk.free[0]] and [b]. *)
Inductive vchan : Type := CFree | CBuf (b : nat).
#[global] Instance vchan_eq_dec : EqDecision vchan.
Proof. solve_decision. Defined.

Definition chan_of (p : vplace) : option vchan :=
  match p with VOut => None | VStart _ _ => Some CFree | VWait b _ _ => Some (CBuf b) end.

(** The rings and descriptors, [struct disk], the buffers, the device (how far it
    has read the avail ring, the requests it works on, the bytes of the disk),
    and the processes. *)
Record vst : Type := mkV {
  desc : Z -> virtq_desc; avail_idx : Z; avail_ring : Z -> Z; used_hd : Z; used_ring : Z -> Z;
  dfree : Z -> Z; used_idx : Z; info_b : Z -> option nat; info_status : Z -> Z; ops : Z -> virtio_blk_req;
  vbufs : nat -> vbuf;
  seen : Z; work : list Z; platter : Z -> Z;
  at_v : nat -> vplace; asleep : nat -> bool }.

Definition set_desc (i : Z) (d : virtq_desc) (s : vst) : vst :=
  mkV (zupd (desc s) i d) (avail_idx s) (avail_ring s) (used_hd s) (used_ring s) (dfree s) (used_idx s) (info_b s) (info_status s) (ops s) (vbufs s) (seen s) (work s) (platter s) (at_v s) (asleep s).
Definition set_avail (idx : Z) (r : Z -> Z) (s : vst) : vst :=
  mkV (desc s) idx r (used_hd s) (used_ring s) (dfree s) (used_idx s) (info_b s) (info_status s) (ops s) (vbufs s) (seen s) (work s) (platter s) (at_v s) (asleep s).
Definition set_used (idx : Z) (r : Z -> Z) (s : vst) : vst :=
  mkV (desc s) (avail_idx s) (avail_ring s) idx r (dfree s) (used_idx s) (info_b s) (info_status s) (ops s) (vbufs s) (seen s) (work s) (platter s) (at_v s) (asleep s).
Definition set_dfree (i v : Z) (s : vst) : vst :=
  mkV (desc s) (avail_idx s) (avail_ring s) (used_hd s) (used_ring s) (zupd (dfree s) i v) (used_idx s) (info_b s) (info_status s) (ops s) (vbufs s) (seen s) (work s) (platter s) (at_v s) (asleep s).
Definition set_used_idx (v : Z) (s : vst) : vst :=
  mkV (desc s) (avail_idx s) (avail_ring s) (used_hd s) (used_ring s) (dfree s) v (info_b s) (info_status s) (ops s) (vbufs s) (seen s) (work s) (platter s) (at_v s) (asleep s).
Definition set_info_b (i : Z) (o : option nat) (s : vst) : vst :=
  mkV (desc s) (avail_idx s) (avail_ring s) (used_hd s) (used_ring s) (dfree s) (used_idx s) (zupd (info_b s) i o) (info_status s) (ops s) (vbufs s) (seen s) (work s) (platter s) (at_v s) (asleep s).
Definition set_status (i v : Z) (s : vst) : vst :=
  mkV (desc s) (avail_idx s) (avail_ring s) (used_hd s) (used_ring s) (dfree s) (used_idx s) (info_b s) (zupd (info_status s) i v) (ops s) (vbufs s) (seen s) (work s) (platter s) (at_v s) (asleep s).
Definition set_ops (i : Z) (r : virtio_blk_req) (s : vst) : vst :=
  mkV (desc s) (avail_idx s) (avail_ring s) (used_hd s) (used_ring s) (dfree s) (used_idx s) (info_b s) (info_status s) (zupd (ops s) i r) (vbufs s) (seen s) (work s) (platter s) (at_v s) (asleep s).
Definition set_vbuf (b : nat) (x : vbuf) (s : vst) : vst :=
  mkV (desc s) (avail_idx s) (avail_ring s) (used_hd s) (used_ring s) (dfree s) (used_idx s) (info_b s) (info_status s) (ops s) (upd (vbufs s) b x) (seen s) (work s) (platter s) (at_v s) (asleep s).
Definition set_device (n : Z) (l : list Z) (p : Z -> Z) (s : vst) : vst :=
  mkV (desc s) (avail_idx s) (avail_ring s) (used_hd s) (used_ring s) (dfree s) (used_idx s) (info_b s) (info_status s) (ops s) (vbufs s) n l p (at_v s) (asleep s).
Definition set_procs (p : nat -> vplace) (a : nat -> bool) (s : vst) : vst :=
  mkV (desc s) (avail_idx s) (avail_ring s) (used_hd s) (used_ring s) (dfree s) (used_idx s) (info_b s) (info_status s) (ops s) (vbufs s) (seen s) (work s) (platter s) p a.

Definition set_disk (b : nat) (v : Z) (s : vst) : vst :=
  set_vbuf b (mkVb (vb_blockno (vbufs s b)) v (vb_data (vbufs s b))) s.

(** [wakeup] and the effect of [sleep] on the caller. *)
Definition wakeup (c : vchan) (s : vst) : vst :=
  set_procs (at_v s) (fun i => asleep s i && negb (bool_decide (chan_of (at_v s i) = Some c))) s.
Definition sleep_at (i : nat) (p : vplace) (s : vst) : vst := set_procs (upd (at_v s) i p) (upd (asleep s) i true) s.

(** ** Descriptors *)
Fixpoint alloc_loop (n : nat) (i : Z) : M vst Z :=
  match n with
  | O => mret (-1)
  | S n => s ← getS; if negb (dfree s i =? 0) then _ ← modS (set_dfree i 0); mret i else alloc_loop n (i + 1)
  end.
Definition alloc_desc : M vst Z := alloc_loop (Z.to_nat NUM) 0.

Definition free_desc (i : Z) : M vst unit :=
  if NUM <=? i then panic "free_desc 1"
  else
    s ← getS;
    if negb (dfree s i =? 0) then panic "free_desc 2"
    else _ ← modS (set_desc i (mkDesc ANull 0 0 0)); _ ← modS (set_dfree i 1); modS (wakeup CFree).

(** Each turn frees a descriptor. *)
Fixpoint free_chain (fuel : nat) (i : Z) : M vst unit :=
  match fuel with
  | O => diverge
  | S fuel =>
      s ← getS;
      let flag := flags (desc s i) in
      let nxt := next (desc s i) in
      _ ← free_desc i;
      if negb (Z.land flag VRING_DESC_F_NEXT =? 0) then free_chain fuel nxt else mret tt
  end.

Fixpoint free_all (l : list Z) : M vst unit :=
  match l with [] => mret tt | i :: l => _ ← free_desc i; free_all l end.

(** The [n] descriptors still to allocate; [None] is the result -1. *)
Fixpoint alloc3_loop (n : nat) (idx : list Z) : M vst (option (list Z)) :=
  match n with
  | O => mret (Some idx)
  | S n =>
      i ← alloc_desc;
      if i <? 0 then _ ← free_all idx; mret None else alloc3_loop n (idx ++ [i])
  end.
Definition alloc3_desc : M vst (option (list Z)) := alloc3_loop 3 [].

(** ** Requests *)
(** Up to the first barrier: the request, its descriptors, and its entry of the
    ring; the store to [avail->idx] then shows it to the device. *)
Definition fill_request (b : nat) (write : bool) (idx0 idx1 idx2 : Z) : M vst unit :=
  s ← getS;
  let sec := u32 (vb_blockno (vbufs s b) * (BSIZE / 512)) in
  _ ← modS (set_ops idx0 (mkReq (if write then VIRTIO_BLK_T_OUT else VIRTIO_BLK_T_IN) 0 sec));
  _ ← modS (set_desc idx0 (mkDesc (AReq idx0) 16 VRING_DESC_F_NEXT idx1));
  _ ← modS (set_desc idx1 (mkDesc (AData b) BSIZE (Z.lor (if write then 0 else VRING_DESC_F_WRITE) VRING_DESC_F_NEXT) idx2));
  _ ← modS (set_status idx0 0xff);
  _ ← modS (set_desc idx2 (mkDesc (AStatus idx0) 1 VRING_DESC_F_WRITE 0));
  _ ← modS (set_disk b 1);
  _ ← modS (set_info_b idx0 (Some b));
  modS (fun s => set_avail (avail_idx s) (zupd (avail_ring s) (avail_idx s mod NUM) idx0) s).
Definition submit (b : nat) (write : bool) (idx0 idx1 idx2 : Z) : M vst unit :=
  _ ← fill_request b write idx0 idx1 idx2;
  modS (fun s => set_avail (u16 (avail_idx s + 1)) (avail_ring s) s).

(** From [while(b->disk == 1)]: whether the call returns. *)
Definition rw_wait (i b : nat) (write : bool) (h : Z) : M vst bool :=
  s ← getS;
  if vb_disk (vbufs s b) =? 1 then _ ← modS (sleep_at i (VWait b write h)); mret false
  else
    _ ← modS (set_info_b h None);
    _ ← free_chain (Z.to_nat NUM) h;
    _ ← modS (fun s => set_procs (upd (at_v s) i VOut) (asleep s) s);
    mret true.

(** [virtio_disk_rw] by process [i], and from the [sleep] it is in. *)
Definition virtio_disk_rw (i b : nat) (write : bool) : M vst bool :=
  r ← alloc3_desc;
  match r with
  | Some [idx0; idx1; idx2] => _ ← submit b write idx0 idx1 idx2; rw_wait i b write idx0
  | _ => _ ← modS (sleep_at i (VStart b write)); mret false
  end.
Definition rw_resume (i : nat) : M vst bool :=
  s ← getS;
  match at_v s i with
  | VOut => mret false
  | VStart b write => virtio_disk_rw i b write
  | VWait b write h => rw_wait i b write h
  end.

(** The interrupt handler; a write through a null [b] would fault. *)
Fixpoint intr_loop (fuel : nat) : M vst unit :=
  match fuel with
  | O => diverge
  | S fuel =>
      s ← getS;
      if used_idx s =? used_hd s then mret tt
      else
        let id := used_ring s (used_idx s mod NUM) in
        if negb (info_status s id =? 0) then panic "virtio_disk_intr status"
        else
          match info_b s id with
          | None => panic "kerneltrap"
          | Some b =>
              _ ← modS (set_disk b 0);
              _ ← modS (wakeup (CBuf b));
              _ ← modS (fun s => set_used_idx (u16 (used_idx s + 1)) s);
              intr_loop fuel
          end
  end.
Definition virtio_disk_intr : M vst unit :=
  s ← getS; intr_loop (S (Z.to_nat (u16 (used_hd s - used_idx s)))).

(** ** The device *)
Definition block_at (p : Z -> Z) (a : Z) (n : Z) : list Z := p <$> zseq a (Z.to_nat n) 1.
Definition write_at (p : Z -> Z) (a : Z) (l : list Z) : Z -> Z :=
  fun x => if inr a (Z.of_nat (length l)) x then l !!! Z.to_nat (x - a) else p x.

(** The request whose first descriptor is [h]: whether it is a write, its buffer,
    the address on the disk and the status byte; [None] when the chain is not one
    that the specification of block devices describes. *)
Definition decode (h : Z) (s : vst) : option (bool * nat * Z * Z) :=
  let d0 := desc s h in
  let d1 := desc s (next d0) in
  let d2 := desc s (next d1) in
  match addr d0, addr d1, addr d2 with
  | AReq q, AData b, AStatus t =>
      let r := ops s q in
      let x := vbufs s b in
      if (len d0 =? 16) && (flags d0 =? VRING_DESC_F_NEXT) && (reserved r =? 0) && (len d2 =? 1) && (flags d2 =? VRING_DESC_F_WRITE) &&
         (len d1 =? Z.of_nat (length (vb_data x)))
      then
        if (type r =? VIRTIO_BLK_T_OUT) && (flags d1 =? VRING_DESC_F_NEXT) then Some (true, b, 512 * sector r, t)
        else if (type r =? VIRTIO_BLK_T_IN) && (flags d1 =? VRING_DESC_F_NEXT + VRING_DESC_F_WRITE) then Some (false, b, 512 * sector r, t)
        else None
      else None
  | _, _, _ => None
  end.

(** A request answered with status [st], having left [data] in its block of the
    disk or in its buffer; and the data that it asks for. *)
Definition answer (w : bool) (b : nat) (a t st : Z) (data : list Z) (s : vst) : vst :=
  set_status t st
    (if w then set_device (seen s) (work s) (write_at (platter s) a data) s
     else set_vbuf b (mkVb (vb_blockno (vbufs s b)) (vb_disk (vbufs s b)) data) s).
Definition wanted (w : bool) (b : nat) (a : Z) (s : vst) : list Z :=
  let old := vb_data (vbufs s b) in if w then old else block_at (platter s) a (Z.of_nat (length old)).

Definition fetch (s : vst) : vst :=
  set_device (u16 (seen s + 1)) (work s ++ [avail_ring s (seen s mod NUM)]) (platter s) s.
Definition finish (h : Z) (rest : list Z) (s : vst) : vst :=
  set_used (u16 (used_hd s + 1)) (zupd (used_ring s) (used_hd s mod NUM) h) (set_device (seen s) rest (platter s) s).

(** It takes the next request of the avail ring, or answers one it has taken, in
    any order.  The answer is 0 (VIRTIO_BLK_S_OK) when the transfer was done, or,
    in the steps marked [true], any other status (VIRTIO_BLK_S_IOERR or
    VIRTIO_BLK_S_UNSUPP), with any bytes left in the buffer of a read or the block
    of a write.  What it does with a request it does not understand is open. *)
Inductive dev_rule (s : vst) : bool -> vst -> Prop :=
  | dev_fetch : seen s <> avail_idx s -> dev_rule s false (fetch s)
  | dev_finish h l1 l2 w b a t : work s = l1 ++ h :: l2 -> decode h s = Some (w, b, a, t) ->
      dev_rule s false (finish h (l1 ++ l2) (answer w b a t 0 (wanted w b a s) s))
  | dev_error h l1 l2 w b a t st data : work s = l1 ++ h :: l2 -> decode h s = Some (w, b, a, t) ->
      0 < st < 256 -> length data = length (vb_data (vbufs s b)) ->
      dev_rule s true (finish h (l1 ++ l2) (answer w b a t st data s))
  | dev_undefined h s' : h ∈ work s -> decode h s = None -> dev_rule s false s'.

Class BlockDevice : Type := {
  dev_step : vst -> bool -> vst -> Prop;
  dev_legal : forall s e s', dev_step s e s' -> dev_rule s e s';
  dev_alive : forall s, seen s <> avail_idx s \/ work s <> [] -> exists e s', dev_step s e s'
}.

(** ** Runs *)
Definition in_call (s : vst) (i b : nat) : Prop := (exists w, at_v s i = VStart b w) \/ exists w h, at_v s i = VWait b w h.

(** What bread and bwrite guarantee when they call the driver: the caller holds
    the sleep lock of the buffer, no other buffer has the block. *)
Definition exclusive (s : vst) (b : nat) : Prop :=
  forall i' b', in_call s i' b' -> b' <> b /\ vb_blockno (vbufs s b') <> vb_blockno (vbufs s b).
Definition usable (x : vbuf) : Prop := 0 <= vb_blockno x < 2 ^ 31 /\ Z.of_nat (length (vb_data x)) = BSIZE.

(** A call, a change of a buffer by its holder, a return, and an answer of the
    device with an error. *)
Inductive label : Type := LCall (i b : nat) (w : bool) | LEdit (b : nat) (bno : Z) (data : list Z) | LRet (i : nat) | LError.

(** [b->disk] is 0 outside of the driver. *)
Inductive vstep `{BlockDevice} (s : vst) : option label -> vst -> Prop :=
  | vs_call i b w s' : at_v s i = VOut -> exclusive s b -> usable (vbufs s b) ->
      virtio_disk_rw i b w s = Ret false s' -> vstep s (Some (LCall i b w)) s'
  | vs_sleep i s' : asleep s i = false -> at_v s i <> VOut -> rw_resume i s = Ret false s' -> vstep s None s'
  | vs_return i s' : asleep s i = false -> at_v s i <> VOut -> rw_resume i s = Ret true s' -> vstep s (Some (LRet i)) s'
  | vs_intr s' : virtio_disk_intr s = Ret tt s' -> vstep s None s'
  | vs_dev s' : dev_step s false s' -> vstep s None s'
  | vs_error s' : dev_step s true s' -> vstep s (Some LError) s'
  | vs_edit b bno data : (forall i, ~ in_call s i b) -> vstep s (Some (LEdit b bno data)) (set_vbuf b (mkVb bno (vb_disk (vbufs s b)) data) s).

(** The state [virtio_disk_init] leaves, with contents [p] of the disk. *)
Definition virtio_start (bs : nat -> vbuf) (p : Z -> Z) : vst :=
  mkV (fun _ => mkDesc ANull 0 0 0) 0 (fun _ => 0) 0 (fun _ => 0) (fun _ => 1) 0 (fun _ => None) (fun _ => 0) (fun _ => mkReq 0 0 0)
    bs 0 [] p (fun _ => VOut) (fun _ => false).

Inductive vruns `{BlockDevice} bs p : list label -> vst -> Prop :=
  | vr_start : vruns bs p [] (virtio_start bs p)
  | vr_step tr s l s' : vruns bs p tr s -> vstep s l s' -> vruns bs p (tr ++ option_list l) s'.
