(* ===== verification/VirtioProofs.v ===== *)
(** The disk driver: requests are not lost or mixed up, the driver does not panic,
    and the calls of [virtio_disk_rw] take effect one at a time, each between its
    beginning and its end. *)
From S2P Require Import Prelude Riscv PhysMem Spinlock Bio Virtio.

(** ** Rings *)
Definition ring (r : Z -> Z) (a : Z) (n : nat) : list Z := (fun k => r (k mod NUM)) <$> zseq a n 1.

Lemma u16_NUM x : u16 x mod NUM = x mod NUM.
Proof.
  unfold u16, NUM. replace (2 ^ 16) with (8 * 8192) by done.
  rewrite Z.rem_mul_r by lia. rewrite Z.mul_comm, Z.mod_add by lia. apply Z.mod_mod. lia.
Qed.

Lemma u16_range x : 0 <= u16 x < 2 ^ 16.
Proof. apply Z.mod_pos_bound. lia. Qed.

Lemma ring_congr r a a' n : a mod NUM = a' mod NUM -> ring r a n = ring r a' n.
Proof.
  intros E. unfold ring, zseq. rewrite <- !list_fmap_compose. apply list_fmap_ext. intros _ k _. unfold compose. f_equal.
  rewrite <- (Zplus_mod_idemp_l a), <- (Zplus_mod_idemp_l a'), E. done.
Qed.

Lemma ring_S r a n : ring r a (S n) = r (a mod NUM) :: ring r (u16 (a + 1)) n.
Proof. rewrite (ring_congr r (u16 (a + 1)) (a + 1)) by apply u16_NUM. unfold ring. by rewrite zseq_S. Qed.

Lemma ring_push r a n x : (n < 8)%nat -> ring (zupd r ((a + Z.of_nat n) mod NUM) x) a (S n) = ring r a n ++ [x].
Proof.
  intros Hn. unfold ring. replace (S n) with (n + 1)%nat by lia. rewrite zseq_app, fmap_app. f_equal.
  - apply list_fmap_ext. intros _ k (j & Hj & ->)%list_elem_of_lookup_2%elem_of_zseq. unfold zupd.
    rewrite (proj2 (Z.eqb_neq _ _)); [done|]. unfold NUM. intros E. pose proof (Z.mod_pos_bound (a + 1 * j) 8 ltac:(lia)).
    pose proof (Z.div_mod (a + 1 * j) 8 ltac:(lia)). pose proof (Z.div_mod (a + Z.of_nat n) 8 ltac:(lia)). lia.
  - cbn. unfold zupd. rewrite !Z.add_0_r, Z.mul_1_l, Z.eqb_refl. done.
Qed.

Lemma length_ring r a n : length (ring r a n) = n.
Proof. unfold ring. by rewrite length_fmap, length_zseq. Qed.

(** The counters of a ring with [k] entries, one put in and one taken out. *)
Lemma u16_put hd tl k : 0 <= tl < 2 ^ 16 -> u16 (hd - tl) = Z.of_nat k -> (k < 8)%nat -> u16 (u16 (hd + 1) - tl) = Z.of_nat (S k).
Proof.
  unfold u16. intros Ht E Hk. rewrite Zminus_mod_idemp_l. replace (hd + 1 - tl) with (hd - tl + 1) by lia.
  rewrite <- Zplus_mod_idemp_l, E, Z.mod_small; lia.
Qed.

Lemma u16_take hd tl k : u16 (hd - tl) = Z.of_nat (S k) -> u16 (hd - u16 (tl + 1)) = Z.of_nat k.
Proof.
  unfold u16. intros E. rewrite Zminus_mod_idemp_r. replace (hd - (tl + 1)) with (hd - tl - 1) by lia.
  rewrite <- Zminus_mod_idemp_l, E. replace (Z.of_nat (S k) - 1) with (Z.of_nat k) by lia. apply Z.mod_small.
  pose proof (u16_range (hd - tl)). unfold u16 in *. lia.
Qed.

Lemma u16_zero hd tl : 0 <= hd < 2 ^ 16 -> 0 <= tl < 2 ^ 16 -> u16 (hd - tl) = 0 <-> tl = hd.
Proof.
  unfold u16. intros. split; [|intros ->; by rewrite Z.sub_diag].
  intros E. apply Z.mod_divide in E as [k Hk]; lia.
Qed.

(** ** Requests *)
Definition queued (s : vst) : list Z := ring (avail_ring s) (seen s) (Z.to_nat (u16 (avail_idx s - seen s))).
Definition finished (s : vst) : list Z := ring (used_ring s) (used_idx s) (Z.to_nat (u16 (used_hd s - used_idx s))).
Definition flight (s : vst) : list Z := queued s ++ work s ++ finished s.

Definition c1 (s : vst) (h : Z) : Z := next (desc s h).
Definition c2 (s : vst) (h : Z) : Z := next (desc s (c1 s h)).
Definition chain (s : vst) (h : Z) : list Z := [h; c1 s h; c2 s h].

(** The descriptors of a request are set up and stay so. *)
Record req_ok (s : vst) (b : nat) (w : bool) (h : Z) : Prop := {
  rq_b : info_b s h = Some b;
  rq_0 : desc s h = mkDesc (AReq h) 16 VRING_DESC_F_NEXT (c1 s h);
  rq_1 : desc s (c1 s h) = mkDesc (AData b) BSIZE (if w then 1 else 3) (c2 s h);
  rq_2 : desc s (c2 s h) = mkDesc (AStatus h) 1 VRING_DESC_F_WRITE 0;
  rq_op : ops s h = mkReq (if w then VIRTIO_BLK_T_OUT else VIRTIO_BLK_T_IN) 0 (2 * vb_blockno (vbufs s b));
  rq_dup : NoDup (chain s h);
  rq_held : Forall (fun j => 0 <= j < NUM /\ dfree s j = 0) (chain s h)
}.

Abbreviation waits s i b w h := (at_v s i = VWait b w h).

Record vinv (s : vst) : Prop := {
  vi_free : forall j, dfree s j = 0 \/ dfree s j = 1;
  vi_req : forall i b w h, waits s i b w h -> req_ok s b w h;
  vi_apart : forall i b w h i' b' w' h', waits s i b w h -> waits s i' b' w' h' -> i <> i' -> chain s h ## chain s h';
  vi_owned : forall j, 0 <= j < NUM -> dfree s j = 0 -> exists i b w h, waits s i b w h /\ j ∈ chain s h;
  vi_excl : forall i b i' b', in_call s i b -> in_call s i' b' -> i <> i' -> b <> b' /\ vb_blockno (vbufs s b) <> vb_blockno (vbufs s b');
  vi_usable : forall i b, in_call s i b -> usable (vbufs s b);
  vi_nodup : NoDup (flight s);
  vi_flight : forall h, h ∈ flight s <-> exists i b w, waits s i b w h /\ vb_disk (vbufs s b) = 1;
  vi_status : forall i b w h, waits s i b w h -> vb_disk (vbufs s b) <> 1 -> info_status s h = 0;
  vi_idx : 0 <= avail_idx s < 2 ^ 16 /\ 0 <= seen s < 2 ^ 16 /\ 0 <= used_hd s < 2 ^ 16 /\ 0 <= used_idx s < 2 ^ 16;
  vi_sleep : forall i, asleep s i = true ->
    match at_v s i with VOut => False | VStart _ _ => exists i' b w h, waits s i' b w h | VWait b _ _ => vb_disk (vbufs s b) = 1 end
}.

Lemma waits_in_call s i b w h : waits s i b w h -> in_call s i b.
Proof. intros H. right. by exists w, h. Qed.

Lemma in_call_inj s i b b' : in_call s i b -> in_call s i b' -> b = b'.
Proof. intros [(w & H)|(w & h & H)] [(w' & H')|(w' & h' & H')]; congruence. Qed.

(** A head is the head of one request. *)
Lemma waits_unique s i b w h i' b' w' : vinv s -> waits s i b w h -> waits s i' b' w' h -> i = i' /\ b = b' /\ w = w'.
Proof.
  intros I H H'. destruct (decide (i = i')) as [->|Hne]; [rewrite H in H'; by simplify_eq|].
  destruct (vi_apart _ I _ _ _ _ _ _ _ _ H H' Hne h); set_solver.
Qed.

Lemma head_range s i b w h : vinv s -> waits s i b w h -> 0 <= h < NUM /\ dfree s h = 0.
Proof. intros I H. pose proof (rq_held _ _ _ _ (vi_req _ I _ _ _ _ H)) as F. inversion F. done. Qed.

(** Distinct descriptors are at most [NUM]. *)
Lemma at_most_NUM (l : list Z) : NoDup l -> (forall x, x ∈ l -> 0 <= x < NUM) -> (length l <= 8)%nat.
Proof.
  intros Hd Hr. change 8%nat with (length (zseq 0 8 1)). apply submseteq_length, NoDup_submseteq; [done|].
  intros x Hx%Hr. apply elem_of_zseq. exists x. unfold NUM in Hx. lia.
Qed.

Lemma flight_range s h : vinv s -> h ∈ flight s -> 0 <= h < NUM /\ dfree s h = 0.
Proof. intros I (i & b & w & H & _)%(vi_flight _ I). by eapply head_range. Qed.

(** ** Allocating descriptors *)
Lemma alloc_loop_S n i s : alloc_loop (S n) i s = if negb (dfree s i =? 0) then Ret i (set_dfree i 0 s) else alloc_loop n (i + 1) s.
Proof. cbn [alloc_loop]. unfold mbind at 1, M_bind at 1, getS. by destruct (negb _). Qed.

Lemma alloc_loop_run n : forall i s, (forall j, dfree s j = 0 \/ dfree s j = 1) ->
  (exists k, i <= k < i + Z.of_nat n /\ dfree s k = 1 /\ alloc_loop n i s = Ret k (set_dfree k 0 s)) \/
  (alloc_loop n i s = Ret (-1) s /\ forall k, i <= k < i + Z.of_nat n -> dfree s k = 0).
Proof.
  induction n as [|n IH]; intros i s Hf; [right; split; [done|lia]|].
  rewrite alloc_loop_S. destruct (Z.eqb_spec (dfree s i) 0) as [E|E]; cbn [negb].
  - destruct (IH (i + 1) s Hf) as [(k & Hk & R)|[R Hno]]; [left; exists k; split; [lia|exact R]|right; split; [exact R|]].
    intros k Hk. destruct (decide (k = i)) as [->|]; [done|]. apply Hno. lia.
  - left. exists i. split; [lia|]. destruct (Hf i); done.
Qed.

Lemma set_dfree_01 s k v : (v = 0 \/ v = 1) -> (forall j, dfree s j = 0 \/ dfree s j = 1) -> forall j, dfree (set_dfree k v s) j = 0 \/ dfree (set_dfree k v s) j = 1.
Proof. intros Hv Hf j. cbn. unfold zupd. destruct (j =? k); done. Qed.

Lemma alloc_desc_run s : (forall j, dfree s j = 0 \/ dfree s j = 1) ->
  (exists k, 0 <= k < NUM /\ dfree s k = 1 /\ alloc_desc s = Ret k (set_dfree k 0 s)) \/
  (alloc_desc s = Ret (-1) s /\ forall k, 0 <= k < NUM -> dfree s k = 0).
Proof. apply (alloc_loop_run (Z.to_nat NUM) 0). Qed.

Definition freed (i : Z) (s : vst) : vst := wakeup CFree (set_dfree i 1 (set_desc i (mkDesc ANull 0 0 0) s)).

Lemma free_desc_run i s : i < NUM -> dfree s i = 0 -> free_desc i s = Ret tt (freed i s).
Proof.
  intros Hi Hf. unfold free_desc. rewrite (proj2 (Z.leb_gt _ _)) by done. unfold mbind at 1, M_bind at 1, getS. rewrite Hf. done.
Qed.

(** What the driver's bookkeeping of descriptors does not touch. *)
Definition core (s : vst) :=
  (avail_idx s, avail_ring s, used_hd s, used_ring s, used_idx s, (info_b s, info_status s, ops s), vbufs s, (seen s, work s, platter s), at_v s).

(** [s'] is [s] with the free descriptors [idx] taken: it differs in nothing else
    but descriptors that are free, and sleepers that have been woken up. *)
Record taken (idx : list Z) (s s' : vst) : Prop := {
  tk_core : core s' = core s;
  tk_free : forall j, dfree s' j = if bool_decide (j ∈ idx) then 0 else dfree s j;
  tk_desc : forall j, dfree s j = 0 -> desc s' j = desc s j;
  tk_sleep : forall i, asleep s' i = true -> asleep s i = true
}.

Lemma wakeup_sleep c s i : asleep (wakeup c s) i = true <-> asleep s i = true /\ chan_of (at_v s i) <> Some c.
Proof. cbn. rewrite andb_true_iff, negb_true_iff, bool_decide_eq_false. done. Qed.

Lemma taken_alloc idx s s1 k : taken idx s s1 -> taken (idx ++ [k]) s (set_dfree k 0 s1).
Proof.
  intros [H1 H2 H3 H4]. split; [done| |done|done]. intros j. cbn. unfold zupd. rewrite H2.
  destruct (Z.eqb_spec j k) as [->|Hne]; [by rewrite bool_decide_true by set_solver|].
  destruct (decide (j ∈ idx)); [by rewrite !bool_decide_true by set_solver|by rewrite !bool_decide_false by set_solver].
Qed.

Lemma taken_freed i idx s s1 : taken (i :: idx) s s1 -> i ∉ idx -> dfree s i = 1 -> taken idx s (freed i s1).
Proof.
  intros [H1 H2 H3 H4] Hni Hi. split; [done| | |].
  - intros j. cbn. unfold zupd. destruct (Z.eqb_spec j i) as [->|Hne]; [by rewrite bool_decide_false|]. rewrite H2.
    destruct (decide (j ∈ idx)); [by rewrite !bool_decide_true by set_solver|by rewrite !bool_decide_false by set_solver].
  - intros j Hj. cbn. unfold zupd. destruct (Z.eqb_spec j i) as [->|]; [congruence|by apply H3].
  - intros j [Hj _]%wakeup_sleep. by apply H4.
Qed.

Lemma free_all_run s : forall idx s1, taken idx s s1 -> NoDup idx -> Forall (fun j => 0 <= j < NUM /\ dfree s j = 1) idx ->
  exists s', free_all idx s1 = Ret tt s' /\ taken [] s s'.
Proof.
  induction idx as [|i idx IH]; intros s1 T Hn Hf; cbn [free_all]; [by exists s1|].
  apply NoDup_cons in Hn as [Hn Hd]. apply Forall_cons in Hf as [[Hi Hfi] Hf].
  assert (D : dfree s1 i = 0) by (rewrite (tk_free _ _ _ T); by rewrite bool_decide_true by set_solver).
  rewrite (bind_Ret _ _ _ _ _ (free_desc_run i s1 ltac:(lia) D)). apply IH; [by apply taken_freed|done|done].
Qed.

(** Three descriptors, or none and nothing changed. *)
Lemma alloc3_loop_run s n : forall idx s1, (forall j, dfree s j = 0 \/ dfree s j = 1) ->
  taken idx s s1 -> NoDup idx -> Forall (fun j => 0 <= j < NUM /\ dfree s j = 1) idx -> (length idx + n <= 3)%nat ->
  (exists l s', alloc3_loop n idx s1 = Ret (Some l) s' /\ length l = (length idx + n)%nat /\ taken l s s' /\
     NoDup l /\ Forall (fun j => 0 <= j < NUM /\ dfree s j = 1) l) \/
  (exists s', alloc3_loop n idx s1 = Ret None s' /\ taken [] s s' /\ exists j, 0 <= j < NUM /\ dfree s j = 0).
Proof.
  induction n as [|n IH]; intros idx s1 Hf T Hd Hidx Hl; cbn [alloc3_loop].
  { left. exists idx, s1. rewrite Nat.add_0_r. done. }
  assert (Hf1 : forall j, dfree s1 j = 0 \/ dfree s1 j = 1) by (intros j; rewrite (tk_free _ _ _ T); destruct (bool_decide _); [by left|apply Hf]).
  destruct (alloc_desc_run s1 Hf1) as [(k & Hk & Fk & R)|[R Hno]]; rewrite (bind_Ret _ _ _ _ _ R).
  - rewrite (proj2 (Z.ltb_ge k 0)) by lia. rewrite (tk_free _ _ _ T) in Fk.
    destruct (decide (k ∈ idx)) as [Hin|Hout]; [by rewrite bool_decide_true in Fk|rewrite bool_decide_false in Fk by done].
    destruct (IH (idx ++ [k]) (set_dfree k 0 s1) Hf (taken_alloc _ _ _ k T)) as [(l & s' & R' & Hlen & G)|G].
    + apply NoDup_app. split; [done|]. split; [set_solver|apply NoDup_singleton].
    + apply Forall_app. split; [done|]. by constructor.
    + rewrite length_app. cbn. lia.
    + left. exists l, s'. rewrite length_app in Hlen. cbn in Hlen. split; [done|]. split; [lia|done].
    + by right.
  - right. cbn [Z.ltb Z.compare]. destruct (free_all_run s idx s1 T Hd Hidx) as (s' & R' & T'). rewrite (bind_Ret _ _ _ _ _ R').
    exists s'. split; [done|]. split; [done|].
    assert (Hx : exists j, 0 <= j < NUM /\ j ∉ idx).
    { destruct (decide (Forall (fun j => j ∈ idx) [0; 1; 2])) as [Hall|(j & Hj & Hn)%not_Forall_Exists%Exists_exists].
      - exfalso. assert (Hsub : [0; 1; 2] ⊆+ idx); [|apply submseteq_length in Hsub; cbn in *; lia].
        apply NoDup_submseteq; [repeat constructor; set_solver|]. by rewrite list.Forall_forall in Hall.
      - exists j. split; [|done]. unfold NUM. set_unfold. lia.
      - apply _. }
    destruct Hx as (j & Hj & Hn). exists j. split; [done|]. specialize (Hno j Hj). by rewrite (tk_free _ _ _ T), bool_decide_false in Hno.
Qed.

(** ** A process tries to start its request *)
Lemma chain_frame s s' h : (forall j, j ∈ chain s h -> desc s' j = desc s j) -> chain s' h = chain s h.
Proof.
  intros Hd. unfold chain. assert (E1 : c1 s' h = c1 s h) by (unfold c1; rewrite Hd; [done|set_solver]).
  unfold c2. rewrite E1, Hd; [done|set_solver].
Qed.

Lemma req_frame s s' b w h : req_ok s b w h -> (forall j, j ∈ chain s h -> desc s' j = desc s j /\ dfree s' j = dfree s j) ->
  info_b s' h = info_b s h -> ops s' h = ops s h -> vb_blockno (vbufs s' b) = vb_blockno (vbufs s b) -> req_ok s' b w h.
Proof.
  intros [H1 H2 H3 H4 H5 H6 H7] Hd Hb Ho Hv. assert (Ec : chain s' h = chain s h) by (apply chain_frame; intros; by apply Hd).
  assert (E1 : c1 s' h = c1 s h) by (unfold chain in Ec; congruence). assert (E2 : c2 s' h = c2 s h) by (unfold chain in Ec; congruence).
  assert (Hd' : forall j, j ∈ chain s h -> desc s' j = desc s j) by (intros; by apply Hd).
  split; rewrite ?Ec, ?E1, ?E2, ?Hb, ?Ho, ?Hv; try done; try (rewrite Hd' by (unfold chain; set_solver); assumption).
  rewrite list.Forall_forall in *. intros j Hj. destruct (Hd j Hj) as [_ ->]. by apply H7.
Qed.

(** Process [i] may use buffer [b] and has no request. *)
Record ready (s : vst) (i b : nat) : Prop := {
  rd_excl : forall i' b', in_call s i' b' -> i' <> i -> b' <> b /\ vb_blockno (vbufs s b') <> vb_blockno (vbufs s b);
  rd_usable : usable (vbufs s b);
  rd_idle : forall b' w h, ~ waits s i b' w h
}.

Lemma ready_start s i b w : vinv s -> at_v s i = VStart b w -> ready s i b.
Proof.
  intros I H. assert (C : in_call s i b) by (left; by exists w). split; [|by eapply vi_usable|intros ??? H'; congruence].
  intros i' b' C' Hne. destruct (vi_excl _ I _ _ _ _ C' C Hne) as [? ?]. done.
Qed.

Lemma in_call_other s s' i' b : at_v s' i' = at_v s i' -> in_call s' i' b <-> in_call s i' b.
Proof. intros E. unfold in_call. by rewrite E. Qed.

(** The fields of a state with the same [core]. *)
Lemma core_eq s s' : core s' = core s ->
  avail_idx s' = avail_idx s /\ avail_ring s' = avail_ring s /\ used_hd s' = used_hd s /\ used_ring s' = used_ring s /\ used_idx s' = used_idx s /\
  info_b s' = info_b s /\ info_status s' = info_status s /\ ops s' = ops s /\ vbufs s' = vbufs s /\
  seen s' = seen s /\ work s' = work s /\ platter s' = platter s /\ at_v s' = at_v s.
Proof. intros [= -> -> -> -> -> -> -> -> -> -> -> -> ->]. by split_and!. Qed.

Lemma taken_vinv s s1 : vinv s -> taken [] s s1 -> vinv s1.
Proof.
  intros I T. destruct (core_eq _ _ (tk_core _ _ _ T)) as (E1 & E2 & E3 & E4 & E5 & E6 & E7 & E8 & E9 & E10 & E11 & E12 & E13).
  assert (Hfree : forall j, dfree s1 j = dfree s j) by (intros j; by rewrite (tk_free _ _ _ T)).
  assert (Hdesc : forall i b w h, waits s i b w h -> forall j, j ∈ chain s h -> desc s1 j = desc s j).
  { intros i b w h H j Hj. apply (tk_desc _ _ _ T). pose proof (rq_held _ _ _ _ (vi_req _ I _ _ _ _ H)) as F.
    rewrite list.Forall_forall in F. by apply F. }
  assert (Hchain : forall i b w h, waits s i b w h -> chain s1 h = chain s h) by (intros; eapply chain_frame, Hdesc; done).
  assert (Hq : queued s1 = queued s /\ finished s1 = finished s /\ flight s1 = flight s).
  { unfold flight, queued, finished. by rewrite E1, E2, E3, E4, E5, E10, E11. }
  destruct Hq as (Hq & Hfin & Hfl).
  split; rewrite ?E1, ?E3, ?E5, ?E7, ?E9, ?E10, ?E13, ?Hfl, ?Hfin; try apply I.
  - intros j. rewrite Hfree. apply I.
  - intros i b w h H. eapply req_frame; [by eapply vi_req| | | |]; rewrite ?E6, ?E8, ?E9; try done. intros j Hj. split; [by eapply Hdesc|apply Hfree].
  - intros i b w h i' b' w' h' H H' Hne. rewrite (Hchain _ _ _ _ H), (Hchain _ _ _ _ H'). by eapply vi_apart.
  - intros j Hj. rewrite Hfree. intros Hf. destruct (vi_owned _ I j Hj Hf) as (i & b & w & h & H & Hin).
    exists i, b, w, h. split; [done|]. by rewrite (Hchain _ _ _ _ H).
  - intros i b i' b'. rewrite !(in_call_other s s1) by (by rewrite E13). apply I.
  - intros i b. rewrite (in_call_other s s1) by (by rewrite E13). apply I.
  - intros i Hi%(tk_sleep _ _ _ T). by apply (vi_sleep _ I).
Qed.

(** It goes to sleep for want of descriptors, which other requests hold. *)
Lemma vinv_sleep_start s i b w : vinv s -> ready s i b -> (exists i' b' w' h, waits s i' b' w' h) -> vinv (sleep_at i (VStart b w) s).
Proof.
  intros I R Hx. set (s' := sleep_at i (VStart b w) s).
  assert (Hw : forall i' b' w' h, waits s' i' b' w' h <-> waits s i' b' w' h).
  { intros i' b' w' h. cbn. unfold upd. destruct (Nat.eqb_spec i' i) as [->|]; [|done]. split; [done|]. intros []%(rd_idle _ _ _ R). }
  assert (Hc : forall i' b', in_call s' i' b' -> (i' = i /\ b' = b) \/ (i' <> i /\ in_call s i' b')).
  { intros i' b' C. destruct (decide (i' = i)) as [->|Hne].
    - left. split; [done|]. eapply in_call_inj; [exact C|]. left. exists w. cbn. apply upd_eq.
    - right. split; [done|]. eapply in_call_other; [|exact C]. cbn. by rewrite upd_ne. }
  split; try apply I.
  - intros i' b' w' h H%Hw. by apply (vi_req _ I) in H as [].
  - intros i1 b1 w1 h1 i2 b2 w2 h2 H1%Hw H2%Hw. by apply (vi_apart _ I _ _ _ _ _ _ _ _ H1 H2).
  - intros j Hj Hf. destruct (vi_owned _ I j Hj Hf) as (i' & b' & w' & h & H%Hw & Hin). by exists i', b', w', h.
  - intros i1 b1 i2 b2 [[-> ->]|[N1 C1]]%Hc [[-> ->]|[N2 C2]]%Hc Hne; [done| | |by apply (vi_excl _ I _ _ _ _ C1 C2)].
    + destruct (rd_excl _ _ _ R _ _ C2 N2). done.
    + destruct (rd_excl _ _ _ R _ _ C1 N1). done.
  - intros i' b' [[-> ->]|[_ C]]%Hc; [apply (rd_usable _ _ _ R)|by apply (vi_usable _ I) in C].
  - intros h. etransitivity; [exact (vi_flight _ I h)|]. do 3 (apply exist_proper; intros ?). by rewrite Hw.
  - intros i' b' w' h H%Hw. exact (vi_status _ I _ _ _ _ H).
  - intros i'. cbn [s' sleep_at set_procs asleep at_v]. unfold upd at 1. destruct (Nat.eqb_spec i' i) as [->|Hne].
    + intros _. rewrite upd_eq. destruct Hx as (i' & b' & w' & h & H%Hw). by exists i', b', w', h.
    + intros Ha. rewrite upd_ne by done. pose proof (vi_sleep _ I i' Ha) as G. destruct (at_v s i'); [done| |done].
      destruct G as (i2 & b2 & w2 & h & H%Hw). by exists i2, b2, w2, h.
Qed.

(** It submits its request. *)
Definition submitted (b : nat) (w : bool) (i0 i1 i2 : Z) (s : vst) : vst :=
  mkV (zupd (zupd (zupd (desc s) i0 (mkDesc (AReq i0) 16 VRING_DESC_F_NEXT i1)) i1 (mkDesc (AData b) BSIZE (if w then 1 else 3) i2)) i2
        (mkDesc (AStatus i0) 1 VRING_DESC_F_WRITE 0))
    (u16 (avail_idx s + 1)) (zupd (avail_ring s) (avail_idx s mod NUM) i0) (used_hd s) (used_ring s) (dfree s) (used_idx s)
    (zupd (info_b s) i0 (Some b)) (zupd (info_status s) i0 0xff)
    (zupd (ops s) i0 (mkReq (if w then VIRTIO_BLK_T_OUT else VIRTIO_BLK_T_IN) 0 (2 * vb_blockno (vbufs s b))))
    (upd (vbufs s) b (mkVb (vb_blockno (vbufs s b)) 1 (vb_data (vbufs s b)))) (seen s) (work s) (platter s) (at_v s) (asleep s).

Definition filled (b : nat) (w : bool) (i0 i1 i2 : Z) (s : vst) : vst :=
  set_avail (avail_idx s) (avail_ring (submitted b w i0 i1 i2 s)) (submitted b w i0 i1 i2 s).

Lemma fill_run b w i0 i1 i2 s : usable (vbufs s b) -> fill_request b w i0 i1 i2 s = Ret tt (filled b w i0 i1 i2 s).
Proof.
  intros [Hb _]. unfold fill_request, mbind, M_bind, getS, modS. f_equal.
  assert (u32 (vb_blockno (vbufs s b) * (BSIZE / 512)) = 2 * vb_blockno (vbufs s b)) as ->.
  { change (BSIZE / 512) with 2. unfold u32. rewrite Z.mod_small; lia. }
  unfold filled, submitted. cbn. by destruct w.
Qed.

Lemma submit_run b w i0 i1 i2 s : usable (vbufs s b) -> submit b w i0 i1 i2 s = Ret tt (submitted b w i0 i1 i2 s).
Proof. intros U. unfold submit. by rewrite (bind_Ret _ _ _ _ _ (fill_run b w i0 i1 i2 s U)). Qed.

Section submit.
Context (s s1 : vst) (i b : nat) (w : bool) (i0 i1 i2 : Z).
Context (I : vinv s) (R : ready s i b) (T : taken [i0; i1; i2] s s1) (Hd : NoDup [i0; i1; i2]).
Context (Hf : Forall (fun j => 0 <= j < NUM /\ dfree s j = 1) [i0; i1; i2]).
Let s' : vst := sleep_at i (VWait b w i0) (submitted b w i0 i1 i2 s1).

Lemma sub_fields : avail_idx s1 = avail_idx s /\ avail_ring s1 = avail_ring s /\ used_hd s1 = used_hd s /\ used_ring s1 = used_ring s /\ used_idx s1 = used_idx s /\
  info_b s1 = info_b s /\ info_status s1 = info_status s /\ ops s1 = ops s /\ vbufs s1 = vbufs s /\
  seen s1 = seen s /\ work s1 = work s /\ platter s1 = platter s /\ at_v s1 = at_v s.
Proof. apply core_eq, T. Qed.

Lemma sub_waits i' b' w' h : waits s' i' b' w' h -> (i' = i /\ b' = b /\ w' = w /\ h = i0) \/ (i' <> i /\ waits s i' b' w' h).
Proof.
  destruct sub_fields as (_ & _ & _ & _ & _ & _ & _ & _ & _ & _ & _ & _ & E). cbn. rewrite E. unfold upd.
  destruct (Nat.eqb_spec i' i); [|by right]. intros [= <- <- <-]. by left.
Qed.

Lemma sub_waits_old i' b' w' h : waits s i' b' w' h -> i' <> i /\ waits s' i' b' w' h.
Proof.
  intros H. assert (i' <> i) by (intros ->; by apply (rd_idle _ _ _ R) in H). split; [done|].
  destruct sub_fields as (_ & _ & _ & _ & _ & _ & _ & _ & _ & _ & _ & _ & E). cbn. rewrite E. by rewrite upd_ne.
Qed.

Lemma sub_waits_new : waits s' i b w i0.
Proof. cbn. apply upd_eq. Qed.

Lemma sub_in_call i' b' : in_call s' i' b' -> (i' = i /\ b' = b) \/ (i' <> i /\ in_call s i' b').
Proof.
  intros C. destruct (decide (i' = i)) as [->|Hne].
  - left. split; [done|]. eapply in_call_inj; [exact C|]. eapply waits_in_call, sub_waits_new.
  - right. split; [done|]. eapply in_call_other; [|exact C]. destruct sub_fields as (_ & _ & _ & _ & _ & _ & _ & _ & _ & _ & _ & _ & E). cbn. by rewrite E, upd_ne.
Qed.

(** The new descriptors are in no other request. *)
Lemma sub_fresh i' b' w' h j : waits s i' b' w' h -> j ∈ chain s h -> j ∉ [i0; i1; i2].
Proof.
  intros H Hj Hin. pose proof (rq_held _ _ _ _ (vi_req _ I _ _ _ _ H)) as F. rewrite list.Forall_forall in F, Hf.
  destruct (F j Hj), (Hf j Hin). congruence.
Qed.

Lemma sub_desc j : dfree s j = 0 -> j ∉ [i0; i1; i2] -> desc s' j = desc s j.
Proof.
  intros Hj Hn. cbn. unfold zupd. rewrite !(proj2 (Z.eqb_neq _ _)) by set_solver. by apply (tk_desc _ _ _ T).
Qed.

Lemma sub_status i' b' w' h : waits s i' b' w' h -> info_status s' h = info_status s h.
Proof.
  intros H. destruct sub_fields as (_ & _ & _ & _ & _ & _ & E7 & _).
  assert (h ∉ [i0; i1; i2]) by (eapply sub_fresh; [done|unfold chain; set_solver]). cbn. unfold zupd.
  by rewrite (proj2 (Z.eqb_neq _ _)), E7 by set_solver.
Qed.

Lemma sub_chain i' b' w' h : waits s i' b' w' h -> chain s' h = chain s h.
Proof.
  intros H. apply chain_frame. intros j Hj. apply sub_desc; [|by eapply sub_fresh].
  pose proof (rq_held _ _ _ _ (vi_req _ I _ _ _ _ H)) as F. rewrite list.Forall_forall in F. by apply F.
Qed.

Lemma sub_chain_new : chain s' i0 = [i0; i1; i2].
Proof.
  apply NoDup_cons in Hd as [H0 H1]. apply NoDup_cons in H1 as [H1 _].
  unfold chain, c2, c1. cbn. unfold zupd. rewrite !Z.eqb_refl.
  rewrite (proj2 (Z.eqb_neq i0 i2)), (proj2 (Z.eqb_neq i0 i1)) by set_solver. cbn.
  rewrite (proj2 (Z.eqb_neq i1 i2)), Z.eqb_refl by set_solver. done.
Qed.

Lemma sub_free j : dfree s' j = if bool_decide (j ∈ [i0; i1; i2]) then 0 else dfree s j.
Proof. exact (tk_free _ _ _ T j). Qed.

Lemma sub_not_flight : i0 ∉ flight s.
Proof. intros [_ E]%(flight_range s i0 I). apply Forall_cons in Hf as [[_ E'] _]. congruence. Qed.

Lemma sub_queued : queued s' = queued s ++ [i0].
Proof.
  destruct sub_fields as (E1 & E2 & _ & _ & _ & _ & _ & _ & _ & E10 & _).
  assert (Hlen : (length (queued s) < 8)%nat).
  { assert (length (i0 :: flight s) <= 8)%nat; [|unfold flight in *; cbn in *; rewrite length_app in *; lia].
    apply at_most_NUM; [constructor; [apply sub_not_flight|apply I]|]. apply Forall_cons in Hf as [[? _] _].
    intros x [->|Hx]%elem_of_cons; [done|by apply (flight_range s)]. }
  unfold queued in *. rewrite length_ring in Hlen. set (n := Z.to_nat (u16 (avail_idx s - seen s))) in *.
  assert (En : u16 (avail_idx s - seen s) = Z.of_nat n) by (unfold n; pose proof (u16_range (avail_idx s - seen s)); lia).
  destruct (vi_idx _ I) as (? & ? & _).
  change (avail_ring s') with (zupd (avail_ring s1) (avail_idx s1 mod NUM) i0). change (avail_idx s') with (u16 (avail_idx s1 + 1)). change (seen s') with (seen s1).
  rewrite E1, E2, E10, (u16_put _ _ n), Nat2Z.id by done. rewrite <- ring_push by done. do 2 f_equal.
  rewrite <- En. unfold u16. rewrite <- (u16_NUM (seen s + _)). unfold u16. rewrite Zplus_mod_idemp_r, (Z.mod_small (seen s + _)); f_equal; lia.
Qed.

Lemma sub_finished : finished s' = finished s.
Proof. destruct sub_fields as (_ & _ & E3 & E4 & E5 & _). unfold finished. cbn. by rewrite E3, E4, E5. Qed.

Lemma sub_flight : flight s' ≡ₚ i0 :: flight s.
Proof.
  destruct sub_fields as (_ & _ & _ & _ & _ & _ & _ & _ & _ & _ & E11 & _).
  unfold flight. rewrite sub_queued, sub_finished. change (work s') with (work s1). rewrite E11, <- app_assoc. symmetry. apply Permutation_middle.
Qed.

Lemma sub_vbuf b' : b' <> b -> vbufs s' b' = vbufs s b'.
Proof. destruct sub_fields as (_ & _ & _ & _ & _ & _ & _ & _ & E9 & _). intros Hne. cbn. by rewrite upd_ne, E9. Qed.

Lemma sub_vbuf_new : vbufs s' b = mkVb (vb_blockno (vbufs s b)) 1 (vb_data (vbufs s b)).
Proof. destruct sub_fields as (_ & _ & _ & _ & _ & _ & _ & _ & E9 & _). cbn. by rewrite upd_eq, E9. Qed.

Lemma sub_blockno b' : vb_blockno (vbufs s' b') = vb_blockno (vbufs s b').
Proof. destruct (decide (b' = b)) as [->|]; [by rewrite sub_vbuf_new|by rewrite sub_vbuf]. Qed.

Lemma sub_req_new : req_ok s' b w i0.
Proof.
  destruct sub_fields as (_ & _ & _ & _ & _ & _ & _ & _ & E9 & _).
  pose proof sub_chain_new as Ec. assert (E1 : c1 s' i0 = i1) by (unfold chain in Ec; congruence). assert (E2 : c2 s' i0 = i2) by (unfold chain in Ec; congruence).
  pose proof Hd as [H0 [H1 _]%NoDup_cons]%NoDup_cons.
  split; rewrite ?Ec, ?E1, ?E2; [..|done|].
  - cbn. unfold zupd. by rewrite Z.eqb_refl.
  - cbn. unfold zupd. rewrite !(proj2 (Z.eqb_neq _ _)), Z.eqb_refl by set_solver. done.
  - cbn. unfold zupd. rewrite (proj2 (Z.eqb_neq _ _)), Z.eqb_refl by set_solver. done.
  - cbn. unfold zupd. by rewrite Z.eqb_refl.
  - cbn. unfold zupd. rewrite Z.eqb_refl, upd_eq. done.
  - rewrite list.Forall_forall in *. intros j Hj. rewrite sub_free, bool_decide_true by done. split; [by apply Hf|done].
Qed.

Lemma vinv_submit : vinv s'.
Proof.
  destruct sub_fields as (E1 & _ & E3 & _ & E5 & E6 & E7 & E8 & E9 & E10 & _ & _ & E13).
  assert (Hb : forall i' b', i' <> i -> in_call s i' b' -> vbufs s' b' = vbufs s b') by (intros i' b' Hne C; apply sub_vbuf; by eapply rd_excl).
  split.
  - intros j. rewrite sub_free. destruct (bool_decide _); [by left|apply I].
  - intros i' b' w' h [(-> & -> & -> & ->)|[Hne H]]%sub_waits; [apply sub_req_new|].
    eapply req_frame; [by eapply vi_req|..].
    + intros j Hj. pose proof (sub_fresh _ _ _ _ _ H Hj) as Hn. pose proof (rq_held _ _ _ _ (vi_req _ I _ _ _ _ H)) as F. rewrite list.Forall_forall in F.
      split; [apply sub_desc; [by apply F|done]|]. by rewrite sub_free, bool_decide_false.
    + assert (h ∉ [i0; i1; i2]) by (eapply sub_fresh; [done|unfold chain; set_solver]). cbn. unfold zupd. rewrite (proj2 (Z.eqb_neq _ _)) by set_solver. by rewrite E6.
    + assert (h ∉ [i0; i1; i2]) by (eapply sub_fresh; [done|unfold chain; set_solver]). cbn. unfold zupd. rewrite (proj2 (Z.eqb_neq _ _)) by set_solver. by rewrite E8.
    + apply sub_blockno.
  - intros ia ba wa ha ib bb wb hb [(-> & -> & -> & ->)|[Na Ha]]%sub_waits [(-> & -> & -> & ->)|[Nb Hb']]%sub_waits Hne; [done|..];
      rewrite ?sub_chain_new; repeat (erewrite sub_chain by done).
    + intros j Hj Hj'. by eapply sub_fresh.
    + intros j Hj Hj'. by eapply sub_fresh.
    + by eapply vi_apart.
  - intros j Hj. rewrite sub_free. destruct (bool_decide_reflect (j ∈ [i0; i1; i2])) as [Hin|Hout]; intros Hz.
    + exists i, b, w, i0. split; [apply sub_waits_new|]. by rewrite sub_chain_new.
    + destruct (vi_owned _ I j Hj Hz) as (i' & b' & w' & h & H & Hin). exists i', b', w', h. split; [by apply sub_waits_old|]. by erewrite sub_chain.
  - intros ia ba ib bb [[-> ->]|[Na Ca]]%sub_in_call [[-> ->]|[Nb Cb]]%sub_in_call Hne; rewrite !sub_blockno; [done|..|by eapply vi_excl].
    + destruct (rd_excl _ _ _ R _ _ Cb Nb). done.
    + destruct (rd_excl _ _ _ R _ _ Ca Na). done.
  - intros i' b' [[-> ->]|[Hn C]]%sub_in_call.
    + unfold usable. rewrite sub_vbuf_new. apply R.
    + rewrite (Hb _ _ Hn C). by eapply vi_usable.
  - rewrite sub_flight. constructor; [apply sub_not_flight|apply I].
  - intros h. rewrite sub_flight, elem_of_cons, (vi_flight _ I). split.
    + intros [->|(i' & b' & w' & H & Hv)]; [exists i, b, w; by rewrite sub_vbuf_new; split; [apply sub_waits_new|]|].
      destruct (sub_waits_old _ _ _ _ H) as [Hn H']. exists i', b', w'. split; [done|]. by rewrite (Hb _ _ Hn (waits_in_call _ _ _ _ _ H)).
    + intros (i' & b' & w' & [(-> & -> & -> & ->)|[Hn H]]%sub_waits & Hv); [by left|right]. exists i', b', w'. split; [done|].
      by rewrite <- (Hb _ _ Hn (waits_in_call _ _ _ _ _ H)).
  - intros i' b' w' h [(-> & -> & -> & ->)|[Hn H]]%sub_waits; [by rewrite sub_vbuf_new|].
    rewrite (sub_status _ _ _ _ H), (Hb _ _ Hn (waits_in_call _ _ _ _ _ H)). exact (vi_status _ I _ _ _ _ H).
  - cbn. rewrite E3, E5, E10. split; [apply u16_range|apply (vi_idx _ I)].
  - intros i'. change (asleep s' i') with (upd (asleep s1) i true i'). change (at_v s' i') with (upd (at_v s1) i (VWait b w i0) i'). unfold upd.
    destruct (Nat.eqb_spec i' i) as [->|Hn]; [intros _; by rewrite sub_vbuf_new|]. intros Hs%(tk_sleep _ _ _ T)%(vi_sleep _ I). rewrite E13.
    destruct (at_v s i') eqn:Ei; [done|exists i, b, w, i0; apply sub_waits_new|]. rewrite (Hb i'); [done|done|]. by eapply waits_in_call.
Qed.
End submit.

(** What the caller sees of a step that starts a request or goes back to sleep. *)
Lemma rw_run s i b w : vinv s -> ready s i b -> exists s', virtio_disk_rw i b w s = Ret false s' /\ vinv s' /\
  (forall b', vb_blockno (vbufs s' b') = vb_blockno (vbufs s b') /\ vb_data (vbufs s' b') = vb_data (vbufs s b')) /\ platter s' = platter s /\
  (finished s' = finished s /\ forall i' b' w' h', waits s i' b' w' h' -> info_status s' h' = info_status s h') /\
  (at_v s' = upd (at_v s) i (VStart b w) /\ queued s' ++ work s' = queued s ++ work s /\ (exists i' b' w' h, waits s i' b' w' h) \/
   exists h, at_v s' = upd (at_v s) i (VWait b w h) /\ queued s' = queued s ++ [h] /\ work s' = work s /\ h ∉ flight s).
Proof.
  intros I R. unfold virtio_disk_rw.
  destruct (alloc3_loop_run s 3 [] s (vi_free _ I)) as [(l & s1 & E & Hl & T & Hd & Hf)|(s1 & E & T & j & Hj & Hz)]; [done|constructor|constructor|done|..];
    fold alloc3_desc in E; rewrite (bind_Ret _ _ _ _ _ E); destruct (core_eq _ _ (tk_core _ _ _ T)) as (E1 & E2 & E3 & E4 & E5 & E6 & E7 & E8 & E9 & E10 & E11 & E12 & E13).
  - destruct l as [|i0 [|i1 [|i2 [|]]]]; try discriminate Hl.
    assert (U : usable (vbufs s1 b)) by (rewrite E9; apply R). rewrite (bind_Ret _ _ _ _ _ (submit_run b w i0 i1 i2 s1 U)).
    exists (sleep_at i (VWait b w i0) (submitted b w i0 i1 i2 s1)). split.
    { unfold rw_wait, mbind at 1, M_bind at 1, getS. cbn [submitted vbufs]. rewrite upd_eq. reflexivity. }
    split; [by apply (vinv_submit s)|]. split.
    { intros b'. destruct (decide (b' = b)) as [->|Hb']; [by erewrite sub_vbuf_new|by erewrite sub_vbuf]. }
    split; [done|]. split; [split; [by eapply sub_finished|intros; by eapply sub_status]|].
    right. exists i0. split; [cbn; by rewrite E13|]. split; [by eapply sub_queued|]. split; [done|]. by eapply sub_not_flight.
  - pose proof (taken_vinv _ _ I T) as I1. assert (R1 : ready s1 i b).
    { destruct R as [Ra Rb Rc]. split; rewrite ?E9, ?E13; try done. intros i' b'. rewrite (in_call_other s s1) by (by rewrite E13). apply Ra. }
    exists (sleep_at i (VStart b w) s1). split; [done|]. split.
    + apply vinv_sleep_start; [done|done|]. assert (Hz1 : dfree s1 j = 0) by (by rewrite (tk_free _ _ _ T)).
      destruct (vi_owned _ I1 j Hj Hz1) as (i' & b' & w' & h & H & _). by exists i', b', w', h.
    + cbn. rewrite E7, E9, E12, E13. split; [done|]. split; [done|]. split; [split; [unfold finished; cbn; by rewrite E3, E4, E5|done]|].
      left. split; [done|]. split; [unfold queued; cbn; by rewrite E1, E2, E10, E11|].
      destruct (vi_owned _ I j Hj Hz) as (i' & b' & w' & h & H & _). by exists i', b', w', h.
Qed.

(** ** A process sees whether its request is done *)
Lemma vinv_procs s p a : vinv s -> (forall i, p i = at_v s i) ->
  (forall i, a i = true -> asleep s i = true \/ exists b w h, waits s i b w h /\ vb_disk (vbufs s b) = 1) -> vinv (set_procs p a s).
Proof.
  intros I Hp Ha. assert (Hc : forall i b, in_call (set_procs p a s) i b <-> in_call s i b) by (intros i b; by apply in_call_other).
  split; try apply I; cbn [set_procs at_v asleep vbufs].
  - intros i b w h. rewrite Hp. intros H%(vi_req _ I). destruct H. by split.
  - intros i b w h i' b' w' h'. rewrite !Hp. apply I.
  - intros j Hj Hf. destruct (vi_owned _ I j Hj Hf) as (i & b & w & h & H). exists i, b, w, h. by rewrite Hp.
  - intros i b i' b'. rewrite !Hc. apply I.
  - intros i b. rewrite Hc. apply I.
  - intros h. etransitivity; [exact (vi_flight _ I h)|]. do 3 (apply exist_proper; intros ?). by rewrite Hp.
  - intros i b w h. rewrite Hp. apply I.
  - intros i. rewrite Hp. intros [H|(b & w & h & E & H)]%Ha; [|by rewrite E]. apply (vi_sleep _ I) in H.
    destruct (at_v s i); [done| |done]. destruct H as (i' & b' & w' & h & H). exists i', b', w', h. by rewrite Hp.
Qed.

Definition returned (i : nat) (h : Z) (s : vst) : vst :=
  let s0 := set_info_b h None s in
  let s1 := freed (c2 s h) (freed (c1 s h) (freed h s0)) in
  set_procs (upd (at_v s1) i VOut) (asleep s1) s1.

Lemma return_run s i b w h : req_ok s b w h -> vb_disk (vbufs s b) <> 1 -> rw_wait i b w h s = Ret true (returned i h s).
Proof.
  intros [_ H0 H1 H2 _ Hd Hh] Hv. unfold rw_wait, mbind at 1, M_bind at 1, getS. rewrite (proj2 (Z.eqb_neq _ _)) by done.
  unfold chain in *. apply NoDup_cons in Hd as [N0 [N1 _]%NoDup_cons]. inversion_clear Hh as [|? ? [R0 F0] Hh']. inversion_clear Hh' as [|? ? [R1 F1] Hh]. inversion_clear Hh as [|? ? [R2 F2] _].
  rewrite (bind_Ret (modS _) _ _ tt (set_info_b h None s)) by done. set (s0 := set_info_b h None s).
  assert (N : c1 s h <> h /\ c2 s h <> h /\ c2 s h <> c1 s h) by set_solver. destruct N as (Na & Nb & Nc).
  assert (E : free_chain (Z.to_nat NUM) h s0 = Ret tt (freed (c2 s h) (freed (c1 s h) (freed h s0)))).
  { change (Z.to_nat NUM) with (S (S (S 5))). cbn [free_chain]. unfold mbind at 1, M_bind at 1, getS.
    rewrite (bind_Ret _ _ _ _ _ (free_desc_run h s0 ltac:(lia) F0)). change (desc s0 h) with (desc s h). rewrite H0. cbn [flags next].
    change (negb (Z.land VRING_DESC_F_NEXT VRING_DESC_F_NEXT =? 0)) with true. cbn match. unfold mbind at 1, M_bind at 1, getS.
    assert (E1 : desc (freed h s0) (c1 s h) = desc s (c1 s h)) by (cbn; unfold zupd; by rewrite (proj2 (Z.eqb_neq _ _))).
    rewrite E1, H1. cbn [flags next]. rewrite (bind_Ret _ _ _ _ _ (free_desc_run (c1 s h) (freed h s0) ltac:(lia) ltac:(cbn; unfold zupd; by rewrite (proj2 (Z.eqb_neq _ _)) by done))).
    replace (negb (Z.land (if w then 1 else 3) VRING_DESC_F_NEXT =? 0)) with true by (by destruct w). unfold mbind at 1, M_bind at 1, getS.
    assert (E2 : desc (freed (c1 s h) (freed h s0)) (c2 s h) = desc s (c2 s h)) by (cbn; unfold zupd; by rewrite !(proj2 (Z.eqb_neq _ _)) by done).
    rewrite E2, H2. cbn [flags next]. rewrite (bind_Ret _ _ _ _ _ (free_desc_run (c2 s h) (freed (c1 s h) (freed h s0)) ltac:(lia) ltac:(cbn; unfold zupd; by rewrite !(proj2 (Z.eqb_neq _ _)) by done))).
    done. }
  rewrite (bind_Ret _ _ _ _ _ E). done.
Qed.

Section returned.
Context (s : vst) (i b : nat) (w : bool) (h : Z) (I : vinv s) (H : waits s i b w h) (Hv : vb_disk (vbufs s b) <> 1) (Ha : asleep s i = false).
Let s' : vst := returned i h s.

Lemma ret_desc j : j ∉ chain s h -> desc s' j = desc s j.
Proof. intros Hj. cbn. unfold zupd. unfold chain in Hj. by rewrite !(proj2 (Z.eqb_neq _ _)) by set_solver. Qed.

Lemma ret_free j : dfree s' j = if bool_decide (j ∈ chain s h) then 1 else dfree s j.
Proof.
  cbn. unfold zupd, chain. destruct (Z.eqb_spec j (c2 s h)) as [->|]; [by rewrite bool_decide_true by set_solver|].
  destruct (Z.eqb_spec j (c1 s h)) as [->|]; [by rewrite bool_decide_true by set_solver|].
  destruct (Z.eqb_spec j h) as [->|]; [by rewrite bool_decide_true by set_solver|by rewrite bool_decide_false by set_solver].
Qed.

Lemma ret_waits i' b' w' h' : waits s' i' b' w' h' <-> i' <> i /\ waits s i' b' w' h'.
Proof. cbn. unfold upd. destruct (Nat.eqb_spec i' i) as [->|]; [split; [done|by intros []]|]. split; [done|by intros []]. Qed.

Lemma ret_in_call i' b' : in_call s' i' b' -> i' <> i /\ in_call s i' b'.
Proof.
  intros C. assert (i' <> i). { intros ->. destruct C as [(w0 & E)|(w0 & h0 & E)]; cbn in E; by rewrite upd_eq in E. }
  split; [done|]. eapply in_call_other; [|exact C]. cbn. by rewrite upd_ne.
Qed.

Lemma ret_apart i' b' w' h' j : i' <> i -> waits s i' b' w' h' -> j ∈ chain s h' -> j ∉ chain s h.
Proof. intros Hne H' Hj Hj'. by apply (vi_apart _ I _ _ _ _ _ _ _ _ H' H Hne j). Qed.

Lemma ret_not_flight : h ∉ flight s.
Proof. intros (i' & b' & w' & H' & E)%(vi_flight _ I). destruct (waits_unique _ _ _ _ _ _ _ _ I H H') as (_ & <- & _). done. Qed.

Lemma vinv_returned : vinv s'.
Proof.
  assert (Hchain : forall i' b' w' h', i' <> i -> waits s i' b' w' h' -> chain s' h' = chain s h').
  { intros i' b' w' h' Hne H'. apply chain_frame. intros j Hj. apply ret_desc. by eapply ret_apart. }
  split; try apply I.
  - intros j. rewrite ret_free. destruct (bool_decide _); [by right|apply I].
  - intros i' b' w' h' [Hne H']%ret_waits. eapply req_frame; [by eapply vi_req| |cbn|done|done].
    + intros j Hj. pose proof (ret_apart _ _ _ _ _ Hne H' Hj) as Hn. split; [by apply ret_desc|]. by rewrite ret_free, bool_decide_false.
    + unfold zupd. rewrite (proj2 (Z.eqb_neq _ _)); [done|]. intros ->. apply (ret_apart _ _ _ _ h Hne H'); unfold chain; set_solver.
  - intros ia ba wa ha ib bb wb hb [Na Wa]%ret_waits [Nb Wb]%ret_waits Hne. rewrite (Hchain _ _ _ _ Na Wa), (Hchain _ _ _ _ Nb Wb). by eapply vi_apart.
  - intros j Hj. rewrite ret_free. destruct (bool_decide_reflect (j ∈ chain s h)); [done|]. intros Hz.
    destruct (vi_owned _ I j Hj Hz) as (i' & b' & w' & h' & H' & Hin). assert (Hne : i' <> i) by (intros ->; rewrite H in H'; by simplify_eq).
    exists i', b', w', h'. rewrite ret_waits, (Hchain _ _ _ _ Hne H'). done.
  - intros ia ba ib bb [Na Ca]%ret_in_call [Nb Cb]%ret_in_call. exact (vi_excl _ I _ _ _ _ Ca Cb).
  - intros i' b' [_ C]%ret_in_call. exact (vi_usable _ I _ _ C).
  - intros h'. etransitivity; [exact (vi_flight _ I h')|]. do 3 (apply exist_proper; intros ?). rewrite ret_waits. change (vbufs s') with (vbufs s).
    split; [|naive_solver]. intros [H' E]. split; [|done]. split; [|done]. intros ->. rewrite H in H'. by simplify_eq.
  - intros i' b' w' h' [_ H']%ret_waits. exact (vi_status _ I _ _ _ _ H').
  - intros i' Hs. assert (Hs' : asleep s i' = true /\ chan_of (at_v s i') <> Some CFree).
    { cbn in Hs. rewrite !andb_true_iff, negb_true_iff, bool_decide_eq_false in Hs. naive_solver. }
    destruct Hs' as [Hs' Hc]. assert (Hne : i' <> i) by (intros ->; congruence). cbn. rewrite upd_ne by done.
    apply (vi_sleep _ I) in Hs'. by destruct (at_v s i').
Qed.
End returned.

(** ** The interrupt handler *)
(** What no step but those of the device and the calls changes. *)
Record calm (s s' : vst) : Prop := {
  cm_at : forall i, at_v s' i = at_v s i;
  cm_buf : forall b, vb_blockno (vbufs s' b) = vb_blockno (vbufs s b) /\ vb_data (vbufs s' b) = vb_data (vbufs s b);
  cm_plat : platter s' = platter s;
  cm_status : info_status s' = info_status s;
  cm_todo : queued s' ++ work s' = queued s ++ work s
}.

Lemma calm_refl s : calm s s.
Proof. by split. Qed.

Lemma calm_trans s1 s2 s3 : calm s1 s2 -> calm s2 s3 -> calm s1 s3.
Proof.
  intros [A1 B1 C1 D1 F1] [A2 B2 C2 D2 F2]. split; [intros; congruence| |congruence..].
  intros b. destruct (B1 b), (B2 b). split; congruence.
Qed.

Definition acked (b : nat) (s : vst) : vst :=
  let s1 := wakeup (CBuf b) (set_disk b 0 s) in set_used_idx (u16 (used_idx s1 + 1)) s1.

Section acked.
Context (s : vst) (i b : nat) (w : bool) (h : Z) (rest : list Z).
Context (I : vinv s) (H : waits s i b w h) (Ef : finished s = h :: rest).
Let s' : vst := acked b s.

Lemma ack_finished : finished s' = rest.
Proof.
  unfold finished in *. destruct (Z.to_nat (u16 (used_hd s - used_idx s))) as [|n] eqn:En; [done|].
  assert (E : u16 (used_hd s - used_idx s) = Z.of_nat (S n)) by (pose proof (u16_range (used_hd s - used_idx s)); lia).
  rewrite ring_S in Ef. injection Ef as _ Er. cbn. rewrite (u16_take _ _ n), Nat2Z.id by done. exact Er.
Qed.

Lemma ack_nodup : (h ∉ queued s ++ work s ++ rest) /\ NoDup (queued s ++ work s ++ rest).
Proof.
  pose proof (vi_nodup _ I) as N. unfold flight in N. rewrite Ef in N. rewrite app_assoc in N |- *.
  rewrite <- Permutation_middle in N. by apply NoDup_cons in N.
Qed.

Lemma ack_flight h' : h' ∈ flight s' <-> h' ∈ flight s /\ h' <> h.
Proof.
  destruct ack_nodup as [Hn _]. unfold flight. rewrite ack_finished, Ef. change (queued s') with (queued s). change (work s') with (work s).
  split; [intros Hi; split; [set_solver|intros ->; done]|]. intros [Hi Hne]. set_solver.
Qed.

Lemma ack_disk b' : vb_disk (vbufs s' b') = if decide (b' = b) then 0 else vb_disk (vbufs s b').
Proof. cbn. unfold upd. destruct (Nat.eqb_spec b' b) as [->|]; [by rewrite decide_True|by rewrite decide_False]. Qed.

Lemma ack_buf b' : vb_blockno (vbufs s' b') = vb_blockno (vbufs s b') /\ vb_data (vbufs s' b') = vb_data (vbufs s b').
Proof. cbn. unfold upd. by destruct (Nat.eqb_spec b' b) as [->|]. Qed.

Lemma ack_calm : calm s s'.
Proof. split; [done|apply ack_buf|done..]. Qed.

(** The other requests are for other buffers. *)
Lemma ack_other i' b' w' h' : waits s i' b' w' h' -> h' <> h -> b' <> b.
Proof.
  intros H' Hne. assert (Hi : i' <> i) by (intros ->; congruence).
  apply (vi_excl _ I _ _ _ _ (waits_in_call _ _ _ _ _ H') (waits_in_call _ _ _ _ _ H) Hi).
Qed.

Lemma vinv_acked : info_status s h = 0 -> vinv s'.
Proof.
  intros Hst. split.
  - apply I.
  - intros i' b' w' h' H'. eapply req_frame; [exact (vi_req _ I _ _ _ _ H')|done|done|done|apply ack_buf].
  - intros ? ? ? ? ? ? ? ? Ha Hb. exact (vi_apart _ I _ _ _ _ _ _ _ _ Ha Hb).
  - apply I.
  - intros ia ba ib bb Ca Cb Hne. destruct (ack_buf ba) as [-> _], (ack_buf bb) as [-> _]. exact (vi_excl _ I _ _ _ _ Ca Cb Hne).
  - intros i' b' C. unfold usable. destruct (ack_buf b') as [-> ->]. exact (vi_usable _ I _ _ C).
  - unfold flight. rewrite ack_finished. apply ack_nodup.
  - intros h'. rewrite ack_flight, (vi_flight _ I). split.
    + intros [(i' & b' & w' & H' & Hv) Hne]. exists i', b', w'. split; [done|]. by rewrite ack_disk, decide_False by (by eapply ack_other).
    + intros (i' & b' & w' & H' & Hv). rewrite ack_disk in Hv. destruct (decide (b' = b)) as [->|Hb]; [done|]. split; [by exists i', b', w'|].
      intros ->. by destruct (waits_unique _ _ _ _ _ _ _ _ I H H') as (_ & <- & _).
  - intros i' b' w' h' H'. destruct (decide (h' = h)) as [->|Hne]; [done|].
    rewrite ack_disk, decide_False by (by eapply ack_other). exact (vi_status _ I _ _ _ _ H').
  - destruct (vi_idx _ I) as (? & ? & ? & _). split; [done|]. split; [done|]. split; [done|apply u16_range].
  - intros i' [Hs Hc]%wakeup_sleep. change (at_v (set_disk b 0 s) i') with (at_v s i') in Hc. apply (vi_sleep _ I) in Hs. change (at_v s' i') with (at_v s i').
    destruct (at_v s i'); [done..|]. rewrite ack_disk, decide_False; [done|]. intros ->. done.
Qed.
End acked.

(** A request has been answered with an error that is still to be reported. *)
Definition failed (s : vst) : Prop := exists h, h ∈ finished s /\ info_status s h <> 0.

Lemma intr_loop_S fuel s : intr_loop (S fuel) s =
  (if used_idx s =? used_hd s then Ret tt s
   else let id := used_ring s (used_idx s mod NUM) in
        if negb (info_status s id =? 0) then Panic "virtio_disk_intr status"
        else match info_b s id with None => Panic "kerneltrap" | Some b => intr_loop fuel (acked b s) end).
Proof.
  cbn [intr_loop]. unfold mbind at 1, M_bind at 1, getS. destruct (_ =? _); [done|]. destruct (negb _); [done|]. by destruct (info_b s _).
Qed.

Lemma intr_loop_run fuel : forall s, vinv s -> (length (finished s) < fuel)%nat ->
  (exists s', intr_loop fuel s = Ret tt s' /\ vinv s' /\ calm s s' /\ finished s' = [] /\ ~ failed s) \/
  (intr_loop fuel s = Panic "virtio_disk_intr status" /\ failed s).
Proof.
  induction fuel as [|fuel IH]; intros s I Hl; [lia|]. rewrite intr_loop_S.
  destruct (vi_idx _ I) as (_ & _ & Hh & Hu). destruct (Z.eqb_spec (used_idx s) (used_hd s)) as [E|E].
  - assert (Ef : finished s = []) by (unfold finished; by rewrite (proj2 (u16_zero _ _ Hh Hu) E)).
    left. exists s. split; [done|]. split; [done|]. split; [apply calm_refl|]. split; [done|].
    intros (h & Hin & _). rewrite Ef in Hin. by apply elem_of_nil in Hin.
  - assert (Ef : exists rest, finished s = used_ring s (used_idx s mod NUM) :: rest).
    { unfold finished. pose proof (u16_zero _ _ Hh Hu). pose proof (u16_range (used_hd s - used_idx s)).
      destruct (Z.to_nat (u16 (used_hd s - used_idx s))) as [|n] eqn:En; [lia|]. rewrite ring_S. by eexists. }
    destruct Ef as [rest Ef]. cbv zeta. set (id := used_ring s (used_idx s mod NUM)) in *.
    destruct (Z.eqb_spec (info_status s id) 0) as [Est|Est]; cbn [negb]; cbn match.
    2:{ right. split; [reflexivity|]. exists id. rewrite Ef. split; [set_solver|done]. }
    destruct (proj1 (vi_flight _ I id)) as (i & b & w & H & Hv); [unfold flight; rewrite Ef; set_solver|].
    rewrite (rq_b _ _ _ _ (vi_req _ I _ _ _ _ H)). pose proof (ack_finished s b id rest Ef) as Efin.
    assert (Hfail : failed s <-> failed (acked b s)).
    { unfold failed. rewrite Efin, Ef. split; intros (h & Hin & Hs); exists h; (split; [|done]); [|set_solver].
      apply elem_of_cons in Hin as [->|Hin]; [by destruct Hs|done]. }
    destruct (IH (acked b s)) as [(s' & R & I' & C & Hfin & Hok)|[R Hf]]; [by eapply vinv_acked| |..].
    { rewrite Efin. rewrite Ef in Hl. cbn in Hl. lia. }
    + left. exists s'. split; [exact R|]. split; [done|]. split; [eapply calm_trans; [apply ack_calm|exact C]|]. by rewrite Hfail.
    + right. by rewrite Hfail.
Qed.

Lemma intr_run s : vinv s ->
  (exists s', virtio_disk_intr s = Ret tt s' /\ vinv s' /\ calm s s' /\ finished s' = [] /\ ~ failed s) \/
  (virtio_disk_intr s = Panic "virtio_disk_intr status" /\ failed s).
Proof. intros I. apply intr_loop_run; [done|]. unfold finished. rewrite length_ring. lia. Qed.

(** ** The device *)
(** It takes a request off the avail ring. *)
Lemma fetch_queued s : vinv s -> seen s <> avail_idx s ->
  exists h rest, queued s = h :: rest /\ queued (fetch s) = rest /\ work (fetch s) = work s ++ [h].
Proof.
  intros I Hne. destruct (vi_idx _ I) as (Ha & Hs & _). pose proof (u16_zero _ _ Ha Hs). pose proof (u16_range (avail_idx s - seen s)).
  unfold queued. destruct (Z.to_nat (u16 (avail_idx s - seen s))) as [|n] eqn:En; [lia|]. rewrite ring_S. eexists _, _. split; [reflexivity|]. split; [|done].
  cbn. rewrite (u16_take _ _ n), Nat2Z.id by lia. done.
Qed.

Lemma vinv_fetch s : vinv s -> seen s <> avail_idx s -> vinv (fetch s).
Proof.
  intros I Hne. destruct (fetch_queued s I Hne) as (h & rest & Eq & Eq' & Ew).
  assert (Hp : flight (fetch s) ≡ₚ flight s).
  { unfold flight. rewrite Eq, Eq', Ew. change (finished (fetch s)) with (finished s). solve_Permutation. }
  destruct I as [H1 H2 H3 H4 H5 H6 H7 H8 H9 H10 H11]. split; try assumption.
  - intros i b w h' H%H2. by destruct H.
  - by rewrite Hp.
  - intros h'. rewrite Hp. apply H8.
  - destruct H10 as (? & ? & ?). split; [done|]. split; [apply u16_range|done].
Qed.

Lemma calm_fetch s : vinv s -> seen s <> avail_idx s -> queued (fetch s) ++ work (fetch s) ≡ₚ queued s ++ work s.
Proof. intros I Hne. destruct (fetch_queued s I Hne) as (h & rest & -> & -> & ->). solve_Permutation. Qed.

(** It answers one. *)
Definition performed (b : nat) (w : bool) (h st : Z) (data : list Z) (s : vst) : vst :=
  answer w b (BSIZE * vb_blockno (vbufs s b)) h st data s.

Lemma decode_run s b w h : req_ok s b w h -> usable (vbufs s b) -> decode h s = Some (w, b, BSIZE * vb_blockno (vbufs s b), h).
Proof.
  intros [_ H0 H1 H2 Ho _ _] [_ Hl]. unfold decode. fold (c1 s h). fold (c2 s h). rewrite H0, H1, H2. cbn [addr len flags].
  rewrite Ho. cbn [type reserved sector]. rewrite Hl.
  replace (512 * (2 * vb_blockno (vbufs s b))) with (BSIZE * vb_blockno (vbufs s b)) by (unfold BSIZE; lia). by destruct w.
Qed.

(** A request that is being filled in, on descriptors that were free, is not seen
    by the device: it finds the requests it has and those on the avail ring as
    they were, with the same bytes to transfer. *)
Lemma ring_snoc r a n : ring r a (S n) = ring r a n ++ [r ((a + Z.of_nat n) mod NUM)].
Proof. unfold ring. replace (S n) with (n + 1)%nat by lia. rewrite zseq_app, fmap_app. cbn. by rewrite Z.add_0_r, Z.mul_1_l. Qed.

Lemma fill_unseen s s1 i b w i0 i1 i2 :
  vinv s -> ready s i b -> taken [i0; i1; i2] s s1 -> NoDup [i0; i1; i2] ->
  Forall (fun j => 0 <= j < NUM /\ dfree s j = 1) [i0; i1; i2] ->
  exists s2, fill_request b w i0 i1 i2 s1 = Ret tt s2 /\
    (seen s2 = seen s /\ avail_idx s2 = avail_idx s) /\ queued s2 = queued s /\ work s2 = work s /\ platter s2 = platter s /\
    (forall b', vb_data (vbufs s2 b') = vb_data (vbufs s b')) /\ forall h, h ∈ flight s -> decode h s2 = decode h s.
Proof.
  intros I R T Hd Hf. destruct (core_eq _ _ (tk_core _ _ _ T)) as (E1 & E2 & E3 & E4 & E5 & E6 & E7 & E8 & E9 & E10 & E11 & E12 & E13).
  assert (U : usable (vbufs s1 b)) by (rewrite E9; apply R). exists (filled b w i0 i1 i2 s1). split; [by apply fill_run|].
  set (s2 := filled b w i0 i1 i2 s1). set (s' := sleep_at i (VWait b w i0) (submitted b w i0 i1 i2 s1)).
  assert (Hb : forall b', vbufs s2 b' = vbufs s' b') by done.
  assert (Hbno : forall b', vb_blockno (vbufs s' b') = vb_blockno (vbufs s b')) by (intros b'; by eapply sub_blockno).
  split; [by split|]. split; [|split; [done|split; [done|split]]].
  - pose proof (sub_queued s s1 i b w i0 i1 i2 I T Hf) as Q. unfold queued in *. fold s' in Q.
    change (avail_ring s') with (avail_ring s2) in Q. change (seen s') with (seen s2) in Q. change (avail_idx s2) with (avail_idx s1). rewrite E1.
    change (seen s2) with (seen s1) in *. rewrite E10 in *. set (n := Z.to_nat (u16 (avail_idx s - seen s))) in *.
    assert (En : Z.to_nat (u16 (avail_idx s' - seen s')) = S n).
    { apply (f_equal length) in Q. rewrite length_app, !length_ring in Q. cbn [length] in Q. rewrite <- E10 in Q. change (seen s1) with (seen s') in Q. lia. }
    change (seen s') with (seen s1) in En. rewrite E10 in En. rewrite En, ring_snoc in Q. by apply app_inj_tail in Q as [? _].
  - intros b'. rewrite Hb. unfold s'. destruct (decide (b' = b)) as [->|Hn]; [by erewrite (sub_vbuf_new s)|by erewrite (sub_vbuf s)].
  - intros h (i' & b' & w' & H & _)%(vi_flight _ I). destruct (sub_waits_old s s1 i b w i0 i1 i2 R T _ _ _ _ H) as [Hn H'].
    assert (Q : req_ok s' b' w' h) by (eapply vi_req; [by apply (vinv_submit s)|done]). assert (C : in_call s i' b') by (by eapply waits_in_call).
    rewrite (decode_run s b' w' h) by (by eapply vi_req || by eapply vi_usable). rewrite (decode_run s2 b' w' h).
    + by rewrite Hb, Hbno.
    + destruct Q. by split.
    + rewrite Hb. unfold s'. erewrite (sub_vbuf s) by (done || by eapply rd_excl). by eapply vi_usable.
Qed.

Section finish.
Context (s : vst) (i b : nat) (w : bool) (h st : Z) (data : list Z) (l1 l2 : list Z).
Context (I : vinv s) (H : waits s i b w h) (Ew : work s = l1 ++ h :: l2) (Hd : length data = length (vb_data (vbufs s b))).
Let s' : vst := finish h (l1 ++ l2) (performed b w h st data s).

Lemma fin_same b' : vb_blockno (vbufs s' b') = vb_blockno (vbufs s b') /\ vb_disk (vbufs s' b') = vb_disk (vbufs s b') /\ length (vb_data (vbufs s' b')) = length (vb_data (vbufs s b')).
Proof. clear H. unfold s', performed, answer. destruct w; [done|]. cbn. unfold upd. by destruct (Nat.eqb_spec b' b) as [->|]. Qed.

Lemma fin_fields : desc s' = desc s /\ dfree s' = dfree s /\ info_b s' = info_b s /\ ops s' = ops s /\ at_v s' = at_v s /\ asleep s' = asleep s /\
  avail_idx s' = avail_idx s /\ avail_ring s' = avail_ring s /\ seen s' = seen s /\ used_idx s' = used_idx s /\ used_hd s' = u16 (used_hd s + 1) /\
  used_ring s' = zupd (used_ring s) (used_hd s mod NUM) h /\ info_status s' = zupd (info_status s) h st /\ work s' = l1 ++ l2.
Proof. clear H. unfold s', performed, answer. destruct w; by split_and!. Qed.

Lemma fin_finished : finished s' = finished s ++ [h].
Proof.
  destruct fin_fields as (_ & _ & _ & _ & _ & _ & _ & _ & _ & E1 & E2 & E3 & _).
  assert (Hlen : (length (finished s) < 8)%nat).
  { pose proof (vi_nodup _ I) as N. pose proof (at_most_NUM _ N (fun x Hx => proj1 (flight_range s x I Hx))) as L.
    unfold flight in L. rewrite Ew in L. rewrite !length_app in L. cbn in L. lia. }
  unfold finished in *. rewrite length_ring in Hlen. set (n := Z.to_nat (u16 (used_hd s - used_idx s))) in *.
  assert (En : u16 (used_hd s - used_idx s) = Z.of_nat n) by (unfold n; pose proof (u16_range (used_hd s - used_idx s)); lia).
  destruct (vi_idx _ I) as (_ & _ & ? & ?).
  rewrite E1, E2, E3, (u16_put _ _ n), Nat2Z.id by done. rewrite <- ring_push by done. do 2 f_equal.
  rewrite <- En. unfold u16. rewrite <- (u16_NUM (used_idx s + _)). unfold u16. rewrite Zplus_mod_idemp_r, (Z.mod_small (used_idx s + _)); f_equal; lia.
Qed.

Lemma fin_queued : queued s' = queued s.
Proof. destruct fin_fields as (_ & _ & _ & _ & _ & _ & E1 & E2 & E3 & _). unfold queued. by rewrite E1, E2, E3. Qed.

Lemma fin_flight : flight s' ≡ₚ flight s.
Proof.
  destruct fin_fields as (_ & _ & _ & _ & _ & _ & _ & _ & _ & _ & _ & _ & _ & E). unfold flight. rewrite fin_queued, fin_finished, E, Ew.
  apply Permutation_app_head. rewrite (Permutation_app_comm (finished s) [h]), <- !app_assoc. apply Permutation_app_head. cbn. symmetry. apply Permutation_middle.
Qed.

Lemma vinv_finish : vinv s'.
Proof.
  destruct fin_fields as (E1 & E2 & E3 & E4 & E5 & E6 & E7 & _ & E8 & E9 & E10 & _ & E12 & _).
  assert (Hc : forall h', chain s' h' = chain s h') by (intros h'; apply chain_frame; intros; by rewrite E1).
  assert (Hi : forall i' b', in_call s' i' b' <-> in_call s i' b') by (intros; apply in_call_other; by rewrite E5).
  split; rewrite ?E2, ?E5, ?E6, ?E7, ?E8, ?E9, ?E10, ?E12; try apply I.
  - intros i' b' w' h' H'. eapply req_frame; [exact (vi_req _ I _ _ _ _ H')|..]; rewrite ?E1, ?E2, ?E3, ?E4; [done..|apply fin_same].
  - intros ia ba wa ha ib bb wb hb Ha Hb. rewrite !Hc. by eapply vi_apart.
  - intros j Hj Hz. destruct (vi_owned _ I j Hj Hz) as (i' & b' & w' & h' & H'). exists i', b', w', h'. by rewrite Hc.
  - intros ia ba ib bb. rewrite !Hi, !(proj1 (fin_same _)). apply I.
  - intros i' b'. rewrite Hi. intros [U1 U2]%(vi_usable _ I). unfold usable. destruct (fin_same b') as (-> & _ & ->). done.
  - rewrite fin_flight. apply I.
  - intros h'. rewrite fin_flight, (vi_flight _ I). do 3 (apply exist_proper; intros ?). by rewrite (proj1 (proj2 (fin_same _))).
  - intros i' b' w' h' H'. rewrite (proj1 (proj2 (fin_same _))). unfold zupd.
    destruct (Z.eqb_spec h' h) as [->|]; [|exact (vi_status _ I _ _ _ _ H')]. intros Hv. exfalso. apply Hv.
    destruct (proj1 (vi_flight _ I h)) as (i1 & b1 & w1 & H1 & Hv1); [unfold flight; rewrite Ew; set_solver|].
    by destruct (waits_unique _ _ _ _ _ _ _ _ I H' H1) as (_ & -> & _).
  - destruct (vi_idx _ I) as (? & ? & _ & ?). split; [done|]. split; [done|]. split; [apply u16_range|done].
  - intros i' Hs%(vi_sleep _ I). destruct (at_v s i'); [done..|]. by rewrite (proj1 (proj2 (fin_same _))).
Qed.
End finish.

(** ** A buffer nobody transfers is changed *)
Lemma vinv_edit s b x : vinv s -> (forall i, ~ in_call s i b) -> vinv (set_vbuf b x s).
Proof.
  intros I Hb. set (s' := set_vbuf b x s).
  assert (E : forall i b', in_call s i b' -> vbufs s' b' = vbufs s b') by (intros i b' C; cbn; apply upd_ne; intros ->; by apply (Hb i)).
  assert (Ew : forall i b' w h, waits s i b' w h -> vbufs s' b' = vbufs s b') by (intros i b' w h H; eapply E, waits_in_call; done).
  split; try apply I.
  - intros i b' w h H. eapply req_frame; [exact (vi_req _ I _ _ _ _ H)|done|done|done|]. by erewrite Ew.
  - intros i b1 i' b2 C C' Hne. rewrite (E _ _ C), (E _ _ C'). exact (vi_excl _ I _ _ _ _ C C' Hne).
  - intros i b' C. rewrite (E _ _ C). exact (vi_usable _ I _ _ C).
  - intros h. etransitivity; [exact (vi_flight _ I h)|]. split; intros (i & b' & w & H & Hv); exists i, b', w; (split; [done|]); [by erewrite Ew|by erewrite <- Ew].
  - intros i b' w h H. rewrite (Ew _ _ _ _ H). exact (vi_status _ I _ _ _ _ H).
  - intros i Hs. pose proof (vi_sleep _ I i Hs) as G. change (at_v s' i) with (at_v s i). destruct (at_v s i) eqn:Ei; [done|done|]. by erewrite Ew.
Qed.
