(* ===== verification/VirtioSpec.v ===== *)
(** What the disk driver promises.

    [astate] is the disk as its callers see it: buffers, the bytes of the disk,
    and for each process whether it is in a call of [virtio_disk_rw] and whether
    the call has taken effect, or the device has answered it with an error.  A
    call has its whole effect in one step, between its beginning and its end; one
    that failed never returns, since the kernel panics when it takes the
    interrupt.  Every run of the driver with the device is such a run. *)
From S2P Require Import Prelude Riscv PhysMem Spinlock Bio Virtio VirtioProofs.

Inductive acall : Type := AIdle | ACalled (b : nat) (w : bool) | ADone (b : nat) (w : bool) | AFailed (b : nat) (w : bool).
Record astate : Type := mkA { a_buf : nat -> Z * list Z; a_disk : Z -> Z; a_call : nat -> acall }.

#[global] Instance astate_equiv : Equiv astate := fun a a' =>
  (forall b, a_buf a b = a_buf a' b) /\ (forall x, a_disk a x = a_disk a' x) /\ forall i, a_call a i = a_call a' i.

#[global] Instance astate_equivalence : Equivalence (≡@{astate}).
Proof.
  split; [by intros a|intros a a' (H1 & H2 & H3); by split_and!|].
  intros a a' a'' (H1 & H2 & H3) (H4 & H5 & H6). split_and!; intros; congruence.
Qed.

Definition call_step (a a' : astate) (i : nat) (c : acall) : Prop := a_call a' i = c /\ forall j, j <> i -> a_call a' j = a_call a j.
Definition same_mem (a a' : astate) : Prop := (forall b, a_buf a' b = a_buf a b) /\ forall x, a_disk a' x = a_disk a x.

(** [data] goes to the block of buffer [b] on the disk, or into the buffer. *)
Definition moved (b : nat) (w : bool) (data : list Z) (a a' : astate) : Prop :=
  let bno := fst (a_buf a b) in
  if w then (forall b', a_buf a' b' = a_buf a b') /\ forall x, a_disk a' x = write_at (a_disk a) (BSIZE * bno) data x
  else a_buf a' b = (bno, data) /\ (forall b', b' <> b -> a_buf a' b' = a_buf a b') /\ forall x, a_disk a' x = a_disk a x.

(** The transfer of one block: what [Bio.virtio_disk_rw] does. *)
Definition transfer (b : nat) (w : bool) (a a' : astate) : Prop :=
  let '(bno, data) := a_buf a b in
  moved b w (if w then data else block_at (a_disk a) (BSIZE * bno) BSIZE) a a'.

(** A transfer that failed: the target, and nothing else, may have any bytes. *)
Definition spoilt (b : nat) (w : bool) (a a' : astate) : Prop :=
  exists data, length data = length (snd (a_buf a b)) /\ moved b w data a a'.

Inductive astep (a a' : astate) : option label -> Prop :=
  | as_call i b w : a_call a i = AIdle -> call_step a a' i (ACalled b w) -> same_mem a a' -> astep a a' (Some (LCall i b w))
  | as_effect i b w : a_call a i = ACalled b w -> call_step a a' i (ADone b w) -> transfer b w a a' -> astep a a' None
  | as_fail i b w : a_call a i = ACalled b w -> call_step a a' i (AFailed b w) -> spoilt b w a a' -> astep a a' (Some LError)
  | as_return i b w : a_call a i = ADone b w -> call_step a a' i AIdle -> same_mem a a' -> astep a a' (Some (LRet i))
  | as_edit b bno data : (forall i w, a_call a i <> ACalled b w /\ a_call a i <> ADone b w /\ a_call a i <> AFailed b w) -> (forall i, a_call a' i = a_call a i) ->
      a_buf a' b = (bno, data) -> (forall b', b' <> b -> a_buf a' b' = a_buf a b') -> (forall x, a_disk a' x = a_disk a x) ->
      astep a a' (Some (LEdit b bno data)).

Definition astart (bs : nat -> vbuf) (p : Z -> Z) : astate :=
  mkA (fun b => (vb_blockno (bs b), vb_data (bs b))) p (fun _ => AIdle).

Inductive aruns bs p : list label -> astate -> Prop :=
  | ar_start : aruns bs p [] (astart bs p)
  | ar_step tr a l a' : aruns bs p tr a -> astep a a' l -> aruns bs p (tr ++ option_list l) a'.

(** What a step does depends on the state up to equivalence. *)
Lemma block_at_ext p p' a n : (forall x, p x = p' x) -> block_at p a n = block_at p' a n.
Proof. intros H. apply list_fmap_ext. intros. apply H. Qed.

Lemma write_at_ext p p' a l x : (forall x, p x = p' x) -> write_at p a l x = write_at p' a l x.
Proof. intros H. unfold write_at. by destruct (inr _ _ _). Qed.

#[global] Instance moved_proper b w data : Proper ((≡) ==> eq ==> impl) (moved b w data).
Proof.
  intros a1 a2 (Hb & Hd & Hc) a' ? <-. unfold moved. rewrite <- Hb. destruct w; [intros [H4 H5]|intros (H4 & H5 & H6)].
  - split; [intros; by rewrite <- Hb|]. intros x. rewrite H5. by apply write_at_ext.
  - split_and!; [done|intros; rewrite <- Hb; by apply H5|intros; by rewrite <- Hd].
Qed.

#[global] Instance astep_proper : Proper ((≡) ==> eq ==> eq ==> impl) astep.
Proof.
  intros a1 a2 E a' ? <- l ? <- H. pose proof E as (Hb & Hd & Hc).
  assert (Hcall : forall i c, call_step a1 a' i c -> call_step a2 a' i c) by (intros i c [? H3]; split; [done|]; intros; rewrite <- Hc; by apply H3).
  assert (Hmem : same_mem a1 a' -> same_mem a2 a') by (intros [? ?]; split; intros; rewrite <- ?Hb, <- ?Hd; by auto).
  destruct H as [i b w H1 H2 H3|i b w H1 H2 H3|i b w H1 H2 (data & Hl & H3)|i b w H1 H2 H3|b bno data H1 H2 H3 H4 H5].
  - apply as_call; [by rewrite <- Hc|by apply Hcall|by apply Hmem].
  - apply (as_effect _ _ i b w); [by rewrite <- Hc|by apply Hcall|]. unfold transfer in *. rewrite <- Hb.
    destruct (a_buf a1 b) as [bno data]. apply (moved_proper _ _ _ _ _ E _ _ eq_refl) in H3.
    destruct w; [done|]. by rewrite (block_at_ext (a_disk a2) (a_disk a1)).
  - apply (as_fail _ _ i b w); [by rewrite <- Hc|by apply Hcall|]. exists data. rewrite <- Hb. split; [done|]. by apply (moved_proper _ _ _ _ _ E _ _ eq_refl).
  - apply (as_return _ _ i b w); [by rewrite <- Hc|by apply Hcall|by apply Hmem].
  - apply as_edit; [intros; rewrite <- Hc; by apply H1|intros; by rewrite <- Hc|done|intros; rewrite <- Hb; by apply H4|intros; by rewrite <- Hd].
Qed.

(** ** The driver's state as such a state *)
Definition acall_of (s : vst) (i : nat) : acall :=
  match at_v s i with
  | VOut => AIdle
  | VStart b w => ACalled b w
  | VWait b w h =>
      if decide (h ∈ queued s ++ work s) then ACalled b w else if info_status s h =? 0 then ADone b w else AFailed b w
  end.
Definition abs_of (s : vst) : astate := mkA (fun b => (vb_blockno (vbufs s b), vb_data (vbufs s b))) (platter s) (acall_of s).

(** The bytes of the block a finished call was about are those of the buffer. *)
Definition synced (s : vst) : Prop := forall i b w h, waits s i b w h -> h ∉ queued s ++ work s -> info_status s h = 0 ->
  block_at (platter s) (BSIZE * vb_blockno (vbufs s b)) BSIZE = vb_data (vbufs s b).

Lemma acall_of_ext s s' i : at_v s' i = at_v s i ->
  (forall b w h, waits s i b w h -> (h ∈ queued s' ++ work s' <-> h ∈ queued s ++ work s) /\ info_status s' h = info_status s h) ->
  acall_of s' i = acall_of s i.
Proof.
  intros E H. unfold acall_of. rewrite E. destruct (at_v s i) as [| |b w h]; [done..|]. destruct (H b w h eq_refl) as [Hi ->]. by apply decide_ext.
Qed.

Lemma failed_ext s s' : vinv s -> finished s' = finished s -> (forall i b w h, waits s i b w h -> info_status s' h = info_status s h) ->
  failed s' <-> failed s.
Proof.
  intros I E H. unfold failed. rewrite E. apply exist_proper. intros h. split; intros [Hin Hs]; (split; [done|]);
    (destruct (proj1 (vi_flight _ I h)) as (i & b & w & Hw & _); [unfold flight; set_solver|]); specialize (H _ _ _ _ Hw); congruence.
Qed.

Lemma calm_abs s s' : calm s s' -> abs_of s' ≡ abs_of s.
Proof.
  intros [H1 H2 H3 H4 H5]. split_and!; cbn.
  - intros b. by destruct (H2 b) as [-> ->].
  - intros x. by rewrite H3.
  - intros i. apply acall_of_ext; [apply H1|intros; by rewrite H4, H5].
Qed.

Lemma calm_synced s s' : calm s s' -> synced s -> synced s'.
Proof.
  intros [H1 H2 H3 H4 H5] S i b w h. rewrite (H1 i), H3, H4, H5. destruct (H2 b) as [-> ->]. apply S.
Qed.

(** ** Every step is one of the specification, or changes nothing the callers see *)
Definition simulated (s s' : vst) (l : option label) : Prop :=
  vinv s' /\ (synced s -> synced s') /\ (failed s' <-> failed s \/ l = Some LError) /\ (astep (abs_of s) (abs_of s') l \/ l = None /\ abs_of s' ≡ abs_of s).

(** A call that starts or goes back to sleep. *)
Lemma start_sim s i b w s' : vinv s -> ready s i b -> virtio_disk_rw i b w s = Ret false s' ->
  vinv s' /\ (synced s -> synced s') /\ (failed s' <-> failed s) /\ same_mem (abs_of s) (abs_of s') /\ call_step (abs_of s) (abs_of s') i (ACalled b w).
Proof.
  intros I R E. destruct (rw_run s i b w I R) as (s0 & E0 & I' & Hb & Hp & [Hfin Hst] & Hat). assert (s0 = s') as -> by congruence. clear E E0.
  split; [done|].
  assert (Hmem : same_mem (abs_of s) (abs_of s')) by (split; cbn; [intros b'; by destruct (Hb b') as [-> ->]|intros x; by rewrite Hp]).
  assert (Hother : forall j, j <> i -> at_v s' j = at_v s j) by (intros j Hj; destruct Hat as [[-> _]|(h & -> & _)]; by rewrite upd_ne).
  assert (Hset : forall j b' w' h', j <> i -> waits s j b' w' h' -> h' ∈ queued s' ++ work s' <-> h' ∈ queued s ++ work s).
  { intros j b' w' h' Hj H. destruct Hat as [(_ & -> & _)|(h & Ea & -> & -> & _)]; [done|].
    assert (h' <> h); [|set_solver]. intros ->. rewrite <- Hother in H by done.
    destruct (waits_unique s' j b' w' h i b w I' H) as [? _]; [by rewrite Ea, upd_eq|done]. }
  split; [|split; [by apply failed_ext|split; [exact Hmem|split]]].
  - intros Hs j b' w' h' H Hn H0. destruct (decide (j = i)) as [->|Hj].
    + exfalso. destruct Hat as [[Ea _]|(h & Ea & Eq & Ew & _)]; rewrite Ea, upd_eq in H; [done|]. injection H as <- <- <-. rewrite Eq in Hn. set_solver.
    + rewrite Hother in H by done. rewrite (Hset _ _ _ _ Hj H) in Hn. rewrite Hp. destruct (Hb b') as [-> ->].
      rewrite (Hst _ _ _ _ H) in H0. by eapply Hs.
  - cbn. unfold acall_of. destruct Hat as [[-> _]|(h & -> & -> & -> & _)]; rewrite upd_eq; [done|]. rewrite decide_True; [done|set_solver].
  - intros j Hj. cbn. apply acall_of_ext; [by apply Hother|]. intros b' w' h' H. split; [by eapply Hset|by eapply Hst].
Qed.

Lemma wait_sim s i b w h s' : vinv s -> waits s i b w h -> rw_wait i b w h s = Ret false s' -> simulated s s' None.
Proof.
  intros I H. destruct (Z.eq_dec (vb_disk (vbufs s b)) 1) as [Hv|Hv].
  2:{ rewrite (return_run s i b w h) by (done || by eapply vi_req). discriminate. }
  unfold rw_wait, mbind at 1, M_bind at 1, getS. rewrite Hv. intros [= <-].
  assert (C : calm s (sleep_at i (VWait b w h) s)).
  { split; [|done..]. intros j. cbn. unfold upd. by destruct (Nat.eqb_spec j i) as [->|]. }
  split; [|split; [by apply calm_synced|split; [naive_solver|right; split; [done|by apply calm_abs]]]].
  apply vinv_procs; [done|apply C|]. intros j. unfold upd. destruct (Nat.eqb_spec j i) as [->|]; [|by left]. intros _. right. by exists b, w, h.
Qed.

Lemma return_sim s i b w h s' : vinv s -> waits s i b w h -> asleep s i = false -> rw_wait i b w h s = Ret true s' ->
  simulated s s' (Some (LRet i)).
Proof.
  intros I H Ha E. destruct (Z.eq_dec (vb_disk (vbufs s b)) 1) as [Hv|Hv].
  { revert E. unfold rw_wait, mbind at 1, M_bind at 1, getS. rewrite Hv. discriminate. }
  rewrite (return_run s i b w h) in E by (done || by eapply vi_req). injection E as <-.
  assert (Hother : forall j, j <> i -> acall_of (returned i h s) j = acall_of s j).
  { intros j Hj. apply acall_of_ext; [cbn; by rewrite upd_ne|done]. }
  split; [by eapply vinv_returned|]. split; [|split; [naive_solver|]].
  - intros Hs j b' w' h' Hw. apply ret_waits in Hw as [_ Hw]. exact (Hs j b' w' h' Hw).
  - left. apply (as_return _ _ i b w).
    + cbn. unfold acall_of. rewrite H, decide_False; [by rewrite (vi_status _ I _ _ _ _ H Hv)|]. pose proof (ret_not_flight s i b w h I H Hv) as Hn. unfold flight in Hn. set_solver.
    + split; [|exact Hother]. cbn. unfold acall_of. cbn. by rewrite upd_eq.
    + by split.
Qed.

(** ** The device *)
Lemma block_write_same p a l : block_at (write_at p a l) a (Z.of_nat (length l)) = l.
Proof.
  apply list_eq. intros k. unfold block_at, zseq. rewrite Nat2Z.id, !list_lookup_fmap.
  destruct (decide (k < length l)%nat) as [Hk|Hk].
  - rewrite lookup_seq_lt by done. cbn [fmap option_fmap option_map]. rewrite Nat.add_0_l. unfold write_at, PhysMem.inr.
    rewrite (proj2 (Z.leb_le _ _)), (proj2 (Z.ltb_lt _ _)) by lia. cbn [andb].
    replace (Z.to_nat (a + 1 * Z.of_nat k - a)) with k by lia. symmetry. by apply list_lookup_lookup_total_lt.
  - rewrite lookup_seq_ge, lookup_ge_None_2 by lia. done.
Qed.

Lemma block_write_other p a l a' n : a' + n <= a \/ a + Z.of_nat (length l) <= a' -> block_at (write_at p a l) a' n = block_at p a' n.
Proof.
  intros Hd. apply list_fmap_ext. intros _ x (k & Hk & ->)%list_elem_of_lookup_2%elem_of_zseq. unfold write_at, PhysMem.inr.
  destruct (Z.leb_spec a (a' + 1 * k)), (Z.ltb_spec (a' + 1 * k) (a + Z.of_nat (length l))); cbn; try done. lia.
Qed.

Lemma fetch_sim s : vinv s -> seen s <> avail_idx s -> simulated s (fetch s) None.
Proof.
  intros I Hne. pose proof (calm_fetch s I Hne) as Hp. assert (Hh : forall h, h ∈ queued (fetch s) ++ work (fetch s) <-> h ∈ queued s ++ work s) by (intros h; by rewrite Hp).
  split; [by apply vinv_fetch|]. split; [|split; [naive_solver|right; split; [done|]]].
  - intros S i b w h H Hn. rewrite Hh in Hn. by eapply S.
  - split_and!; [done|done|]. intros i. apply acall_of_ext; [done|]. intros b w h _. split; [apply Hh|done].
Qed.

Section finish_sim.
Context (s : vst) (i b : nat) (w : bool) (h st : Z) (data : list Z) (l1 l2 : list Z).
Context (I : vinv s) (H : waits s i b w h) (Ew : work s = l1 ++ h :: l2) (Hd : length data = length (vb_data (vbufs s b))).
Let s' : vst := finish h (l1 ++ l2) (performed b w h st data s).

Lemma fin_todo h' : h' ∈ queued s' ++ work s' <-> h' ∈ queued s ++ work s /\ h' <> h.
Proof.
  pose proof (vi_nodup _ I) as N. unfold flight in N. rewrite Ew in N.
  assert (Hn : h ∉ queued s ++ l1 ++ l2).
  { apply NoDup_app in N as (_ & N1 & N2). apply NoDup_app in N2 as (N2 & _ & _). apply NoDup_app in N2 as (_ & N3 & [N4 _]%NoDup_cons).
    intros [Hq|[Hl|Hl]%elem_of_app]%elem_of_app; [apply (N1 h Hq); set_solver|apply (N3 h Hl); set_solver|done]. }
  destruct (fin_fields s b w h st data l1 l2) as (_ & _ & _ & _ & _ & _ & _ & _ & _ & _ & _ & _ & _ & E). fold s' in E.
  rewrite E. unfold s'. rewrite fin_queued, Ew. set_solver.
Qed.

Lemma fin_status h' : info_status s' h' = if decide (h' = h) then st else info_status s h'.
Proof.
  destruct (fin_fields s b w h st data l1 l2) as (_ & _ & _ & _ & _ & _ & _ & _ & _ & _ & _ & _ & E & _). fold s' in E. rewrite E.
  unfold zupd. destruct (Z.eqb_spec h' h) as [->|]; [by rewrite decide_True|by rewrite decide_False].
Qed.

Lemma fin_mem : if w then (forall b', vb_data (vbufs s' b') = vb_data (vbufs s b')) /\ platter s' = write_at (platter s) (BSIZE * vb_blockno (vbufs s b)) data
  else vb_data (vbufs s' b) = data /\ (forall b', b' <> b -> vb_data (vbufs s' b') = vb_data (vbufs s b')) /\ platter s' = platter s.
Proof.
  unfold s', performed, answer. destruct w; cbn; [done|]. split; [by rewrite upd_eq|]. split; [|done]. intros b' Hb. by rewrite upd_ne.
Qed.

Lemma fin_moved : moved b w data (abs_of s) (abs_of s').
Proof.
  unfold moved. cbn [abs_of a_buf a_disk fst]. pose proof fin_mem as M.
  assert (Hk := fun b' => proj1 (fin_same s b w h st data l1 l2 Hd b')). fold s' in Hk. destruct w; [destruct M as [M1 M2]|destruct M as (M1 & M2 & M3)].
  - split; [intros b'; by rewrite Hk, M1|intros x; by rewrite M2].
  - split; [by rewrite Hk, M1|]. split; [intros b' Hb; by rewrite Hk, M2|intros x; by rewrite M3].
Qed.

Lemma fin_other i' b' w' h' : waits s i' b' w' h' -> i' <> i -> h' <> h /\ b' <> b /\ vb_blockno (vbufs s b') <> vb_blockno (vbufs s b).
Proof.
  intros H' Hne. split; [intros ->; by destruct (waits_unique _ _ _ _ _ _ _ _ I H H') as [? _]|].
  exact (vi_excl _ I _ _ _ _ (waits_in_call _ _ _ _ _ H') (waits_in_call _ _ _ _ _ H) Hne).
Qed.

Lemma fin_at j : at_v s' j = at_v s j.
Proof. unfold s', performed, answer. by destruct w. Qed.

Lemma finish_synced : (st = 0 -> data = wanted w b (BSIZE * vb_blockno (vbufs s b)) s) -> synced s -> synced s'.
Proof.
  intros Hw S i' b' w' h' H' Hn Hst. assert (H0 : waits s i' b' w' h') by (by rewrite <- fin_at).
  destruct (vi_usable _ I _ _ (waits_in_call _ _ _ _ _ H)) as [_ Hl].
  pose proof (proj1 (fin_same s b w h st data l1 l2 Hd b')) as Hk'. fold s' in Hk'. rewrite Hk'. pose proof fin_mem as M. rewrite fin_status in Hst.
  destruct (decide (i' = i)) as [->|Hne].
  - assert (b' = b /\ h' = h) as [-> ->] by (split; congruence). rewrite decide_True in Hst by done. specialize (Hw Hst). unfold wanted in Hw.
    destruct w; [destruct M as [-> ->]; rewrite Hw; set (a := BSIZE * vb_blockno (vbufs s b)); rewrite <- Hl; apply block_write_same|].
    destruct M as (-> & _ & ->). by rewrite Hw, Hl.
  - destruct (fin_other _ _ _ _ H0 Hne) as (Hh & Hb & Hk). rewrite decide_False in Hst by done.
    assert (E : block_at (platter s) (BSIZE * vb_blockno (vbufs s b')) BSIZE = vb_data (vbufs s b')).
    { apply (S i' b' w' h' H0); [|done]. rewrite fin_todo in Hn. tauto. }
    destruct w; [destruct M as [-> ->]|destruct M as (_ & M & ->); by rewrite M]. rewrite block_write_other; [done|]. unfold BSIZE in *. lia.
Qed.

Lemma fin_call : a_call (abs_of s) i = ACalled b w /\ call_step (abs_of s) (abs_of s') i (if st =? 0 then ADone b w else AFailed b w).
Proof.
  split; [cbn; unfold acall_of; rewrite H, decide_True; [done|]; rewrite Ew; set_solver|]. split; cbn.
  - unfold acall_of. rewrite fin_at, H, decide_False, fin_status, decide_True; [done|done|]. rewrite fin_todo. tauto.
  - intros j Hj. apply acall_of_ext; [apply fin_at|]. intros b' w' h' H'. destruct (fin_other _ _ _ _ H' Hj) as [Hne _].
    rewrite fin_todo, fin_status, decide_False by done. tauto.
Qed.

Lemma fin_failed : failed s' <-> failed s \/ st <> 0.
Proof.
  assert (Hn : h ∉ finished s).
  { pose proof (vi_nodup _ I) as N. unfold flight in N. rewrite Ew, app_assoc in N. apply NoDup_app in N as (_ & N & _). apply N. set_solver. }
  unfold failed. pose proof (fin_finished s b w h st data l1 l2 I Ew Hd) as E. fold s' in E. rewrite E. split.
  - intros (h' & Hin & Hs). rewrite fin_status in Hs. destruct (decide (h' = h)) as [->|]; [by right|]. left. exists h'. set_solver.
  - intros [(h' & Hin & Hs)|Hs]; [exists h'|exists h]; rewrite fin_status; [rewrite decide_False by (by intros ->)|rewrite decide_True by done]; set_solver.
Qed.

(** An answer with status 0, and one with an error. *)
Lemma finish_sim : st = 0 -> data = wanted w b (BSIZE * vb_blockno (vbufs s b)) s -> simulated s s' None.
Proof.
  intros Hst Hw. split; [by apply (vinv_finish s i)|]. split; [by apply finish_synced|]. split; [rewrite fin_failed; naive_solver|]. left.
  destruct fin_call as [C1 C2]. rewrite Hst in C2. apply (as_effect _ _ i b w); [done|exact C2|]. unfold transfer. cbn [abs_of a_buf a_disk].
  pose proof fin_moved as M. rewrite Hw in M at 1. unfold wanted in M.
  destruct (vi_usable _ I _ _ (waits_in_call _ _ _ _ _ H)) as [_ Hl]. by rewrite Hl in M.
Qed.

Lemma error_sim : st <> 0 -> simulated s s' (Some LError).
Proof.
  intros Hst. split; [by apply (vinv_finish s i)|]. split; [by apply finish_synced|]. split; [rewrite fin_failed; naive_solver|]. left.
  destruct fin_call as [C1 C2]. rewrite (proj2 (Z.eqb_neq _ _) Hst) in C2. apply (as_fail _ _ i b w); [done|exact C2|].
  exists data. split; [done|apply fin_moved].
Qed.
End finish_sim.

Lemma length_wanted s b w a : length (wanted w b a s) = length (vb_data (vbufs s b)).
Proof. unfold wanted, block_at. destruct w; [done|]. by rewrite length_fmap, length_zseq, Nat2Z.id. Qed.

Lemma dev_sim s e s' : vinv s -> dev_rule s e s' -> simulated s s' (if e then Some LError else None).
Proof.
  assert (Hdec : forall h, vinv s -> h ∈ work s -> exists i b w, waits s i b w h /\ decode h s = Some (w, b, BSIZE * vb_blockno (vbufs s b), h)).
  { intros h I Hh. destruct (proj1 (vi_flight _ I h)) as (i & b & w & H & _); [unfold flight; set_solver|].
    exists i, b, w. split; [done|]. apply decode_run; [by eapply vi_req|by eapply vi_usable, waits_in_call]. }
  intros I [Hne|h l1 l2 w b a t Ew P|h l1 l2 w b a t st data Ew P Hst Hd|h s1 Hh P]; [by apply fetch_sim|..].
  1,2: destruct (Hdec h I) as (i & b' & w' & H & P'); [rewrite Ew; set_solver|]; rewrite P' in P; injection P as <- <- <- <-.
  - apply (finish_sim s i); [done..|apply length_wanted|done|done].
  - apply (error_sim s i); [done..|lia].
  - destruct (Hdec h I Hh) as (i & b' & w' & _ & P'). congruence.
Qed.

(** ** Runs *)
Lemma vinv_start bs p : vinv (virtio_start bs p).
Proof.
  assert (Hw : forall i b w h, ~ waits (virtio_start bs p) i b w h) by (intros ? ? ? ?; discriminate).
  assert (Hc : forall i b, ~ in_call (virtio_start bs p) i b) by (intros i b [(w & H)|(w & h & H)]; discriminate).
  split; try done; try (by right); try constructor; try (intros; exfalso; by eapply Hc).
  - by intros ?%elem_of_nil.
  - by intros (i & b & w & H & _).
Qed.

Section runs.
Context {BD : BlockDevice}.

Lemma step_sim s l s' : vinv s -> vstep s l s' -> simulated s s' l.
Proof.
  intros I [i b w s1 Ho He Hu E|i s1 Ha Ho E|i s1 Ha Ho E|s1 E|s1 E|s1 E|b bno data Hb].
  - assert (R : ready s i b). { split; [intros i' b' C _; by apply (He i')|done|intros ? ? ? ?; congruence]. }
    destruct (start_sim _ _ _ _ _ I R E) as (I' & S & F & M & C). split; [done|]. split; [done|]. split; [rewrite F; naive_solver|].
    left. apply as_call; [|done|done]. cbn. unfold acall_of. by rewrite Ho.
  - unfold rw_resume, mbind, M_bind, getS in E. destruct (at_v s i) as [|b w|b w h] eqn:Ei; [done| |by eapply wait_sim].
    destruct (start_sim _ _ _ _ _ I (ready_start _ _ _ _ I Ei) E) as (I' & S & F & [M1 M2] & [C1 C2]). split; [done|]. split; [done|].
    split; [rewrite F; naive_solver|]. right. split; [done|].
    split; [done|]. split; [done|]. intros j. destruct (decide (j = i)) as [->|]; [|by apply C2]. rewrite C1. cbn. unfold acall_of. by rewrite Ei.
  - unfold rw_resume, mbind, M_bind, getS in E. destruct (at_v s i) as [|b w|b w h] eqn:Ei; [done| |by eapply return_sim].
    destruct (rw_run s i b w I (ready_start _ _ _ _ I Ei)) as (s2 & E' & _). congruence.
  - destruct (intr_run s I) as [(s2 & E' & I' & C & Hfin & Hok)|[E' _]]; [|congruence]. assert (s2 = s1) as -> by congruence.
    split; [done|]. split; [by apply calm_synced|]. split; [|right; split; [done|by apply calm_abs]].
    split; [intros (h & Hin & _); rewrite Hfin in Hin; by apply elem_of_nil in Hin|naive_solver].
  - exact (dev_sim s false s1 I (dev_legal _ _ _ E)).
  - exact (dev_sim s true s1 I (dev_legal _ _ _ E)).
  - assert (Hne : forall i b' w h, waits s i b' w h -> b' <> b) by (intros i b' w h H ->; by eapply Hb, waits_in_call).
    split; [by apply vinv_edit|]. split; [|split; [naive_solver|left]].
    + intros S i b' w h H Hn. cbn. rewrite upd_ne by (by eapply Hne). by eapply S.
    + apply as_edit; [|done|cbn; by rewrite upd_eq|intros b' Hb'; cbn; by rewrite upd_ne|done].
      intros i w. cbn. unfold acall_of. destruct (at_v s i) as [|b0 w0|b0 w0 h0] eqn:Ei; [done| |].
      * assert (b0 <> b) by (intros ->; eapply (Hb i); left; by exists w0). split_and!; congruence.
      * pose proof (Hne _ _ _ _ Ei). destruct (decide _); [|destruct (_ =? 0)]; split_and!; congruence.
Qed.

Lemma runs_inv bs p tr s : vruns bs p tr s -> vinv s /\ synced s /\ (failed s <-> LError ∈ tr).
Proof.
  induction 1 as [|tr s l s' _ (I & S & F) Hs].
  - split; [apply vinv_start|]. split; [by intros i b w h ?|]. split; [intros (h & Hin & _); by apply elem_of_nil in Hin|by intros ?%elem_of_nil].
  - destruct (step_sim _ _ _ I Hs) as (I' & S' & F' & _). split; [done|]. split; [by apply S'|]. rewrite F', F, elem_of_app.
    destruct l as [l|]; cbn; [rewrite list_elem_of_singleton|rewrite elem_of_nil]; naive_solver.
Qed.

(** C11: every run of the driver with any device that keeps to the virtio
    specification, in which processes read and write blocks, interrupts arrive at
    any time and requests finish in any order, looks to the callers like a run in
    which each call transfers its block in one step between its beginning and its
    end, and nothing else of the buffers or of the disk changes.  When the device
    answers a request with an error (the event [LError]), the target of that
    transfer alone may have any bytes, and the call never returns. *)
Theorem virtio_refines bs p tr s : vruns bs p tr s -> exists a, aruns bs p tr a /\ a ≡ abs_of s.
Proof.
  induction 1 as [|tr s l s' Hr (a & Ha & E) Hs]; [exists (astart bs p); split; [constructor|done]|].
  destruct (step_sim _ _ _ (proj1 (runs_inv _ _ _ _ Hr)) Hs) as (_ & _ & _ & [A|[-> A]]).
  - exists (abs_of s'). split; [|done]. eapply ar_step; [exact Ha|]. by rewrite E.
  - exists a. split; [by rewrite app_nil_r|]. by rewrite E, A.
Qed.

Lemma resume_run s i : vinv s -> exists r s', rw_resume i s = Ret r s'.
Proof.
  intros I. unfold rw_resume, mbind, M_bind, getS. destruct (at_v s i) as [|b w|b w h] eqn:Ei; [by eexists _, _| |].
  - destruct (rw_run s i b w I (ready_start _ _ _ _ I Ei)) as (s' & E & _). by eexists _, _.
  - destruct (Z.eq_dec (vb_disk (vbufs s b)) 1) as [Hv|Hv].
    + eexists _, _. unfold rw_wait, mbind at 1, M_bind at 1, getS. rewrite Hv. reflexivity.
    + eexists _, _. apply return_run; [by eapply vi_req|done].
Qed.

(** C12: in every state of such a run a new call and a process that wakes up in
    a call run without a panic and to their end; the interrupt handler runs to its
    end as long as the device has answered no request with an error, and panics
    with its message on the first interrupt after such an answer; and when a call
    returns, which is then not one that failed, the block on the disk and the
    buffer have the same bytes. *)
Theorem virtio_safe bs p tr s : vruns bs p tr s ->
  (forall i b w, at_v s i = VOut -> exclusive s b -> usable (vbufs s b) -> exists s', virtio_disk_rw i b w s = Ret false s') /\
  (forall i, exists r s', rw_resume i s = Ret r s') /\
  (LError ∉ tr -> exists s', virtio_disk_intr s = Ret tt s') /\
  (LError ∈ tr -> virtio_disk_intr s = Panic "virtio_disk_intr status") /\
  (forall i s', vstep s (Some (LRet i)) s' -> exists b w h, at_v s i = VWait b w h /\ at_v s' i = VOut /\ info_status s h = 0 /\
     block_at (platter s') (BSIZE * vb_blockno (vbufs s' b)) BSIZE = vb_data (vbufs s' b)).
Proof.
  intros (I & S & F)%runs_inv. split; [|split; [|split; [|split]]].
  - intros i b w Ho He Hu. destruct (rw_run s i b w I) as (s' & E & _); [|by exists s'].
    split; [intros i' b' C _; by apply (He i')|done|intros ? ? ? ?; congruence].
  - intros i. by apply resume_run.
  - rewrite <- F. intros Hn. destruct (intr_run s I) as [(s' & E & _)|[_ ?]]; [by exists s'|done].
  - rewrite <- F. intros Hf. by destruct (intr_run s I) as [(s' & _ & _ & _ & _ & ?)|[E _]].
  - intros i s' Hs. inversion Hs as [|  |? ? Ha Ho E| | | |]; subst. unfold rw_resume, mbind, M_bind, getS in E.
    destruct (at_v s i) as [|b w|b w h] eqn:Ei; [done| |].
    + destruct (rw_run s i b w I (ready_start _ _ _ _ I Ei)) as (s2 & E' & _). congruence.
    + destruct (Z.eq_dec (vb_disk (vbufs s b)) 1) as [Hv|Hv].
      { revert E. unfold rw_wait, mbind at 1, M_bind at 1, getS. rewrite Hv. discriminate. }
      rewrite (return_run s i b w h) in E by (done || by eapply vi_req). injection E as <-. pose proof (vi_status _ I _ _ _ _ Ei Hv) as Hst.
      exists b, w, h. split; [done|]. split; [cbn; apply upd_eq|]. split; [done|]. apply (S i b w h Ei); [|done].
      pose proof (ret_not_flight s i b w h I Ei Hv) as Hn. unfold flight in Hn. set_solver.
Qed.

(** What moves the driver on: the device, the handler with a finished request to
    report, or an error that makes it panic. *)
Definition moves (s : vst) : Prop :=
  (exists e s', dev_step s e s') \/
  (exists s' j b' w' h', virtio_disk_intr s = Ret tt s' /\ waits s j b' w' h' /\ vb_disk (vbufs s b') = 1 /\ vb_disk (vbufs s' b') <> 1) \/
  (failed s /\ virtio_disk_intr s = Panic "virtio_disk_intr status").

(** A request that has been submitted can move on. *)
Lemma request_moves s i b w h : vinv s -> waits s i b w h -> moves s \/ (exists j s', asleep s j = false /\ rw_resume j s = Ret true s').
Proof.
  intros I H. unfold moves. destruct (decide (h ∈ flight s)) as [Hin|Hn].
  - left. unfold flight in Hin. apply elem_of_app in Hin as [Hq|[Hw|Hf]%elem_of_app].
    + left. apply dev_alive. left. intros E. destruct (vi_idx _ I) as (Ha & Hs & _). unfold queued in Hq. rewrite (proj2 (u16_zero _ _ Ha Hs) E) in Hq. by apply elem_of_nil in Hq.
    + left. apply dev_alive. right. intros E. rewrite E in Hw. by apply elem_of_nil in Hw.
    + right. destruct (intr_run s I) as [(s' & E & I' & C & Hfin & _)|[E Hx]]; [left|by right].
      destruct (proj1 (vi_flight _ I h)) as (j & b' & w' & H' & Hv); [unfold flight; set_solver|].
      exists s', j, b', w', h. split_and!; try done. intros Hv'.
      assert (Hh : h ∈ flight s') by (apply (vi_flight _ I'); exists j, b', w'; by rewrite (cm_at _ _ C)).
      unfold flight in Hh. rewrite Hfin, app_nil_r, (cm_todo _ _ C) in Hh. pose proof (vi_nodup _ I) as N. unfold flight in N.
      rewrite app_assoc in N. apply NoDup_app in N as (_ & N & _). by apply (N h).
  - right. assert (Hv : vb_disk (vbufs s b) <> 1) by (intros Hv; apply Hn, (vi_flight _ I); by exists i, b, w).
    exists i, (returned i h s). split.
    + destruct (asleep s i) eqn:Ea; [|done]. apply (vi_sleep _ I) in Ea. rewrite H in Ea. done.
    + unfold rw_resume, mbind, M_bind, getS. rewrite H. apply return_run; [by eapply vi_req|done].
Qed.

(** C13: no wakeup is lost and the driver is never stuck: as long as a
    process is in a call, the device has a request to serve, or the interrupt
    handler has a finished request to report, or a process that is awake will
    return or submit its request when it runs; the only other case is that the
    device has answered a request of the run with an error, for which the handler
    panics. *)
Theorem virtio_progress bs p tr s i b : vruns bs p tr s -> in_call s i b ->
  (exists e s', dev_step s e s') \/
  (exists s' j b' w' h', virtio_disk_intr s = Ret tt s' /\ waits s j b' w' h' /\ vb_disk (vbufs s b') = 1 /\ vb_disk (vbufs s' b') <> 1) \/
  (exists j s', asleep s j = false /\
    (rw_resume j s = Ret true s' \/ exists b' w' h, at_v s j = VStart b' w' /\ rw_resume j s = Ret false s' /\ waits s' j b' w' h)) \/
  (LError ∈ tr /\ virtio_disk_intr s = Panic "virtio_disk_intr status").
Proof.
  intros (I & _ & F)%runs_inv C.
  assert (Hmove : (exists j b' w h, waits s j b' w h) -> moves s \/ (exists j s', asleep s j = false /\
    (rw_resume j s = Ret true s' \/ exists b' w' h, at_v s j = VStart b' w' /\ rw_resume j s = Ret false s' /\ waits s' j b' w' h))).
  { intros (j & b' & w & h & H). destruct (request_moves s j b' w h I H) as [?|(j' & s' & Ha & E)]; [by left|].
    right. exists j', s'. split; [done|]. by left. }
  assert (Hend : moves s \/ (exists j s', asleep s j = false /\
    (rw_resume j s = Ret true s' \/ exists b' w' h, at_v s j = VStart b' w' /\ rw_resume j s = Ret false s' /\ waits s' j b' w' h))).
  { destruct C as [(w & H)|(w & h & H)]; [|apply Hmove; by exists i, b, w, h].
    destruct (asleep s i) eqn:Ea; [apply Hmove; apply (vi_sleep _ I) in Ea; by rewrite H in Ea|].
    destruct (rw_run s i b w I (ready_start _ _ _ _ I H)) as (s' & E & _ & _ & _ & _ & [(_ & _ & Hx)|(h & Eat & _)]); [by apply Hmove|].
    right. exists i, s'. split; [done|]. right. exists b, w, h. split; [done|]. split; [|by rewrite Eat, upd_eq].
    unfold rw_resume, mbind, M_bind, getS. by rewrite H. }
  unfold moves in Hend. rewrite F in Hend. naive_solver.
Qed.
End runs.
