(* ===== verification/VirtioInit.v ===== *)
(** The set-up of the disk device, kernel/virtio_disk.c [virtio_disk_init].

    The device's registers are memory-mapped: a write is recorded, and what a read
    returns after some writes is up to the device ([reg]).  Registers have 32
    bits. *)
From S2P Require Import Prelude Riscv PhysMem Kalloc PageTable Virtio.

Definition VIRTIO_MMIO_MAGIC_VALUE : Z := 0x000.
Definition VIRTIO_MMIO_VERSION : Z := 0x004.
Definition VIRTIO_MMIO_DEVICE_ID : Z := 0x008.
Definition VIRTIO_MMIO_VENDOR_ID : Z := 0x00c.
Definition VIRTIO_MMIO_DEVICE_FEATURES : Z := 0x010.
Definition VIRTIO_MMIO_DRIVER_FEATURES : Z := 0x020.
Definition VIRTIO_MMIO_QUEUE_SEL : Z := 0x030.
Definition VIRTIO_MMIO_QUEUE_NUM_MAX : Z := 0x034.
Definition VIRTIO_MMIO_QUEUE_NUM : Z := 0x038.
Definition VIRTIO_MMIO_QUEUE_READY : Z := 0x044.
Definition VIRTIO_MMIO_STATUS : Z := 0x070.
Definition VIRTIO_MMIO_QUEUE_DESC_LOW : Z := 0x080.
Definition VIRTIO_MMIO_QUEUE_DESC_HIGH : Z := 0x084.
Definition VIRTIO_MMIO_DRIVER_DESC_LOW : Z := 0x090.
Definition VIRTIO_MMIO_DRIVER_DESC_HIGH : Z := 0x094.
Definition VIRTIO_MMIO_DEVICE_DESC_LOW : Z := 0x0a0.
Definition VIRTIO_MMIO_DEVICE_DESC_HIGH : Z := 0x0a4.
Definition VIRTIO_CONFIG_S_ACKNOWLEDGE : Z := 1.
Definition VIRTIO_CONFIG_S_DRIVER : Z := 2.
Definition VIRTIO_CONFIG_S_DRIVER_OK : Z := 4.
Definition VIRTIO_CONFIG_S_FEATURES_OK : Z := 8.
(** VIRTIO_BLK_F_RO, _SCSI, _CONFIG_WCE, _MQ, VIRTIO_F_ANY_LAYOUT,
    VIRTIO_RING_F_EVENT_IDX, _INDIRECT_DESC *)
Definition refused_features : list Z := [5; 7; 11; 12; 27; 29; 28].

(** Memory, and the register writes so far. *)
Record ist : Type := mkI { i_pm : pmem; i_out : list (Z * Z) }.
(** [disk.desc], [disk.avail], [disk.used], [disk.free]. *)
Record queue : Type := mkQ { q_desc : Z; q_avail : Z; q_used : Z; q_free : list Z }.

Section init.
Context `{HL : Layout}.
Context (reg : list (Z * Z) -> Z -> Z).

Definition rd_reg (r : Z) : M ist Z := gets (fun s => u32 (reg (i_out s) r)).
Definition wr_reg (r v : Z) : M ist unit := modS (fun s => mkI (i_pm s) (i_out s ++ [(r, u32 v)])).
Definition on_pm {A} (m : M pmem A) : M ist A := zoom i_pm (fun p s => mkI p (i_out s)) m.

(** [features &= ~(1 << VIRTIO_...)], one after the other *)
Definition negotiate (features : Z) : Z := foldl (fun f k => Z.land f (Z.lnot (Z.shiftl 1 k))) features refused_features.

Definition virtio_disk_init : M ist queue :=
  magic ← rd_reg VIRTIO_MMIO_MAGIC_VALUE;
  version ← rd_reg VIRTIO_MMIO_VERSION;
  device ← rd_reg VIRTIO_MMIO_DEVICE_ID;
  vendor ← rd_reg VIRTIO_MMIO_VENDOR_ID;
  if negb (magic =? 0x74726976) || negb (version =? 2) || negb (device =? 2) || negb (vendor =? 0x554d4551)
  then panic "could not find virtio disk"
  else
    let status := 0 in
    _ ← wr_reg VIRTIO_MMIO_STATUS status;
    let status := Z.lor status VIRTIO_CONFIG_S_ACKNOWLEDGE in
    _ ← wr_reg VIRTIO_MMIO_STATUS status;
    let status := Z.lor status VIRTIO_CONFIG_S_DRIVER in
    _ ← wr_reg VIRTIO_MMIO_STATUS status;
    features ← rd_reg VIRTIO_MMIO_DEVICE_FEATURES;
    _ ← wr_reg VIRTIO_MMIO_DRIVER_FEATURES (negotiate features);
    let status := Z.lor status VIRTIO_CONFIG_S_FEATURES_OK in
    _ ← wr_reg VIRTIO_MMIO_STATUS status;
    status ← rd_reg VIRTIO_MMIO_STATUS;
    if Z.land status VIRTIO_CONFIG_S_FEATURES_OK =? 0 then panic "virtio disk FEATURES_OK unset"
    else
      _ ← wr_reg VIRTIO_MMIO_QUEUE_SEL 0;
      ready ← rd_reg VIRTIO_MMIO_QUEUE_READY;
      if negb (ready =? 0) then panic "virtio disk should not be ready"
      else
        max ← rd_reg VIRTIO_MMIO_QUEUE_NUM_MAX;
        if max =? 0 then panic "virtio disk has no queue 0"
        else if max <? NUM then panic "virtio disk max queue too short"
        else
          desc ← on_pm kalloc;
          avail ← on_pm kalloc;
          used ← on_pm kalloc;
          if (desc =? 0) || (avail =? 0) || (used =? 0) then panic "virtio disk kalloc"
          else
            _ ← on_pm (mem_fill desc 0 PGSIZE);
            _ ← on_pm (mem_fill avail 0 PGSIZE);
            _ ← on_pm (mem_fill used 0 PGSIZE);
            _ ← wr_reg VIRTIO_MMIO_QUEUE_NUM NUM;
            _ ← wr_reg VIRTIO_MMIO_QUEUE_DESC_LOW desc;
            _ ← wr_reg VIRTIO_MMIO_QUEUE_DESC_HIGH (Z.shiftr desc 32);
            _ ← wr_reg VIRTIO_MMIO_DRIVER_DESC_LOW avail;
            _ ← wr_reg VIRTIO_MMIO_DRIVER_DESC_HIGH (Z.shiftr avail 32);
            _ ← wr_reg VIRTIO_MMIO_DEVICE_DESC_LOW used;
            _ ← wr_reg VIRTIO_MMIO_DEVICE_DESC_HIGH (Z.shiftr used 32);
            _ ← wr_reg VIRTIO_MMIO_QUEUE_READY 1;
            let status := Z.lor status VIRTIO_CONFIG_S_DRIVER_OK in
            _ ← wr_reg VIRTIO_MMIO_STATUS status;
            mret (mkQ desc avail used (replicate (Z.to_nat NUM) 1)).

(** A disk as the driver wants it: it offers [features] and a queue of [max]
    entries, and keeps the status it is given. *)
Record disk_answers (features max : Z) : Prop := {
  da_id : forall out, reg out VIRTIO_MMIO_MAGIC_VALUE = 0x74726976 /\ reg out VIRTIO_MMIO_VERSION = 2 /\
    reg out VIRTIO_MMIO_DEVICE_ID = 2 /\ reg out VIRTIO_MMIO_VENDOR_ID = 0x554d4551;
  da_features : forall out, reg out VIRTIO_MMIO_DEVICE_FEATURES = features;
  da_status : forall out v, reg (out ++ [(VIRTIO_MMIO_STATUS, v)]) VIRTIO_MMIO_STATUS = v;
  da_idle : forall out, (forall v, (VIRTIO_MMIO_QUEUE_READY, v) ∉ out) -> reg out VIRTIO_MMIO_QUEUE_READY = 0;
  da_max : forall out, reg out VIRTIO_MMIO_QUEUE_NUM_MAX = max
}.

Lemma negotiate_bits f k : Z.testbit (negotiate f) k = Z.testbit f k && negb (bool_decide (k ∈ refused_features)).
Proof.
  destruct (decide (0 <= k)) as [Hk|Hk]; [|by rewrite !Z.testbit_neg_r by lia].
  assert (Hb : forall j, 0 <= j -> Z.testbit (Z.lnot (Z.shiftl 1 j)) k = negb (k =? j)).
  { intros j Hj. rewrite Z.lnot_spec, Z.shiftl_1_l, Z.pow2_bits_eqb by done. by rewrite Z.eqb_sym. }
  unfold negotiate, refused_features. cbn [foldl]. rewrite !Z.land_spec, !Hb by done. rewrite <- !andb_assoc. f_equal.
  destruct (bool_decide_reflect (k ∈ [5; 7; 11; 12; 27; 29; 28])) as [Hin|Hout]; cbn [negb].
  - set_unfold. destruct_or! Hin; subst; reflexivity.
  - rewrite !(proj2 (Z.eqb_neq k _)) by set_solver. done.
Qed.

Lemma bind_rd_reg {A} r (k : Z -> M ist A) s : (rd_reg r ≫= k) s = k (u32 (reg (i_out s) r)) s.
Proof. done. Qed.

Lemma bind_wr_reg {A} r v (k : unit -> M ist A) s : (wr_reg r v ≫= k) s = k tt (mkI (i_pm s) (i_out s ++ [(r, u32 v)])).
Proof. done. Qed.

Lemma bind_on_pm {A B} (m : M pmem A) (k : A -> M ist B) p out a p' : m p = Ret a p' -> (on_pm m ≫= k) (mkI p out) = k a (mkI p' out).
Proof. intros E. apply bind_Ret. unfold on_pm. by rewrite (zoom_Ret i_pm (fun p s => mkI p (i_out s)) m (mkI p out) _ _ E). Qed.

Context `{LO : !LayoutOk}.

(** Zeroing a page that is in use. *)
Lemma zero_page p s l : kmem_inv s l -> p mod PGSIZE = 0 -> p ∉ l ->
  exists s', mem_fill p 0 PGSIZE s = Ret tt s' /\ kmem_inv s' l /\ same_except [p] (pm_mem s) (pm_mem s') /\
    forall x, p <= x < p + PGSIZE -> rd8 (pm_mem s') x = 0.
Proof.
  intros K Hp Hn. eexists. split; [reflexivity|]. split; [|split].
  - eapply kmem_inv_frame; [done|by apply same_except_fill|set_solver].
  - by apply same_except_fill.
  - intros x Hx. cbn. unfold rd8, fill. by rewrite inr_true by done.
Qed.

Lemma same_zero p q (m m' : mem) : same_except [q] m m' -> p mod PGSIZE = 0 -> p <> q ->
  (forall x, p <= x < p + PGSIZE -> rd8 m x = 0) -> forall x, p <= x < p + PGSIZE -> rd8 m' x = 0.
Proof. intros Hs Hp Hne Hz x Hx. rewrite <- (Hz x Hx). unfold rd8. symmetry. f_equal. apply (Hs p Hp ltac:(set_solver) x Hx). Qed.

(** What the driver tells the device, in this order. *)
Definition set_up (f p1 p2 p3 : Z) : list (Z * Z) :=
  [(VIRTIO_MMIO_STATUS, 0); (VIRTIO_MMIO_STATUS, 1); (VIRTIO_MMIO_STATUS, 3); (VIRTIO_MMIO_DRIVER_FEATURES, u32 (negotiate f)); (VIRTIO_MMIO_STATUS, 11);
   (VIRTIO_MMIO_QUEUE_SEL, 0); (VIRTIO_MMIO_QUEUE_NUM, NUM);
   (VIRTIO_MMIO_QUEUE_DESC_LOW, u32 p1); (VIRTIO_MMIO_QUEUE_DESC_HIGH, u32 (Z.shiftr p1 32));
   (VIRTIO_MMIO_DRIVER_DESC_LOW, u32 p2); (VIRTIO_MMIO_DRIVER_DESC_HIGH, u32 (Z.shiftr p2 32));
   (VIRTIO_MMIO_DEVICE_DESC_LOW, u32 p3); (VIRTIO_MMIO_DEVICE_DESC_HIGH, u32 (Z.shiftr p3 32));
   (VIRTIO_MMIO_QUEUE_READY, 1); (VIRTIO_MMIO_STATUS, 15)].

(** with a disk that answers as the driver wants and three free pages,
    [virtio_disk_init] takes the three pages, zeroes them, and sets the device up:
    the writes are those the specification asks for, in its order, the features
    accepted are those offered less the ones the driver refuses, and all
    descriptors are free. *)
Theorem virtio_init_correct f max p1 p2 p3 l pm : disk_answers f max -> 0 <= f < 2 ^ 32 -> NUM <= max < 2 ^ 32 -> kmem_inv pm (p1 :: p2 :: p3 :: l) ->
  exists pm', virtio_disk_init (mkI pm []) = Ret (mkQ p1 p2 p3 (replicate (Z.to_nat NUM) 1)) (mkI pm' (set_up f p1 p2 p3)) /\ kmem_inv pm' l /\
    (forall p x, p ∈ [p1; p2; p3] -> p <= x < p + PGSIZE -> rd8 (pm_mem pm') x = 0) /\
    (forall k, Z.testbit (negotiate f) k = Z.testbit f k && negb (bool_decide (k ∈ refused_features))).
Proof.
  intros [Hid Hfe Hst Hidle Hmax] Hf Hm K. assert (U : forall x, 0 <= x < 2 ^ 32 -> u32 x = x) by (intros; by apply Z.mod_small).
  pose proof (ki_nodup _ _ K) as Nd. pose proof (ki_pages _ _ K) as Pg. rewrite !NoDup_cons in Nd. rewrite !Forall_cons in Pg.
  destruct Nd as (N1 & N2 & N3 & _), Pg as (P1 & P2 & P3 & _).
  destruct (page_ok_range _ P1) as (R1 & A1 & _), (page_ok_range _ P2) as (R2 & A2 & _), (page_ok_range _ P3) as (R3 & A3 & _).
  destruct (kalloc_run pm p1 _ K) as (m1 & E1 & _ & K1). destruct (kalloc_run _ p2 _ K1) as (m2 & E2 & _ & K2). destruct (kalloc_run _ p3 _ K2) as (m3 & E3 & _ & K3).
  destruct (zero_page p1 _ l K3 A1 ltac:(set_solver)) as (s1 & Z1 & L1 & S1 & F1). destruct (zero_page p2 _ l L1 A2 ltac:(set_solver)) as (s2 & Z2 & L2 & S2 & F2).
  destruct (zero_page p3 _ l L2 A3 ltac:(set_solver)) as (s3 & Z3 & L3 & S3 & F3). exists s3. split; [|split; [done|split]].
  - unfold virtio_disk_init. destruct (Hid []) as (I1 & I2 & I3 & I4). rewrite !bind_rd_reg. cbn [i_out]. rewrite I1, I2, I3, I4.
    change (negb (u32 1953655158 =? 1953655158) || negb (u32 2 =? 2) || negb (u32 2 =? 2) || negb (u32 1431127377 =? 1431127377)) with false. cbn match.
    rewrite !bind_wr_reg, bind_rd_reg, !bind_wr_reg, bind_rd_reg. cbn [i_out i_pm]. rewrite Hfe, Hst, (U f) by done.
    change (Z.land _ VIRTIO_CONFIG_S_FEATURES_OK =? 0) with false. cbn match. rewrite bind_wr_reg, bind_rd_reg. cbn [i_out i_pm app].
    rewrite Hidle by (intros v; rewrite !elem_of_cons; intros Hv; destruct_or! Hv; discriminate Hv || by apply elem_of_nil in Hv).
    change (negb (u32 0 =? 0)) with false. cbn match. rewrite bind_rd_reg, Hmax, (U max) by (unfold NUM in *; lia).
    rewrite (proj2 (Z.eqb_neq max 0)), (proj2 (Z.ltb_ge max NUM)) by (unfold NUM in *; lia). cbn match.
    rewrite (bind_on_pm _ _ _ _ _ _ E1), (bind_on_pm _ _ _ _ _ _ E2), (bind_on_pm _ _ _ _ _ _ E3).
    rewrite !(proj2 (Z.eqb_neq _ 0)) by lia. cbn [orb]. cbn match. rewrite (bind_on_pm _ _ _ _ _ _ Z1), (bind_on_pm _ _ _ _ _ _ Z2), (bind_on_pm _ _ _ _ _ _ Z3).
    rewrite !bind_wr_reg. reflexivity.
  - intros p x Hp. rewrite !elem_of_cons, elem_of_nil in Hp. destruct Hp as [-> | [-> | [-> | []]]].
    + apply (same_zero p1 p3 _ _ S3); [done|set_solver|]. apply (same_zero p1 p2 _ _ S2); [done|set_solver|done].
    + apply (same_zero p2 p3 _ _ S3); [done|set_solver|done].
    + apply F3.
  - apply negotiate_bits.
Qed.
End init.
