(* ===== verification/DemoVirtio.v ===== *)
(** A device that serves requests one by one, and a process that writes a block
    with it: the call, the device, the interrupt and the return; and the registers
    of a device when it is set up. *)
From S2P Require Import Prelude Riscv PhysMem Kalloc PageTable Spinlock Bio Virtio VirtioProofs VirtioSpec VirtioInit Demo.

(** A device of four blocks. It answers the request it has, or takes the next; a
    block it does not have is an error (VIRTIO_BLK_S_IOERR, 1), with the buffer or
    the block left as it was; a request it does not understand it leaves alone. *)
Definition prompt (s : vst) : option (bool * vst) :=
  match work s with
  | h :: rest =>
      Some (match decode h s with
            | Some (w, b, a, t) =>
                if a <? 4 * BSIZE then (false, finish h rest (answer w b a t 0 (wanted w b a s) s))
                else (true, finish h rest (answer w b a t 1 (wanted (negb w) b a s) s))
            | None => (false, s)
            end)
  | [] => if seen s =? avail_idx s then None else Some (false, fetch s)
  end.

#[local] Instance prompt_device : BlockDevice.
Proof.
  refine {| dev_step := fun s e s' => prompt s = Some (e, s') |}.
  - intros s e s'. unfold prompt. destruct (work s) as [|h rest] eqn:E.
    + destruct (Z.eqb_spec (seen s) (avail_idx s)); [done|]. intros [= <- <-]. by apply dev_fetch.
    + destruct (decode h s) as [[[[w b] a] t]|] eqn:P.
      * destruct (a <? 4 * BSIZE); intros [= <- <-]; [by apply (dev_finish s h [] rest w b a t)|].
        apply (dev_error s h [] rest w b a t); [done|done|lia|apply length_wanted].
      * intros [= <- <-]. apply (dev_undefined s h); [rewrite E; set_solver|done].
  - intros s H. unfold prompt. destruct (work s) as [|h rest].
    + destruct H as [H|H]; [|done]. destruct (Z.eqb_spec (seen s) (avail_idx s)); [done|by eexists _, _].
    + destruct (match decode h s with Some _ => _ | None => _ end) as [e s']. by eexists _, _.
Defined.

Definition page_of (v : Z) : list Z := replicate 1024 v.
Definition bufs0 : nat -> vbuf := fun b => mkVb (3 + Z.of_nat b) 0 (page_of (7 + Z.of_nat b)).
Definition disk0 : Z -> Z := fun _ => 0.

Definition dev_next (s : vst) : vst := match prompt s with Some (_, s') => s' | None => s end.

(** Process 0 writes buffer 0, which is block 3; or buffer 1, which is block 4
    and is not on the disk. *)
Definition v0 : vst := virtio_start bufs0 disk0.
Definition v1 (b : nat) : vst := after (virtio_disk_rw 0 b true v0) v0.
Definition v2 (b : nat) : vst := dev_next (v1 b).
Definition v3 (b : nat) : vst := dev_next (v2 b).
Definition v4 : vst := after (virtio_disk_intr (v3 0)) (v3 0).
Definition v5 : vst := after (rw_resume 0 v4) v4.

Lemma bufs0_usable b : (b < 100)%nat -> usable (bufs0 b).
Proof. intros Hb. split; cbn [bufs0 vb_blockno vb_data]; [lia|]. unfold page_of. by rewrite length_replicate. Qed.

Lemma after_Ret {S A} (o : outcome S A) d a s : o = Ret a s -> o = Ret a (after o d).
Proof. by intros ->. Qed.

(** A step of the device, by whether it reports an error. *)
Lemma prompt_runs s e : option_map fst (prompt s) = Some e -> dev_step s e (dev_next s).
Proof. unfold dev_next. cbn. destruct (prompt s) as [[e' s']|]; cbn; [|done]. by intros [= ->]. Qed.

Lemma call1 b : (b < 2)%nat -> vstep v0 (Some (LCall 0 b true)) (v1 b).
Proof.
  intros Hb. assert (He : exclusive v0 b) by (intros i b' [(w & H)|(w & h & H)]; discriminate).
  apply vs_call; [done|exact He|by apply bufs0_usable; lia|].
  destruct (rw_run v0 0 b true (vinv_start _ _)) as (s' & E & _); [|by eapply after_Ret].
  split; [intros i b' C _; by apply (He i)|by apply bufs0_usable; lia|intros ? ? ? ?; discriminate].
Qed.

Lemma run1 b : (b < 2)%nat -> vruns bufs0 disk0 [LCall 0 b true] (v1 b).
Proof. intros Hb. exact (vr_step _ _ [] v0 (Some (LCall 0 b true)) (v1 b) (vr_start _ _) (call1 b Hb)). Qed.

Lemma run2 b : (b < 2)%nat -> option_map fst (prompt (v1 b)) = Some false -> vruns bufs0 disk0 [LCall 0 b true] (v2 b).
Proof.
  intros Hb E. apply (vr_step _ _ [LCall 0 b true] (v1 b) None (v2 b)); [by apply run1|]. by apply vs_dev, prompt_runs.
Qed.

Lemma run3 : vruns bufs0 disk0 [LCall 0 0 true] (v3 0).
Proof.
  apply (vr_step _ _ [LCall 0 0 true] (v2 0) None (v3 0)); [apply run2; [lia|vm_compute; reflexivity]|].
  apply vs_dev, prompt_runs. vm_compute. reflexivity.
Qed.

Lemma run3_error : vruns bufs0 disk0 [LCall 0 1 true; LError] (v3 1).
Proof.
  apply (vr_step _ _ [LCall 0 1 true] (v2 1) (Some LError) (v3 1)); [apply run2; [lia|vm_compute; reflexivity]|].
  apply vs_error, prompt_runs. vm_compute. reflexivity.
Qed.

Lemma run4 : vruns bufs0 disk0 [LCall 0 0 true] v4.
Proof.
  apply (vr_step _ _ [LCall 0 0 true] (v3 0) None v4); [exact run3|]. apply vs_intr.
  destruct (runs_inv _ _ _ _ run3) as (I & _ & F).
  destruct (intr_run (v3 0) I) as [(s' & E & _)|[_ Hf%F]]; [by eapply after_Ret|exfalso; set_solver].
Qed.

Lemma step5 : vstep v4 (Some (LRet 0)) v5.
Proof.
  assert (Hat : at_v v4 0 = VWait 0 true 0) by (vm_compute; reflexivity).
  apply vs_return; [vm_compute; reflexivity|by rewrite Hat|]. eapply after_Ret. unfold rw_resume, mbind, M_bind, getS. rewrite Hat.
  apply return_run; [eapply vi_req; [exact (proj1 (runs_inv _ _ _ _ run4))|exact Hat]|vm_compute; discriminate].
Qed.

Lemma virtio_refines_witness :
  (exists a, aruns bufs0 disk0 [LCall 0 0 true; LRet 0] a /\ a ≡ abs_of v5) /\
  (exists a, aruns bufs0 disk0 [LCall 0 1 true; LError] a /\ a ≡ abs_of (v3 1)) /\ a_call (abs_of (v3 1)) 0 = AFailed 1 true.
Proof.
  split; [|split].
  - apply virtio_refines. exact (vr_step _ _ [LCall 0 0 true] v4 (Some (LRet 0)) v5 run4 step5).
  - apply virtio_refines. exact run3_error.
  - vm_compute. reflexivity.
Defined.

Lemma virtio_safe_witness :
  (exists b w h, at_v v4 0 = VWait b w h /\ at_v v5 0 = VOut /\ info_status v4 h = 0 /\
     block_at (platter v5) (BSIZE * vb_blockno (vbufs v5 b)) BSIZE = vb_data (vbufs v5 b)) /\
  virtio_disk_intr (v3 1) = Panic "virtio_disk_intr status".
Proof.
  split.
  - apply (virtio_safe bufs0 disk0 [LCall 0 0 true] v4 run4). exact step5.
  - apply (virtio_safe bufs0 disk0 [LCall 0 1 true; LError] (v3 1) run3_error). set_solver.
Defined.

Lemma virtio_progress_witness : (exists e s', dev_step (v1 0) e s') \/
  (exists s' j b' w' h', virtio_disk_intr (v1 0) = Ret tt s' /\ waits (v1 0) j b' w' h' /\ vb_disk (vbufs (v1 0) b') = 1 /\ vb_disk (vbufs s' b') <> 1) \/
  (exists j s', asleep (v1 0) j = false /\
    (rw_resume j (v1 0) = Ret true s' \/ exists b' w' h, at_v (v1 0) j = VStart b' w' /\ rw_resume j (v1 0) = Ret false s' /\ waits s' j b' w' h)) \/
  (LError ∈ [LCall 0 0 true] /\ virtio_disk_intr (v1 0) = Panic "virtio_disk_intr status").
Proof.
  apply (virtio_progress bufs0 disk0 [LCall 0 0 true] (v1 0) 0 0).
  - apply run1. lia.
  - right. exists true, 0. vm_compute. reflexivity.
Defined.

(** ** Registers *)
Definition last_write (out : list (Z * Z)) (r : Z) : Z := foldl (fun v x => if fst x =? r then snd x else v) 0 out.
Definition demo_reg (out : list (Z * Z)) (r : Z) : Z :=
  if r =? VIRTIO_MMIO_MAGIC_VALUE then 0x74726976 else if r =? VIRTIO_MMIO_VERSION then 2 else if r =? VIRTIO_MMIO_DEVICE_ID then 2
  else if r =? VIRTIO_MMIO_VENDOR_ID then 0x554d4551 else if r =? VIRTIO_MMIO_DEVICE_FEATURES then 0x71000ee6
  else if r =? VIRTIO_MMIO_QUEUE_NUM_MAX then 1024 else last_write out r.

Lemma demo_reg_answers : disk_answers demo_reg 0x71000ee6 1024.
Proof.
  split; [done|done| |intros out|done].
  - intros out v. unfold demo_reg. cbn. unfold last_write. by rewrite foldl_snoc.
  - intros Hr. unfold demo_reg. cbn. unfold last_write. induction out as [|[r v] out IH] using rev_ind; [done|]. rewrite foldl_snoc. cbn.
    destruct (Z.eqb_spec r VIRTIO_MMIO_QUEUE_READY) as [->|]; [exfalso; apply (Hr v); set_solver|]. apply IH. intros v' Hv. apply (Hr v'). set_solver.
Qed.

Lemma virtio_init_witness : exists q s', virtio_disk_init demo_reg (mkI boot []) = Ret q s' /\ last_write (i_out s') VIRTIO_MMIO_DRIVER_FEATURES = 0x41000646.
Proof.
  destruct (virtio_init_correct demo_reg 0x71000ee6 1024 root (nth 0 free0 0) (nth 1 free0 0) (drop 2 free0) boot) as (pm' & R & _);
    [exact demo_reg_answers|lia|unfold NUM; lia|exact boot_inv|].
  eexists _, _. split; [exact R|]. vm_compute. reflexivity.
Defined.
