(* ===== verification/Mkfs.v ===== *)
(** The program that makes the disk image, mkfs/mkfs.c.

    [mkst] is the image file, by sectors, with the number of sectors it has, and
    the global variables.  The host is a parameter: whether it can create the
    image and access a sector of it, and what each file named on the command line
    gives when it is opened and read (a list of the results of [read], [None] for
    an error).  [die] and a failed [assert] are [Panic].  The host stores integers
    with the least significant byte first. *)
From S2P Require Import Prelude Riscv PhysMem Bytes Bio BlockIface Log FsIface Fs FsData FsBlocks FsContent FsGrow FsDir Printf.

Definition FSSIZE : Z := 2000.
Definition NINODES : Z := 200.
Definition nbitmap : Z := FSSIZE / BPB + 1.
Definition ninodeblocks : Z := NINODES / IPB + 1.
Definition nlog : Z := LOGBLOCKS + 1.
Definition nmeta : Z := 2 + nlog + ninodeblocks + nbitmap.
Definition nblocks : Z := FSSIZE - nmeta.

(** The value whose bytes in memory are those of [x], least significant first. *)
Definition xshort (x : Z) : Z := le_val [u8 x; u8 (Z.shiftr x 8)].
Definition xint (x : Z) : Z := le_val [u8 x; u8 (Z.shiftr x 8); u8 (Z.shiftr x 16); u8 (Z.shiftr x 24)].

Record mkst : Type := mkMk { m_img : Z -> list Z; m_len : Z; m_sb : superblock; m_freeinode : Z; m_freeblock : Z }.

Definition set_img (img : Z -> list Z) (len : Z) (s : mkst) : mkst := mkMk img len (m_sb s) (m_freeinode s) (m_freeblock s).

Definition disk_sb : superblock :=
  mkSb FSMAGIC (xint FSSIZE) (xint nblocks) (xint NINODES) (xint nlog) (xint 2) (xint (2 + nlog)) (xint (2 + nlog + ninodeblocks)).

(** [memmove(buf, &sb, sizeof(sb))] over a block of zeros. *)
Definition sb_block (sb : superblock) : list Z :=
  splice zero_block 0 (le_bytes 4 (sb_magic sb) ++ le_bytes 4 (sb_size sb) ++ le_bytes 4 (sb_nblocks sb) ++ le_bytes 4 (sb_ninodes sb) ++
    le_bytes 4 (sb_nlog sb) ++ le_bytes 4 (sb_logstart sb) ++ le_bytes 4 (sb_inodestart sb) ++ le_bytes 4 (sb_bmapstart sb)).

(** The results of [read] on a file, and what they add up to: [while((cc = read(...)) > 0)]. *)
Definition reads : Type := list (option (list Z)).
Fixpoint file_data (rs : reads) : list Z :=
  match rs with Some (b :: bs) :: rs => (b :: bs) ++ file_data rs | _ => [] end.

Section mkfs.
Context (host_creat : list Z -> bool) (host_ok : Z -> bool) (host_open : list Z -> option reads).

(** The offset of a sector is computed as a 32-bit number. *)
Definition seek (sec : Z) : Z := u32 (sec * BSIZE) / BSIZE.

Definition wsect (sec : Z) (buf : list Z) : M mkst unit := fun s =>
  let b := seek sec in
  if host_ok b then Ret tt (set_img (zupd (m_img s) b buf) (Z.max (m_len s) (b + 1)) s) else Panic "write".

(** Past the end of the file [read] returns 0. *)
Definition rsect (sec : Z) : M mkst (list Z) := fun s =>
  let b := seek sec in if host_ok b && (b <? m_len s) then Ret (m_img s b) s else Panic "read".

Definition winode (inum : Z) (ip : dinode) : M mkst unit :=
  sb ← gets m_sb;
  let bn := IBLOCK inum sb in
  buf ← rsect bn;
  wsect bn (put_dinode buf (dinode_off inum) ip).

Definition rinode (inum : Z) : M mkst dinode :=
  sb ← gets m_sb;
  let bn := IBLOCK inum sb in
  buf ← rsect bn;
  mret (get_dinode buf (dinode_off inum)).

Definition ialloc (type : Z) : M mkst Z :=
  inum ← gets m_freeinode;
  _ ← modS (fun s => mkMk (m_img s) (m_len s) (m_sb s) (u32 (inum + 1)) (m_freeblock s));
  _ ← winode inum (mkDinode (i16 (xshort type)) 0 0 (i16 (xshort 1)) (xint 0) (replicate 13 0));
  mret inum.

(** [buf[i/8] = buf[i/8] | (0x1 << (i%8))] for the blocks before [used]. *)
Definition bitmap (used : nat) : list Z := foldl bit_set zero_block (seq 0 used).

Definition balloc (used : Z) : M mkst unit :=
  if used <? BPB then sb ← gets m_sb; wsect (sb_bmapstart sb) (bitmap (Z.to_nat used)) else panic "assert".

(** [freeblock++] *)
Definition next_block : M mkst Z :=
  b ← gets m_freeblock;
  _ ← modS (fun s => mkMk (m_img s) (m_len s) (m_sb s) (m_freeinode s) (u32 (b + 1)));
  mret b.

(** An address that is 0 is set to the next block. *)
Definition ensure_addr (k : nat) (d : dinode) : M mkst dinode :=
  if xint (d_addrs d !!! k) =? 0 then b ← next_block; mret (set_addr k (xint b) d) else mret d.

(** The inode with block [fbn], and where that block is. *)
Definition block_for (d : dinode) (fbn : Z) : M mkst (dinode * Z) :=
  if fbn <? NDIRECT then
    d ← ensure_addr (Z.to_nat fbn) d;
    mret (d, xint (d_addrs d !!! Z.to_nat fbn))
  else
    d ← ensure_addr (Z.to_nat NDIRECT) d;
    let a := xint (d_addrs d !!! Z.to_nat NDIRECT) in
    indirect ← rsect a;
    indirect ← (if get_addr indirect (fbn - NDIRECT) =? 0 then
                  b ← next_block;
                  let indirect := put_addr indirect (fbn - NDIRECT) (xint b) in
                  _ ← wsect a indirect; mret indirect
                else mret indirect);
    mret (d, xint (get_addr indirect (fbn - NDIRECT))).

(** [while(n > 0)], with the bytes still to append; each turn appends a byte at least. *)
Fixpoint iappend_loop (fuel : nat) (d : dinode) (off : Z) (p : list Z) : M mkst (dinode * Z) :=
  match fuel with
  | O => diverge
  | S fuel =>
      let n := Z.of_nat (length p) in
      if 0 <? n then
        let fbn := off / BSIZE in
        if MAXFILE <=? fbn then panic "assert"
        else
          r ← block_for d fbn;
          let '(d, x) := r in
          let n1 := Z.min n ((fbn + 1) * BSIZE - off) in
          buf ← rsect x;
          _ ← wsect x (splice buf (Z.to_nat (off - fbn * BSIZE)) (take (Z.to_nat n1) p));
          iappend_loop fuel d (off + n1) (drop (Z.to_nat n1) p)
      else mret (d, off)
  end.

Definition iappend (inum : Z) (p : list Z) : M mkst unit :=
  d ← rinode inum;
  r ← iappend_loop (S (length p)) d (xint (d_size d)) p;
  let '(d, off) := r in
  winode inum (set_size (xint off) d).

(** [bzero(&de, sizeof(de)); de.inum = xshort(inum); strncpy(de.name, name, DIRSIZ)] *)
Definition dirent_of (inum : Z) (name : list Z) : list Z := le_bytes 2 (xshort inum) ++ pad_name name.

Definition shortname (arg : list Z) : list Z := if strncmp_seq 5 arg (bytes_of "user/") =? 0 then drop 5 arg else arg.
Definition skip_underscore (name : list Z) : list Z := if hd 0 name =? 95 then drop 1 name else name.

(** [while((cc = read(fd, buf, sizeof(buf))) > 0) iappend(inum, buf, cc)] *)
Fixpoint copy_in (inum : Z) (rs : reads) : M mkst unit :=
  match rs with Some (b :: bs) :: rs => _ ← iappend inum (b :: bs); copy_in inum rs | _ => mret tt end.

Definition add_file (rootino : Z) (arg : list Z) : M mkst unit :=
  let name := shortname arg in
  if bool_decide (slash ∈ name) then panic "assert"
  else
    match host_open arg with
    | None => panic "open"
    | Some rs =>
        let name := skip_underscore name in
        if DIRSIZ <? Z.of_nat (length name) then panic "assert"
        else
          inum ← ialloc T_FILE;
          _ ← iappend rootino (dirent_of inum name);
          copy_in inum rs
    end.

Fixpoint add_files (rootino : Z) (args : list (list Z)) : M mkst unit :=
  match args with [] => mret tt | a :: args => _ ← add_file rootino a; add_files rootino args end.

(** [for(i = 0; i < FSSIZE; i++) wsect(i, zeroes)], with [n] more. *)
Fixpoint zero_loop (n : nat) (i : Z) : M mkst unit :=
  match n with O => mret tt | S n => _ ← wsect i zero_block; zero_loop n (i + 1) end.

(** [rinode(rootino, &din); off = ((off/BSIZE) + 1) * BSIZE; ...; winode(rootino, &din)] *)
Definition fix_root (rootino : Z) : M mkst unit :=
  d ← rinode rootino;
  winode rootino (set_size (xint (u32 ((xint (d_size d) / BSIZE + 1) * BSIZE))) d).

Definition main (argv : list (list Z)) : M mkst unit :=
  match argv with
  | _ :: image :: args =>
      if host_creat image then
        _ ← modS (fun s => mkMk (fun _ => zero_block) 0 disk_sb (m_freeinode s) nmeta);
        _ ← zero_loop (Z.to_nat FSSIZE) 0;
        _ ← wsect 1 (sb_block disk_sb);
        rootino ← ialloc T_DIR;
        if negb (rootino =? ROOTINO) then panic "assert"
        else
          _ ← iappend rootino (dirent_of rootino (bytes_of "."));
          _ ← iappend rootino (dirent_of rootino (bytes_of ".."));
          _ ← add_files rootino args;
          _ ← fix_root rootino;
          used ← gets m_freeblock;
          balloc (i32 used)
      else panic "open"
  | _ => panic "usage"
  end.
End mkfs.

(** The program starts with [freeinode = 1] and the other variables 0. *)
Definition mk_start : mkst := mkMk (fun _ => []) 0 (mkSb 0 0 0 0 0 0 0 0) 1 0.
