(* ===== verification/MkfsProofs.v ===== *)
(** What mkfs leaves on the disk.

    Until its end mkfs keeps the free map only as [freeblock].  [virt s] is the
    image with the map that [balloc] would write for it: on that image the files
    under construction satisfy the kernel's invariant of a file, [finv], and what
    [iappend] does is what the kernel's [writei] does, [written]. *)
From S2P Require Import Prelude Riscv PhysMem Bytes Bio BlockIface Log FsIface Fs FsData FsBlocks FsContent FsGrow FsWritten FsWritei FsDir Printf Mkfs.

(** ** Numbers and the free map *)
Lemma xint_id x : 0 <= x < 2 ^ 32 -> xint x = x.
Proof.
  intros Hx. unfold xint, u8. rewrite !Z.shiftr_div_pow2 by lia. cbn [le_val].
  change (2 ^ 32) with 4294967296 in Hx. change (2 ^ 8) with 256. change (2 ^ 16) with 65536. change (2 ^ 24) with 16777216.
  Z.to_euclidean_division_equations. lia.
Qed.

Lemma xshort_id x : 0 <= x < 2 ^ 16 -> xshort x = x.
Proof.
  intros Hx. unfold xshort, u8. rewrite !Z.shiftr_div_pow2 by lia. cbn [le_val].
  change (2 ^ 16) with 65536 in Hx. change (2 ^ 8) with 256. Z.to_euclidean_division_equations. lia.
Qed.

Lemma disk_sb_eq : disk_sb = mkSb FSMAGIC 2000 1953 200 31 2 33 46.
Proof. vm_compute. reflexivity. Qed.

Lemma bitmap_S n : bitmap (S n) = bit_set (bitmap n) n.
Proof. unfold bitmap. by rewrite seq_S, foldl_app. Qed.

Lemma length_bitmap n : length (bitmap n) = 1024%nat.
Proof. induction n as [|n IH]; [done|]. rewrite bitmap_S. unfold bit_set. by rewrite length_insert. Qed.

(** The map marks the blocks before [n]. *)
Lemma bitmap_used n j : Z.of_nat n <= BPB -> Z.of_nat j < BPB -> bit_free (bitmap n) j = negb (j <? n)%nat.
Proof.
  rewrite BPB_eq. intros Hn Hj. assert (Hb : forall k, Z.of_nat k < 8192 -> (bit_byte k < 1024)%nat).
  { intros k Hk. unfold bit_byte. apply Nat.Div0.div_lt_upper_bound. lia. }
  induction n as [|n IH].
  - unfold bitmap, bit_free. cbn [seq foldl]. replace (zero_block !!! bit_byte j) with 0; [by rewrite Z.land_0_l|].
    unfold zero_block. by rewrite lookup_total_replicate_2 by (by apply Hb).
  - rewrite bitmap_S, bit_free_set by (rewrite length_bitmap; apply Hb; lia).
    rewrite IH by lia. destruct (decide (j = n)) as [->|]; [by rewrite (proj2 (Nat.ltb_lt _ _)) by lia|].
    destruct (Nat.ltb_spec j n), (Nat.ltb_spec j (S n)); try lia; done.
Qed.

Abbreviation BM := 46.
Abbreviation DS := 47.
Abbreviation SZ := 2000.

(** The kernel's view of the geometry. *)
Definition geo : fsys unit := mkFsys tt (mkSb FSMAGIC SZ 1953 200 31 2 33 BM) [] 0.

Definition virt (s : mkst) : Z -> list Z := zupd (m_img s) BM (bitmap (Z.to_nat (m_freeblock s))).

(** The image has all its sectors, and those from [freeblock] on are zero. *)
Record laid (s : mkst) : Prop := {
  la_len : m_len s = SZ;
  la_sb : m_sb s = mkSb FSMAGIC SZ 1953 200 31 2 33 BM;
  la_blk : forall b, length (m_img s b) = 1024%nat;
  la_free : DS <= m_freeblock s <= SZ;
  la_zero : forall b, m_freeblock s <= b -> m_img s b = zero_block
}.

Lemma virt_data s y : DS <= y -> virt s y = m_img s y.
Proof. intros Hy. unfold virt. by rewrite zupd_ne by lia. Qed.

Lemma virt_len s y : laid s -> length (virt s y) = Z.to_nat BSIZE.
Proof. intros L. unfold virt, zupd. destruct (y =? BM); [apply length_bitmap|by apply L]. Qed.

Lemma virt_used s b : laid s -> 0 <= b < BPB -> usedv BM (virt s) b = (b <? m_freeblock s).
Proof.
  intros L Hb. pose proof (la_free _ L). unfold usedv, virt. rewrite zupd_eq, bitmap_used by (rewrite BPB_eq in *; lia). rewrite negb_involutive.
  destruct (Nat.ltb_spec (Z.to_nat b) (Z.to_nat (m_freeblock s))), (Z.ltb_spec b (m_freeblock s)); try lia; done.
Qed.

(** ** Sectors *)
Definition set_free (n : Z) (s : mkst) : mkst := mkMk (m_img s) (m_len s) (m_sb s) (m_freeinode s) n.
Definition put_img (b : Z) (buf : list Z) (s : mkst) : mkst := set_img (zupd (m_img s) b buf) (m_len s) s.

Lemma seek_id b : 0 <= b < SZ -> seek b = b.
Proof. intros Hb. unfold seek. rewrite BSIZE_eq, u32_small by lia. apply Z.div_mul. lia. Qed.

Section run.
Context (host_ok : Z -> bool) (Hok : forall b, 0 <= b < SZ -> host_ok b = true).
Abbreviation wsect := (wsect host_ok).
Abbreviation rsect := (rsect host_ok).

Lemma wsect_run b buf s : m_len s = SZ -> 0 <= b < SZ -> wsect b buf s = Ret tt (put_img b buf s).
Proof.
  intros Hl Hb. unfold Mkfs.wsect, put_img. rewrite seek_id, Hok by done. do 2 f_equal. lia.
Qed.

Lemma rsect_run b s : m_len s = SZ -> 0 <= b < SZ -> rsect b s = Ret (m_img s b) s.
Proof. intros Hl Hb. unfold Mkfs.rsect. rewrite seek_id, Hok, Hl by done. by rewrite (proj2 (Z.ltb_lt _ _)) by lia. Qed.

Lemma next_block_run s : laid s -> m_freeblock s < SZ ->
  next_block s = Ret (m_freeblock s) (set_free (m_freeblock s + 1) s) /\ laid (set_free (m_freeblock s + 1) s) /\
  (forall y, virt (set_free (m_freeblock s + 1) s) y = alloc_view BM (virt s) (m_freeblock s) y).
Proof.
  intros L Hf. pose proof (la_free _ L) as Hr. split_and!.
  - unfold next_block. run. by rewrite u32_small by lia.
  - destruct L as [L1 L2 L3 L4 L5]. split; cbn [set_free m_len m_sb m_img m_freeblock]; try done; [lia|]. intros b Hb. apply L5. lia.
  - intros y. unfold virt, alloc_view, zupd. cbn [set_free m_img m_freeblock].
    rewrite Z2Nat.inj_add by lia. replace (Z.to_nat (m_freeblock s) + Z.to_nat 1)%nat with (S (Z.to_nat (m_freeblock s))) by lia.
    rewrite bitmap_S. destruct (Z.eqb_spec y BM) as [->|]; [by rewrite (proj2 (Z.eqb_neq BM _)) by lia|].
    destruct (Z.eqb_spec y (m_freeblock s)) as [->|]; [|done]. by rewrite (la_zero _ L) by lia.
Qed.

(** ** Blocks of a file *)
(** The blocks a file of [k] data blocks takes. *)
Definition nblk (k : Z) : Z := k + (if NDIRECT <? k then 1 else 0).

(** The file has its first [k] blocks and no others. *)
Record filled (v : Z -> list Z) (d : dinode) (k : Z) : Prop := {
  fl_map : forall bn, 0 <= bn < MAXFILE -> (faddr v d bn <> 0 <-> bn < k);
  fl_ind : ind d <> 0 <-> NDIRECT < k
}.

(** Nothing below the data blocks changed. *)
Definition keeps (s s' : mkst) : Prop := m_freeinode s' = m_freeinode s /\ forall y, y < DS -> m_img s' y = m_img s y.

Record placed (s : mkst) (d : dinode) (k k' : Z) (s' : mkst) (d' : dinode) : Prop := {
  pl_laid : laid s';
  pl_inv : finv BM DS SZ (virt s') d';
  pl_grown : grown BM (virt s) d (virt s') d';
  pl_fill : filled (virt s') d' k';
  pl_zero : forall bn, 0 <= bn < MAXFILE -> faddr (virt s) d bn = 0 -> faddr (virt s') d' bn <> 0 -> virt s' (faddr (virt s') d' bn) = zero_block;
  pl_count : m_freeblock s' = m_freeblock s + nblk k' - nblk k;
  pl_keep : keeps s s'
}.

Lemma keeps_trans s s1 s2 : keeps s s1 -> keeps s1 s2 -> keeps s s2.
Proof. intros [A1 A2] [B1 B2]. split; [congruence|]. intros y Hy. by rewrite B2, A2. Qed.

Lemma geo_bm : 0 < BM < DS.
Proof. lia. Qed.
Lemma geo_size : DS <= SZ <= BPB.
Proof. rewrite BPB_eq. lia. Qed.

(** The next free block satisfies what the lemmas about growing a file ask. *)
Lemma next_fresh s : laid s -> m_freeblock s < SZ ->
  DS <= m_freeblock s < SZ /\ usedv BM (virt s) (m_freeblock s) = false /\ length (virt s BM) = Z.to_nat BSIZE.
Proof.
  intros L Hf. pose proof (la_free _ L). split; [lia|]. split; [|by apply virt_len].
  rewrite virt_used by (done || rewrite BPB_eq; lia). apply Z.ltb_ge. lia.
Qed.

Lemma ensure_addr_old j d s : 0 < d_addrs d !!! j < 2 ^ 32 -> ensure_addr j d s = Ret d s.
Proof. intros Ha. unfold ensure_addr. rewrite xint_id by lia. by rewrite (proj2 (Z.eqb_neq _ 0)) by lia. Qed.

Lemma ensure_addr_new j d s : laid s -> m_freeblock s < SZ -> d_addrs d !!! j = 0 ->
  ensure_addr j d s = Ret (set_addr j (m_freeblock s) d) (set_free (m_freeblock s + 1) s).
Proof.
  intros L Hf Ha. pose proof (la_free _ L). unfold ensure_addr. rewrite Ha. change (xint 0 =? 0) with true. cbn match.
  rewrite (bind_Ret _ _ _ _ _ (proj1 (next_block_run s L Hf))). by rewrite xint_id by lia.
Qed.

Lemma place_old s d k fbn : laid s -> finv BM DS SZ (virt s) d -> filled (virt s) d k -> 0 <= fbn < k -> fbn < MAXFILE ->
  block_for host_ok d fbn s = Ret (d, faddr (virt s) d fbn) s.
Proof.
  intros L I F Hk Hm. assert (Hn : faddr (virt s) d fbn <> 0) by (apply F; lia).
  pose proof (fo_range _ _ _ _ (fi_ok _ _ _ _ _ I) fbn ltac:(lia) Hn) as Hr. unfold block_for.
  destruct (Z.ltb_spec fbn NDIRECT) as [Hd|Hd].
  - assert (Ea : faddr (virt s) d fbn = d_addrs d !!! Z.to_nat fbn) by (unfold faddr; by rewrite (proj2 (Z.ltb_lt _ _) Hd)).
    rewrite Ea in Hr |- *. rewrite (bind_Ret _ _ _ _ _ (ensure_addr_old (Z.to_nat fbn) d s ltac:(lia))). by rewrite xint_id by lia.
  - assert (Hi : ind d <> 0) by (apply F; lia). pose proof (fo_ind _ _ _ _ (fi_ok _ _ _ _ _ I) Hi) as Hir.
    assert (Ea : faddr (virt s) d fbn = get_addr (m_img s (ind d)) (fbn - NDIRECT)).
    { unfold faddr. rewrite (proj2 (Z.ltb_ge _ _) Hd). fold (ind d). rewrite (proj2 (Z.eqb_neq _ _) Hi). rewrite virt_data; [done|]. unfold ind. lia. }
    rewrite (bind_Ret _ _ _ _ _ (ensure_addr_old (Z.to_nat NDIRECT) d s ltac:(lia))). cbv zeta. rewrite (xint_id (d_addrs d !!! _)) by lia.
    fold (ind d) in Hir |- *. rewrite (bind_Ret _ _ _ _ _ (rsect_run (ind d) s (la_len _ L) ltac:(lia))), <- Ea.
    rewrite (proj2 (Z.eqb_neq _ _) Hn). rewrite bind_mret, <- Ea. by rewrite xint_id by lia.
Qed.

Lemma nblk_direct k : k < NDIRECT -> nblk (k + 1) = nblk k + 1.
Proof. unfold nblk. intros H. rewrite !(proj2 (Z.ltb_ge NDIRECT _)) by lia. lia. Qed.

Lemma place_direct s d k : laid s -> finv BM DS SZ (virt s) d -> filled (virt s) d k -> 0 <= k < NDIRECT -> m_freeblock s < SZ ->
  exists s' d', block_for host_ok d k s = Ret (d', faddr (virt s') d' k) s' /\ placed s d k (k + 1) s' d'.
Proof.
  intros L I F Hk Hf. pose proof NDIRECT_eq as Hnd. pose proof MAXFILE_eq as Hmf. destruct (next_fresh s L Hf) as (Hr & Hu & Hl). set (r := m_freeblock s) in *.
  assert (H0 : faddr (virt s) d k = 0) by (destruct (decide (faddr (virt s) d k = 0)) as [|Hn]; [done|]; apply F in Hn; lia).
  assert (Ea : d_addrs d !!! Z.to_nat k = 0) by (rewrite <- H0; unfold faddr; by rewrite (proj2 (Z.ltb_lt _ _)) by lia).
  destruct (next_block_run s L Hf) as (_ & L' & V'). fold r in L', V'.
  destruct (grow_direct BM DS SZ geo_bm geo_size (virt s) d r I Hr Hu Hl _ k V' Hk H0) as (I' & G' & Ei & Hfa).
  exists (set_free (r + 1) s), (set_addr (Z.to_nat k) r d). split.
  - unfold block_for. rewrite (proj2 (Z.ltb_lt _ _)) by lia. rewrite (bind_Ret _ _ _ _ _ (ensure_addr_new _ d s L Hf Ea)). fold r.
    unfold faddr. rewrite (proj2 (Z.ltb_lt _ _)) by lia. rewrite xint_id; [done|].
    assert (Ef := Hfa k ltac:(lia)). rewrite Z.eqb_refl in Ef. unfold faddr in Ef. rewrite (proj2 (Z.ltb_lt _ _)) in Ef by lia. rewrite Ef. lia.
  - split; [done|done|done| | |rewrite nblk_direct by lia; cbn [set_free m_freeblock]; lia|done].
    + split; [|rewrite Ei; destruct F as [_ ->]; lia]. intros bn Hb. rewrite Hfa by done.
      destruct (Z.eqb_spec bn k) as [->|Hn]; [lia|]. destruct F as [Fm _]. rewrite Fm by done. lia.
    + intros bn Hb E0. rewrite Hfa by done. destruct (bn =? k); [|done]. intros _. rewrite V'. apply zupd_eq.
Qed.

(** The indirect block is there, new if the file had no use for one. *)
Lemma ensure_ind s d k : laid s -> finv BM DS SZ (virt s) d -> filled (virt s) d k -> NDIRECT <= k < MAXFILE ->
  m_freeblock s + nblk (k + 1) - nblk k <= SZ ->
  exists s1 d1, ensure_addr (Z.to_nat NDIRECT) d s = Ret d1 s1 /\ laid s1 /\ finv BM DS SZ (virt s1) d1 /\ grown BM (virt s) d (virt s1) d1 /\
    ind d1 <> 0 /\ (forall bn, 0 <= bn < MAXFILE -> faddr (virt s1) d1 bn = faddr (virt s) d bn) /\
    m_freeblock s1 = m_freeblock s + nblk (k + 1) - nblk k - 1 /\ keeps s s1.
Proof.
  intros L I F Hk Hf. unfold nblk in *. rewrite (proj2 (Z.ltb_lt NDIRECT (k + 1))) in * by lia. destruct (Z.ltb_spec NDIRECT k) as [Hn|Hn].
  - assert (Hi : ind d <> 0) by (apply F; lia). pose proof (fo_ind _ _ _ _ (fi_ok _ _ _ _ _ I) Hi) as Hir.
    exists s, d. rewrite ensure_addr_old by lia. split_and!; try done; [apply grown_refl|lia].
  - assert (H0 : ind d = 0) by (destruct (decide (ind d = 0)) as [|Hi]; [done|]; apply F in Hi; lia).
    assert (Hf' : m_freeblock s < SZ) by lia. destruct (next_fresh s L Hf') as (Hr & Hu & Hl). destruct (next_block_run s L Hf') as (_ & L' & V').
    destruct (grow_ind BM DS SZ geo_bm geo_size (virt s) d _ I Hr Hu Hl _ V' H0) as (I' & G' & Ei & Hfa).
    exists (set_free (m_freeblock s + 1) s), (set_addr (Z.to_nat NDIRECT) (m_freeblock s) d).
    split; [by apply ensure_addr_new|]. split_and!; try done; [lia|]. cbn [set_free m_freeblock]. lia.
Qed.

Lemma put_img_laid s b buf : laid s -> b < m_freeblock s -> length buf = 1024%nat -> laid (put_img b buf s).
Proof.
  intros [L1 L2 L3 L4 L5] Hb Hl. split; try done.
  - intros y. cbn [put_img set_img m_img]. unfold zupd. by destruct (y =? b).
  - intros y Hy. cbn [put_img set_img m_img m_freeblock] in *. rewrite zupd_ne by lia. by apply L5.
Qed.

Lemma put_img_virt s b buf y : b <> BM -> virt (put_img b buf s) y = zupd (virt s) b buf y.
Proof.
  intros Hb. unfold virt, put_img, zupd. cbn [set_img m_img m_freeblock].
  destruct (Z.eqb_spec y BM) as [->|]; [|done]. by rewrite (proj2 (Z.eqb_neq BM b)).
Qed.

Lemma put_img_keeps s b buf : DS <= b -> keeps s (put_img b buf s).
Proof. intros Hb. split; [done|]. intros y Hy. cbn. by rewrite zupd_ne by lia. Qed.

Lemma place_indirect s d k : laid s -> finv BM DS SZ (virt s) d -> filled (virt s) d k -> NDIRECT <= k < MAXFILE ->
  m_freeblock s + nblk (k + 1) - nblk k <= SZ ->
  exists s' d', block_for host_ok d k s = Ret (d', faddr (virt s') d' k) s' /\ placed s d k (k + 1) s' d'.
Proof.
  intros L I F Hk Hf. destruct (ensure_ind s d k L I F Hk Hf) as (s1 & d1 & E1 & L1 & I1 & G1 & Hi & Hfa & Hc & K1).
  pose proof (fo_ind _ _ _ _ (fi_ok _ _ _ _ _ I1) Hi) as Hir. fold (ind d1) in Hir.
  assert (Hf1 : m_freeblock s1 < SZ) by lia. destruct (next_fresh s1 L1 Hf1) as (Hr & Hu & Hl). destruct (next_block_run s1 L1 Hf1) as (En & L2 & V2).
  set (r := m_freeblock s1) in *. set (s2 := set_free (r + 1) s1) in *. pose proof NINDIRECT_eq as Hni. pose proof NDIRECT_eq as Hnd. pose proof MAXFILE_eq as Hmf.
  assert (Hri : ind d1 < r).
  { pose proof (fi_ind _ _ _ _ _ I1 Hi) as Hui. rewrite virt_used in Hui by (done || rewrite BPB_eq; lia). by apply Z.ltb_lt in Hui. }
  assert (H0 : faddr (virt s1) d1 k = 0).
  { rewrite Hfa by lia. destruct (decide (faddr (virt s) d k = 0)) as [|Hn]; [done|]. apply F in Hn; lia. }
  assert (Eg : get_addr (m_img s1 (ind d1)) (k - NDIRECT) = 0).
  { unfold faddr in H0. rewrite (proj2 (Z.ltb_ge _ _)) in H0 by lia. fold (ind d1) in H0. rewrite (proj2 (Z.eqb_neq _ _) Hi), virt_data in H0 by lia. done. }
  set (buf := put_addr (m_img s1 (ind d1)) (k - NDIRECT) r). pose proof (la_blk _ L1 (ind d1)) as Hbl.
  assert (Hlb : length buf = 1024%nat) by (unfold buf, put_addr; rewrite length_putn; lia).
  exists (put_img (ind d1) buf s2), d1.
  assert (Vw : forall y, virt (put_img (ind d1) buf s2) y = zupd (alloc_view BM (virt s1) r) (ind d1) (put_addr (virt s1 (ind d1)) (k - NDIRECT) r) y).
  { intros y. rewrite put_img_virt by lia. unfold zupd at 1 2. destruct (y =? ind d1); [|apply V2]. by rewrite virt_data by lia. }
  destruct (grow_indirect BM DS SZ geo_bm geo_size (virt s1) d1 r I1 Hr Hu Hl _ k Vw) as (I' & G' & Hf'); [lia|done|by apply virt_len|done|].
  assert (Ek := Hf' k ltac:(lia)). rewrite Z.eqb_refl in Ek. split.
  - unfold block_for. rewrite (proj2 (Z.ltb_ge _ _)) by lia. rewrite (bind_Ret _ _ _ _ _ E1). cbv zeta. fold (ind d1). rewrite (xint_id (ind d1)) by lia.
    rewrite (bind_Ret _ _ _ _ _ (rsect_run (ind d1) s1 (la_len _ L1) ltac:(lia))), Eg. change (0 =? 0) with true. cbn match.
    rewrite !bind_assoc, (bind_Ret _ _ _ _ _ En), bind_assoc, (xint_id r) by lia. fold buf.
    rewrite (bind_Ret _ _ _ _ _ (wsect_run (ind d1) buf s2 (la_len _ L2) ltac:(lia))), bind_mret.
    unfold buf at 1. rewrite get_put_addr, Z.eqb_refl, Ek by (rewrite ?Hbl; done || lia). by rewrite xint_id by lia.
  - split; [apply put_img_laid; [done|unfold s2; cbn; lia|done]|done|by eapply grown_trans| | | |].
    + split; [|split; [lia|done]]. intros bn Hb. rewrite Hf', Hfa by done. destruct F as [Fm _].
      destruct (Z.eqb_spec bn k) as [->|Hn]; [lia|]. rewrite Fm by done. lia.
    + intros bn Hb E0. rewrite Hf', Hfa by done. destruct (bn =? k); [|done]. intros _. rewrite Vw, zupd_ne by lia. apply zupd_eq.
    + unfold s2. cbn [put_img set_img set_free m_freeblock]. lia.
    + eapply keeps_trans; [exact K1|]. eapply keeps_trans; [|apply put_img_keeps; lia]. done.
Qed.

Lemma place_run s d k fbn : laid s -> finv BM DS SZ (virt s) d -> filled (virt s) d k -> 0 <= fbn <= k -> fbn < MAXFILE ->
  let k' := Z.max k (fbn + 1) in m_freeblock s + nblk k' - nblk k <= SZ ->
  exists s' d', block_for host_ok d fbn s = Ret (d', faddr (virt s') d' fbn) s' /\ placed s d k k' s' d'.
Proof.
  intros L I F Hb Hm k' Hf. destruct (decide (fbn < k)) as [Hlt|Hge].
  - exists s, d. split; [apply (place_old s d k); done || lia|]. replace k' with k by lia. split; try done; [apply grown_refl|lia].
  - assert (fbn = k) as -> by lia. replace k' with (k + 1) in * by lia. destruct (decide (k < NDIRECT)) as [Hd|Hd].
    + apply place_direct; try done; try lia. rewrite nblk_direct in Hf by lia. lia.
    + apply place_indirect; try done; lia.
Qed.

(** ** Appending *)
(** The data blocks of [n] bytes. *)
Definition bcount (n : Z) : Z := (n + BSIZE - 1) / BSIZE.

Lemma bcount_step off n1 : 0 <= off -> 0 < n1 <= (off / BSIZE + 1) * BSIZE - off -> bcount (off + n1) = Z.max (bcount off) (off / BSIZE + 1).
Proof. unfold bcount. rewrite BSIZE_eq. intros. Z.to_euclidean_division_equations. lia. Qed.

Lemma bcount_mono a b : a <= b -> bcount a <= bcount b.
Proof. unfold bcount. intros. apply Z.div_le_mono; [done|lia]. Qed.

Lemma nblk_mono a b : a <= b -> nblk a <= nblk b.
Proof. unfold nblk. intros. destruct (Z.ltb_spec NDIRECT a), (Z.ltb_spec NDIRECT b); lia. Qed.

Lemma bcount_next off : 0 <= off -> bcount off <= off / BSIZE + 1.
Proof. unfold bcount. rewrite BSIZE_eq. intros. Z.to_euclidean_division_equations. lia. Qed.

Lemma bcount_at off : 0 <= off -> off / BSIZE <= bcount off.
Proof. unfold bcount. rewrite BSIZE_eq. intros. Z.to_euclidean_division_equations. lia. Qed.

(** The last block of the file is zero after [off]. *)
Definition tail_zero (v : Z -> list Z) (d : dinode) (off : Z) : Prop := forall k, off <= k < bcount off * BSIZE -> fbyte v d k = 0.

Record appended (s : mkst) (d : dinode) (off : Z) (p : list Z) (s' : mkst) (d' : dinode) : Prop := {
  ap_laid : laid s';
  ap_inv : finv BM DS SZ (virt s') d';
  ap_write : written BM (virt s) d (virt s') d' off p;
  ap_fill : filled (virt s') d' (bcount (off + Z.of_nat (length p)));
  ap_tail : tail_zero (virt s) d off -> tail_zero (virt s') d' (off + Z.of_nat (length p));
  ap_count : m_freeblock s' = m_freeblock s + nblk (bcount (off + Z.of_nat (length p))) - nblk (bcount off);
  ap_keep : keeps s s'
}.

(** One turn of the loop: the piece goes into its block. *)
Lemma append_piece s d off p : laid s -> finv BM DS SZ (virt s) d -> filled (virt s) d (bcount off) -> 0 <= off ->
  (0 < length p)%nat -> off mod BSIZE + Z.of_nat (length p) <= BSIZE -> off + Z.of_nat (length p) <= MAXFILE * BSIZE ->
  m_freeblock s + nblk (bcount (off + Z.of_nat (length p))) - nblk (bcount off) <= SZ ->
  exists s1 d1 x, block_for host_ok d (off / BSIZE) s = Ret (d1, x) s1 /\ rsect x s1 = Ret (m_img s1 x) s1 /\
    let s2 := put_img x (splice (m_img s1 x) (Z.to_nat (off mod BSIZE)) p) s1 in
    wsect x (splice (m_img s1 x) (Z.to_nat (off mod BSIZE)) p) s1 = Ret tt s2 /\ appended s d off p s2 d1.
Proof.
  intros L I F Ho Hp Hfit Hmax Hf. set (n := Z.of_nat (length p)) in *. set (fbn := off / BSIZE).
  pose proof (Z.mod_pos_bound off BSIZE ltac:(done)) as Hmod. pose proof (Z.div_mod off BSIZE ltac:(done)) as Hdm. fold fbn in Hdm.
  assert (Hb : 0 <= fbn < MAXFILE) by (apply block_of; lia).
  assert (Hk : bcount (off + n) = Z.max (bcount off) (fbn + 1)) by (apply bcount_step; unfold n; fold fbn; lia). rewrite Hk in Hf.
  destruct (place_run s d (bcount off) fbn L I F ltac:(split; [lia|by apply bcount_at]) ltac:(lia) Hf) as (s1 & d1 & E & [L1 I1 G1 F1 Z1 C1 K1]).
  set (x := faddr (virt s1) d1 fbn). exists s1, d1, x. assert (Hx : x <> 0) by (apply F1; lia).
  pose proof (fo_range _ _ _ _ (fi_ok _ _ _ _ _ I1) fbn Hb Hx) as Hr. fold x in Hr.
  pose proof (fo_ind_ne _ _ _ _ (fi_ok _ _ _ _ _ I1) fbn Hb Hx) as Hi. fold x (ind d1) in Hi.
  assert (Hxf : x < m_freeblock s1).
  { pose proof (fi_used _ _ _ _ _ I1 fbn Hb Hx) as Hu. fold x in Hu. rewrite virt_used in Hu by (done || rewrite BPB_eq; lia). by apply Z.ltb_lt in Hu. }
  split; [done|]. split; [apply rsect_run; [by apply L1|lia]|]. intros s2. split; [apply wsect_run; [by apply L1|lia]|].
  pose proof (la_blk _ L1 x) as Hlx. assert (Hsl : (Z.to_nat (off mod BSIZE) + length p <= length (m_img s1 x))%nat) by (rewrite Hlx; rewrite BSIZE_eq in *; lia).
  assert (V2 : forall y, virt s2 y = zupd (virt s1) x (splice (virt s1 x) (Z.to_nat (off mod BSIZE)) p) y).
  { intros y. unfold s2. rewrite put_img_virt by lia. unfold zupd. destruct (y =? x); [|done]. by rewrite virt_data by lia. }
  destruct (written_block BM DS SZ (virt s1) d1 (virt s2) off p geo_bm I1 Ho Hmax Hfit Hp Hx (virt_len _ _ L1) V2) as [W I2].
  assert (W' : written BM (virt s) d (virt s2) d1 off p).
  { pose proof (grown_written BM DS SZ _ _ _ _ off geo_bm I G1) as W0.
    apply (written_trans BM (virt s) d (virt s1) d1 (virt s2) d1 off [] p Ho); [cbn [length]; lia|done|]. cbn [length]. by rewrite Z.add_0_r. }
  split; [apply put_img_laid; [done|done|]|done|done| | |fold n; rewrite Hk; exact C1|].
  - rewrite length_splice_in; done.
  - fold n. rewrite Hk. destruct F1 as [Fm Fi]. split; [|done]. intros bn Hbn. rewrite <- Fm by done.
    assert (faddr (virt s2) d1 bn = faddr (virt s1) d1 bn) as ->; [|done].
    unfold faddr. fold (ind d1). rewrite V2. by rewrite zupd_ne by done.
  - intros Hz k Hkr. fold n in Hkr. rewrite Hk in Hkr. pose proof (bcount_next off Ho) as Hbn. fold fbn in Hbn.
    assert (Ek : k / BSIZE = fbn) by (rewrite BSIZE_eq in *; Z.to_euclidean_division_equations; nia).
    assert (Hkm : 0 <= k < MAXFILE * BSIZE) by (rewrite MAXFILE_eq, BSIZE_eq in *; Z.to_euclidean_division_equations; lia).
    destruct (decide (faddr (virt s) d fbn = 0)) as [E0|E0].
    + rewrite (wt_byte _ _ _ _ _ _ _ W), inr_false by (done || (left; by rewrite Ek) || fold n; lia).
      unfold fbyte. rewrite Ek. rewrite (Z1 fbn Hb E0 Hx). unfold zero_block. apply lookup_total_replicate_2.
      pose proof (Z.mod_pos_bound k BSIZE ltac:(done)). lia.
    + rewrite (wt_byte _ _ _ _ _ _ _ W'), inr_false by (done || (left; by rewrite Ek) || fold n; lia). apply Hz.
      assert (fbn < bcount off) by (apply F; done). rewrite BSIZE_eq in *. Z.to_euclidean_division_equations. nia.
  - eapply keeps_trans; [exact K1|]. apply put_img_keeps. lia.
Qed.

Lemma appended_trans s d off p1 p2 s1 d1 s2 d2 : 0 <= off -> off + Z.of_nat (length p1 + length p2) <= MAXFILE * BSIZE ->
  appended s d off p1 s1 d1 -> appended s1 d1 (off + Z.of_nat (length p1)) p2 s2 d2 -> appended s d off (p1 ++ p2) s2 d2.
Proof.
  intros Ho Hm [L1 I1 W1 F1 T1 C1 K1] [L2 I2 W2 F2 T2 C2 K2].
  assert (El : off + Z.of_nat (length (p1 ++ p2)) = off + Z.of_nat (length p1) + Z.of_nat (length p2)) by (rewrite length_app; lia).
  split; rewrite ?El; [done|done|by apply (written_trans BM _ _ (virt s1) d1)|done|by intros; apply T2, T1|lia|by eapply keeps_trans].
Qed.

Lemma iappend_loop_run fuel : forall s d off p, laid s -> finv BM DS SZ (virt s) d -> filled (virt s) d (bcount off) -> 0 <= off ->
  off + Z.of_nat (length p) <= MAXFILE * BSIZE -> m_freeblock s + nblk (bcount (off + Z.of_nat (length p))) - nblk (bcount off) <= SZ ->
  (length p < fuel)%nat ->
  exists s' d', iappend_loop host_ok fuel d off p s = Ret (d', off + Z.of_nat (length p)) s' /\ appended s d off p s' d'.
Proof.
  induction fuel as [|fuel IH]; intros s d off p L I F Ho Hmax Hf Hfuel; [lia|]. cbn [iappend_loop]. set (n := Z.of_nat (length p)) in *.
  destruct (Z.ltb_spec 0 n) as [Hn|Hn].
  2:{ assert (p = []) as -> by (destruct p; [done|cbn in n; lia]). exists s, d. replace (off + n) with off in * by lia. split; [done|].
      split; try done; rewrite ?Z.add_0_r; [|done|done|lia]. apply (grown_written BM DS SZ); [apply geo_bm|done|apply grown_refl]. }
  pose proof (Z.mod_pos_bound off BSIZE ltac:(done)) as Hmod. pose proof (Z.div_mod off BSIZE ltac:(done)) as Hdm.
  assert (Hb : 0 <= off / BSIZE < MAXFILE) by (apply block_of; lia). rewrite (proj2 (Z.leb_gt _ _)) by lia.
  set (n1 := Z.min n ((off / BSIZE + 1) * BSIZE - off)). assert (Hn1 : 0 < n1 <= n) by lia.
  set (p1 := take (Z.to_nat n1) p). set (p2 := drop (Z.to_nat n1) p).
  assert (Hp1 : Z.of_nat (length p1) = n1) by (unfold p1; rewrite length_take; lia).
  assert (Hp2 : Z.of_nat (length p2) = n - n1) by (unfold p2; rewrite length_drop; lia).
  pose proof (nblk_mono _ _ (bcount_mono (off + n1) (off + n) ltac:(lia))) as Hmono.
  destruct (append_piece s d off p1 L I F Ho) as (s1 & d1 & x & E1 & E2 & E3 & A1); rewrite ?Hp1; try lia.
  rewrite (bind_Ret _ _ _ _ _ E1). cbn match. rewrite (bind_Ret _ _ _ _ _ E2).
  replace (off - off / BSIZE * BSIZE) with (off mod BSIZE) by lia. rewrite (bind_Ret _ _ _ _ _ E3).
  set (s2 := put_img x _ s1) in *. destruct A1 as [L2 I2 W2 F2 T2 C2 K2]. rewrite Hp1 in F2, T2, C2.
  destruct (IH s2 d1 (off + n1) p2 L2 I2 F2) as (s' & d' & E & A2); rewrite ?Hp2; try lia.
  { rewrite C2. replace (off + n1 + (n - n1)) with (off + n) by lia. lia. }
  exists s', d'. split; [rewrite E; do 2 f_equal; lia|]. rewrite <- (take_drop (Z.to_nat n1) p). fold p1 p2.
  apply (appended_trans _ _ _ _ _ s2 d1); [done|lia| |by rewrite Hp1]. split; rewrite ?Hp1; done.
Qed.

(** ** Inodes *)
Definition inode_at (s : mkst) (i : Z) : dinode := get_dinode (m_img s (33 + i / 16)) (dinode_off i).

Lemma iblock_eq s i : laid s -> 0 <= i < 208 -> IBLOCK i (m_sb s) = 33 + i / 16 /\ 33 <= 33 + i / 16 < 46.
Proof.
  intros L Hi. assert (0 <= i / 16 < 13) by (Z.to_euclidean_division_equations; lia). rewrite (la_sb _ L). unfold IBLOCK. cbn [sb_inodestart].
  rewrite IPB_eq, u32_small by lia. lia.
Qed.

Lemma rinode_run s i : laid s -> 0 <= i < 208 -> rinode host_ok i s = Ret (inode_at s i) s.
Proof.
  intros L Hi. destruct (iblock_eq s i L Hi) as [E Hb]. unfold rinode. change ((gets m_sb ≫= ?h) s) with (h (m_sb s) s). cbv beta. rewrite E.
  by rewrite (bind_Ret _ _ _ _ _ (rsect_run (33 + i / 16) s (la_len _ L) ltac:(lia))).
Qed.

Definition put_inode (i : Z) (d : dinode) (s : mkst) : mkst := put_img (33 + i / 16) (put_dinode (m_img s (33 + i / 16)) (dinode_off i) d) s.

Lemma winode_run s i d : laid s -> 0 <= i < 208 -> winode host_ok i d s = Ret tt (put_inode i d s).
Proof.
  intros L Hi. destruct (iblock_eq s i L Hi) as [E Hb]. unfold winode. change ((gets m_sb ≫= ?h) s) with (h (m_sb s) s). cbv beta. rewrite E.
  rewrite (bind_Ret _ _ _ _ _ (rsect_run (33 + i / 16) s (la_len _ L) ltac:(lia))). apply wsect_run; [by apply L|lia].
Qed.

Lemma get_dinode_ext bs bs' off : (forall n k, (off <= k)%nat -> (k + n <= off + 64)%nat -> getn n bs k = getn n bs' k) -> get_dinode bs off = get_dinode bs' off.
Proof.
  intros H. unfold get_dinode. rewrite !(H 2%nat), (H 4%nat) by lia. f_equal. apply list_fmap_ext. intros i k Hk.
  apply lookup_seq in Hk as [-> Hk]. apply H; lia.
Qed.

Lemma put_inode_at s i d j : laid s -> 0 <= i < 208 -> 0 <= j < 208 -> dinode_ok d ->
  inode_at (put_inode i d s) j = if j =? i then d else inode_at s j.
Proof.
  intros L Hi Hj Hd. unfold inode_at, put_inode, put_img. cbn [set_img m_img]. pose proof (dinode_off_room i) as Hr. pose proof (la_blk _ L (33 + i / 16)) as Hl.
  destruct (Z.eqb_spec j i) as [->|Hn]; [rewrite zupd_eq; apply get_put_dinode; [done|lia]|].
  destruct (decide (j / 16 = i / 16)) as [E|E]; [|by rewrite zupd_ne by lia]. rewrite E, zupd_eq. apply get_dinode_ext. intros n k Hk Hkn.
  apply getn_put_dinode; [apply Hd|lia|]. unfold dinode_off in *. rewrite IPB_eq in *. change sizeof_dinode with 64 in *.
  Z.to_euclidean_division_equations. lia.
Qed.

Lemma put_inode_laid s i d : laid s -> 0 <= i < 208 -> length (d_addrs d) = 13%nat -> laid (put_inode i d s).
Proof.
  intros L Hi Hd. pose proof (dinode_off_room i) as Hr. pose proof (la_blk _ L (33 + i / 16)) as Hl. destruct (iblock_eq s i L Hi). pose proof (la_free _ L).
  apply put_img_laid; [done|lia|]. rewrite length_put_dinode by (done || lia). done.
Qed.

Lemma put_inode_img s i d y : laid s -> 0 <= i < 208 -> ~ 33 <= y < 46 -> m_img (put_inode i d s) y = m_img s y.
Proof. intros L Hi Hy. destruct (iblock_eq s i L Hi). cbn [put_inode put_img set_img m_img]. by rewrite zupd_ne by lia. Qed.

Lemma put_inode_virt s i d y : laid s -> 0 <= i < 208 -> BM <= y -> virt (put_inode i d s) y = virt s y.
Proof.
  intros L Hi Hy. destruct (iblock_eq s i L Hi). unfold put_inode. rewrite put_img_virt by lia. by rewrite zupd_ne by lia.
Qed.

Lemma keeps_inode s s' i : keeps s s' -> 0 <= i < 208 -> inode_at s' i = inode_at s i.
Proof. intros [_ K] Hi. unfold inode_at. rewrite K; [done|]. Z.to_euclidean_division_equations. lia. Qed.

(** ** Files *)
(** The inode [d] is a file of type [t] with the contents [c]. *)
Record node (v : Z -> list Z) (d : dinode) (t : Z) (c : list Z) : Prop := {
  nd_type : 0 <= t < 2 ^ 15;
  nd_d : d = mkDinode t 0 0 1 (Z.of_nat (length c)) (d_addrs d);
  nd_inv : finv BM DS SZ v d;
  nd_fill : filled v d (bcount (Z.of_nat (length c)));
  nd_data : forall k, 0 <= k < Z.of_nat (length c) -> fbyte v d k = c !!! Z.to_nat k;
  nd_tail : tail_zero v d (Z.of_nat (length c))
}.

(** A block of the file. *)
Definition owns (v : Z -> list Z) (d : dinode) (b : Z) : Prop := b <> 0 /\ (ind d = b \/ exists bn, 0 <= bn < MAXFILE /\ faddr v d bn = b).

Lemma owns_used v d b : finv BM DS SZ v d -> owns v d b -> DS <= b < SZ /\ usedv BM v b = true.
Proof.
  intros I [Hb [E|(bn & Hbn & E)]]; subst b.
  - split; [by apply (fo_ind _ _ _ _ (fi_ok _ _ _ _ _ I))|by apply (fi_ind _ _ _ _ _ I)].
  - split; [by apply (fo_range _ _ _ _ (fi_ok _ _ _ _ _ I))|by apply (fi_used _ _ _ _ _ I)].
Qed.

Lemma faddr_frame v w d bn : (ind d <> 0 -> w (ind d) = v (ind d)) -> faddr w d bn = faddr v d bn.
Proof.
  intros H. unfold faddr. fold (ind d). destruct (bn <? NDIRECT); [done|]. destruct (Z.eqb_spec (ind d) 0) as [|Hn]; [done|]. by rewrite H.
Qed.

(** A file whose blocks are as they were is as it was. *)
Lemma file_frame v w d t c : node v d t c -> (forall y, owns v d y -> w y = v y) -> (forall b, usedv BM v b = true -> usedv BM w b = true) ->
  node w d t c /\ forall b, owns w d b <-> owns v d b.
Proof.
  intros [Ht Hd I F Hc Hz] Hw Hu. assert (Hf : forall bn, faddr w d bn = faddr v d bn).
  { intros bn. apply faddr_frame. intros Hn. apply Hw. split; [done|by left]. }
  split; [|intros b; unfold owns; by setoid_rewrite Hf].
  pose proof (fo_size _ _ _ _ (fi_ok _ _ _ _ _ I)) as Hs. rewrite Hd in Hs. cbn [d_size] in Hs.
  assert (Hby : forall k, 0 <= k < bcount (Z.of_nat (length c)) * BSIZE -> fbyte w d k = fbyte v d k).
  { intros k Hk. unfold fbyte. rewrite Hf. rewrite Hw; [done|].
    assert (Hb : 0 <= k / BSIZE < MAXFILE) by (unfold bcount in Hk; rewrite MAXFILE_eq, BSIZE_eq in *; Z.to_euclidean_division_equations; lia).
    assert (Hn : faddr v d (k / BSIZE) <> 0) by (apply F; [done|]; rewrite BSIZE_eq in *; Z.to_euclidean_division_equations; lia).
    split; [done|]. right. by exists (k / BSIZE). }
  split; [done|done| | | |].
  - destruct I as [[K1 K2 K3 K4 K5 K6 K7] U1 U2 U3]. split; [split|..]; try done.
    + intros bn. rewrite Hf. apply K3.
    + intros bn. rewrite Hf. apply K4.
    + intros bn bn'. rewrite !Hf. apply K6.
    + intros bn. rewrite Hf. apply K7.
    + intros bn Hb. rewrite Hf. intros Hn. by apply Hu, U1.
    + intros Hn. by apply Hu, U2.
    + intros b Hb. by apply Hu, U3.
  - destruct F as [Fm Fi]. split; [|done]. intros bn Hb. rewrite Hf. by apply Fm.
  - intros k Hk. rewrite <- Hc by done. apply Hby. unfold bcount. rewrite BSIZE_eq. Z.to_euclidean_division_equations. lia.
  - intros k Hk. rewrite Hby by lia. by apply Hz.
Qed.

Fixpoint total (F : list (Z * list Z)) : Z :=
  match F with [] => 0 | f :: F => nblk (bcount (Z.of_nat (length (snd f)))) + total F end.

Definition cost (c : list Z) : Z := nblk (bcount (Z.of_nat (length c))).

Lemma total_insert F i t c t' c' : F !! i = Some (t, c) -> total (<[i := (t', c')]> F) = total F - cost c + cost c'.
Proof.
  revert i. induction F as [|f F IH]; intros [|i] E; try done; [injection E as ->; unfold cost; cbn; lia|].
  specialize (IH i E). change (<[S i := (t', c')]> (f :: F)) with (f :: <[i := (t', c')]> F). cbn [total]. lia.
Qed.

Lemma total_files_app F G : total (F ++ G) = total F + total G.
Proof. induction F as [|f F IH]; [done|]. cbn. lia. Qed.

Definition no_inode : dinode := mkDinode 0 0 0 0 0 (replicate 13 0).

(** The image holds the files [F], by inode number from 1. *)
Record holds (s : mkst) (F : list (Z * list Z)) : Prop := {
  h_laid : laid s;
  h_inodes : m_freeinode s = 1 + Z.of_nat (length F) /\ 1 + Z.of_nat (length F) <= 200;
  h_node : forall i t c, F !! i = Some (t, c) -> node (virt s) (inode_at s (Z.of_nat i + 1)) t c;
  h_apart : forall i j, (i < length F)%nat -> (j < length F)%nat -> i <> j -> forall b,
    owns (virt s) (inode_at s (Z.of_nat i + 1)) b -> ~ owns (virt s) (inode_at s (Z.of_nat j + 1)) b;
  h_rest : forall i, 0 <= i < 208 -> i = 0 \/ 1 + Z.of_nat (length F) <= i -> inode_at s i = no_inode;
  h_count : m_freeblock s = DS + total F;
  h_sblk : m_img s 1 = sb_block disk_sb;
  h_log : forall b, b = 0 \/ 2 <= b < 33 -> m_img s b = zero_block
}.

(** What an appended file owns, it owned before or it was free. *)
Lemma appended_owns s d off p s1 d1 b : appended s d off p s1 d1 -> owns (virt s1) d1 b -> owns (virt s) d b \/ usedv BM (virt s) b = false.
Proof.
  intros A [Hb [E|(bn & Hbn & E)]]; pose proof (ap_write _ _ _ _ _ _ A) as W; subst b.
  - destruct (decide (ind d = 0)) as [E0|Hn]; [right; by apply (wt_ind_fresh _ _ _ _ _ _ _ W)|].
    left. rewrite (wt_ind _ _ _ _ _ _ _ W Hn). split; [done|by left].
  - destruct (decide (faddr (virt s) d bn = 0)) as [E0|Hn]; [right; by apply (wt_fresh _ _ _ _ _ _ _ W)|].
    left. rewrite (wt_old _ _ _ _ _ _ _ W bn Hbn Hn). split; [done|]. right. by exists bn.
Qed.

(** The file after [iappend] wrote its inode. *)
Lemma appended_node s d t c p s1 d1 i : node (virt s) d t c -> 0 <= i < 208 ->
  Z.of_nat (length c) + Z.of_nat (length p) <= MAXFILE * BSIZE -> appended s d (Z.of_nat (length c)) p s1 d1 ->
  let d2 := set_size (Z.of_nat (length (c ++ p))) d1 in
  dinode_ok d2 /\ node (virt (put_inode i d2 s1)) d2 t (c ++ p) /\ (forall b, owns (virt (put_inode i d2 s1)) d2 b <-> owns (virt s1) d1 b).
Proof.
  intros [Ht Hd I F Hc Hz] Hi Hm [L1 I1 W F1 T1 C1 K1] d2. set (n := Z.of_nat (length (c ++ p))) in *.
  assert (En : n = Z.of_nat (length c) + Z.of_nat (length p)) by (unfold n; rewrite length_app; lia). rewrite <- En in *.
  pose proof (wt_d _ _ _ _ _ _ _ W) as Ed1. assert (Es : d_size d = Z.of_nat (length c)) by (by rewrite Hd).
  assert (Es1 : d_size d1 = Z.of_nat (length c)) by (rewrite Ed1; cbn [d_size]; by rewrite Es).
  assert (Hw : forall y, BM <= y -> virt (put_inode i d2 s1) y = virt s1 y) by (intros y Hy; by apply put_inode_virt).
  assert (Hmap : forall bn, 0 <= bn -> bn * BSIZE < n -> faddr (virt s1) d1 bn <> 0).
  { intros bn Hb Hlt. apply F1; [rewrite MAXFILE_eq, BSIZE_eq in *; lia|]. unfold bcount. rewrite BSIZE_eq in *. Z.to_euclidean_division_equations. lia. }
  assert (I2 : finv BM DS SZ (virt (put_inode i d2 s1)) d2).
  { apply (finv_resize DS geo (virt s1)); [apply geo_bm|exact I1|exact Hw|lia|exact Hmap]. }
  assert (Hf : forall bn, faddr (virt (put_inode i d2 s1)) d2 bn = faddr (virt s1) d1 bn).
  { intros bn. change (faddr (virt (put_inode i d2 s1)) d1 bn = faddr (virt s1) d1 bn). apply faddr_frame. intros Hn. apply Hw.
    pose proof (fo_ind _ _ _ _ (fi_ok _ _ _ _ _ I1) Hn). unfold ind. lia. }
  assert (Hd2 : d2 = mkDinode t 0 0 1 n (d_addrs d2)) by (unfold d2, set_size; rewrite Ed1, Hd; done).
  split_and!.
  - apply (dinode_ok_finv DS geo (virt (put_inode i d2 s1))); [apply geo_bm|apply geo_size|exact I2|..]; rewrite Hd2; cbn [d_type d_major d_minor d_nlink]; lia.
  - assert (Hby : forall k, 0 <= k < bcount n * BSIZE -> fbyte (virt (put_inode i d2 s1)) d2 k = fbyte (virt s1) d1 k).
    { intros k Hk. assert (Hb : 0 <= k / BSIZE < MAXFILE) by (unfold bcount in Hk; rewrite MAXFILE_eq, BSIZE_eq in *; Z.to_euclidean_division_equations; lia).
      assert (Hn : faddr (virt s1) d1 (k / BSIZE) <> 0) by (apply F1; [done|]; rewrite BSIZE_eq in *; Z.to_euclidean_division_equations; lia).
      pose proof (fo_range _ _ _ _ (fi_ok _ _ _ _ _ I1) _ Hb Hn) as Hr. unfold fbyte. by rewrite Hf, Hw by lia. }
    split; [done|done|done| | |].
    + destruct F1 as [Fm Fi]. split; [|exact Fi]. intros bn Hb. rewrite Hf. by apply Fm.
    + fold n. intros k Hk. assert (Hb : 0 <= k / BSIZE < MAXFILE) by (apply block_of; lia).
      rewrite Hby by (unfold bcount; rewrite BSIZE_eq; Z.to_euclidean_division_equations; lia). destruct (decide (k < Z.of_nat (length c))) as [Hkc|Hkc].
      * rewrite (wt_byte _ _ _ _ _ _ _ W), inr_false; [|lia|lia|].
        -- rewrite lookup_total_app_l by lia. apply Hc. lia.
        -- left. apply F; [done|]. unfold bcount. rewrite BSIZE_eq in *. Z.to_euclidean_division_equations. lia.
      * rewrite (wt_byte _ _ _ _ _ _ _ W), inr_true; [|lia|lia|right; lia]. rewrite lookup_total_app_r by lia. f_equal. lia.
    + fold n. intros k Hk. rewrite Hby by lia. by apply T1.
  - intros b. unfold owns. setoid_rewrite Hf. done.
Qed.

(** A file apart from the one appended to is as it was. *)
Lemma append_other s d off p s1 d1 i d2 d' t c : node (virt s) d' t c -> appended s d off p s1 d1 -> 0 <= i < 208 ->
  (forall b, owns (virt s) d b -> ~ owns (virt s) d' b) ->
  node (virt (put_inode i d2 s1)) d' t c /\ forall b, owns (virt (put_inode i d2 s1)) d' b <-> owns (virt s) d' b.
Proof.
  intros N [L1 I1 W F1 _ C1 K1] Hi Ha. apply file_frame; [done| |].
  - intros y Hy. destruct (owns_used _ _ _ (nd_inv _ _ _ _ N) Hy) as [Hr Hu]. rewrite put_inode_virt by (done || lia).
    apply (wt_frame _ _ _ _ _ _ _ W); [lia|done| |].
    + intros ->. apply (Ha (ind d)); [|done]. split; [lia|by left].
    + intros bn Hb E. apply (Ha y); [|done]. split; [lia|]. right. by exists bn.
  - intros b Hb. pose proof (wt_used _ _ _ _ _ _ _ W b Hb) as Hu. unfold usedv in *. by rewrite put_inode_virt by (done || lia).
Qed.

Lemma iappend_run s F i t c p : holds s F -> F !! i = Some (t, c) -> Z.of_nat (length c) + Z.of_nat (length p) <= MAXFILE * BSIZE ->
  m_freeblock s + cost (c ++ p) - cost c <= SZ ->
  exists s', iappend host_ok (Z.of_nat i + 1) p s = Ret tt s' /\ holds s' (<[i := (t, c ++ p)]> F).
Proof.
  intros [L [Hi1 Hi2] Nd Ap Re Co Sb Lg] E Hm Hf. pose proof (lookup_lt_Some _ _ _ E) as Hil. set (x := Z.of_nat i + 1).
  assert (Hx : 0 <= x < 208) by lia. pose proof (Nd i t c E) as N. fold x in N. set (d := inode_at s x) in *.
  assert (Es : d_size d = Z.of_nat (length c)) by (by rewrite (nd_d _ _ _ _ N)).
  unfold cost in Hf. rewrite length_app, Nat2Z.inj_add in Hf.
  destruct (iappend_loop_run (S (length p)) s d (Z.of_nat (length c)) p L (nd_inv _ _ _ _ N) (nd_fill _ _ _ _ N)) as (s1 & d1 & E1 & A); [lia|lia|lia|lia|].
  destruct (appended_node s d t c p s1 d1 x N Hx Hm A) as (Hok2 & N2 & Ow2). set (d2 := set_size _ d1) in *.
  exists (put_inode x d2 s1). rewrite MAXFILE_eq, BSIZE_eq in Hm. pose proof (ap_laid _ _ _ _ _ _ A) as L1. pose proof (ap_keep _ _ _ _ _ _ A) as K1.
  assert (Hat : forall j, 0 <= j < 208 -> inode_at (put_inode x d2 s1) j = if j =? x then d2 else inode_at s j).
  { intros j Hj. rewrite put_inode_at by done. destruct (j =? x); [done|]. by apply keeps_inode. }
  assert (Hother : forall j t' c', j <> i -> F !! j = Some (t', c') -> node (virt (put_inode x d2 s1)) (inode_at s (Z.of_nat j + 1)) t' c' /\
    forall b, owns (virt (put_inode x d2 s1)) (inode_at s (Z.of_nat j + 1)) b <-> owns (virt s) (inode_at s (Z.of_nat j + 1)) b).
  { intros j t' c' Hj E'. apply (append_other s d (Z.of_nat (length c)) p s1 d1); [by apply Nd|done|done|].
    pose proof (lookup_lt_Some _ _ _ E'). by apply Ap. }
  assert (Hnew : forall j b, j <> i -> (j < length F)%nat -> owns (virt (put_inode x d2 s1)) d2 b -> ~ owns (virt s) (inode_at s (Z.of_nat j + 1)) b).
  { intros j b Hj Hjl Ho Ho'. apply Ow2 in Ho. destruct (appended_owns _ _ _ _ _ _ _ A Ho) as [Hold|Hfree]; [by apply (Ap i j Hil Hjl ltac:(done) b Hold)|].
    destruct (lookup_lt_is_Some_2 _ _ Hjl) as [[t' c'] Ej]. destruct (owns_used _ _ _ (nd_inv _ _ _ _ (Nd _ _ _ Ej)) Ho') as [_ Hu]. congruence. }
  split.
  - unfold iappend. rewrite (bind_Ret _ _ _ _ _ (rinode_run s x L Hx)). fold d. rewrite Es, (xint_id (Z.of_nat (length c))) by lia.
    rewrite (bind_Ret _ _ _ _ _ E1). cbn match. rewrite xint_id by lia. unfold d2. rewrite length_app, Nat2Z.inj_add. by apply winode_run.
  - split; rewrite ?length_insert.
    + apply put_inode_laid; [done|done|apply Hok2].
    + cbn [put_inode put_img set_img m_freeinode]. destruct K1 as [-> _]. done.
    + intros j t' c' Ej. destruct (decide (j = i)) as [->|Hn].
      * rewrite list_lookup_insert_eq in Ej by done. injection Ej as <- <-. rewrite Hat by lia. fold x. by rewrite Z.eqb_refl.
      * rewrite list_lookup_insert_ne in Ej by done. pose proof (lookup_lt_Some _ _ _ Ej). rewrite Hat, (proj2 (Z.eqb_neq _ x)) by lia. by apply Hother.
    + intros j j' Hj Hj' Hn b. rewrite !Hat by lia.
      destruct (lookup_lt_is_Some_2 _ _ Hj) as [[t1 c1] Ej]. destruct (lookup_lt_is_Some_2 _ _ Hj') as [[t2 c2] Ej'].
      destruct (Z.eqb_spec (Z.of_nat j + 1) x), (Z.eqb_spec (Z.of_nat j' + 1) x); try lia.
      * intros Ho. rewrite (proj2 (Hother j' t2 c2 ltac:(lia) Ej')). by apply Hnew; [lia|..].
      * rewrite (proj2 (Hother j t1 c1 ltac:(lia) Ej)). intros Ho Ho'. by apply (Hnew j b ltac:(lia) Hj Ho').
      * rewrite (proj2 (Hother j t1 c1 ltac:(lia) Ej)), (proj2 (Hother j' t2 c2 ltac:(lia) Ej')). by apply Ap.
    + intros j Hj Hc'. rewrite Hat, (proj2 (Z.eqb_neq j x)) by lia. by apply Re.
    + cbn [put_inode put_img set_img m_freeblock]. rewrite (ap_count _ _ _ _ _ _ A), (total_insert F i t c t (c ++ p) E). unfold cost.
      rewrite length_app, Nat2Z.inj_add. lia.
    + rewrite put_inode_img by (done || lia). destruct K1 as [_ ->]; [done|lia].
    + intros b Hb. rewrite put_inode_img by (done || lia). destruct K1 as [_ ->]; [by apply Lg|lia].
Qed.

(** ** Making files *)
Lemma get_dinode_zero off : get_dinode zero_block off = no_inode.
Proof.
  assert (H : forall n k, getn n zero_block k = 0) by (intros n k; unfold getn, zero_block; rewrite drop_replicate, take_replicate; apply le_val_zeros).
  unfold get_dinode, no_inode. cbn [seq fmap list_fmap]. by rewrite !H.
Qed.

Lemma empty_node s t : laid s -> 0 <= t < 2 ^ 15 -> node (virt s) (mkDinode t 0 0 1 0 (replicate 13 0)) t [].
Proof.
  intros L Ht. set (d := mkDinode t 0 0 1 0 (replicate 13 0)).
  assert (Ei : ind d = 0) by done. assert (Hf : forall bn, 0 <= bn < MAXFILE -> faddr (virt s) d bn = 0).
  { intros bn Hb. unfold faddr. fold (ind d). rewrite Ei. change (0 =? 0) with true. cbn match. rewrite NDIRECT_eq. destruct (Z.ltb_spec bn 12); [|done].
    cbn [d d_addrs]. apply lookup_total_replicate_2. lia. }
  split; [done|done| |split; [|rewrite Ei; done]|..].
  - split.
    + split; [done|done| | |done| |].
      * intros bn Hb Hlt. cbn [d d_size] in Hlt. rewrite BSIZE_eq in Hlt. lia.
      * intros bn Hb. by rewrite Hf.
      * intros bn bn' Hb Hb'. by rewrite Hf.
      * intros bn Hb. by rewrite Hf.
    + intros bn Hb. by rewrite Hf.
    + done.
    + intros b Hb. rewrite virt_used by (done || rewrite BPB_eq; lia). pose proof (la_free _ L). apply Z.ltb_lt. lia.
  - intros bn Hb. rewrite Hf by done. change (bcount (Z.of_nat (length (@nil Z)))) with 0. lia.
  - intros k Hk. cbn [length] in Hk. lia.
  - intros k Hk. change (bcount (Z.of_nat (length (@nil Z)))) with 0 in Hk. lia.
Qed.

Lemma empty_owns v t b : ~ owns v (mkDinode t 0 0 1 0 (replicate 13 0)) b.
Proof.
  intros [Hb [E|(bn & Hbn & E)]]; [by subst b|]. unfold faddr in E. cbn [d_addrs] in E. change (replicate 13 0 !!! Z.to_nat NDIRECT) with 0 in E.
  change (0 =? 0) with true in E. cbn match in E. rewrite NDIRECT_eq in E. destruct (Z.ltb_spec bn 12); [|congruence].
  rewrite lookup_total_replicate_2 in E by lia. congruence.
Qed.

Lemma ialloc_run s F t : holds s F -> 2 + Z.of_nat (length F) <= 200 -> t = T_DIR \/ t = T_FILE ->
  exists s', ialloc host_ok t s = Ret (Z.of_nat (length F) + 1) s' /\ holds s' (F ++ [(t, [])]).
Proof.
  intros [L [Hi1 Hi2] Nd Ap Re Co Sb Lg] Hr Ht. set (x := Z.of_nat (length F) + 1). set (d := mkDinode t 0 0 1 0 (replicate 13 0)).
  assert (Ht' : 0 <= t < 2 ^ 15) by (destruct Ht as [->| ->]; done). assert (Hx : 0 <= x < 208) by lia.
  set (s1 := mkMk (m_img s) (m_len s) (m_sb s) (x + 1) (m_freeblock s)).
  assert (L1 : laid s1) by (destruct L; by split). assert (Hd : dinode_ok d) by (split; cbn [d d_type d_major d_minor d_nlink d_size d_addrs]; done || lia || (repeat constructor; done)).
  exists (put_inode x d s1). set (s2 := put_inode x d s1) in *. assert (L2 : laid s2) by (by apply put_inode_laid).
  assert (V : forall y, BM <= y -> virt s2 y = virt s y) by (intros y Hy; unfold s2; by rewrite put_inode_virt).
  assert (Hat : forall j, 0 <= j < 208 -> inode_at s2 j = if j =? x then d else inode_at s j) by (intros j Hj; unfold s2; by rewrite put_inode_at).
  assert (Hother : forall j t' c', F !! j = Some (t', c') -> node (virt s2) (inode_at s (Z.of_nat j + 1)) t' c' /\
    forall b, owns (virt s2) (inode_at s (Z.of_nat j + 1)) b <-> owns (virt s) (inode_at s (Z.of_nat j + 1)) b).
  { intros j t' c' E. apply file_frame; [by apply Nd| |].
    - intros y Hy. destruct (owns_used _ _ _ (nd_inv _ _ _ _ (Nd _ _ _ E)) Hy). apply V. lia.
    - intros b. unfold usedv. by rewrite V by lia. }
  split.
  - unfold ialloc. change ((gets m_freeinode ≫= ?h) s) with (h (m_freeinode s) s). cbv beta. rewrite Hi1. replace (1 + Z.of_nat (length F)) with x by lia.
    change ((modS ?g ≫= ?h) s) with (h tt (g s)). cbv beta. rewrite u32_small by lia. fold s1.
    replace (i16 (xshort t)) with t by (destruct Ht as [->| ->]; done). change (i16 (xshort 1)) with 1. change (xint 0) with 0. fold d.
    by rewrite (bind_Ret _ _ _ _ _ (winode_run s1 x d L1 Hx)).
  - split; rewrite ?length_app, ?Nat2Z.inj_add; cbn [length].
    + done.
    + cbn [s2 put_inode put_img set_img m_freeinode s1]. lia.
    + intros j t' c' Ej. pose proof (lookup_lt_Some _ _ _ Ej) as Hj. rewrite length_app in Hj. cbn [length] in Hj. rewrite Hat by lia.
      destruct (decide (j = length F)) as [->|Hn].
      * rewrite (proj2 (Z.eqb_eq _ _)) by done. rewrite lookup_app_r, Nat.sub_diag in Ej by done. injection Ej as <- <-. by apply empty_node.
      * rewrite lookup_app_l in Ej by lia. rewrite (proj2 (Z.eqb_neq _ x)) by lia. by apply Hother.
    + intros j j' Hj Hj' Hn b. rewrite !Hat by lia. destruct (Z.eqb_spec (Z.of_nat j + 1) x); [intros Ho; by destruct (empty_owns _ _ _ Ho)|].
      destruct (Z.eqb_spec (Z.of_nat j' + 1) x); [intros _; apply empty_owns|].
      assert (Hjl : (j < length F)%nat) by lia. assert (Hjl' : (j' < length F)%nat) by lia.
      destruct (lookup_lt_is_Some_2 _ _ Hjl) as [[t1 c1] Ej]. destruct (lookup_lt_is_Some_2 _ _ Hjl') as [[t2 c2] Ej'].
      rewrite (proj2 (Hother j t1 c1 Ej)), (proj2 (Hother j' t2 c2 Ej')). by apply Ap.
    + intros j Hj Hc. rewrite Hat, (proj2 (Z.eqb_neq j x)) by lia. apply Re; lia.
    + rewrite total_files_app. cbn [total snd length]. change (nblk (bcount (Z.of_nat 0))) with 0. cbn [s2 put_inode put_img set_img m_freeblock s1]. lia.
    + unfold s2. by rewrite put_inode_img by (done || lia).
    + intros b Hb. unfold s2. rewrite put_inode_img by (done || lia). by apply Lg.
Qed.

Lemma cost_mono c c' : (length c <= length c')%nat -> cost c <= cost c'.
Proof. intros H. apply nblk_mono, bcount_mono. lia. Qed.

Lemma cost_pos c : 0 <= cost c.
Proof. apply (Z.le_trans _ (cost [])); [done|]. apply cost_mono. cbn. lia. Qed.

Lemma copy_in_run rs : forall s F i t c, holds s F -> F !! i = Some (t, c) -> Z.of_nat (length c) + Z.of_nat (length (file_data rs)) <= MAXFILE * BSIZE ->
  m_freeblock s + cost (c ++ file_data rs) - cost c <= SZ ->
  exists s', copy_in host_ok (Z.of_nat i + 1) rs s = Ret tt s' /\ holds s' (<[i := (t, c ++ file_data rs)]> F).
Proof.
  induction rs as [|[[|b bs]|] rs IH]; intros s F i t c H E Hm Hf; try (exists s; split; [done|]; cbn [file_data]; by rewrite app_nil_r, list_insert_id).
  cbn [copy_in file_data] in *. rewrite length_app in Hm. set (p := b :: bs) in *. set (q := file_data rs) in *.
  assert (Hq : cost (c ++ p) <= cost (c ++ p ++ q)) by (apply cost_mono; rewrite !length_app; lia).
  destruct (iappend_run s F i t c p H E) as (s1 & E1 & H1); [lia|lia|]. rewrite (bind_Ret _ _ _ _ _ E1).
  assert (E' : <[i := (t, c ++ p)]> F !! i = Some (t, c ++ p)) by (apply list_lookup_insert_eq; by eapply lookup_lt_Some).
  assert (Hc1 : m_freeblock s1 = m_freeblock s + cost (c ++ p) - cost c).
  { rewrite (h_count _ _ H1), (h_count _ _ H), (total_insert F i t c t (c ++ p) E). lia. }
  destruct (IH s1 _ i t (c ++ p) H1 E') as (s2 & E2 & H2); [rewrite length_app; lia|rewrite <- app_assoc; lia|].
  exists s2. split; [done|]. by rewrite list_insert_insert_eq, <- app_assoc in H2.
Qed.

(** The file [arg] of the host can be read, and is [f]: the name it gets and its contents. *)
Context (host_open : list Z -> option reads).
Definition good (arg : list Z) (f : list Z * list Z) : Prop :=
  (slash ∉ shortname arg) /\ fst f = skip_underscore (shortname arg) /\ (length (fst f) <= 14)%nat /\
  (exists rs, host_open arg = Some rs /\ file_data rs = snd f) /\ Z.of_nat (length (snd f)) <= MAXFILE * BSIZE.

(** The entries of a directory for the files [fs], whose inodes are numbered from [n]. *)
Fixpoint entries (n : Z) (fs : list (list Z * list Z)) : list (list Z) :=
  match fs with [] => [] | f :: fs => new_dent n (fst f) :: entries (n + 1) fs end.

Lemma dirent_new n name : 0 <= n < 2 ^ 16 -> dirent_of n name = new_dent n name.
Proof. intros Hn. unfold dirent_of, new_dent. by rewrite xshort_id. Qed.

Lemma length_dirent n name : length (dirent_of n name) = 16%nat.
Proof. apply length_new_dent. Qed.

Lemma length_entries fs : forall n, length (entries n fs) = length fs.
Proof. induction fs as [|f fs IH]; intros n; [done|]. cbn [entries length]. by rewrite IH. Qed.

Lemma entries_16 fs : forall n, Forall (fun e => length e = 16%nat) (entries n fs).
Proof. induction fs as [|f fs IH]; intros n; constructor; [apply length_new_dent|apply IH]. Qed.

Lemma length_concat_16 (es : list (list Z)) : Forall (fun e => length e = 16%nat) es -> length (concat es) = (16 * length es)%nat.
Proof. induction 1 as [|e es He Hes IH]; [done|]. cbn [concat length]. rewrite length_app, He, IH. lia. Qed.

Lemma concat_16 (es : list (list Z)) k j : Forall (fun e => length e = 16%nat) es -> (k < length es)%nat -> (j < 16)%nat ->
  concat es !!! (16 * k + j)%nat = (es !!! k) !!! j.
Proof.
  intros H. revert k. induction H as [|e es He Hes IH]; intros k Hk Hj; [cbn in Hk; lia|]. cbn [concat]. destruct k as [|k].
  - by rewrite lookup_total_app_l by lia.
  - rewrite lookup_total_app_r by lia. rewrite He. replace (16 * S k + j - 16)%nat with (16 * k + j)%nat by lia. apply IH; [cbn in Hk; lia|done].
Qed.

Lemma add_file_run s root fs arg f : holds s ((T_DIR, root) :: fs) -> good arg f -> 3 + Z.of_nat (length fs) <= 200 ->
  Z.of_nat (length root) + 16 <= MAXFILE * BSIZE ->
  let F' := (T_DIR, root ++ dirent_of (Z.of_nat (length fs) + 2) (fst f)) :: fs ++ [(T_FILE, snd f)] in DS + total F' <= SZ ->
  exists s', add_file host_ok host_open 1 arg s = Ret tt s' /\ holds s' F'.
Proof.
  intros H (Hsl & En & Hl & (rs & Eo & Ed) & Hm) Hi Hr F' Hf. unfold add_file. rewrite bool_decide_eq_false_2, Eo by done. cbn match. rewrite <- En.
  rewrite (proj2 (Z.ltb_ge _ _)) by (change DIRSIZ with 14; lia).
  destruct (ialloc_run s _ T_FILE H) as (s1 & E1 & H1); [cbn [length]; lia|by right|]. rewrite (bind_Ret _ _ _ _ _ E1).
  cbn [length]. replace (Z.of_nat (S (length fs)) + 1) with (Z.of_nat (length fs) + 2) in * by lia. set (de := dirent_of _ _) in *.
  assert (Hde : length de = 16%nat) by apply length_dirent. pose proof (h_count _ _ H1) as C1. pose proof (cost_pos (snd f)) as Hp.
  cbn [app total snd] in C1. rewrite total_files_app in C1. subst F'. cbn [total snd] in Hf. rewrite total_files_app in Hf. cbn [total snd] in C1, Hf.
  change (nblk (bcount (Z.of_nat (length (@nil Z))))) with 0 in C1. fold (cost root) in C1. fold (cost (root ++ de)) (cost (snd f)) in Hf.
  destruct (iappend_run s1 _ 0 T_DIR root de H1 eq_refl) as (s2 & E2 & H2); [lia|lia|].
  change (Z.of_nat 0 + 1) with 1 in E2. rewrite (bind_Ret _ _ _ _ _ E2). change (holds s2 ((T_DIR, root ++ de) :: fs ++ [(T_FILE, [])])) in H2.
  pose proof (h_count _ _ H2) as C2. cbn [app total snd] in C2. rewrite total_files_app in C2. cbn [total snd] in C2. fold (cost (root ++ de)) in C2.
  change (nblk (bcount (Z.of_nat (length (@nil Z))))) with 0 in C2.
  destruct (copy_in_run rs s2 _ (S (length fs)) T_FILE [] H2) as (s3 & E3 & H3).
  - change ((fs ++ [(T_FILE, [])]) !! length fs = Some (T_FILE, [])). by rewrite lookup_app_r, Nat.sub_diag by done.
  - rewrite Ed. cbn [length]. lia.
  - rewrite Ed. cbn [app]. change (cost []) with 0. lia.
  - exists s3. replace (Z.of_nat (S (length fs)) + 1) with (Z.of_nat (length fs) + 2) in E3 by lia. split; [done|].
    change (holds s3 ((T_DIR, root ++ de) :: <[length fs := (T_FILE, [] ++ file_data rs)]> (fs ++ [(T_FILE, [])]))) in H3. rewrite insert_app_r_alt, Nat.sub_diag, Ed in H3 by done. done.
Qed.

Lemma total_le_app F G : total F <= total (F ++ G).
Proof. rewrite total_files_app. induction G as [|f G IH]; cbn [total]; [lia|]. pose proof (cost_pos (snd f)). unfold cost in *. lia. Qed.

Definition done_with (old : list (Z * list Z)) (f : list Z * list Z) : list (Z * list Z) := old ++ [(T_FILE, snd f)].

Lemma add_files_run args fs : Forall2 good args fs -> forall s root done,
  holds s ((T_DIR, root) :: done) -> 2 + Z.of_nat (length done) + Z.of_nat (length fs) <= 200 ->
  Z.of_nat (length root) + 16 * Z.of_nat (length fs) <= MAXFILE * BSIZE ->
  let F' := (T_DIR, root ++ concat (entries (Z.of_nat (length done) + 2) fs)) :: done ++ ((fun f => (T_FILE, snd f)) <$> fs) in DS + total F' <= SZ ->
  exists s', add_files host_ok host_open 1 args s = Ret tt s' /\ holds s' F'.
Proof.
  induction 1 as [|arg f args fs Hg Hgs IH]; intros s root old H Hi Hm F' Hf; cbn [length] in *.
  { exists s. unfold F'. cbn [entries concat fmap list_fmap]. by rewrite !app_nil_r. }
  cbn [add_files]. set (n := Z.of_nat (length old) + 2) in *. set (de := new_dent n (fst f)) in *.
  assert (Hde : dirent_of n (fst f) = de) by (apply dirent_new; lia). assert (H16 : length de = 16%nat) by apply length_new_dent.
  assert (Hroot : cost (root ++ de) <= cost (root ++ concat (entries n (f :: fs)))) by (apply cost_mono; cbn [entries concat]; fold de; rewrite !length_app; lia).
  assert (Ha : done_with old f ++ ((fun f => (T_FILE, snd f)) <$> fs) = old ++ ((fun f => (T_FILE, snd f)) <$> f :: fs)) by (unfold done_with; by rewrite <- app_assoc).
  destruct (add_file_run s root old arg f H Hg) as (s1 & E1 & H1); [lia|lia| |].
  { pose proof (total_le_app (done_with old f) ((fun f => (T_FILE, snd f)) <$> fs)) as Hle. rewrite Ha in Hle. fold n. rewrite Hde. unfold F' in Hf.
    cbn [total snd] in Hf |- *. fold (cost (root ++ de)). fold (cost (root ++ concat (entries n (f :: fs)))) in Hf. fold (done_with old f). lia. }
  fold n in H1. rewrite Hde in H1. rewrite (bind_Ret _ _ _ _ _ E1).
  assert (En : Z.of_nat (length (done_with old f)) + 2 = n + 1) by (unfold done_with; rewrite length_app; cbn; lia).
  destruct (IH s1 (root ++ de) (done_with old f) H1) as (s2 & E2 & H2); rewrite ?En, ?Ha, <- ?app_assoc; [lia|rewrite length_app; lia|exact Hf|].
  exists s2. split; [done|]. rewrite En, Ha, <- app_assoc in H2. exact H2.
Qed.

(** ** The image *)
(** The superblock, as the kernel's [readsb] decodes block 1. *)
Definition read_sb (img : Z -> list Z) : superblock :=
  let d := img 1 in
  mkSb (getn 4 d 0) (getn 4 d 4) (getn 4 d 8) (getn 4 d 12) (getn 4 d 16) (getn 4 d 20) (getn 4 d 24) (getn 4 d 28).

Definition disk_inode (img : Z -> list Z) (i : Z) : dinode := get_dinode (img (IBLOCK i (read_sb img))) (dinode_off i).

(** The files, by inode number from 1. *)
Definition dir_entries (fs : list (list Z * list Z)) : list (list Z) := new_dent 1 (bytes_of ".") :: new_dent 1 (bytes_of "..") :: entries 2 fs.
Definition tree_of (fs : list (list Z * list Z)) : list (Z * list Z) := (T_DIR, concat (dir_entries fs)) :: ((fun f => (T_FILE, snd f)) <$> fs).

(** What the kernel finds on an image with the files [fs], given by name and contents. *)
Record image_of (img : Z -> list Z) (fs : list (list Z * list Z)) : Prop := {
  im_sb : read_sb img = mkSb FSMAGIC SZ 1953 200 31 2 33 BM;
  (** nothing in the log to install *)
  im_log : forall b, 2 <= b < 33 -> img b = zero_block;
  (** the free map marks the blocks in front of the first free one *)
  im_map : forall b, 0 <= b < SZ -> usedv BM img b = (b <? DS + total (tree_of fs));
  im_file : forall i name c, fs !! i = Some (name, c) -> let d := disk_inode img (Z.of_nat i + 2) in
    d = mkDinode T_FILE 0 0 1 (Z.of_nat (length c)) (d_addrs d) /\ finv BM DS SZ img d /\ fbytes img d 0 (length c) = c;
  (** the root directory fills its last block *)
  im_root : let d := disk_inode img 1 in let n := (length fs + 2)%nat in
    d = mkDinode T_DIR 0 0 1 ((16 * Z.of_nat n / BSIZE + 1) * BSIZE) (d_addrs d) /\ take n (dents img d) = dir_entries fs /\
    (Z.of_nat n mod 64 <> 0 -> finv BM DS SZ img d /\ Forall (fun e => e = replicate 16 0) (drop n (dents img d)));
  (** its size goes past its blocks when the entries fill them *)
  im_hole : Z.of_nat (length fs + 2) mod 64 = 0 -> faddr img (disk_inode img 1) (16 * Z.of_nat (length fs + 2) / BSIZE) = 0;
  (** no block belongs to two inodes *)
  im_apart : forall i j b, 1 <= i <= Z.of_nat (length fs) + 1 -> 1 <= j <= Z.of_nat (length fs) + 1 -> i <> j ->
    owns img (disk_inode img i) b -> ~ owns img (disk_inode img j) b;
  (** the other inodes are free *)
  im_free : forall i, Z.of_nat (length fs) + 2 <= i < 200 -> disk_inode img i = no_inode
}.

Lemma zero_loop_run n : forall i s, 0 <= i -> i + Z.of_nat n <= SZ -> m_len s = i -> (forall b, m_img s b = zero_block) ->
  exists s', zero_loop host_ok n i s = Ret tt s' /\ m_len s' = i + Z.of_nat n /\ (forall b, m_img s' b = zero_block) /\
    m_sb s' = m_sb s /\ m_freeinode s' = m_freeinode s /\ m_freeblock s' = m_freeblock s.
Proof.
  induction n as [|n IH]; intros i s Hi Hn Hl Hz; [exists s; split_and!; done || lia|]. cbn [zero_loop]. unfold Mkfs.wsect.
  unfold mbind at 1, M_bind at 1. cbv zeta. rewrite seek_id, Hok by lia. set (s1 := set_img _ _ s).
  destruct (IH (i + 1) s1) as (s' & E & H1 & H2 & H3 & H4 & H5); [lia|lia|cbn [s1 set_img m_len]; lia| |].
  - intros b. cbn [s1 set_img m_img]. unfold zupd. by destruct (b =? i).
  - exists s'. split_and!; try done. lia.
Qed.

(** Right after the superblock was written. *)
Lemma start_run s : (forall b, m_img s b = zero_block) -> m_len s = 0 -> m_sb s = disk_sb -> m_freeinode s = 1 -> m_freeblock s = nmeta ->
  exists s1 s2, zero_loop host_ok (Z.to_nat FSSIZE) 0 s = Ret tt s1 /\ wsect 1 (sb_block disk_sb) s1 = Ret tt s2 /\ holds s2 [].
Proof.
  intros Hz Hl Hs Hi Hb. destruct (zero_loop_run (Z.to_nat FSSIZE) 0 s) as (s1 & E1 & L1 & Z1 & S1 & I1 & B1); [lia|done|done|done|].
  exists s1, (put_img 1 (sb_block disk_sb) s1). split; [done|]. split; [apply wsect_run; [by rewrite L1|lia]|].
  assert (Hat : forall i, 0 <= i < 208 -> inode_at (put_img 1 (sb_block disk_sb) s1) i = no_inode).
  { intros i Hir. unfold inode_at. cbn [put_img set_img m_img]. rewrite zupd_ne by (Z.to_euclidean_division_equations; lia). rewrite Z1. apply get_dinode_zero. }
  split; cbn [put_img set_img m_freeinode m_freeblock m_img]; try done.
  - split; cbn [put_img set_img m_len m_sb m_freeblock m_img].
    + by rewrite L1.
    + rewrite S1, Hs. apply disk_sb_eq.
    + intros b. unfold zupd. destruct (b =? 1); [vm_compute; reflexivity|]. by rewrite Z1.
    + rewrite B1, Hb. vm_compute. split; discriminate.
    + intros b Hbr. rewrite B1, Hb in Hbr. change nmeta with 47 in Hbr. by rewrite zupd_ne by lia.
  - rewrite I1, Hi. done.
  - intros i j Hil. cbn [length] in Hil. lia.
  - intros i Hir _. by apply Hat.
  - rewrite B1, Hb. done.
  - intros b Hbr. rewrite zupd_ne by lia. apply Z1.
Qed.

Lemma fbytes_eq v d off l n : length l = n -> (forall j, (j < n)%nat -> fbyte v d (off + Z.of_nat j) = l !!! j) -> fbytes v d off n = l.
Proof.
  intros Hl H. unfold fbytes, zseq. apply list_eq. intros j. rewrite !list_lookup_fmap. destruct (decide (j < n)%nat) as [Hj|Hj].
  - rewrite lookup_seq_lt by done. cbn [fmap option_fmap option_map]. rewrite Nat.add_0_l, Z.mul_1_l, H by done. symmetry. apply list_lookup_lookup_total_lt. lia.
  - rewrite lookup_seq_ge by lia. symmetry. apply lookup_ge_None_2. lia.
Qed.

Lemma length_dir_entries fs : length (dir_entries fs) = (length fs + 2)%nat.
Proof. unfold dir_entries. cbn [length]. rewrite length_entries. lia. Qed.

Lemma dir_entries_16 fs : Forall (fun e => length e = 16%nat) (dir_entries fs).
Proof. repeat constructor. apply entries_16. Qed.

(** The size of the root directory, rounded up to a block, and past it when it is a whole number of blocks. *)
Definition rounded (n : Z) : Z := (n / BSIZE + 1) * BSIZE.

Lemma node_ok v d t c : node v d t c -> dinode_ok d.
Proof.
  intros N. pose proof (nd_d _ _ _ _ N) as E. pose proof (nd_type _ _ _ _ N).
  apply (dinode_ok_finv DS geo v); [apply geo_bm|apply geo_size|apply N|..]; rewrite E; cbn [d_type d_major d_minor d_nlink]; lia.
Qed.

Lemma fix_root_run s root rest : holds s ((T_DIR, root) :: rest) -> Z.of_nat (length root) <= MAXFILE * BSIZE ->
  let d := set_size (rounded (Z.of_nat (length root))) (inode_at s 1) in
  fix_root host_ok 1 s = Ret tt (put_inode 1 d s) /\ dinode_ok d.
Proof.
  intros H Hm d. pose proof (h_node _ _ H 0%nat _ _ eq_refl) as N. change (Z.of_nat 0 + 1) with 1 in N. pose proof (h_laid _ _ H) as L.
  assert (Hr : 0 <= rounded (Z.of_nat (length root)) < 2 ^ 32) by (unfold rounded; rewrite MAXFILE_eq, BSIZE_eq in *; Z.to_euclidean_division_equations; lia).
  split.
  - unfold fix_root. rewrite (bind_Ret _ _ _ _ _ (rinode_run s 1 L ltac:(lia))). rewrite (nd_d _ _ _ _ N) at 1. cbn [d_size].
    rewrite MAXFILE_eq, BSIZE_eq in Hm. rewrite (xint_id (Z.of_nat (length root))) by lia. fold (rounded (Z.of_nat (length root))).
    rewrite u32_small, xint_id by lia. apply winode_run; [done|lia].
  - destruct (node_ok _ _ _ _ N) as [O1 O2 O3 O4 O5 O6 O7]. split; done.
Qed.

Section final.
Context (s : mkst) (fs : list (list Z * list Z)) (H : holds s (tree_of fs)).
Context (Hn : 2 + Z.of_nat (length fs) <= 200).
Let root := concat (dir_entries fs).
Let d := inode_at s 1.
Let d2 := set_size (rounded (Z.of_nat (length root))) d.
Let w := virt (put_inode 1 d2 s).

Lemma final_root_len : Z.of_nat (length root) = 16 * Z.of_nat (length fs + 2) /\ Z.of_nat (length root) <= MAXFILE * BSIZE.
Proof.
  unfold root. rewrite length_concat_16, length_dir_entries by apply dir_entries_16. rewrite MAXFILE_eq, BSIZE_eq. lia.
Qed.

Lemma final_data y : BM <= y -> w y = virt s y.
Proof. intros Hy. apply put_inode_virt; [apply H|lia|done]. Qed.

Lemma final_meta y : y < 33 -> w y = m_img s y.
Proof. intros Hy. unfold w, virt. rewrite zupd_ne by lia. apply put_inode_img; [apply H|lia|lia]. Qed.

Lemma final_sb : read_sb w = mkSb FSMAGIC SZ 1953 200 31 2 33 BM.
Proof. unfold read_sb. rewrite final_meta, (h_sblk _ _ H) by lia. vm_compute. reflexivity. Qed.

Lemma final_inode i : 0 <= i < 208 -> disk_inode w i = if i =? 1 then d2 else inode_at s i.
Proof.
  intros Hi. assert (Hd : dinode_ok d2) by (apply (fix_root_run s root _ H), final_root_len).
  rewrite <- (put_inode_at s 1 d2 i (h_laid _ _ H)) by (done || lia).
  destruct (iblock_eq s i (h_laid _ _ H) Hi) as [E Hb]. rewrite (la_sb _ (h_laid _ _ H)) in E.
  unfold disk_inode, inode_at. rewrite final_sb, E. unfold w, virt. by rewrite zupd_ne by lia.
Qed.

Lemma final_node i t c : tree_of fs !! i = Some (t, c) -> node w (inode_at s (Z.of_nat i + 1)) t c /\
  forall b, owns w (inode_at s (Z.of_nat i + 1)) b <-> owns (virt s) (inode_at s (Z.of_nat i + 1)) b.
Proof.
  intros E. pose proof (h_node _ _ H i t c E) as N. apply file_frame; [done| |].
  - intros y Hy. destruct (owns_used _ _ _ (nd_inv _ _ _ _ N) Hy). apply final_data. lia.
  - intros b. unfold usedv. by rewrite final_data by lia.
Qed.

Lemma final_root : take (length fs + 2) (dents w d2) = dir_entries fs /\
  (Z.of_nat (length fs + 2) mod 64 <> 0 -> finv BM DS SZ w d2 /\ Forall (fun e => e = replicate 16 0) (drop (length fs + 2) (dents w d2))).
Proof.
  destruct (final_node 0%nat T_DIR root eq_refl) as [[Ht Hd I F Hc Hz] _]. change (Z.of_nat 0 + 1) with 1 in *. fold d in Hd, I, F, Hc, Hz.
  destruct final_root_len as [Hl Hm]. set (n := (length fs + 2)%nat) in *. assert (Hs : d_size d2 = rounded (Z.of_nat (length root))) by done.
  assert (Hcnt : (n <= dcount d2)%nat).
  { unfold dcount. rewrite Hs, Hl. unfold rounded. rewrite BSIZE_eq. Z.to_euclidean_division_equations. lia. }
  split.
  - apply list_eq. intros k. destruct (decide (k < n)%nat) as [Hk|Hk].
    + rewrite lookup_take_lt, lookup_dents by lia. rewrite list_lookup_lookup_total_lt by (rewrite length_dir_entries; done). f_equal.
      apply fbytes_eq; [|intros j Hj].
      { assert (Hin : dir_entries fs !!! k ∈ dir_entries fs) by (apply list_elem_of_lookup_total_2; rewrite length_dir_entries; done).
        exact (proj1 (list.Forall_forall _ _) (dir_entries_16 fs) _ Hin). }
      rewrite <- concat_16 by (done || apply dir_entries_16 || rewrite length_dir_entries; done). fold root.
      change (fbyte w d2) with (fbyte w d). rewrite Hc by lia. f_equal. lia.
    + rewrite lookup_take_ge by lia. rewrite lookup_ge_None_2; [done|]. rewrite length_dir_entries. lia.
  - intros Hn64. assert (Er : rounded (Z.of_nat (length root)) = bcount (Z.of_nat (length root)) * BSIZE).
    { rewrite Hl. unfold rounded, bcount. rewrite BSIZE_eq. Z.to_euclidean_division_equations. lia. }
    split.
    + apply (finv_resize DS geo w w d); [apply geo_bm|exact I|done|rewrite Hd; cbn [d_size]|].
      * rewrite MAXFILE_eq, BSIZE_eq in *. unfold rounded. rewrite BSIZE_eq. Z.to_euclidean_division_equations. lia.
      * intros bn Hb Hlt. apply F; [rewrite MAXFILE_eq, BSIZE_eq in *; unfold rounded in Hlt; rewrite BSIZE_eq in Hlt; Z.to_euclidean_division_equations; lia|].
        rewrite Er, BSIZE_eq in Hlt. lia.
    + apply Forall_lookup. intros k e Hk. rewrite lookup_drop in Hk. pose proof (lookup_lt_Some _ _ _ Hk) as Hlt. rewrite length_dents in Hlt.
      rewrite lookup_dents in Hk by done. injection Hk as <-. apply fbytes_eq; [apply length_replicate|]. intros j Hj.
      rewrite lookup_total_replicate_2 by done. change (fbyte w d2) with (fbyte w d). apply Hz. rewrite <- Er.
      unfold dcount in Hlt. rewrite Hs in Hlt. assert (Hdiv : rounded (Z.of_nat (length root)) mod 16 = 0) by (unfold rounded; rewrite BSIZE_eq; Z.to_euclidean_division_equations; lia).
      Z.to_euclidean_division_equations. lia.
Qed.

Lemma tree_lookup i : (i < length fs)%nat -> exists name c, fs !! i = Some (name, c) /\ tree_of fs !! S i = Some (T_FILE, c).
Proof.
  intros Hi. destruct (lookup_lt_is_Some_2 _ _ Hi) as [[name c] E]. exists name, c. split; [done|].
  change (((fun f : list Z * list Z => (T_FILE, snd f)) <$> fs) !! i = Some (T_FILE, c)).
  by rewrite list_lookup_fmap, E.
Qed.

Lemma final_owns i b : 1 <= i <= Z.of_nat (length fs) + 1 -> owns w (disk_inode w i) b <-> owns (virt s) (inode_at s i) b.
Proof.
  intros Hi. rewrite final_inode by lia. assert (Hlt : (Z.to_nat (i - 1) < length (tree_of fs))%nat) by (unfold tree_of; cbn [length]; rewrite length_fmap; lia).
  destruct (lookup_lt_is_Some_2 _ _ Hlt) as [[t c] E]. destruct (final_node _ t c E) as [_ Ho]. replace (Z.of_nat (Z.to_nat (i - 1)) + 1) with i in Ho by lia.
  destruct (Z.eqb_spec i 1) as [->|]; [|apply Ho]. rewrite <- Ho. done.
Qed.

Lemma final_image : image_of w fs.
Proof.
  split.
  - apply final_sb.
  - intros b Hb. rewrite final_meta by lia. apply (h_log _ _ H). by right.
  - intros b Hb. unfold usedv. rewrite final_data by lia. rewrite <- (h_count _ _ H). apply virt_used; [apply H|rewrite BPB_eq; lia].
  - intros i name c E d0. assert (Hd0 : d0 = inode_at s (Z.of_nat i + 2)).
    { pose proof (lookup_lt_Some _ _ _ E). unfold d0. rewrite final_inode, (proj2 (Z.eqb_neq _ 1)) by lia. done. }
    destruct (tree_lookup i) as (name' & c' & E' & Et); [by eapply lookup_lt_Some|]. assert (c' = c) as -> by congruence.
    destruct (final_node (S i) T_FILE c Et) as [[Ht Hd I F Hc Hz] _]. replace (Z.of_nat (S i) + 1) with (Z.of_nat i + 2) in * by lia. rewrite <- Hd0 in *.
    split_and!; [done|done|]. apply fbytes_eq; [done|]. intros j Hj. rewrite Hc by lia. f_equal. lia.
  - intros d0 n. assert (Hd0 : d0 = d2) by (unfold d0; rewrite final_inode by lia; done). rewrite Hd0. split; [|apply final_root].
    destruct (final_node 0%nat T_DIR root eq_refl) as [N _]. change (Z.of_nat 0 + 1) with 1 in N. fold d in N. unfold n. rewrite <- (proj1 final_root_len).
    fold (rounded (Z.of_nat (length root))). unfold d2, set_size. cbn [d_addrs]. rewrite (nd_d _ _ _ _ N). done.
  - intros Hm. rewrite final_inode by lia. change (faddr w d (16 * Z.of_nat (length fs + 2) / BSIZE) = 0).
    destruct (final_node 0%nat T_DIR root eq_refl) as [N _]. change (Z.of_nat 0 + 1) with 1 in N. fold d in N.
    destruct (decide (faddr w d (16 * Z.of_nat (length fs + 2) / BSIZE) = 0)) as [|Hne]; [done|exfalso]. destruct final_root_len as [Hl Hmax].
    apply (nd_fill _ _ _ _ N) in Hne; rewrite Hl in *; unfold bcount in *; rewrite MAXFILE_eq, BSIZE_eq in *; Z.to_euclidean_division_equations; lia.
  - intros i j b Hi Hj Hne. rewrite !final_owns by done. intros Ho Ho'.
    assert (Hlen : length (tree_of fs) = S (length fs)) by (unfold tree_of; cbn [length]; by rewrite length_fmap).
    apply (h_apart _ _ H (Z.to_nat (i - 1)) (Z.to_nat (j - 1)) ltac:(lia) ltac:(lia) ltac:(lia) b).
    + by replace (Z.of_nat (Z.to_nat (i - 1)) + 1) with i by lia.
    + by replace (Z.of_nat (Z.to_nat (j - 1)) + 1) with j by lia.
  - intros i Hi. rewrite final_inode, (proj2 (Z.eqb_neq i 1)) by lia. apply (h_rest _ _ H); [lia|]. right. unfold tree_of. cbn [length]. rewrite length_fmap. lia.
Qed.
End final.

Lemma image_ext img img' fs : (forall y, img y = img' y) -> image_of img fs -> image_of img' fs.
Proof.
  intros E [A1 A2 A3 A4 A5 A8 A6 A7]. assert (Es : read_sb img' = read_sb img) by (unfold read_sb; by rewrite E).
  assert (Ei : forall i, disk_inode img' i = disk_inode img i) by (intros i; unfold disk_inode; by rewrite Es, E).
  assert (Eo : forall i b, owns img' (disk_inode img' i) b <-> owns img (disk_inode img i) b).
  { intros i b. rewrite Ei. unfold owns. by setoid_rewrite (faddr_ext img img' _ _ E). }
  assert (Ef : forall d, finv BM DS SZ img d -> finv BM DS SZ img' d) by (intros d; by apply finv_same).
  split.
  - by rewrite Es.
  - intros b Hb. rewrite <- E. by apply A2.
  - intros b Hb. unfold usedv. rewrite <- E. by apply A3.
  - intros i name c Hi. cbv zeta. rewrite Ei. destruct (A4 i name c Hi) as (H1 & H2 & H3). split_and!; [done|by apply Ef|]. by rewrite <- (fbytes_ext img img').
  - cbv zeta. rewrite Ei. destruct A5 as (H1 & H2 & H3). assert (Ed : dents img' (disk_inode img 1) = dents img (disk_inode img 1)).
    { unfold dents. apply list_fmap_ext. intros i k _. symmetry. by apply fbytes_ext. }
    rewrite Ed. split_and!; [done|done|]. intros Hm. destruct (H3 Hm). split; [by apply Ef|done].
  - rewrite Ei, <- (faddr_ext img img' _ _ E). apply A8.
  - intros i j b Hi Hj Hne. rewrite !Eo. by apply A6.
  - intros i Hi. rewrite Ei. by apply A7.
Qed.

Context (host_creat : list Z -> bool).

Lemma mkfs_run prog image args fs : host_creat image = true -> Forall2 good args fs ->
  2 + Z.of_nat (length fs) <= NINODES -> nmeta + total (tree_of fs) <= FSSIZE ->
  exists s, main host_creat host_ok host_open (prog :: image :: args) mk_start = Ret tt s /\ image_of (m_img s) fs.
Proof.
  intros Hc Hg Hi Hf. change NINODES with 200 in Hi. change nmeta with 47 in Hf. change FSSIZE with 2000 in Hf.
  set (s0 := mkMk (fun _ => zero_block) 0 disk_sb 1 nmeta). destruct (start_run s0) as (s1 & s2 & E1 & E2 & H2); [done..|].
  destruct (ialloc_run s2 [] T_DIR H2) as (s3 & E3 & H3); [cbn; lia|by left|]. change (Z.of_nat (length []) + 1) with 1 in E3.
  set (dot := new_dent 1 (bytes_of ".")). set (dots := new_dent 1 (bytes_of "..")).
  assert (Hd1 : length dot = 16%nat) by done. assert (Hd2 : length dots = 16%nat) by done.
  destruct (iappend_run s3 _ 0 T_DIR [] dot H3 eq_refl) as (s4 & E4 & H4); [done|rewrite (h_count _ _ H3); vm_compute; discriminate|].
  change (holds s4 [(T_DIR, dot)]) in H4. change (Z.of_nat 0 + 1) with 1 in E4.
  destruct (iappend_run s4 _ 0 T_DIR dot dots H4 eq_refl) as (s5 & E5 & H5); [done|rewrite (h_count _ _ H4); vm_compute; discriminate|].
  change (holds s5 [(T_DIR, dot ++ dots)]) in H5. change (Z.of_nat 0 + 1) with 1 in E5.
  assert (Et : tree_of fs = (T_DIR, (dot ++ dots) ++ concat (entries (Z.of_nat (length (@nil (Z * list Z))) + 2) fs)) :: [] ++ ((fun f => (T_FILE, snd f)) <$> fs)).
  { unfold tree_of, dir_entries. cbn [concat app length]. by rewrite <- app_assoc. }
  destruct (add_files_run args fs Hg s5 (dot ++ dots) [] H5) as (s6 & E6 & H6); [cbn [length]; lia|rewrite length_app, Hd1, Hd2, MAXFILE_eq, BSIZE_eq; lia|rewrite <- Et; lia|].
  rewrite <- Et in H6. destruct (fix_root_run s6 _ _ H6) as [E7 Hok7]; [by apply final_root_len|]. set (d2 := set_size _ _) in *.
  set (s7 := put_inode 1 d2 s6) in *. assert (L7 : laid s7) by (apply put_inode_laid; [apply H6|lia|apply Hok7]).
  exists (put_img BM (bitmap (Z.to_nat (m_freeblock s7))) s7). split.
  - unfold main. rewrite Hc. change ((modS ?g ≫= ?h) mk_start) with (h tt s0). cbv beta.
    rewrite (bind_Ret _ _ _ _ _ E1), (bind_Ret _ _ _ _ _ E2), (bind_Ret _ _ _ _ _ E3). change (negb (1 =? ROOTINO)) with false. cbn match.
    rewrite !dirent_new by lia. fold dot dots. rewrite (bind_Ret _ _ _ _ _ E4), (bind_Ret _ _ _ _ _ E5), (bind_Ret _ _ _ _ _ E6), (bind_Ret _ _ _ _ _ E7).
    change ((gets m_freeblock ≫= ?h) s7) with (h (m_freeblock s7) s7). cbv beta. pose proof (la_free _ L7). unfold balloc.
    rewrite i32_small by lia. rewrite (proj2 (Z.ltb_lt _ BPB)) by (rewrite BPB_eq; lia). change ((gets m_sb ≫= ?h) s7) with (h (m_sb s7) s7). cbv beta.
    rewrite (la_sb _ L7). apply wsect_run; [apply L7|cbn; lia].
  - apply (image_ext (virt s7)); [|apply (final_image s6 fs H6 ltac:(lia))]. intros y. done.
Qed.
End run.

(** ** Names *)
Lemma strncmp_pad_inv n : forall s t, Forall (fun c => c <> 0) s -> Forall (fun c => c <> 0) t ->
  strncmp_seq n s (take n t ++ replicate (n - length (take n t)) 0) = 0 -> take n s = take n t.
Proof.
  induction n as [|n IH]; intros s t Hs Ht; [done|]. destruct Hs as [|a s Ha Hs], Ht as [|b t Hb Ht]; cbn [take app length strncmp_seq hd tail replicate Nat.sub].
  - done.
  - change (negb (0 =? 0) && (0 =? b)) with false. cbn match. lia.
  - rewrite (proj2 (Z.eqb_neq a 0) Ha). cbn [negb andb]. lia.
  - rewrite (proj2 (Z.eqb_neq a 0) Ha). cbn [negb andb]. destruct (Z.eqb_spec a b) as [->|Hn]; [|lia]. intros E. f_equal. by apply IH.
Qed.

Definition plain_name (name : list Z) : Prop := Forall (fun c => c <> 0) name /\ (length name <= 14)%nat.

Lemma dmatch_inv inum name name' : plain_name name -> plain_name name' -> dmatch name (new_dent inum name') = true -> name = name'.
Proof.
  intros [Hs Hl] [Hs' Hl'] Hm. unfold dmatch in Hm. apply andb_prop in Hm as [_ Hm%Z.eqb_eq].
  assert (En : de_name (new_dent inum name') = pad_name name').
  { unfold de_name, new_dent. rewrite drop_app_length' by (by rewrite length_le_bytes). apply take_ge. unfold pad_name.
    rewrite length_app, length_replicate, length_take. lia. }
  rewrite En in Hm. apply strncmp_pad_inv in Hm; [|done|done]. change (Z.to_nat DIRSIZ) with 14%nat in Hm. by rewrite !take_ge in Hm by lia.
Qed.

Lemma lookup_entries fs : forall n i, entries n fs !! i = (fun f => new_dent (n + Z.of_nat i) (fst f)) <$> fs !! i.
Proof.
  induction fs as [|f fs IH]; intros n [|i]; try done; cbn [entries]; [change (Some (new_dent n (fst f)) = Some (new_dent (n + Z.of_nat 0) (fst f))); by rewrite Z.add_0_r|].
  change (entries (n + 1) fs !! i = (fun f => new_dent (n + Z.of_nat (S i)) (fst f)) <$> fs !! i). rewrite IH. by replace (n + 1 + Z.of_nat i) with (n + Z.of_nat (S i)) by lia.
Qed.

(** On an image, a search of the root directory for the name of a file finds the
    entry with the file's inode. *)
Lemma image_lookup img fs i name c : image_of img fs -> fs !! i = Some (name, c) -> 2 + Z.of_nat (length fs) <= NINODES ->
  Forall plain_name fs.*1 -> NoDup (bytes_of "." :: bytes_of ".." :: fs.*1) ->
  let l := dents img (disk_inode img 1) in
  first_index (dmatch name) l = Some (i + 2)%nat /\ de_inum (l !!! (i + 2)%nat) = Z.of_nat i + 2.
Proof.
  intros Im E Hn Hp Hd l. destruct (im_root _ _ Im) as (_ & Hl & _). fold l in Hl. pose proof (lookup_lt_Some _ _ _ E) as Hi.
  set (names := bytes_of "." :: bytes_of ".." :: fs.*1) in *. change NINODES with 200 in Hn.
  assert (Hpl : Forall plain_name names) by (constructor; [by split; [repeat constructor|cbn; lia]|constructor; [by split; [repeat constructor|cbn; lia]|done]]).
  assert (He : forall k x, (k < length fs + 2)%nat -> l !! k = Some x -> exists inum nm, x = new_dent inum nm /\ names !! k = Some nm /\ (2 <= k -> inum = Z.of_nat k)%nat).
  { intros k x Hk Hx. rewrite <- (lookup_take_lt l (length fs + 2) k), Hl in Hx by done. destruct k as [|[|k]].
    - injection Hx as <-. exists 1, (bytes_of "."). split_and!; [done|done|lia].
    - injection Hx as <-. exists 1, (bytes_of ".."). split_and!; [done|done|lia].
    - change (entries 2 fs !! k = Some x) in Hx. rewrite lookup_entries in Hx. destruct (fs !! k) as [[nm c']|] eqn:Ek; [|done]. injection Hx as <-.
      exists (2 + Z.of_nat k), nm. split_and!; [done| |lia]. change (fs.*1 !! k = Some nm). by rewrite list_lookup_fmap, Ek. }
  assert (Hin : names !! (i + 2)%nat = Some name) by (replace (i + 2)%nat with (S (S i)) by lia; change (fs.*1 !! i = Some name); by rewrite list_lookup_fmap, E).
  assert (Hll : (i + 2 < length l)%nat) by (apply (f_equal length) in Hl; rewrite length_take, length_dir_entries in Hl; lia).
  destruct (lookup_lt_is_Some_2 _ _ Hll) as [x Hx]. destruct (He (i + 2)%nat x ltac:(lia) Hx) as (inum & nm & -> & Hnm & Hin2).
  assert (nm = name) as -> by congruence. rewrite Hin2 in * by lia. assert (Hname : plain_name name) by (by eapply (proj1 (Forall_lookup _ _) Hpl)).
  destruct (dmatch_new (Z.of_nat (i + 2)) name) as [Hm Hino]; [apply Hname|lia|]. split.
  - apply first_index_Some. split; [by eexists|]. intros k y Hk Hy.
    destruct (He k y ltac:(lia) Hy) as (ino & nm & -> & Hnk & _). destruct (dmatch name (new_dent ino nm)) eqn:Em; [|done].
    assert (nm = name) as -> by (symmetry; eapply dmatch_inv; [done|by eapply (proj1 (Forall_lookup _ _) Hpl)|done]).
    pose proof (NoDup_lookup _ _ _ _ Hd Hnk Hin). lia.
  - rewrite (list_lookup_total_correct _ _ _ Hx), Hino. lia.
Qed.

(** C6: mkfs makes the image of the files named on its command line: if there are
    inodes for them, each fits the largest file, and their blocks fit the disk, it
    finishes, and on the image the kernel finds the superblock of the layout, an
    empty log, a free map that marks exactly the blocks in use, an inode for each
    file with the file's bytes, the root directory with their names, no block in
    two files and every other inode free; and when the names are distinct a search
    of the root directory for one finds that file's inode. *)
Theorem mkfs_correct host_creat host_ok host_open prog image args fs :
  (forall b, 0 <= b < FSSIZE -> host_ok b = true) -> host_creat image = true -> Forall2 (good host_open) args fs ->
  2 + Z.of_nat (length fs) <= NINODES -> nmeta + total (tree_of fs) <= FSSIZE ->
  exists s, main host_creat host_ok host_open (prog :: image :: args) mk_start = Ret tt s /\ image_of (m_img s) fs /\
    (Forall plain_name fs.*1 -> NoDup (bytes_of "." :: bytes_of ".." :: fs.*1) -> forall i name c, fs !! i = Some (name, c) ->
     let l := dents (m_img s) (disk_inode (m_img s) 1) in
     first_index (dmatch name) l = Some (i + 2)%nat /\ de_inum (l !!! (i + 2)%nat) = Z.of_nat i + 2).
Proof.
  intros Hok Hc Hg Hi Hf. destruct (mkfs_run host_ok Hok host_open host_creat prog image args fs Hc Hg Hi Hf) as (s & E & Im).
  exists s. split_and!; [done|done|]. intros Hp Hd i name c Hx. by apply (image_lookup _ fs i name c).
Qed.

(** *** A disk with two files *)
Definition host_files (a : list Z) : option reads :=
  if bool_decide (a = bytes_of "user/_cat") then Some [Some [1; 2; 3]; Some [4]; Some []]
  else if bool_decide (a = bytes_of "README") then Some [Some []] else None.
Definition two_files : list (list Z * list Z) := [(bytes_of "cat", [1; 2; 3; 4]); (bytes_of "README", [])].

Lemma mkfs_witness : exists s,
  main (fun _ => true) (fun _ => true) host_files [[]; bytes_of "fs.img"; bytes_of "user/_cat"; bytes_of "README"] mk_start = Ret tt s /\
  fbytes (m_img s) (disk_inode (m_img s) 2) 0 4 = [1; 2; 3; 4] /\ first_index (dmatch (bytes_of "cat")) (dents (m_img s) (disk_inode (m_img s) 1)) = Some 2%nat.
Proof.
  destruct (mkfs_correct (fun _ => true) (fun _ => true) host_files [] (bytes_of "fs.img") [bytes_of "user/_cat"; bytes_of "README"] two_files) as (s & E & Im & Hl).
  - done.
  - done.
  - repeat constructor; try (vm_compute; lia || discriminate); try (apply (bool_decide_unpack _); vm_compute; exact I); by eexists.
  - vm_compute. discriminate.
  - vm_compute. discriminate.
  - exists s. split; [exact E|]. split; [exact (proj2 (proj2 (im_file _ _ Im 0%nat (bytes_of "cat") [1; 2; 3; 4] eq_refl)))|].
    apply (Hl ltac:(repeat constructor; try (vm_compute; lia || discriminate)) ltac:(apply (bool_decide_unpack _); vm_compute; exact I) 0%nat (bytes_of "cat") [1; 2; 3; 4] eq_refl).
Defined.
